(* ===== verification/_CoqProject ===== *)
-Q . S2P
Prelude.v
PyTime.v
PyFloat.v
PyVal.v
Text.v
RecordQueue.v
Codec.v
Spool.v
Connect.v
Buffered.v
Usage.v
NodeMetrics.v
Regex.v
Classify.v
Redact.v
Enrich.v
NodePipeline.v
Sql.v
Maintenance.v
Upsert.v
Undisturbed.v
DbWriter.v
WriterFacts.v
WriterSafety.v
Upkeep.v
WriterThread.v
Daemon.v
Config.v
ProbeHost.v
StderrLog.v
Session.v
ProbeNode.v
ProbeProc.v
ProbeGpu.v
ProbeTracker.v
ProbeEmit.v
ProbeLock.v
ProbeStream.v
Recorder.v
Replay.v
Interleave.v
Instance.v
Summary.v
ProbeWatch.v
Backfill.v
Queries.v
Migrate.v
Output.v
Live.v
Launch.v
Bootstrap.v
Fleet.v
Commands.v
PrivateFiles.v
