(* ===== verification/Prelude.v ===== *)
(** * node-monitor: a verification library for the collector

    node-monitor watches the login and service nodes of a cluster.  A collector daemon holds
    one ssh session per node; each session runs a probe on the node, which sends a line of
    JSON every few seconds (counters) and every minute (a census of the processes).  Per node
    a pipeline turns the messages into storage records; the records of all nodes go through
    one queue to a writer thread, which writes them to PostgreSQL and, while that is out of
    reach, to a spool on disk.  This library models those parts from their source under
    [src/node_monitor/] and proves what makes them right.  This file is the prelude: the
    notations, the monad of the stateful code with its triples, dictionaries and list lemmas
    the components share.

    ** The parts, from the node to the database

    - the probe ([probe/probe.py], the files Probe*.v): ProbeHost.v is the node as the probe
      asks it (files, clocks, children, the class [Host], whose every answer may depend on all
      that happened before); ProbeNode.v the node readers, ProbeProc.v the walk of /proc,
      ProbeTracker.v the CPU time charged between two censuses, ProbeGpu.v nvidia-smi under a
      deadline, ProbeEmit.v the output with its numbered lines and signals, ProbeLock.v the
      lock with its takeover, ProbeStream.v the main loop, ProbeWatch.v the main thread and
      the watchdog on the emitter's lock;
    - the sessions ([collector/session.py]): Session.v the coroutine of a node, with
      reconnection, rotation, silence and the end of the process group, StderrLog.v what is
      kept of stderr; Launch.v ([collector/bootstrap.py], [collector/ssh.py], [build_sessions]
      of [collector/fleet.py]) the command, the payload and the ssh configuration they start
      with, Fleet.v (the rest of [collector/fleet.py]) running them and stopping them together;
    - the daemon ([collector/daemon.py]): Daemon.v the callbacks of the sessions, start and
      stop, the composition of pipelines, queue and writer thread; Instance.v
      ([collector/instance.py] and the daemon commands of [cli/main.py]) the guard that keeps
      it alone; Config.v ([config.py]) what it is started with;
    - the pipeline ([pipeline/*.py]): NodePipeline.v the handlers, over NodeMetrics.v (rows a
      minute), Usage.v (summaries a five-minute interval), Enrich.v, Classify.v (with the rule
      tables of [rules.py]), Redact.v, and Regex.v, a matcher for the patterns of both;
    - the queue ([collector/record_queue.py]): RecordQueue.v;
    - the writer thread ([collector/writer_thread.py], [collector/upkeep.py]): WriterThread.v
      and Upkeep.v (heartbeat, partitions and retention on schedule);
    - the database ([database/*.py]): Sql.v the tables, statements and sessions of the server;
      DbWriter.v writing a batch, with its facts in Upsert.v, Undisturbed.v, WriterFacts.v and
      WriterSafety.v; Maintenance.v partitions; Bootstrap.v the roles, the database and the
      grants; Migrate.v the schema's migrations; Connect.v what counts as an outage; Buffered.v writing through an outage; Spool.v the spool;
      Codec.v its encoding;
    - recordings ([collector/soak.py], [pipeline/replay.py]): Recorder.v the soak recorder,
      PrivateFiles.v the directory and manifest it is made in (and [version.py]), Summary.v its report, Replay.v a capture fed through the pipelines again, Backfill.v
      ([_DatabaseSink] of [cli/main.py]) what it makes written to the database;
    - the views ([database/queries.py], [cli/live.py], [cli/output.py]): Queries.v the queries of
      the live tables, Live.v the commands that show them, Output.v what reaches the terminal;
    - the other commands ([cli/main.py]): Commands.v [database migrate], [status] and [wait],
      [config --create], [daemon status] and the table of [soak report].

    PyTime.v, PyFloat.v, PyVal.v and Text.v are the Python the code uses: [datetime],
    [float] (IEEE binary64), JSON values and records, [str] methods.

    ** How the code is translated

    A method that changes state is a computation of [M S A]: a state [S] to a result or an
    exception and a state, which keeps what was done before a raise.  [try]/[except] is
    [try_except], a loop [foldM]; an exception no handler of the model may see is [Exit] (the
    process ends) or [Hang] (a call that does not return).  A part is a component of a larger
    state through [zoom].  Dictionaries keep their insertion order ([dget], [dset],
    [dmerge]).  What lies outside the program is a class or a script that no theorem
    restricts: the file system's failures ([env] of Spool.v, [io] of Recorder.v), the server's
    answers ([answers] of Sql.v, [replies] of Migrate.v), the host ([Host]), asyncio and ssh
    ([Remote]), the YAML parser and environment ([Outside]), the text of JSON ([JsonText]),
    the Unicode tables ([Unicode]).  A theorem that relies on such code names the documented
    behaviour it uses as a hypothesis or a class of laws ([JsonLaws], for example), and its
    witness gives an instance.  Concurrency is explicit: the threads' steps on the queue are a
    sequence (RecordQueue.v, WriterThread.v), the event loop runs one callback at a time
    (Daemon.v), and the processes of the guard (Instance.v) and the probe's two threads
    (ProbeWatch.v) are programs that interleave call by call (Interleave.v).

    ** What the theorems show

    - nothing durable is lost in silence: [Daemon.collector_conserves] (from the sessions to
      disk or database) rests on [RecordQueue.durable_conserved], [WriterThread.thread_conserves],
      [Buffered.submit_conserves] and [Spool.append_conserves]; [Buffered.replay_drains] and the
      round trips of Spool.v and Codec.v say that what was spooled comes back;
    - a write is all or nothing and safe to repeat ([WriterSafety.write_exactly_once]), live
      state moves forward only ([write_forward]), snapshots replace ([write_snapshots]), and
      retention takes no row too early ([Maintenance.retention_safe]);
    - the summaries are those of the samples: [NodeMetrics.minute_stream], [Usage.usage_stream],
      [Usage.node_is_sum_of_users], [NodePipeline.emitted_once]; the nodes do not mix
      ([Daemon.daemon_node_isolation]); command lines are only masked
      ([Redact.redact_adds_only_mask]);
    - the probe accounts for every process ([ProbeProc.scan_accounts],
      [ProbeProc.parse_stat_any_comm], [ProbeTracker.consecutive_deltas]), numbers its lines
      ([ProbeStream.stream_numbered]), ends its writes ([ProbeEmit.write_all_terminates]) and
      signals nobody but a probe ([ProbeLock.signals_marked]);
    - a session's events tell its life ([Session.session_lifecycle]); housekeeping keeps its
      schedule ([Upkeep.upkeep_schedule], [Upkeep.tick_maintains]); a configuration that is
      accepted can be run on ([Config.load_config_valid], [Config.load_config_private]);
    - one daemon at a time ([Instance.instance_exclusive]); the probe's lines are never split
      nor followed past the report of a signal ([ProbeWatch.lines_never_split]); a migration
      is applied once, whatever fails ([Migrate.migrate_exactly_once]), and a bootstrap that was
      interrupted is completed by the next ([Bootstrap.bootstrap_converges]);
    - a session that fails takes no other with it, and they are stopped and awaited together
      ([Fleet.sessions_stopped]);
    - a capture replays as it was recorded ([Replay.replay_faithful]), the recorder stays out of
      the session's way ([Recorder.recorder_contained]), and the summary of a recording is that
      of its sessions ([Summary.summary_by_sessions], [Summary.summarize_recorded]);
      nothing of it is readable by others ([PrivateFiles.recording_private]);
      replayed into the database, every record is accounted for ([Backfill.backfill_accounts]);
    - a node is launched as configured, whatever its arguments ([Launch.launch_faithful]), with an
      ssh configuration that is whole ([Launch.ssh_config_whole]);
    - a view hides nothing without saying so ([Queries.nothing_hidden]), puts no text of its
      caller into a statement ([Queries.statements_closed]) and adds up
      ([Queries.users_agree]); [status] tells the collector's health ([Live.status_health]);
    - [database wait] ends ([Commands.database_wait_ends]), migrations run as the schema's owner or
      not at all ([Commands.migrate_needs_owner]), [daemon status] exits by what is healthy
      ([Commands.daemon_status_code]), and the report's table is aligned
      ([Commands.report_aligned]);
    - no text of the database drives a terminal ([Output.terminal_safe]), and CSV reads back
      ([Output.csv_reads_back]).

    Some theorems show what the code does not do, and are kept as findings:
    [Instance.stop_hits_stranger], [Instance.first_start_clobbered],
    [Replay.longer_label_globbed], [Fleet.cancelled_unawaited], [Bootstrap.newline_accepted],
    [Daemon.daemon_demo], [Usage.cpu_marginal_rounds],
    [Config.infinite_interval] and [Config.endless_interval].

    ** Fuel and bounds

    Recursion that is not structural takes fuel, and running out is [Hang] or an outcome of its
    own, never a result: [ProbeEmit._write_all] needs (most + 1) calls a byte when a write is
    blocked at most [most] times in a row, which [write_all_terminates] proves enough;
    the waits of ProbeLock.v and Session.v, the session's pump and the loops of the probe and
    of a node are bounded by fuel and their theorems hold for every amount of it; [chunks] of
    Codec.v has a unit a byte, which suffices since each step takes at least one; the matcher
    of Regex.v has its own measure.  Integers are Python's, without bound; floats round.

    ** What is not modelled, and why

    Asyncio's scheduling inside a session (the helpers of session.py that wait for several things
    at once), represented by the class [Remote], and between the callbacks, by the order of the
    daemon's inputs; the options of the command line and the starting of processes ([cli/main.py]),
    the columns of [cli/live.py], click and rich; [run_soak] after its start, which is the sessions
    of Fleet.v over the recorder of Recorder.v; the modes of files, except where Config.v,
    Launch.v and PrivateFiles.v set or check them. *)

From Stdlib Require Import ZArith Lia.
From stdpp Require Export prelude sorting gmap strings.
From Stdlib Require Export Ascii.
From stdpp Require Export strings list.

Open Scope Z_scope.

(** ** Scope and hint databases of the development *)

Declare Scope py_scope.
Delimit Scope py_scope with py.

Create HintDb nm discriminated.
Create Rewrite HintDb nm_rw.

(** ** Python exceptions and fallible computations

    [exn] lists the exception classes the modelled code raises, catches or tells apart.
    [OSErr] is [OSError]; [FileNotFound] is its subclass [FileNotFoundError], [OSSub] another of
    them by its name.  [Exit] is [os._exit], which ends the process there, and
    [Hang] a call that does not return: no handler sees them.
    [PgError] is
    [psycopg.Error]: its class name, whether that is [OperationalError] or a subclass of it,
    its SQLSTATE (empty when there is none) and its text. *)

Inductive exn :=
| ValueError (msg : string)
| KeyError (key : string)
| TypeError
| AttributeError
| ZeroDivisionError
| RuntimeError (msg : string)
| OverflowError
| ConfigError (msg : string)
| FileNotFound
| OSErr (msg : string)
| OSSub (cls msg : string)
| TimeoutExpired
| LockHeldByOther (msg : string)
| SchemaOutOfDate (msg : string)
| ClickException (msg : string)
| Exit (code : Z)
| Hang
| DatabaseUnavailable (msg : string)
| PgError (cls : string) (operational : bool) (sqlstate : string) (msg : string).

#[export] Instance exn_eq_dec : EqDecision exn.
Proof. solve_decision. Defined.

(** [type(exc).__name__] and [str(exc)] *)
Definition exn_class (e : exn) : string :=
  match e with
  | ValueError _ => "ValueError"
  | KeyError _ => "KeyError"
  | TypeError => "TypeError"
  | AttributeError => "AttributeError"
  | ZeroDivisionError => "ZeroDivisionError"
  | RuntimeError _ => "RuntimeError"
  | OverflowError => "OverflowError"
  | ConfigError _ => "ConfigError"
  | FileNotFound => "FileNotFoundError"
  | OSErr _ => "OSError"
  | OSSub cls _ => cls
  | TimeoutExpired => "TimeoutExpired"
  | LockHeldByOther _ => "LockHeldByOther"
  | SchemaOutOfDate _ => "SchemaOutOfDate"
  | ClickException _ => "ClickException"
  | Exit _ | Hang => ""
  | DatabaseUnavailable _ => "DatabaseUnavailable"
  | PgError cls _ _ _ => cls
  end.

Definition exn_text (e : exn) : string :=
  match e with
  | ValueError m | RuntimeError m | ConfigError m | OSErr m | OSSub _ m | LockHeldByOther m | SchemaOutOfDate m | ClickException m
  | DatabaseUnavailable m | PgError _ _ _ m => m
  | KeyError k => "'" +:+ k +:+ "'"
  | TypeError | AttributeError | OverflowError | TimeoutExpired | Exit _ | Hang => ""
  | ZeroDivisionError => "division by zero"
  | FileNotFound => "No such file or directory"
  end.

(** [isinstance(e, OSError)] *)
Definition is_oserror (e : exn) : bool :=
  match e with FileNotFound | OSErr _ | OSSub _ _ => true | _ => false end.

(** [except Exception]: everything but the process's end. *)
Definition is_exception (e : exn) : bool := match e with Exit _ | Hang => false | _ => true end.

Inductive res (A : Type) :=
| Ok (a : A)
| Raise (e : exn).
Arguments Ok {A} a.
Arguments Raise {A} e.

#[export] Instance res_ret : MRet res := fun _ => Ok.
#[export] Instance res_bind : MBind res :=
  fun A B f c => match c with Ok a => f a | Raise e => Raise e end.

Lemma res_bind_ok {A B} (c : res A) (k : A -> res B) y :
  c ≫= k = Ok y -> exists x, c = Ok x /\ k x = Ok y.
Proof. destruct c as [x|e]; cbn; [eauto | discriminate]. Qed.

Lemma res_Ok_inj {A} (x y : A) : Ok x = Ok y -> x = y.
Proof. by intros [= ->]. Qed.

(** Takes apart [x ← c; ... = Ok y]. *)
Tactic Notation "ok_step" hyp(E) "as" simple_intropattern(p) := apply res_bind_ok in E as p.

(** Stateful code that may raise: the state reached when an exception is raised is kept,
    as Python keeps the mutations made before a [raise]. *)

Definition M (S A : Type) : Type := S -> res A * S.

Section Monad.
Context {S : Type}.

Definition ret {A} (a : A) : M S A := fun s => (Ok a, s).
Definition raise {A} (e : exn) : M S A := fun s => (Raise e, s).
Definition bind {A B} (c : M S A) (k : A -> M S B) : M S B :=
  fun s => match c s with
           | (Ok a, s') => k a s'
           | (Raise e, s') => (Raise e, s')
           end.
Definition gets {A} (f : S -> A) : M S A := fun s => (Ok (f s), s).
Definition modify (f : S -> S) : M S unit := fun s => (Ok tt, f s).
Definition lift {A} (r : res A) : M S A := fun s => (r, s).

(** [try: c  except E: h], where [h] returns [None] for an exception it does not catch. *)
Definition try_except {A} (c : M S A) (h : exn -> option (M S A)) : M S A :=
  fun s => match c s with
           | (Ok a, s') => (Ok a, s')
           | (Raise e, s') => match h e with
                              | Some k => k s'
                              | None => (Raise e, s')
                              end
           end.

(** [for x in l: f x], the body threading an accumulator. *)
Fixpoint foldM {A B} (f : B -> A -> M S B) (b : B) (l : list A) : M S B :=
  match l with
  | [] => ret b
  | x :: l => bind (f b x) (fun b => foldM f b l)
  end.

Definition when (b : bool) (c : M S unit) : M S unit := if b then c else ret tt.

(** Running a compound computation from the outcome of its first part. *)
Lemma run_bind {A B} (c : M S A) (k : A -> M S B) s r s' :
  c s = (r, s') ->
  bind c k s = match r with Ok a => k a s' | Raise e => (Raise e, s') end.
Proof. unfold bind. by intros ->. Qed.

Lemma run_try {A} (c : M S A) h s r s' :
  c s = (r, s') ->
  try_except c h s = match r with
                     | Ok a => (Ok a, s')
                     | Raise e => match h e with Some k => k s' | None => (Raise e, s') end
                     end.
Proof. unfold try_except. by intros ->. Qed.

Lemma run_bind_ok {A B} (c : M S A) (k : A -> M S B) s a s' out :
  c s = (Ok a, s') -> k a s' = out -> bind c k s = out.
Proof. unfold bind. by intros ->. Qed.

Lemma run_try_ok {A} (c : M S A) h s a s' :
  c s = (Ok a, s') -> try_except c h s = (Ok a, s').
Proof. unfold try_except. by intros ->. Qed.

Lemma run_try_caught {A} (c : M S A) h s e s' k out :
  c s = (Raise e, s') -> h e = Some k -> k s' = out -> try_except c h s = out.
Proof. unfold try_except. by intros -> ->. Qed.
End Monad.

Notation "'let*' x ':=' c 'in' k" := (bind c (fun x => k))
  (at level 10, x name, c at level 200, k at level 200) : py_scope.
Notation "'let*' ' p ':=' c 'in' k" := (bind c (fun x => match x with p => k end))
  (at level 10, p strict pattern, c at level 200, k at level 200) : py_scope.
Notation "c ;;; k" := (bind c (fun _ => k))
  (at level 100, right associativity) : py_scope.

(** Running a computation on a component of a larger state. *)
Definition zoom {S T A} (get : T -> S) (set : S -> T -> T) (c : M S A) : M T A :=
  fun t => let '(r, s) := c (get t) in (r, set s t).

(** ** Hoare triples for [M]

    [hoare P c Q]: from a state satisfying [P], [c] ends in a state and an outcome (a value
    or an exception) satisfying [Q]. *)

Definition hoare {S A} (P : S -> Prop) (c : M S A) (Q : res A -> S -> Prop) : Prop :=
  forall s, P s -> Q (fst (c s)) (snd (c s)).

Section Hoare.
Context {S : Type}.
Implicit Types (P : S -> Prop).

(** A triple by running the computation once. *)
Lemma hoare_run {A} (c : M S A) P (Q : res A -> S -> Prop) :
  (forall s, P s -> let '(r, s') := c s in Q r s') -> hoare P c Q.
Proof. intros H s Hs. specialize (H s Hs). by destruct (c s). Qed.

Lemma hoare_ret {A} (a : A) P (Q : res A -> S -> Prop) :
  (forall s, P s -> Q (Ok a) s) -> hoare P (ret a) Q.
Proof. intros H s Hs. by apply H. Qed.

Lemma hoare_raise {A} e P (Q : res A -> S -> Prop) :
  (forall s, P s -> Q (Raise e) s) -> hoare P (raise e) Q.
Proof. intros H s Hs. by apply H. Qed.

Lemma hoare_gets {A} (f : S -> A) P (Q : res A -> S -> Prop) :
  (forall s, P s -> Q (Ok (f s)) s) -> hoare P (gets f) Q.
Proof. intros H s Hs. by apply H. Qed.

Lemma hoare_modify (f : S -> S) P (Q : res unit -> S -> Prop) :
  (forall s, P s -> Q (Ok tt) (f s)) -> hoare P (modify f) Q.
Proof. intros H s Hs. by apply H. Qed.

Lemma hoare_bind {A B} (c : M S A) (k : A -> M S B) P (R : A -> S -> Prop) Q :
  hoare P c (fun r s => match r with Ok a => R a s | Raise e => Q (Raise e) s end) ->
  (forall a, hoare (R a) (k a) Q) ->
  hoare P (bind c k) Q.
Proof.
  intros Hc Hk s Hs. specialize (Hc s Hs). unfold bind.
  destruct (c s) as [[a|e] s']; simpl in *; [by apply Hk | done].
Qed.

Lemma hoare_try {A} (c : M S A) h P (R : exn -> S -> Prop) (Q : res A -> S -> Prop) :
  hoare P c (fun r s => match r with Ok a => Q (Ok a) s | Raise e => R e s end) ->
  (forall e k, h e = Some k -> hoare (R e) k Q) ->
  (forall e s, h e = None -> R e s -> Q (Raise e) s) ->
  hoare P (try_except c h) Q.
Proof.
  intros Hc Hk Hn s Hs. specialize (Hc s Hs). unfold try_except.
  destruct (c s) as [[a|e] s']; simpl in *; [done|].
  destruct (h e) as [k|] eqn:E; simpl; [by eapply Hk | by apply Hn].
Qed.

Lemma hoare_conseq {A} (c : M S A) (P P' : S -> Prop) (Q Q' : res A -> S -> Prop) :
  hoare P' c Q' -> (forall s, P s -> P' s) -> (forall r s, Q' r s -> Q r s) -> hoare P c Q.
Proof. intros H HP HQ s Hs. by apply HQ, H, HP. Qed.

Lemma hoare_pre {A} (c : M S A) (P P' : S -> Prop) (Q : res A -> S -> Prop) :
  hoare P' c Q -> (forall s, P s -> P' s) -> hoare P c Q.
Proof. intros H HP s Hs. by apply H, HP. Qed.

Lemma hoare_post {A} (c : M S A) (P : S -> Prop) (Q Q' : res A -> S -> Prop) :
  hoare P c Q' -> (forall r s, Q' r s -> Q r s) -> hoare P c Q.
Proof. intros H HQ s Hs. by apply HQ, H. Qed.

Lemma hoare_and {A} (c : M S A) (P1 P2 : S -> Prop) (Q1 Q2 : res A -> S -> Prop) :
  hoare P1 c Q1 -> hoare P2 c Q2 ->
  hoare (fun s => P1 s /\ P2 s) c (fun r s => Q1 r s /\ Q2 r s).
Proof. intros H1 H2 s [? ?]. split; auto. Qed.

(** A fact about no state among the premises. *)
Lemma hoare_pure {A} (c : M S A) P (φ : Prop) (Q : res A -> S -> Prop) :
  (φ -> hoare P c Q) -> hoare (fun s => P s /\ φ) c Q.
Proof. intros H s [Hs Hφ]. exact (H Hφ s Hs). Qed.

(** A computation that touches no state. *)
Lemma hoare_lift {A} (x : res A) P (Q : res A -> S -> Prop) :
  (forall s, P s -> Q x s) -> hoare P (lift x) Q.
Proof. intros H s Hs. by apply H. Qed.

(** Two computations that run alike. *)
Lemma hoare_ext {A} (c c' : M S A) P (Q : res A -> S -> Prop) :
  (forall s, c s = c' s) -> hoare P c' Q -> hoare P c Q.
Proof. intros E H s Hs. rewrite E. by apply H. Qed.

Lemma hoare_if {A} (b : bool) (c1 c2 : M S A) P Q :
  (b = true -> hoare P c1 Q) -> (b = false -> hoare P c2 Q) ->
  hoare P (if b then c1 else c2) Q.
Proof. destruct b; auto. Qed.

(** A loop that keeps [I] at every outcome keeps it. *)
Lemma hoare_foldM {A B} (f : B -> A -> M S B) (I : list A -> B -> S -> Prop) E l b :
  (forall x l b, hoare (I (x :: l) b) (f b x)
      (fun r s => match r with Ok b => I l b s | Raise e => E e s end)) ->
  hoare (I l b) (foldM f b l)
      (fun r s => match r with Ok b => I [] b s | Raise e => E e s end).
Proof.
  intros Hf. revert b. induction l as [|x l IH]; intros b; simpl.
  - apply hoare_ret. done.
  - eapply hoare_bind; [apply Hf | intros b'; apply IH].
Qed.
End Hoare.

Lemma hoare_zoom {S T A} (get : T -> S) set (c : M S A) (P : T -> Prop) (Q : res A -> T -> Prop) :
  (forall t, P t -> Q (fst (c (get t))) (set (snd (c (get t))) t)) ->
  hoare P (zoom get set c) Q.
Proof. intros H t Ht. unfold zoom. specialize (H t Ht). by destruct (c (get t)). Qed.

(** [I] holds after [c] whatever its outcome. *)
Definition keeps {S A} (I : S -> Prop) (c : M S A) : Prop := hoare I c (fun _ s => I s).

Section Keeps.
Context {S : Type} (I : S -> Prop).

Lemma keeps_ret {A} (a : A) : keeps I (ret a).
Proof. by apply hoare_ret. Qed.
Lemma keeps_raise {A} e : keeps I (@raise S A e).
Proof. by apply hoare_raise. Qed.
Lemma keeps_gets {A} (f : S -> A) : keeps I (gets f).
Proof. by apply hoare_gets. Qed.
Lemma keeps_modify (f : S -> S) : (forall s, I s -> I (f s)) -> keeps I (modify f).
Proof. intros H. by apply hoare_modify. Qed.
Lemma keeps_bind {A B} (c : M S A) (k : A -> M S B) :
  keeps I c -> (forall a, keeps I (k a)) -> keeps I (bind c k).
Proof.
  intros Hc Hk. eapply hoare_bind with (R := fun _ s => I s); [|done].
  eapply hoare_post; [exact Hc|]. by intros [] s Hs.
Qed.
Lemma keeps_try {A} (c : M S A) h :
  keeps I c -> (forall e k, h e = Some k -> keeps I k) -> keeps I (try_except c h).
Proof.
  intros Hc Hh. eapply hoare_try with (R := fun _ s => I s); [| exact Hh | done].
  eapply hoare_post; [exact Hc|]. by intros [] s Hs.
Qed.
Lemma keeps_foldM {A B} (f : B -> A -> M S B) b l :
  (forall b x, keeps I (f b x)) -> keeps I (foldM f b l).
Proof.
  intros Hf. revert b. induction l as [|x l IH]; intros b; simpl; [apply keeps_ret|].
  apply keeps_bind; auto.
Qed.
Lemma keeps_lift {A} (r : res A) : keeps I (lift r).
Proof. by intros s Hs. Qed.
Lemma keeps_if {A} (b : bool) (c1 c2 : M S A) :
  keeps I c1 -> keeps I c2 -> keeps I (if b then c1 else c2).
Proof. by destruct b. Qed.
Lemma keeps_when b c : keeps I c -> keeps I (when b c).
Proof. destruct b; simpl; auto using keeps_ret. Qed.
End Keeps.

#[export] Hint Resolve keeps_ret keeps_raise keeps_gets keeps_modify keeps_bind keeps_foldM
  keeps_lift keeps_if keeps_when : nm.

(** ** Loops *)

Lemma bind_modify {S A} (f : S -> S) (k : unit -> M S A) s : bind (modify f) k s = k tt (f s).
Proof. done. Qed.

Lemma foldM_map {S A B C} (f : C -> B -> M S C) (g : A -> B) l c s :
  foldM f c (map g l) s = foldM (fun c a => f c (g a)) c l s.
Proof. revert c s. induction l as [|a l IH]; intros c s; [done|]. cbn. unfold bind. destruct (f c (g a) s) as [[]]; auto. Qed.

Lemma foldM_app {S A B} (f : B -> A -> M S B) l1 l2 b s :
  foldM f b (l1 ++ l2) s = bind (foldM f b l1) (fun b => foldM f b l2) s.
Proof.
  unfold bind. revert b s. induction l1 as [|a l1 IH]; intros b s; [done|]. cbn. unfold bind.
  destruct (f b a s) as [[b'|e] s']; [apply IH | done].
Qed.

Lemma foldM_ext {S A B} (f g : B -> A -> M S B) l b s :
  (forall a b s, a ∈ l -> f b a s = g b a s) -> foldM f b l s = foldM g b l s.
Proof.
  revert b s. induction l as [|a l IH]; intros b s H; [done|]. cbn. unfold bind. rewrite H by set_solver.
  destruct (g b a s) as [[b'|e] s']; [|done]. apply IH. intros. apply H. set_solver.
Qed.

Lemma foldM_groups {S A B C} (f : C -> B -> M S C) (g : A -> list B) l c s :
  foldM (fun c a => foldM f c (g a)) c l s = foldM f c (concat (map g l)) s.
Proof.
  revert c s. induction l as [|a l IH]; intros c s; [done|]. cbn [map concat foldM]. rewrite foldM_app.
  unfold bind. destruct (foldM f c (g a) s) as [[c'|e] s']; [apply IH | done].
Qed.

(** A loop whose body adds [g x] to what is known, for each [x]. *)
Definition gathered {A X} (g : A -> list X) (xs : list A) (l : list X) : list X :=
  foldl (fun l x => g x ++ l) l xs.

Lemma elem_of_gathered {A X} (g : A -> list X) xs l y :
  y ∈ gathered g xs l <-> y ∈ l \/ exists x, x ∈ xs /\ y ∈ g x.
Proof.
  unfold gathered. revert l. induction xs as [|x xs IH]; intros l; cbn; [set_solver|].
  rewrite IH, elem_of_app. set_solver.
Qed.

Lemma hoare_foldM_gather {S A B X} (f : B -> A -> M S B) (g : A -> list X) (G : list X -> S -> Prop) (E : S -> Prop) xs b l :
  (forall x b l, x ∈ xs -> hoare (G l) (f b x) (fun r s => match r with Ok _ => G (g x ++ l) s | Raise _ => E s end)) ->
  hoare (G l) (foldM f b xs) (fun r s => match r with Ok _ => G (gathered g xs l) s | Raise _ => E s end).
Proof.
  revert b l. induction xs as [|x xs IH]; intros b l H; cbn [foldM].
  - by apply hoare_ret.
  - eapply hoare_bind; [apply H; set_solver|]. intros b'. apply IH. intros y b'' l' Hy. apply H. set_solver.
Qed.

(** ** Python dictionaries

    A [dict] keeps its insertion order: assigning to an existing key keeps its place, a new
    key goes last. *)

Section Dict.
Context {K V : Type} `{!EqDecision K}.
Implicit Types (d : list (K * V)) (k : K) (v : V).

Fixpoint dget k d : option V :=
  match d with
  | [] => None
  | (k', v) :: d => if decide (k' = k) then Some v else dget k d
  end.

Fixpoint dset k v d : list (K * V) :=
  match d with
  | [] => [(k, v)]
  | (k', v') :: d => if decide (k' = k) then (k, v) :: d else (k', v') :: dset k v d
  end.

Definition dkeys d : list K := map fst d.
Definition dvalues d : list V := map snd d.

(** [{**d1, **d2}] *)
Definition dmerge d1 d2 : list (K * V) := foldl (fun d kv => dset kv.1 kv.2 d) d1 d2.

Fixpoint ddel k d : list (K * V) :=
  match d with
  | [] => []
  | (k', v') :: d => if decide (k' = k) then d else (k', v') :: ddel k d
  end.

Lemma dget_dset_eq k v d : dget k (dset k v d) = Some v.
Proof.
  induction d as [|[k' v'] d IH]; simpl; [by rewrite decide_True|].
  destruct (decide (k' = k)); simpl; [by rewrite decide_True|]. by rewrite decide_False.
Qed.

Lemma dget_dset_ne k k' v d : k <> k' -> dget k' (dset k v d) = dget k' d.
Proof.
  intros Hne. induction d as [|[k1 v1] d IH]; simpl; [by rewrite decide_False|].
  destruct (decide (k1 = k)) as [->|]; simpl.
  - by rewrite !decide_False.
  - by rewrite IH.
Qed.

Lemma dget_dset k k' v d :
  dget k' (dset k v d) = if decide (k = k') then Some v else dget k' d.
Proof.
  destruct (decide (k = k')) as [->|]; auto using dget_dset_eq, dget_dset_ne.
Qed.

Lemma dget_app k d1 d2 :
  dget k (d1 ++ d2) = match dget k d1 with Some v => Some v | None => dget k d2 end.
Proof.
  induction d1 as [|[k1 v1] d1 IH]; simpl; [done|]. by destruct (decide (k1 = k)).
Qed.

(** In a merge the later dictionary wins, key by key: the last binding of [d2]. *)
Lemma dget_dmerge k d1 d2 :
  dget k (dmerge d1 d2) = match dget k (rev d2) with Some v => Some v | None => dget k d1 end.
Proof.
  revert d1. induction d2 as [|[k2 v2] d2 IH]; intros d1; simpl; [done|].
  unfold dmerge in *. simpl. rewrite IH, dget_app, dget_dset. simpl.
  destruct (dget k (rev d2)); [done|]. by destruct (decide (k2 = k)).
Qed.

Lemma dget_rev k d : NoDup (dkeys d) -> dget k (rev d) = dget k d.
Proof.
  induction d as [|[k1 v1] d IH]; simpl; [done|].
  rewrite NoDup_cons, dget_app. intros [Hni Hnd]. rewrite IH by done. simpl.
  destruct (decide (k1 = k)) as [->|]; [|by destruct (dget k d)].
  destruct (dget k d) eqn:E; [|done]. exfalso. apply Hni.
  clear -E. induction d as [|[k1 w] d IH]; simpl in *; [done|].
  destruct (decide (k1 = k)) as [->|]; set_solver.
Qed.

Lemma elem_of_dkeys k d : k ∈ dkeys d <-> is_Some (dget k d).
Proof.
  induction d as [|[k1 v1] d IH]; simpl.
  - rewrite elem_of_nil. split; [done | by intros []].
  - rewrite elem_of_cons. destruct (decide (k1 = k)) as [->|]; [naive_solver eauto|].
    rewrite IH. naive_solver.
Qed.

Lemma dget_elem k v d : dget k d = Some v -> (k, v) ∈ d.
Proof.
  induction d as [|[k1 v1] d IH]; simpl; [done|].
  destruct (decide (k1 = k)) as [->|]; intros E; [injection E as ->; left | right; auto].
Qed.

Lemma dkeys_dset k v d :
  dkeys (dset k v d) = if decide (k ∈ dkeys d) then dkeys d else dkeys d ++ [k].
Proof.
  induction d as [|[k1 v1] d IH]; simpl; [done|].
  destruct (decide (k1 = k)) as [->|]; simpl.
  - rewrite decide_True by set_solver. done.
  - rewrite IH. repeat case_decide; set_solver.
Qed.

Lemma NoDup_dkeys_dset k v d : NoDup (dkeys d) -> NoDup (dkeys (dset k v d)).
Proof.
  intros H. rewrite dkeys_dset. case_decide; [done|].
  apply NoDup_app. split_and!; [done | set_solver | apply NoDup_singleton].
Qed.

Lemma NoDup_dkeys_dmerge d1 d2 : NoDup (dkeys d1) -> NoDup (dkeys (dmerge d1 d2)).
Proof.
  revert d1. induction d2 as [|[k v] d2 IH]; intros d1 H; simpl; [done|].
  apply IH. by apply NoDup_dkeys_dset.
Qed.

Lemma Forall_dset (P : K * V -> Prop) k v d : P (k, v) -> Forall P d -> Forall P (dset k v d).
Proof.
  intros Hp. induction 1 as [|[k' v'] d Hx Hd IH]; cbn; [by constructor|].
  destruct (decide (k' = k)); constructor; auto.
Qed.

Lemma elem_of_dict k v d : NoDup (dkeys d) -> (k, v) ∈ d <-> dget k d = Some v.
Proof.
  induction d as [|[k1 v1] d IH]; simpl.
  - by rewrite elem_of_nil.
  - rewrite NoDup_cons, elem_of_cons. intros [Hni Hnd]. rewrite IH by done.
    destruct (decide (k1 = k)) as [->|]; [|naive_solver].
    split; [|naive_solver]. intros [?|Hv]; [congruence|].
    exfalso. apply Hni, elem_of_dkeys. eauto.
Qed.
Lemma dset_dset k v w d : dset k w (dset k v d) = dset k w d.
Proof.
  induction d as [|[k' v'] d IH]; cbn; [by rewrite decide_True|].
  destruct (decide (k' = k)) as [->|Hk]; cbn; [by rewrite decide_True|]. by rewrite decide_False, IH.
Qed.

Lemma dset_same k v d : dget k d = Some v -> dset k v d = d.
Proof.
  induction d as [|[k' v'] d IH]; cbn; [done|].
  destruct (decide (k' = k)) as [->|Hk]; [by intros [= ->] | intros H; by rewrite IH].
Qed.
End Dict.

#[export] Hint Resolve NoDup_dkeys_dset NoDup_dkeys_dmerge : nm.
#[export] Hint Rewrite @dget_dset_eq : nm_rw.

(** ** Lists *)

Lemma foldl_app_singletons {A B} (f : A -> option B) (l : list A) acc :
  foldl (fun acc x => match f x with Some y => acc ++ [y] | None => acc end) acc l
  = acc ++ omap f l.
Proof.
  revert acc. induction l as [|x l IH]; intros acc; simpl.
  - by rewrite app_nil_r.
  - rewrite IH. destruct (f x); simpl; [by rewrite <- app_assoc | done].
Qed.

Lemma sum_list_app_Z (l1 l2 : list Z) :
  foldr Z.add 0 (l1 ++ l2) = foldr Z.add 0 l1 + foldr Z.add 0 l2.
Proof. induction l1; simpl; lia. Qed.

Lemma filter_snoc {A} (P : A -> Prop) `{!forall x, Decision (P x)} l x :
  filter P (l ++ [x]) = filter P l ++ (if decide (P x) then [x] else []).
Proof. rewrite filter_app, filter_cons, filter_nil. by case_decide. Qed.

Lemma filter_none {A} (P : A -> Prop) `{!forall x, Decision (P x)} l :
  (forall x, x ∈ l -> ~ P x) -> filter P l = [].
Proof.
  induction l as [|x l IH]; intros Hl; [done|]. rewrite filter_cons.
  rewrite decide_False by (apply Hl; set_solver). apply IH. set_solver.
Qed.

Lemma filter_all {A} (P : A -> Prop) `{!forall x, Decision (P x)} (l : list A) :
  (forall x, x ∈ l -> P x) -> filter P l = l.
Proof.
  induction l as [|x l IH]; intros Hp; [done|]. rewrite filter_cons, decide_True by (apply Hp; set_solver).
  f_equal. apply IH. set_solver.
Qed.

Lemma filter_same {A} (P Q : A -> Prop) `{!forall x, Decision (P x)} `{!forall x, Decision (Q x)} (l : list A) :
  (forall x, x ∈ l -> P x <-> Q x) -> filter P l = filter Q l.
Proof.
  induction l as [|x l IH]; intros Hp; [done|]. rewrite !filter_cons, IH by set_solver.
  rewrite (decide_ext (P x) (Q x)) by (apply Hp; set_solver). done.
Qed.

Lemma StronglySorted_filter {A} (R : A -> A -> Prop) (P : A -> Prop) `{!forall x, Decision (P x)} l :
  StronglySorted R l -> StronglySorted R (filter P l).
Proof.
  induction 1 as [|x l Hl IH Hx]; [constructor|]. rewrite filter_cons.
  case_decide; [|done]. constructor; [done|].
  apply Forall_forall. intros y Hy. apply list_elem_of_filter in Hy as [_ Hy].
  by eapply Forall_forall.
Qed.

Lemma StronglySorted_snoc {A} (R : A -> A -> Prop) `{!Transitive R} l x y :
  StronglySorted R (l ++ [x]) -> R x y -> StronglySorted R (l ++ [x] ++ [y]).
Proof.
  intros H Hxy. induction l as [|z l IH]; cbn in *.
  - constructor; [repeat constructor | by repeat constructor].
  - apply StronglySorted_inv in H as [H1 H2]. constructor; [by apply IH|].
    apply Forall_app in H2 as [H2 H3]. apply Forall_app. split; [done|].
    apply Forall_cons in H3 as [H3 _]. apply Forall_cons. split; [done|]. apply Forall_singleton. by etrans.
Qed.

(** Replacing the last element by one that compares alike. *)
Lemma StronglySorted_swap_last {A} (R : A -> A -> Prop) l x y :
  (forall z, R z x -> R z y) -> StronglySorted R (l ++ [x]) -> StronglySorted R (l ++ [y]).
Proof.
  intros Hxy. induction l as [|z l IH]; cbn; intros H; [repeat constructor|].
  apply StronglySorted_inv in H as [H1 H2]. constructor; [by apply IH|].
  apply Forall_app in H2 as [H2 H3]. apply Forall_app. split; [done|].
  apply Forall_cons in H3 as [H3 _]. apply Forall_singleton. auto.
Qed.
