(* ===== verification/PyTime.v ===== *)
(** * Python's [datetime], as far as the collector uses it

    A datetime is its wall-clock reading in microseconds since 1970-01-01T00:00:00 on that
    clock, with the UTC offset in seconds of an aware datetime ([None] for a naive one).
    The calendar (proleptic Gregorian, as in Python) converts days since 1970-01-01 to
    year, month and day and back.  [node_monitor/pipeline/timestamps.py] is modelled here,
    with the [isoformat]/[fromisoformat] pair and the [strftime] formats of the callers. *)

From S2P Require Import Prelude.

Record datetime := DT { dt_us : Z; dt_off : option Z }.

#[export] Instance datetime_eq_dec : EqDecision datetime.
Proof. solve_decision. Defined.

Definition second_us : Z := 1000000.
Definition minute_us : Z := 60 * second_us.
Definition hour_us : Z := 60 * minute_us.
Definition day_us : Z := 24 * hour_us.

Definition utc (us : Z) : datetime := DT us (Some 0).

(** The instant of an aware datetime, in microseconds since the epoch. *)
Definition instant (d : datetime) : Z := dt_us d - default 0 (dt_off d) * second_us.

Definition is_aware (d : datetime) : bool :=
  match dt_off d with Some _ => true | None => false end.

(** [timestamps.require_aware] *)
Definition require_aware (recv : datetime) : res datetime :=
  if is_aware recv then Ok recv
  else Raise (ValueError "receive time must be timezone-aware").

(** [d.replace(second=0, microsecond=0)] *)
Definition floor_minute (d : datetime) : datetime :=
  DT (dt_us d - dt_us d mod minute_us) (dt_off d).

(** [d + timedelta(microseconds=us)] *)
Definition add_us (d : datetime) (us : Z) : datetime := DT (dt_us d + us) (dt_off d).

(** ** The calendar *)

Record civil := Civil { c_year : Z; c_month : Z; c_day : Z }.

#[export] Instance civil_eq_dec : EqDecision civil.
Proof. solve_decision. Defined.

Definition days_of_civil (c : civil) : Z :=
  let y := if c_month c <=? 2 then c_year c - 1 else c_year c in
  let mp := if 2 <? c_month c then c_month c - 3 else c_month c + 9 in
  let yoe := y mod 400 in
  let doy := (153 * mp + 2) / 5 + c_day c - 1 in
  (y / 400) * 146097 + (yoe * 365 + yoe / 4 - yoe / 100 + doy) - 719468.

(** Day [doe] of a 400-year era (eras start on a 1st of March). *)
Definition civil_of_doe (era doe : Z) : civil :=
  let yoe := (doe - doe / 1460 + doe / 36524 - doe / 146096) / 365 in
  let doy := doe - (365 * yoe + yoe / 4 - yoe / 100) in
  let mp := (5 * doy + 2) / 153 in
  let m := if mp <? 10 then mp + 3 else mp - 9 in
  Civil (yoe + era * 400 + (if m <=? 2 then 1 else 0)) m (doy - (153 * mp + 2) / 5 + 1).

Definition civil_of_days (days : Z) : civil :=
  civil_of_doe ((days + 719468) / 146097) ((days + 719468) mod 146097).

Definition date_of (d : datetime) : civil := civil_of_days (dt_us d / day_us).

(** [datetime(y, m, d, tzinfo=timezone.utc)] *)
Definition utc_date (c : civil) : datetime := utc (days_of_civil c * day_us).

(** ** Decimal text *)

Definition digit (n : Z) : Ascii.ascii := Ascii.ascii_of_N (Z.to_N (48 + n)).

Definition digit_val (c : Ascii.ascii) : option Z :=
  let n := Z.of_N (Ascii.N_of_ascii c) - 48 in
  if (0 <=? n) && (n <=? 9) then Some n else None.

(** [f"{z:0<width>d}"] for [0 <= z < 10^width] *)
Fixpoint pad (width : nat) (z : Z) : string :=
  match width with
  | O => ""
  | S w => String (digit ((z / 10 ^ Z.of_nat w) mod 10)) (pad w z)
  end.

(** Reads exactly [width] digits; returns the number and the rest. *)
Fixpoint unpad (width : nat) (acc : Z) (s : string) : option (Z * string) :=
  match width with
  | O => Some (acc, s)
  | S w => match s with
           | String c s => match digit_val c with
                           | Some v => unpad w (10 * acc + v) s
                           | None => None
                           end
           | EmptyString => None
           end
  end.

Definition expect (c : Ascii.ascii) (s : string) : option string :=
  match s with
  | String c' s => if decide (c' = c) then Some s else None
  | EmptyString => None
  end.

(** ** [isoformat] and [fromisoformat] *)

Definition time_text (sep : string) (us : Z) : string :=
  pad 2 (us / hour_us) +:+ sep +:+ pad 2 (us / minute_us mod 60) +:+ sep
  +:+ pad 2 (us / second_us mod 60).

Definition date_text (sep : string) (c : civil) : string :=
  pad 4 (c_year c) +:+ sep +:+ pad 2 (c_month c) +:+ sep +:+ pad 2 (c_day c).

Definition offset_text (off : Z) : string :=
  let a := Z.abs off in
  (if off <? 0 then "-" else "+")
  +:+ pad 2 (a / 3600) +:+ ":" +:+ pad 2 (a / 60 mod 60)
  +:+ (if a mod 60 =? 0 then "" else ":" +:+ pad 2 (a mod 60)).

Definition isoformat (d : datetime) : string :=
  let us := dt_us d mod day_us in
  date_text "-" (date_of d) +:+ "T" +:+ time_text ":" us
  +:+ (if us mod second_us =? 0 then "" else "." +:+ pad 6 (us mod second_us))
  +:+ match dt_off d with None => "" | Some off => offset_text off end.

Definition parse_offset (s : string) : option (option Z) :=
  match s with
  | "" => Some None
  | String c s =>
      sign ← (if decide (c = "+"%char) then Some 1
              else if decide (c = "-"%char) then Some (-1) else None);
      '(h, s) ← unpad 2 0 s; s ← expect ":"%char s; '(m, s) ← unpad 2 0 s;
      match s with
      | "" => Some (Some (sign * (h * 3600 + m * 60)))
      | _ => s ← expect ":"%char s; '(sec, s) ← unpad 2 0 s;
             match s with
             | "" => Some (Some (sign * (h * 3600 + m * 60 + sec)))
             | _ => None
             end
      end
  end.

Definition parse_fraction (s : string) : option (Z * string) :=
  match s with
  | String "."%char s => unpad 6 0 s
  | _ => Some (0, s)
  end.

(** The subset of ISO 8601 that [isoformat] writes. *)
Definition fromisoformat (s : string) : option datetime :=
  '(y, s) ← unpad 4 0 s; s ← expect "-"%char s;
  '(mo, s) ← unpad 2 0 s; s ← expect "-"%char s;
  '(d, s) ← unpad 2 0 s; s ← expect "T"%char s;
  '(h, s) ← unpad 2 0 s; s ← expect ":"%char s;
  '(mi, s) ← unpad 2 0 s; s ← expect ":"%char s;
  '(se, s) ← unpad 2 0 s; '(us, s) ← parse_fraction s;
  off ← parse_offset s;
  Some (DT (days_of_civil (Civil y mo d) * day_us + h * hour_us + mi * minute_us
            + se * second_us + us) off).

(** [strftime("%Y%m%dT%H%M%S.%f")], the stamp of a spool file name. *)
Definition stamp_text (d : datetime) : string :=
  let us := dt_us d mod day_us in
  date_text "" (date_of d) +:+ "T" +:+ time_text "" us +:+ "." +:+ pad 6 (us mod second_us).

Example iso_ex :
  isoformat (utc 1700000000123456) = "2023-11-14T22:13:20.123456+00:00".
Proof. vm_compute. reflexivity. Qed.
Example iso_back :
  fromisoformat (isoformat (DT 1700000000000000 (Some (-19800)))) = Some (DT 1700000000000000 (Some (-19800))).
Proof. vm_compute. reflexivity. Qed.
Example stamp_ex : stamp_text (utc 1700000000123456) = "20231114T221320.123456".
Proof. vm_compute. reflexivity. Qed.

(** ** Lemmas *)

Lemma digit_val_digit n : 0 <= n < 10 -> digit_val (digit n) = Some n.
Proof.
  intros H. unfold digit_val, digit.
  rewrite Ascii.N_ascii_embedding by lia. rewrite Z2N.id by lia.
  replace (48 + n - 48) with n by lia.
  by rewrite (proj2 (Z.leb_le 0 n)), (proj2 (Z.leb_le n 9)) by lia.
Qed.

Lemma string_app_cons c s1 s2 : String c s1 +:+ s2 = String c (s1 +:+ s2).
Proof. done. Qed.
Lemma string_app_nil_l s : "" +:+ s = s.
Proof. done. Qed.
Lemma string_app_nil_r s : s +:+ "" = s.
Proof. induction s as [|c s IH]; [done|]. by rewrite string_app_cons, IH. Qed.
Lemma string_app_assoc s1 s2 s3 : (s1 +:+ s2) +:+ s3 = s1 +:+ (s2 +:+ s3).
Proof.
  induction s1 as [|c s1 IH]; [done|]. by rewrite !string_app_cons, IH.
Qed.

Lemma unpad_pad_acc w z acc s :
  unpad w acc (pad w z +:+ s) = Some (acc * 10 ^ Z.of_nat w + z mod 10 ^ Z.of_nat w, s).
Proof.
  revert acc. induction w as [|w IH]; intros acc.
  - simpl. rewrite Z.mod_1_r. repeat f_equal. lia.
  - cbn [pad unpad]. rewrite string_app_cons, digit_val_digit by (apply Z.mod_pos_bound; lia).
    rewrite IH. rewrite Nat2Z.inj_succ, Z.pow_succ_r by lia.
    set (p := 10 ^ Z.of_nat w). assert (0 < p) by (apply Z.pow_pos_nonneg; lia).
    rewrite (Z.mul_comm 10 p), Z.rem_mul_r by lia. do 2 f_equal. ring.
Qed.

(** Reading back a padded number. *)
Lemma unpad_pad w z s : 0 <= z < 10 ^ Z.of_nat w -> unpad w 0 (pad w z +:+ s) = Some (z, s).
Proof. intros H. rewrite unpad_pad_acc, Z.mod_small by done. repeat f_equal. Qed.

Lemma length_pad w z : String.length (pad w z) = w.
Proof. induction w as [|w IH]; simpl; by f_equal. Qed.

Lemma unpad_add w1 w2 acc s :
  unpad (w1 + w2) acc s = '(v, s) ← unpad w1 acc s; unpad w2 v s.
Proof.
  revert acc s. induction w1 as [|w1 IH]; intros acc s; [done|].
  cbn [Nat.add unpad]. destruct s as [|c s]; [done|]. destruct (digit_val c); [apply IH | done].
Qed.

#[global] Arguments pad : simpl never.
#[global] Arguments unpad : simpl never.

Lemma expect_app c s : expect c (String c s) = Some s.
Proof. simpl. by rewrite decide_True. Qed.

(** A day of an era falls in a year of the era and on a day of that year. *)
Lemma doe_ranges doe :
  0 <= doe < 146097 ->
  let yoe := (doe - doe / 1460 + doe / 36524 - doe / 146096) / 365 in
  let doy := doe - (365 * yoe + yoe / 4 - yoe / 100) in
  0 <= yoe < 400 /\ 0 <= doy <= 365.
Proof. intros H yoe doy. unfold doy, yoe. Z.to_euclidean_division_equations. lia. Qed.

Lemma days_of_civil_of_days days : days_of_civil (civil_of_days days) = days.
Proof.
  unfold civil_of_days. set (z := days + 719468).
  pose proof (Z.mod_pos_bound z 146097 ltac:(lia)) as Hd.
  pose proof (Z.div_mod z 146097 ltac:(lia)) as Hz.
  pose proof (doe_ranges _ Hd) as [Hy Hdoy]. unfold civil_of_doe, days_of_civil. cbv zeta in *.
  set (doe := z mod 146097) in *. set (era := z / 146097) in *.
  set (yoe := (doe - _ + _ - _) / 365) in *. set (doy := doe - (_ + _ - _)) in *.
  simpl c_month. simpl c_day. simpl c_year.
  assert (0 <= (5 * doy + 2) / 153 <= 11) as Hm by (Z.to_euclidean_division_equations; lia).
  set (mp := (5 * doy + 2) / 153) in *.
  destruct (Z.ltb_spec mp 10).
  - rewrite (proj2 (Z.leb_gt (mp + 3) 2)), (proj2 (Z.ltb_lt 2 (mp + 3))) by lia.
    rewrite Z.add_0_r, Z.div_add, Z.mod_add by lia. rewrite Z.div_small, Z.mod_small by lia.
    replace (mp + 3 - 3) with mp by lia. subst doy. lia.
  - rewrite (proj2 (Z.leb_le (mp - 9) 2)), (proj2 (Z.ltb_ge 2 (mp - 9))) by lia.
    replace (yoe + era * 400 + 1 - 1) with (yoe + era * 400) by lia.
    rewrite Z.div_add, Z.mod_add by lia. rewrite Z.div_small, Z.mod_small by lia.
    replace (mp - 9 + 9) with mp by lia. subst doy. lia.
Qed.

Lemma civil_of_days_range days :
  1 <= c_month (civil_of_days days) <= 12 /\ 1 <= c_day (civil_of_days days) <= 31.
Proof.
  unfold civil_of_days. set (z := days + 719468).
  pose proof (Z.mod_pos_bound z 146097 ltac:(lia)) as Hd.
  pose proof (doe_ranges _ Hd) as [_ Hdoy]. unfold civil_of_doe. cbv zeta in *. simpl.
  set (doy := z mod 146097 - _) in *.
  destruct (Z.ltb_spec ((5 * doy + 2) / 153) 10);
    Z.to_euclidean_division_equations; lia.
Qed.

(** The datetimes Python can hold whose text [isoformat] writes with four digits of year. *)
Definition representable (d : datetime) : Prop :=
  0 <= c_year (date_of d) < 10000 /\
  match dt_off d with None => True | Some off => -86400 < off < 86400 end.

(** Side conditions of reading two decimal digits. *)
Ltac two_digits := change (10 ^ Z.of_nat 2) with 100; Z.to_euclidean_division_equations; lia.

(** Reads one padded field and the separator before it. *)
Ltac read_field :=
  rewrite ?string_app_assoc, ?string_app_cons, ?string_app_nil_l; simpl; rewrite unpad_pad; simpl.

Lemma parse_offset_text off :
  -86400 < off < 86400 -> parse_offset (offset_text off) = Some (Some off).
Proof.
  intros H. unfold offset_text.
  assert (exists c sign, (if off <? 0 then "-" else "+") = String c "" /\ off = sign * Z.abs off /\
      (if decide (c = "+"%char) then Some 1
       else if decide (c = "-"%char) then Some (-1) else None) = Some sign) as (c & sign & -> & Hs & Hc).
  { destruct (Z.ltb_spec off 0); [exists "-"%char, (-1) | exists "+"%char, 1]; split_and!; try done; lia. }
  assert (0 <= Z.abs off < 86400) by lia. revert Hs. generalize dependent (Z.abs off).
  intros a Ha Hs. rewrite string_app_cons, string_app_nil_l. simpl parse_offset. rewrite Hc.
  read_field; [|two_digits]. read_field; [|two_digits].
  destruct (Z.eqb_spec (a mod 60) 0).
  - do 2 f_equal. rewrite Hs. f_equal. Z.to_euclidean_division_equations; lia.
  - rewrite <- (string_app_nil_r (pad 2 (a mod 60))). read_field; [|two_digits].
    do 2 f_equal. rewrite Hs. f_equal. Z.to_euclidean_division_equations; lia.
Qed.

Lemma parse_fraction_text us tail :
  0 <= us < second_us ->
  match tail with String "."%char _ => False | _ => True end ->
  parse_fraction ((if us =? 0 then "" else "." +:+ pad 6 us) +:+ tail) = Some (us, tail).
Proof.
  intros H Ht. destruct (Z.eqb_spec us 0) as [->|].
  - rewrite string_app_nil_l. destruct tail as [|c tail]; [done|].
    unfold parse_fraction. by repeat case_match.
  - rewrite string_app_assoc, string_app_cons, string_app_nil_l. simpl.
    apply unpad_pad. by change (10 ^ Z.of_nat 6) with second_us.
Qed.

Lemma offset_text_no_dot off :
  match offset_text off with String "."%char _ => False | _ => True end.
Proof. unfold offset_text. by destruct (off <? 0). Qed.

(** Writing a datetime with [isoformat] and reading it back gives the same datetime. *)
Lemma fromisoformat_isoformat d : representable d -> fromisoformat (isoformat d) = Some d.
Proof.
  intros [Hy Hoff]. unfold isoformat, fromisoformat, date_text, time_text.
  pose proof (civil_of_days_range (dt_us d / day_us)) as [Hm Hd].
  pose proof (Z.mod_pos_bound (dt_us d) day_us ltac:(done)) as Hus.
  pose proof (days_of_civil_of_days (dt_us d / day_us)) as Hc.
  pose proof (Z.div_mod (dt_us d) day_us ltac:(done)) as Hdm.
  unfold date_of in *. set (us := dt_us d mod day_us) in *. clearbody us.
  destruct (civil_of_days (dt_us d / day_us)) as [y m dy]. simpl in Hy, Hm, Hd. simpl c_year.
  simpl c_month. simpl c_day.
  assert (day_us = 86400000000) as Hday by done. rewrite Hday in Hus.
  unfold hour_us, minute_us, second_us in *.
  read_field; [|done]. read_field; [|two_digits]. read_field; [|two_digits].
  read_field; [|two_digits]. read_field; [|two_digits]. read_field; [|two_digits].
  set (off := match dt_off d with Some _ => _ | None => _ end).
  rewrite parse_fraction_text.
  2: { change second_us with 1000000. apply Z.mod_pos_bound. lia. }
  2: { subst off. destruct (dt_off d); [apply offset_text_no_dot | done]. }
  simpl. assert (parse_offset off = Some (dt_off d)) as ->.
  { subst off. destruct (dt_off d); [by apply parse_offset_text | done]. }
  simpl. f_equal. destruct d as [dus doff]. simpl in *. f_equal.
  rewrite Hc. rewrite Hday in *. Z.to_euclidean_division_equations. lia.
Qed.
