(* ===== verification/PyFloat.v ===== *)
(** * Python's [float]: IEEE 754 binary64

    Arithmetic is the executable specification of the Standard Library's [SpecFloat] at
    precision 53 and maximal exponent 1024, so sums round and overflow as the interpreter's
    do.  On top of it: [int / int] (correctly rounded, as CPython computes it), [round],
    the float modulus, and the conversions to integers the collector uses. *)

From Stdlib Require Export SpecFloat.
From S2P Require Import Prelude.

Definition float : Type := spec_float.

#[export] Instance float_eq_dec : EqDecision float.
Proof. unfold float. solve_decision. Defined.

Definition fprec : Z := 53.
Definition femax : Z := 1024.

Definition fzero : float := S754_zero false.
Definition fadd : float -> float -> float := SFadd fprec femax.
Definition fsub : float -> float -> float := SFsub fprec femax.
Definition fmul : float -> float -> float := SFmul fprec femax.
Definition fdiv : float -> float -> float := SFdiv fprec femax.
Definition fltb : float -> float -> bool := SFltb.
Definition fleb : float -> float -> bool := SFleb.

(** [float(z)] *)
Definition float_of_Z (z : Z) : float := binary_normalize fprec femax z 0 false.

(** [math.isfinite] *)
Definition isfinite (x : float) : bool :=
  match x with S754_zero _ | S754_finite _ _ _ => true | _ => false end.

(** [a / b] on integers; [b = 0] raises in Python and the callers never divide by it. *)
Definition int_truediv (a b : Z) : float :=
  if a =? 0 then S754_zero false
  else
    let '(q, e, l) := SFdiv_core_binary fprec femax (Z.abs a) 0 (Z.abs b) 0 in
    binary_round_aux fprec femax (xorb (a <? 0) (b <? 0)) q e l.

(** The fraction [n / d] ([0 < d]) rounded to an integer, ties to even. *)
Definition round_half_even (n d : Z) : Z :=
  let q := n / d in
  match 2 * (n mod d) ?= d with
  | Lt => q
  | Gt => q + 1
  | Eq => if Z.even q then q else q + 1
  end.

(** The exact value of a finite float as a fraction. *)
Definition fraction (x : float) : Z * Z :=
  match x with
  | S754_finite s m e =>
      let n := if s then Zneg m else Zpos m in
      if 0 <=? e then (n * 2 ^ e, 1) else (n, 2 ^ (- e))
  | _ => (0, 1)
  end.

(** [round(x)]: to an integer, for a finite [x]. *)
Definition round_int (x : float) : Z := let '(n, d) := fraction x in round_half_even n d.

(** [int(x)]: towards zero, for a finite [x]. *)
Definition trunc_int (x : float) : Z := let '(n, d) := fraction x in Z.quot n d.

(** [round(x, nd)]: the decimal nearest to the exact value of [x], as a float. *)
Definition round_digits (nd : Z) (x : float) : float :=
  match x with
  | S754_finite s _ _ =>
      let '(n, d) := fraction x in
      let k := round_half_even (n * 10 ^ nd) d in
      if k =? 0 then S754_zero s else int_truediv k (10 ^ nd)
  | _ => x
  end.

(** [x % y] for finite [x] and finite non-zero [y]: exact, with the sign of [y]. *)
Definition fmod (x y : float) : float :=
  match x, y with
  | S754_finite sx mx ex, S754_finite sy my ey =>
      let e := Z.min ex ey in
      let a := (if sx then -1 else 1) * (Zpos mx * 2 ^ (ex - e)) in
      let b := (if sy then -1 else 1) * (Zpos my * 2 ^ (ey - e)) in
      let r := Z.rem a b in
      if r =? 0 then S754_zero sy
      else
        let m := binary_normalize fprec femax r e false in
        if Bool.eqb (r <? 0) sy then m else fadd m y
  | S754_zero _, S754_finite sy _ _ => S754_zero sy
  | _, _ => S754_nan
  end.

(** A float written [n / 10^k] in decimal, for literals such as [0.5]. *)
Definition flit (n k : Z) : float := int_truediv n (10 ^ k).

(** ** Numbers as JSON carries them: an [int] or a [float] *)

Inductive num := NInt (z : Z) | NFloat (f : float).

#[export] Instance num_eq_dec : EqDecision num.
Proof. solve_decision. Defined.

Definition num_float (n : num) : float :=
  match n with NInt z => float_of_Z z | NFloat f => f end.

(** [a + b], [a - b], [a < b], [max(a, b)] *)
Definition num_add (a b : num) : num :=
  match a, b with
  | NInt x, NInt y => NInt (x + y)
  | _, _ => NFloat (fadd (num_float a) (num_float b))
  end.
Definition num_sub (a b : num) : num :=
  match a, b with
  | NInt x, NInt y => NInt (x - y)
  | _, _ => NFloat (fsub (num_float a) (num_float b))
  end.
(** Comparing an integer with a float is exact; a NaN compares with nothing. *)
Definition cmp_int_float (z : Z) (f : float) : option comparison :=
  match f with
  | S754_nan => None
  | S754_infinity s => Some (if s then Gt else Lt)
  | _ => let '(n, d) := fraction f in Some (z * d ?= n)
  end.
Definition num_cmp (a b : num) : option comparison :=
  match a, b with
  | NInt x, NInt y => Some (x ?= y)
  | NInt x, NFloat f => cmp_int_float x f
  | NFloat f, NInt y => option_map CompOpp (cmp_int_float y f)
  | NFloat f, NFloat g => SFcompare f g
  end.
Definition num_ltb (a b : num) : bool := match num_cmp a b with Some Lt => true | _ => false end.
Definition num_leb (a b : num) : bool := match num_cmp a b with Some Lt | Some Eq => true | _ => false end.
Definition num_max (a b : num) : num := if num_ltb a b then b else a.

(** [a / n] for an integer [n] *)
Definition num_div (a : num) (n : Z) : float :=
  match a with
  | NInt x => int_truediv x n
  | NFloat f => fdiv f (float_of_Z n)
  end.

(** [float(n)]; an integer beyond the floats raises. *)
Definition to_float (n : num) : res float :=
  match n with
  | NInt z => let f := float_of_Z z in if isfinite f then Ok f else Raise OverflowError
  | NFloat f => Ok f
  end.

(** [a / b] *)
Definition true_div (a b : num) : res float :=
  match a, b with
  | NInt x, NInt y =>
      if y =? 0 then Raise ZeroDivisionError
      else let f := int_truediv x y in if isfinite f then Ok f else Raise OverflowError
  | _, _ =>
      f ← to_float a; g ← to_float b;
      match g with S754_zero _ => Raise ZeroDivisionError | _ => Ok (fdiv f g) end
  end.

(** [round(x)] *)
Definition py_round (x : float) : res Z :=
  match x with
  | S754_infinity _ => Raise OverflowError
  | S754_nan => Raise (ValueError "cannot convert float NaN to integer")
  | _ => Ok (round_int x)
  end.

(** [int(x)] *)
Definition py_trunc (x : float) : res Z :=
  match x with
  | S754_infinity _ => Raise OverflowError
  | S754_nan => Raise (ValueError "cannot convert float NaN to integer")
  | _ => Ok (trunc_int x)
  end.

(** [a * b] *)
Definition num_mul (a b : num) : res num :=
  match a, b with
  | NInt x, NInt y => Ok (NInt (x * y))
  | _, _ => f ← to_float a; g ← to_float b; Ok (NFloat (fmul f g))
  end.

(** Checked against the interpreter's results. *)
Example fadd_tenths : fadd (flit 1 1) (flit 2 1) = int_truediv 30000000000000004 (10 ^ 17).
Proof. vm_compute. reflexivity. Qed.
Example round_digits_ex : round_digits 2 (flit 2675 3) = flit 267 2.
Proof. vm_compute. reflexivity. Qed.
Example round_int_ex : (round_int (flit 25 1), round_int (flit 35 1)) = (2, 4).
Proof. vm_compute. reflexivity. Qed.
Example fmod_ex : fmod (flit 17000003004 1) (float_of_Z 300) = flit 20040000009536743 14.
Proof. vm_compute. reflexivity. Qed.
