(* ===== verification/PyVal.v ===== *)
(** * Python values and storage records

    [value] is the data that crosses component boundaries: JSON trees with datetimes and
    tuples.  Text is held as its bytes (UTF-8, an undecodable byte standing for its
    surrogate escape).  [Record] and the record kinds are [node_monitor/pipeline/records.py]. *)

From S2P Require Import Prelude PyFloat PyTime.

#[warnings="-register-all"]
Inductive value :=
| VNone
| VBool (b : bool)
| VInt (z : Z)
| VFloat (f : float)
| VStr (s : string)
| VTime (t : datetime)
| VList (l : list value)
| VTuple (l : list value)
| VDict (d : list (string * value)).

Abbreviation dict := (list (string * value)).

(** Induction on values, with the hypothesis for every element of a container. *)
Section ValueInd.
Context (P : value -> Prop).
Context (Hnone : P VNone) (Hbool : forall b, P (VBool b)) (Hint : forall z, P (VInt z))
  (Hfloat : forall f, P (VFloat f)) (Hstr : forall s, P (VStr s)) (Htime : forall t, P (VTime t))
  (Hlist : forall l, Forall P l -> P (VList l)) (Htuple : forall l, Forall P l -> P (VTuple l))
  (Hdict : forall d, Forall (fun kv => P kv.2) d -> P (VDict d)).

Fixpoint value_ind' (v : value) : P v :=
  let fix all (l : list value) : Forall P l :=
    match l with
    | [] => Forall_nil_2 P
    | v :: l => Forall_cons_2 P v l (value_ind' v) (all l)
    end in
  match v with
  | VNone => Hnone
  | VBool b => Hbool b
  | VInt z => Hint z
  | VFloat f => Hfloat f
  | VStr s => Hstr s
  | VTime t => Htime t
  | VList l => Hlist l (all l)
  | VTuple l => Htuple l (all l)
  | VDict d =>
      Hdict d ((fix alld (d : dict) : Forall (fun kv => P kv.2) d :=
                  match d with
                  | [] => Forall_nil_2 _
                  | kv :: d => Forall_cons_2 _ kv d (value_ind' kv.2) (alld d)
                  end) d)
  end.
End ValueInd.

(** [isinstance(v, dict)] with the dictionary. *)
Definition as_dict (v : value) : option dict :=
  match v with VDict d => Some d | _ => None end.

(** Truth of a value, as in [if v:] and [v or w]. *)
Definition truthy (v : value) : bool :=
  match v with
  | VNone => false
  | VBool b => b
  | VInt z => negb (z =? 0)
  | VFloat f => match f with S754_zero _ => false | _ => true end
  | VStr s => match s with "" => false | _ => true end
  | VTime _ => true
  | VList l | VTuple l => match l with [] => false | _ => true end
  | VDict d => match d with [] => false | _ => true end
  end.

(** [d.get(k)] *)
Definition dget_or_none (k : string) (d : dict) : value := default VNone (dget k d).

(** Numbers of a JSON tree; a [bool] is an [int]. *)
Definition num_of (v : value) : option num :=
  match v with
  | VInt z => Some (NInt z)
  | VFloat f => Some (NFloat f)
  | VBool b => Some (NInt (Z.b2z b))
  | _ => None
  end.
Definition val_of (n : num) : value := match n with NInt z => VInt z | NFloat f => VFloat f end.
Definition val_opt {A} (f : A -> value) (o : option A) : value :=
  match o with Some a => f a | None => VNone end.

(** [d.timestamp()] of an aware datetime, and [datetime.fromtimestamp(x, tz=timezone.utc)]. *)
Definition timestamp (d : datetime) : float := int_truediv (instant d) second_us.
Definition fromtimestamp (x : float) : datetime :=
  let '(n, d) := fraction x in utc (round_half_even (n * second_us) d).

(** [d[k]] *)
Definition item (k : string) (d : dict) : res value :=
  match dget k d with Some v => Ok v | None => Raise (KeyError k) end.

(** A value used as a string, an integer or a number. *)
Definition as_str (v : value) : res string := match v with VStr s => Ok s | _ => Raise TypeError end.
Definition as_int (v : value) : res Z :=
  match v with VInt z => Ok z | VBool b => Ok (Z.b2z b) | _ => Raise TypeError end.
Definition as_num_opt (v : value) : res (option num) :=
  match v with
  | VNone => Ok None
  | _ => match num_of v with Some n => Ok (Some n) | None => Raise TypeError end
  end.
Definition as_str_opt (v : value) : res (option string) :=
  match v with VNone => Ok None | VStr s => Ok (Some s) | _ => Raise TypeError end.

(** [sorted(d.items())]: keys are distinct, so the values are never compared. *)
Definition key_le {V} (a b : string * V) : Prop := String.le a.1 b.1.
#[export] Instance key_le_dec {V} : RelDecision (@key_le V).
Proof. intros a b. unfold key_le. apply _. Defined.
Definition sorted_items {V} (d : list (string * V)) : list (string * V) := merge_sort key_le d.

(** JSON text: [json.dumps(v, separators=(",", ":"))] and [json.loads], [None] when it raises. *)
Class JsonText := {
  dumps : value -> string;
  loads : string -> option value;
  json_safe : value -> Prop;
}.

(** [a == b] on JSON trees: numbers by value, dictionaries whatever their order. *)
Fixpoint py_eq (a b : value) : bool :=
  match a, b with
  | VNone, VNone => true
  | VStr s, VStr t => bool_decide (s = t)
  | VTime t, VTime u => bool_decide (t = u)
  | VList l, VList m | VTuple l, VTuple m =>
      (fix all (l m : list value) : bool :=
         match l, m with
         | [], [] => true
         | x :: l, y :: m => py_eq x y && all l m
         | _, _ => false
         end) l m
  | VDict d, VDict e =>
      (length d =? length e)%nat &&
      (fix all (d : dict) : bool :=
         match d with
         | [] => true
         | (k, v) :: d => match dget k e with Some w => py_eq v w | None => false end && all d
         end) d
  | _, _ =>
      match num_of a, num_of b with
      | Some x, Some y => match num_cmp x y with Some Eq => true | _ => false end
      | _, _ => false
      end
  end.

(** ** Records *)

Record record := Record_ { kind : string; row : dict }.

Definition LIVE_PROCESSES : string := "live_processes".
Definition LIVE_NODE : string := "live_node".
Definition NODE_METRICS_1M : string := "node_metrics_1m".
Definition USER_USAGE_5M : string := "user_usage_5m".
Definition NODE_USAGE_5M : string := "node_usage_5m".
Definition NODE_HARDWARE : string := "node_hardware".
Definition COLLECTION_EVENT : string := "collection_event".
