(* ===== verification/Text.v ===== *)
(** * Python's [str] methods and number parsing

    The text operations the collector and the probe share.  Text is its UTF-8 bytes, and the
    separators the code splits at are ASCII, so splitting bytes is splitting characters.
    White space, where the code splits or strips on it, is Unicode's.  [isdigit], [int] and
    [float] of text with a character beyond ASCII depend on the Unicode tables, the class
    [Unicode]. *)

From Stdlib Require Import ZArith Lia ZifyBool ZifyN.
From S2P Require Import Prelude PyFloat PyTime.

Class Unicode := {
  wide_isdigit : string -> bool;
  (** [None] where the conversion raises [ValueError]. *)
  wide_int : string -> option Z;
  wide_float : string -> option float;
}.

(** ** Splitting and joining *)

Definition joined (sep : string) (l : list string) : string :=
  match l with [] => "" | x :: l => foldl (fun s x => s +:+ sep +:+ x) x l end.

(** [s.partition(c)]: what comes before the first [c], and what comes after if there is one. *)
Fixpoint partition_at (c : ascii) (s : string) : string * option string :=
  match s with
  | EmptyString => (EmptyString, None)
  | String a s => if decide (a = c) then (EmptyString, Some s)
                  else let '(p, q) := partition_at c s in (String a p, q)
  end.

(** What comes before the last [c] and what comes after it. *)
Fixpoint rpartition_at (c : ascii) (s : string) : option (string * string) :=
  match s with
  | EmptyString => None
  | String a s =>
      match rpartition_at c s with
      | Some (p, q) => Some (String a p, q)
      | None => if decide (a = c) then Some (EmptyString, s) else None
      end
  end.

(** The part of [s] before the first character of [cs]. *)
Fixpoint until (cs : list ascii) (s : string) : string :=
  match s with
  | EmptyString => EmptyString
  | String a s => if decide (a ∈ cs) then EmptyString else String a (until cs s)
  end.

Fixpoint drop_until (cs : list ascii) (s : string) : string :=
  match s with
  | EmptyString => EmptyString
  | String a s' => if decide (a ∈ cs) then s else drop_until cs s'
  end.

(** [s.split(c)] *)
Fixpoint split_on (c : ascii) (s : string) : list string :=
  match s with
  | EmptyString => [EmptyString]
  | String a s =>
      if decide (a = c) then EmptyString :: split_on c s
      else match split_on c s with p :: ps => String a p :: ps | [] => [String a EmptyString] end
  end.

Definition newline : ascii := "010"%char.
Definition lines : string -> list string := split_on newline.
(** [s.split("\n", 1)[0]] *)
Definition first_line_of (s : string) : string := (partition_at newline s).1.

(** [s.replace(c, d)] for single characters *)
Fixpoint replace_char (c d : ascii) (s : string) : string :=
  match s with
  | EmptyString => EmptyString
  | String a s => String (if decide (a = c) then d else a) (replace_char c d s)
  end.

Fixpoint drop_chars (n : nat) (s : string) : string :=
  match n, s with S n, String _ s => drop_chars n s | _, _ => s end.

(** [s[:n]] for bytes *)
Fixpoint prefix_of (n : nat) (s : string) : string :=
  match n, s with S n, String a s => String a (prefix_of n s) | _, _ => EmptyString end.

(** [s[1:]]: a character is its lead byte and the continuation bytes after it. *)
Definition continues (c : ascii) : bool := let n := N_of_ascii c in ((128 <=? n) && (n <=? 191))%N.
Fixpoint drop_continuation (s : string) : string :=
  match s with
  | String a s' => if continues a then drop_continuation s' else s
  | EmptyString => EmptyString
  end.
Definition after_char (s : string) : string :=
  match s with String _ s => drop_continuation s | EmptyString => EmptyString end.

(** [s[-n:]] *)
Fixpoint char_count (s : string) : nat :=
  match s with EmptyString => 0 | String a s => if continues a then char_count s else S (char_count s) end.
Fixpoint skip_chars (n : nat) (s : string) : string := match n with O => s | S n => skip_chars n (after_char s) end.
Definition last_chars (n : nat) (s : string) : string := skip_chars (char_count s - n) s.

(** [s[:n]] *)
Fixpoint take_chars (n : nat) (s : string) : string :=
  match s with
  | EmptyString => EmptyString
  | String a s =>
      if continues a then String a (take_chars n s)
      else match n with O => EmptyString | S n => String a (take_chars n s) end
  end.

(** [c in s] for a piece of text *)
Fixpoint contains (piece s : string) : bool :=
  String.prefix piece s || match s with String _ s => contains piece s | EmptyString => false end.

(** ** White space

    The length in bytes of the white-space character [s] begins with, [0] if it begins with
    none: those [str.isspace] accepts. *)
Definition space_len (s : string) : nat :=
  match s with
  | EmptyString => 0
  | String a s =>
      let n := N_of_ascii a in
      if ((9 <=? n) && (n <=? 13) || (28 <=? n) && (n <=? 32))%N then 1%nat
      else match s with
      | String b s =>
          let m := N_of_ascii b in
          if ((n =? 194) && ((m =? 133) || (m =? 160)))%N then 2%nat
          else match s with
          | String c _ =>
              let k := N_of_ascii c in
              if ((n =? 225) && (m =? 154) && (k =? 128)
                  || (n =? 226) && (m =? 128) && ((128 <=? k) && (k <=? 138) || (k =? 168) || (k =? 169) || (k =? 175))
                  || (n =? 226) && (m =? 129) && (k =? 159)
                  || (n =? 227) && (m =? 128) && (k =? 128))%N then 3%nat else 0%nat
          | EmptyString => 0
          end
      | EmptyString => 0
      end
  end.

(** Every byte with whether it belongs to a white-space character; [skip] bytes of the
    current one are still to come. *)
Fixpoint marks (skip : nat) (s : string) : list (ascii * bool) :=
  match s with
  | EmptyString => []
  | String a s' =>
      match skip with
      | S k => (a, true) :: marks k s'
      | O => match space_len s with
             | S k => (a, true) :: marks k s'
             | O => (a, false) :: marks O s'
             end
      end
  end.

Definition cons_word (w : string) (ws : list string) : list string :=
  match w with EmptyString => ws | _ => w :: ws end.

(** The word under way and the words after it. *)
Fixpoint group (l : list (ascii * bool)) : string * list string :=
  match l with
  | [] => (EmptyString, [])
  | (a, blank) :: l =>
      let '(w, ws) := group l in
      if blank : bool then (EmptyString, cons_word w ws) else (String a w, ws)
  end.

(** [s.split()] *)
Definition words (s : string) : list string := let '(w, ws) := group (marks 0 s) in cons_word w ws.

Fixpoint drop_blanks (l : list (ascii * bool)) : list (ascii * bool) :=
  match l with
  | (a, true) :: l => drop_blanks l
  | _ => l
  end.

(** [s.strip()] *)
Definition strip (s : string) : string :=
  String.string_of_list_ascii (map fst (rev (drop_blanks (rev (drop_blanks (marks 0 s)))))).

(** [s.strip(c)] *)
Fixpoint drop_char (c : ascii) (l : list ascii) : list ascii :=
  match l with a :: l' => if decide (a = c) then drop_char c l' else l | [] => [] end.
Definition strip_char (c : ascii) (s : string) : string :=
  String.string_of_list_ascii (rev (drop_char c (rev (drop_char c (String.list_ascii_of_string s))))).

(** ** Numbers *)

Definition is_ascii_char (c : ascii) : bool := (N_of_ascii c <? 128)%N.
Definition digit_of (c : ascii) : option Z :=
  let n := N_of_ascii c in if ((48 <=? n) && (n <=? 57))%N then Some (Z.of_N n - 48) else None.
Definition is_digit_char (c : ascii) : bool := match digit_of c with Some _ => true | None => false end.

Fixpoint forall_chars (p : ascii -> bool) (s : string) : bool :=
  match s with EmptyString => true | String a s => p a && forall_chars p s end.

Definition is_ascii : string -> bool := forall_chars is_ascii_char.

(** Digits with single underscores between them: their value and how many they are, and the
    rest.  [seen] tells whether a digit precedes, which an underscore needs. *)
Fixpoint digits_from (seen : bool) (acc : Z) (n : nat) (s : string) : Z * nat * string :=
  match s with
  | String a s' =>
      match digit_of a with
      | Some d => digits_from true (10 * acc + d) (S n) s'
      | None =>
          match decide (a = "_"%char), seen, s' with
          | left _, true, String b s'' =>
              match digit_of b with
              | Some d => digits_from true (10 * acc + d) (S n) s''
              | None => (acc, n, s)
              end
          | _, _, _ => (acc, n, s)
          end
      end
  | EmptyString => (acc, n, s)
  end.

Definition take_sign (s : string) : bool * string :=
  match s with
  | String a s' => if decide (a = "-"%char) then (true, s') else if decide (a = "+"%char) then (false, s') else (false, s)
  | EmptyString => (false, s)
  end.

Definition ascii_int (s : string) : option Z :=
  let '(neg, s) := take_sign (strip s) in
  match digits_from false 0 0 s with
  | (z, S _, EmptyString) => Some (if neg then -z else z)
  | _ => None
  end.

(** The fraction after a point: [acc * 10^-k]. *)
Definition take_fraction (acc : Z) (n : nat) (s : string) : Z * Z * nat * string :=
  match s with
  | String a s' =>
      if decide (a = "."%char) then
        let '(acc', n', s'') := digits_from false acc 0 s' in (acc', Z.of_nat n', (n + n')%nat, s'')
      else (acc, 0, n, s)
  | EmptyString => (acc, 0, n, s)
  end.

Definition take_exponent (s : string) : option Z :=
  match s with
  | EmptyString => Some 0
  | String a s =>
      if decide (a ∈ ["e"; "E"]%char) then
        let '(neg, s) := take_sign s in
        match digits_from false 0 0 s with
        | (z, S _, EmptyString) => Some (if neg then -z else z)
        | _ => None
        end
      else None
  end.

(** [n * 10^e], correctly rounded. *)
Definition decimal_float (n e : Z) : float :=
  if 0 <=? e then float_of_Z (n * 10 ^ e) else int_truediv n (10 ^ (-e)).

Definition lower_char (c : ascii) : ascii :=
  let n := N_of_ascii c in if ((65 <=? n) && (n <=? 90))%N then ascii_of_N (n + 32) else c.
Fixpoint lower_ascii (s : string) : string :=
  match s with EmptyString => EmptyString | String a s => String (lower_char a) (lower_ascii s) end.

Definition ascii_float (s : string) : option float :=
  let '(neg, s) := take_sign (strip s) in
  let signed x := if neg then SFopp x else x in
  if decide (lower_ascii s ∈ ["inf"; "infinity"]) then Some (S754_infinity neg)
  else if decide (lower_ascii s = "nan") then Some S754_nan
  else
    let '(acc, n, s) := digits_from false 0 0 s in
    let '(acc, k, n, s) := take_fraction acc n s in
    match n, take_exponent s with
    | S _, Some e => Some (signed (decimal_float acc (e - k)))
    | _, _ => None
    end.

Section Numbers.
Context {U : Unicode}.

(** [s.isdigit()] *)
Definition isdigit (s : string) : bool :=
  if is_ascii s then negb (bool_decide (s = "")) && forall_chars is_digit_char s else wide_isdigit s.

(** [int(s)] and [float(s)] *)
Definition py_int (s : string) : res Z :=
  match (if is_ascii s then ascii_int s else wide_int s) with
  | Some z => Ok z
  | None => Raise (ValueError "invalid literal for int()")
  end.

Definition py_float (s : string) : res float :=
  match (if is_ascii s then ascii_float s else wide_float s) with
  | Some f => Ok f
  | None => Raise (ValueError "could not convert string to float")
  end.
End Numbers.

(** ** Examples, as the interpreter evaluates them *)

Example words_ex : words "  cpu  1 2 " = ["cpu"; "1"; "2"].
Proof. reflexivity. Qed.
Example strip_ex : (strip "  eth0 x ", strip " ") = ("eth0 x", "").
Proof. reflexivity. Qed.
Example ascii_int_ex :
  map ascii_int ["12"; " -7 "; "1_000"; "1__0"; "_1"; "1_"; "0x1"; "+ 1"; "007"; ""; "-"]
  = [Some 12; Some (-7); Some 1000; None; None; None; None; None; Some 7; None; None].
Proof. reflexivity. Qed.
Example ascii_float_ex :
  map ascii_float ["0.5"; "1."; ".25"; "1e3"; "-1_0.0_1"; "."; "e3"; "1e"; "1._5"; "nan"; "-Infinity"; "1e400"; "-0"]
  = [Some (flit 5 1); Some (float_of_Z 1); Some (flit 25 2); Some (float_of_Z 1000); Some (SFopp (flit 1001 2));
     None; None; None; None; Some S754_nan; Some (S754_infinity true); Some (S754_infinity false); Some (S754_zero true)].
Proof. vm_compute. reflexivity. Qed.
Example rpartition_ex : rpartition_at ")" "1 (a) (b) S" = Some ("1 (a) (b", " S").
Proof. reflexivity. Qed.

(** ** Facts about splitting *)

Lemma partition_at_app c s t : forall_chars (fun a => negb (bool_decide (a = c))) s = true ->
  partition_at c (s +:+ String c t) = (s, Some t).
Proof.
  induction s as [|a s IH]; [rewrite string_app_nil_l; cbn; by rewrite decide_True|].
  cbn [forall_chars]. intros [Ha Hs]%andb_prop. rewrite string_app_cons. cbn [partition_at].
  rewrite decide_False; [by rewrite IH|].
  intros ->. by rewrite bool_decide_true in Ha.
Qed.

Lemma rpartition_at_none c s : forall_chars (fun a => negb (bool_decide (a = c))) s = true -> rpartition_at c s = None.
Proof.
  induction s as [|a s IH]; cbn; [done|]. intros [Ha Hs]%andb_prop. rewrite IH by done.
  rewrite decide_False; [done|]. intros ->. by rewrite bool_decide_true in Ha.
Qed.

Lemma rpartition_at_app c s t : forall_chars (fun a => negb (bool_decide (a = c))) t = true ->
  rpartition_at c (s +:+ String c t) = Some (s, t).
Proof.
  intros Ht. induction s as [|a s IH].
  - rewrite string_app_nil_l. cbn. rewrite rpartition_at_none by done. by rewrite decide_True.
  - rewrite string_app_cons. cbn [rpartition_at]. by rewrite IH.
Qed.

(** A piece of text with no white space, of ASCII characters. *)
Definition word_char (c : ascii) : bool :=
  let n := N_of_ascii c in ((n <? 9) || (13 <? n) && (n <? 28) || (32 <? n) && (n <? 128))%N.
Definition is_word (s : string) : bool := negb (bool_decide (s = "")) && forall_chars word_char s.

(** The branch that gives [k] is not taken. *)
Ltac off k := match goal with |- context [if ?c then k else _] => replace c with false by lia end.

Lemma space_len_word a s : word_char a = true -> space_len (String a s) = 0%nat.
Proof.
  unfold word_char, space_len. cbv zeta. generalize (N_of_ascii a). intros n Hw.
  off 1%nat. destruct s as [|b s]; [done|].
  off 2%nat. destruct s as [|c s]; [done|]. off 3%nat. done.
Qed.

Lemma group_word w r : forall_chars word_char w = true ->
  group (marks 0 (w +:+ r)) = (w +:+ (group (marks 0 r)).1, (group (marks 0 r)).2).
Proof.
  induction w as [|a w IH]; [intros _; rewrite !string_app_nil_l; by destruct (group _)|].
  cbn [forall_chars]. intros [Ha Hw]%andb_prop. rewrite string_app_cons.
  cbn [marks]. rewrite space_len_word by done. cbn [group]. rewrite IH by done. by rewrite string_app_cons.
Qed.

Lemma cons_word_ne w ws : w <> "" -> cons_word w ws = w :: ws.
Proof. by destruct w. Qed.

Lemma joined_cons sep x y l : joined sep (x :: y :: l) = x +:+ sep +:+ joined sep (y :: l).
Proof.
  cbn. assert (Hf : forall a b, foldl (fun s z => s +:+ sep +:+ z) (a +:+ b) l = a +:+ foldl (fun s z => s +:+ sep +:+ z) b l).
  { induction l as [|z l IH]; intros a b; cbn; [done|]. rewrite string_app_assoc. apply IH. }
  rewrite <- (string_app_assoc x sep y), Hf, string_app_assoc. done.
Qed.

Lemma words_joined fields : Forall (fun f => is_word f = true) fields -> words (joined " " fields) = fields.
Proof.
  unfold words. induction fields as [|f fields IH]; [done|]. intros [Hf Hs]%Forall_cons.
  apply andb_prop in Hf as [Hne Hf]. apply negb_true_iff, bool_decide_eq_false in Hne.
  destruct fields as [|g fields].
  - change (joined " " [f]) with f. rewrite <- (string_app_nil_r f) at 1. 
    rewrite group_word by done. cbn [marks group fst snd]. rewrite string_app_nil_r. by apply cons_word_ne.
  - rewrite joined_cons, group_word by done. specialize (IH Hs).
    change (" " +:+ joined " " (g :: fields)) with (String " " (joined " " (g :: fields))).
    cbn [marks]. change (space_len (String " " (joined " " (g :: fields)))) with 1%nat. cbn [group].
    destruct (group (marks 0 (joined " " (g :: fields)))) as [w ws]. cbn [fst snd].
    rewrite string_app_nil_r, IH. by apply cons_word_ne.
Qed.

Lemma drop_chars_app s t : drop_chars (String.length s) (s +:+ t) = t.
Proof. induction s as [|a s IH]; [done|]. rewrite string_app_cons. exact IH. Qed.

Lemma length_app_str s t : String.length (s +:+ t) = (String.length s + String.length t)%nat.
Proof. induction s as [|a s IH]; [done|]. rewrite string_app_cons. cbn. by rewrite IH. Qed.

Lemma prefix_drop n s : prefix_of n s +:+ drop_chars n s = s.
Proof.
  revert s. induction n as [|n IH]; intros [|a s]; cbn [prefix_of drop_chars]; try done.
  rewrite string_app_cons. by rewrite IH.
Qed.

Lemma length_prefix_of n s : String.length (prefix_of n s) = Nat.min n (String.length s).
Proof. revert s. induction n as [|n IH]; intros [|a s]; cbn; auto. Qed.

Lemma length_drop_chars n s : String.length (drop_chars n s) = (String.length s - n)%nat.
Proof. revert s. induction n as [|n IH]; intros [|a s]; cbn; auto. Qed.

Lemma prefix_of_app n s t : prefix_of n (s +:+ t) = prefix_of n s +:+ prefix_of (n - String.length s) t.
Proof.
  revert n. induction s as [|a s IH]; intros n; [rewrite string_app_nil_l; cbn; rewrite Nat.sub_0_r; by destruct n|].
  rewrite string_app_cons. destruct n as [|n]; [by destruct t|]. cbn. by rewrite IH, string_app_cons.
Qed.

Lemma prefix_of_all n s : (String.length s <= n)%nat -> prefix_of n s = s.
Proof. revert s. induction n as [|n IH]; intros [|a s] Hl; cbn in *; try done; [lia|]. rewrite IH by lia. done. Qed.

Lemma drop_chars_plus n m s : drop_chars (n + m) s = drop_chars m (drop_chars n s).
Proof. revert s. induction n as [|n IH]; intros [|a s]; cbn; try done. by destruct m. Qed.

Lemma drop_chars_past n s t : drop_chars (String.length s + n) (s +:+ t) = drop_chars n t.
Proof. by rewrite drop_chars_plus, drop_chars_app. Qed.

Definition not_char (c : ascii) : string -> bool := forall_chars (fun a => negb (bool_decide (a = c))).

Lemma forall_chars_app p s t : forall_chars p (s +:+ t) = forall_chars p s && forall_chars p t.
Proof.
  induction s as [|a s IH]; [done|]. rewrite string_app_cons. cbn. by rewrite IH, andb_assoc.
Qed.
