(* ===== verification/RecordQueue.v ===== *)
(** * The hand-off queue between the pipelines and the writer thread

    [node_monitor/collector/record_queue.py].  Every method runs under the queue's lock, so
    each is one atomic step on the state; a run of the two threads is a sequence of steps.
    [take] blocks until there is something to take, the queue is closed or its timeout
    passes: the steps the other thread makes meanwhile come before it in the sequence. *)

From S2P Require Import Prelude PyVal.

Open Scope py_scope.

(** ** State and operations *)

Record queue := Queue {
  durable : list record;
  live_processes : list (string * record);
  live_node : list (string * record);
  closed : bool;
}.

(** [RecordQueue.__init__] *)
Definition new_queue : queue := Queue [] [] [] false.

(** [record.row["node"]], a host name. *)
Definition row_node (r : record) : res string :=
  match dget "node" (row r) with
  | Some (VStr s) => Ok s
  | Some _ => Raise TypeError
  | None => Raise (KeyError "node")
  end.

(** One turn of the loop of [put]. *)
Definition put_one (r : record) : M queue unit := fun q =>
  if decide (kind r = LIVE_PROCESSES) then
    match row_node r with
    | Ok node => (Ok tt, Queue (durable q) (dset node r (live_processes q)) (live_node q) (closed q))
    | Raise e => (Raise e, q)
    end
  else if decide (kind r = LIVE_NODE) then
    match row_node r with
    | Ok node =>
        let merged := match dget node (live_node q) with
                      | Some previous => dmerge (row previous) (row r)
                      | None => row r
                      end in
        (Ok tt, Queue (durable q) (live_processes q)
                  (dset node (Record_ LIVE_NODE merged) (live_node q)) (closed q))
    | Raise e => (Raise e, q)
    end
  else (Ok tt, Queue (durable q ++ [r]) (live_processes q) (live_node q) (closed q)).

Definition put (records : list record) : M queue unit :=
  match records with
  | [] => ret tt
  | _ =>
      let* c := gets closed in
      if c then raise (RuntimeError "RecordQueue is closed")
      else foldM (fun _ r => put_one r) tt records
  end.

Definition has_records (q : queue) : bool :=
  match durable q, live_processes q, live_node q with
  | [], [], [] => false
  | _, _, _ => true
  end.

(** The end of [take], once it stops waiting. *)
Definition take : M queue (list record * list record) := fun q =>
  (Ok (durable q, dvalues (live_processes q) ++ dvalues (live_node q)),
   Queue [] [] [] (closed q)).

Definition close : M queue unit :=
  modify (fun q => Queue (durable q) (live_processes q) (live_node q) true).

Definition depth (q : queue) : Z * Z :=
  (Z.of_nat (length (durable q)),
   Z.of_nat (length (live_processes q)) + Z.of_nat (length (live_node q))).

(** The wait of [take]: [timed_out] is whether the deadline has passed. *)
Definition take_ready (timed_out : bool) (q : queue) : bool :=
  has_records q || closed q || timed_out.

(** ** What the queue promises: everything put since the last take, coalesced *)

Definition is_live (r : record) : bool :=
  bool_decide (kind r = LIVE_PROCESSES \/ kind r = LIVE_NODE).

Definition durable_of (h : list record) : list record := filter (fun r => is_live r = false) h.

Definition of_node (k node : string) (r : record) : bool :=
  bool_decide (kind r = k) &&
  match dget "node" (row r) with Some (VStr n) => bool_decide (n = node) | _ => false end.

(** The newest snapshot of a node among the records put. *)
Definition newest_snapshot (node : string) (h : list record) : option record :=
  last (filter (fun r => of_node LIVE_PROCESSES node r = true) h).

(** The value a node's merged row must hold at column [c]: the last one put. *)
Definition newest_column (node c : string) (h : list record) : option value :=
  last (omap (fun r => dget c (row r)) (filter (fun r => of_node LIVE_NODE node r = true) h)).

(** The rows of a history are dictionaries, and its live records name their node. *)
Definition well_formed (r : record) : Prop :=
  NoDup (dkeys (row r)) /\
  (is_live r = true -> exists node, dget "node" (row r) = Some (VStr node)).

(** [q] holds exactly the records [h] put since the last take, coalesced. *)
Record represents (h : list record) (q : queue) : Prop := {
  rep_durable : durable q = durable_of h;
  rep_lp_keys : NoDup (dkeys (live_processes q));
  rep_ln_keys : NoDup (dkeys (live_node q));
  rep_lp : forall node, dget node (live_processes q) = newest_snapshot node h;
  rep_ln : forall node,
    match dget node (live_node q) with
    | None => forall r, r ∈ h -> of_node LIVE_NODE node r = false
    | Some r => kind r = LIVE_NODE /\ NoDup (dkeys (row r)) /\
                (exists r', r' ∈ h /\ of_node LIVE_NODE node r' = true) /\
                forall c, dget c (row r) = newest_column node c h
    end;
}.

(** ** Lemmas *)

Lemma durable_of_snoc h r :
  durable_of (h ++ [r]) = durable_of h ++ (if is_live r then [] else [r]).
Proof. unfold durable_of. rewrite filter_snoc. by destruct (is_live r). Qed.

Lemma newest_snapshot_snoc node h r :
  newest_snapshot node (h ++ [r])
  = if of_node LIVE_PROCESSES node r then Some r else newest_snapshot node h.
Proof.
  unfold newest_snapshot. rewrite filter_snoc.
  destruct (of_node LIVE_PROCESSES node r); simpl; [by rewrite last_snoc | by rewrite app_nil_r].
Qed.

Lemma newest_column_snoc node c h r :
  newest_column node c (h ++ [r])
  = if of_node LIVE_NODE node r
    then match dget c (row r) with Some v => Some v | None => newest_column node c h end
    else newest_column node c h.
Proof.
  unfold newest_column. rewrite filter_snoc, omap_app.
  destruct (of_node LIVE_NODE node r); simpl; [|by rewrite app_nil_r].
  destruct (dget c (row r)); simpl; [by rewrite last_snoc | by rewrite app_nil_r].
Qed.

Lemma of_node_kind k node r : kind r <> k -> of_node k node r = false.
Proof. intros H. unfold of_node. by rewrite bool_decide_eq_false_2. Qed.

Lemma of_node_known k node n r :
  kind r = k -> dget "node" (row r) = Some (VStr n) -> of_node k node r = bool_decide (n = node).
Proof. intros Hk Hn. unfold of_node. rewrite bool_decide_eq_true_2 by done. by rewrite Hn. Qed.

Lemma represents_nil c : represents [] (Queue [] [] [] c).
Proof. split; simpl; try done; [apply NoDup_nil_2 .. | set_solver]. Qed.

(** The three cases of [put_one], each keeping the representation. *)
Lemma put_one_durable h q r :
  represents h q -> is_live r = false ->
  exists q', put_one r q = (Ok tt, q') /\ represents (h ++ [r]) q' /\ closed q' = closed q.
Proof.
  intros [Hd Hk1 Hk2 Hlp Hln] Hl. unfold is_live in Hl. apply bool_decide_eq_false in Hl.
  unfold put_one. rewrite !decide_False by tauto. eexists; split_and!; [done| |done].
  split; simpl; try done.
  - rewrite Hd, durable_of_snoc. unfold is_live. by rewrite bool_decide_eq_false_2.
  - intros node. rewrite newest_snapshot_snoc, of_node_kind by tauto. apply Hlp.
  - intros node. specialize (Hln node). destruct (dget node (live_node q)) as [r0|].
    + destruct Hln as (? & ? & (r' & ? & ?) & Hc). split_and!; try done.
      * exists r'. set_solver.
      * intros c. rewrite newest_column_snoc, of_node_kind by tauto. apply Hc.
    + intros r' [Hr'|Hr']%elem_of_app; [by apply Hln|].
      apply list_elem_of_singleton in Hr' as ->. apply of_node_kind. tauto.
Qed.

Lemma put_one_snapshot h q r node :
  represents h q -> kind r = LIVE_PROCESSES -> dget "node" (row r) = Some (VStr node) ->
  exists q', put_one r q = (Ok tt, q') /\ represents (h ++ [r]) q' /\ closed q' = closed q.
Proof.
  intros [Hd Hk1 Hk2 Hlp Hln] Hk Hn. unfold put_one, row_node.
  rewrite decide_True by done. rewrite Hn. eexists; split_and!; [done| |done].
  assert (is_live r = true) as Hl by (apply bool_decide_eq_true; tauto).
  split; simpl; auto with nm.
  - rewrite Hd, durable_of_snoc, Hl. by rewrite app_nil_r.
  - intros n. rewrite dget_dset, newest_snapshot_snoc, (of_node_known _ _ node) by done.
    rewrite Hlp. by destruct (decide (node = n)); [rewrite bool_decide_eq_true_2 | rewrite bool_decide_eq_false_2].
  - intros n. specialize (Hln n). destruct (dget n (live_node q)) as [r0|].
    + destruct Hln as (? & ? & (r' & ? & ?) & Hc). split_and!; try done.
      * exists r'. set_solver.
      * intros c. rewrite newest_column_snoc, of_node_kind by (by rewrite Hk). apply Hc.
    + intros r' [Hr'|Hr']%elem_of_app; [by apply Hln|].
      apply list_elem_of_singleton in Hr' as ->. apply of_node_kind. by rewrite Hk.
Qed.

Lemma put_one_node h q r node :
  represents h q -> kind r = LIVE_NODE -> NoDup (dkeys (row r)) ->
  dget "node" (row r) = Some (VStr node) ->
  exists q', put_one r q = (Ok tt, q') /\ represents (h ++ [r]) q' /\ closed q' = closed q.
Proof.
  intros [Hd Hk1 Hk2 Hlp Hln] Hk Hrow Hn. unfold put_one, row_node.
  rewrite decide_False by (by rewrite Hk). rewrite decide_True by done.
  rewrite Hn. eexists; split_and!; [done| |done].
  assert (is_live r = true) as Hl by (apply bool_decide_eq_true; tauto).
  split; simpl; auto with nm.
  - rewrite Hd, durable_of_snoc, Hl. by rewrite app_nil_r.
  - intros n. rewrite newest_snapshot_snoc, of_node_kind by (by rewrite Hk). apply Hlp.
  - intros n. rewrite dget_dset. destruct (decide (node = n)) as [->|Hne].
    + assert (of_node LIVE_NODE n r = true) as Ho.
      { rewrite (of_node_known _ _ n) by done. by apply bool_decide_eq_true. }
      specialize (Hln n). split_and!; [done | | exists r; set_solver | ].
      * destruct (dget n (live_node q)); simpl; [|done]. apply NoDup_dkeys_dmerge. apply Hln.
      * intros c. rewrite newest_column_snoc, Ho.
        destruct (dget n (live_node q)) as [r0|]; simpl.
        -- destruct Hln as (_ & _ & _ & Hc). by rewrite dget_dmerge, dget_rev, Hc.
        -- destruct (dget c (row r)) as [v|]; [done|]. unfold newest_column.
           replace (filter _ h) with (@nil record); [done|]. symmetry.
           apply filter_none. intros r' Hr'. by rewrite Hln.
    + specialize (Hln n).
      assert (of_node LIVE_NODE n r = false) as Ho.
      { rewrite (of_node_known _ _ node) by done. by apply bool_decide_eq_false. }
      destruct (dget n (live_node q)) as [r0|].
      * destruct Hln as (? & ? & (r' & ? & ?) & Hc). split_and!; try done.
        -- exists r'. set_solver.
        -- intros c. rewrite newest_column_snoc, Ho. apply Hc.
      * intros r' [Hr'|Hr']%elem_of_app; [by apply Hln|].
        by apply list_elem_of_singleton in Hr' as ->.
Qed.

Lemma put_one_represents h q r :
  represents h q -> well_formed r ->
  exists q', put_one r q = (Ok tt, q') /\ represents (h ++ [r]) q' /\ closed q' = closed q.
Proof.
  intros Hrep [Hnd Hl]. destruct (is_live r) eqn:El.
  - destruct (Hl eq_refl) as [node Hn]. apply bool_decide_eq_true in El as [Hk|Hk].
    + by eapply put_one_snapshot.
    + by eapply put_one_node.
  - by apply put_one_durable.
Qed.

Lemma put_represents h q rs :
  represents h q -> closed q = false -> Forall well_formed rs ->
  exists q', put rs q = (Ok tt, q') /\ represents (h ++ rs) q' /\ closed q' = false.
Proof.
  intros Hrep Hc Hwf. destruct rs as [|r0 rs0].
  { exists q. rewrite app_nil_r. done. }
  unfold put, bind, gets. rewrite Hc. generalize dependent (r0 :: rs0). clear r0 rs0.
  intros rs Hwf. revert h q Hrep Hc. induction Hwf as [|r rs Hr _ IH]; intros h q Hrep Hc.
  - exists q. rewrite app_nil_r. done.
  - destruct (put_one_represents h q r Hrep Hr) as (q1 & E1 & Hrep1 & Hc1). simpl.
    unfold bind. rewrite E1. rewrite Hc in Hc1. destruct (IH _ _ Hrep1 Hc1) as (q2 & E2 & H2).
    exists q2. rewrite E2, <- app_assoc in *. done.
Qed.

Lemma take_represents h q :
  represents h q ->
  take q = (Ok (durable_of h, dvalues (live_processes q) ++ dvalues (live_node q)),
            Queue [] [] [] (closed q)).
Proof. intros Hrep. unfold take. by rewrite (rep_durable _ _ Hrep). Qed.

(** ** Runs of the two threads *)

Inductive op := Put (rs : list record) | Take | Close.

(** One step: the records a [Take] returns (durable, live), and the queue after it.  A put
    on a closed queue raises and is left out of a run: see [put_closed]. *)
Definition step (o : op) (q : queue) : option (list record * list record) * queue :=
  match o with
  | Put rs => (None, snd (put rs q))
  | Take => match take q with (Ok out, q') => (Some out, q') | (Raise _, q') => (None, q') end
  | Close => (None, snd (close q))
  end.

(** The durable and the live records the takes of a run return, and the final queue. *)
Fixpoint run (os : list op) (q : queue) : list record * list record * queue :=
  match os with
  | [] => ([], [], q)
  | o :: os =>
      let '(out, q') := step o q in
      let '(d, l, q'') := run os q' in
      match out with
      | Some (d0, l0) => (d0 ++ d, l0 ++ l, q'')
      | None => (d, l, q'')
      end
  end.

Definition puts (os : list op) : list record :=
  os ≫= fun o => match o with Put rs => rs | _ => [] end.

(** No record is put after [close], as the daemon's shutdown order ensures. *)
Fixpoint orderly (os : list op) (c : bool) : Prop :=
  match os with
  | [] => True
  | Put rs :: os => (c = true -> rs = []) /\ orderly os c
  | Take :: os => orderly os c
  | Close :: os => orderly os true
  end.

Lemma step_represents o h q :
  represents h q -> Forall well_formed (puts [o]) ->
  orderly [o] (closed q) ->
  exists h', represents h' (step o q).2 /\
    closed (step o q).2 = (match o with Close => true | _ => closed q end) /\
    match o with
    | Put rs => h' = h ++ rs /\ (step o q).1 = None
    | Take => h' = [] /\ fst <$> (step o q).1 = Some (durable_of h)
    | Close => h' = h /\ (step o q).1 = None
    end.
Proof.
  intros Hrep Hwf Ho. destruct o as [rs| |]; simpl in *.
  - rewrite app_nil_r in Hwf. destruct (closed q) eqn:Ec.
    + destruct Ho as [Hnil _]. rewrite Hnil by done. exists h. simpl. rewrite app_nil_r. done.
    + destruct (put_represents h q rs Hrep Ec Hwf) as (q' & E & H1 & H2).
      rewrite E. by exists (h ++ rs).
  - exists []. split_and!; [apply represents_nil | done | done |]. simpl.
    f_equal. apply Hrep.
  - exists h. split_and!; try done. by destruct Hrep; split.
Qed.

Lemma run_durable os h q :
  represents h q -> Forall well_formed (puts os) -> orderly os (closed q) ->
  let '(d, _, q') := run os q in d ++ durable q' = durable_of (h ++ puts os).
Proof.
  revert h q. induction os as [|o os IH]; intros h q Hrep Hwf Ho.
  { simpl. rewrite app_nil_r. apply Hrep. }
  assert (puts (o :: os) = puts [o] ++ puts os) as Hp by (simpl; by rewrite app_nil_r).
  rewrite Hp in *. apply Forall_app in Hwf as [Hwo Hwf].
  assert (orderly [o] (closed q) /\ orderly os (match o with Close => true | _ => closed q end))
    as [Ho1 Ho2] by (destruct o; simpl in *; tauto).
  destruct (step_represents o h q Hrep Hwo Ho1) as (h' & Hrep' & Hc & Hres).
  rewrite <- Hc in Ho2. specialize (IH h' _ Hrep' Hwf Ho2). simpl.
  destruct (step o q) as [out q']. simpl in *. destruct (run os q') as [[d l] q''].
  destruct o; destruct Hres as [-> Hout]; simpl in *.
  - rewrite Hout, IH, app_nil_r, <- app_assoc. done.
  - destruct out as [[d0 l0]|]; simplify_eq/=. rewrite <- app_assoc, IH.
    unfold durable_of. by rewrite filter_app.
  - rewrite Hout. by rewrite IH.
Qed.

(** ** Properties *)

(** C20. Coalescing refines its specification: after putting [rs] on an open queue that holds
    the records [h], a take returns every durable record in put order, and as live state one
    record per node: of [live_processes] the newest snapshot, of [live_node] the merge in
    which each column has the last value put. *)
Theorem put_take_refines h q rs :
  represents h q -> closed q = false -> Forall well_formed rs ->
  exists q' lp ln,
    put rs q = (Ok tt, q') /\
    take q' = (Ok (durable_of (h ++ rs), dvalues lp ++ dvalues ln), Queue [] [] [] false) /\
    NoDup (dkeys lp) /\ NoDup (dkeys ln) /\
    (forall node, dget node lp = newest_snapshot node (h ++ rs)) /\
    (forall node c, dget node ln ≫= (fun r => dget c (row r)) = newest_column node c (h ++ rs)).
Proof.
  intros Hrep Hc Hwf. destruct (put_represents h q rs Hrep Hc Hwf) as (q' & E & Hr' & Hc').
  exists q', (live_processes q'), (live_node q'). rewrite (take_represents _ _ Hr'), Hc'.
  split_and!; try done; [apply Hr' .. | ].
  intros node c. pose proof (rep_ln _ _ Hr' node) as Hn.
  destruct (dget node (live_node q')) as [r|]; simpl; [apply Hn|].
  unfold newest_column. rewrite filter_none; [done|]. intros r Hr. by rewrite Hn.
Qed.

Definition ex_rec (k node c : string) (z : Z) : record :=
  Record_ k [("node", VStr node); (c, VInt z)].

Lemma put_take_refines_witness :
  exists q' lp ln,
    let rs := [ex_rec LIVE_NODE "n1" "a" 1; ex_rec COLLECTION_EVENT "n1" "b" 2;
               ex_rec LIVE_NODE "n1" "c" 3; ex_rec LIVE_PROCESSES "n2" "d" 4] in
    put rs new_queue = (Ok tt, q') /\
    take q' = (Ok (durable_of ([] ++ rs), dvalues lp ++ dvalues ln), Queue [] [] [] false) /\
    NoDup (dkeys lp) /\ NoDup (dkeys ln) /\
    (forall node, dget node lp = newest_snapshot node ([] ++ rs)) /\
    (forall node c, dget node ln ≫= (fun r => dget c (row r)) = newest_column node c ([] ++ rs)).
Proof.
  apply (put_take_refines [] new_queue); [apply represents_nil | done |].
  repeat constructor; try (intros _; eexists; reflexivity);
    apply (bool_decide_unpack _); vm_compute; exact I.
Defined.

(** No durable record is lost, duplicated or reordered by any interleaving of the
    producers' puts with the writer's takes and the final close: the durable records the takes
    return, followed by those still queued, are exactly the durable records put. *)
Theorem durable_conserved os :
  Forall well_formed (puts os) -> orderly os false ->
  let '(taken, _, q) := run os new_queue in taken ++ durable q = durable_of (puts os).
Proof. intros Hwf Ho. exact (run_durable os [] new_queue (represents_nil false) Hwf Ho). Qed.

Lemma durable_conserved_witness :
  let os := [Put [ex_rec COLLECTION_EVENT "n" "a" 1]; Take;
             Put [ex_rec LIVE_NODE "n" "b" 2; ex_rec NODE_METRICS_1M "n" "c" 3]; Close; Take] in
  let '(taken, _, q) := run os new_queue in taken ++ durable q = durable_of (puts os).
Proof.
  apply durable_conserved; [|simpl; intuition discriminate].
  repeat constructor; try (intros _; eexists; reflexivity);
    apply (bool_decide_unpack _); vm_compute; exact I.
Defined.

(** A put of any records on a closed queue raises [RuntimeError] and changes nothing, so a
    producer still running after shutdown cannot lose records silently. *)
Theorem put_closed r rs q :
  closed q = true -> put (r :: rs) q = (Raise (RuntimeError "RecordQueue is closed"), q).
Proof. intros Hc. unfold put, bind, gets. by rewrite Hc. Qed.

Lemma put_closed_witness :
  put [ex_rec LIVE_NODE "n" "a" 1] (Queue [] [] [] true)
  = (Raise (RuntimeError "RecordQueue is closed"), Queue [] [] [] true).
Proof. apply put_closed. reflexivity. Defined.
