(* ===== verification/Codec.v ===== *)
(** * Value encoding for SQL parameters and for the disk spool

    [node_monitor/database/codec.py].  [encode] and [decode] are [_encode] and [_decode]; a
    datetime travels as [{"$dt": iso}].  [clean] is [_clean]: what PostgreSQL can store. *)

From S2P Require Import Prelude PyFloat PyTime PyVal.

(** ** UTF-8

    Text is its bytes, so a string Python holds with surrogate escapes is one whose bytes are
    not valid UTF-8.  [next_char] splits off the first character, or the longest prefix of a
    character that the following byte breaks, as the decoder's "replace" handler counts. *)

Definition byte_in (lo hi : N) (c : ascii) : bool :=
  ((lo <=? N_of_ascii c) && (N_of_ascii c <=? hi))%N.

Definition cont : ascii -> bool := byte_in 128 191.

(** Bounds on the second byte after a lead byte, and how many more follow; [None] for a byte
    that starts no character. *)
Definition lead (c : ascii) : option (ascii -> bool) * nat :=
  let n := N_of_ascii c in
  if (n <? 128)%N then (None, 0%nat)
  else if byte_in 194 223 c then (Some cont, 0%nat)
  else if byte_in 224 224 c then (Some (byte_in 160 191), 1%nat)
  else if byte_in 237 237 c then (Some (byte_in 128 159), 1%nat)
  else if byte_in 225 239 c then (Some cont, 1%nat)
  else if byte_in 240 240 c then (Some (byte_in 144 191), 2%nat)
  else if byte_in 241 243 c then (Some cont, 2%nat)
  else if byte_in 244 244 c then (Some (byte_in 128 143), 2%nat)
  else (None, 1%nat).

Inductive chunk := Good (bs : list ascii) | Bad.

(** Up to [n] continuation bytes: those read, whether all were there, and the rest. *)
Fixpoint take_cont (n : nat) (l : list ascii) : list ascii * bool * list ascii :=
  match n, l with
  | O, _ => ([], true, l)
  | S n, c :: l' =>
      if cont c then let '(bs, ok, r) := take_cont n l' in (c :: bs, ok, r) else ([], false, l)
  | S _, [] => ([], false, [])
  end.

Definition next_char (c : ascii) (l : list ascii) : chunk * list ascii :=
  match lead c with
  | (None, O) => (Good [c], l)
  | (None, _) => (Bad, l)
  | (Some second, n) =>
      match l with
      | c2 :: l' =>
          if second c2 then
            let '(bs, ok, r) := take_cont n l' in
            if ok then (Good (c :: c2 :: bs), r) else (Bad, r)
          else (Bad, l)
      | [] => (Bad, [])
      end
  end.

(** [fuel] is the number of bytes: every step consumes at least one. *)
Fixpoint chunks (fuel : nat) (l : list ascii) : list chunk :=
  match fuel, l with
  | S fuel, c :: l => let '(ch, r) := next_char c l in ch :: chunks fuel r
  | _, _ => []
  end.

Definition utf8_chunks (l : list ascii) : list chunk := chunks (length l) l.

Definition is_good (ch : chunk) : bool := match ch with Good _ => true | Bad => false end.
Definition valid_utf8 (l : list ascii) : bool := forallb is_good (utf8_chunks l).

(** U+FFFD in UTF-8. *)
Definition replacement : list ascii := ["239"; "191"; "189"]%char.
Definition chunk_bytes (ch : chunk) : list ascii :=
  match ch with Good bs => bs | Bad => replacement end.

(** [bytes.decode("utf-8", "replace")] *)
Definition decode_replace (l : list ascii) : list ascii := utf8_chunks l ≫= chunk_bytes.

Definition nul : ascii := "000"%char.

Definition string_bytes : string -> list ascii := String.list_ascii_of_string.
Definition bytes_string : list ascii -> string := String.string_of_list_ascii.

(** [_clean_str] *)
Definition clean_str (s : string) : string :=
  let l := filter (fun c => c <> nul) (string_bytes s) in
  bytes_string (if valid_utf8 l then l else decode_replace l).

(** ** [_clean] and [to_db_value] *)

Fixpoint clean (v : value) : value :=
  match v with
  | VStr s => VStr (clean_str s)
  | VFloat f => if isfinite f then v else VNone
  | VDict d => VDict (foldl (fun acc kv => dset kv.1 kv.2 acc) []
                        (map (fun kv => (clean_str kv.1, clean kv.2)) d))
  | VList l | VTuple l => VList (map clean l)
  | _ => v
  end.

(** A SQL parameter: containers go as [jsonb]. *)
Inductive db_param := Jsonb (v : value) | Scalar (v : value).

Definition to_db_value (v : value) : db_param :=
  match v with
  | VDict _ | VList _ | VTuple _ => Jsonb (clean v)
  | _ => Scalar (clean v)
  end.

(** ** [_encode] and [_decode] *)

Definition DT_KEY : string := "$dt".

Fixpoint encode (v : value) : value :=
  match v with
  | VTime t => VDict [(DT_KEY, VStr (isoformat t))]
  | VDict d => VDict (map (fun kv => (kv.1, encode kv.2)) d)
  | VList l | VTuple l => VList (map encode l)
  | VFloat f => if isfinite f then v else VNone
  | _ => v
  end.

(** The text of a datetime wrapper, if the dictionary is one. *)
Definition dt_text (d : dict) : option string :=
  match d with
  | [(k, VStr s)] => if decide (k = DT_KEY) then Some s else None
  | _ => None
  end.

Definition decode_list (f : value -> res value) : list value -> res (list value) :=
  fix go l :=
    match l with
    | [] => Ok []
    | v :: l => v ← f v; l ← go l; Ok (v :: l)
    end.

Definition decode_dict (f : value -> res value) : dict -> res dict :=
  fix go d :=
    match d with
    | [] => Ok []
    | (k, v) :: d => v ← f v; d ← go d; Ok ((k, v) :: d)
    end.

Fixpoint decode (v : value) : res value :=
  match v with
  | VDict d =>
      match dt_text d with
      | Some s => match fromisoformat s with
                  | Some t => Ok (VTime t)
                  | None => Raise (ValueError "Invalid isoformat string")
                  end
      | None => d ← decode_dict decode d; Ok (VDict d)
      end
  | VList l => l ← decode_list decode l; Ok (VList l)
  | _ => Ok v
  end.

Definition encode_record (r : record) : value :=
  VDict [("kind", VStr (kind r)); ("row", encode (VDict (row r)))].

(** A line whose kind is not text or whose row is not an object is no record. *)
Definition decode_record (v : value) : res record :=
  match v with
  | VDict d =>
      match dget "kind" d, dget "row" d with
      | Some k, Some rv =>
          rv ← decode rv;
          match k, rv with
          | VStr k, VDict d => Ok (Record_ k d)
          | _, _ => Raise TypeError
          end
      | None, _ => Raise (KeyError "kind")
      | _, None => Raise (KeyError "row")
      end
  | _ => Raise TypeError
  end.

Example clean_ex :
  clean (VDict [("a", VFloat S754_nan); ("b", VTuple [VStr (bytes_string ["097"; "000"; "255"]%char)])])
  = VDict [("a", VNone); ("b", VList [VStr (bytes_string ["097"; "239"; "191"; "189"]%char)])].
Proof. vm_compute. reflexivity. Qed.

(** ** UTF-8 lemmas *)

(** [bs] is one character: it is read back whatever follows. *)
Definition is_char (bs : list ascii) : Prop :=
  exists c t, bs = c :: t /\ forall r, next_char c (t ++ r) = (Good bs, r).

Lemma take_cont_ok n l bs r :
  take_cont n l = (bs, true, r) -> forall r', take_cont n (bs ++ r') = (bs, true, r').
Proof.
  revert l bs. induction n as [|n IH]; intros l bs H r'; simpl in *; [by simplify_eq|].
  destruct l as [|c l]; [done|]. destruct (cont c) eqn:Ec; [|done].
  destruct (take_cont n l) as [[bs' ok] r''] eqn:E. simplify_eq/=.
  rewrite Ec. by rewrite (IH _ _ E).
Qed.

Lemma take_cont_length n l bs ok r : take_cont n l = (bs, ok, r) -> (length r <= length l)%nat.
Proof.
  revert l bs ok. induction n as [|n IH]; intros l bs ok H; simpl in *; [by simplify_eq|].
  destruct l as [|c l]; [by simplify_eq|]. destruct (cont c); [|by simplify_eq].
  destruct (take_cont n l) as [[bs' ok'] r'] eqn:E. simplify_eq/=. apply IH in E. lia.
Qed.

Lemma next_char_good c l bs r : next_char c l = (Good bs, r) -> is_char bs.
Proof.
  unfold next_char. intros H. destruct (lead c) as [[second|] n] eqn:El.
  - destruct l as [|c2 l]; [done|]. destruct (second c2) eqn:E2; [|done].
    destruct (take_cont n l) as [[bs' ok] r'] eqn:E. destruct ok; simplify_eq.
    exists c, (c2 :: bs'). split; [done|]. intros r0. unfold next_char. rewrite El. simpl.
    rewrite E2. by rewrite (take_cont_ok _ _ _ _ E).
  - destruct n; simplify_eq. exists c, []. split; [done|]. intros r0.
    unfold next_char. by rewrite El.
Qed.

Lemma next_char_length c l ch r : next_char c l = (ch, r) -> (length r <= length l)%nat.
Proof.
  unfold next_char. intros H. destruct (lead c) as [[second|] n].
  - destruct l as [|c2 l]; [by simplify_eq|]. destruct (second c2); [|by simplify_eq].
    destruct (take_cont n l) as [[bs' ok] r'] eqn:E. apply take_cont_length in E.
    destruct ok; simplify_eq/=; lia.
  - destruct n; by simplify_eq.
Qed.

Lemma chunks_good fuel l ch bs : ch ∈ chunks fuel l -> ch = Good bs -> is_char bs.
Proof.
  revert l. induction fuel as [|fuel IH]; intros [|c l] Hin ->; simpl in *; try set_solver.
  destruct (next_char c l) as [ch' r] eqn:E.
  apply elem_of_cons in Hin as [<-|Hin]; [by eapply next_char_good | by eapply IH].
Qed.

Lemma replacement_is_char : is_char replacement.
Proof. eexists _, _. split; [done|]. reflexivity. Qed.

(** Bytes made of whole characters decode to those characters. *)
Lemma chunks_chars fuel (css : list (list ascii)) :
  Forall is_char css -> (length (concat css) <= fuel)%nat ->
  chunks fuel (concat css) = map Good css.
Proof.
  intros H. revert fuel. induction H as [|bs css (c & t & -> & Hc) _ IH]; intros fuel Hf.
  { by destruct fuel. }
  simpl in *. destruct fuel as [|fuel]; [lia|]. rewrite length_app in Hf. simpl.
  rewrite Hc. f_equal. apply IH. lia.
Qed.

Lemma forallb_map_good css : forallb is_good (map Good css) = true.
Proof. induction css; simpl; done. Qed.

Lemma decode_replace_valid l : valid_utf8 (decode_replace l) = true.
Proof.
  unfold decode_replace.
  assert (forall chs, (forall ch bs, ch ∈ chs -> ch = Good bs -> is_char bs) ->
     exists css, chs ≫= chunk_bytes = concat css /\ Forall is_char css) as H.
  { intros chs. induction chs as [|ch chs IH]; intros Hc; [by exists []|].
    destruct IH as (css & E & Hcss); [set_solver|].
    exists (chunk_bytes ch :: css). rewrite bind_cons, E. split; [done|].
    constructor; [|done]. destruct ch; simpl; [|apply replacement_is_char].
    eapply Hc; set_solver. }
  destruct (H (utf8_chunks l)) as (css & E & Hcss); [by eapply chunks_good|].
  rewrite E. unfold valid_utf8, utf8_chunks. rewrite chunks_chars by done.
  apply forallb_map_good.
Qed.

(** Every character of the decoder's output is one of the input's or the replacement. *)
Lemma chunks_bytes_subset fuel l c :
  c ∈ (chunks fuel l ≫= chunk_bytes) -> c ∈ l \/ c ∈ replacement.
Proof.
  revert l. induction fuel as [|fuel IH]; intros [|c0 l] Hin; simpl in *; try set_solver.
  destruct (next_char c0 l) as [ch r] eqn:E. rewrite bind_cons in Hin.
  assert (forall n l bs ok r, take_cont n l = (bs, ok, r) ->
    (forall x, x ∈ bs -> x ∈ l) /\ (forall x, x ∈ r -> x ∈ l)) as Ht.
  { clear. induction n as [|n IH]; intros l bs ok r H; simpl in H; [simplify_eq; set_solver|].
    destruct l as [|c l]; [simplify_eq; set_solver|]. destruct (cont c); [|simplify_eq; set_solver].
    destruct (take_cont n l) as [[bs' ok'] r'] eqn:E. apply IH in E. simplify_eq. set_solver. }
  assert ((forall x, x ∈ chunk_bytes ch -> x ∈ c0 :: l \/ x ∈ replacement)
          /\ (forall x, x ∈ r -> x ∈ l)) as [H1 H2].
  { unfold next_char in E. destruct (lead c0) as [[second|] n].
    - destruct l as [|c2 l]; [simplify_eq; set_solver|]. destruct (second c2); [|simplify_eq; set_solver].
      destruct (take_cont n l) as [[bs' ok] r'] eqn:E'. apply Ht in E' as [? ?].
      destruct ok; simplify_eq; set_solver.
    - destruct n; simplify_eq; set_solver. }
  apply elem_of_app in Hin as [Hin|Hin]; [auto|]. destruct (IH _ Hin); set_solver.
Qed.

Lemma bytes_of_bytes l : string_bytes (bytes_string l) = l.
Proof. apply String.list_ascii_of_string_of_list_ascii. Qed.

(** Text PostgreSQL stores: valid UTF-8 without NUL. *)
Definition storable_str (s : string) : Prop :=
  valid_utf8 (string_bytes s) = true /\ nul ∉ string_bytes s.

Lemma clean_str_storable s : storable_str (clean_str s).
Proof.
  unfold clean_str, storable_str. rewrite bytes_of_bytes.
  set (l := filter _ _). assert (nul ∉ l) as Hl by (by subst l; intros [? _]%list_elem_of_filter).
  destruct (valid_utf8 l) eqn:E; [done|]. split; [apply decode_replace_valid|].
  intros Hin. apply chunks_bytes_subset in Hin as [?|Hin]; [done|].
  unfold replacement in Hin. rewrite !elem_of_cons, elem_of_nil in Hin.
  destruct Hin as [?|[?|[?|?]]]; done.
Qed.

Lemma clean_str_id s : storable_str s -> clean_str s = s.
Proof.
  intros [Hv Hn]. unfold clean_str.
  assert (filter (fun c => c <> nul) (string_bytes s) = string_bytes s) as ->.
  { clear Hv. induction (string_bytes s) as [|c l IH]; [done|].
    rewrite filter_cons, decide_True by set_solver. f_equal. apply IH. set_solver. }
  rewrite Hv. apply String.string_of_list_ascii_of_string.
Qed.

(** ** Values after cleaning and after a trip through the spool *)

Fixpoint storable (v : value) : Prop :=
  match v with
  | VStr s => storable_str s
  | VFloat f => isfinite f = true
  | VList l => foldr (fun v P => storable v /\ P) True l
  | VTuple _ => False
  | VDict d => NoDup (map fst d) /\
               foldr (fun kv P => (storable_str kv.1 /\ storable kv.2) /\ P) True d
  | _ => True
  end.

Lemma storable_list l : storable (VList l) <-> Forall storable l.
Proof.
  simpl. induction l as [|v l IH]; simpl; [by split|]. rewrite IH. by rewrite Forall_cons.
Qed.

Lemma storable_dict d :
  storable (VDict d) <-> NoDup (map fst d) /\ Forall (fun kv => storable_str kv.1 /\ storable kv.2) d.
Proof.
  simpl. enough (foldr (fun kv P => (storable_str kv.1 /\ storable kv.2) /\ P) True d <->
    Forall (fun kv => storable_str kv.1 /\ storable kv.2) d) as ->; [done|].
  induction d as [|v l IH]; simpl; [by split|]. rewrite IH. by rewrite Forall_cons.
Qed.

Lemma Forall_dmerge {V} (P : string * V -> Prop) (d1 d2 : list (string * V)) :
  Forall P d1 -> Forall P d2 -> Forall P (dmerge d1 d2).
Proof.
  intros H1 H2. revert d1 H1. induction H2 as [|[k v] d2 Hp _ IH]; intros d1 H1; [done|].
  apply IH. by apply Forall_dset.
Qed.

Lemma dset_fresh {V} k v (d : list (string * V)) : k ∉ dkeys d -> dset k v d = d ++ [(k, v)].
Proof.
  induction d as [|[k' v'] d IH]; intros Hk; simpl; [done|].
  unfold dkeys in *. simpl in Hk. rewrite decide_False by set_solver. f_equal. apply IH. set_solver.
Qed.

(** Merging a dictionary of distinct new keys appends it. *)
Lemma dmerge_fresh {V} (d1 d2 : list (string * V)) :
  NoDup (dkeys d1 ++ dkeys d2) -> dmerge d1 d2 = d1 ++ d2.
Proof.
  revert d1. induction d2 as [|[k v] d2 IH]; intros d1 H; [by rewrite app_nil_r|].
  unfold dmerge in *. simpl in *. rewrite IH.
  - rewrite dset_fresh, <- app_assoc; [done|]. apply NoDup_app in H. set_solver.
  - rewrite dset_fresh by (apply NoDup_app in H; set_solver).
    unfold dkeys in *. rewrite map_app. simpl. by rewrite <- app_assoc.
Qed.

Lemma clean_is_storable v : storable (clean v).
Proof.
  induction v as [| | |f|s|t|l IH|l IH|d IH] using value_ind'; try done.
  - cbn. by destruct (isfinite f) eqn:E.
  - apply clean_str_storable.
  - cbn [clean]. apply storable_list. by apply Forall_map.
  - cbn [clean]. apply storable_list. by apply Forall_map.
  - cbn [clean]. apply storable_dict. split; [apply NoDup_dkeys_dmerge; constructor|].
    apply Forall_dmerge; [constructor|]. apply Forall_map. eapply Forall_impl; [exact IH|].
    intros [k v] Hv. split; [apply clean_str_storable | done].
Qed.

Lemma clean_storable_id v : storable v -> clean v = v.
Proof.
  induction v as [| | |f|s|t|l IH|l IH|d IH] using value_ind'; intros Hs; try done.
  - cbn in *. by rewrite Hs.
  - cbn in *. by rewrite clean_str_id.
  - cbn [clean]. f_equal. apply storable_list in Hs.
    induction Hs as [|v l Hv _ IHl]; [done|]. apply Forall_cons in IH as [IH1 IH2]. simpl.
    rewrite IH1, IHl; done.
  - cbn [clean]. apply storable_dict in Hs as [Hn Hs].
    assert (map (fun kv => (clean_str kv.1, clean kv.2)) d = d) as ->.
    { clear Hn. induction Hs as [|[k v] d [Hk Hv] _ IHd]; [done|].
      apply Forall_cons in IH as [IH1 IH2]. simpl in *. rewrite clean_str_id, IH1, IHd; done. }
    f_equal. apply (dmerge_fresh [] d). done.
Qed.

(** What a value becomes in the spool: tuples are lists, non-finite floats are [None]. *)
Fixpoint normal (v : value) : value :=
  match v with
  | VFloat f => if isfinite f then v else VNone
  | VList l | VTuple l => VList (map normal l)
  | VDict d => VDict (map (fun kv => (kv.1, normal kv.2)) d)
  | _ => v
  end.

(** Datetimes with a text, and no dictionary that looks like an encoded datetime. *)
Fixpoint encodable (v : value) : Prop :=
  match v with
  | VTime t => representable t
  | VList l | VTuple l => foldr (fun v P => encodable v /\ P) True l
  | VDict d => dt_text d = None /\ foldr (fun kv P => encodable kv.2 /\ P) True d
  | _ => True
  end.

Lemma dt_text_encode d : dt_text d = None -> dt_text (map (fun kv => (kv.1, encode kv.2)) d) = None.
Proof.
  destruct d as [|[k v] [|kv' d]]; simpl; try done.
  - destruct v as [| | |f| | | | |]; simpl; try done. by destruct (isfinite f).
  - by destruct (encode v).
Qed.

Lemma decode_encode v : encodable v -> decode (encode v) = Ok (normal v).
Proof.
  assert (forall l, Forall (fun v => encodable v -> decode (encode v) = Ok (normal v)) l ->
    foldr (fun v P => encodable v /\ P) True l ->
    decode_list decode (map encode l) = Ok (map normal l)) as Hl.
  { intros l IH. induction IH as [|w l Hv _ IH]; intros He; [done|]. destruct He as [He1 He2].
    simpl. rewrite Hv by done. simpl. by rewrite IH. }
  induction v as [| | |f|s|t|l IH|l IH|d IH] using value_ind'; intros He; try done.
  - cbn. by destruct (isfinite f).
  - cbn [encode decode normal].
    assert (dt_text [(DT_KEY, VStr (isoformat t))] = Some (isoformat t)) as -> by done.
    by rewrite fromisoformat_isoformat.
  - cbn in *. by rewrite Hl.
  - cbn in *. by rewrite Hl.
  - destruct He as [Hd He]. cbn [encode decode normal]. rewrite dt_text_encode by done.
    enough (decode_dict decode (map (fun kv => (kv.1, encode kv.2)) d)
            = Ok (map (fun kv => (kv.1, normal kv.2)) d)) as -> by done.
    clear Hd. induction IH as [|[k v] d Hv _ IH]; [done|]. destruct He as [He1 He2].
    simpl in *. rewrite Hv by done. simpl. by rewrite IH.
Qed.

Definition normal_record (r : record) : record :=
  Record_ (kind r) (map (fun kv => (kv.1, normal kv.2)) (row r)).

Definition encodable_record (r : record) : Prop := encodable (VDict (row r)).

Lemma decode_encode_record r :
  encodable_record r -> decode_record (encode_record r) = Ok (normal_record r).
Proof.
  intros H. pose proof (decode_encode _ H) as E. unfold decode_record, encode_record.
  cbn [dget]. rewrite decide_True, decide_False, decide_True by done. by rewrite E.
Qed.

(** ** Properties *)

(** A record written to the spool's encoding decodes to the same record, with tuples as
    lists and non-finite floats as null, provided its datetimes have a four-digit year and no
    dictionary in it has the exact shape of an encoded datetime. *)
Theorem codec_roundtrip r :
  encodable_record r -> decode_record (encode_record r) = Ok (normal_record r).
Proof. apply decode_encode_record. Qed.

Lemma codec_roundtrip_witness :
  decode_record (encode_record (Record_ "k"
     [("t", VTime (utc 1700000000000001)); ("l", VTuple [VInt 1; VFloat S754_nan])]))
  = Ok (Record_ "k" [("t", VTime (utc 1700000000000001)); ("l", VList [VInt 1; VNone])]).
Proof.
  apply (codec_roundtrip (Record_ "k"
     [("t", VTime (utc 1700000000000001)); ("l", VTuple [VInt 1; VFloat S754_nan])])).
  split; [done|]. split; [|simpl; tauto]. vm_compute. split; [split|split]; congruence.
Defined.

(** Whatever a value holds, [_clean] makes it storable: no NUL or invalid UTF-8 in any
    string or key, no non-finite float, no tuple, no duplicate key; and cleaning again changes
    nothing. *)
Theorem clean_storable_idempotent v : storable (clean v) /\ clean (clean v) = clean v.
Proof. split; [apply clean_is_storable | apply clean_storable_id, clean_is_storable]. Qed.
