(* ===== verification/Spool.v ===== *)
(** * The on-disk spool of record batches

    [node_monitor/database/spool.py].  The directory is a finite map from file names to
    contents; every system call consults the environment, which may make it fail, and each
    method handles the failure as the code does.  The clock the file names are stamped with
    is read from the environment too.  Not modelled: another process changing the directory
    between two calls, and a failing [is_file] or [is_dir]. *)

From stdpp Require Import pretty.
From S2P Require Import Prelude PyFloat PyTime PyVal Codec.

Open Scope py_scope.

(** ** JSON text

    [json.dumps(v, separators=(",", ":"))] and [json.loads] of one line, the class [JsonText]. *)

Definition newline : ascii := "010"%char.
Definition carriage_return : ascii := "013"%char.

Fixpoint string_forall (f : ascii -> bool) (s : string) : bool :=
  match s with "" => true | String c s => f c && string_forall f s end.

(** [not line.strip()] *)
Definition is_blank (s : string) : bool := string_forall Ascii.is_space s.

Definition no_line_end (s : string) : bool :=
  string_forall (fun c => negb (bool_decide (c = newline)) && negb (bool_decide (c = carriage_return))) s.

Class JsonLaws `{JsonText} := {
  loads_dumps : forall v, json_safe v -> loads (dumps v) = Some v;
  dumps_line : forall v, no_line_end (dumps v) = true;
  dumps_not_blank : forall v, is_blank (dumps v) = false;
}.

(** ** The file system *)

(** What the environment does to one system call: let it through, or fail it with [ENOENT] or
    another error, after writing [f_written] bytes if it was a write. *)
Record fault := Fault { f_enoent : bool; f_written : nat }.

Inductive place := InSpool | InCorrupt.

Record sworld := SW {
  dir : option (gmap string string);
  corrupt : option (gmap string string);
  env : nat -> option fault;
  clock : nat -> Z;
  calls : nat;
  seq : Z;
  quarantined : list (string * string);
  stuck : gset string;
}.

Definition set_dir d w := SW d (corrupt w) (env w) (clock w) (calls w) (seq w) (quarantined w) (stuck w).
Definition set_corrupt c w := SW (dir w) c (env w) (clock w) (calls w) (seq w) (quarantined w) (stuck w).
Definition set_seq s w := SW (dir w) (corrupt w) (env w) (clock w) (calls w) s (quarantined w) (stuck w).
Definition set_quarantined q w := SW (dir w) (corrupt w) (env w) (clock w) (calls w) (seq w) q (stuck w).
Definition set_stuck s w := SW (dir w) (corrupt w) (env w) (clock w) (calls w) (seq w) (quarantined w) s.
Definition tick w := SW (dir w) (corrupt w) (env w) (clock w) (S (calls w)) (seq w) (quarantined w) (stuck w).

Definition place_files (p : place) (w : sworld) : option (gmap string string) :=
  match p with InSpool => dir w | InCorrupt => corrupt w end.
Definition set_place (p : place) (f : option (gmap string string)) (w : sworld) : sworld :=
  match p with InSpool => set_dir f w | InCorrupt => set_corrupt f w end.

Definition fault_exn (f : fault) : exn :=
  if f_enoent f then FileNotFound else OSErr "Input/output error".

(** The next system call: its fault, if any. *)
Definition next_fault : M sworld (option fault) := fun w => (Ok (env w (calls w)), tick w).

Definition syscall : M sworld unit :=
  let* f := next_fault in
  match f with None => ret tt | Some f => raise (fault_exn f) end.

(** The files of a directory that must exist. *)
Definition files_in (p : place) : M sworld (gmap string string) :=
  let* f := gets (place_files p) in
  match f with Some m => ret m | None => raise FileNotFound end.

Definition put_files (p : place) (m : gmap string string) : M sworld unit :=
  modify (set_place p (Some m)).

(** [Path.unlink(missing_ok)] *)
Definition unlink (p : place) (name : string) (missing_ok : bool) : M sworld unit :=
  syscall ;;;
  let* f := gets (place_files p) in
  match f with
  | Some m =>
      match m !! name with
      | Some _ => put_files p (delete name m)
      | None => if missing_ok then ret tt else raise FileNotFound
      end
  | None => if missing_ok then ret tt else raise FileNotFound
  end.

(** The body of a file, read whole. *)
Definition read_file (p : place) (name : string) : M sworld string :=
  syscall ;;;
  let* m := files_in p in
  match m !! name with Some s => ret s | None => raise FileNotFound end.

(** ** Names *)

Definition _SUFFIX : string := ".jsonl".
Definition _LIVE_MARK : string := "-L".

Fixpoint strip_prefix (p s : string) : option string :=
  match p, s with
  | "", _ => Some s
  | String a p, String b s => if decide (a = b) then strip_prefix p s else None
  | _, "" => None
  end.

Definition startswith (p s : string) : bool :=
  match strip_prefix p s with Some _ => true | None => false end.

(** [s.endswith(x)] *)
Fixpoint endswith (x s : string) : bool :=
  bool_decide (s = x) || match s with "" => false | String _ s => endswith x s end.

(** [f"{seq:06d}"] *)
Definition seq_text (z : Z) : string := if z <? 10 ^ 6 then pad 6 z else pretty z.

Definition batch_name (stamp : string) (z : Z) (live : bool) : string :=
  stamp +:+ "-" +:+ seq_text z +:+ (if live then _LIVE_MARK else "") +:+ _SUFFIX.

Definition tmp_name (name : string) : string := "." +:+ name +:+ ".tmp".

(** [_NAME_RE.match(name)], giving the sequence number. *)
Definition name_seq (name : string) : option Z :=
  '(_, s) ← unpad 8 0 name; s ← expect "T"%char s;
  '(_, s) ← unpad 6 0 s; s ← expect "."%char s;
  '(_, s) ← unpad 6 0 s; s ← expect "-"%char s;
  '(z, s) ← unpad 6 0 s;
  if decide (s = _SUFFIX) then Some z
  else if decide (s = _LIVE_MARK +:+ _SUFFIX) then Some z else None.

Definition is_live_only (name : string) : bool := endswith (_LIVE_MARK +:+ _SUFFIX) name.

Definition is_batch_name (name : string) : bool := endswith _SUFFIX name && negb (startswith "." name).

(** ** Records to bytes and back *)

Definition LIVE_KINDS (k : string) : bool :=
  bool_decide (k = LIVE_PROCESSES) || bool_decide (k = LIVE_NODE).

Definition all_live (rs : list record) : bool := forallb (fun r => LIVE_KINDS (kind r)) rs.

(** Lines ended by [sep], without it; the last one may be unterminated. *)
Fixpoint split_on (sep : ascii -> bool) (s : string) : list string :=
  match s with
  | "" => [""]
  | String c s =>
      if sep c then "" :: split_on sep s
      else match split_on sep s with
           | l :: ls => String c l :: ls
           | [] => [String c ""]
           end
  end.

Definition byte_lines : string -> list string := split_on (fun c => bool_decide (c = newline)).
(** Text mode ends a line at either character; the empty line between [\r] and [\n] is blank
    and skipped like any other. *)
Definition text_lines : string -> list string :=
  split_on (fun c => bool_decide (c = newline) || bool_decide (c = carriage_return)).

Definition nonblank (ls : list string) : list string := filter (fun l => is_blank l = false) ls.

Definition describe (e : exn) : string :=
  exn_class e +:+ ": " +:+ String.substring 0 200 (exn_text e).
(** [f"{type(e).__name__}: {e}"] *)
Definition describe_all (e : exn) : string := exn_class e +:+ ": " +:+ exn_text e.

Record spool_result := SpoolResult {
  stored : bool;
  dropped_batches : Z;
  dropped_records : Z;
  error : option string;
}.

Section Spool.
Context `{JsonText} (max_bytes : Z).

Definition payload (rs : list record) : string :=
  foldr (fun r s => dumps (encode_record r) +:+ String newline s) "" rs.

Definition size_of (data : string) : Z := Z.of_nat (String.length data).

(** [_batch_files]: names of the stored batches, oldest first. *)
Definition _batch_files : M sworld (list string) :=
  try_except
    (syscall ;;;
     let* m := files_in InSpool in
     ret (filter (fun n => is_batch_name n = true)
            (merge_sort String.le (map fst (map_to_list m)))))
    (fun e => if is_oserror e then Some (ret []) else None).

(** [_ensure_directory]: the error, if any. *)
Definition _ensure_directory : M sworld (option string) :=
  let* err :=
    try_except
      (syscall ;;;
       let* d := gets dir in
       match d with Some _ => ret tt | None => put_files InSpool ∅ end ;;;
       syscall ;;; ret None)
      (fun e => if is_oserror e then Some (ret (Some (describe_all e))) else None) in
  match err with
  | Some e => ret (Some e)
  | None =>
      let* names := _batch_files in
      foldM (fun _ n => match name_seq n with
                        | Some z => modify (fun w => set_seq (Z.max (seq w) z) w)
                        | None => ret tt
                        end) tt names ;;;
      ret None
  end.

(** [__init__]: the spool of a process that has just started. *)
Definition new_spool : M sworld unit :=
  modify (fun w => set_seq 0 (set_quarantined [] (set_stuck ∅ w))) ;;;
  _ensure_directory ;;; ret tt.

(** [_size] *)
Definition _size (name : string) : M sworld Z :=
  try_except (let* s := read_file InSpool name in ret (size_of s))
    (fun e => if is_oserror e then Some (ret 0) else None).

Fixpoint sizes (names : list string) : M sworld (list Z) :=
  match names with
  | [] => ret []
  | n :: names => let* z := _size n in let* zs := sizes names in ret (z :: zs)
  end.

Definition size_bytes : M sworld Z :=
  let* names := _batch_files in let* zs := sizes names in ret (foldr Z.add 0 zs).

Definition batch_count : M sworld Z :=
  let* names := _batch_files in ret (Z.of_nat (length names)).

Definition count_lines (s : string) : Z := Z.of_nat (length (nonblank (byte_lines s))).

(** [_count_records] *)
Definition _count_records (name : string) : M sworld Z :=
  try_except (let* s := read_file InSpool name in ret (count_lines s))
    (fun e => if is_oserror e then Some (ret 0) else None).

(** [_drop] *)
Definition _drop (name : string) : M sworld (option Z) :=
  let* n := _count_records name in
  try_except (unlink InSpool name false ;;; ret (Some n))
    (fun e => if is_oserror e then Some (ret None) else None).

(** The loop of [_make_room] over (file, size) pairs. *)
Fixpoint make_room_loop (needed : Z) (l : list (string * Z)) (total batches records : Z)
    : M sworld (Z * Z) :=
  match l with
  | [] => ret (batches, records)
  | (p, sz) :: l =>
      if total + needed <=? max_bytes then ret (batches, records)
      else
        let* n := _drop p in
        match n with
        | None => make_room_loop needed l total batches records
        | Some n => make_room_loop needed l (total - sz) (batches + 1) (records + n)
        end
  end.

Definition live_first (l : list (string * Z)) : list (string * Z) :=
  filter (fun p => is_live_only p.1 = true) l ++ filter (fun p => is_live_only p.1 = false) l.

Definition _make_room (needed : Z) : M sworld (Z * Z) :=
  let* files := _batch_files in
  let* zs := sizes files in
  let total := foldr Z.add 0 zs in
  if total + needed <=? max_bytes then ret (0, 0)
  else make_room_loop needed (live_first (zip files zs)) total 0 0.

(** The body of the outer [try] of [_write]: create and fill the temporary file... *)
Definition write_tmp (p : place) (tmp data : string) : M sworld unit :=
  (* os.open(tmp, O_WRONLY | O_CREAT | O_EXCL) *)
  syscall ;;;
  let* m := files_in p in
  match m !! tmp with
  | Some _ => raise (OSErr "File exists")
  | None => put_files p (<[tmp := ""]> m)
  end ;;;
  try_except
    (let* f := next_fault in
     let* m := files_in p in
     match f with
     | None => put_files p (<[tmp := data]> m)
     | Some f => put_files p (<[tmp := String.substring 0 (f_written f) data]> m) ;;; raise (fault_exn f)
     end ;;;
     (* os.fsync *)
     syscall)
    (fun e => Some (unlink p tmp true ;;; raise e)).

(** ... and [os.replace] it to its final name. *)
Definition publish (p : place) (tmp name : string) : M sworld unit :=
  syscall ;;;
  let* m := files_in p in
  match m !! tmp with
  | Some s => put_files p (<[name := s]> (delete tmp m))
  | None => raise FileNotFound
  end.

(** [_write]: a batch, atomically, under the next name in sequence. *)
Definition _write (p : place) (data : string) (live : bool) : M sworld string :=
  modify (fun w => set_seq (seq w + 1) w) ;;;
  let* name := gets (fun w => batch_name (stamp_text (utc (clock w (calls w)))) (seq w) live) in
  let tmp := tmp_name name in
  try_except
    (write_tmp p tmp data ;;; publish p tmp name)
    (fun e =>
       if is_oserror e then
         Some (try_except (unlink p tmp true)
                 (fun e' => if is_oserror e' then Some (ret tt) else None) ;;;
               raise e)
       else None) ;;;
  ret name.

(** The two attempts of the loop in [_append]; the error of the last one. *)
Definition write_attempts (data : string) (live : bool) : M sworld (option string) :=
  let last e := Some (ret (Some (describe_all e))) in
  try_except (_write InSpool data live ;;; ret None)
    (fun e =>
       match e with
       | FileNotFound =>
           Some (let* err := _ensure_directory in
                 match err with
                 | Some _ => ret (Some (describe_all e))
                 | None =>
                     try_except (_write InSpool data live ;;; ret None)
                       (fun e => if is_oserror e then last e else None)
                 end)
       | _ => if is_oserror e then last e else None
       end).

Definition _append (rs : list record) : M sworld spool_result :=
  match rs with
  | [] => ret (SpoolResult true 0 0 None)
  | _ =>
      let data := payload rs in
      if max_bytes <? size_of data then
        ret (SpoolResult false 0 0 (Some ("batch of " +:+ pretty (size_of data)
               +:+ " bytes exceeds spool max_bytes " +:+ pretty max_bytes)))
      else
        let* d := gets dir in
        let* err := match d with Some _ => ret None | None => _ensure_directory end in
        match err with
        | Some e => ret (SpoolResult false 0 0 (Some e))
        | None =>
            let* ' (dropped_b, dropped_r) := _make_room (size_of data) in
            let* failed := write_attempts data (all_live rs) in
            match failed with
            | Some e => ret (SpoolResult false dropped_b dropped_r (Some e))
            | None => ret (SpoolResult true dropped_b dropped_r None)
            end
        end
  end.

(** [append]: never raises. *)
Definition append (rs : list record) : M sworld spool_result :=
  try_except (_append rs)
    (fun e => Some (ret (SpoolResult false 0 0 (Some (describe_all e))))).

(** [_corrupt_directory] *)
Definition _corrupt_directory : M sworld unit :=
  syscall ;;;
  let* d := gets dir in
  match d with
  | None => raise FileNotFound
  | Some _ =>
      let* c := gets corrupt in
      match c with Some _ => ret tt | None => put_files InCorrupt ∅ end
  end ;;;
  syscall.

(** [quarantine]: whether the batch was moved. *)
Definition quarantine (name : string) : M sworld bool :=
  try_except
    (_corrupt_directory ;;;
     syscall ;;;
     let* m := files_in InSpool in
     let* c := files_in InCorrupt in
     match m !! name with
     | Some s => put_files InSpool (delete name m) ;;; put_files InCorrupt (<[name := s]> c) ;;; ret true
     | None => raise FileNotFound
     end)
    (fun _ => Some (ret false)).

Definition quarantine_records (rs : list record) : M sworld (option string) :=
  try_except
    (_corrupt_directory ;;;
     let* name := _write InCorrupt (payload rs) (all_live rs) in ret (Some name))
    (fun _ => Some (ret None)).

Definition take_quarantined : M sworld (list (string * string)) :=
  let* q := gets quarantined in modify (set_quarantined []) ;;; ret q.

(** The lines of a batch as records; [ValueError] for a line that is not JSON. *)
Fixpoint parse_lines (ls : list string) : res (list record) :=
  match ls with
  | [] => Ok []
  | l :: ls =>
      match loads l with
      | None => Raise (ValueError "Expecting value")
      | Some v => r ← decode_record v; rs ← parse_lines ls; Ok (r :: rs)
      end
  end.

(** [read]: the records of a batch, or [None] if it cannot be read.  Never raises. *)
Definition read (name : string) : M sworld (option (list record)) :=
  let* skip := gets stuck in
  if decide (name ∈ skip) then ret None
  else
    try_except
      (let* s := read_file InSpool name in
       match parse_lines (nonblank (text_lines s)) with
       | Ok rs => ret (Some rs)
       | Raise e => raise e
       end)
      (fun e => Some
        (let* moved := quarantine name in
         when (negb moved) (modify (fun w => set_stuck ({[name]} ∪ stuck w) w)) ;;;
         let reason := describe e +:+ (if moved then "" else " (could not be moved to corrupt/)") in
         modify (fun w => set_quarantined (quarantined w ++ [(name, reason)]) w) ;;;
         ret None)).

(** [pending], consumed to its end: the readable batches, oldest first. *)
Definition pending : M sworld (list (string * list record)) :=
  let* names := _batch_files in
  foldM (fun acc n =>
           let* batch := read n in
           ret (match batch with Some rs => acc ++ [(n, rs)] | None => acc end)) [] names.

(** [remove] *)
Definition remove (name : string) : M sworld unit :=
  try_except (unlink InSpool name true)
    (fun e => if is_oserror e then Some (ret tt) else None).

(** [os.path.lexists], as [buffered._exists] uses it: a failing call counts as gone. *)
Definition exists_file (name : string) : M sworld bool :=
  try_except
    (syscall ;;; let* d := gets dir in
     ret (match d with Some m => bool_decide (is_Some (m !! name)) | None => false end))
    (fun _ => Some (ret false)).
End Spool.

(** ** Lemmas: what each operation does to the files *)

(** The same world, some system calls later. *)
Definition later (w w' : sworld) : Prop :=
  exists n, w' = SW (dir w) (corrupt w) (env w) (clock w) n (seq w) (quarantined w) (stuck w).

#[export] Instance later_refl : Reflexive later.
Proof. intros w. exists (calls w). by destruct w. Qed.
#[export] Instance later_trans : Transitive later.
Proof. intros w1 w2 w3 [n ->] [m ->]. by exists m. Qed.

Lemma later_tick w : later w (tick w).
Proof. by eexists. Qed.

(** The stored batches. *)
Definition batches (w : sworld) : gmap string string :=
  filter (fun kv => is_batch_name kv.1 = true) (default ∅ (dir w)).
Definition corrupted (w : sworld) : gmap string string := default ∅ (corrupt w).

Lemma later_batches w w' : later w w' -> batches w' = batches w.
Proof. by intros [n ->]. Qed.

Lemma syscall_cases w :
  syscall w = (Ok tt, tick w) \/ exists f, syscall w = (Raise (fault_exn f), tick w).
Proof.
  unfold syscall, next_fault, bind. destruct (env w (calls w)) as [f|]; [right; by exists f | by left].
Qed.

Lemma fault_exn_oserror f : is_oserror (fault_exn f) = true.
Proof. unfold fault_exn. by destruct (f_enoent f). Qed.

(** Case analysis on the outcome of the next system call of the goal. *)
Ltac sys w :=
  let f := fresh "f" in
  let E := fresh "Esys" in
  destruct (syscall_cases w) as [E|[f E]]; rewrite ?E; clear E;
  cbn -[fault_exn is_oserror _batch_files]; rewrite ?fault_exn_oserror.

Lemma read_file_ok p name w :
  (exists s, read_file p name w = (Ok s, tick w) /\ default ∅ (place_files p w) !! name = Some s)
  \/ exists e, read_file p name w = (Raise e, tick w) /\ is_oserror e = true.
Proof.
  unfold read_file, bind. sys w; [|right; eexists; split; [done | apply fault_exn_oserror]].
  unfold files_in, bind, gets. replace (place_files p (tick w)) with (place_files p w) by (by destruct p).
  destruct (place_files p w) as [m|]; cbn; [|right; by eexists].
  destruct (m !! name) as [s|] eqn:E; cbn; [left; by eexists | right; by eexists].
Qed.

(** The names [_batch_files] gives when the directory can be listed. *)
Definition listing (w : sworld) : list string :=
  filter (fun n => is_batch_name n = true)
    (merge_sort String.le (map fst (map_to_list (default ∅ (dir w))))).

Lemma batch_files_cases w :
  exists w', later w w' /\
    (_batch_files w = (Ok (listing w), w') \/ _batch_files w = (Ok [], w')).
Proof.
  exists (tick w). split; [apply later_tick|].
  unfold _batch_files, try_except, bind. sys w; [|by right].
  unfold files_in, bind, gets, listing. cbn.
  destruct (dir w) as [m|]; cbn; [by left | by right].
Qed.

Lemma elem_of_listing w n : n ∈ listing w <-> is_Some (batches w !! n).
Proof.
  unfold listing, batches. rewrite list_elem_of_filter, merge_sort_Permutation.
  rewrite list_elem_of_fmap. split.
  - intros [Hb ([k v] & -> & Hin)]. exists v. apply map_lookup_filter_Some.
    split; [by apply elem_of_map_to_list | done].
  - intros [v Hv]. apply map_lookup_filter_Some in Hv as [Hv Hb]. split; [done|].
    exists (n, v). split; [done|]. by apply elem_of_map_to_list.
Qed.

Lemma NoDup_listing w : NoDup (listing w).
Proof.
  unfold listing. apply NoDup_filter. rewrite merge_sort_Permutation.
  apply NoDup_fst_map_to_list.
Qed.

Lemma Sorted_listing w : StronglySorted String.le (listing w).
Proof.
  unfold listing. apply StronglySorted_filter.
  apply (StronglySorted_merge_sort String.le).
Qed.

Lemma size_cases name w :
  exists z w', _size name w = (Ok z, w') /\ later w w' /\
    (z = 0 \/ exists s, default ∅ (dir w) !! name = Some s /\ z = size_of s).
Proof.
  unfold _size, try_except, bind.
  destruct (read_file_ok InSpool name w) as [(s & -> & Hs)|(e & -> & He)]; cbn.
  - eexists _, _. split_and!; [done | apply later_tick|]. eauto.
  - rewrite He. eexists _, _. split_and!; [done | apply later_tick|]. eauto.
Qed.

Lemma sizes_cases names w :
  exists zs w', sizes names w = (Ok zs, w') /\ later w w' /\ length zs = length names /\
    Forall (fun z => 0 <= z) zs.
Proof.
  revert w. induction names as [|n names IH]; intros w; simpl.
  { eexists _, _. split_and!; [done | done | done | constructor]. }
  unfold bind. destruct (size_cases n w) as (z & w1 & -> & H1 & Hz).
  destruct (IH w1) as (zs & w2 & -> & H2 & Hl & Hf). eexists _, _. split_and!; [done| | |].
  - by etrans.
  - simpl. by rewrite Hl.
  - constructor; [|done]. unfold size_of in *. destruct Hz as [->|(s & _ & ->)]; lia.
Qed.

(** *** Names *)

Lemma endswith_app s x : endswith x (s +:+ x) = true.
Proof.
  induction s as [|c s IH].
  { rewrite string_app_nil_l. destruct x; cbn -[bool_decide]; by rewrite bool_decide_true. }
  rewrite string_app_cons. cbn [endswith]. by rewrite IH, orb_true_r.
Qed.

Lemma startswith_dot c s : startswith "." (String c s) = bool_decide (c = "."%char).
Proof.
  unfold startswith. cbn [strip_prefix]. destruct (decide ("."%char = c)) as [<-|H]; [done|].
  by rewrite bool_decide_false.
Qed.

Lemma tmp_name_hidden n : is_batch_name (tmp_name n) = false.
Proof. unfold is_batch_name, tmp_name. rewrite string_app_cons, startswith_dot. by rewrite andb_false_r. Qed.

Lemma digit_not_dot z : digit (z mod 10) <> "."%char.
Proof.
  intros H. pose proof (digit_val_digit (z mod 10)) as Hv. rewrite H in Hv.
  discriminate Hv. apply Z.mod_pos_bound. lia.
Qed.

Lemma batch_name_visible us z live : is_batch_name (batch_name (stamp_text (utc us)) z live) = true.
Proof.
  unfold is_batch_name, batch_name. apply andb_true_intro. split.
  - rewrite <- !string_app_assoc. apply endswith_app.
  - unfold stamp_text, date_text. change (pad 4 ?x) with (String (digit ((x / 10 ^ Z.of_nat 3) mod 10)) (pad 3 x)).
    rewrite !string_app_cons, startswith_dot, bool_decide_false; [done | apply digit_not_dot].
Qed.

(** Three adjacent numbers read as one. *)
Lemma unpad_three w1 w2 w3 a b c s :
  exists v, unpad (w1 + (w2 + w3)) 0 (pad w1 a +:+ pad w2 b +:+ pad w3 c +:+ s) = Some (v, s).
Proof.
  eexists. rewrite unpad_add, unpad_pad_acc. cbn -[Nat.add].
  rewrite unpad_add, unpad_pad_acc. cbn. by rewrite unpad_pad_acc.
Qed.

(** A file name carries its sequence number, whatever the clock said. *)
Lemma name_seq_batch_name us z live :
  0 <= z < 10 ^ 6 -> name_seq (batch_name (stamp_text (utc us)) z live) = Some z.
Proof.
  intros Hz. unfold name_seq, batch_name, stamp_text, date_text, time_text, seq_text.
  rewrite (proj2 (Z.ltb_lt _ _)) by lia. rewrite !string_app_assoc, !string_app_nil_l.
  match goal with |- context [unpad 8 0 (pad 4 ?a +:+ pad 2 ?b +:+ pad 2 ?c +:+ ?s)] =>
    destruct (unpad_three 4 2 2 a b c s) as [v Hv]; cbn [Nat.add] in Hv; rewrite Hv end.
  cbn [mbind option_bind]. rewrite string_app_cons, string_app_nil_l, expect_app.
  cbn [mbind option_bind].
  match goal with |- context [unpad 6 0 (pad 2 ?a +:+ pad 2 ?b +:+ pad 2 ?c +:+ ?s)] =>
    destruct (unpad_three 2 2 2 a b c s) as [v' Hv']; cbn [Nat.add] in Hv'; rewrite Hv' end.
  cbn [mbind option_bind]. rewrite string_app_cons, string_app_nil_l, expect_app.
  cbn [mbind option_bind]. rewrite unpad_pad_acc.
  cbn [mbind option_bind]. rewrite string_app_cons, string_app_nil_l, expect_app.
  cbn [mbind option_bind]. rewrite unpad_pad by lia. by destruct live.
Qed.

(** *** Frames *)

Definition other (p : place) : place := match p with InSpool => InCorrupt | InCorrupt => InSpool end.

(** The batches a directory shows. *)
Definition view (p : place) (w : sworld) : gmap string string :=
  filter (fun kv => is_batch_name kv.1 = true) (default ∅ (place_files p w)).

Record frame (p : place) (w w' : sworld) : Prop := Frame {
  fr_other : place_files (other p) w' = place_files (other p) w;
  fr_env : env w' = env w;
  fr_clock : clock w' = clock w;
  fr_quarantined : quarantined w' = quarantined w;
  fr_stuck : stuck w' = stuck w;
}.

Record same_view (p : place) (w w' : sworld) : Prop := SameView {
  sv_frame : frame p w w';
  sv_view : view p w' = view p w;
  sv_exists : is_Some (place_files p w) -> is_Some (place_files p w');
  sv_seq : seq w' = seq w;
}.

#[export] Instance frame_refl p : Reflexive (frame p).
Proof. by intros w. Qed.
#[export] Instance frame_trans p : Transitive (frame p).
Proof. intros w1 w2 w3 [] []. split; congruence. Qed.
#[export] Instance same_view_refl p : Reflexive (same_view p).
Proof. by intros w. Qed.
#[export] Instance same_view_trans p : Transitive (same_view p).
Proof. intros w1 w2 w3 [H1 V1 E1 S1] [H2 V2 E2 S2]. split; [by etrans | congruence | auto | congruence]. Qed.

Lemma later_same_view p w w' : later w w' -> same_view p w w'.
Proof. intros [n ->]. split; solve [by split; destruct p | by destruct p]. Qed.

(** Writing under a hidden name shows nothing. *)
Lemma set_place_same_view p w m :
  filter (fun kv => is_batch_name kv.1 = true) m = view p w -> same_view p w (set_place p (Some m) w).
Proof.
  intros Hm. split; [by split; destruct p | | by destruct p; eexists | by destruct p].
  rewrite <- Hm. by destruct p.
Qed.

Lemma view_files p w m : place_files p w = Some m -> filter (fun kv => is_batch_name kv.1 = true) m = view p w.
Proof. intros H. unfold view. by rewrite H. Qed.

Lemma filter_hidden_insert (m : gmap string string) n s :
  is_batch_name n = false ->
  filter (fun kv => is_batch_name kv.1 = true) (<[n := s]> m)
  = filter (fun kv => is_batch_name kv.1 = true) m.
Proof.
  intros Hn. apply map_filter_strong_ext_1. intros k x.
  rewrite lookup_insert. case_decide; subst; simpl; [|done]. intuition congruence.
Qed.

Lemma filter_hidden_delete (m : gmap string string) n :
  is_batch_name n = false ->
  filter (fun kv => is_batch_name kv.1 = true) (delete n m)
  = filter (fun kv => is_batch_name kv.1 = true) m.
Proof.
  intros Hn. apply map_filter_strong_ext_1. intros k x.
  rewrite lookup_delete. case_decide; subst; simpl; [|done]. intuition congruence.
Qed.

#[export] Hint Resolve later_same_view later_tick tmp_name_hidden : nm.
#[export] Hint Extern 1 (same_view _ _ _) => reflexivity : nm.

(** *** Writing *)

Definition oserr_only {A} (r : res A) : Prop :=
  match r with Ok _ => True | Raise e => is_oserror e = true end.

Lemma place_files_set p m w : place_files p (set_place p m w) = m.
Proof. by destruct p. Qed.
Lemma place_files_tick p w : place_files p (tick w) = place_files p w.
Proof. by destruct p. Qed.

Lemma files_in_cases p w :
  (exists m, files_in p w = (Ok m, w) /\ place_files p w = Some m)
  \/ (files_in p w = (Raise FileNotFound, w) /\ place_files p w = None).
Proof. unfold files_in, bind, gets. destruct (place_files p w); [left; by eexists | by right]. Qed.

(** Storing hidden files in a directory. *)
Lemma put_hidden p w m n s :
  place_files p w = Some m -> is_batch_name n = false ->
  same_view p w (set_place p (Some (<[n := s]> m)) w).
Proof. intros Hm Hn. apply set_place_same_view. rewrite filter_hidden_insert by done. by apply view_files. Qed.

Lemma unlink_hidden p n b w :
  is_batch_name n = false ->
  exists r w', unlink p n b w = (r, w') /\ same_view p w w' /\ oserr_only r.
Proof.
  intros Hn. unfold unlink, bind. sys w.
  2: { eexists _, _. split_and!; [done | auto with nm | apply fault_exn_oserror]. }
  rewrite place_files_tick. destruct (place_files p w) as [m|] eqn:Em; cbn.
  - destruct (m !! n) eqn:E; cbn.
    + eexists _, _. split_and!; [done | | done]. etrans; [apply later_same_view, later_tick|].
      apply set_place_same_view. rewrite filter_hidden_delete by done.
      apply view_files. by rewrite place_files_tick.
    + destruct b; (eexists _, _; split_and!; [done | auto with nm | done]).
  - destruct b; (eexists _, _; split_and!; [done | auto with nm | done]).
Qed.

(** [tmp.unlink(missing_ok=True); raise] *)
Lemma unlink_reraise {A} p n e w :
  is_batch_name n = false -> is_oserror e = true ->
  exists e' w', (unlink p n true ;;; @raise sworld A e) w = (Raise e', w') /\
    same_view p w w' /\ is_oserror e' = true.
Proof.
  intros Hn He. unfold bind. destruct (unlink_hidden p n true w Hn) as ([[]|e'] & w' & -> & Hv & Ho).
  - eexists _, _. by split_and!.
  - eexists _, _. by split_and!.
Qed.

(** Filling the open temporary file. *)
Lemma fill_cases p tmp data w m :
  is_batch_name tmp = false -> place_files p w = Some m ->
  exists r w',
    (let* f := next_fault in
     let* m := files_in p in
     match f with
     | None => put_files p (<[tmp := data]> m)
     | Some f => put_files p (<[tmp := String.substring 0 (f_written f) data]> m) ;;; raise (fault_exn f)
     end ;;;
     syscall) w = (r, w') /\ same_view p w w' /\ oserr_only r /\
    (r = Ok tt -> exists m, place_files p w' = Some m /\ m !! tmp = Some data).
Proof.
  intros Ht Hm. unfold bind, next_fault, files_in, bind, gets.
  cbn -[place_files tick set_place syscall fault_exn]. rewrite place_files_tick, Hm.
  destruct (env w (calls w)) as [f|]; cbn -[set_place syscall tick].
  { eexists _, _. split_and!; [done | | apply fault_exn_oserror | done].
    etrans; [apply later_same_view, later_tick|]. by apply put_hidden. }
  assert (H1 : same_view p w (set_place p (Some (<[tmp := data]> m)) (tick w))).
  { etrans; [apply later_same_view, later_tick|]. by apply put_hidden. }
  destruct (syscall_cases (set_place p (Some (<[tmp:=data]> m)) (tick w))) as [->|[f ->]];
    (eexists _, _; split_and!; [done | etrans; [exact H1 | auto with nm] | | ]); try done.
  - intros _. exists (<[tmp := data]> m). rewrite place_files_tick, place_files_set.
    by rewrite lookup_insert_eq.
  - apply fault_exn_oserror.
Qed.

Lemma write_tmp_cases p tmp data w :
  is_batch_name tmp = false ->
  exists r w', write_tmp p tmp data w = (r, w') /\ same_view p w w' /\ oserr_only r /\
    (r = Ok tt -> exists m, place_files p w' = Some m /\ m !! tmp = Some data).
Proof.
  intros Ht. unfold write_tmp, bind at 1. sys w.
  2: { eexists _, _. split_and!; [done | auto with nm | apply fault_exn_oserror | done]. }
  unfold bind at 1. destruct (files_in_cases p (tick w)) as [(m & -> & Hm)|(-> & Hm)].
  2: { eexists _, _. split_and!; [done | auto with nm | done | done]. }
  unfold bind at 1. destruct (m !! tmp) eqn:Et; cbn -[set_place].
  { eexists _, _. split_and!; [done | auto with nm | done | done]. }
  set (w1 := set_place p (Some (<[tmp := ""]> m)) (tick w)).
  assert (H1 : same_view p w w1).
  { etrans; [apply later_same_view, later_tick|]. by apply put_hidden. }
  unfold try_except.
  destruct (fill_cases p tmp data w1 _ Ht (place_files_set _ _ _)) as (r & w2 & -> & H2 & Ho & Hok).
  destruct r as [[]|e].
  { eexists _, _. split_and!; [done | by etrans | done | done]. }
  destruct (unlink_reraise (A := unit) p tmp e w2 Ht Ho) as (e' & w3 & -> & H3 & He).
  eexists _, _. split_and!; [done | etrans; [exact H1 | by etrans] | done | done].
Qed.

Lemma filter_shown_insert (m : gmap string string) n s :
  is_batch_name n = true ->
  filter (fun kv => is_batch_name kv.1 = true) (<[n := s]> m)
  = <[n := s]> (filter (fun kv => is_batch_name kv.1 = true) m).
Proof. intros Hn. by rewrite map_filter_insert_True. Qed.

(** The cleanup after a failed write: the temporary file goes, the error stays. *)
Lemma cleanup_cases {A} p n e w :
  is_batch_name n = false ->
  exists w', (try_except (unlink p n true) (fun e' => if is_oserror e' then Some (ret tt) else None) ;;;
              @raise sworld A e) w = (Raise e, w') /\ same_view p w w'.
Proof.
  intros Hn. unfold bind, try_except.
  destruct (unlink_hidden p n true w Hn) as ([[]|e'] & w' & -> & Hv & Ho); simpl in Ho;
    rewrite ?Ho; by eexists.
Qed.

Lemma publish_cases p tmp name w m data :
  is_batch_name tmp = false -> is_batch_name name = true ->
  place_files p w = Some m -> m !! tmp = Some data ->
  (exists e w', publish p tmp name w = (Raise e, w') /\ same_view p w w' /\ is_oserror e = true)
  \/ exists w', publish p tmp name w = (Ok tt, w') /\ frame p w w' /\ seq w' = seq w /\
       is_Some (place_files p w') /\ view p w' = <[name := data]> (view p w).
Proof.
  intros Ht Hn Hm Hd. unfold publish, bind. destruct (syscall_cases w) as [->|[f ->]].
  2: { left. eexists _, _. split_and!; [done | auto with nm | apply fault_exn_oserror]. }
  right. destruct (files_in_cases p (tick w)) as [(m' & -> & Hm')|(-> & Hm')];
    rewrite place_files_tick, Hm in Hm'; [|done]. injection Hm' as <-. rewrite Hd.
  eexists. split_and!; [done | by split; destruct p | by destruct p | by rewrite place_files_set|].
  unfold view. rewrite place_files_set, Hm. cbn.
  by rewrite filter_shown_insert, filter_hidden_delete.
Qed.

(** [_write] is atomic: a new batch holds all its data, and a failure adds none. *)
Lemma write_cases p data live w :
  let name := batch_name (stamp_text (utc (clock w (calls w)))) (seq w + 1) live in
  exists r w', _write p data live w = (r, w') /\ frame p w w' /\ seq w' = seq w + 1 /\
    (is_Some (place_files p w) -> is_Some (place_files p w')) /\
    match r with
    | Ok n => n = name /\ view p w' = <[name := data]> (view p w)
    | Raise e => is_oserror e = true /\ view p w' = view p w
    end.
Proof.
  intros name. unfold _write. erewrite run_bind by done. erewrite run_bind by done.
  cbn beta iota zeta. set (w0 := set_seq (seq w + 1) w).
  change (batch_name _ _ _) with name.
  assert (Hw0 : forall w', same_view p w0 w' -> frame p w w' /\ seq w' = seq w + 1 /\
    (is_Some (place_files p w) -> is_Some (place_files p w')) /\ view p w' = view p w).
  { intros w' [[F1 F2 F3 F4 F5] V E Q]. subst w0. destruct p; cbn in *; by repeat split. }
  destruct (write_tmp_cases p (tmp_name name) data w0 (tmp_name_hidden _))
    as ([[]|e] & w1 & Ew & H1 & Ho & Hok).
  { destruct (Hok eq_refl) as (m & Hm & Hdata).
    destruct (publish_cases p (tmp_name name) name w1 m data)
      as [(e & w2 & Ep & H2 & He)|(w2 & Ep & F & Q & E & V)];
      [apply tmp_name_hidden | apply batch_name_visible | done | done | |].
    - destruct (cleanup_cases (A := unit) p (tmp_name name) e w2 (tmp_name_hidden _)) as (w3 & Ec & H3).
      erewrite run_bind by (erewrite run_try by (erewrite run_bind by exact Ew; exact Ep);
                            cbn beta iota; rewrite He; exact Ec).
      eexists _, w3. split; [done|]. destruct (Hw0 w3) as (? & ? & ? & ?); [etrans; [exact H1|]; by etrans|].
      by split_and!.
    - erewrite run_bind by (erewrite run_try by (erewrite run_bind by exact Ew; exact Ep); done).
      destruct (Hw0 w1 H1) as (F1 & Q1 & E1 & V1). eexists _, w2.
      split_and!; [done | by etrans | congruence | auto | split; congruence]. }
  destruct (cleanup_cases (A := unit) p (tmp_name name) e w1 (tmp_name_hidden _)) as (w2 & Ec & H2).
  simpl in Ho. erewrite run_bind by (erewrite run_try by (by erewrite run_bind by exact Ew);
                                     cbn beta iota; rewrite Ho; exact Ec).
  eexists _, w2. split; [done|]. destruct (Hw0 w2) as (? & ? & ? & ?); [by etrans|]. by split_and!.
Qed.

(** *** Directory and eviction *)

Definition without (gone : list string) (m : gmap string string) : gmap string string :=
  foldr delete m gone.

Lemma lookup_without gone m k :
  without gone m !! k = if decide (k ∈ gone) then None else m !! k.
Proof.
  induction gone as [|n gone IH]; cbn; [done|]. rewrite lookup_delete.
  repeat case_decide; set_solver.
Qed.

Lemma view_filter_delete (m : gmap string string) n :
  filter (fun kv => is_batch_name kv.1 = true) (delete n m)
  = delete n (filter (fun kv => is_batch_name kv.1 = true) m).
Proof. apply map_filter_delete. Qed.

(** Every stored batch's sequence number is at most the counter. *)
Definition seq_ok (w : sworld) : Prop :=
  forall n z, is_Some (batches w !! n) -> name_seq n = Some z -> z <= seq w.

Lemma reseed_cases names w :
  exists z, foldM (fun _ n => match name_seq n with
                              | Some z => modify (fun w => set_seq (Z.max (seq w) z) w)
                              | None => ret tt
                              end) tt names w = (Ok tt, set_seq z w) /\
    seq w <= z /\ (forall n k, n ∈ names -> name_seq n = Some k -> k <= z) /\
    (z = seq w \/ exists n, n ∈ names /\ name_seq n = Some z).
Proof.
  revert w. induction names as [|n names IH]; intros w; cbn.
  { exists (seq w). split_and!; [by destruct w | lia | set_solver | by left]. }
  unfold bind. destruct (name_seq n) as [k|] eqn:En; cbn.
  - destruct (IH (set_seq (Z.max (seq w) k) w)) as (z & -> & Hz & Hall & Hex). cbn in *.
    exists z. split_and!; [done | lia | |].
    + intros n' k' [->|Hn]%elem_of_cons Hk; [|by eapply Hall]. simplify_eq. lia.
    + destruct Hex as [->|(n' & ? & ?)]; [|right; set_solver].
      destruct (Z.max_spec (seq w) k) as [[? ->]|[? ->]]; [right; set_solver | by left].
  - destruct (IH w) as (z & -> & Hz & Hall & Hex). exists z. split_and!; [done | lia | |].
    + intros n' k' [->|Hn]%elem_of_cons Hk; [congruence | by eapply Hall].
    + destruct Hex as [->|(n' & ? & ?)]; [by left | right; set_solver].
Qed.

Lemma frame_set_seq p w z : frame p w (set_seq z w).
Proof. by split; destruct p. Qed.

Lemma batches_view w : batches w = view InSpool w.
Proof. done. Qed.

Lemma ensure_cases w :
  exists r w', _ensure_directory w = (Ok r, w') /\ frame InSpool w w' /\ batches w' = batches w /\
    seq w <= seq w' /\ (is_Some (dir w) -> is_Some (dir w')) /\
    (r = None -> is_Some (dir w')) /\ (seq_ok w -> seq w' = seq w).
Proof.
  unfold _ensure_directory.
  set (mk := (syscall ;;; let* d := gets dir in _)).
  assert (Hmk : exists r w1, mk w = (r, w1) /\ same_view InSpool w w1 /\ oserr_only r /\
    (forall o, r = Ok o -> o = None /\ is_Some (dir w1))).
  { subst mk. unfold bind, gets. destruct (syscall_cases w) as [->|[f ->]]; cbn -[syscall].
    2: { eexists _, _. split_and!; [done | auto with nm | apply fault_exn_oserror | done]. }
    destruct (dir w) as [m|] eqn:Em; cbn -[syscall].
    - destruct (syscall_cases (tick w)) as [->|[f ->]]; eexists _, _.
      all: split_and!; [done | etrans; apply later_same_view, later_tick | | ].
      1,3: first [done | apply fault_exn_oserror].
      + intros o [= <-]. cbn. rewrite Em. eauto.
      + done.
    - set (w1 := set_dir _ _). assert (same_view InSpool w w1).
      { split; cbn; [done | unfold view; cbn; by rewrite Em | eauto | done]. }
      destruct (syscall_cases w1) as [->|[f ->]]; eexists _, _.
      all: split_and!; [done | etrans; [done | apply later_same_view, later_tick] | | ].
      1,3: first [done | apply fault_exn_oserror].
      + intros o [= <-]. cbn. eauto.
      + done. }
  destruct Hmk as (r & w1 & E1 & [F1 V1 X1 S1] & Ho & Hd).
  destruct r as [o|e].
  2: { simpl in Ho. erewrite run_bind by (erewrite run_try by exact E1; cbn beta iota; by rewrite Ho).
       eexists _, w1. split_and!; [done | done | done | lia | done | done | done]. }
  destruct (Hd o eq_refl) as [-> Hdir].
  erewrite run_bind by (by erewrite run_try by exact E1). cbn beta iota.
  destruct (batch_files_cases w1) as (w2 & [n Hn] & Hl).
  assert (Hnames : exists names, _batch_files w1 = (Ok names, w2) /\
            forall k, k ∈ names -> is_Some (batches w1 !! k)).
  { destruct Hl as [->| ->]; eexists; (split; [done|]); [|set_solver].
    intros k. by rewrite elem_of_listing. }
  destruct Hnames as (names & E2 & Hin). erewrite run_bind by exact E2. cbn beta iota.
  destruct (reseed_cases names w2) as (z & E3 & Hz & _ & Hex).
  erewrite run_bind by exact E3. cbn beta iota.
  assert (S2 : seq w2 = seq w) by (subst w2; done).
  eexists _, _. split_and!; [done | | | cbn; lia | intros _ | intros _ |].
  - etrans; [exact F1|]. subst w2. by split.
  - by subst w2.
  - by subst w2.
  - by subst w2.
  - intros Hok. cbn. destruct Hex as [->|(k & Hk & Hs)]; [done|].
    assert (z <= seq w); [|lia]. eapply Hok; [|exact Hs].
    rewrite batches_view, <- V1. by apply Hin.
Qed.

(** [_drop] deletes the batch and counts its records, or leaves it. *)
Lemma drop_cases name w :
  exists r w', _drop name w = (Ok r, w') /\ frame InSpool w w' /\ seq w' = seq w /\
    (is_Some (dir w) -> is_Some (dir w')) /\
    match r with
    | None => batches w' = batches w
    | Some k => batches w' = delete name (batches w) /\
        exists s, default ∅ (dir w) !! name = Some s /\ 0 <= k <= count_lines s
    end.
Proof.
  unfold _drop.
  assert (Hc : exists n, _count_records name w = (Ok n, tick w) /\
     (n = 0 \/ exists s, default ∅ (dir w) !! name = Some s /\ n = count_lines s)).
  { unfold _count_records. destruct (read_file_ok InSpool name w) as [(s & E & Hs)|(e & E & He)].
    - erewrite run_try by (by erewrite run_bind by exact E). cbn. eauto 8.
    - erewrite run_try by (by erewrite run_bind by exact E). cbn beta iota. rewrite He. eauto. }
  destruct Hc as (n & E1 & Hn). erewrite run_bind by exact E1. cbn beta iota.
  assert (Hcount : forall s, default ∅ (dir w) !! name = Some s -> 0 <= n <= count_lines s).
  { intros s Hs. assert (0 <= count_lines s) by (unfold count_lines; lia).
    destruct Hn as [->|(s' & Hs' & ->)]; simplify_eq; lia. }
  unfold try_except, unlink, bind. destruct (syscall_cases (tick w)) as [->|[f ->]].
  2: { rewrite fault_exn_oserror. eexists _, _. by split_and!. }
  unfold gets. cbn. destruct (dir w) as [m|] eqn:Em; cbn; [|eexists _, _; by split_and!].
  destruct (m !! name) as [s|] eqn:Es; cbn; [|eexists _, _; by split_and!].
  eexists _, _. split_and!; [done | done | done | eauto | split; [|by eauto]].
  unfold batches. cbn. rewrite Em. apply map_filter_delete.
Qed.

(** The records held by the named batches. *)
Definition lines_in (m : gmap string string) (names : list string) : Z :=
  foldr Z.add 0 (map (fun n => count_lines (default "" (m !! n))) names).

(** [evicted w w' gone b r]: the batches [gone], and nothing else, left the spool, and [b]
    and [r] count them and at most the records they held. *)
Record evicted (w w' : sworld) (gone : list string) (b r : Z) : Prop := Evicted {
  ev_frame : frame InSpool w w';
  ev_seq : seq w' = seq w;
  ev_dir : is_Some (dir w) -> is_Some (dir w');
  ev_batches : batches w' = without gone (batches w);
  ev_known : forall n, n ∈ gone -> is_Some (batches w !! n);
  ev_nodup : NoDup gone;
  ev_count : b = Z.of_nat (length gone);
  ev_records : 0 <= r <= lines_in (batches w) gone;
}.

Lemma lines_in_ext m1 m2 names :
  (forall n, n ∈ names -> m1 !! n = m2 !! n) -> lines_in m1 names = lines_in m2 names.
Proof.
  intros H. unfold lines_in. f_equal. apply map_ext_in. intros n Hn.
  rewrite H; [done | by apply list_elem_of_In].
Qed.

Lemma evicted_nil w w' : later w w' -> evicted w w' [] 0 0.
Proof.
  intros [n ->]. split; try done; solve [constructor | cbn; lia | set_solver].
Qed.

Lemma evicted_later w w1 w2 gone b r : later w w1 -> evicted w1 w2 gone b r -> evicted w w2 gone b r.
Proof. intros [n ->] [[F1 F2 F3 F4 F5] S D B K N C R]. split; try done. Qed.

Lemma evicted_cons name k w w1 w2 gone b r :
  _drop name w = (Ok (Some k), w1) -> is_batch_name name = true ->
  evicted w1 w2 gone b r -> evicted w w2 (name :: gone) (b + 1) (r + k).
Proof.
  intros Ed Hb [F S D B K N C R].
  destruct (drop_cases name w) as (o & w1' & E & F1 & S1 & D1 & H1).
  rewrite Ed in E. injection E as <- <-. destruct H1 as (B1 & s & Hs & Hk).
  assert (Hlook : batches w !! name = Some s) by (by apply map_lookup_filter_Some).
  assert (Hni : name ∉ gone).
  { intros Hin. destruct (K _ Hin) as [x Hx]. rewrite B1, lookup_delete_eq in Hx. done. }
  split.
  - by etrans.
  - congruence.
  - auto.
  - rewrite B, B1. apply map_eq. intros i.
    rewrite !lookup_without, lookup_delete. repeat case_decide; set_solver.
  - intros n [->|Hn]%elem_of_cons; [by rewrite Hlook; eauto|].
    destruct (K _ Hn) as [x Hx]. rewrite B1 in Hx. apply lookup_delete_Some in Hx as [_ Hx]. eauto.
  - by constructor.
  - cbn [length]. lia.
  - unfold lines_in. cbn [map foldr]. rewrite Hlook. cbn [default from_option id].
    assert (lines_in (batches w1) gone = lines_in (batches w) gone) as E.
    { apply lines_in_ext. intros n Hn. rewrite B1, lookup_delete_ne; [done|]. by intros ->. }
    fold (lines_in (batches w) gone). unfold id. lia.
Qed.

Lemma evicted_skip name w w1 w2 gone b r :
  _drop name w = (Ok None, w1) -> evicted w1 w2 gone b r -> evicted w w2 gone b r.
Proof.
  intros Ed [F S D B K N C R].
  destruct (drop_cases name w) as (o & w1' & E & F1 & S1 & D1 & H1).
  rewrite Ed in E. injection E as <- <-. rewrite H1 in *.
  split; try done; [by etrans | congruence | auto].
Qed.

Lemma make_room_loop_cases mb needed l total b r w :
  Forall (fun p => is_batch_name p.1 = true) l ->
  exists gone b' r' w', make_room_loop mb needed l total b r w = (Ok (b + b', r + r'), w') /\
    evicted w w' gone b' r'.
Proof.
  intros Hl. revert total b r w. induction Hl as [|[n sz] l Hn Hl IH]; intros total b r w; cbn.
  { exists [], 0, 0, w. rewrite !Z.add_0_r. split; [done|]. by apply evicted_nil. }
  destruct (total + needed <=? mb).
  { exists [], 0, 0, w. rewrite !Z.add_0_r. split; [done|]. by apply evicted_nil. }
  destruct (drop_cases n w) as (o & w1 & E & _). erewrite run_bind by exact E.
  destruct o as [k|].
  - destruct (IH (total - sz) (b + 1) (r + k) w1) as (gone & b' & r' & w' & -> & Hev).
    exists (n :: gone), (b' + 1), (r' + k), w'. split; [by rewrite <- !Z.add_assoc, (Z.add_comm 1 b'), (Z.add_comm k r')|].
    by eapply evicted_cons.
  - destruct (IH total b r w1) as (gone & b' & r' & w' & -> & Hev).
    exists gone, b', r', w'. split; [done|]. by eapply evicted_skip.
Qed.

Lemma elem_of_live_first l p : p ∈ live_first l <-> p ∈ l.
Proof.
  unfold live_first. rewrite elem_of_app, !list_elem_of_filter.
  destruct (is_live_only p.1) eqn:E; naive_solver.
Qed.

Lemma make_room_cases mb needed w :
  exists gone b r w', _make_room mb needed w = (Ok (b, r), w') /\ evicted w w' gone b r.
Proof.
  unfold _make_room. destruct (batch_files_cases w) as (w1 & L1 & Hl).
  assert (Hnames : exists names, _batch_files w = (Ok names, w1) /\
            Forall (fun n => is_batch_name n = true) names).
  { destruct Hl as [->| ->]; eexists; (split; [done|]); [|constructor].
    apply Forall_forall. intros n. rewrite elem_of_listing. unfold batches.
    intros [x [_ Hx]%map_lookup_filter_Some]. done. }
  destruct Hnames as (names & E1 & Hb). erewrite run_bind by exact E1. cbn beta iota.
  destruct (sizes_cases names w1) as (zs & w2 & E2 & L2 & Hlen & _).
  erewrite run_bind by exact E2. cbn beta iota zeta.
  assert (L : later w w2) by (by etrans).
  case_match.
  { exists [], 0, 0, w2. split; [done|]. by apply evicted_nil. }
  destruct (make_room_loop_cases mb needed (live_first (zip names zs)) (foldr Z.add 0 zs) 0 0 w2)
    as (gone & b & r & w3 & -> & Hev).
  { apply Forall_forall. intros [n z] Hin%elem_of_live_first%elem_of_zip_l. cbn.
    by eapply Forall_forall in Hb. }
  exists gone, b, r, w3. split; [done|]. by eapply evicted_later.
Qed.

(** *** Appending *)

Lemma fresh_name w us z live :
  seq_ok w -> 0 <= seq w < z -> z < 10 ^ 6 ->
  batches w !! batch_name (stamp_text (utc us)) z live = None.
Proof.
  intros Hok Hz Hmax. destruct (batches w !! _) as [s|] eqn:E; [|done].
  assert (z <= seq w); [|lia]. eapply Hok; [by rewrite E; eauto|].
  apply name_seq_batch_name. lia.
Qed.

(** [added w w' name data]: the batch [name] is new, and nothing else changed. *)
Definition named (live : bool) (lo hi : Z) (name : string) : Prop :=
  exists us z, name = batch_name (stamp_text (utc us)) z live /\ lo < z <= hi.

Lemma seq_ok_insert w w' name data live :
  seq_ok w -> 0 <= seq w -> named live (seq w) (seq w') name -> seq w' < 10 ^ 6 ->
  batches w' = <[name := data]> (batches w) -> seq_ok w'.
Proof.
  intros Hok H0 (us & z & -> & Hz) Hmax HB n k Hn Hk. rewrite HB in Hn.
  destruct (decide (n = batch_name (stamp_text (utc us)) z live)) as [->|Hne].
  - rewrite name_seq_batch_name in Hk by lia. simplify_eq. lia.
  - rewrite lookup_insert_ne in Hn by done. specialize (Hok n k Hn Hk). lia.
Qed.

Lemma seq_ok_mono w w' :
  seq_ok w -> seq w <= seq w' -> (forall n, is_Some (batches w' !! n) -> is_Some (batches w !! n)) ->
  seq_ok w'.
Proof. intros Hok Hs HB n k Hn Hk. specialize (Hok n k (HB n Hn) Hk). lia. Qed.

(** What one write, or two, leaves. *)
Record written (live : bool) (data : string) (ok : bool) (w w' : sworld) : Prop := Written {
  wr_frame : frame InSpool w w';
  wr_seq : seq w <= seq w' <= seq w + 2;
  wr_ok : seq_ok w';
  wr_batches :
    if ok then exists name, named live (seq w) (seq w') name /\ batches w !! name = None /\
                 batches w' = <[name := data]> (batches w)
    else batches w' = batches w;
}.

Lemma write_once live data w :
  seq_ok w -> 0 <= seq w -> seq w + 1 < 10 ^ 6 ->
  exists r w', _write InSpool data live w = (r, w') /\ oserr_only r /\ seq w' = seq w + 1 /\
    written live data (match r with Ok _ => true | Raise _ => false end) w w'.
Proof.
  intros Hok H0 Hmax.
  destruct (write_cases InSpool data live w) as (r & w' & -> & F & S & D & H).
  eexists r, w'. split_and!; [done | destruct r; naive_solver | done |].
  destruct r as [n|e]; destruct H as [H V].
  - assert (Hn : named live (seq w) (seq w') n) by (subst n; eexists _, _; split; [done | lia]).
    assert (HB : batches w' = <[n := data]> (batches w)) by (rewrite !batches_view, V; by subst n).
    split; [done | lia | eapply seq_ok_insert; eauto; lia |].
    exists n. split_and!; [done | | done]. subst n. apply fresh_name; auto; lia.
  - split; [done | lia | | done]. eapply seq_ok_mono; [done | lia|].
    intros k. by rewrite !batches_view, V.
Qed.

Lemma written_after_failure live data ok w w1 w2 w3 :
  written live data false w w1 -> seq w1 = seq w + 1 ->
  frame InSpool w1 w2 -> batches w2 = batches w1 -> seq w2 = seq w1 ->
  written live data ok w2 w3 -> seq w3 = seq w2 + 1 -> written live data ok w w3.
Proof.
  intros [F1 S1 O1 B1] E1 F2 B2 E2 [F3 S3 O3 B3] E3. cbn in B1.
  split; [etrans; [exact F1|]; by etrans | lia | done |].
  rewrite B2, B1 in B3. destruct ok; [|done]. destruct B3 as (n & (us & z & -> & Hz) & Hn & HB).
  eexists. split_and!; [|done|done]. eexists _, _. split; [done | lia].
Qed.

Lemma write_attempts_cases live data w :
  seq_ok w -> 0 <= seq w -> seq w + 2 < 10 ^ 6 ->
  exists r w', write_attempts data live w = (Ok r, w') /\
    written live data (match r with None => true | Some _ => false end) w w'.
Proof.
  intros Hok H0 Hmax. unfold write_attempts.
  destruct (write_once live data w) as (r & w1 & E1 & Ho & S1 & W1); [done | lia | lia|].
  destruct r as [n|e].
  { erewrite run_try by (by erewrite run_bind by exact E1). by eexists _, _. }
  erewrite run_try by (by erewrite run_bind by exact E1). cbn beta iota.
  destruct e; try done; try by eexists _, _.
  destruct (ensure_cases w1) as (o & w2 & E2 & F2 & B2 & _ & _ & _ & Sq2).
  assert (S2 : seq w2 = seq w1) by (apply Sq2; apply W1).
  erewrite run_bind by exact E2. destruct o as [err|].
  { eexists _, _. split; [done|]. destruct W1 as [F1 ? O1 B1].
    split; [by etrans | lia | | by rewrite B2, B1].
    eapply seq_ok_mono; [exact O1 | lia|]. by rewrite B2. }
  destruct (write_once live data w2) as (r & w3 & E3 & Ho3 & S3 & W3); [|lia|lia|].
  { eapply seq_ok_mono; [apply W1 | lia|]. by rewrite B2. }
  destruct r as [n|e]; erewrite run_try by (by erewrite run_bind by exact E3); cbn beta iota.
  - eexists _, _. split; [done|]. by eapply written_after_failure.
  - simpl in Ho3. rewrite Ho3. eexists _, _. split; [done|]. by eapply written_after_failure.
Qed.

(** The outcome of [append rs] in any environment. *)
Record appended (rs : list record) (r : spool_result) (data : string) (w w' : sworld)
    (gone : list string) : Prop := Appended {
  ap_frame : frame InSpool w w';
  ap_seq : seq w <= seq w' <= seq w + 2;
  ap_ok : seq_ok w';
  ap_batches :
    if stored r && negb (bool_decide (rs = []))
    then exists name, named (all_live rs) (seq w) (seq w') name /\ batches w !! name = None /\
           batches w' = <[name := data]> (without gone (batches w))
    else batches w' = without gone (batches w);
  ap_known : forall n, n ∈ gone -> is_Some (batches w !! n);
  ap_nodup : NoDup gone;
  ap_dropped : dropped_batches r = Z.of_nat (length gone);
  ap_records : 0 <= dropped_records r <= lines_in (batches w) gone;
  ap_error : stored r = true <-> error r = None;
}.

Lemma appended_nothing rs r data w w' :
  frame InSpool w w' -> seq w' = seq w -> seq_ok w -> batches w' = batches w ->
  r = SpoolResult true 0 0 None /\ rs = [] \/ (exists e, r = SpoolResult false 0 0 (Some e)) ->
  appended rs r data w w' [].
Proof.
  intros F S Hok HB Hr. split; try done; try lia.
  - eapply seq_ok_mono; [done | lia|]. by rewrite HB.
  - by destruct Hr as [[-> ->]|[e ->]].
  - set_solver.
  - constructor.
  - by destruct Hr as [[-> ->]|[e ->]].
  - destruct Hr as [[-> ->]|[e ->]]; cbn; lia.
  - by destruct Hr as [[-> ->]|[e ->]].
Qed.

Lemma append_cases `{JsonText} mb rs w :
  seq_ok w -> 0 <= seq w -> seq w + 2 < 10 ^ 6 ->
  exists r w' gone, append mb rs w = (Ok r, w') /\ appended rs r (payload rs) w w' gone.
Proof.
  intros Hok H0 Hmax. unfold append.
  assert (Hdo : exists r w' gone, _append mb rs w = (Ok r, w') /\ appended rs r (payload rs) w w' gone).
  2: { destruct Hdo as (r & w' & gone & E & Ha). erewrite run_try by exact E. eauto. }
  unfold _append. destruct rs as [|r0 rs0]; [|set (rs := r0 :: rs0)].
  { eexists _, _, []. split; [done|]. apply appended_nothing; [done..|by left]. }
  case_match eqn:Ebig.
  { eexists _, _, []. split; [done|]. apply appended_nothing; [done..|by eauto]. }
  erewrite run_bind by done. cbn beta iota.
  assert (He : exists o w1, (match dir w with Some _ => ret None | None => _ensure_directory end) w = (Ok o, w1)
     /\ frame InSpool w w1 /\ batches w1 = batches w /\ seq w1 = seq w).
  { destruct (dir w) eqn:Ed; [by eexists _, _|].
    destruct (ensure_cases w) as (o & w1 & -> & F & B & _ & _ & _ & S). eexists _, _. by auto. }
  destruct He as (o & w1 & E1 & F1 & B1 & S1). erewrite run_bind by exact E1.
  destruct o as [e|]; [eexists _, w1, []; split; [done|]; apply appended_nothing; [done..|by eauto]|].
  destruct (make_room_cases mb (size_of (payload rs)) w1) as (gone & b & k & w2 & E2 & [F2 S2 _ B2 K2 N2 C2 R2]).
  erewrite run_bind by exact E2. cbn beta iota.
  destruct (write_attempts_cases (all_live rs) (payload rs) w2) as (o & w3 & E3 & [F3 S3 O3 B3]); [|lia|lia|].
  { eapply seq_ok_mono; [exact Hok | lia|]. rewrite B2, B1. intros n.
    rewrite lookup_without. case_decide; [by intros [] | done]. }
  erewrite run_bind by exact E3. cbn beta iota.
  rewrite B1 in *. assert (F : frame InSpool w w3) by (etrans; [exact F1|]; by etrans).
  assert (Hseq : seq w2 = seq w) by congruence. rewrite Hseq, B2 in *.
  destruct o as [e|]; eexists _, w3, gone; (split; [done|]); split; try done.
  cbn. destruct B3 as (n & Hn & Hfresh & HB). exists n. split_and!; [done | | done].
  destruct Hn as (us & z & -> & Hz). apply fresh_name; [done | lia..].
Qed.

(** *** Without faults: the size bound and the order of eviction *)

Definition quiet (w : sworld) : Prop := forall i, env w i = None.

(** No temporary file is left over from a crash. *)
Definition no_tmp (w : sworld) : Prop := forall n, default ∅ (dir w) !! tmp_name n = None.

Definition total_size (m : gmap string string) : Z :=
  foldr Z.add 0 (map (fun kv => size_of kv.2) (map_to_list m)).

(** The order batches are given up in: live-only ones first, oldest first in either group. *)
Definition eviction_order (w : sworld) : list string :=
  filter (fun n => is_live_only n = true) (listing w)
  ++ filter (fun n => is_live_only n = false) (listing w).

Lemma syscall_quiet w : quiet w -> syscall w = (Ok tt, tick w).
Proof. intros H. unfold syscall, next_fault, bind. by rewrite H. Qed.

Lemma quiet_frame p w w' : frame p w w' -> quiet w -> quiet w'.
Proof. intros F H i. rewrite (fr_env _ _ _ F). apply H. Qed.

Lemma quiet_tick w : quiet w -> quiet (tick w).
Proof. done. Qed.

Lemma sum_Permutation (l1 l2 : list Z) : l1 ≡ₚ l2 -> foldr Z.add 0 l1 = foldr Z.add 0 l2.
Proof. induction 1; cbn; lia. Qed.

Lemma size_of_nonneg s : 0 <= size_of s.
Proof. unfold size_of. lia. Qed.

Lemma total_size_insert m n s : m !! n = None -> total_size (<[n := s]> m) = size_of s + total_size m.
Proof.
  intros Hn. unfold total_size.
  rewrite (sum_Permutation _ (map (fun kv => size_of kv.2) ((n, s) :: map_to_list m))); [done|].
  apply fmap_Permutation. by apply map_to_list_insert.
Qed.

Lemma total_size_delete m n s : m !! n = Some s -> total_size (delete n m) = total_size m - size_of s.
Proof.
  intros Hn. rewrite <- (insert_delete_id m n s Hn) at 2.
  rewrite total_size_insert by (apply lookup_delete_eq). lia.
Qed.

Lemma total_size_listing w :
  foldr Z.add 0 (map (fun n => size_of (default "" (batches w !! n))) (listing w)) = total_size (batches w).
Proof.
  assert (HP : listing w ≡ₚ map fst (map_to_list (batches w))).
  { apply NoDup_Permutation; [apply NoDup_listing | apply NoDup_fst_map_to_list|].
    intros n. rewrite elem_of_listing, list_elem_of_fmap. split.
    - intros [s Hs]. exists (n, s). split; [done|]. by apply elem_of_map_to_list.
    - intros ([k s] & -> & Hin%elem_of_map_to_list). eauto. }
  unfold total_size. rewrite (sum_Permutation _ _ (fmap_Permutation _ _ _ HP)).
  rewrite map_map. f_equal. apply map_ext_in. intros [n s] Hin%list_elem_of_In%elem_of_map_to_list.
  cbn. by rewrite Hin.
Qed.

Lemma batch_files_quiet w :
  quiet w -> is_Some (dir w) -> _batch_files w = (Ok (listing w), tick w).
Proof.
  intros Hq [m Hm]. unfold _batch_files, try_except, bind. rewrite syscall_quiet by done.
  unfold files_in, bind, gets, listing. cbn. by rewrite Hm.
Qed.

Lemma read_file_quiet w n s :
  quiet w -> batches w !! n = Some s -> read_file InSpool n w = (Ok s, tick w).
Proof.
  intros Hq Hs. apply map_lookup_filter_Some in Hs as [Hs _].
  unfold read_file, bind. rewrite syscall_quiet by done. unfold files_in, bind, gets. cbn.
  destruct (dir w); cbn in *; [by rewrite Hs | by rewrite lookup_empty in Hs].
Qed.

Lemma sizes_quiet names w :
  quiet w -> (forall n, n ∈ names -> is_Some (batches w !! n)) ->
  exists w', sizes names w = (Ok (map (fun n => size_of (default "" (batches w !! n))) names), w') /\ later w w'.
Proof.
  revert w. induction names as [|n names IH]; intros w Hq Hn; cbn; [by eexists|].
  destruct (Hn n) as [s Hs]; [set_solver|].
  erewrite run_bind.
  2: { unfold _size. erewrite run_try; [|erewrite run_bind; [|apply read_file_quiet; done]; done]. done. }
  cbn beta iota. destruct (IH (tick w)) as (w' & E & L); [done | set_solver|].
  erewrite run_bind by exact E. eexists. split; [cbn; by rewrite Hs|].
  etrans; [apply later_tick | exact L].
Qed.

Lemma drop_quiet w n s :
  quiet w -> batches w !! n = Some s ->
  exists w', _drop n w = (Ok (Some (count_lines s)), w') /\ (no_tmp w -> no_tmp w').
Proof.
  intros Hq Hs. unfold _drop.
  erewrite run_bind.
  2: { unfold _count_records. erewrite run_try; [|erewrite run_bind; [|by apply read_file_quiet]; done]. done. }
  cbn beta iota. apply map_lookup_filter_Some in Hs as [Hs _].
  unfold try_except, unlink, bind. rewrite syscall_quiet by done. unfold gets. cbn.
  destruct (dir w) as [m|] eqn:Em; cbn in *; [|by rewrite lookup_empty in Hs]. rewrite Hs.
  eexists. split; [done|]. intros Ht k. specialize (Ht k). rewrite Em in Ht. cbn in *. rewrite lookup_delete. by case_decide.
Qed.

(** What the eviction loop does when no call fails. *)
Record evicts (mb needed : Z) (order : list string) (w w' : sworld) (gone : list string) : Prop := {
  es_evicted : evicted w w' gone (Z.of_nat (length gone)) (lines_in (batches w) gone);
  es_prefix : gone = take (length gone) order;
  es_enough : total_size (batches w') + needed <= mb \/ gone = order;
  es_minimal : forall k, (k < length gone)%nat ->
    mb < total_size (without (take k gone) (batches w)) + needed;
  es_no_tmp : no_tmp w -> no_tmp w';
}.

Lemma make_room_loop_quiet mb needed l b r w :
  quiet w ->
  (forall n z, (n, z) ∈ l -> exists s, batches w !! n = Some s /\ z = size_of s) ->
  NoDup (map fst l) ->
  exists gone w', make_room_loop mb needed l (total_size (batches w)) b r w
      = (Ok (b + Z.of_nat (length gone), r + lines_in (batches w) gone), w') /\
    evicts mb needed (map fst l) w w' gone.
Proof.
  revert b r w. induction l as [|[n z] l IH]; intros b r w Hq Hl Hnd; cbn.
  { exists [], w. cbn. rewrite !Z.add_0_r. split; [done|]. split; try done; [by apply evicted_nil | by right | cbn; lia]. }
  case_match eqn:Eenough.
  { exists [], w. cbn. rewrite !Z.add_0_r. split; [done|]. apply Z.leb_le in Eenough.
    split; try done; [by apply evicted_nil | by left | cbn; lia]. }
  apply Z.leb_gt in Eenough. cbn in Hnd. apply NoDup_cons in Hnd as [Hni Hnd].
  destruct (Hl n z) as (s & Hs & ->); [set_solver|].
  assert (Hb : is_batch_name n = true) by (by apply map_lookup_filter_Some in Hs as [_ ?]).
  destruct (drop_quiet w n s Hq Hs) as (w1 & E1 & Ht1).
  erewrite run_bind by exact E1. cbn beta iota.
  destruct (drop_cases n w) as (o & w1' & E & F1 & S1 & D1 & H1).
  rewrite E1 in E. injection E as <- <-. destruct H1 as (B1 & _).
  rewrite <- (total_size_delete _ _ _ Hs), <- B1.
  destruct (IH (b + 1) (r + count_lines s) w1) as (gone & w' & -> & [Hev Hp He Hm Ht]).
  { by eapply quiet_frame. }
  { intros n' z' Hin. destruct (Hl n' z') as (s' & Hs' & ->); [set_solver|]. exists s'. split; [|done].
    rewrite B1, lookup_delete_ne; [done|]. intros <-. apply Hni. apply list_elem_of_fmap. by exists (n, size_of s'). }
  { done. }
  assert (Hni' : n ∉ gone) by (rewrite Hp; intros Hin%elem_of_take; naive_solver eauto using list_elem_of_lookup_2).
  assert (Hlines : lines_in (batches w) (n :: gone) = count_lines s + lines_in (batches w1) gone).
  { unfold lines_in at 1. cbn [map foldr]. rewrite Hs. cbn [default from_option id]. unfold id. f_equal.
    apply lines_in_ext. intros k Hk. rewrite B1, lookup_delete_ne; [done|]. by intros ->. }
  exists (n :: gone), w'. split.
  { rewrite Hlines. cbn [length]. rewrite Nat2Z.inj_succ. by rewrite <- !Z.add_assoc, Z.add_1_l. }
  split.
  - rewrite Hlines. cbn [length]. rewrite Nat2Z.inj_succ, Z.add_comm. unfold Z.succ.
    by eapply evicted_cons.
  - cbn [length take]. by rewrite <- Hp.
  - destruct He as [He| ->]; [by left | by right].
  - intros [|k] Hk; [cbn; lia|]. cbn [take]. cbn [length] in Hk.
    specialize (Hm k ltac:(lia)). rewrite B1 in Hm.
    replace (without (n :: take k gone) (batches w)) with (without (take k gone) (delete n (batches w))); [done|].
    apply map_eq. intros i. rewrite !lookup_without, lookup_delete.
    repeat case_decide; set_solver.
  - auto.
Qed.

Lemma live_first_names (f : string -> Z) names :
  map fst (live_first (zip names (map f names)))
  = filter (fun n => is_live_only n = true) names ++ filter (fun n => is_live_only n = false) names.
Proof.
  unfold live_first. rewrite map_app. f_equal.
  all: induction names as [|n names IH]; [done|]; cbn [map zip_with]; rewrite !filter_cons; cbn [fst].
  all: case_decide; cbn [map fst]; by rewrite IH.
Qed.

Lemma elem_of_zip_map (f : string -> Z) names n z :
  (n, z) ∈ zip names (map f names) -> n ∈ names /\ z = f n.
Proof.
  induction names as [|n' names IH]; cbn; [set_solver|].
  intros [[= -> ->]|H]%elem_of_cons; [set_solver|]. destruct (IH H). set_solver.
Qed.

Lemma NoDup_eviction_order w : NoDup (eviction_order w).
Proof.
  unfold eviction_order. apply NoDup_app. split_and!; try apply NoDup_filter, NoDup_listing.
  intros n [H1 _]%list_elem_of_filter [H2 _]%list_elem_of_filter. congruence.
Qed.

Lemma elem_of_eviction_order w n : n ∈ eviction_order w <-> is_Some (batches w !! n).
Proof.
  unfold eviction_order. rewrite elem_of_app, !list_elem_of_filter, elem_of_listing.
  destruct (is_live_only n); naive_solver.
Qed.

Lemma without_all gone m : (forall n, is_Some (m !! n) -> n ∈ gone) -> without gone m = ∅.
Proof.
  intros H. apply map_eq. intros i. rewrite lookup_without, lookup_empty.
  case_decide as Hi; [done|]. destruct (m !! i) eqn:E; [|done]. destruct Hi. apply H. eauto.
Qed.

Lemma make_room_quiet mb needed w :
  quiet w -> is_Some (dir w) -> needed <= mb ->
  exists gone w', _make_room mb needed w = (Ok (Z.of_nat (length gone), lines_in (batches w) gone), w') /\
    evicts mb needed (eviction_order w) w w' gone /\ total_size (batches w') + needed <= mb.
Proof.
  intros Hq Hd Hfit. unfold _make_room. erewrite run_bind by (by apply batch_files_quiet).
  cbn beta iota. destruct (sizes_quiet (listing w) (tick w)) as (w1 & E1 & L1); [done|..].
  { intros n. by rewrite elem_of_listing. }
  change (batches (tick w)) with (batches w) in E1.
  erewrite run_bind by exact E1. cbn beta iota zeta.
  assert (L : later w w1) by (etrans; [apply later_tick | exact L1]).
  rewrite total_size_listing.
  case_match eqn:Een.
  { apply Z.leb_le in Een. exists [], w1. split; [done|]. rewrite (later_batches _ _ L).
    split; [|done]. split; try done; [by apply evicted_nil | left; by rewrite (later_batches _ _ L) | cbn; lia |].
    by destruct L as [i ->]. }
  destruct L as [i HL]. assert (B : batches w1 = batches w) by (by rewrite HL).
  destruct (make_room_loop_quiet mb needed
    (live_first (zip (listing w) (map (fun n => size_of (default "" (batches w !! n))) (listing w)))) 0 0 w1)
    as (gone & w' & E & [Hev Hp He Hm Ht]).
  { by rewrite HL. }
  { intros n z [Hn ->]%elem_of_live_first%elem_of_zip_map. apply elem_of_listing in Hn as [s Hs].
    exists s. rewrite B, Hs. done. }
  { rewrite live_first_names. apply NoDup_eviction_order. }
  rewrite B in E. rewrite live_first_names in *. fold (eviction_order w) in *. exists gone, w'.
  split; [exact E|]. split.
  - split; [|done|done|by rewrite <- B|].
    + rewrite <- B. eapply evicted_later; [by exists i | done].
    + intros Hno. apply Ht. by rewrite HL.
  - destruct He as [He|Hall]; [done|]. rewrite (ev_batches _ _ _ _ _ Hev), without_all; [unfold total_size; rewrite map_to_list_empty; cbn; lia|].
    intros n Hn. rewrite Hall. apply elem_of_eviction_order. by rewrite <- B.
Qed.

Lemma write_quiet data live w :
  quiet w -> is_Some (dir w) -> no_tmp w ->
  exists n w', _write InSpool data live w = (Ok n, w').
Proof.
  intros Hq [m Hm] Ht. unfold _write. erewrite run_bind by done. erewrite run_bind by done.
  cbn beta iota zeta. set (name := batch_name _ _ _). set (w0 := set_seq _ _).
  assert (Htmp : m !! tmp_name name = None) by (specialize (Ht name); by rewrite Hm in Ht).
  exists name. eexists.
  unfold write_tmp, publish, try_except, bind, next_fault.
  rewrite syscall_quiet by done. unfold files_in, bind, gets. cbn -[tmp_name name syscall]. rewrite Hm.
  cbn -[tmp_name name syscall]. rewrite Htmp. cbn -[tmp_name name syscall]. rewrite Hq.
  cbn -[tmp_name name syscall]. rewrite syscall_quiet by done. cbn -[tmp_name name syscall].
  rewrite syscall_quiet by done. cbn -[tmp_name name syscall]. rewrite lookup_insert_eq. done.
Qed.

(** The whole of [append] when nothing fails. *)
Lemma append_quiet_cases `{JsonText} mb rs w :
  quiet w -> is_Some (dir w) -> no_tmp w -> seq_ok w -> 0 <= seq w -> seq w + 2 < 10 ^ 6 ->
  rs <> [] -> size_of (payload rs) <= mb ->
  exists w' gone name,
    append mb rs w = (Ok (SpoolResult true (Z.of_nat (length gone)) (lines_in (batches w) gone) None), w') /\
    named (all_live rs) (seq w) (seq w') name /\ batches w !! name = None /\
    batches w' = <[name := payload rs]> (without gone (batches w)) /\
    total_size (batches w') <= mb /\
    gone = take (length gone) (eviction_order w) /\
    (forall k, (k < length gone)%nat ->
       mb < total_size (without (take k gone) (batches w)) + size_of (payload rs)).
Proof.
  intros Hq Hd Ht Hok H0 Hmax Hne Hfit. unfold append, _append.
  destruct rs as [|r0 rs0]; [done|]. set (rs := r0 :: rs0) in *.
  rewrite (proj2 (Z.ltb_ge _ _)) by done.
  destruct (make_room_quiet mb (size_of (payload rs)) w Hq Hd Hfit)
    as (gone & w1 & E1 & [[F1 S1 D1 B1 K1 N1 _ _] Hp He Hm Htmp] & Htot).
  destruct (write_quiet (payload rs) (all_live rs) w1) as (n & w2 & E2);
    [by eapply quiet_frame | by apply D1 | by apply Htmp |].
  assert (Hok1 : seq_ok w1).
  { eapply seq_ok_mono; [done | lia|]. intros k. rewrite B1, lookup_without.
    case_decide; [by intros [] | done]. }
  destruct (write_once (all_live rs) (payload rs) w1) as (r & w2' & E2' & _ & _ & [_ _ _ W]); [done|lia|lia|].
  rewrite E2 in E2'. injection E2' as <- <-. cbn beta iota in W. destruct W as (name & Hname & Hfresh & HB).
  rewrite S1 in Hname.
  exists w2, gone, name. split_and!; try done.
  - destruct Hd as [m Hd]. apply run_try_ok.
    eapply run_bind_ok; [done|]. cbn beta iota. rewrite Hd. eapply run_bind_ok; [done|]. cbn beta iota.
    eapply run_bind_ok; [exact E1|]. cbn beta iota.
    eapply run_bind_ok; [by apply run_try_ok; eapply run_bind_ok; [exact E2|] | done].
  - destruct Hname as (us & z & -> & Hz). apply fresh_name; [done|lia|].
    pose proof (write_cases InSpool (payload rs) (all_live rs) w1) as (r & w2' & E & _ & S & _).
    rewrite E2 in E. injection E as <- <-. lia.
  - by rewrite HB, B1.
  - rewrite HB, total_size_insert by done. lia.
Qed.

(** *** Reading and quarantine *)

Record kept (w w' : sworld) : Prop := Kept {
  kp_batches : batches w' = batches w;
  kp_corrupted : corrupted w' = corrupted w;
  kp_seq : seq w' = seq w;
  kp_env : env w' = env w;
  kp_clock : clock w' = clock w;
  kp_quarantined : quarantined w' = quarantined w;
  kp_stuck : stuck w' = stuck w;
}.

#[export] Instance kept_refl : Reflexive kept.
Proof. by intros w. Qed.
#[export] Instance kept_trans : Transitive kept.
Proof. intros w1 w2 w3 [] []. split; congruence. Qed.

Lemma kept_later w w' : later w w' -> kept w w'.
Proof. by intros [n ->]. Qed.
#[export] Hint Resolve kept_later : nm.

(** A batch moved to [corrupt/], contents and all. *)
Record moved (name : string) (w w' : sworld) : Prop := Moved {
  mv_file : exists s, default ∅ (dir w) !! name = Some s /\ corrupted w' = <[name := s]> (corrupted w);
  mv_batches : batches w' = delete name (batches w);
  mv_seq : seq w' = seq w;
  mv_env : env w' = env w;
  mv_clock : clock w' = clock w;
  mv_quarantined : quarantined w' = quarantined w;
  mv_stuck : stuck w' = stuck w;
}.

Lemma corrupt_directory_cases w :
  exists r w', _corrupt_directory w = (r, w') /\ kept w w' /\ dir w' = dir w /\ oserr_only r /\
    (r = Ok tt -> is_Some (dir w') /\ is_Some (corrupt w')).
Proof.
  unfold _corrupt_directory, bind, gets. destruct (syscall_cases w) as [->|[f ->]]; cbn -[syscall].
  2: { eexists _, _. split_and!; [done | auto with nm | done | apply fault_exn_oserror | done]. }
  destruct (dir w) as [m|] eqn:Ed; cbn -[syscall].
  2: { eexists _, _. split_and!; [done | auto with nm | done | done | done]. }
  destruct (corrupt w) as [c|] eqn:Ec; cbn -[syscall].
  - destruct (syscall_cases (tick w)) as [->|[f ->]]; 
      (eexists _, _; split_and!; [done | by split | done | first [done | apply fault_exn_oserror]
        | cbn; rewrite Ed, Ec; by eauto]).
  - set (w1 := set_corrupt _ _).
    assert (kept w w1) by (subst w1; split; try done; unfold corrupted; cbn; by rewrite Ec).
    destruct (syscall_cases w1) as [->|[f ->]]; 
      (eexists _, _; split_and!; [done | etrans; [done | by split] | done
        | first [done | apply fault_exn_oserror] | cbn; rewrite Ed; by eauto]).
Qed.

Lemma quarantine_cases name w :
  exists b w', quarantine name w = (Ok b, w') /\ (if b then moved name w w' else kept w w').
Proof.
  unfold quarantine. destruct (corrupt_directory_cases w) as ([[]|e] & w1 & E1 & K1 & D1 & _ & Hok).
  2: { erewrite run_try by (by erewrite run_bind by exact E1). by eexists _, _. }
  destruct (Hok eq_refl) as [[m Hm] [c Hc]].
  unfold try_except. erewrite run_bind by exact E1. cbn beta iota.
  unfold bind. destruct (syscall_cases w1) as [->|[f ->]].
  2: { eexists _, _. split; [done|]. cbn. etrans; [done | auto with nm]. }
  unfold files_in, bind, gets. cbn. rewrite Hm. cbn. rewrite Hc. cbn.
  destruct (m !! name) as [s|] eqn:Es; cbn.
  2: { eexists _, _. split; [done|]. cbn. etrans; [done | by split]. }
  eexists _, _. split; [done|]. destruct K1 as [KB KC ? ? ? ? ?].
  split; try done.
  - exists s. rewrite <- D1, Hm. split; [done|]. rewrite <- KC. unfold corrupted. cbn. by rewrite Hc.
  - rewrite <- KB. unfold batches. cbn. rewrite Hm. cbn. apply map_filter_delete.
Qed.

(** [read] in any environment: the records of the batch; or the batch is left where it is, or
    moved aside with its contents, and the failure is reported. *)
Record unreadable (name : string) (w w' : sworld) : Prop := Unreadable {
  ur_reported : exists reason, quarantined w' = quarantined w ++ [(name, reason)];
  ur_stays : (batches w' = batches w /\ corrupted w' = corrupted w /\ stuck w' = {[name]} ∪ stuck w)
             \/ exists s, default ∅ (dir w) !! name = Some s /\
                  batches w' = delete name (batches w) /\
                  corrupted w' = <[name := s]> (corrupted w) /\ stuck w' = stuck w;
  ur_seq : seq w' = seq w;
  ur_env : env w' = env w;
  ur_clock : clock w' = clock w;
}.

Lemma read_cases `{JsonText} name w :
  exists r w', read name w = (Ok r, w') /\
    match r with
    | Some rs => kept w w' /\ (name ∉ stuck w) /\ exists s, default ∅ (dir w) !! name = Some s /\
                   parse_lines (nonblank (text_lines s)) = Ok rs
    | None => (name ∈ stuck w /\ w' = w) \/ unreadable name w w'
    end.
Proof.
  unfold read. erewrite run_bind by done. cbn beta iota.
  case_decide as Hst; [eexists _, _; split; [done|]; by left|].
  set (body := bind (read_file InSpool name) _).
  assert (Hbody : exists r w1, body w = (r, w1) /\ later w w1 /\
    forall rs, r = Ok rs -> exists l s, rs = Some l /\ default ∅ (dir w) !! name = Some s /\
                   parse_lines (nonblank (text_lines s)) = Ok l).
  { subst body. destruct (read_file_ok InSpool name w) as [(s & E & Hs)|(e & E & He)];
      erewrite run_bind by exact E; cbn beta iota.
    - destruct (parse_lines _) as [l|e] eqn:El.
      + eexists _, _. split_and!; [done | apply later_tick|]. intros rs [= <-]. eauto.
      + eexists _, _. split_and!; [done | apply later_tick | done].
    - eexists _, _. split_and!; [done | apply later_tick | done]. }
  destruct Hbody as ([rs|e] & w1 & E & L & Hrs); erewrite run_try by exact E; cbn beta iota.
  { destruct (Hrs rs eq_refl) as (l & s & -> & Hs & Hl). eexists _, _. split; [done|].
    cbn. split; [auto with nm|]. eauto. }
  destruct (quarantine_cases name w1) as (b & w2 & E2 & Hq). erewrite run_bind by exact E2.
  cbn beta iota. 
  destruct b; eexists None, _; (split; [reflexivity|]); right.
  - destruct Hq as [(s & Hs & Hc) HB Sq En Cl Qu St]. destruct L as [n HL]. rewrite HL in *.
    split; cbn; [rewrite Qu; eauto | right; eauto | done..].
  - destruct Hq as [HB Hc Sq En Cl Qu St]. destruct L as [n HL]. rewrite HL in *.
    split; cbn; [rewrite Qu; eauto | left; cbn; by rewrite St | done..].
Qed.

(** *** The round trip through a file *)

Lemma split_on_line sep l s c :
  string_forall (fun a => negb (sep a)) l = true -> sep c = true ->
  split_on sep (l +:+ String c s) = l :: split_on sep s.
Proof.
  intros Hl Hc. induction l as [|a l IH].
  - rewrite string_app_nil_l. cbn. by rewrite Hc.
  - rewrite string_app_cons. cbn in *. apply andb_prop in Hl as [Ha Hl].
    rewrite IH by done. by destruct (sep a).
Qed.

Lemma string_forall_ext f g s :
  (forall c, f c = g c) -> string_forall f s = string_forall g s.
Proof. intros H. induction s as [|c s IH]; cbn; [done|]. by rewrite H, IH. Qed.

Section RoundTrip.
Context `{JsonLaws}.

Lemma text_lines_payload rs :
  nonblank (text_lines (payload rs)) = map (fun r => dumps (encode_record r)) rs.
Proof.
  induction rs as [|r rs IH]; [done|]. cbn [payload foldr map]. fold (payload rs).
  unfold text_lines. rewrite split_on_line; [| |done].
  - unfold nonblank. rewrite filter_cons, decide_True by apply dumps_not_blank. by f_equal.
  - rewrite <- (dumps_line (encode_record r)). apply string_forall_ext. intros c.
    by rewrite negb_orb.
Qed.

Definition spoolable (r : record) : Prop := encodable_record r /\ json_safe (encode_record r).

Lemma parse_payload rs :
  Forall spoolable rs ->
  parse_lines (map (fun r => dumps (encode_record r)) rs) = Ok (map normal_record rs).
Proof.
  induction 1 as [|r rs [He Hj] _ IH]; [done|]. cbn [map parse_lines].
  rewrite loads_dumps by done. rewrite decode_encode_record by done. cbn.
  rewrite IH. done.
Qed.

Lemma read_payload rs name w :
  quiet w -> name ∉ stuck w -> batches w !! name = Some (payload rs) -> Forall spoolable rs ->
  read name w = (Ok (Some (map normal_record rs)), tick w).
Proof.
  intros Hq Hst Hn Hrs. unfold read. eapply run_bind_ok; [done|]. rewrite decide_False by done.
  apply run_try_ok. eapply run_bind_ok; [by apply read_file_quiet|].
  by rewrite text_lines_payload, parse_payload.
Qed.
End RoundTrip.

Lemma remove_cases name w :
  exists w', remove name w = (Ok tt, w') /\ corrupted w' = corrupted w /\ seq w' = seq w /\
    env w' = env w /\ stuck w' = stuck w /\
    (batches w' = batches w \/ batches w' = delete name (batches w)).
Proof.
  unfold remove, try_except, unlink, bind. destruct (syscall_cases w) as [->|[f ->]].
  2: { rewrite fault_exn_oserror. eexists. split_and!; [done..|by left]. }
  unfold gets. cbn. destruct (dir w) as [m|] eqn:Em; cbn; [|eexists; split_and!; try done; by left].
  destruct (m !! name) eqn:E; cbn; [|eexists; split_and!; try done; by left].
  eexists. split_and!; [done..|]. right. unfold batches. cbn. rewrite Em. apply map_filter_delete.
Qed.

(** A restarted spool continues past every name it can see. *)
Lemma new_spool_seq_ok w : quiet w -> exists w', new_spool w = (Ok tt, w') /\ seq_ok w' /\ batches w' = batches w.
Proof.
  intros Hq. unfold new_spool. erewrite run_bind by done. cbn beta iota.
  set (w0 := set_seq 0 _).
  assert (Hd : exists w1, (syscall ;;; let* d := gets dir in
      match d with Some _ => ret tt | None => put_files InSpool ∅ end ;;; syscall ;;; ret (@None string)) w0
      = (Ok None, w1) /\ is_Some (dir w1) /\ batches w1 = batches w /\ quiet w1).
  { unfold bind, gets. rewrite syscall_quiet by done. cbn -[syscall]. destruct (dir w) as [m|] eqn:Ed; cbn -[syscall];
      rewrite syscall_quiet by done; (eexists; split_and!; [done | cbn; rewrite ?Ed; eauto | | done]); [done|].
    unfold batches. cbn. by rewrite Ed. }
  destruct Hd as (w1 & E1 & D1 & B1 & Q1).
  destruct (reseed_cases (listing w1) (tick w1)) as (z & E2 & _ & Hall & _).
  exists (set_seq z (tick w1)). split_and!.
  - eapply run_bind_ok; [|done]. unfold _ensure_directory.
    eapply run_bind_ok; [by apply run_try_ok|]. cbn beta iota.
    eapply run_bind_ok; [by apply batch_files_quiet|]. by eapply run_bind_ok.
  - intros n k Hn Hk. cbn. eapply Hall; [|exact Hk]. by apply elem_of_listing.
  - done.
Qed.

Lemma quarantine_records_cases `{JsonText} rs w :
  exists r w', quarantine_records rs w = (Ok r, w') /\ batches w' = batches w /\ env w' = env w /\
    seq w <= seq w' <= seq w + 1 /\
    match r with
    | Some name => named (all_live rs) (seq w) (seq w') name /\ seq w' = seq w + 1 /\
                   view InCorrupt w' = <[name := payload rs]> (view InCorrupt w)
    | None => view InCorrupt w' = view InCorrupt w
    end.
Proof.
  unfold quarantine_records.
  destruct (corrupt_directory_cases w) as ([[]|e] & w1 & E1 & [B1 C1 S1 EN1 CL1 _ _] & D1 & _ & _).
  2: { erewrite run_try by (by erewrite run_bind by exact E1). eexists _, _.
       split_and!; [done | done | done | lia | lia |].
       unfold view. cbn. unfold corrupted in C1. by rewrite C1. }
  assert (V1 : view InCorrupt w1 = view InCorrupt w).
  { unfold view. cbn. unfold corrupted in C1. by rewrite C1. }
  destruct (write_cases InCorrupt (payload rs) (all_live rs) w1) as (r & w2 & E2 & [F1 F2 F3 F4 F5] & S2 & _ & H2).
  assert (B2 : batches w2 = batches w) by (rewrite <- B1; unfold batches; cbn in F1; by rewrite F1).
  destruct r as [name|e].
  - erewrite run_try by (erewrite run_bind by exact E1; cbn beta iota; by erewrite run_bind by exact E2).
    destruct H2 as [-> V2]. eexists _, _. split_and!; [done | done | congruence | lia | lia |]. cbn beta iota.
    split_and!; [|congruence|congruence]. eexists _, _. split; [done|]. lia.
  - erewrite run_try by (erewrite run_bind by exact E1; cbn beta iota; by erewrite run_bind by exact E2).
    destruct H2 as [_ V2]. eexists _, _. split_and!; [done | done | congruence | lia | lia | congruence].
Qed.

(** *** The live marker *)

Lemma endswith_split x s : endswith x s = true -> exists p, s = p +:+ x.
Proof.
  induction s as [|c s IH]; cbn; intros H.
  - rewrite orb_false_r in H. apply bool_decide_eq_true in H as <-. by exists "".
  - apply orb_prop in H as [H|H].
    + apply bool_decide_eq_true in H as <-. by exists "".
    + destruct (IH H) as [p ->]. by exists (String c p).
Qed.

Lemma list_ascii_app s1 s2 : string_bytes (s1 +:+ s2) = string_bytes s1 ++ string_bytes s2.
Proof. induction s1 as [|c s1 IH]; [done|]. rewrite string_app_cons. cbn. by f_equal. Qed.

Lemma pad_last w z : exists s, pad (S w) z = s +:+ String (digit (z mod 10)) "".
Proof.
  induction w as [|w [s IH]].
  - exists "". change (pad 1 z) with (String (digit ((z / 10 ^ Z.of_nat 0) mod 10)) "").
    by rewrite Z.div_1_r.
  - change (pad (S (S w)) z) with (String (digit ((z / 10 ^ Z.of_nat (S w)) mod 10)) (pad (S w) z)).
    rewrite IH. eexists (String _ s). by rewrite string_app_cons.
Qed.

Lemma digit_not_L z : digit (z mod 10) <> "L"%char.
Proof.
  intros H. pose proof (digit_val_digit (z mod 10)) as Hv. rewrite H in Hv.
  discriminate Hv. apply Z.mod_pos_bound. lia.
Qed.

Lemma is_live_only_batch_name us z live :
  0 <= z < 10 ^ 6 -> is_live_only (batch_name (stamp_text (utc us)) z live) = live.
Proof.
  intros Hz. unfold is_live_only, batch_name. destruct live.
  { rewrite <- !string_app_assoc. rewrite string_app_assoc. apply endswith_app. }
  rewrite string_app_nil_l. apply not_true_is_false. intros [p Hp]%endswith_split.
  unfold seq_text in Hp. rewrite (proj2 (Z.ltb_lt _ _)) in Hp by lia.
  destruct (pad_last 5 z) as [s Hs]. rewrite Hs in Hp. apply (f_equal string_bytes) in Hp.
  rewrite !list_ascii_app in Hp. rewrite !app_assoc in Hp. apply app_inj_2 in Hp as [Hp _]; [|done].
  change (string_bytes _LIVE_MARK) with (["-"%char] ++ ["L"%char]) in Hp.
  rewrite app_assoc in Hp. apply app_inj_2 in Hp as [_ Hp]; [|done].
  injection Hp as Hp. by apply digit_not_L in Hp.
Qed.

(** ** Properties *)


(** C38. When no system call fails, a batch that fits is stored, the spool stays within
    [max_bytes], and the batches given up are the fewest that make room, taken live-only ones
    first and oldest first. *)
Theorem append_bounded `{JsonText} mb rs w :
  quiet w -> is_Some (dir w) -> no_tmp w -> seq_ok w -> 0 <= seq w -> seq w + 2 < 10 ^ 6 ->
  rs <> [] -> size_of (payload rs) <= mb ->
  exists w' gone name,
    append mb rs w = (Ok (SpoolResult true (Z.of_nat (length gone)) (lines_in (batches w) gone) None), w') /\
    named (all_live rs) (seq w) (seq w') name /\ batches w !! name = None /\
    batches w' = <[name := payload rs]> (without gone (batches w)) /\
    total_size (batches w') <= mb /\
    gone = take (length gone) (eviction_order w) /\
    (forall k, (k < length gone)%nat ->
       mb < total_size (without (take k gone) (batches w)) + size_of (payload rs)).
Proof. apply append_quiet_cases. Qed.

(** C37. A batch that was appended reads back as the records that were given, in order, up to
    the encoding of tuples and non-finite floats, and its name says whether it is live-only. *)
Theorem append_read_roundtrip `{JsonLaws} mb rs w :
  quiet w -> is_Some (dir w) -> no_tmp w -> seq_ok w -> 0 <= seq w -> seq w + 2 < 10 ^ 6 ->
  rs <> [] -> size_of (payload rs) <= mb -> Forall spoolable rs ->
  (forall n, n ∈ stuck w -> is_Some (batches w !! n)) ->
  exists w' r name,
    append mb rs w = (Ok r, w') /\ stored r = true /\ batches w !! name = None /\
    is_live_only name = all_live rs /\
    read name w' = (Ok (Some (map normal_record rs)), tick w').
Proof.
  intros Hq Hd Ht Hok Hs0 Hmax Hne Hfit Hrs Hst.
  destruct (append_quiet_cases mb rs w) as (w' & gone & name & E & Hn & Hf & HB & _); [done..|].
  destruct (append_cases mb rs w Hok Hs0 Hmax) as (r & w2 & g2 & E2 & [[_ Fe _ _ Fs] Sq _ _ _ _ _ _ _]).
  rewrite E in E2. injection E2 as <- <-.
  eexists w', _, name. split_and!; [exact E | done | done | |].
  - destruct Hn as (us & z & -> & Hz). apply is_live_only_batch_name. lia.
  - apply read_payload; [| |by rewrite HB, lookup_insert_eq|done].
    + intros i. by rewrite Fe.
    + rewrite Fs. intros Hin%Hst. rewrite Hf in Hin. by destruct Hin.
Qed.

(** Whatever system calls fail, [read] returns, and a batch it cannot read is not lost: it
    stays in the spool and is skipped from then on, or is moved to [corrupt/] with its
    contents; either way it is reported once. *)
Theorem read_conserves `{JsonText} name w :
  exists r w', read name w = (Ok r, w') /\
    match r with
    | Some rs => kept w w' /\ (name ∉ stuck w) /\ exists s, default ∅ (dir w) !! name = Some s /\
                   parse_lines (nonblank (text_lines s)) = Ok rs
    | None => (name ∈ stuck w /\ w' = w) \/ unreadable name w w'
    end.
Proof. apply read_cases. Qed.

(** A spool opened by a restarted process sees the batches left by the previous one, and
    its counter is past every sequence number in their names. *)
Theorem restart_resumes w :
  quiet w -> exists w', new_spool w = (Ok tt, w') /\ seq_ok w' /\ batches w' = batches w.
Proof. apply new_spool_seq_ok. Qed.

(** *** Witnesses *)

Definition demo_record : record := Record_ LIVE_NODE [("node", VStr "n1")].
(** The text with [~] for the quotation mark. *)
Fixpoint quoted (s : string) : string :=
  match s with
  | "" => ""
  | String c s => String (if decide (c = "~"%char) then "034"%char else c) (quoted s)
  end.
Definition demo_line : string := quoted "{~kind~:~live_node~,~row~:{~node~:~n1~}}".

(** JSON text of the one value the witnesses store. *)
#[local] Instance demo_json : JsonText :=
  {| dumps _ := demo_line;
     loads s := if decide (s = demo_line) then Some (encode_record demo_record) else None;
     json_safe v := v = encode_record demo_record |}.

#[local] Instance demo_laws : JsonLaws.
Proof. split; [by intros v -> | done | done]. Qed.

Definition demo_world (files : gmap string string) : sworld :=
  SW (Some files) None (fun _ => None) (fun _ => 1700000000000000) 0 0 [] ∅.

Definition old_batch : string := batch_name (stamp_text (utc 1600000000000000)) 0 true.
Definition demo_files : gmap string string := {[ old_batch := demo_line ]}.

Lemma demo_seq_ok : seq_ok (demo_world demo_files).
Proof.
  intros n z [s Hs] Hz. apply map_lookup_filter_Some in Hs as [Hs _]. cbn in Hs.
  unfold demo_files in Hs. apply lookup_singleton_Some in Hs as [<- _].
  unfold old_batch in Hz. rewrite name_seq_batch_name in Hz by lia. simplify_eq. cbn. lia.
Qed.

Lemma demo_no_tmp : no_tmp (demo_world demo_files).
Proof.
  intros n. cbn. unfold demo_files. apply lookup_singleton_ne. intros H.
  pose proof (tmp_name_hidden n) as Ht. rewrite <- H in Ht. by vm_compute in Ht.
Qed.


Lemma append_bounded_witness :
  exists w' gone name,
    append 50 [demo_record] (demo_world demo_files)
      = (Ok (SpoolResult true (Z.of_nat (length gone)) (lines_in (batches (demo_world demo_files)) gone) None), w') /\
    named true 0 (seq w') name /\ batches (demo_world demo_files) !! name = None /\
    batches w' = <[name := payload [demo_record]]> (without gone (batches (demo_world demo_files))) /\
    total_size (batches w') <= 50 /\
    gone = take (length gone) (eviction_order (demo_world demo_files)) /\
    (forall k, (k < length gone)%nat ->
       50 < total_size (without (take k gone) (batches (demo_world demo_files))) + size_of (payload [demo_record])).
Proof.
  apply (append_bounded 50 [demo_record] (demo_world demo_files));
    [done | by eexists | apply demo_no_tmp | apply demo_seq_ok | done | done | done | by vm_compute].
Defined.

Lemma append_read_roundtrip_witness :
  exists w' r name,
    append 50 [demo_record] (demo_world demo_files) = (Ok r, w') /\ stored r = true /\
    batches (demo_world demo_files) !! name = None /\ is_live_only name = true /\
    read name w' = (Ok (Some [demo_record]), tick w').
Proof.
  apply (append_read_roundtrip 50 [demo_record] (demo_world demo_files));
    [done | by eexists | apply demo_no_tmp | apply demo_seq_ok | done | done | done | by vm_compute | |].
  - repeat constructor.
  - cbn. set_solver.
Defined.

Lemma restart_resumes_witness :
  exists w', new_spool (demo_world demo_files) = (Ok tt, w') /\ seq_ok w' /\
    batches w' = batches (demo_world demo_files).
Proof. apply restart_resumes. done. Defined.

(** The old live-only batch makes room for the new one. *)
Example append_evicts :
  fst (append 50 [demo_record] (demo_world demo_files)) = Ok (SpoolResult true 1 1 None).
Proof. vm_compute. reflexivity. Qed.
