(* ===== verification/Connect.v ===== *)
(** * Connections and outages

    [node_monitor/database/connect.py]: the parameters of a session and the test that tells
    an outage from a bad statement; and the interface through which the rest of the program
    uses [DatabaseWriter]. *)

From S2P Require Import Prelude PyTime PyVal.

Definition _SESSION_OPTIONS : string := "-c search_path=node_monitor,public -c TimeZone=UTC".
Definition _PROGRAM_LIMIT_CLASS : string := "54".
Definition _QUERY_CANCELED : string := "57014".
Definition _READ_ONLY_TRANSACTION : string := "25006".

(** [s.startswith(p)] *)
Definition has_prefix (p s : string) : bool := String.prefix p s.

(** [is_unavailable]; an exception that is not psycopg's is not an [OperationalError]. *)
Definition is_unavailable (exc : exn) : bool :=
  match exc with
  | DatabaseUnavailable _ => true
  | PgError _ operational sqlstate _ =>
      if decide (sqlstate = _READ_ONLY_TRANSACTION) then true
      else if negb operational then false
      else negb (has_prefix _PROGRAM_LIMIT_CLASS sqlstate || bool_decide (sqlstate = _QUERY_CANCELED))
  | _ => false
  end.

(** The session parameters [connect] adds to those of the URL: [(options, connect_timeout)],
    the timeout in microseconds rounded up to whole seconds. *)
Definition connect_options (url_options lock_timeout : option string) : string :=
  let options :=
    match lock_timeout with
    | Some t => _SESSION_OPTIONS +:+ " -c lock_timeout=" +:+ t
    | None => _SESSION_OPTIONS
    end in
  match url_options with
  | Some o => if decide (o = "") then options else o +:+ " " +:+ options
  | None => options
  end.

Definition connect_timeout (timeout_us : Z) : Z := Z.max 1 (- (- timeout_us / second_us)).

(** ** What [DatabaseWriter] offers its callers *)

Record write_result := WriteResult {
  rows_written : list (string * Z);
  rows_beyond_retention : list (string * Z);
  partitions_created : list string;
}.

(** [write] and [ping] over the writer's state, database included. *)
Class Writer (W : Type) := {
  db_write : list record -> datetime -> M W write_result;
  db_ping : W -> bool * W;
}.
