(* ===== verification/Buffered.v ===== *)
(** * Writing through an outage

    [node_monitor/database/buffered.py].  The state of a [BufferedWriter], with the spool and
    the database writer it drives; the list of events and the counter of dropped rows that a
    [submit] passes by reference to its helpers are part of the state while it runs, so an
    exception keeps what was appended to them.  Durations are whole microseconds, the
    resolution of [timedelta]; the monotonic clock that measures the replay budget is read
    from the environment.  [acked] is a ghost field: the batches the database accepted. *)

From stdpp Require Import pretty.
From S2P Require Import Prelude PyFloat PyTime PyVal Codec Spool Connect.

Open Scope py_scope.

Record bworld (W : Type) := BW {
  spool : sworld;
  db : W;
  acked : list (list record);
  mono : nat -> Z;
  ticks : nat;
  connected : bool;
  outage_since : option datetime;
  next_retry : option datetime;
  delay : option Z;
  replayed_batches : Z;
  replayed_records : Z;
  superseded_batches : Z;
  event_counts : list (string * Z);
  carried : list record;
  skip : gset string;
  replay_failures : list (string * Z);
  events : list record;
  beyond : list (string * Z);
}.
Arguments BW {W}.
Arguments spool {W}. Arguments db {W}. Arguments acked {W}. Arguments mono {W}.
Arguments ticks {W}. Arguments connected {W}. Arguments outage_since {W}.
Arguments next_retry {W}. Arguments delay {W}. Arguments replayed_batches {W}.
Arguments replayed_records {W}. Arguments superseded_batches {W}. Arguments event_counts {W}.
Arguments carried {W}. Arguments skip {W}. Arguments replay_failures {W}.
Arguments events {W}. Arguments beyond {W}.

Section Fields.
Context {W : Type}.

Definition set_spool s (b : bworld W) : bworld W := BW s (db b) (acked b) (mono b) (ticks b) (connected b) (outage_since b) (next_retry b) (delay b) (replayed_batches b) (replayed_records b) (superseded_batches b) (event_counts b) (carried b) (skip b) (replay_failures b) (events b) (beyond b).
Definition set_db d (b : bworld W) : bworld W := BW (spool b) d (acked b) (mono b) (ticks b) (connected b) (outage_since b) (next_retry b) (delay b) (replayed_batches b) (replayed_records b) (superseded_batches b) (event_counts b) (carried b) (skip b) (replay_failures b) (events b) (beyond b).
Definition set_acked a (b : bworld W) : bworld W := BW (spool b) (db b) a (mono b) (ticks b) (connected b) (outage_since b) (next_retry b) (delay b) (replayed_batches b) (replayed_records b) (superseded_batches b) (event_counts b) (carried b) (skip b) (replay_failures b) (events b) (beyond b).
Definition set_ticks t (b : bworld W) : bworld W := BW (spool b) (db b) (acked b) (mono b) t (connected b) (outage_since b) (next_retry b) (delay b) (replayed_batches b) (replayed_records b) (superseded_batches b) (event_counts b) (carried b) (skip b) (replay_failures b) (events b) (beyond b).
(** The four fields that describe the outage. *)
Definition set_link c o n d (b : bworld W) : bworld W := BW (spool b) (db b) (acked b) (mono b) (ticks b) c o n d (replayed_batches b) (replayed_records b) (superseded_batches b) (event_counts b) (carried b) (skip b) (replay_failures b) (events b) (beyond b).
Definition set_counts rb rr sb (b : bworld W) : bworld W := BW (spool b) (db b) (acked b) (mono b) (ticks b) (connected b) (outage_since b) (next_retry b) (delay b) rb rr sb (event_counts b) (carried b) (skip b) (replay_failures b) (events b) (beyond b).
Definition set_event_counts c (b : bworld W) : bworld W := BW (spool b) (db b) (acked b) (mono b) (ticks b) (connected b) (outage_since b) (next_retry b) (delay b) (replayed_batches b) (replayed_records b) (superseded_batches b) c (carried b) (skip b) (replay_failures b) (events b) (beyond b).
Definition set_carried c (b : bworld W) : bworld W := BW (spool b) (db b) (acked b) (mono b) (ticks b) (connected b) (outage_since b) (next_retry b) (delay b) (replayed_batches b) (replayed_records b) (superseded_batches b) (event_counts b) c (skip b) (replay_failures b) (events b) (beyond b).
Definition set_skip s (b : bworld W) : bworld W := BW (spool b) (db b) (acked b) (mono b) (ticks b) (connected b) (outage_since b) (next_retry b) (delay b) (replayed_batches b) (replayed_records b) (superseded_batches b) (event_counts b) (carried b) s (replay_failures b) (events b) (beyond b).
Definition set_replay_failures f (b : bworld W) : bworld W := BW (spool b) (db b) (acked b) (mono b) (ticks b) (connected b) (outage_since b) (next_retry b) (delay b) (replayed_batches b) (replayed_records b) (superseded_batches b) (event_counts b) (carried b) (skip b) f (events b) (beyond b).
Definition set_events e (b : bworld W) : bworld W := BW (spool b) (db b) (acked b) (mono b) (ticks b) (connected b) (outage_since b) (next_retry b) (delay b) (replayed_batches b) (replayed_records b) (superseded_batches b) (event_counts b) (carried b) (skip b) (replay_failures b) e (beyond b).
Definition set_beyond y (b : bworld W) : bworld W := BW (spool b) (db b) (acked b) (mono b) (ticks b) (connected b) (outage_since b) (next_retry b) (delay b) (replayed_batches b) (replayed_records b) (superseded_batches b) (event_counts b) (carried b) (skip b) (replay_failures b) (events b) y.
End Fields.

(** [counter.update(d)] *)
Definition counter_update (c d : list (string * Z)) : list (string * Z) :=
  foldl (fun c kv => dset kv.1 (default 0 (dget kv.1 c) + kv.2) c) c d.

Record settings := Settings {
  system : string;
  backoff : Z * Z;
  max_replay_attempts : Z;
  replay_budget : Z;
}.

Section Buffered.
Context {W : Type} {WR : Writer W} {JT : JsonText} (max_bytes : Z) (cfg : settings).
Abbreviation BM := (M (bworld W)).

(** [__init__] *)
Definition new_buffered (s : sworld) (d : W) (m : nat -> Z) : bworld W :=
  BW s d [] m 0 false None None None 0 0 0 [] [] ∅ [] [] [].

Definition on_spool {A} (c : M sworld A) : BM A := zoom spool set_spool c.

(** [self._clock()] *)
Definition read_clock : BM Z := fun b => (Ok (mono b (ticks b)), set_ticks (S (ticks b)) b).

(** [self._writer.write(records, now)] *)
Definition writer_write (rs : list record) (now : datetime) : BM write_result := fun b =>
  match db_write rs now (db b) with
  | (Ok r, d) => (Ok r, set_acked (acked b ++ [rs]) (set_db d b))
  | (Raise e, d) => (Raise e, set_db d b)
  end.

(** [self._writer.ping()] *)
Definition writer_ping : BM bool := fun b =>
  let '(r, d) := db_ping (db b) in (Ok r, set_db d b).

(** [_event] *)
Definition _event (now : datetime) (event_type : string) (detail : dict) : BM record := fun b =>
  let nth := default 0 (dget event_type (event_counts b)) in
  (Ok (Record_ COLLECTION_EVENT
        [("system", VStr (system cfg)); ("node", VNone); ("ts", VTime (add_us now nth));
         ("event_type", VStr event_type); ("detail", VDict detail)]),
   set_event_counts (dset event_type (nth + 1) (event_counts b)) b).

(** [events.append(self._event(now, event_type, detail))] *)
Definition add_event (now : datetime) (event_type : string) (detail : dict) : BM unit :=
  let* e := _event now event_type detail in
  modify (fun b => set_events (events b ++ [e]) b).

(** [_store] *)
Definition _store (rs : list record) (now : datetime) : BM unit :=
  match rs with
  | [] => ret tt
  | _ =>
      let* r := on_spool (append max_bytes rs) in
      when (negb (dropped_batches r =? 0))
        (add_event now "spool_dropped"
           [("batches", VInt (dropped_batches r)); ("records", VInt (dropped_records r))]) ;;;
      when (negb (stored r))
        (add_event now "spool_write_failed"
           [("error", match error r with Some e => VStr e | None => VNone end)])
  end.

Definition pop_failures (path : string) : BM unit :=
  modify (fun b => set_replay_failures (ddel path (replay_failures b)) b).

(** [if _exists(path): self._skip.add(path)]; whether it exists. *)
Definition skip_if_exists (path : string) : BM bool :=
  let* e := on_spool (exists_file path) in
  when e (modify (fun b => set_skip ({[path]} ∪ skip b) b)) ;;;
  ret e.

(** [_drop_superseded] *)
Definition _drop_superseded (path : string) : BM unit :=
  pop_failures path ;;;
  on_spool (remove path) ;;;
  let* e := skip_if_exists path in
  if e then ret tt
  else modify (fun b => set_counts (replayed_batches b) (replayed_records b) (superseded_batches b + 1) b).

(** [_quarantine_spooled] *)
Definition _quarantine_spooled (path : string) (now : datetime) (detail : dict) : BM unit :=
  pop_failures path ;;;
  on_spool (quarantine path) ;;;
  skip_if_exists path ;;;
  add_event now "spool_batch_quarantined" (dmerge [("file", VStr path)] detail).

(** [_quarantine_fresh] *)
Definition _quarantine_fresh (rs : list record) (exc : exn) (now : datetime) : BM unit :=
  match rs with
  | [] => ret tt
  | _ =>
      if all_live rs then
        add_event now "spool_batch_quarantined"
          [("file", VNone); ("reason", VStr "live-only batch not kept"); ("error", VStr (describe exc))]
      else
        let* name := on_spool (quarantine_records rs) in
        add_event now "spool_batch_quarantined"
          [("file", match name with Some n => VStr n | None => VNone end); ("error", VStr (describe exc))]
  end.

(** The [except] clauses around one replayed write: return to go on, or raise. *)
Definition replay_failed (path : string) (now : datetime) (exc : exn) : BM unit :=
  match exc with
  | DatabaseUnavailable _ =>
      let* up := writer_ping in
      if negb up then raise exc
      else
        let* f := gets replay_failures in
        let failures := default 0 (dget path f) + 1 in
        if failures <? max_replay_attempts cfg then
          modify (fun b => set_replay_failures (dset path failures (replay_failures b)) b) ;;;
          raise exc
        else
          _quarantine_spooled path now
            [("error", VStr (describe exc));
             ("reason", VStr "repeated failure while the database answered");
             ("attempts", VInt failures)]
  | _ => _quarantine_spooled path now [("error", VStr (describe exc))]
  end.

(** The bookkeeping after a replayed write. *)
Definition replay_written (path : string) (batch : list record) (r : write_result) : BM unit :=
  pop_failures path ;;;
  on_spool (remove path) ;;;
  skip_if_exists path ;;;
  modify (fun b => set_counts (replayed_batches b + 1)
                     (replayed_records b + Z.of_nat (length batch)) (superseded_batches b) b) ;;;
  modify (fun b => set_beyond (counter_update (beyond b) (rows_beyond_retention r)) b).

(** One batch of [_replay]; whether it was written. *)
Definition replay_batch (path : string) (now : datetime) : BM bool :=
  let* batch := on_spool (read path) in
  match batch with
  | None => ret false
  | Some batch =>
      let* r := try_except (let* r := writer_write batch now in ret (Some r))
                  (fun exc => Some (replay_failed path now exc ;;; ret None)) in
      match r with
      | None => ret false
      | Some r => replay_written path batch r ;;; ret true
      end
  end.

Fixpoint replay_loop (started : Z) (superseded : list string) (now : datetime)
    (files : list string) (wrote : bool) : BM (bool * bool) :=
  match files with
  | [] => ret (wrote, true)
  | path :: files =>
      let* t := read_clock in
      if replay_budget cfg <=? t - started then ret (wrote, false)
      else if bool_decide (path ∈ superseded) then
        _drop_superseded path ;;; replay_loop started superseded now files wrote
      else
        let* w := replay_batch path now in
        replay_loop started superseded now files (w || wrote)
  end.

(** [_replay] *)
Definition _replay (now : datetime) : BM (bool * bool) :=
  let* started := read_clock in
  let* names := on_spool _batch_files in
  let* skipped := gets skip in
  let files := filter (fun p => p ∉ skipped) names in
  let live_only := filter (fun p => is_live_only p = true) files in
  replay_loop started (take (length live_only - 1) live_only) now files false.

(** [_recover] *)
Definition _recover (now : datetime) : BM unit :=
  let* b := gets id in
  when (match outage_since b with Some _ => true | None => false end
        || negb (replayed_batches b =? 0) || negb (superseded_batches b =? 0))
    (add_event now "database_recovered"
       [("outage_sec", match outage_since b with
                       | Some since => VFloat (int_truediv (instant now - instant since) second_us)
                       | None => VNone
                       end);
        ("replayed_batches", VInt (replayed_batches b));
        ("replayed_records", VInt (replayed_records b));
        ("superseded_batches", VInt (superseded_batches b))]) ;;;
  modify (set_link true None None None) ;;;
  modify (set_counts 0 0 0).

(** [_fail] *)
Definition _fail (exc : exn) (rs : list record) (now : datetime) : BM unit :=
  let* b := gets id in
  let '(lo, hi) := backoff cfg in
  match outage_since b with
  | None =>
      modify (set_link false (Some now) (next_retry b) (Some (Z.min lo hi))) ;;;
      add_event now "database_unavailable" [("error", VStr (describe exc))]
  | Some since =>
      modify (set_link false (Some since) (next_retry b) (delay b)) ;;;
      match delay b with
      | None => raise TypeError
      | Some d => modify (set_link false (Some since) (next_retry b) (Some (Z.min (d * 2) hi)))
      end
  end ;;;
  modify (fun b => set_link (connected b) (outage_since b)
                     (Some (add_us now (default 0 (delay b)))) (delay b) b) ;;;
  _store rs now.

(** The fresh batch was rejected: what [_attempt] does before it re-raises. *)
Definition reject_fresh (rs : list record) (exc : exn) (now : datetime) (wrote : bool) : BM unit :=
  when wrote (_recover now) ;;; _quarantine_fresh rs exc now.

(** The inner [try] of [_attempt] around the fresh batch. *)
Definition write_fresh (rs : list record) (now : datetime) (wrote : bool) : BM unit :=
  let* r := try_except (writer_write rs now)
    (fun exc => match exc with
                | DatabaseUnavailable _ => None
                | _ => Some (reject_fresh rs exc now wrote ;;; raise exc)
                end) in
  modify (fun b => set_beyond (counter_update (beyond b) (rows_beyond_retention r)) b).

(** The outer [try] of [_attempt]: [None] for its early return, [Some wrote] otherwise. *)
Definition attempt_body (rs : list record) (now : datetime) : BM (option bool) :=
  let* ' (wrote, drained) := _replay now in
  if negb drained then
    when wrote (modify (fun b => set_link true (outage_since b) None (delay b) b)) ;;;
    _store rs now ;;;
    ret None
  else
    let* outage := gets outage_since in
    if match rs with [] => false | _ => true end
       || (match outage with Some _ => true | None => false end && negb wrote)
    then write_fresh rs now wrote ;;; ret (Some true)
    else ret (Some wrote).

(** [_attempt] *)
Definition _attempt (rs : list record) (now : datetime) : BM unit :=
  let* r := try_except (attempt_body rs now)
    (fun exc => match exc with
                | DatabaseUnavailable _ => Some (_fail exc rs now ;;; ret None)
                | _ => None
                end) in
  match r with Some true => _recover now | _ => ret tt end.

(** [_finish], with [_beyond_event]. *)
Definition _finish (now : datetime) : BM (list record) :=
  let* q := on_spool take_quarantined in
  foldM (fun _ nr => add_event now "spool_batch_quarantined"
                       [("file", VStr nr.1); ("error", VStr nr.2)]) tt q ;;;
  let* b := gets id in
  match beyond b with
  | [] => ret (events b)
  | y => let* e := _event now "rows_beyond_retention" (map (fun kv => (kv.1, VInt kv.2)) y) in
         ret (events b ++ [e])
  end.

(** The [try] of [submit]: before the retry time the batch goes straight to the spool. *)
Definition submit_body (rs : list record) (now : datetime) : BM unit :=
  let* retry := gets next_retry in
  match retry with
  | Some t => if instant now <? instant t then _store rs now else _attempt rs now
  | None => _attempt rs now
  end.

(** [submit] *)
Definition submit (rs : list record) (now : datetime) : BM (list record) := fun b0 =>
  match require_aware now with
  | Raise e => (Raise e, b0)
  | Ok _ =>
      (modify (fun b => set_event_counts [] (set_events (carried b) (set_carried [] (set_beyond [] b)))) ;;;
       try_except (submit_body rs now)
         (fun exc => Some (let* c := _finish now in modify (set_carried c) ;;; raise exc)) ;;;
       _finish now) b0
  end.

(** [status] *)
Definition status : BM dict :=
  let* b := gets id in
  let* n := on_spool batch_count in
  let* z := on_spool size_bytes in
  let stamp t := match t with Some d => VStr (isoformat d) | None => VNone end in
  ret [("connected", VBool (connected b)); ("outage_since", stamp (outage_since b));
       ("spooled_batches", VInt n); ("spooled_bytes", VInt z); ("next_retry", stamp (next_retry b))].
End Buffered.

(** ** No batch is lost silently *)

Definition event_type_of (r : record) : value := dget_or_none "event_type" (row r).
Definition has_event (ty : string) (evs : list record) : Prop :=
  exists r, r ∈ evs /\ event_type_of r = VStr ty.

Section Conservation.
Context {W : Type} {WR : Writer W} {JT : JsonText} (max_bytes : Z) (cfg : settings).
(** The events carried over from an earlier submit: the first [old] ones. *)
Context (old : nat).
Implicit Types (b : bworld W).

Definition made b : list record := drop old (events b).

(** What became of a stored batch [n] with contents [s], when not in the spool any more: it is
    in [corrupt/], the database has its records, it was live-only (superseded), or a
    [spool_dropped] event was made. *)
Definition settled (n s : string) (evs : list record) b : Prop :=
  (batches (spool b) !! n = None /\ corrupted (spool b) !! n = Some s)
  \/ (exists rs, parse_lines (nonblank (text_lines s)) = Ok rs /\ rs ∈ acked b)
  \/ is_live_only n = true
  \/ has_event "spool_dropped" evs.

Definition accounted (n s : string) (evs : list record) b : Prop :=
  batches (spool b) !! n = Some s \/ settled n s evs b.

Record sane (hi : Z) b : Prop := Sane {
  sane_ok : seq_ok (spool b);
  sane_seq : 0 <= seq (spool b) <= hi;
  sane_events : (old <= length (events b))%nat;
}.

(** The invariant of a submit for the batch [n], [s]. *)
Record safe (hi : Z) (n s : string) b : Prop := Safe {
  safe_sane : sane hi b;
  safe_old : forall z, name_seq n = Some z -> z <= seq (spool b);
  safe_name : is_batch_name n = true;
  safe_acc : accounted n s (made b) b;
}.

Lemma has_event_mono ty evs evs' : evs ⊆ evs' -> has_event ty evs -> has_event ty evs'.
Proof. intros Hsub (r & Hr & Ht). exists r. split; [by apply Hsub | done]. Qed.

(** Nothing taken away: the store is the same, the database and the events may have grown. *)
Record grows b b' : Prop := Grows {
  gr_batches : batches (spool b') = batches (spool b);
  gr_corrupted : corrupted (spool b') = corrupted (spool b);
  gr_seq : seq (spool b') = seq (spool b);
  gr_acked : acked b ⊆ acked b';
  gr_events : events b `prefix_of` events b';
}.

Definition stable (P : bworld W -> Prop) : Prop := forall b b', grows b b' -> P b -> P b'.

Lemma made_grows b b' : events b `prefix_of` events b' -> made b ⊆ made b'.
Proof. intros [l Hl]. unfold made. rewrite Hl, drop_app. set_solver. Qed.

Lemma settled_grows n s b b' : grows b b' -> settled n s (made b) b -> settled n s (made b') b'.
Proof.
  intros [HB HC _ Ha He] [H|[(rs & Hp & Hin)|[H|H]]]; unfold settled; rewrite ?HB, ?HC.
  - by left.
  - right; left. exists rs. auto.
  - by do 2 right; left.
  - do 3 right. eapply has_event_mono, H. by apply made_grows.
Qed.

Lemma sane_stable hi : stable (sane hi).
Proof.
  intros b b' [HB _ HS _ He] [Hok Hq Hl]. split; [|by rewrite HS|apply prefix_length in He; lia].
  eapply seq_ok_mono; [exact Hok | lia|]. by rewrite HB.
Qed.

Lemma safe_stable hi n s : stable (safe hi n s).
Proof.
  intros b b' Hg [Hs Ho Hn Hacc]. split; [by eapply sane_stable | | done |].
  - by rewrite (gr_seq _ _ Hg).
  - destruct Hacc as [H|H]; [left; by rewrite (gr_batches _ _ Hg) | right; by eapply settled_grows].
Qed.

(** Steps that take nothing away keep a stable predicate. *)
Section Stable.
Context (P : bworld W -> Prop) (HP : stable P).

Lemma stable_modify f : (forall b, grows b (f b)) -> keeps P (modify f).
Proof using HP. intros H. apply keeps_modify. intros b. by apply HP. Qed.

Lemma stable_add_event now ty d : keeps P (add_event cfg now ty d).
Proof using HP. intros b Hb. cbn. eapply HP, Hb. split; cbn; [done..|by eexists]. Qed.

Lemma stable_read_clock : keeps P (@read_clock W).
Proof using HP. intros b Hb. cbn. eapply HP, Hb. by split. Qed.

Lemma stable_ping : keeps P writer_ping.
Proof using HP.
  intros b Hb. unfold writer_ping. destruct (db_ping (db b)). cbn. eapply HP, Hb. by split.
Qed.

Lemma stable_write rs now : keeps P (writer_write rs now).
Proof using HP.
  intros b Hb. unfold writer_write. destruct (db_write rs now (db b)) as [[r|e] d]; cbn;
    eapply HP, Hb; split; cbn; try done; set_solver.
Qed.

(** Spool operations that leave the files alone. *)
Lemma stable_on_spool {A} (c : M sworld A) :
  (forall w, exists r w', c w = (r, w') /\ batches w' = batches w /\ corrupted w' = corrupted w /\ seq w' = seq w) ->
  keeps P (on_spool c).
Proof using HP.
  intros H b Hb. unfold on_spool, zoom. destruct (H (spool b)) as (r & w' & -> & HB & HC & HS).
  cbn. eapply HP, Hb. by split.
Qed.

Lemma stable_batch_files : keeps P (on_spool _batch_files).
Proof using HP.
  apply stable_on_spool. intros w.
  destruct (batch_files_cases w) as (w' & [k ->] & [->| ->]); by eexists _, _.
Qed.

Lemma stable_take_quarantined : keeps P (on_spool take_quarantined).
Proof using HP. apply stable_on_spool. intros w. by eexists _, _. Qed.

Lemma stable_exists_file path : keeps P (on_spool (exists_file path)).
Proof using HP.
  apply stable_on_spool. intros w. unfold exists_file, try_except, bind.
  destruct (syscall_cases w) as [->|[f ->]]; by eexists _, _.
Qed.
End Stable.

#[local] Hint Resolve sane_stable safe_stable stable_add_event stable_read_clock stable_ping
  stable_write stable_batch_files stable_take_quarantined stable_exists_file : nm.
#[local] Hint Extern 1 (keeps _ (modify _)) =>
  apply stable_modify; [solve [auto with nm] | intros; by split] : nm.

Section Tail.
Context (P : bworld W -> Prop) (HP : stable P).

Lemma stable_pop path : keeps P (@pop_failures W path).
Proof using HP. unfold pop_failures. auto with nm. Qed.

Lemma stable_skip_if_exists path : keeps P (@skip_if_exists W path).
Proof using HP. unfold skip_if_exists. auto 8 with nm. Qed.

Lemma stable_recover now : keeps P (_recover cfg now).
Proof using HP. unfold _recover. auto 8 with nm. Qed.

(** [_finish] returns at least the events made so far. *)
Lemma stable_finish now : keeps P (_finish cfg now).
Proof using HP.
  unfold _finish. apply keeps_bind; [auto with nm|]. intros q.
  apply keeps_bind; [apply keeps_foldM; auto with nm|]. intros _.
  apply keeps_bind; [auto with nm|]. intros b. case_match; [auto with nm|].
  apply keeps_bind; [|auto with nm]. intros b' Hb'. cbn. eapply HP, Hb'. by split.
Qed.
End Tail.

#[local] Hint Resolve stable_pop stable_skip_if_exists stable_recover stable_finish : nm.

Lemma on_spool_run {A} (c : M sworld A) b r w :
  c (spool b) = (r, w) -> on_spool c b = (r, set_spool w b).
Proof. intros H. unfold on_spool, zoom. by rewrite H. Qed.

Lemma safe_same_store hi n s b w :
  batches w = batches (spool b) -> corrupted w = corrupted (spool b) -> seq w = seq (spool b) ->
  safe hi n s b -> safe hi n s (set_spool w b).
Proof. intros HB HC HS. apply safe_stable. by split. Qed.

(** A batch moved to [corrupt/]. *)
Lemma safe_moved hi n s b w path x :
  default ∅ (dir (spool b)) !! path = Some x -> batches w = delete path (batches (spool b)) ->
  corrupted w = <[path := x]> (corrupted (spool b)) -> seq w = seq (spool b) ->
  safe hi n s b -> safe hi n s (set_spool w b).
Proof.
  intros Hx HB HC HS [[Hok Hq Hl] Ho Hn Hacc]. split; [split|..]; cbn; rewrite ?HS; try done.
  - eapply seq_ok_mono; [exact Hok | lia|]. rewrite HB. intros k [y Hy].
    apply lookup_delete_Some in Hy as [_ Hy]. by exists y.
  - unfold accounted, settled in *. cbn. rewrite HB, HC.
    destruct (decide (path = n)) as [->|Hne].
    + assert (Hbx : batches (spool b) !! n = Some x) by (by apply map_lookup_filter_Some).
      rewrite lookup_delete_eq, lookup_insert_eq. rewrite Hbx in Hacc. naive_solver.
    + by rewrite lookup_delete_ne, lookup_insert_ne.
Qed.

Lemma safe_quarantine hi n s path : keeps (safe hi n s) (on_spool (quarantine path)).
Proof.
  intros b Hb. destruct (quarantine_cases path (spool b)) as (r & w & E & H).
  rewrite (on_spool_run _ _ _ _ E). cbn. destruct r.
  - destruct H as [(x & Hx & HC) HB HS _ _ _ _]. by eapply safe_moved.
  - destruct H. by apply safe_same_store.
Qed.

(** Removing a batch that is settled, or another one. *)
Lemma safe_remove hi n s path b :
  safe hi n s b -> (path = n -> settled n s (made b) b) ->
  exists b', on_spool (remove path) b = (Ok tt, b') /\ safe hi n s b'.
Proof.
  intros [[Hok Hq Hl] Ho Hn Hacc] Hset.
  destruct (remove_cases path (spool b)) as (w & E & HC & HS & _ & _ & HB).
  rewrite (on_spool_run _ _ _ _ E). eexists. split; [done|].
  destruct HB as [HB|HB]; [by apply safe_same_store|].
  split; [split|..]; cbn; rewrite ?HS; try done.
  - eapply seq_ok_mono; [exact Hok | lia|]. rewrite HB. intros k [y Hy].
    apply lookup_delete_Some in Hy as [_ Hy]. by exists y.
  - unfold accounted, settled in *. cbn. rewrite HB, HC.
    destruct (decide (path = n)) as [->|Hne].
    + right. destruct (Hset eq_refl) as [[_ H]|H]; [left; by rewrite lookup_delete_eq | by right].
    + by rewrite lookup_delete_ne.
Qed.

#[local] Hint Resolve safe_quarantine : nm.

Lemma safe_quarantine_spooled hi n s path now d : keeps (safe hi n s) (_quarantine_spooled cfg path now d).
Proof. unfold _quarantine_spooled. auto 8 with nm. Qed.
#[local] Hint Resolve safe_quarantine_spooled : nm.

Lemma safe_replay_failed hi n s path now e : keeps (safe hi n s) (replay_failed cfg path now e).
Proof.
  unfold replay_failed. destruct e; auto with nm. apply keeps_bind; [auto with nm|].
  intros up. case_match; [auto with nm|]. apply keeps_bind; [auto with nm|]. intros f.
  case_match; auto with nm.
Qed.

(** Once the removed batch is settled, the rest of the bookkeeping changes nothing. *)
Lemma safe_after_remove {A} hi n s path (k : unit -> M (bworld W) A) :
  (forall u, keeps (safe hi n s) (k u)) ->
  hoare (fun b => safe hi n s b /\ (path = n -> settled n s (made b) b))
    (pop_failures path ;;; on_spool (remove path) ;;; k tt) (fun _ => safe hi n s).
Proof.
  intros Hk b [Hb Hset]. erewrite run_bind by done. cbn beta iota. set (b1 := set_replay_failures _ _).
  destruct (safe_remove hi n s path b1) as (b2 & E & Hb2).
  - eapply safe_stable, Hb. by split.
  - intros Hp. eapply settled_grows, Hset, Hp. by split.
  - erewrite run_bind by exact E. by apply Hk.
Qed.

Lemma safe_replay_written hi n s path batch r :
  hoare (fun b => safe hi n s b /\ (path = n -> settled n s (made b) b))
    (replay_written path batch r) (fun _ => safe hi n s).
Proof. apply (safe_after_remove hi n s path (fun _ => _)). auto 8 with nm. Qed.

Lemma safe_drop_superseded hi n s path :
  is_live_only path = true -> keeps (safe hi n s) (@_drop_superseded W path).
Proof.
  intros Hl. eapply hoare_pre.
  - apply (safe_after_remove hi n s path (fun _ => _)). intros u. apply keeps_bind; [auto with nm|].
    intros e. case_match; auto with nm.
  - intros b Hb. split; [done|]. intros ->. by do 2 right; left.
Qed.

Lemma safe_replay_batch hi n s path now : keeps (safe hi n s) (replay_batch cfg path now).
Proof.
  intros b Hb. unfold replay_batch.
  destruct (read_cases path (spool b)) as (r & w & E & Hr).
  erewrite run_bind by (by apply on_spool_run). cbn beta iota.
  destruct r as [batch|]; cbn -[try_except writer_write].
  2: { destruct Hr as [[_ ->]|[_ Hst HS _ _]]; [by apply safe_same_store|].
       destruct Hst as [(HB & HC & _)|(x & Hx & HB & HC & _)];
         [by apply safe_same_store | by eapply safe_moved]. }
  destruct Hr as ([HB HC HS _ _ _ _] & _ & x & Hx & Hparse).
  set (b1 := set_spool w b). assert (Hb1 : safe hi n s b1) by (by apply safe_same_store).
  unfold writer_write at 1, bind at 1, try_except at 1, bind at 1.
  destruct (db_write batch now (db b1)) as [[res|e] d] eqn:Ew; cbn -[replay_written replay_failed b1].
  - assert (Hdone : hoare (fun b => safe hi n s b /\ (path = n -> settled n s (made b) b))
              (replay_written path batch res ;;; ret true) (fun _ => safe hi n s)).
    { eapply hoare_bind with (R := fun _ => safe hi n s); [|intros; apply keeps_ret].
      eapply hoare_post; [apply safe_replay_written|]. by intros []. }
    apply Hdone. split.
    + eapply safe_stable, Hb1. split; cbn; try done; set_solver.
    + intros Hp. pose proof (safe_acc _ _ _ _ Hb1) as Hacc.
      destruct Hacc as [Hin|Hin]; [|eapply settled_grows, Hin; split; cbn; try done; set_solver].
      right; left. exists batch. split; [|cbn; set_solver]. subst path.
      cbn in Hin. rewrite HB in Hin. apply map_lookup_filter_Some in Hin as [Hin _]. by simplify_eq.
  - pose proof (safe_replay_failed hi n s path now e (set_db d b1)) as Hf.
    unfold bind. destruct (replay_failed cfg path now e (set_db d b1)) as [[[]|e'] b2]; apply Hf;
      (eapply safe_stable, Hb1; by split).
Qed.

Lemma safe_replay_loop hi n s started sup now files wrote :
  Forall (fun p => is_live_only p = true) sup ->
  keeps (safe hi n s) (replay_loop cfg started sup now files wrote).
Proof.
  intros Hsup. revert wrote. induction files as [|path files IH]; intros wrote; cbn; [auto with nm|].
  apply keeps_bind; [auto with nm|]. intros t. case_match; [auto with nm|].
  case_bool_decide as Hp; apply keeps_bind; auto using safe_replay_batch.
  apply safe_drop_superseded. by eapply Forall_forall in Hsup.
Qed.

Lemma safe_replay hi n s now : keeps (safe hi n s) (_replay cfg now).
Proof.
  unfold _replay. apply keeps_bind; [auto with nm|]. intros t. apply keeps_bind; [auto with nm|].
  intros names. apply keeps_bind; [auto with nm|]. intros sk. apply safe_replay_loop.
  apply Forall_forall. intros p Hp%elem_of_take. destruct Hp as (i & Hp & _).
  by apply list_elem_of_lookup_2, list_elem_of_filter in Hp as [? _].
Qed.

(** *** The fresh batch *)

(** The event that says a rejected batch was not kept. *)
Definition not_kept (evs : list record) : Prop :=
  exists r d, r ∈ evs /\ event_type_of r = VStr "spool_batch_quarantined" /\
    dget "detail" (row r) = Some (VDict d) /\ dget "file" d = Some VNone.

(** The records are in the file [name] of the spool or of [corrupt/]. *)
Definition filed (rs : list record) (name : string) b : Prop :=
  is_batch_name name = true /\ is_live_only name = all_live rs /\
  (forall z, name_seq name = Some z -> z <= seq (spool b)) /\
  (batches (spool b) !! name = Some (payload rs)
   \/ batches (spool b) !! name = None /\ corrupted (spool b) !! name = Some (payload rs)).

(** Where the records of a submit are afterwards: in the database, in the spool, in
    [corrupt/]; or an event says that they are lost. *)
Definition placed (rs : list record) (evs : list record) b : Prop :=
  rs ∈ acked b
  \/ (exists name, filed rs name b)
  \/ has_event "spool_write_failed" evs
  \/ not_kept evs.

Lemma placed_stable rs : stable (fun b => placed rs (made b) b).
Proof.
  intros b b' [HB HC HS Ha He] [H|[H|[H|(r & d & Hr & H)]]]; unfold placed, filed; rewrite ?HB, ?HC, ?HS; auto.
  - do 2 right. left. eapply has_event_mono, H. by apply made_grows.
  - do 3 right. exists r, d. split; [by apply (made_grows b)|done].
Qed.

(** An event just made is among those of this submit. *)
Lemma add_event_made hi now ty d :
  hoare (sane hi) (add_event cfg now ty d)
    (fun r b => r = Ok tt /\ exists e, e ∈ made b /\ event_type_of e = VStr ty /\ dget "detail" (row e) = Some (VDict d)).
Proof.
  intros b [_ _ Hl]. cbn. split; [done|]. unfold made. cbn. rewrite drop_app_le by done.
  eexists. split; [rewrite elem_of_app, list_elem_of_singleton; right; reflexivity | done].
Qed.

Lemma store_spool hi rs now b :
  sane hi b -> hi + 2 < 10 ^ 6 -> rs <> [] ->
  exists w' gone r, appended rs r (payload rs) (spool b) w' gone /\
    _store max_bytes cfg rs now b =
      (when (negb (dropped_batches r =? 0))
        (add_event cfg now "spool_dropped"
           [("batches", VInt (dropped_batches r)); ("records", VInt (dropped_records r))]) ;;;
       when (negb (stored r))
        (add_event cfg now "spool_write_failed"
           [("error", match error r with Some e => VStr e | None => VNone end)])) (set_spool w' b) /\
    sane (hi + 2) (set_spool w' b).
Proof.
  intros [Hok Hq Hl] Hhi Hne. destruct (append_cases max_bytes rs (spool b)) as (r & w' & gone & E & Ha); [done|lia|lia|].
  exists w', gone, r. split_and!; [done | | split; cbn; [apply Ha | destruct Ha; lia | done]].
  unfold _store. destruct rs; [done|]. by erewrite run_bind by (apply on_spool_run; exact E).
Qed.

Lemma store_placed hi rs now :
  hi + 2 < 10 ^ 6 -> rs <> [] ->
  hoare (sane hi) (_store max_bytes cfg rs now) (fun _ b => sane (hi + 2) b /\ placed rs (made b) b).
Proof.
  intros Hhi Hne b Hb. destruct (store_spool hi rs now b Hb Hhi Hne) as (w' & gone & r & Ha & -> & Hs).
  destruct (stored r) eqn:Est.
  - assert (Hp : placed rs (made (set_spool w' b)) (set_spool w' b)).
    { right; left. destruct Ha as [_ Hsq _ HB _ _ _ _ _]. rewrite Est, bool_decide_false in HB by done.
      destruct HB as (name & (us & z & -> & Hz) & _ & HB). exists (batch_name (stamp_text (utc us)) z (all_live rs)). pose proof (sane_seq _ _ Hb). pose proof (sane_seq _ _ Hs) as Hs2. cbn in Hs2.
      split; [apply batch_name_visible|]. rewrite is_live_only_batch_name by lia. split; [done|]. split.
      - intros z'. rewrite name_seq_batch_name by lia. intros [= <-]. cbn. lia.
      - left. cbn. by rewrite HB, lookup_insert_eq. }
    apply (hoare_and _ (sane (hi + 2)) (fun b => placed rs (made b) b)
             (fun _ => sane (hi + 2)) (fun _ b => placed rs (made b) b)); [..|done];
      apply keeps_bind; intros; apply keeps_when; auto using placed_stable with nm.
  - cbn [negb when]. 
    assert (Hs1 : sane (hi + 2) (snd (when (negb (dropped_batches r =? 0))
        (add_event cfg now "spool_dropped"
           [("batches", VInt (dropped_batches r)); ("records", VInt (dropped_records r))]) (set_spool w' b)))).
    { apply keeps_when; auto with nm. }
    destruct (when _ _ _) as [[[]|e] b1] eqn:E1; cbn in Hs1.
    2: { by destruct (dropped_batches r =? 0); cbn in E1. }
    erewrite run_bind by exact E1. cbn beta iota. split; [by apply stable_add_event with (P := sane (hi + 2)); auto with nm|].
    destruct (add_event_made (hi + 2) now "spool_write_failed"
      [("error", match error r with Some e => VStr e | None => VNone end)] b1 Hs1) as (_ & e & He & Ht & _).
    do 2 right. left. by exists e.
Qed.

Lemma safe_store hi n s rs now :
  hi + 2 < 10 ^ 6 -> hoare (safe hi n s) (_store max_bytes cfg rs now) (fun _ => safe (hi + 2) n s).
Proof.
  intros Hhi b Hb. destruct (decide (rs = [])) as [->|Hne].
  { destruct Hb as [[Hok Hq Hl] Ho Hn Hacc]. cbn. split; [split|..]; try done. lia. }
  destruct (store_spool hi rs now b (safe_sane _ _ _ _ Hb) Hhi Hne) as (w' & gone & r & Ha & -> & Hs).
  destruct Hb as [Hb Ho Hn Hacc]. destruct Ha as [[FC _ _ _ _] Sq Ok' HB HK ND HD HR HE].
  assert (HCor : corrupted w' = corrupted (spool b)) by (unfold corrupted; cbn in FC; by rewrite FC).
  assert (Hnew : n ∉ gone -> batches w' !! n = batches (spool b) !! n).
  { intros Hng. destruct (stored r && _).
    - destruct HB as (name & (us & z & -> & Hz) & _ & ->). rewrite lookup_insert_ne.
      + by rewrite lookup_without, decide_False.
      + intros <-. rewrite name_seq_batch_name in Ho by (destruct Hb; lia). specialize (Ho z eq_refl). lia.
    - by rewrite HB, lookup_without, decide_False. }
  assert (Hgone : n ∉ gone -> safe (hi + 2) n s (set_spool w' b)).
  { intros Hng. split; [done | | done |].
    - intros z Hz. specialize (Ho z Hz). cbn. lia.
    - unfold accounted, settled in *. cbn. by rewrite Hnew, HCor. }
  destruct (decide (n ∈ gone)) as [Hin|Hin].
  2: { apply (keeps_bind (safe (hi + 2) n s)); [..|by apply Hgone]; intros; apply keeps_when; auto with nm. }
  assert (Hd : (dropped_batches r =? 0) = false).
  { apply Z.eqb_neq. rewrite HD. destruct gone; [set_solver|]. cbn. lia. }
  rewrite Hd. cbn [negb when].
  pose proof (add_event_made (hi + 2) now "spool_dropped"
    [("batches", VInt (dropped_batches r)); ("records", VInt (dropped_records r))] _ Hs) as (E1 & e & He & Ht & _).
  pose proof (stable_add_event (sane (hi + 2)) (sane_stable _) now "spool_dropped"
    [("batches", VInt (dropped_batches r)); ("records", VInt (dropped_records r))] _ Hs) as Hs1.
  set (c := add_event cfg now "spool_dropped" _) in *. destruct (c (set_spool w' b)) as [r1 b1] eqn:Ec.
  cbn in E1, He, Hs1. subst r1. erewrite run_bind by exact Ec. cbn beta iota.
  apply keeps_when; [auto with nm|]. split; [done | | done |].
  - intros z Hz. specialize (Ho z Hz). unfold c in Ec. cbn in Ec. injection Ec as <-. cbn. lia.
  - right. do 3 right. by exists e.
Qed.

(** *** A rejected fresh batch *)

Lemma corrupted_view n s w :
  is_batch_name n = true -> corrupted w !! n = Some s <-> view InCorrupt w !! n = Some s.
Proof.
  intros Hn. unfold view, corrupted. cbn. rewrite map_lookup_filter_Some. cbn. tauto.
Qed.

Lemma safe_quarantine_records hi n s rs b :
  hi + 2 < 10 ^ 6 -> safe hi n s b ->
  exists r w', on_spool (quarantine_records rs) b = (Ok r, set_spool w' b) /\
    safe (hi + 2) n s (set_spool w' b) /\
    (forall name, r = Some name -> all_live rs = false -> filed rs name (set_spool w' b)).
Proof.
  intros Hhi [[Hok Hq Hl] Ho Hn Hacc].
  destruct (quarantine_records_cases rs (spool b)) as (r & w' & E & HB & _ & HS & Hr).
  exists r, w'. split_and!; [by apply on_spool_run | |].
  - split; [split; cbn; [|lia|done] | | done |].
    + eapply seq_ok_mono; [exact Hok | lia|]. by rewrite HB.
    + intros z Hz. specialize (Ho z Hz). cbn. lia.
    + assert (HC : forall x, corrupted (spool b) !! n = Some x -> corrupted w' !! n = Some x).
      { intros x. rewrite !corrupted_view by done. destruct r as [name|]; [|by rewrite Hr].
        destruct Hr as ((us & z & -> & Hz) & HS' & ->). intros Hx. rewrite lookup_insert_ne; [done|].
        intros <-. rewrite name_seq_batch_name in Ho by lia. specialize (Ho z eq_refl). lia. }
      unfold accounted, settled in *. cbn. rewrite HB. naive_solver.
  - intros name -> Hal. destruct Hr as ((us & z & -> & Hz) & _ & HV).
    split; [apply batch_name_visible|]. rewrite is_live_only_batch_name by lia. split; [done|]. split.
    + intros z'. rewrite name_seq_batch_name by lia. intros [= <-]. cbn. lia.
    + right. cbn. rewrite HB. split.
      * destruct (batches (spool b) !! _) eqn:Eb; [|done]. exfalso.
        assert (Hz' : z <= seq (spool b)) by (eapply Hok; [by rewrite Eb; eexists | rewrite name_seq_batch_name by lia; done]). lia.
      * apply corrupted_view; [apply batch_name_visible|]. by rewrite HV, lookup_insert_eq.
Qed.

(** Every sane state is safe for a name that owes nothing. *)
Lemma sane_safe hi b : sane hi b <-> safe hi "x-L.jsonl" "" b.
Proof. split; [|by intros []]. intros H. split; [done | done | done | by right; do 2 right; left]. Qed.

Lemma safe_weaken hi hi' n s b : hi <= hi' -> safe hi n s b -> safe hi' n s b.
Proof. intros Hle [[Hok Hq Hl] Ho Hn Hacc]. split; [split|..]; try done. lia. Qed.

Lemma safe_quarantine_fresh hi n s rs e now :
  hi + 2 < 10 ^ 6 -> hoare (safe hi n s) (_quarantine_fresh cfg rs e now) (fun _ => safe (hi + 2) n s).
Proof.
  intros Hhi b Hb. unfold _quarantine_fresh. destruct rs as [|r0 rs0]; [eapply safe_weaken, Hb; lia|].
  set (rs := r0 :: rs0). destruct (all_live rs).
  - apply stable_add_event; [apply safe_stable|]. eapply safe_weaken, Hb; lia.
  - destruct (safe_quarantine_records hi n s rs b Hhi Hb) as (r & w' & E & Hs & _).
    erewrite run_bind by exact E. by apply stable_add_event; [apply safe_stable|].
Qed.

Lemma placed_quarantine_fresh hi rs e now :
  hi + 2 < 10 ^ 6 -> rs <> [] ->
  hoare (sane hi) (_quarantine_fresh cfg rs e now) (fun _ b => placed rs (made b) b).
Proof.
  intros Hhi Hne b Hb. unfold _quarantine_fresh. destruct rs as [|r0 rs0]; [done|].
  set (rs := r0 :: rs0) in *. destruct (all_live rs) eqn:Eal.
  - match goal with |- context [add_event cfg now ?ty ?d] =>
      destruct (add_event_made hi now ty d b Hb) as (_ & ev & Hin & Ht & Hd) end.
    do 3 right. exists ev. eexists. by split_and!.
  - apply sane_safe in Hb. destruct (safe_quarantine_records hi _ _ rs b Hhi Hb) as (r & w' & E & Hs & Hr).
    erewrite run_bind by exact E. destruct r as [name|].
    + apply (stable_add_event (fun b => placed rs (made b) b)); [apply placed_stable|].
      right; left. exists name. by apply Hr.
    + apply sane_safe in Hs. match goal with |- context [add_event cfg now ?ty ?d] =>
        destruct (add_event_made (hi + 2) now ty d _ Hs) as (_ & ev & Hin & Ht & Hd) end.
      do 3 right. exists ev. eexists. by split_and!.
Qed.

(** *** The attempt *)

(** The state a body of [_attempt] ends in: after an outage nothing has been stored yet. *)
Definition before_fail {A} (P Q : bworld W -> Prop) (r : res A) : bworld W -> Prop :=
  match r with Raise (DatabaseUnavailable _) => P | _ => Q end.

Lemma recover_ok now b : exists b', _recover cfg now b = (Ok tt, b').
Proof.
  unfold _recover. erewrite run_bind by done. cbn beta iota. unfold id.
  destruct (_ || _); cbn [when]; erewrite run_bind by done; by eexists.
Qed.

Lemma quarantine_fresh_ok rs e now b : exists b', _quarantine_fresh cfg rs e now b = (Ok tt, b').
Proof.
  unfold _quarantine_fresh. destruct rs as [|r0 rs]; [by eexists|]. case_match; [by eexists|].
  destruct (quarantine_records_cases (r0 :: rs) (spool b)) as (r & w' & E & _).
  erewrite run_bind by (by apply on_spool_run). by eexists.
Qed.

Lemma reject_fresh_ok rs e now wrote b : exists b', reject_fresh cfg rs e now wrote b = (Ok tt, b').
Proof.
  unfold reject_fresh. destruct wrote; cbn [when].
  - destruct (recover_ok now b) as (b1 & E). erewrite run_bind by exact E. apply quarantine_fresh_ok.
  - erewrite run_bind by done. apply quarantine_fresh_ok.
Qed.

(** The three ways the write of the fresh batch can end. *)
Lemma write_fresh_cases rs now wrote b :
  exists r d, db_write rs now (db b) = (r, d) /\
  match r with
  | Ok res => write_fresh cfg rs now wrote b
              = (Ok tt, set_beyond (counter_update (beyond b) (rows_beyond_retention res))
                          (set_acked (acked b ++ [rs]) (set_db d b)))
  | Raise (DatabaseUnavailable m) =>
      write_fresh cfg rs now wrote b = (Raise (DatabaseUnavailable m), set_db d b)
  | Raise e => exists b', reject_fresh cfg rs e now wrote (set_db d b) = (Ok tt, b') /\
                 write_fresh cfg rs now wrote b = (Raise e, b')
  end.
Proof.
  destruct (db_write rs now (db b)) as [r d] eqn:Ew. exists r, d. split; [done|].
  assert (E : writer_write rs now b = match r with
              | Ok x => (Ok x, set_acked (acked b ++ [rs]) (set_db d b))
              | Raise e => (Raise e, set_db d b) end) by (unfold writer_write; by rewrite Ew).
  unfold write_fresh. destruct r as [res|e].
  - by erewrite run_bind by (erewrite run_try by exact E; done).
  - assert (Hrej : forall e, exists b', reject_fresh cfg rs e now wrote (set_db d b) = (Ok tt, b') /\
              (reject_fresh cfg rs e now wrote ;;; @raise _ write_result e) (set_db d b) = (Raise e, b')).
    { intros e'. destruct (reject_fresh_ok rs e' now wrote (set_db d b)) as (b' & Eb).
      exists b'. split; [done|]. by erewrite run_bind by exact Eb. }
    destruct (Hrej e) as (b' & E1 & E2).
    destruct e; try (exists b'; split; [exact E1|]);
      erewrite run_bind by (erewrite run_try by exact E; cbn beta iota; first [exact E2 | reflexivity]); done.
Qed.

Lemma safe_reject_fresh hi n s rs e now wrote :
  hi + 2 < 10 ^ 6 -> hoare (safe hi n s) (reject_fresh cfg rs e now wrote) (fun _ => safe (hi + 2) n s).
Proof.
  intros Hhi. eapply hoare_bind with (R := fun _ => safe hi n s).
  - eapply hoare_post; [apply keeps_when; auto with nm|].
    intros [] b' Hb'; [done|]. eapply safe_weaken, Hb'; lia.
  - intros u. by apply safe_quarantine_fresh.
Qed.

Lemma safe_write_fresh hi n s rs now wrote :
  hi + 2 < 10 ^ 6 ->
  hoare (safe hi n s) (write_fresh cfg rs now wrote) (before_fail (safe hi n s) (safe (hi + 2) n s)).
Proof.
  intros Hhi b Hb. destruct (write_fresh_cases rs now wrote b) as (r & d & _ & H).
  assert (Hd : safe hi n s (set_db d b)) by (eapply safe_stable, Hb; by split).
  destruct r as [res|e].
  - rewrite H. cbn. eapply safe_weaken, safe_stable, Hb; [lia | split; cbn; try done; set_solver].
  - assert (Hp : forall e b', reject_fresh cfg rs e now wrote (set_db d b) = (Ok tt, b') -> safe (hi + 2) n s b').
    { intros e' b' E. pose proof (safe_reject_fresh hi n s rs e' now wrote Hhi _ Hd) as Hr. by rewrite E in Hr. }
    destruct e; try rewrite H; try done; destruct H as (b' & E1 & E2); rewrite E2; cbn; by eapply Hp.
Qed.

Lemma placed_write_fresh hi rs now wrote :
  hi + 2 < 10 ^ 6 -> rs <> [] ->
  hoare (sane hi) (write_fresh cfg rs now wrote) (before_fail (fun _ => True) (fun b => placed rs (made b) b)).
Proof.
  intros Hhi Hne b Hb. destruct (write_fresh_cases rs now wrote b) as (r & d & _ & H).
  assert (Hd : sane hi (set_db d b)) by (eapply sane_stable, Hb; by split).
  destruct r as [res|e].
  - rewrite H. cbn. left. set_solver.
  - assert (Hp : forall e b', reject_fresh cfg rs e now wrote (set_db d b) = (Ok tt, b') -> placed rs (made b') b').
    { intros e' b' E. pose proof (hoare_bind (when wrote (_recover cfg now)) (fun _ => _quarantine_fresh cfg rs e' now)
        (sane hi) (fun _ => sane hi) (fun _ b => placed rs (made b) b)) as Hh.
      specialize (Hh (fun b Hb => ltac:(destruct wrote; cbn [when];
         [destruct (recover_ok now b) as (b1 & E1); pose proof (stable_recover _ (sane_stable hi) now b Hb) as Hs;
          rewrite E1 in Hs |- *; exact Hs | exact Hb]))).
      specialize (Hh (fun _ => placed_quarantine_fresh hi rs e' now Hhi Hne) _ Hd).
      unfold reject_fresh in E. by rewrite E in Hh. }
    destruct e; try rewrite H; try done; destruct H as (b' & E1 & E2); rewrite E2; cbn; by eapply Hp.
Qed.

Lemma store_ok rs now b : exists b', _store max_bytes cfg rs now b = (Ok tt, b').
Proof.
  unfold _store. destruct rs as [|r0 rs]; [by eexists|]. unfold append.
  assert (H : exists r w, try_except (_append max_bytes (r0 :: rs))
    (fun e => Some (ret (SpoolResult false 0 0 (Some (describe_all e))))) (spool b) = (Ok r, w)).
  { unfold try_except. destruct (_append _ _ _) as [[r|e] w]; by eexists _, _. }
  destruct H as (r & w & E). erewrite run_bind by (apply on_spool_run; exact E). cbn beta iota.
  destruct (negb (dropped_batches r =? 0)), (negb (stored r)); cbn; by eexists.
Qed.

(** [_finish] returns the events made so far and more. *)
Lemma grows_stable b : stable (grows b).
Proof.
  intros b1 b2 [? ? ? ? He2] [? ? ? ? He1].
  split; [congruence.. | set_solver | by etrans].
Qed.

Lemma grows_refl b : grows b b.
Proof. by split. Qed.

Lemma finish_cases now b :
  exists evs b', _finish cfg now b = (Ok evs, b') /\ events b `prefix_of` evs /\ grows b b'.
Proof.
  pose proof (stable_finish _ (grows_stable b) now b (grows_refl b)) as Hg.
  assert (H : exists evs b', _finish cfg now b = (Ok evs, b') /\ events b' `prefix_of` evs).
  { unfold _finish. erewrite run_bind by done. cbn beta iota. set (b1 := set_spool _ _).
    assert (Hf : forall q b1, exists b2, foldM (fun _ nr => add_event cfg now "spool_batch_quarantined"
                       [("file", VStr nr.1); ("error", VStr nr.2)]) tt q b1 = (Ok tt, b2)).
    { induction q as [|x q IH]; intros b2; cbn; [by eexists|]. apply IH. }
    destruct (Hf (quarantined (spool b)) b1) as (b2 & E). erewrite run_bind by exact E.
    cbn beta iota. erewrite run_bind by done. cbn beta iota. unfold id.
    destruct (beyond b2); eexists _, _; (split; [done|]); cbn; [done | by eexists]. }
  destruct H as (evs & b' & E & Hp). rewrite E in Hg. exists evs, b'. split_and!; [done | | done].
  etrans; [apply (gr_events _ _ Hg) | done].
Qed.

(** *** What may be raised, and the state of the outage *)

Definition is_du (e : exn) : bool := match e with DatabaseUnavailable _ => true | _ => false end.

(** [c] raises nothing but an outage. *)
Definition raises_du {A} (c : M (bworld W) A) : Prop :=
  hoare (fun _ => True) c (fun r _ => match r with Ok _ => True | Raise e => is_du e = true end).

Lemma du_ok {A} (c : M (bworld W) A) : (forall b, exists a b', c b = (Ok a, b')) -> raises_du c.
Proof. intros H b _. by destruct (H b) as (a & b' & ->). Qed.
Lemma du_bind {A B} (c : M (bworld W) A) (k : A -> M (bworld W) B) :
  raises_du c -> (forall a, raises_du (k a)) -> raises_du (bind c k).
Proof.
  intros Hc Hk. eapply hoare_bind with (R := fun _ _ => True); [|done].
  eapply hoare_post; [exact Hc|]. by intros [].
Qed.
Lemma du_ret {A} (a : A) : raises_du (ret a).
Proof. done. Qed.
Lemma du_gets {A} (f : bworld W -> A) : raises_du (gets f).
Proof. done. Qed.
Lemma du_modify f : raises_du (modify f).
Proof. done. Qed.
Lemma du_when c k : raises_du k -> raises_du (when c k).
Proof. by destruct c. Qed.
Lemma du_on_spool {A} (c : M sworld A) :
  (forall w, exists a w', c w = (Ok a, w')) -> raises_du (on_spool c).
Proof.
  intros H. apply du_ok. intros b. destruct (H (spool b)) as (a & w' & E). eexists _, _. by apply on_spool_run.
Qed.

Lemma exists_file_ok path w : exists a w', exists_file path w = (Ok a, w').
Proof. unfold exists_file, try_except, bind. destruct (syscall_cases w) as [->|[f ->]]; by eexists _, _. Qed.
Lemma remove_ok path w : exists a w', remove path w = (Ok a, w').
Proof. destruct (remove_cases path w) as (w' & -> & _). by eexists _, _. Qed.
Lemma quarantine_ok path w : exists a w', quarantine path w = (Ok a, w').
Proof. destruct (quarantine_cases path w) as (a & w' & -> & _). by eexists _, _. Qed.
Lemma read_ok path w : exists a w', read path w = (Ok a, w').
Proof. destruct (read_cases path w) as (a & w' & -> & _). by eexists _, _. Qed.
Lemma batch_files_ok w : exists a w', _batch_files w = (Ok a, w').
Proof. destruct (batch_files_cases w) as (w' & _ & [->| ->]); by eexists _, _. Qed.

Lemma du_skip_if_exists path : raises_du (skip_if_exists path).
Proof. repeat (apply du_bind; intros); auto using du_when, du_modify, du_on_spool, exists_file_ok, du_ret. Qed.

Lemma du_quarantine_spooled path now d : raises_du (_quarantine_spooled cfg path now d).
Proof.
  repeat (apply du_bind; intros); try done;
    auto using du_on_spool, quarantine_ok, exists_file_ok, du_when, du_modify, du_ret.
Qed.

Lemma du_replay_batch path now : raises_du (replay_batch cfg path now).
Proof.
  apply du_bind; [apply du_on_spool, read_ok|]. intros [batch|]; [|done]. apply du_bind.
  - intros b _. unfold try_except, bind, writer_write.
    destruct (db_write batch now (db b)) as [[r|e] d]; [done|].
    assert (Hf : raises_du (replay_failed cfg path now e)).
    { unfold replay_failed. destruct e; try apply du_quarantine_spooled.
      apply du_bind. { intros b' _. unfold writer_ping. by destruct (db_ping (db b')). }
      intros [|]; [|done]. apply du_bind; [done|]. intros f. case_match; [done | apply du_quarantine_spooled]. }
    specialize (Hf (set_db d b) I). unfold bind.
    by destruct (replay_failed cfg path now e (set_db d b)) as [[]].
  - intros [r|]; [|done]. repeat (apply du_bind; intros); try done;
      auto using du_on_spool, remove_ok, exists_file_ok, du_when, du_modify, du_ret.
Qed.

Lemma du_replay_loop started sup now files wrote : raises_du (replay_loop cfg started sup now files wrote).
Proof.
  revert wrote. induction files as [|path files IH]; intros wrote; [done|]. cbn [replay_loop].
  apply du_bind; [done|]. intros t. case_match; [done|].
  case_match; apply du_bind; auto using du_replay_batch.
  repeat (apply du_bind; intros); try done;
    auto using du_on_spool, remove_ok, exists_file_ok, du_when, du_modify, du_ret.
  by destruct a1.
Qed.

Lemma du_replay now : raises_du (_replay cfg now).
Proof.
  repeat (apply du_bind; intros); try done; auto using du_on_spool, batch_files_ok, du_replay_loop.
Qed.

(** The state of the outage, and the steps that leave it alone. *)
Definition link b := (connected b, outage_since b, next_retry b, delay b).

Record link_ok b : Prop := LinkOk {
  lk_delay : is_Some (outage_since b) <-> is_Some (delay b);
  lk_retry : is_Some (next_retry b) -> is_Some (outage_since b);
  lk_connected : connected b = true -> next_retry b = None;
  lk_bounds : forall d, delay b = Some d ->
    Z.min (fst (backoff cfg)) (snd (backoff cfg)) <= d <= snd (backoff cfg);
}.

Lemma link_ok_eq b b' : link b' = link b -> link_ok b -> link_ok b'.
Proof. unfold link. intros [= Hc Ho Hn Hd] [H1 H2 H3 H4]. split; rewrite ?Hc, ?Ho, ?Hn, ?Hd; done. Qed.

(** A predicate on the parts of the state that the plumbing of a submit does not touch: the
    spool, the database, the clock, the skip set and the counters may change. *)
Record unplugged (P : bworld W -> Prop) : Prop := Unplugged {
  up_spool : forall w b, P b -> P (set_spool w b);
  up_db : forall d b, P b -> P (set_db d b);
  up_acked : forall rs b, P b -> P (set_acked (acked b ++ [rs]) b);
  up_ticks : forall t b, P b -> P (set_ticks t b);
  up_skip : forall k b, P b -> P (set_skip k b);
  up_failures : forall f b, P b -> P (set_replay_failures f b);
  up_counts : forall x y z b, P b -> P (set_counts x y z b);
  up_beyond : forall y b, P b -> P (set_beyond y b);
}.

Section Plumbing.
Context (P : bworld W -> Prop) (HP : unplugged P) (now : datetime).
Context (Hev : forall ty d, keeps P (add_event cfg now ty d)).

Lemma plumb_on_spool {A} (c : M sworld A) : keeps P (on_spool c).
Proof using HP. intros b Hb. unfold on_spool, zoom. destruct (c (spool b)). by apply HP. Qed.
Lemma plumb_read_clock : keeps P (@read_clock W).
Proof using HP. intros b Hb. by apply HP. Qed.
Lemma plumb_ping : keeps P writer_ping.
Proof using HP. intros b Hb. unfold writer_ping. destruct (db_ping (db b)). by apply HP. Qed.
Lemma plumb_write rs : keeps P (writer_write rs now).
Proof using HP.
  intros b Hb. unfold writer_write. destruct (db_write rs now (db b)) as [[] d]; [|by apply HP].
  apply (up_acked P HP rs (set_db d b)). by apply HP.
Qed.

#[local] Hint Resolve Hev plumb_on_spool plumb_read_clock plumb_ping plumb_write : nm.
#[local] Hint Extern 0 (keeps P (modify _)) =>
  apply keeps_modify; intros; solve [by apply HP | done] : nm.

Lemma plumb_skip_if_exists path : keeps P (@skip_if_exists W path).
Proof using HP. unfold skip_if_exists. auto 8 with nm. Qed.
#[local] Hint Resolve plumb_skip_if_exists : nm.
Lemma plumb_quarantine_spooled path d : keeps P (_quarantine_spooled cfg path now d).
Proof using HP Hev. unfold _quarantine_spooled, pop_failures. auto 8 with nm. Qed.
#[local] Hint Resolve plumb_quarantine_spooled : nm.

Lemma plumb_store rs : keeps P (_store max_bytes cfg rs now).
Proof using HP Hev. unfold _store. destruct rs; auto 8 with nm. Qed.

Lemma plumb_quarantine_fresh rs e : keeps P (_quarantine_fresh cfg rs e now).
Proof using HP Hev. unfold _quarantine_fresh. destruct rs; [auto with nm|]. case_match; auto 8 with nm. Qed.

Lemma plumb_replay_batch path : keeps P (replay_batch cfg path now).
Proof using HP Hev.
  unfold replay_batch. apply keeps_bind; [auto with nm|]. intros [batch|]; [|auto with nm].
  apply keeps_bind; [|intros [r|]; unfold replay_written, pop_failures; auto 12 with nm].
  apply keeps_try; [auto 8 with nm|]. intros e k [= <-]. apply keeps_bind; [|auto with nm].
  unfold replay_failed. destruct e; auto with nm. apply keeps_bind; [auto with nm|].
  intros up. case_match; [auto with nm|]. apply keeps_bind; [auto with nm|]. intros f.
  case_match; auto 8 with nm.
Qed.

Lemma plumb_replay_loop started sup files wrote :
  keeps P (replay_loop cfg started sup now files wrote).
Proof using HP Hev.
  revert wrote. induction files as [|path files IH]; intros wrote; cbn [replay_loop]; [auto with nm|].
  apply keeps_bind; [auto with nm|]. intros t. case_match; [auto with nm|].
  case_match; apply keeps_bind; auto using plumb_replay_batch.
  unfold _drop_superseded, pop_failures. do 3 (apply keeps_bind; [auto with nm|]; intros).
  case_match; auto with nm.
Qed.

Lemma plumb_replay : keeps P (_replay cfg now).
Proof using HP Hev.
  unfold _replay. do 3 (apply keeps_bind; [auto with nm|]; intros). apply plumb_replay_loop.
Qed.

(** With the fields of the outage free too, the whole body of a submit. *)
Context (Hlink : forall c o t d b, P b -> P (set_link c o t d b)).

#[local] Hint Extern 0 (keeps P (modify _)) =>
  apply keeps_modify; intros; solve [by apply Hlink] : nm.

Lemma plumb_recover : keeps P (_recover cfg now).
Proof using HP Hev Hlink. unfold _recover. auto 8 with nm. Qed.
#[local] Hint Resolve plumb_recover plumb_store plumb_quarantine_fresh plumb_replay : nm.

Lemma plumb_fail e rs : keeps P (_fail max_bytes cfg e rs now).
Proof using HP Hev Hlink.
  unfold _fail. apply keeps_bind; [auto with nm|]. intros b. destruct (backoff cfg) as [lo up].
  apply keeps_bind; [|auto 8 with nm]. destruct (outage_since b); [|auto 8 with nm].
  destruct (delay b); auto 8 with nm.
Qed.

Lemma plumb_write_fresh rs wrote : keeps P (write_fresh cfg rs now wrote).
Proof using HP Hev Hlink.
  unfold write_fresh. apply keeps_bind; [|auto 8 with nm]. apply keeps_try; [auto with nm|].
  assert (forall e, keeps P (reject_fresh cfg rs e now wrote ;;; @raise _ write_result e)).
  { intros e. unfold reject_fresh. auto 8 with nm. }
  intros e k. destruct e; intros [= <-]; auto.
Qed.

Lemma plumb_submit_body rs : keeps P (submit_body max_bytes cfg rs now).
Proof using HP Hev Hlink.
  assert (Ha : keeps P (_attempt max_bytes cfg rs now)).
  { unfold _attempt. apply keeps_bind; [|intros [[|]|]; auto with nm]. apply keeps_try.
    - unfold attempt_body. apply keeps_bind; [auto with nm|]. intros [wrote drained].
      case_match; [auto 8 with nm|]. apply keeps_bind; [auto with nm|]. intros outage.
      case_match; auto using plumb_write_fresh with nm.
    - intros e k. destruct e; try done. intros [= <-]. apply keeps_bind; [apply plumb_fail | auto with nm]. }
  unfold submit_body. apply keeps_bind; [auto with nm|]. intros t. repeat case_match; auto with nm.
Qed.
End Plumbing.

Lemma link_unplugged l : unplugged (fun b => link b = l).
Proof. by split. Qed.
Lemma link_add_event l now ty d : keeps (fun b => link b = l) (add_event cfg now ty d).
Proof. by intros b Hb. Qed.

Lemma link_store l rs now : keeps (fun b => link b = l) (_store max_bytes cfg rs now).
Proof. apply plumb_store; [apply link_unplugged | apply link_add_event]. Qed.
Lemma link_quarantine_fresh l rs e now : keeps (fun b => link b = l) (_quarantine_fresh cfg rs e now).
Proof. apply plumb_quarantine_fresh; [apply link_unplugged | apply link_add_event]. Qed.
Lemma link_replay l now : keeps (fun b => link b = l) (_replay cfg now).
Proof. apply plumb_replay; [apply link_unplugged | apply link_add_event]. Qed.
Lemma link_finish l now : keeps (fun b => link b = l) (_finish cfg now).
Proof.
  unfold _finish. apply keeps_bind; [apply plumb_on_spool, link_unplugged|]. intros q.
  apply keeps_bind; [apply keeps_foldM; intros; apply link_add_event|]. intros _.
  apply keeps_bind; [auto with nm|]. intros b. case_match; [auto with nm|].
  apply keeps_bind; [by intros b' Hb' | auto with nm].
Qed.

Lemma recover_link now b : link (_recover cfg now b).2 = (true, None, None, None).
Proof.
  unfold _recover. erewrite run_bind by done. cbn beta iota. unfold id.
  destruct (_ || _); cbn [when]; by erewrite run_bind by done.
Qed.

Lemma link_ok_reset b : link b = (true, None, None, None) -> link_ok b.
Proof.
  unfold link. intros [= Hc Ho Hn Hd]. split; rewrite ?Hc, ?Ho, ?Hn, ?Hd; try done; by split; intros [].
Qed.

Lemma reject_fresh_link rs e now wrote b :
  link_ok b -> link_ok (reject_fresh cfg rs e now wrote b).2.
Proof.
  intros Hb. unfold reject_fresh.
  assert (H1 : exists b1, when wrote (_recover cfg now) b = (Ok tt, b1) /\ link_ok b1).
  { destruct wrote; cbn [when]; [|by eexists]. destruct (recover_ok now b) as (b1 & E).
    exists b1. split; [done|]. apply link_ok_reset. rewrite <- (recover_link now b). by rewrite E. }
  destruct H1 as (b1 & E1 & H1). erewrite run_bind by exact E1.
  eapply link_ok_eq, H1. by apply (link_quarantine_fresh (link b1)).
Qed.

Lemma write_fresh_link rs now wrote b : link_ok b -> link_ok (write_fresh cfg rs now wrote b).2.
Proof.
  intros Hb. destruct (write_fresh_cases rs now wrote b) as (o & d & _ & H).
  assert (Hrej : forall e b1, reject_fresh cfg rs e now wrote (set_db d b) = (Ok tt, b1) -> link_ok b1).
  { intros e b1 E. pose proof (reject_fresh_link rs e now wrote (set_db d b)) as Hr. rewrite E in Hr.
    apply Hr. by eapply link_ok_eq, Hb. }
  destruct o as [res|e]; [rewrite H; by eapply link_ok_eq, Hb|].
  destruct e; try (destruct H as (b1 & E1 & ->); by eapply Hrej).
  rewrite H. by eapply link_ok_eq, Hb.
Qed.

(** *** One submit *)

Section Submit.
Context (hi : Z) (n s : string) (rs : list record) (now : datetime).
Context (Hhi : hi + 2 < 10 ^ 6) (Hback : 0 <= fst (backoff cfg) /\ 0 <= snd (backoff cfg)).

(** Before the fresh batch is dealt with, and after. *)
Definition good b : Prop := safe hi n s b /\ link_ok b.
Definition dealt b : Prop := safe (hi + 2) n s b /\ link_ok b /\ (rs <> [] -> placed rs (made b) b).

Lemma dealt_grows b b' : grows b b' -> link b' = link b -> dealt b -> dealt b'.
Proof.
  intros Hg Hl (H1 & H2 & H3). split_and!; [by eapply safe_stable | by eapply link_ok_eq|].
  intros Hne. by eapply placed_stable, H3.
Qed.

Lemma good_dealt_nothing b : rs = [] -> good b -> dealt b.
Proof. intros -> [H1 H2]. split_and!; [eapply safe_weaken, H1; lia | done | done]. Qed.

Lemma store_dealt : hoare good (_store max_bytes cfg rs now) (fun _ => dealt).
Proof using Hhi.
  intros b [H1 H2]. split_and!.
  - by apply safe_store.
  - eapply link_ok_eq, H2. by apply (link_store (link b)).
  - intros Hne. apply (store_placed hi rs now Hhi Hne b). apply H1.
Qed.

Lemma fail_dealt e : hoare good (_fail max_bytes cfg e rs now) (fun _ => dealt).
Proof using Hhi Hback.
  intros b [H1 H2]. unfold _fail. erewrite run_bind by done. cbn beta iota. unfold id.
  destruct (backoff cfg) as [lo up] eqn:Eb. cbn in Hback.
  assert (Hlast : forall b1, grows b b1 -> connected b1 = false -> is_Some (outage_since b1) -> is_Some (delay b1) ->
            (forall d, delay b1 = Some d -> Z.min lo up <= d <= up) ->
            dealt (_store max_bytes cfg rs now (set_link (connected b1) (outage_since b1)
               (Some (add_us now (default 0 (delay b1)))) (delay b1) b1)).2).
  { intros b1 Hg Hc Ho Hd Hbd. apply store_dealt. split.
    - eapply safe_stable, H1. destruct Hg. by split.
    - split; cbn; [done | done | by rewrite Hc | by rewrite Eb]. }
  destruct (outage_since b) as [since|] eqn:Eo.
  - destruct H2 as [Hd _ _ Hb]. rewrite Eo in Hd. destruct Hd as [Hd _]. destruct (Hd (ex_intro _ _ eq_refl)) as [d Ed].
    rewrite Ed. erewrite run_bind by done. cbn beta iota. erewrite run_bind by done. cbn beta iota.
    apply Hlast; [by split | done | by eexists | by eexists|]. cbn. intros d' [= <-].
    specialize (Hb d Ed). rewrite Eb in Hb. cbn in Hb. lia.
  - erewrite run_bind by done. cbn beta iota. erewrite run_bind by done. cbn beta iota.
    apply Hlast; [split; cbn; try done; by eexists | done | by eexists | by eexists|].
    cbn. intros d' [= <-]. lia.
Qed.

Lemma recover_dealt : keeps dealt (_recover cfg now).
Proof.
  intros b (H1 & H2 & H3). split_and!.
  - by apply stable_recover; [apply safe_stable|].
  - apply link_ok_reset, recover_link.
  - intros Hne. apply (stable_recover (fun b => placed rs (made b) b)); [apply placed_stable | by apply H3].
Qed.

Definition body_post {A} (r : res A) : bworld W -> Prop :=
  match r with Raise e => if is_du e then good else dealt | Ok _ => dealt end.

Lemma write_fresh_dealt wrote : hoare good (write_fresh cfg rs now wrote) body_post.
Proof using Hhi.
  intros b [H1 H2].
  pose proof (write_fresh_link rs now wrote b H2) as Hlink.
  pose proof (safe_write_fresh hi n s rs now wrote Hhi b H1) as Hs.
  assert (Hp : rs <> [] -> before_fail (fun _ => True) (fun b => placed rs (made b) b)
                 (write_fresh cfg rs now wrote b).1 (write_fresh cfg rs now wrote b).2).
  { intros Hne. apply (placed_write_fresh hi); [done | done | apply H1]. }
  destruct (write_fresh cfg rs now wrote b) as [[[]|e] b'] eqn:E; cbn in Hs, Hp, Hlink |- *.
  - by split_and!.
  - destruct e; by split_and!.
Qed.

Lemma attempt_body_dealt : hoare good (attempt_body max_bytes cfg rs now) body_post.
Proof using Hhi.
  unfold attempt_body. eapply hoare_bind with (R := fun _ => good).
  - intros b [H1 H2]. pose proof (du_replay now b I) as Hdu.
    pose proof (safe_replay hi n s now b H1) as Hs. pose proof (link_replay (link b) now b eq_refl) as Hl.
    destruct (_replay cfg now b) as [[a|e] b']; cbn in *.
    + split; [done | by eapply link_ok_eq].
    + rewrite Hdu. split; [done | by eapply link_ok_eq].
  - intros [wrote drained]. destruct (negb drained).
    + eapply hoare_bind with (R := fun _ => good).
      * intros b [H1 H2]. destruct wrote; [|by split]. cbn. split; [eapply safe_stable, H1; by split|].
        destruct H2 as [? ? ? ?]. split; cbn; try done.
      * intros u. eapply hoare_bind with (R := fun _ => dealt); [|by intros v b].
        intros b Hb. pose proof (store_dealt b Hb) as Hd.
        pose proof (store_ok rs now b) as (b' & E). by rewrite E in Hd |- *.
    + eapply hoare_bind with (R := fun _ => good); [by intros b|]. intros outage.
      case_match eqn:Ec.
      * eapply hoare_bind with (R := fun _ => dealt); [|by intros v b].
        eapply hoare_post; [apply write_fresh_dealt|]. by intros [].
      * intros b Hb. cbn. apply good_dealt_nothing; [|done]. by destruct rs.
Qed.

Lemma attempt_dealt : hoare good (_attempt max_bytes cfg rs now) (fun _ => dealt).
Proof using Hhi Hback.
  unfold _attempt. eapply hoare_bind with (R := fun _ => dealt).
  - eapply hoare_try with (R := fun e b => if is_du e then good b else dealt b).
    + eapply hoare_post; [apply attempt_body_dealt|]. intros [] b; cbn; [done|]. by destruct (is_du e).
    + intros e k. destruct e; try done. intros [= <-].
      eapply hoare_bind with (R := fun _ => dealt); [|by intros v b].
      eapply hoare_post; [apply fail_dealt|]. by intros [].
    + by intros [] b.
  - intros [[|]|]; [apply recover_dealt | by intros b..].
Qed.
End Submit.
End Conservation.

(** The events a submit made, returned by it or carried to the next one. *)
Definition reported {W} (b : bworld W) (out : res (list record)) (b' : bworld W) : list record :=
  drop (length (carried b)) (match out with Ok evs => evs | Raise _ => carried b' end).

Section SubmitTheorem.
Context {W : Type} {WR : Writer W} {JT : JsonText} (max_bytes : Z) (cfg : settings).
Implicit Types (b : bworld W).

(** The state the body of a submit starts in. *)
Definition entered b : bworld W :=
  set_event_counts [] (set_events (carried b) (set_carried [] (set_beyond [] b))).

Lemma submit_cases rs now b :
  is_aware now = true ->
  exists r b1 evs out b',
    submit_body max_bytes cfg rs now (entered b) = (r, b1) /\
    submit max_bytes cfg rs now b = (out, b') /\
    out = match r with Ok _ => Ok evs | Raise e => Raise e end /\
    events b1 `prefix_of` evs /\ grows b1 b' /\ link b' = link b1 /\
    reported b out b' = drop (length (carried b)) evs.
Proof.
  intros Ha. unfold submit, require_aware. rewrite Ha. erewrite run_bind by done. cbn beta iota.
  fold (entered b). destruct (submit_body max_bytes cfg rs now (entered b)) as [r b1] eqn:E1.
  destruct (finish_cases cfg now b1) as (evs & b2 & E2 & Hp & Hg).
  pose proof (link_finish cfg (link b1) now b1 eq_refl) as Hl. rewrite E2 in Hl.
  destruct r as [[]|e].
  - erewrite run_bind by (erewrite run_try by exact E1; done). cbn beta iota.
    eexists _, _, evs, _, _. split_and!; try done; apply Hg.
  - erewrite run_bind by (erewrite run_try by exact E1; cbn beta iota; by erewrite run_bind by exact E2).
    cbn. eexists _, _, evs, _, _. split_and!; try done. destruct Hg. by split.
Qed.

Lemma submit_body_dealt hi n s rs now b :
  hi + 2 < 10 ^ 6 -> 0 <= fst (backoff cfg) /\ 0 <= snd (backoff cfg) ->
  good cfg (length (carried b)) hi n s (entered b) ->
  dealt cfg (length (carried b)) hi n s rs (submit_body max_bytes cfg rs now (entered b)).2.
Proof.
  intros Hhi Hback Hg. unfold submit_body. erewrite run_bind by done. cbn beta iota.
  repeat case_match; first [by apply attempt_dealt | by apply store_dealt].
Qed.

Lemma accounted_grows n s b b' evs evs' :
  grows b b' -> evs ⊆ evs' -> accounted n s evs b -> accounted n s evs' b'.
Proof.
  intros [HB HC _ Ha _] He. unfold accounted, settled. rewrite HB, HC.
  intros [H|[H|[(rs & Hp & H)|[H|H]]]]; eauto 8 using has_event_mono.
Qed.

Lemma placed_grows rs b b' evs evs' :
  grows b b' -> evs ⊆ evs' -> placed rs evs b -> placed rs evs' b'.
Proof.
  intros [HB HC HS Ha _] He. unfold placed, filed. rewrite HB, HC, HS.
  intros [H|[H|[H|(r & d & Hr & H)]]]; eauto 8 using has_event_mono.
  do 3 right. exists r, d. eauto.
Qed.

(** A batch name the spool will not use again. *)
Definition known (n : string) b : Prop :=
  is_batch_name n = true /\ forall z, name_seq n = Some z -> z <= seq (spool b).

Lemma known_spooled n s b : seq_ok (spool b) -> batches (spool b) !! n = Some s -> known n b.
Proof.
  intros Hok Hn. split; [by apply map_lookup_filter_Some in Hn as [_ ?]|].
  intros z Hz. eapply Hok; [by rewrite Hn; eexists | done].
Qed.

Lemma known_none b : known "x-L.jsonl" b.
Proof. done. Qed.
Lemma accounted_none evs b : accounted "x-L.jsonl" "" evs b.
Proof. by right; do 2 right; left. Qed.

(** The outcome of a submit for one stored batch and the fresh records. *)
Lemma submit_dealt rs now b n s :
  is_aware now = true -> seq_ok (spool b) -> 0 <= seq (spool b) -> seq (spool b) + 2 < 10 ^ 6 ->
  link_ok cfg b -> 0 <= fst (backoff cfg) /\ 0 <= snd (backoff cfg) ->
  known n b -> accounted n s [] b ->
  exists out b', submit max_bytes cfg rs now b = (out, b') /\
    accounted n s (reported b out b') b' /\ (rs <> [] -> placed rs (reported b out b') b') /\
    link_ok cfg b' /\ seq_ok (spool b') /\ 0 <= seq (spool b') <= seq (spool b) + 2 /\ known n b'.
Proof.
  intros Ha Hok H0 Hmax Hl Hback [Hn Hz] Hacc.
  destruct (submit_cases rs now b Ha) as (r & b1 & evs & out & b' & E1 & E & _ & Hp & Hg & Hl' & Hr).
  pose proof (submit_body_dealt (seq (spool b)) n s rs now b Hmax Hback) as Hd. rewrite E1 in Hd.
  destruct Hd as (Hs & Hlk & Hpl).
  { split; [|by eapply link_ok_eq, Hl]. split; [split; cbn; [done | lia | done] | done | done |].
    unfold made. cbn. by rewrite drop_all. }
  assert (Hsub : made (length (carried b)) b1 ⊆ reported b out b').
  { rewrite Hr. destruct Hp as [l ->]. unfold made. rewrite drop_app. set_solver. }
  exists out, b'. split_and!; [done | | | by eapply link_ok_eq | | | |].
  - eapply accounted_grows; [done..|apply Hs].
  - intros Hne. eapply placed_grows; [done..|by apply Hpl].
  - eapply seq_ok_mono; [apply Hs | by rewrite (gr_seq _ _ Hg) | by rewrite (gr_batches _ _ Hg)].
  - rewrite (gr_seq _ _ Hg). apply Hs.
  - rewrite (gr_seq _ _ Hg). apply Hs.
  - split; [done|]. intros z Hz'. rewrite (gr_seq _ _ Hg). by eapply safe_old.
Qed.

(** What the database accepted stays accepted. *)
Lemma submit_acked g rs now : keeps (fun b => g ∈ acked b) (submit max_bytes cfg rs now).
Proof.
  intros b Hb. destruct (is_aware now) eqn:Ha; [|unfold submit, require_aware; by rewrite Ha].
  destruct (submit_cases rs now b Ha) as (r & b1 & evs & out & b' & E1 & E & _ & _ & Hg & _).
  assert (Hu : unplugged (fun b : bworld W => g ∈ acked b)) by (split; cbn; intros; set_solver).
  pose proof (plumb_submit_body max_bytes cfg _ Hu now ltac:(by intros ? ? ? ?) ltac:(done) rs (entered b) Hb) as H.
  rewrite E1 in H. cbv beta in H |- *. rewrite E. by apply (gr_acked _ _ Hg).
Qed.
End SubmitTheorem.

(** ** Events of one submit have distinct keys *)

(** The part of an event's natural key that varies within a submit. *)
Definition event_key (r : record) : value * value := (dget_or_none "ts" (row r), event_type_of r).

Section EventKeys.
Context {W : Type} {WR : Writer W} {JT : JsonText} (max_bytes : Z) (cfg : settings) (now : datetime).

Definition nth_key (i : Z) (ty : string) : value * value := (VTime (add_us now i), VStr ty).

(** The keys made since [old] are distinct and below the counters. *)
Record keyed (old : nat) (evs : list record) (counts : list (string * Z)) : Prop := Keyed {
  ky_old : (old <= length evs)%nat;
  ky_nodup : NoDup (map event_key (drop old evs));
  ky_below : forall k, k ∈ map event_key (drop old evs) ->
    exists i ty, k = nth_key i ty /\ 0 <= i < default 0 (dget ty counts);
  ky_nonneg : forall ty, 0 <= default 0 (dget ty counts);
}.

Lemma keyed_event old evs counts ty d :
  keyed old evs counts ->
  let nth := default 0 (dget ty counts) in
  keyed old
    (evs ++ [Record_ COLLECTION_EVENT
        [("system", VStr (system cfg)); ("node", VNone); ("ts", VTime (add_us now nth));
         ("event_type", VStr ty); ("detail", VDict d)]])
    (dset ty (nth + 1) counts).
Proof.
  intros [Ho Hn Hb Hp] nth. specialize (Hp ty) as Hnth. fold nth in Hnth.
  assert (Hcount : forall t, default 0 (dget t counts) <= default 0 (dget t (dset ty (nth + 1) counts))).
  { intros t. rewrite dget_dset. case_decide as E; [subst t; fold nth; cbn; lia | lia]. }
  split.
  - rewrite length_app. lia.
  - rewrite drop_app_le by done. rewrite map_app. apply NoDup_app. split_and!; [done | | apply NoDup_singleton].
    intros k Hk Hk2. apply list_elem_of_singleton in Hk2 as ->.
    destruct (Hb _ Hk) as (i & t & E & Hi). cbn in E. injection E as E Et. subst t. fold nth in Hi. lia.
  - rewrite drop_app_le by done. rewrite map_app. intros k [Hk|Hk]%elem_of_app.
    + destruct (Hb k Hk) as (i & t & -> & Hi). exists i, t. split; [done|]. specialize (Hcount t). lia.
    + apply list_elem_of_singleton in Hk as ->. exists nth, ty. split; [done|].
      rewrite dget_dset_eq. cbn. lia.
  - intros t. specialize (Hp t). specialize (Hcount t). lia.
Qed.

Definition keyed_state (old : nat) (b : bworld W) : Prop := keyed old (events b) (event_counts b).

Lemma keyed_unplugged old : unplugged (keyed_state old).
Proof. by split. Qed.

Lemma keyed_add_event old ty d : keeps (keyed_state old) (add_event cfg now ty d).
Proof. intros b Hb. cbn. by apply (keyed_event old (events b) (event_counts b)). Qed.

Lemma keyed_finish old b :
  keyed_state old b ->
  exists evs b', _finish cfg now b = (Ok evs, b') /\ NoDup (map event_key (drop old evs)).
Proof.
  intros Hb. unfold _finish. erewrite run_bind by done. cbn beta iota. set (b1 := set_spool _ _).
  assert (Hf : forall q b1, keyed_state old b1 -> exists b2,
     foldM (fun _ nr => add_event cfg now "spool_batch_quarantined"
              [("file", VStr nr.1); ("error", VStr nr.2)]) tt q b1 = (Ok tt, b2) /\ keyed_state old b2).
  { induction q as [|x q IH]; intros b2 Hb2; cbn; [by eexists|].
    apply IH. by apply (keyed_event old (events b2) (event_counts b2)). }
  destruct (Hf (quarantined (spool b)) b1 Hb) as (b2 & E & Hb2). erewrite run_bind by exact E.
  cbn beta iota. erewrite run_bind by done. cbn beta iota. unfold id.
  destruct (beyond b2) as [|y ys]; eexists _, _; (split; [done|]); [apply Hb2|].
  eapply ky_nodup, (keyed_event old (events b2) (event_counts b2)), Hb2.
Qed.
End EventKeys.

(** ** Nothing readable is left behind when the spool is drained *)

Section Drained.
Context {W : Type} {WR : Writer W} {JT : JsonText} (cfg : settings).
Implicit Types (b : bworld W).

(** Every stored batch is still to be replayed, or cannot be. *)
Definition pending_or_set_aside (files : list string) b : Prop :=
  quiet (spool b) /\
  forall n, is_Some (batches (spool b) !! n) -> n ∈ files \/ n ∈ skip b \/ n ∈ stuck (spool b).

(** What a step does to the spool: it may remove, and may set aside. *)
Record shrinks b b' : Prop := Shrinks {
  sh_env : env (spool b') = env (spool b);
  sh_batches : forall n, is_Some (batches (spool b') !! n) -> is_Some (batches (spool b) !! n);
  sh_skip : skip b ⊆ skip b';
  sh_stuck : stuck (spool b) ⊆ stuck (spool b');
}.

#[export] Instance shrinks_refl : Reflexive shrinks.
Proof. by intros b. Qed.
#[export] Instance shrinks_trans : Transitive shrinks.
Proof. intros b1 b2 b3 [? ? ? ?] [? ? ? ?]. split; [congruence | auto | set_solver | set_solver]. Qed.

Lemma pending_shrinks files b b' :
  shrinks b b' -> pending_or_set_aside files b -> pending_or_set_aside files b'.
Proof.
  intros [He Hb Hk Hs] [Hq H]. split; [intros i; by rewrite He|].
  intros n Hn. destruct (H n (Hb n Hn)) as [?|[?|?]]; set_solver.
Qed.

(** The path at the head is dealt with once it is gone or set aside. *)
Lemma pending_tail path files b :
  pending_or_set_aside (path :: files) b ->
  batches (spool b) !! path = None \/ path ∈ skip b \/ path ∈ stuck (spool b) ->
  pending_or_set_aside files b.
Proof.
  intros [Hq H] Hp. split; [done|]. intros n Hn. destruct (H n Hn) as [[->|?]%elem_of_cons|?]; [|by left|by right].
  destruct Hp as [Hp|Hp]; [by rewrite Hp in Hn; destruct Hn | by right].
Qed.

Lemma shrinks_remove path b :
  exists b', on_spool (remove path) b = (Ok tt, b') /\ shrinks b b'.
Proof.
  destruct (remove_cases path (spool b)) as (w & E & _ & _ & He & Hs & HB).
  unfold on_spool, zoom. rewrite E. eexists. split; [done|]. split; cbn; [done | | done | by rewrite Hs].
  intros n. destruct HB as [->| ->]; [done|]. intros [x Hx].
  apply lookup_delete_Some in Hx as [_ ?]. by eexists.
Qed.

Lemma skip_if_exists_aside path b :
  quiet (spool b) ->
  exists e b', skip_if_exists path b = (Ok e, b') /\ shrinks b b' /\
    (batches (spool b') !! path = None \/ path ∈ skip b').
Proof.
  intros Hq. unfold skip_if_exists, on_spool, zoom, exists_file, try_except.
  assert (E : (syscall ;;; let* d := gets dir in
     ret (match d with Some m => bool_decide (is_Some (m !! path)) | None => false end)) (spool b)
     = (Ok (bool_decide (is_Some (default ∅ (dir (spool b)) !! path))), tick (spool b))).
  { unfold bind. rewrite syscall_quiet by done. unfold gets. cbn. by destruct (dir (spool b)). }
  unfold bind at 1. rewrite E. case_bool_decide as Hin; cbn.
  - eexists _, _. split; [done|]. split; [split; [done | intros n Hn; exact Hn | cbn; set_solver | done] | right; cbn; set_solver].
  - eexists _, _. split; [done|]. split; [by split|]. left. cbn.
    apply map_lookup_filter_None. left. apply eq_None_not_Some. done.
Qed.

Lemma shrinks_quarantine path b :
  exists e b', on_spool (quarantine path) b = (Ok e, b') /\ shrinks b b'.
Proof.
  destruct (quarantine_cases path (spool b)) as (e & w & E & H). unfold on_spool, zoom. rewrite E.
  eexists _, _. split; [done|]. destruct e.
  - destruct H as [_ HB _ He _ _ Hs]. split; cbn; [done | | done | by rewrite Hs].
    rewrite HB. intros n [x Hx]. apply lookup_delete_Some in Hx as [_ ?]. by eexists.
  - destruct H as [HB _ _ He _ _ Hs]. split; cbn; [done | by rewrite HB | done | by rewrite Hs].
Qed.

Lemma quiet_shrinks b b' : shrinks b b' -> quiet (spool b) -> quiet (spool b').
Proof. intros [He _ _ _] Hq i. by rewrite He. Qed.

(** A step that ends by setting its path aside finishes with it. *)
Lemma aside_tail {A} path files (c : M (bworld W) A) (k : bool -> M (bworld W) unit) b :
  (forall b, exists a b', c b = (Ok a, b') /\ shrinks b b') ->
  (forall e b, exists r b', k e b = (r, b') /\ shrinks b b') ->
  pending_or_set_aside (path :: files) b ->
  exists r b', (c ;;; let* e := skip_if_exists path in k e) b = (r, b') /\ pending_or_set_aside files b'.
Proof.
  intros Hc Hk Hp. destruct (Hc b) as (a & b1 & E1 & S1). erewrite run_bind by exact E1. cbn beta iota.
  assert (P1 : pending_or_set_aside (path :: files) b1) by (by eapply pending_shrinks).
  destruct (skip_if_exists_aside path b1) as (e & b2 & E2 & S2 & Ha); [apply P1|].
  erewrite run_bind by exact E2. destruct (Hk e b2) as (r & b3 & E3 & S3). rewrite E3.
  eexists _, _. split; [done|]. eapply pending_shrinks; [exact S3|].
  apply (pending_tail path); [by eapply pending_shrinks|]. tauto.
Qed.

Lemma drained_drop_superseded path files b :
  pending_or_set_aside (path :: files) b ->
  exists r b', _drop_superseded path b = (r, b') /\ pending_or_set_aside files b'.
Proof.
  intros Hp. unfold _drop_superseded.
  destruct (aside_tail path files (pop_failures path ;;; on_spool (remove path))
    (fun e => if e then ret tt else modify (fun b => set_counts (replayed_batches b) (replayed_records b) (superseded_batches b + 1) b)) b)
    as (r & b' & E & H); [..|done|].
  - intros b1. erewrite run_bind by done. cbn beta iota.
    destruct (shrinks_remove path (set_replay_failures (ddel path (replay_failures b1)) b1)) as (b2 & E & [? ? ? ?]).
    exists tt, b2. split; [done|]. by split.
  - intros [|] b1; eexists _, _; (split; [done|]); by split.
  - exists r, b'. split; [|done]. rewrite <- E. unfold bind. by repeat case_match.
Qed.

Lemma drained_quarantine_spooled path files now d b :
  pending_or_set_aside (path :: files) b ->
  exists r b', _quarantine_spooled cfg path now d b = (r, b') /\ pending_or_set_aside files b'.
Proof.
  intros Hp. unfold _quarantine_spooled.
  destruct (aside_tail path files (pop_failures path ;;; on_spool (quarantine path))
    (fun _ => add_event cfg now "spool_batch_quarantined" (dmerge [("file", VStr path)] d)) b)
    as (r & b' & E & H); [..|done|].
  - intros b1. erewrite run_bind by done. cbn beta iota.
    destruct (shrinks_quarantine path (set_replay_failures (ddel path (replay_failures b1)) b1)) as (e & b2 & E & [? ? ? ?]).
    exists e, b2. split; [done|]. by split.
  - intros e b1. eexists _, _. split; [done|]. by split.
  - exists r, b'. split; [|done]. rewrite <- E. unfold bind. by repeat case_match.
Qed.
End Drained.

Section Backlog.
Context {W : Type} {WR : Writer W} {JT : JsonText} (cfg : settings).
Implicit Types (b : bworld W).

Lemma drained_read path files b :
  pending_or_set_aside (path :: files) b ->
  exists batch b', on_spool (read path) b = (Ok batch, b') /\
    pending_or_set_aside (path :: files) b' /\ (batch = None -> pending_or_set_aside files b').
Proof.
  intros Hp. destruct (read_cases path (spool b)) as (r & w & E & H).
  unfold on_spool, zoom. rewrite E. exists r, (set_spool w b). split; [done|].
  assert (Hs : shrinks b (set_spool w b)).
  { destruct r as [rs|].
    - destruct H as ([HB _ _ He _ _ Hs] & _). split; cbn; [done | by rewrite HB | done | by rewrite Hs].
    - destruct H as [[_ ->]|[_ Hst _ He _]]; [by split|]. split; cbn; [done | | done |];
        destruct Hst as [(HB & _ & Hs)|(s & _ & HB & _ & Hs)]; rewrite ?HB, ?Hs; try done; try set_solver.
      intros n [x Hx]. apply lookup_delete_Some in Hx as [_ ?]. by eexists. }
  split; [by eapply pending_shrinks|]. intros ->.
  apply (pending_tail path); [by eapply pending_shrinks|]. cbn.
  destruct H as [[? ->]|[_ Hst _ _ _]]; [by right; right|].
  destruct Hst as [(_ & _ & ->)|(s & _ & -> & _ & _)]; [right; right; set_solver | left; apply lookup_delete_eq].
Qed.

Lemma drained_replay_written path files batch r b :
  pending_or_set_aside (path :: files) b ->
  exists x b', replay_written path batch r b = (x, b') /\ pending_or_set_aside files b'.
Proof.
  intros Hp. unfold replay_written.
  destruct (aside_tail path files (pop_failures path ;;; on_spool (remove path))
    (fun _ => modify (fun b => set_counts (replayed_batches b + 1)
                     (replayed_records b + Z.of_nat (length batch)) (superseded_batches b) b) ;;;
     modify (fun b => set_beyond (counter_update (beyond b) (rows_beyond_retention r)) b)) b)
    as (x & b' & E & H); [..|done|].
  - intros b1. erewrite run_bind by done. cbn beta iota.
    destruct (shrinks_remove path (set_replay_failures (ddel path (replay_failures b1)) b1)) as (b2 & E & [? ? ? ?]).
    exists tt, b2. split; [done|]. by split.
  - intros e b1. eexists _, _. split; [done|]. by split.
  - exists x, b'. split; [|done]. rewrite <- E. unfold bind. by repeat case_match.
Qed.

Lemma drained_replay_failed path files now e b b' :
  pending_or_set_aside (path :: files) b -> replay_failed cfg path now e b = (Ok tt, b') ->
  pending_or_set_aside files b'.
Proof.
  intros Hp. assert (Hq : forall d b1, pending_or_set_aside (path :: files) b1 ->
    _quarantine_spooled cfg path now d b1 = (Ok tt, b') -> pending_or_set_aside files b').
  { intros d b1 Hp1 E. destruct (drained_quarantine_spooled cfg path files now d b1 Hp1) as (r & b2 & E2 & H).
    rewrite E in E2. by injection E2 as <- <-. }
  unfold replay_failed. destruct e; try (by apply Hq).
  unfold writer_ping, bind. destruct (db_ping (db b)) as [up d]. cbn.
  destruct up; cbn; [|done]. case_match; [done|]. apply Hq. eapply pending_shrinks, Hp. by split.
Qed.

Lemma drained_replay_batch path files now b w b' :
  pending_or_set_aside (path :: files) b -> replay_batch cfg path now b = (Ok w, b') ->
  pending_or_set_aside files b'.
Proof.
  intros Hp E. unfold replay_batch in E.
  destruct (drained_read path files b Hp) as (batch & b1 & E1 & P1 & N1). erewrite run_bind in E by exact E1.
  destruct batch as [batch|]; [|injection E as <- <-; by apply N1].
  unfold try_except, writer_write, bind at 1 2 in E.
  destruct (db_write batch now (db b1)) as [[r|e] d]; cbn -[replay_written replay_failed] in E.
  - unfold bind in E. set (b2 := set_acked _ _) in E.
    destruct (drained_replay_written path files batch r b2) as (x & b3 & E3 & H).
    { eapply pending_shrinks, P1. by split. }
    rewrite E3 in E. destruct x; [|done]. by injection E as <- <-.
  - unfold bind in E. destruct (replay_failed cfg path now e (set_db d b1)) as [[[]|e'] b3] eqn:E3; [|done].
    injection E as <- <-. eapply drained_replay_failed, E3. eapply pending_shrinks, P1. by split.
Qed.

Lemma drained_loop started sup now files wrote b w b' :
  pending_or_set_aside files b -> replay_loop cfg started sup now files wrote b = (Ok (w, true), b') ->
  pending_or_set_aside [] b'.
Proof.
  revert wrote b. induction files as [|path files IH]; intros wrote b Hp E; cbn [replay_loop] in E.
  { by injection E as <- <-. }
  erewrite run_bind in E by done. cbn beta iota in E.
  assert (P1 : pending_or_set_aside (path :: files) (set_ticks (S (ticks b)) b)).
  { eapply pending_shrinks, Hp. by split. }
  destruct (_ <=? _); [done|]. case_bool_decide.
  - destruct (drained_drop_superseded path files _ P1) as (r & b2 & E2 & P2).
    erewrite run_bind in E by exact E2. destruct r; [|done]. by eapply IH.
  - unfold bind in E. destruct (replay_batch cfg path now _) as [[wr|e] b2] eqn:E2; [|done].
    eapply IH, E. by eapply drained_replay_batch.
Qed.

Lemma drained_replay now b w b' :
  quiet (spool b) -> _replay cfg now b = (Ok (w, true), b') -> pending_or_set_aside [] b'.
Proof.
  intros Hq E. unfold _replay in E. erewrite run_bind in E by done. cbn beta iota in E.
  set (b1 := set_ticks _ _) in E.
  assert (Hl : exists names, _batch_files (spool b1) = (Ok names, tick (spool b1)) /\
            forall n, is_Some (batches (spool b1) !! n) -> n ∈ names).
  { destruct (dir (spool b)) as [m|] eqn:Ed.
    - exists (listing (spool b1)). split; [by apply batch_files_quiet; [|by eexists]|].
      intros n. by rewrite elem_of_listing.
    - exists []. split.
      + unfold _batch_files, try_except, bind. rewrite syscall_quiet by done.
        unfold files_in, bind, gets. cbn. by rewrite Ed.
      + intros n. unfold batches. cbn. rewrite Ed. cbn. rewrite map_filter_empty, lookup_empty. by intros []. }
  destruct Hl as (names & El & Hn).
  erewrite run_bind in E by (unfold on_spool, zoom; rewrite El; reflexivity). cbn beta iota in E.
  erewrite run_bind in E by done. cbn beta iota in E. eapply drained_loop, E.
  split; [done|]. intros n Hb. destruct (decide (n ∈ skip b)) as [Hs|Hs]; [by right; left|].
  left. apply list_elem_of_filter. split; [done|]. by apply Hn.
Qed.
End Backlog.

(** ** What submit can raise *)

Section Raises.
Context {W : Type} {WR : Writer W} {JT : JsonText} (max_bytes : Z) (cfg : settings).
Implicit Types (b : bworld W).

(** The writer refused the fresh batch, and not because of an outage. *)
Definition rejected (rs : list record) (now : datetime) (e : exn) : Prop :=
  is_du e = false /\ exists d d', db_write rs now d = (Raise e, d').

Definition raised_if {A} (r : res A) (P : exn -> Prop) : Prop :=
  match r with Ok _ => True | Raise e => P e end.

Lemma fail_no_raise e rs now b : link_ok cfg b -> exists b', _fail max_bytes cfg e rs now b = (Ok tt, b').
Proof.
  intros [Hd _ _ _]. unfold _fail. erewrite run_bind by done. cbn beta iota. unfold id.
  destruct (backoff cfg) as [lo up]. destruct (outage_since b) as [since|].
  - destruct Hd as [Hd _]. destruct (Hd (ex_intro _ _ eq_refl)) as [d ->].
    do 2 (erewrite run_bind by done; cbn beta iota). apply store_ok.
  - do 2 (erewrite run_bind by done; cbn beta iota). apply store_ok.
Qed.

Lemma attempt_raises rs now b :
  link_ok cfg b -> raised_if (_attempt max_bytes cfg rs now b).1 (rejected rs now).
Proof.
  intros Hl. unfold _attempt.
  assert (Hb : let '(r, b') := attempt_body max_bytes cfg rs now b in
    match r with
    | Ok _ => True
    | Raise e => if is_du e then link_ok cfg b' else rejected rs now e
    end).
  { unfold attempt_body. pose proof (du_replay cfg now b I) as Hdu.
    pose proof (link_replay cfg (link b) now b eq_refl) as Hlk.
    destruct (_replay cfg now b) as [[[wrote drained]|e] b1] eqn:E; cbn in Hdu, Hlk.
    2: { erewrite run_bind by exact E. cbn beta iota. rewrite Hdu. by eapply link_ok_eq. }
    erewrite run_bind by exact E. cbn beta iota. destruct (negb drained).
    - destruct wrote; cbn [when]; erewrite run_bind by done; cbn beta iota;
        
        match goal with |- context [bind (_store _ _ _ _) _ ?x] =>
          destruct (store_ok max_bytes cfg rs now x) as (b2 & E2); by erewrite run_bind by exact E2 end.
    - erewrite run_bind by done. cbn beta iota. destruct (_ || _); [|done].
      destruct (write_fresh_cases cfg rs now wrote b1) as (o & d & Ew & H).
      destruct o as [res|e]; [by erewrite run_bind by exact H|].
      destruct e; try (destruct H as (b2 & _ & H2); erewrite run_bind by exact H2; split; [done|]; by eexists _, _).
      erewrite run_bind by exact H. cbn. by eapply link_ok_eq, Hl. }
  destruct (attempt_body max_bytes cfg rs now b) as [[o|e] b1] eqn:E.
  - erewrite run_bind by (by erewrite run_try by exact E). cbn beta iota.
    destruct o as [[|]|]; [|done..]. by destruct (recover_ok cfg now b1) as (b2 & ->).
  - destruct e; try (by erewrite run_bind by (by erewrite run_try by exact E)). cbn in Hb.
    destruct (fail_no_raise (DatabaseUnavailable msg) rs now b1 Hb) as (b2 & E2).
    erewrite run_bind by (erewrite run_try by exact E; cbn beta iota; by erewrite run_bind by exact E2). done.
Qed.
End Raises.

(** ** The backoff *)

Section Backoff.
Context {W : Type} {WR : Writer W} {JT : JsonText} (max_bytes : Z) (cfg : settings).
Implicit Types (b : bworld W).

Definition next_delay (d : option Z) : Z :=
  match d with
  | None => Z.min (fst (backoff cfg)) (snd (backoff cfg))
  | Some d => Z.min (d * 2) (snd (backoff cfg))
  end.

Lemma fail_link e rs now b :
  link_ok cfg b ->
  link (_fail max_bytes cfg e rs now b).2
  = (false, Some (default now (outage_since b)), Some (add_us now (next_delay (delay b))), Some (next_delay (delay b))).
Proof.
  intros [Hd _ _ _]. unfold _fail. erewrite run_bind by done. cbn beta iota. unfold id, next_delay.
  destruct (backoff cfg) as [lo up]. destruct (outage_since b) as [since|].
  - destruct Hd as [Hd _]. destruct (Hd (ex_intro _ _ eq_refl)) as [d ->].
    do 2 (erewrite run_bind by done; cbn beta iota). by rewrite link_store.
  - assert (Hn : delay b = None).
    { destruct (delay b); [|done]. destruct Hd as [_ Hd]. by destruct (Hd (ex_intro _ _ eq_refl)). }
    rewrite Hn. do 2 (erewrite run_bind by done; cbn beta iota). by rewrite link_store.
Qed.

(** Consecutive failures, each with its own batch and time. *)
Fixpoint fails (l : list (exn * list record * datetime)) b : bworld W :=
  match l with
  | [] => b
  | (e, rs, now) :: l => fails l (_fail max_bytes cfg e rs now b).2
  end.

Lemma fail_link_ok e rs now b :
  0 <= fst (backoff cfg) /\ 0 <= snd (backoff cfg) -> link_ok cfg b ->
  link_ok cfg (_fail max_bytes cfg e rs now b).2.
Proof.
  intros Hback Hb. pose proof (fail_link e rs now b Hb) as Hl. unfold link in Hl. injection Hl as Hc Ho Hn Hd.
  destruct Hb as [_ _ _ Hbd]. split; rewrite ?Hc, ?Ho, ?Hn, ?Hd; try done.
  intros d [= <-]. unfold next_delay. destruct (delay b) as [d0|]; [|lia]. specialize (Hbd d0 eq_refl). lia.
Qed.

Lemma fails_delay l b d k :
  0 <= fst (backoff cfg) <= snd (backoff cfg) -> link_ok cfg b -> 0 <= k ->
  delay b = Some d -> d = Z.min (fst (backoff cfg) * 2 ^ k) (snd (backoff cfg)) ->
  delay (fails l b) = Some (Z.min (fst (backoff cfg) * 2 ^ (k + Z.of_nat (length l))) (snd (backoff cfg))).
Proof.
  intros Hback. revert b d k. induction l as [|[[e rs] now] l IH]; intros b d k Hl Hk Hd Hdk; cbn [fails length].
  { rewrite Z.add_0_r. congruence. }
  pose proof (fail_link e rs now b Hl) as Hf. unfold link in Hf. injection Hf as _ _ _ Hf. rewrite Hd in Hf. cbn in Hf.
  rewrite (IH _ _ (k + 1) (fail_link_ok e rs now b ltac:(lia) Hl) ltac:(lia) Hf).
  - by replace (k + 1 + Z.of_nat (length l)) with (k + Z.of_nat (S (length l))) by lia.
  - rewrite Hdk, Z.pow_add_r by lia. change (2 ^ 1) with 2. nia.
Qed.
End Backoff.

(** ** Properties *)

Section Properties.
Context {W : Type} {WR : Writer W} {JT : JsonText} (max_bytes : Z) (cfg : settings).
Implicit Types (b : bworld W).


(** The state of an outage stays consistent across a submit: a delay is set exactly
    during an outage, a retry time only during one, never while connected, and the delay
    stays within the configured bounds; and the only exception a submit lets out is the
    writer's own for the records submitted, and not an outage. *)
Theorem submit_outage_state rs now b :
  is_aware now = true -> seq_ok (spool b) -> 0 <= seq (spool b) -> seq (spool b) + 2 < 10 ^ 6 ->
  link_ok cfg b -> 0 <= fst (backoff cfg) /\ 0 <= snd (backoff cfg) ->
  let '(out, b') := submit max_bytes cfg rs now b in
  link_ok cfg b' /\ raised_if out (rejected rs now).
Proof.
  intros Ha Hok H0 Hmax Hl Hback.
  destruct (submit_dealt max_bytes cfg rs now b "x-L.jsonl" "") as (out & b' & E & _ & _ & Hl' & _);
    [auto using known_none, accounted_none..|].
  rewrite E. split; [done|].
  destruct (submit_cases max_bytes cfg rs now b Ha) as (r & b1 & evs & out2 & b2 & E1 & E2 & Hr & _).
  rewrite E in E2. injection E2 as <- <-. subst out.
  assert (Hraise : raised_if r (rejected rs now)); [|by destruct r].
  unfold submit_body in E1. erewrite run_bind in E1 by done. cbn beta iota in E1.
  assert (Hst : forall r b1, _store max_bytes cfg rs now (entered b) = (r, b1) -> raised_if r (rejected rs now)).
  { intros r2 b2 E2. destruct (store_ok max_bytes cfg rs now (entered b)) as (b3 & E3).
    rewrite E3 in E2. by injection E2 as <- <-. }
  assert (Hat : forall r b1, _attempt max_bytes cfg rs now (entered b) = (r, b1) -> raised_if r (rejected rs now)).
  { intros r2 b2 E2. pose proof (attempt_raises max_bytes cfg rs now (entered b)) as Hx. rewrite E2 in Hx.
    apply Hx. by eapply link_ok_eq, Hl. }
  repeat case_match; eauto.
Qed.

(** Before the retry time of an outage, a submit does not touch the database. *)
Theorem submit_waits rs now b t :
  is_aware now = true -> next_retry b = Some t -> instant now < instant t ->
  exists evs b', submit max_bytes cfg rs now b = (Ok evs, b') /\ db b' = db b /\ acked b' = acked b /\
    link b' = link b.
Proof.
  intros Ha Ht Hlt.
  set (P := fun b' : bworld W => db b' = db b /\ acked b' = acked b /\ link b' = link b).
  assert (Hsp : forall A (c : M sworld A), keeps P (on_spool c)).
  { intros A c b' Hb'. unfold on_spool, zoom. by destruct (c (spool b')). }
  assert (Hst : keeps P (_store max_bytes cfg rs now)).
  { unfold _store. destruct rs; [apply keeps_ret|]. apply keeps_bind; [apply Hsp|]. intros res1.
    apply keeps_bind; intros; apply keeps_when; by intros b' Hb'. }
  assert (Hfin : keeps P (_finish cfg now)).
  { unfold _finish. apply keeps_bind; [apply Hsp|]. intros q.
    apply keeps_bind; [apply keeps_foldM; by intros ? ? b' Hb'|]. intros _.
    apply keeps_bind; [by intros b'|]. intros b1. case_match; by intros b' Hb'. }
  unfold submit, require_aware. rewrite Ha. erewrite run_bind by done. cbn beta iota. fold (entered b).
  destruct (store_ok max_bytes cfg rs now (entered b)) as (b1 & E1).
  assert (E : submit_body max_bytes cfg rs now (entered b) = (Ok tt, b1)).
  { unfold submit_body. erewrite run_bind by done. cbn beta iota. cbn. rewrite Ht.
    by rewrite (proj2 (Z.ltb_lt _ _)). }
  erewrite run_bind by (by erewrite run_try by exact E). cbn beta iota.
  destruct (finish_cases cfg now b1) as (evs & b2 & E2 & _). exists evs, b2. split; [done|].
  specialize (Hst (entered b) ltac:(done)). rewrite E1 in Hst.
  specialize (Hfin b1 Hst). by rewrite E2 in Hfin.
Qed.

(** Two events made by one submit never share their time and type, so the natural key
    of the event table keeps them both. *)
Theorem submit_event_keys rs now b :
  NoDup (map event_key (reported b (submit max_bytes cfg rs now b).1 (submit max_bytes cfg rs now b).2)).
Proof.
  destruct (is_aware now) eqn:Ha.
  2: { unfold submit, require_aware. rewrite Ha. unfold reported. cbn. rewrite drop_all. constructor. }
  assert (Hk : keyed_state now (length (carried b)) (entered b)).
  { split; cbn; [lia | rewrite drop_all; constructor | rewrite drop_all; set_solver | done]. }
  pose proof (plumb_submit_body max_bytes cfg _ (keyed_unplugged now (length (carried b))) now
    (keyed_add_event cfg now _) ltac:(done) rs (entered b) Hk) as Hb.
  unfold submit, require_aware. rewrite Ha. erewrite run_bind by done. cbn beta iota. fold (entered b).
  destruct (submit_body max_bytes cfg rs now (entered b)) as [r b1] eqn:E1. cbn in Hb.
  destruct (keyed_finish cfg now _ b1 Hb) as (evs & b2 & E2 & Hnd). destruct r as [[]|e].
  - erewrite run_bind by (by erewrite run_try by exact E1). cbn beta iota. rewrite E2. exact Hnd.
  - erewrite run_bind by (erewrite run_try by exact E1; cbn beta iota; by erewrite run_bind by exact E2). exact Hnd.
Qed.


(** After [k + 1] consecutive failures the delay before the next attempt is the minimum
    doubled [k] times, and never more than the maximum. *)
Theorem backoff_schedule first l b :
  0 <= fst (backoff cfg) <= snd (backoff cfg) -> link_ok cfg b -> outage_since b = None ->
  delay (fails max_bytes cfg (first :: l) b)
  = Some (Z.min (fst (backoff cfg) * 2 ^ Z.of_nat (length l)) (snd (backoff cfg))).
Proof.
  intros Hback Hl Ho. destruct first as [[e rs] now]. cbn [fails].
  pose proof (fail_link max_bytes cfg e rs now b Hl) as Hf. unfold link in Hf. injection Hf as _ _ _ Hf.
  assert (Hd : delay b = None).
  { destruct Hl as [[_ Hl] _ _ _]. destruct (delay b); [|done]. rewrite Ho in Hl. by destruct (Hl (ex_intro _ _ eq_refl)). }
  rewrite Hd in Hf.
  apply (fails_delay max_bytes cfg l _ _ 0 Hback (fail_link_ok max_bytes cfg e rs now b ltac:(lia) Hl) ltac:(lia) Hf).
  cbn. rewrite Z.mul_1_r. done.
Qed.
End Properties.

(** ** Witnesses *)

(** A writer that answers from a list of outcomes, then accepts everything. *)
Definition script : Type := list (res write_result).

#[local] Instance scripted : Writer script :=
  {| db_write _ _ w := match w with
                       | [] => (Ok (WriteResult [] [] []), [])
                       | r :: w => (r, w)
                       end;
     db_ping w := (true, w) |}.
#[local] Existing Instance demo_json.

Definition demo_settings : settings :=
  Settings "sys" (5 * second_us, 300 * second_us) 3 (20 * second_us).
Definition demo_now : datetime := utc 1700000000000000.
Definition demo_buffered (w : script) : bworld script :=
  new_buffered (demo_world demo_files) w (fun _ => 0).
Definition outage : res write_result := Raise (DatabaseUnavailable "down").

Lemma new_link_ok {W} cfg s (d : W) m : link_ok cfg (new_buffered s d m).
Proof. split; cbn; try done; by split; intros []. Qed.

Lemma demo_backoff : 0 <= fst (backoff demo_settings) /\ 0 <= snd (backoff demo_settings).
Proof. done. Qed.


Lemma submit_outage_state_witness :
  let '(out, b') := submit 200 demo_settings [demo_record] demo_now (demo_buffered [outage]) in
  link_ok demo_settings b' /\ raised_if out (rejected (W := script) [demo_record] demo_now).
Proof.
  apply (submit_outage_state 200 demo_settings [demo_record] demo_now (demo_buffered [outage]));
    [done | apply demo_seq_ok | done | done | apply new_link_ok | done].
Defined.

(** After the failed first submit, the next one waits. *)
Definition demo_waiting : bworld script :=
  (submit 200 demo_settings [demo_record] demo_now (demo_buffered [outage])).2.

Lemma submit_waits_witness :
  exists evs b', submit 200 demo_settings [demo_record] (add_us demo_now second_us) demo_waiting = (Ok evs, b') /\
    db b' = db demo_waiting /\ acked b' = acked demo_waiting /\ link b' = link demo_waiting.
Proof.
  apply (submit_waits 200 demo_settings [demo_record] (add_us demo_now second_us) demo_waiting
           (add_us demo_now (5 * second_us))); [done | by vm_compute | by vm_compute].
Defined.


Lemma backoff_schedule_witness :
  delay (fails 200 demo_settings
    (repeat (DatabaseUnavailable "down", [], demo_now) 8) (demo_buffered []))
  = Some (300 * second_us).
Proof.
  etrans; [apply (backoff_schedule 200 demo_settings (DatabaseUnavailable "down", [], demo_now)
    (repeat (DatabaseUnavailable "down", [], demo_now) 7) (demo_buffered []));
    [done | apply new_link_ok | done] | done].
Defined.

(** A run: the outage is reported and the batch spooled; once the retry time has come the old
    batch is superseded, the spooled one written, then the new one. *)
Example outage_and_recovery :
  match submit 200 demo_settings [demo_record] demo_now (demo_buffered [outage]) with
  | (Ok evs, b1) =>
      match submit 200 demo_settings [demo_record] (add_us demo_now (5 * second_us)) b1 with
      | (Ok evs2, b2) =>
          (map event_type_of evs, map event_type_of evs2, acked b2, bool_decide (batches (spool b2) = ∅),
           superseded_batches b2, connected b2)
      | _ => ([], [], [], false, 0, false)
      end
  | _ => ([], [], [], false, 0, false)
  end
  = ([VStr "database_unavailable"], [VStr "database_recovered"],
     [[demo_record]; [demo_record]], true, 0, true).
Proof. vm_compute. reflexivity. Qed.
