(* ===== verification/Usage.v ===== *)
(** * Five-minute usage summaries

    [node_monitor/pipeline/usage.py]: census rows rolled up per user and per node.  A process
    row is read into [proc]; integers are exact and the CPU seconds are binary64 sums in the
    order the code adds them. *)

From S2P Require Import Prelude PyTime PyFloat PyVal.

Open Scope py_scope.

(** ** Rows of a census *)

Record proc := Proc {
  p_username : string;
  p_cpu_seconds : option num;
  p_rss_kb : Z;
  p_gpu_mem_mb : option num;
  p_threads : Z;
  p_state : string;
  p_interactive : bool;
  p_cpu_state : string;
  p_idle_bucket : string;
  p_owner_presence : string;
  p_category : string;
  p_activity : option string;
}.

(** The fields of a row that the summaries read. *)
Definition proc_of (p : dict) : res proc :=
  username ← (item "username" p ≫= as_str);
  cpu ← (item "cpu_seconds" p ≫= as_num_opt);
  rss ← (item "rss_kb" p ≫= as_int);
  gpu ← (item "gpu_mem_mb" p ≫= as_num_opt);
  threads ← (item "threads" p ≫= as_int);
  state ← (item "state" p ≫= as_str);
  inter ← item "interactive" p;
  cpu_state ← (item "cpu_state" p ≫= as_str);
  bucket ← (item "idle_bucket" p ≫= as_str);
  presence ← (item "owner_presence" p ≫= as_str);
  category ← (item "category" p ≫= as_str);
  activity ← (item "activity" p ≫= as_str_opt);
  Ok (Proc username cpu rss gpu threads state (truthy inter) cpu_state bucket presence category activity).

(** The rows of user processes; the others are not read. *)
Fixpoint user_procs (rows : list dict) : res (list proc) :=
  match rows with
  | [] => Ok []
  | p :: rows =>
      u ← item "is_user_process" p;
      if truthy u then x ← proc_of p; xs ← user_procs rows; Ok (x :: xs) else user_procs rows
  end.

(** ** Tables *)

(** [[count, cpu_s, rss_kb]] *)
Record cell := Cell { c_count : Z; c_cpu : float; c_rss : Z }.
Definition cell_zero : cell := Cell 0 fzero 0.
Abbreviation table := (list (string * cell)).

Definition cell_add (c : cell) (count : Z) (cpu : float) (rss : Z) : cell :=
  Cell (c_count c + count) (fadd (c_cpu c) cpu) (c_rss c + rss).

Definition _bump (t : table) (key : string) (cpu : float) (rss : Z) : table :=
  dset key (cell_add (default cell_zero (dget key t)) 1 cpu rss) t.

Definition _merge (into other : table) : table :=
  foldl (fun t kc => dset kc.1 (cell_add (default cell_zero (dget kc.1 t))
                                  (c_count kc.2) (c_cpu kc.2) (c_rss kc.2)) t) into other.

(** ** Tallies *)

Record tally := Tally {
  t_n : Z; t_unmeasured : Z; t_rss : Z; t_threads : Z; t_d : Z; t_inter : Z;
  t_cpu : float; t_gpu : num;
  t_n_max : Z; t_rss_max : Z; t_gpu_max : num;
  t_category : table; t_activity : table; t_dormancy : table;
  t_cat_dorm : list (string * table);
}.

(** [_Tally.__init__] *)
Definition new_tally : tally := Tally 0 0 0 0 0 0 fzero (NInt 0) 0 0 (NInt 0) [] [] [] [].

(** [_Tally.fold] *)
Definition fold_tally (t c : tally) : tally :=
  Tally (t_n t + t_n c) (t_unmeasured t + t_unmeasured c) (t_rss t + t_rss c)
    (t_threads t + t_threads c) (t_d t + t_d c) (t_inter t + t_inter c)
    (fadd (t_cpu t) (t_cpu c)) (num_add (t_gpu t) (t_gpu c))
    (Z.max (t_n_max t) (t_n c)) (Z.max (t_rss_max t) (t_rss c)) (num_max (t_gpu_max t) (t_gpu c))
    (_merge (t_category t) (t_category c)) (_merge (t_activity t) (t_activity c))
    (_merge (t_dormancy t) (t_dormancy c))
    (foldl (fun m ct => dset ct.1 (_merge (default [] (dget ct.1 m)) ct.2) m)
       (t_cat_dorm t) (t_cat_dorm c)).

Definition dormancy (p : proc) : string :=
  p_cpu_state p +:+ "|" +:+ p_idle_bucket p +:+ "|" +:+ p_owner_presence p.
Definition activity_key (p : proc) : string :=
  match p_activity p with Some "" | None => "unknown" | Some a => a end.
Definition cpu_of (p : proc) : float :=
  match p_cpu_seconds p with Some n => num_float n | None => fzero end.
Definition unmeasured_of (p : proc) : Z := match p_cpu_seconds p with Some _ => 0 | None => 1 end.
Definition d_of (p : proc) : Z := if bool_decide (p_state p = "D") then 1 else 0.
Definition inter_of (p : proc) : Z := if p_interactive p then 1 else 0.

(** [_CensusTally.add]: the [max] fields of a census tally are never read. *)
Definition add_proc (gpu_measured : bool) (t : tally) (p : proc) : tally :=
  let cpu := cpu_of p in let rss := p_rss_kb p in
  Tally (t_n t + 1) (t_unmeasured t + unmeasured_of p) (t_rss t + rss)
    (t_threads t + p_threads p) (t_d t + d_of p) (t_inter t + inter_of p)
    (fadd (t_cpu t) cpu)
    (match p_gpu_mem_mb p with
     | Some g => if gpu_measured then num_add (t_gpu t) g else t_gpu t
     | None => t_gpu t
     end)
    (t_n_max t) (t_rss_max t) (t_gpu_max t)
    (_bump (t_category t) (p_category p) cpu rss)
    (_bump (t_activity t) (activity_key p) cpu rss)
    (_bump (t_dormancy t) (dormancy p) cpu rss)
    (dset (p_category p) (_bump (default [] (dget (p_category p) (t_cat_dorm t))) (dormancy p) cpu rss)
       (t_cat_dorm t)).

(** The census tallies of the node and of each user. *)
Definition census_node (gpu : bool) (ps : list proc) : tally := foldl (add_proc gpu) new_tally ps.
Definition census_users (gpu : bool) (ps : list proc) : list (string * tally) :=
  foldl (fun m p => dset (p_username p) (add_proc gpu (default new_tally (dget (p_username p) m)) p) m) [] ps.
(** The users with an active process, each once. *)
Definition active_users (ps : list proc) : list string :=
  foldl (fun l p => if bool_decide (p_cpu_state p = "active") && negb (bool_decide (p_username p ∈ l))
                    then l ++ [p_username p] else l) [] ps.

(** ** Intervals *)

Record interval := Interval {
  iv_start : datetime;
  iv_samples : Z;
  iv_gpu_samples : Z;
  iv_node : tally;
  iv_users : list (string * tally);
  iv_user_sum : Z; iv_user_max : Z; iv_active_sum : Z;
}.

(** [_Interval.__init__] *)
Definition new_interval (start : datetime) : interval := Interval start 0 0 new_tally [] 0 0 0.

(** [_Interval.add] of the user processes of one census. *)
Definition add_procs (ps : list proc) (gpu : bool) (iv : interval) : interval :=
  let users := census_users gpu ps in
  let count := Z.of_nat (length users) in
  Interval (iv_start iv) (iv_samples iv + 1) (iv_gpu_samples iv + Z.b2z gpu)
    (fold_tally (iv_node iv) (census_node gpu ps))
    (foldl (fun m ut => dset ut.1 (fold_tally (default new_tally (dget ut.1 m)) ut.2) m) (iv_users iv) users)
    (iv_user_sum iv + count) (Z.max (iv_user_max iv) count)
    (iv_active_sum iv + Z.of_nat (length (active_users ps))).

(** [_Interval.add] *)
Definition add_rows (rows : list dict) (gpu : bool) (iv : interval) : res interval :=
  ps ← user_procs rows; Ok (add_procs ps gpu iv).

(** ** Rows of a summary *)

Definition _MAPS : list string := ["by_category"; "by_activity"; "by_dormancy"].
Definition _COMMON_COLUMNS : list string :=
  ["interval_start"; "process_count_avg"; "process_count_max"; "cpu_seconds"; "rss_kb_avg"; "rss_kb_max";
   "gpu_mem_mb_avg"; "gpu_mem_mb_max"; "threads_avg"; "d_state_fraction"; "interactive_fraction";
   "by_category"; "by_activity"; "by_dormancy"; "by_category_dormancy"; "sample_count"; "expected_count";
   "unmeasured_count"].
Definition _USER_DERIVED_MAPS : list string := ["by_category"; "by_dormancy"].
Definition USER_USAGE_COLUMNS : list string :=
  "username" :: filter (fun c => c ∉ _USER_DERIVED_MAPS) _COMMON_COLUMNS.
Definition NODE_USAGE_COLUMNS : list string :=
  _COMMON_COLUMNS ++ ["user_count_avg"; "user_count_max"; "active_user_count_avg"].

Definition cell_row (samples : Z) (c : cell) : value :=
  VDict [("count", VFloat (int_truediv (c_count c) samples)); ("cpu_s", VFloat (c_cpu c));
         ("rss_kb", VFloat (int_truediv (c_rss c) samples))].
Definition table_row (samples : Z) (t : table) : value :=
  VDict (map (fun kc => (kc.1, cell_row samples kc.2)) (sorted_items t)).

(** [_Tally.row]; [derived] keeps the two maps a user row omits. *)
Definition tally_row (t : tally) (start : datetime) (samples expected gpu_samples : Z) (derived : bool) : dict :=
  let share k := if t_n t =? 0 then VFloat fzero else VFloat (int_truediv k (t_n t)) in
  [("interval_start", VTime start);
   ("process_count_avg", VFloat (int_truediv (t_n t) samples));
   ("process_count_max", VInt (t_n_max t));
   ("cpu_seconds", VFloat (t_cpu t));
   ("rss_kb_avg", VFloat (int_truediv (t_rss t) samples));
   ("rss_kb_max", VInt (t_rss_max t));
   ("gpu_mem_mb_avg", if gpu_samples =? 0 then VNone else VFloat (num_div (t_gpu t) gpu_samples));
   ("gpu_mem_mb_max", if gpu_samples =? 0 then VNone else val_of (t_gpu_max t));
   ("threads_avg", VFloat (int_truediv (t_threads t) samples));
   ("d_state_fraction", share (t_d t));
   ("interactive_fraction", share (t_inter t))]
  ++ (if derived then [("by_category", table_row samples (t_category t))] else [])
  ++ [("by_activity", table_row samples (t_activity t))]
  ++ (if derived then [("by_dormancy", table_row samples (t_dormancy t))] else [])
  ++ [("by_category_dormancy",
        VDict (map (fun ct => (ct.1, table_row samples ct.2)) (sorted_items (t_cat_dorm t))));
      ("sample_count", VInt samples); ("expected_count", VInt expected);
      ("unmeasured_count", VInt (t_unmeasured t))].

(** ** The aggregator *)

Record usage := UsageAgg {
  u_interval : num;
  u_expected : Z;
  u_open : option interval;
}.

(** [round(a / b)] of two configured durations *)
Definition num_truediv (a b : num) : float :=
  match a, b with
  | NInt x, NInt y => int_truediv x y
  | _, _ => fdiv (num_float a) (num_float b)
  end.

(** [UsageAggregator.__init__] *)
Definition new_usage (summary census : num) : usage :=
  UsageAgg summary (round_int (num_truediv summary census)) None.

(** [_floor], and [NodePipeline._interval_start] *)
Definition interval_floor (width : num) (recv : datetime) : datetime :=
  let secs := timestamp recv in
  fromtimestamp (fsub secs (fmod secs (num_float width))).

(** [flush] *)
Definition flush_interval (expected : Z) (iv : interval) : list (string * dict) :=
  map (fun ut => (USER_USAGE_5M,
         ("username", VStr ut.1) :: tally_row ut.2 (iv_start iv) (iv_samples iv) expected (iv_gpu_samples iv) false))
    (sorted_items (iv_users iv))
  ++ [(NODE_USAGE_5M,
       tally_row (iv_node iv) (iv_start iv) (iv_samples iv) expected (iv_gpu_samples iv) true
       ++ [("user_count_avg", VFloat (int_truediv (iv_user_sum iv) (iv_samples iv)));
           ("user_count_max", VInt (iv_user_max iv));
           ("active_user_count_avg", VFloat (int_truediv (iv_active_sum iv) (iv_samples iv)))])].

(** An interval whose only census raised has no sample to divide by. *)
Definition flush : M usage (list (string * dict)) := fun u =>
  let closed := UsageAgg (u_interval u) (u_expected u) None in
  match u_open u with
  | Some iv => if iv_samples iv =? 0 then (Raise ZeroDivisionError, closed)
               else (Ok (flush_interval (u_expected u) iv), closed)
  | None => (Ok [], closed)
  end.

(** The rest of [add_census] once the earlier interval is out. *)
Definition add_to_open (rows : list dict) (start : datetime) (gpu : bool) : M usage unit := fun u =>
  let iv := default (new_interval start) (u_open u) in
  let opened iv := UsageAgg (u_interval u) (u_expected u) (Some iv) in
  match add_rows rows gpu iv with
  | Ok iv => (Ok tt, opened iv)
  | Raise e => (Raise e, opened iv)
  end.

(** [add_census] *)
Definition add_census (rows : list dict) (recv : datetime) (gpu_status : option string)
    : M usage (list (string * dict)) := fun u =>
  match require_aware recv with
  | Raise e => (Raise e, u)
  | Ok _ =>
      let start := interval_floor (u_interval u) recv in
      (let* out := match u_open u with
                   | Some iv => if instant (iv_start iv) <? instant start then flush else ret []
                   | None => ret []
                   end in
       add_to_open rows start (bool_decide (gpu_status = Some "ok")) ;;;
       ret out) u
  end.

Definition demo_proc (user cat cpu_state : string) (cpu : num) (rss : Z) : dict :=
  [("username", VStr user); ("cpu_seconds", val_of cpu); ("rss_kb", VInt rss);
   ("gpu_mem_mb", VNone); ("threads", VInt 1); ("state", VStr "R"); ("interactive", VBool false);
   ("cpu_state", VStr cpu_state); ("idle_bucket", VStr "<5m"); ("owner_presence", VStr "absent");
   ("category", VStr cat); ("activity", VNone); ("is_user_process", VBool true)].

(** Two censuses of one interval, then one of the next: the first interval comes out. *)
Example usage_run :
  let run := (add_census [demo_proc "ann" "python" "active" (NFloat (flit 5 1)) 100;
                          demo_proc "bob" "shell" "idle" (NInt 0) 10] (utc 1700000100000000) None ;;;
              add_census [demo_proc "ann" "python" "active" (NFloat (flit 5 1)) 300] (utc 1700000160000000) (Some "ok") ;;;
              add_census [] (utc 1700000400000000) None)%py in
  match run (new_usage (NInt 300) (NInt 60)) with
  | (Ok out, u) =>
      (map (fun kr => (kr.1, dget "username" kr.2, dget "interval_start" kr.2, dget "process_count_avg" kr.2,
                       dget "rss_kb_max" kr.2, dget "cpu_seconds" kr.2)) out,
       option_map iv_start (u_open u))
  | _ => ([], None)
  end
  = ([(USER_USAGE_5M, Some (VStr "ann"), Some (VTime (utc 1700000100000000)), Some (VFloat (float_of_Z 1)),
       Some (VInt 300), Some (VFloat (float_of_Z 1)));
      (USER_USAGE_5M, Some (VStr "bob"), Some (VTime (utc 1700000100000000)), Some (VFloat (flit 5 1)),
       Some (VInt 10), Some (VFloat fzero));
      (NODE_USAGE_5M, None, Some (VTime (utc 1700000100000000)), Some (VFloat (flit 15 1)),
       Some (VInt 300), Some (VFloat (float_of_Z 1)))],
     Some (utc 1700000400000000)).
Proof. vm_compute. reflexivity. Qed.

(** ** Integer fields as sums over processes *)

Inductive measure := Count | Rss.
Definition meas (m : measure) (c : cell) : Z := match m with Count => c_count c | Rss => c_rss c end.
Definition weight (m : measure) (p : proc) : Z := match m with Count => 1 | Rss => p_rss_kb p end.

Definition tget (m : measure) (k : string) (t : table) : Z := meas m (default cell_zero (dget k t)).
Fixpoint zsum {A} (f : A -> Z) (l : list A) : Z :=
  match l with [] => 0 | x :: l => f x + zsum f l end.
Definition tsum (m : measure) (t : table) : Z := zsum (fun kc => meas m kc.2) t.

Lemma zsum_app {A} (f : A -> Z) l1 l2 : zsum f (l1 ++ l2) = zsum f l1 + zsum f l2.
Proof. induction l1; cbn; lia. Qed.

Lemma zsum_ext {A} (f g : A -> Z) l : (forall x, x ∈ l -> f x = g x) -> zsum f l = zsum g l.
Proof.
  induction l as [|x l IH]; intros H; cbn; [done|]. rewrite IH, H by set_solver. done.
Qed.

(** Replacing the entry of a key in a sum over a dictionary. *)
Lemma zsum_dset {V} (f : V -> Z) (z : V) k v (d : list (string * V)) :
  f z = 0 ->
  zsum (fun kv => f kv.2) (dset k v d) = zsum (fun kv => f kv.2) d - f (default z (dget k d)) + f v.
Proof.
  intros Hz. induction d as [|[k1 v1] d IH]; cbn; unfold id; [rewrite Hz; lia|].
  destruct (decide (k1 = k)) as [->|]; cbn; [lia|]. rewrite IH. unfold default, id. lia.
Qed.

Lemma meas_add m c p cpu :
  meas m (cell_add c 1 cpu (p_rss_kb p)) = meas m c + weight m p.
Proof. by destruct m. Qed.

Lemma meas_merge m c1 c2 :
  meas m (cell_add c1 (c_count c2) (c_cpu c2) (c_rss c2)) = meas m c1 + meas m c2.
Proof. by destruct m. Qed.

Lemma tget_bump m k t key cpu p :
  tget m k (_bump t key cpu (p_rss_kb p)) = tget m k t + (if bool_decide (key = k) then weight m p else 0).
Proof.
  unfold tget, _bump. rewrite dget_dset. case_decide as E; [subst|]; rewrite ?bool_decide_true, ?bool_decide_false by done.
  - cbn [default from_option]. unfold id. apply meas_add.
  - lia.
Qed.

Lemma tsum_bump m t key cpu p : tsum m (_bump t key cpu (p_rss_kb p)) = tsum m t + weight m p.
Proof.
  unfold tsum, _bump. rewrite (zsum_dset (meas m) cell_zero) by (by destruct m). rewrite meas_add. lia.
Qed.

(** One step of [_merge]. *)
Definition merge_step (t : table) (kc : string * cell) : table :=
  dset kc.1 (cell_add (default cell_zero (dget kc.1 t)) (c_count kc.2) (c_cpu kc.2) (c_rss kc.2)) t.

Lemma tget_merge_step m k t kc :
  tget m k (merge_step t kc) = tget m k t + (if decide (kc.1 = k) then meas m kc.2 else 0).
Proof.
  unfold tget, merge_step. rewrite dget_dset. case_decide as E; [subst k|lia].
  cbn [default from_option]. unfold id. apply meas_merge.
Qed.

Lemma tsum_merge m a b : tsum m (_merge a b) = tsum m a + tsum m b.
Proof.
  unfold _merge. revert a. induction b as [|kc b IH]; intros a; cbn [foldl]; [cbn; lia|].
  rewrite IH. unfold tsum at 1. rewrite (zsum_dset (meas m) cell_zero) by (by destruct m).
  rewrite meas_merge. unfold tsum. cbn [zsum]. lia.
Qed.

Lemma tget_notin m k t : k ∉ dkeys t -> tget m k t = 0.
Proof.
  intros H. unfold tget. destruct (dget k t) eqn:E; [|by destruct m].
  destruct H. apply elem_of_dkeys. eauto.
Qed.

Lemma tget_merge m k a b : NoDup (dkeys b) -> tget m k (_merge a b) = tget m k a + tget m k b.
Proof.
  unfold _merge. revert a. induction b as [|kc b IH]; intros a Hnd.
  - cbn. unfold tget. cbn. destruct m; cbn; lia.
  - cbn [dkeys map] in Hnd. apply NoDup_cons in Hnd as [Hni Hnd].
    cbn [foldl]. rewrite IH by done. fold (merge_step a kc). rewrite tget_merge_step.
    destruct kc as [k1 c1]. cbn [fst snd] in *. unfold tget at 4. cbn [dget].
    case_decide as E; [subst k1 | unfold tget; lia].
    rewrite (tget_notin m k b) by done. cbn. lia.
Qed.

Lemma NoDup_bump t k cpu rss : NoDup (dkeys t) -> NoDup (dkeys (_bump t k cpu rss)).
Proof. apply NoDup_dkeys_dset. Qed.

Lemma NoDup_merge a b : NoDup (dkeys a) -> NoDup (dkeys (_merge a b)).
Proof.
  unfold _merge. revert a. induction b as [|kc b IH]; intros a H; cbn; [done|].
  apply IH. by apply NoDup_dkeys_dset.
Qed.

(** *** Category by dormancy *)

Abbreviation cdtable := (list (string * table)).
Definition cd_row (m : measure) (k : string) (cd : cdtable) : Z := tsum m (default [] (dget k cd)).
Definition cd_col (m : measure) (d : string) (cd : cdtable) : Z := zsum (fun ct => tget m d ct.2) cd.

Definition cd_step (cd : cdtable) (ct : string * table) : cdtable :=
  dset ct.1 (_merge (default [] (dget ct.1 cd)) ct.2) cd.

Record cd_wf (cd : cdtable) : Prop := CdWf {
  cw_keys : NoDup (dkeys cd);
  cw_tables : Forall (fun ct => NoDup (dkeys ct.2)) cd;
}.

Lemma tget_nil m k : tget m k [] = 0.
Proof. by destruct m. Qed.

Lemma cd_wf_get cd k : cd_wf cd -> NoDup (dkeys (default [] (dget k cd))).
Proof.
  intros [Hk Ht]. destruct (dget k cd) as [t|] eqn:E; cbn; [|constructor].
  apply elem_of_dict in E; [|done]. by eapply Forall_forall in Ht; [|exact E].
Qed.

Lemma Forall_dset_snd {V} (P : V -> Prop) k v (d : list (string * V)) :
  P v -> Forall (fun kv => P kv.2) d -> Forall (fun kv => P kv.2) (dset k v d).
Proof.
  intros Hv Hd. induction Hd as [|[k1 v1] d H1 Hd IH]; cbn; [by repeat constructor|].
  case_decide; constructor; auto.
Qed.

Lemma cd_wf_dset cd k t : cd_wf cd -> NoDup (dkeys t) -> cd_wf (dset k t cd).
Proof.
  intros [Hk Ht] H. split; [by apply NoDup_dkeys_dset | by apply (Forall_dset_snd (fun t => NoDup (dkeys t)))].
Qed.

Lemma cd_row_step m k cd ct :
  cd_row m k (cd_step cd ct) = cd_row m k cd + (if decide (ct.1 = k) then tsum m ct.2 else 0).
Proof.
  unfold cd_row, cd_step. rewrite dget_dset. case_decide as E; [subst k|lia]. cbn. unfold id. apply tsum_merge.
Qed.

Lemma cd_col_step m d cd ct :
  NoDup (dkeys ct.2) -> cd_col m d (cd_step cd ct) = cd_col m d cd + tget m d ct.2.
Proof.
  intros H. unfold cd_col, cd_step.
  rewrite (zsum_dset (V := table) (tget m d) []) by apply tget_nil. rewrite tget_merge by done. lia.
Qed.

Lemma cd_fold_wf a b : cd_wf a -> cd_wf (foldl cd_step a b).
Proof.
  revert a. induction b as [|ct b IH]; intros a Ha; cbn; [done|].
  apply IH. apply cd_wf_dset; [done|]. apply NoDup_merge. by apply cd_wf_get.
Qed.

Lemma cd_row_cons m k k1 t1 b :
  cd_row m k ((k1, t1) :: b) = if decide (k1 = k) then tsum m t1 else cd_row m k b.
Proof. unfold cd_row. cbn [dget]. by case_decide. Qed.

Lemma cd_row_notin m k b : k ∉ dkeys b -> cd_row m k b = 0.
Proof.
  intros H. unfold cd_row. destruct (dget k b) eqn:E; [|done]. destruct H. apply elem_of_dkeys. eauto.
Qed.

Lemma cd_row_fold m k a b : NoDup (dkeys b) -> cd_row m k (foldl cd_step a b) = cd_row m k a + cd_row m k b.
Proof.
  revert a. induction b as [|[k1 t1] b IH]; intros a Hnd.
  - change (cd_row m k []) with 0. cbn [foldl]. lia.
  - cbn [dkeys map] in Hnd. apply NoDup_cons in Hnd as [Hni Hnd]. cbn [foldl]. rewrite IH by done.
    rewrite cd_row_step, cd_row_cons. cbn [fst snd] in *.
    case_decide as E; [subst k1 | lia]. rewrite (cd_row_notin m k b) by done. lia.
Qed.

Lemma cd_col_fold m d a b :
  Forall (fun ct => NoDup (dkeys ct.2)) b -> cd_col m d (foldl cd_step a b) = cd_col m d a + cd_col m d b.
Proof.
  intros Hb. revert a. induction Hb as [|ct b H Hb IH]; intros a; cbn [foldl].
  - change (cd_col m d []) with 0. lia.
  - rewrite IH, cd_col_step by done. unfold cd_col. cbn [zsum]. lia.
Qed.

(** *** Additive fields of a tally *)

Record tally_wf (t : tally) : Prop := TallyWf {
  tw_category : NoDup (dkeys (t_category t));
  tw_activity : NoDup (dkeys (t_activity t));
  tw_dormancy : NoDup (dkeys (t_dormancy t));
  tw_cat_dorm : cd_wf (t_cat_dorm t);
}.

Lemma new_tally_wf : tally_wf new_tally.
Proof. repeat constructor. Qed.

Lemma add_proc_wf gpu t p : tally_wf t -> tally_wf (add_proc gpu t p).
Proof.
  intros [? ? ? Hcd]. split; cbn; try by apply NoDup_bump.
  apply cd_wf_dset; [done|]. apply NoDup_bump. by apply cd_wf_get.
Qed.

Lemma fold_tally_wf t c : tally_wf t -> tally_wf (fold_tally t c).
Proof. intros [? ? ? ?]. split; cbn; try by apply NoDup_merge. by apply cd_fold_wf. Qed.

#[export] Hint Resolve new_tally_wf add_proc_wf fold_tally_wf : nm.

(** [g] is the sum of the weight [f] of the processes a tally has seen. *)
Record additive (g : tally -> Z) (f : proc -> Z) : Prop := Additive {
  ad_new : g new_tally = 0;
  ad_add : forall gpu t p, tally_wf t -> g (add_proc gpu t p) = g t + f p;
  ad_fold : forall t c, tally_wf c -> g (fold_tally t c) = g t + g c;
}.

Definition on_key (key : proc -> string) (k : string) (f : proc -> Z) (p : proc) : Z :=
  if bool_decide (key p = k) then f p else 0.

Lemma additive_n : additive t_n (fun _ => 1).
Proof. by split. Qed.
Lemma additive_rss : additive t_rss p_rss_kb.
Proof. by split. Qed.
Lemma additive_threads : additive t_threads p_threads.
Proof. by split. Qed.
Lemma additive_d : additive t_d d_of.
Proof. by split. Qed.
Lemma additive_inter : additive t_inter inter_of.
Proof. by split. Qed.
Lemma additive_unmeasured : additive t_unmeasured unmeasured_of.
Proof. by split. Qed.

Lemma additive_category m k : additive (fun t => tget m k (t_category t)) (on_key p_category k (weight m)).
Proof.
  split; [by destruct m | intros; apply tget_bump |]. intros t c [Hc _ _ _]. by apply tget_merge.
Qed.
Lemma additive_activity m k : additive (fun t => tget m k (t_activity t)) (on_key activity_key k (weight m)).
Proof.
  split; [by destruct m | intros; apply tget_bump |]. intros t c [_ Hc _ _]. by apply tget_merge.
Qed.
Lemma additive_dormancy m k : additive (fun t => tget m k (t_dormancy t)) (on_key dormancy k (weight m)).
Proof.
  split; [by destruct m | intros; apply tget_bump |]. intros t c [_ _ Hc _]. by apply tget_merge.
Qed.

Lemma additive_category_sum m : additive (fun t => tsum m (t_category t)) (weight m).
Proof. split; [done | intros; apply tsum_bump | intros; apply tsum_merge]. Qed.

Lemma additive_cd_row m k : additive (fun t => cd_row m k (t_cat_dorm t)) (on_key p_category k (weight m)).
Proof.
  split; [done | |].
  - intros gpu t p _. unfold add_proc, cd_row, on_key. cbn [t_cat_dorm]. rewrite dget_dset.
    case_decide as E; [subst k; rewrite bool_decide_true by done | rewrite bool_decide_false by done; lia].
    cbn [default from_option]. unfold id at 1. apply tsum_bump.
  - intros t c Hc. apply cd_row_fold. apply Hc.
Qed.

Lemma additive_cd_col m d : additive (fun t => cd_col m d (t_cat_dorm t)) (on_key dormancy d (weight m)).
Proof.
  split; [done | |].
  - intros gpu t p _. unfold add_proc, cd_col, on_key. cbn [t_cat_dorm].
    rewrite (zsum_dset (tget m d) []) by apply tget_nil. rewrite tget_bump. lia.
  - intros t c Hc. apply cd_col_fold. apply Hc.
Qed.

(** *** A census *)

Lemma census_node_wf gpu ps t : tally_wf t -> tally_wf (foldl (add_proc gpu) t ps).
Proof. revert t. induction ps as [|p ps IH]; intros t Ht; cbn; auto with nm. Qed.

Lemma census_node_sum g f gpu ps :
  additive g f -> g (census_node gpu ps) = zsum f ps.
Proof.
  intros Ha. unfold census_node.
  enough (H : forall t, tally_wf t -> g (foldl (add_proc gpu) t ps) = g t + zsum f ps).
  { rewrite H by auto with nm. by rewrite (ad_new _ _ Ha). }
  induction ps as [|p ps IH]; intros t Ht; cbn; [lia|].
  rewrite IH by auto with nm. rewrite (ad_add _ _ Ha) by done. lia.
Qed.

(** The processes of one user. *)
Definition of_user (u : string) (p : proc) : bool := bool_decide (p_username p = u).
Definition user_sum (f : proc -> Z) (u : string) (ps : list proc) : Z := zsum (on_key p_username u f) ps.

(** What a dictionary of tallies holds of the processes [ps]. *)
Record users_of (ps : list proc) (m : list (string * tally)) : Prop := UsersOf {
  uo_nodup : NoDup (dkeys m);
  uo_wf : Forall (fun ut => tally_wf ut.2) m;
  uo_keys : forall u, u ∈ dkeys m <-> exists p, p ∈ ps /\ p_username p = u;
  uo_sum : forall g f u, additive g f -> g (default new_tally (dget u m)) = user_sum f u ps;
}.

Lemma users_wf_get (m : list (string * tally)) u : NoDup (dkeys m) -> Forall (fun ut => tally_wf ut.2) m -> tally_wf (default new_tally (dget u m)).
Proof.
  intros Hnd Hm. destruct (dget u m) as [t|] eqn:E; cbn; [|apply new_tally_wf].
  apply elem_of_dict in E; [|done]. by eapply Forall_forall in Hm; [|exact E].
Qed.

Lemma users_of_nil : users_of [] [].
Proof.
  split; [constructor | constructor | set_solver |]. intros g f u Ha. cbn. apply (ad_new _ _ Ha).
Qed.

(** Updating the entry of [v], everyone else's untouched. *)
Lemma users_of_update ps qs m v t :
  users_of ps m -> tally_wf t -> (exists p, p ∈ qs) -> (forall p, p ∈ qs -> p_username p = v) ->
  (forall g f, additive g f -> g t = user_sum f v ps + zsum f qs) ->
  users_of (ps ++ qs) (dset v t m).
Proof.
  intros [Hnd Hwf Hk Hs] Ht [p0 Hp0] Hv Hg. split.
  - by apply NoDup_dkeys_dset.
  - by apply (Forall_dset_snd tally_wf).
  - intros u. rewrite elem_of_dkeys, dget_dset. setoid_rewrite elem_of_app. case_decide as E.
    + subst u. split; [intros _; exists p0; auto | by eexists].
    + rewrite <- elem_of_dkeys, Hk. split; [naive_solver|]. intros (p & [Hp|Hp] & Hu); [by eexists|].
      by rewrite (Hv p Hp) in Hu.
  - intros g f u Ha. rewrite dget_dset. unfold user_sum. rewrite zsum_app. case_decide as E.
    + subst u. cbn. unfold id. rewrite (Hg g f Ha). unfold user_sum. f_equal.
      apply zsum_ext. intros p Hp. unfold on_key. by rewrite bool_decide_true by auto.
    + rewrite (Hs g f u Ha). unfold user_sum.
      rewrite (zsum_ext (on_key p_username u f) (fun _ => 0) qs).
      * clear. induction qs; cbn; lia.
      * intros p Hp. unfold on_key. by rewrite (Hv p Hp), bool_decide_false.
Qed.

Lemma census_users_of gpu ps : users_of ps (census_users gpu ps).
Proof.
  unfold census_users. enough (H : forall ps0 m, users_of ps0 m ->
    users_of (ps0 ++ ps) (foldl (fun m p => dset (p_username p)
      (add_proc gpu (default new_tally (dget (p_username p) m)) p) m) m ps)).
  { apply (H [] []). apply users_of_nil. }
  induction ps as [|p ps IH]; intros ps0 m Hm; cbn; [by rewrite app_nil_r|].
  change (p :: ps) with ([p] ++ ps). rewrite app_assoc. apply IH.
  pose proof (users_wf_get m (p_username p) (uo_nodup _ _ Hm) (uo_wf _ _ Hm)) as Hw.
  apply users_of_update; [done | auto with nm | set_solver | set_solver |].
  intros g f Ha. rewrite (ad_add _ _ Ha) by done. rewrite (uo_sum _ _ Hm g f _ Ha). cbn. lia.
Qed.

(** *** An interval *)

Definition fold_users (m c : list (string * tally)) : list (string * tally) :=
  foldl (fun m ut => dset ut.1 (fold_tally (default new_tally (dget ut.1 m)) ut.2) m) m c.

Lemma dget_fold_users u m c :
  NoDup (dkeys c) ->
  dget u (fold_users m c) = match dget u c with
                            | Some t => Some (fold_tally (default new_tally (dget u m)) t)
                            | None => dget u m
                            end.
Proof.
  unfold fold_users. revert m. induction c as [|[v t] c IH]; intros m Hnd; [done|].
  cbn [dkeys map fst] in Hnd. apply NoDup_cons in Hnd as [Hni Hnd]. cbn [foldl fst snd dget].
  rewrite IH by done. rewrite dget_dset. case_decide as E; [subst v|by destruct (dget u c)].
  destruct (dget u c) eqn:Ec; [|done]. destruct Hni. apply elem_of_dkeys. eauto.
Qed.

Lemma fold_users_wf m c : NoDup (dkeys m) -> Forall (fun ut => tally_wf ut.2) m ->
  NoDup (dkeys (fold_users m c)) /\ Forall (fun ut => tally_wf ut.2) (fold_users m c).
Proof.
  unfold fold_users. revert m. induction c as [|[v t] c IH]; intros m Hnd Hwf; [done|]. cbn [foldl fst snd].
  apply IH; [by apply NoDup_dkeys_dset|]. apply (Forall_dset_snd tally_wf); [|done].
  apply fold_tally_wf. by apply users_wf_get.
Qed.

Lemma fold_users_of ps qs m c : users_of ps m -> users_of qs c -> users_of (ps ++ qs) (fold_users m c).
Proof.
  intros [Hnd Hwf Hk Hs] [Hndc Hwfc Hkc Hsc]. destruct (fold_users_wf m c Hnd Hwf) as [Hn1 Hn2].
  split; [done | done | |].
  - intros u. rewrite elem_of_dkeys, dget_fold_users by done. setoid_rewrite elem_of_app.
    assert (H1 : u ∈ dkeys m \/ u ∈ dkeys c <-> exists p, (p ∈ ps \/ p ∈ qs) /\ p_username p = u).
    { rewrite Hk, Hkc. naive_solver. }
    rewrite <- H1, !elem_of_dkeys. destruct (dget u c); [|by split; [left|intros [?|[]]]].
    split; [by right; eexists | by eexists].
  - intros g f u Ha. rewrite dget_fold_users by done. unfold user_sum. rewrite zsum_app.
    specialize (Hs g f u Ha). specialize (Hsc g f u Ha). unfold user_sum in *.
    destruct (dget u c) as [t|] eqn:Ec.
    + cbn [default from_option] in *. unfold id in *. rewrite (ad_fold _ _ Ha), Hs, Hsc; [done|].
      apply elem_of_dict in Ec; [|done]. by eapply Forall_forall in Hwfc; [|exact Ec].
    + cbn [default from_option] in Hsc. rewrite (ad_new _ _ Ha) in Hsc. rewrite Hs. lia.
Qed.

(** Fields that keep the largest census. *)
Record maximal (gm g : tally -> Z) : Prop := Maximal {
  mx_new : gm new_tally = 0;
  mx_fold : forall t c, gm (fold_tally t c) = Z.max (gm t) (g c);
}.
Lemma maximal_n : maximal t_n_max t_n.
Proof. by split. Qed.
Lemma maximal_rss : maximal t_rss_max t_rss.
Proof. by split. Qed.

Definition zmax {A} (f : A -> Z) (l : list A) : Z := foldl (fun m x => Z.max m (f x)) 0 l.
Lemma zmax_snoc {A} (f : A -> Z) l x : zmax f (l ++ [x]) = Z.max (zmax f l) (f x).
Proof. unfold zmax. by rewrite foldl_app. Qed.
Lemma zmax_nonneg {A} (f : A -> Z) l : 0 <= zmax f l.
Proof. induction l as [|x l IH] using rev_ind; [done|]. rewrite zmax_snoc. lia. Qed.

(** A census: whether its GPU query succeeded, and its user processes. *)
Definition census := (bool * list proc)%type.
Definition all_procs (cs : list census) : list proc := concat (map snd cs).

(** The state of an interval after the censuses [cs]. *)
Record tracks (cs : list census) (iv : interval) : Prop := Tracks {
  tr_samples : iv_samples iv = Z.of_nat (length cs);
  tr_gpu : iv_gpu_samples iv = zsum (fun c => Z.b2z c.1) cs;
  tr_node_wf : tally_wf (iv_node iv);
  tr_node : forall g f, additive g f -> g (iv_node iv) = zsum f (all_procs cs);
  tr_node_max : forall gm g f, maximal gm g -> additive g f ->
    gm (iv_node iv) = zmax (fun c => zsum f c.2) cs;
  tr_users : users_of (all_procs cs) (iv_users iv);
  tr_users_max : forall gm g f u, maximal gm g -> additive g f ->
    gm (default new_tally (dget u (iv_users iv))) = zmax (fun c => user_sum f u c.2) cs;
}.

Lemma tracks_new start : tracks [] (new_interval start).
Proof.
  split; cbn; try done.
  - apply new_tally_wf.
  - intros g f Ha. apply (ad_new _ _ Ha).
  - intros gm g f Hm _. apply (mx_new _ _ Hm).
  - apply users_of_nil.
  - intros gm g f u Hm _. apply (mx_new _ _ Hm).
Qed.

Lemma all_procs_snoc cs c : all_procs (cs ++ [c]) = all_procs cs ++ c.2.
Proof. unfold all_procs. rewrite map_app, concat_app. cbn. by rewrite app_nil_r. Qed.

Lemma tracks_add cs iv gpu ps : tracks cs iv -> tracks (cs ++ [(gpu, ps)]) (add_procs ps gpu iv).
Proof.
  intros [Hs Hg Hw Hn Hm Hu Hum].
  pose proof (census_users_of gpu ps) as Hc.
  split; cbn [add_procs iv_samples iv_gpu_samples iv_node iv_users].
  - rewrite length_app. cbn. lia.
  - rewrite zsum_app. cbn. lia.
  - by apply fold_tally_wf.
  - intros g f Ha. rewrite (ad_fold _ _ Ha) by (apply census_node_wf, new_tally_wf).
    rewrite all_procs_snoc, zsum_app, (Hn g f Ha), (census_node_sum g f gpu ps Ha). done.
  - intros gm g f Hmx Ha. rewrite (mx_fold _ _ Hmx), zmax_snoc, (Hm gm g f Hmx Ha).
    by rewrite (census_node_sum g f gpu ps Ha).
  - rewrite all_procs_snoc. by apply fold_users_of.
  - intros gm g f u Hmx Ha. rewrite zmax_snoc, <- (Hum gm g f u Hmx Ha). cbn [snd].
    fold (fold_users (iv_users iv) (census_users gpu ps)). rewrite dget_fold_users by apply Hc.
    pose proof (uo_sum _ _ Hc g f u Ha) as Hsum. destruct (dget u (census_users gpu ps)) as [t|].
    + cbn [default from_option] in *. unfold id in *. by rewrite (mx_fold _ _ Hmx), Hsum.
    + cbn [default from_option] in Hsum. rewrite (ad_new _ _ Ha) in Hsum. rewrite <- Hsum.
      rewrite (Hum gm g f u Hmx Ha). pose proof (zmax_nonneg (fun c => user_sum f u c.2) cs). lia.
Qed.

Definition run_censuses (cs : list census) (iv : interval) : interval :=
  foldl (fun iv c => add_procs c.2 c.1 iv) iv cs.

Lemma run_tracks start cs : tracks cs (run_censuses cs (new_interval start)).
Proof.
  induction cs as [|[gpu ps] cs IH] using rev_ind; [apply tracks_new|].
  unfold run_censuses in *. rewrite foldl_app. by apply tracks_add.
Qed.

(** Summing over the users gives the sum over all processes. *)
Lemma sum_over_users f ps (m : list (string * tally)) :
  users_of ps m -> zsum (fun ut => user_sum f ut.1 ps) m = zsum f ps.
Proof.
  intros [Hnd _ Hk _].
  assert (H : forall qs, (forall p, p ∈ qs -> p_username p ∈ dkeys m) -> zsum (fun ut => user_sum f ut.1 qs) m = zsum f qs).
  { induction qs as [|p qs IH]; intros Hin.
    - cbn. clear. induction m; cbn in *; lia.
    - cbn [zsum]. rewrite <- IH by set_solver.
      assert (H1 : zsum (fun ut => on_key p_username ut.1 f p) m = f p).
      { specialize (Hin p ltac:(set_solver)). clear -Hnd Hin. unfold dkeys in *. induction m as [|[u t] m IHm]; cbn in *; [set_solver|].
        apply NoDup_cons in Hnd as [Hni Hnd]. unfold on_key at 1. cbn [fst]. case_bool_decide as E.
        - subst u. rewrite (zsum_ext _ (fun _ => 0)).
          + clear. induction m; cbn; lia.
          + intros [u' t'] Hin'. unfold on_key. cbn. rewrite bool_decide_false; [done|]. intros E. apply Hni.
            apply list_elem_of_fmap. exists (u', t'). split; [exact E | exact Hin'].
        - apply elem_of_cons in Hin as [?|Hin]; [congruence|]. by rewrite IHm. }
      rewrite <- H1. clear. induction m as [|ut m IHm]; cbn [zsum]; [done|]. rewrite IHm.
      unfold user_sum. cbn [zsum]. lia. }
  apply H. intros p Hp. apply Hk. by exists p.
Qed.

(** ** The stream of censuses as consecutive intervals

    An abstract account of the aggregator: the stream is cut into spans, each span has a start
    and the censuses that fell in it, and what comes out are the summaries of closed spans. *)

Definition span := (datetime * list census)%type.
Definition span_interval (s : span) : interval := run_censuses s.2 (new_interval s.1).
Definition earlier (a b : span) : Prop := instant a.1 < instant b.1.

Definition input := (list dict * datetime * option string)%type.

(** The inputs one after the other, collecting what they emit. *)
Definition feed (ins : list input) : M usage (list (string * dict)) :=
  foldM (fun acc i => let* out := add_census i.1.1 i.1.2 i.2 in ret (acc ++ out)) [] ins.

(** The census of an input that was accepted. *)
Definition census_of (i : input) (c : census) : Prop :=
  c.1 = bool_decide (i.2 = Some "ok") /\ user_procs i.1.1 = Ok c.2.

Record account (expected : Z) (ins : list input) (closed : list span) (cur : option span)
    (out : list (string * dict)) (u : usage) : Prop := Account {
  ac_expected : u_expected u = expected;
  ac_open : u_open u = option_map span_interval cur;
  ac_out : out = concat (map (fun s => flush_interval expected (span_interval s)) closed);
  ac_sorted : StronglySorted earlier (closed ++ option_list cur);
  ac_all : Forall2 census_of ins (concat (map snd (closed ++ option_list cur)));
  ac_nonempty : Forall (fun s => s.2 <> []) (closed ++ option_list cur);
  ac_started : cur = None -> closed = [];
}.

Lemma run_censuses_snoc cs c iv : run_censuses (cs ++ [c]) iv = add_procs c.2 c.1 (run_censuses cs iv).
Proof. unfold run_censuses. by rewrite foldl_app. Qed.

Lemma run_censuses_start cs iv : iv_start (run_censuses cs iv) = iv_start iv.
Proof. revert iv. induction cs as [|c cs IH]; intros iv; cbn; [done|]. unfold run_censuses in IH. by rewrite IH. Qed.

Lemma samples_positive s : s.2 <> [] -> (iv_samples (span_interval s) =? 0) = false.
Proof.
  intros H. unfold span_interval. rewrite (tr_samples _ _ (run_tracks s.1 s.2)).
  apply Z.eqb_neq. destruct s.2; [done|]. cbn. lia.
Qed.

#[export] Instance earlier_trans : Transitive earlier.
Proof. unfold earlier. intros a b c ? ?. lia. Qed.

Lemma add_to_open_ok rows start gpu u ps :
  user_procs rows = Ok ps ->
  add_to_open rows start gpu u
  = (Ok tt, UsageAgg (u_interval u) (u_expected u)
              (Some (add_procs ps gpu (default (new_interval start) (u_open u))))).
Proof. intros H. unfold add_to_open, add_rows. by rewrite H. Qed.

(** A census joins the open span. *)
Lemma account_join expected ins closed s out u i c :
  account expected ins closed (Some s) out u -> census_of i c ->
  account expected (ins ++ [i]) closed (Some (s.1, s.2 ++ [c])) (out ++ [])
    (UsageAgg (u_interval u) (u_expected u) (Some (add_procs c.2 c.1 (span_interval s)))).
Proof.
  intros [He Ho Hout Hs Ha Hn _] Hc. split; cbn; [done | | by rewrite app_nil_r | | | | done].
  - f_equal. symmetry. apply (run_censuses_snoc s.2 c (new_interval s.1)).
  - by eapply StronglySorted_swap_last; [|exact Hs].
  - cbn in Ha. rewrite map_app, concat_app in *. cbn in *. rewrite app_nil_r in *.
    rewrite app_assoc. apply Forall2_app; [done|]. apply Forall2_cons_2; [exact Hc | apply Forall2_nil_2].
  - cbn in Hn. apply Forall_app in Hn as [H1 _]. apply Forall_app. split; [done|].
    constructor; [cbn; by destruct s.2 | constructor].
Qed.

(** A census opens a span, after closing the one before. *)
Lemma account_open expected ins closed cur out u i c start :
  account expected ins closed cur out u -> census_of i c ->
  (forall s, cur = Some s -> instant s.1 < instant start) ->
  account expected (ins ++ [i]) (closed ++ option_list cur) (Some (start, [c]))
    (out ++ concat (map (fun s => flush_interval expected (span_interval s)) (option_list cur)))
    (UsageAgg (u_interval u) (u_expected u) (Some (add_procs c.2 c.1 (new_interval start)))).
Proof.
  intros [He Ho Hout Hs Ha Hn Hst] Hc Hlt. split; cbn; [done | done | | | | | done].
  - by rewrite Hout, map_app, concat_app.
  - destruct cur as [s|]; cbn in *.
    + rewrite <- app_assoc. apply StronglySorted_snoc; [apply earlier_trans | done | by apply Hlt].
    + rewrite (Hst eq_refl). repeat constructor.
  - rewrite map_app, concat_app. cbn. apply Forall2_app; [done|]. apply Forall2_cons_2; [exact Hc | apply Forall2_nil_2].
  - apply Forall_app. split; [done|]. by repeat constructor.
Qed.

Lemma account_step expected ins closed cur out u i o u' :
  account expected ins closed cur out u ->
  add_census i.1.1 i.1.2 i.2 u = (Ok o, u') ->
  exists closed' cur', account expected (ins ++ [i]) closed' cur' (out ++ o) u'.
Proof.
  intros Hac E. destruct i as [[rows recv] gpu]. cbn [fst snd] in E. unfold add_census in E.
  destruct (require_aware recv); [|done]. set (start := interval_floor _ _) in E.
  destruct (user_procs rows) as [ps|e] eqn:Ep.
  2: { unfold bind, add_to_open, add_rows in E. rewrite Ep in E. by repeat case_match. }
  set (c := (bool_decide (gpu = Some "ok"), ps) : census).
  assert (Hc : census_of (rows, recv, gpu) c) by done.
  pose proof (ac_open _ _ _ _ _ _ Hac) as Ho. destruct cur as [s|]; cbn in Ho; rewrite Ho in E.
  - unfold span_interval at 1 in E. rewrite run_censuses_start in E. cbn [iv_start new_interval] in E.
    destruct (instant s.1 <? instant start) eqn:Elt.
    + pose proof (ac_nonempty _ _ _ _ _ _ Hac) as Hn. apply Forall_app in Hn as [_ Hn]. apply Forall_cons in Hn as [Hn _].
      unfold bind, flush in E. rewrite Ho, samples_positive in E by done.
      erewrite add_to_open_ok in E by exact Ep. cbn in E. injection E as <- <-.
      exists (closed ++ [s]), (Some (start, [c])). apply Z.ltb_lt in Elt.
      pose proof (account_open expected ins closed (Some s) out u (rows, recv, gpu) c start Hac Hc) as H.
      change (option_list (Some s)) with [s] in H. cbn [map concat] in H. rewrite app_nil_r in H.
      replace (flush_interval (u_expected u) (span_interval s)) with (flush_interval expected (span_interval s))
        by (by rewrite (ac_expected _ _ _ _ _ _ Hac)).
      apply H. by intros ? [= <-].
    + unfold bind at 1, ret at 1 in E. erewrite run_bind in E by (by apply add_to_open_ok). cbn in E.
      rewrite Ho in E. injection E as <- <-.
      exists closed, (Some (s.1, s.2 ++ [c])).
      exact (account_join expected ins closed s out u (rows, recv, gpu) c Hac Hc).
  - unfold bind at 1, ret at 1 in E. erewrite run_bind in E by (by apply add_to_open_ok). cbn in E.
    rewrite Ho in E. injection E as <- <-. exists (closed ++ []), (Some (start, [c])).
    pose proof (account_open expected ins closed None out u (rows, recv, gpu) c start Hac Hc) as H.
    cbn in H. by apply H.
Qed.

Lemma account_new summary census : account (u_expected (new_usage summary census)) [] [] None [] (new_usage summary census).
Proof. split; try done; constructor. Qed.

Lemma feed_account expected ins closed cur out u ins2 out2 u2 :
  account expected ins closed cur out u ->
  foldM (fun acc i => let* o := add_census i.1.1 i.1.2 i.2 in ret (acc ++ o)) out ins2 u = (Ok out2, u2) ->
  exists closed' cur', account expected (ins ++ ins2) closed' cur' out2 u2.
Proof.
  revert ins closed cur out u. induction ins2 as [|i ins2 IH]; intros ins closed cur out u Hac E.
  - cbn in E. injection E as <- <-. rewrite app_nil_r. eauto.
  - cbn [foldM] in E. unfold bind at 1 2 in E.
    destruct (add_census i.1.1 i.1.2 i.2 u) as [[o|e] u1] eqn:E1; [|done]. cbn in E.
    destruct (account_step _ _ _ _ _ _ _ _ _ Hac E1) as (closed' & cur' & Hac').
    change (i :: ins2) with ([i] ++ ins2). rewrite app_assoc. by eapply IH.
Qed.


(** ** Properties *)


Definition demo_ins : list input :=
  [([demo_proc "ann" "python" "active" (NFloat (flit 5 1)) 100; demo_proc "bob" "shell" "idle" (NInt 0) 10],
    utc 1700000100000000, None);
   ([demo_proc "ann" "python" "active" (NFloat (flit 5 1)) 300], utc 1700000160000000, Some "ok");
   ([], utc 1700000400000000, None)].


(** Every summary row has exactly the columns of its table, in their order. *)
Theorem summary_columns expected iv :
  Forall (fun kr : string * dict =>
            (kr.1 = USER_USAGE_5M /\ dkeys kr.2 = USER_USAGE_COLUMNS) \/
            (kr.1 = NODE_USAGE_5M /\ dkeys kr.2 = NODE_USAGE_COLUMNS)) (flush_interval expected iv).
Proof.
  unfold flush_interval. apply Forall_app. split.
  - apply Forall_forall. intros kr Hkr. apply list_elem_of_fmap in Hkr as (ut & -> & _). left. by split.
  - apply Forall_singleton. right. by split.
Qed.

(** The node's totals are the sums of its users': process count, resident memory,
    threads, processes in state D, interactive and unmeasured ones; and they are the totals
    over all user processes of the interval's censuses. *)
Theorem node_is_sum_of_users start cs :
  let iv := run_censuses cs (new_interval start) in
  let total f g := zsum (fun ut => g ut.2) (iv_users iv) = g (iv_node iv) /\ g (iv_node iv) = zsum f (all_procs cs) in
  total (fun _ => 1) t_n /\ total p_rss_kb t_rss /\ total p_threads t_threads /\
  total d_of t_d /\ total inter_of t_inter /\ total unmeasured_of t_unmeasured.
Proof.
  intros iv total. destruct (run_tracks start cs) as [_ _ _ Hn _ Hu _]. fold iv in Hn, Hu.
  assert (H : forall f g, additive g f -> total f g).
  { intros f g Ha. split; [|by apply Hn]. rewrite (Hn g f Ha), <- (sum_over_users f _ _ Hu).
    apply zsum_ext. intros [u t] Hin. cbn [fst snd]. rewrite <- (uo_sum _ _ Hu g f u Ha).
    apply elem_of_dict in Hin; [by rewrite Hin | apply Hu]. }
  split_and!; apply H;
    auto using additive_n, additive_rss, additive_threads, additive_d, additive_inter, additive_unmeasured.
Qed.

(** A user has an entry exactly when one of the censuses lists a process of theirs; its
    count and memory are the totals over those processes, and its maxima are the largest
    totals of a single census, a census without the user counting as zero. *)
Theorem user_entries_exact start cs u :
  let users := iv_users (run_censuses cs (new_interval start)) in
  (u ∈ dkeys users <-> exists p, p ∈ all_procs cs /\ p_username p = u) /\
  let t := default new_tally (dget u users) in
  t_n t = user_sum (fun _ => 1) u (all_procs cs) /\ t_rss t = user_sum p_rss_kb u (all_procs cs) /\
  t_n_max t = zmax (fun c => user_sum (fun _ => 1) u c.2) cs /\
  t_rss_max t = zmax (fun c => user_sum p_rss_kb u c.2) cs.
Proof.
  intros users. destruct (run_tracks start cs) as [_ _ _ _ _ Hu Hm]. fold users in Hu, Hm.
  split; [apply Hu|]. split_and!.
  - apply (uo_sum _ _ Hu t_n), additive_n.
  - apply (uo_sum _ _ Hu t_rss), additive_rss.
  - apply (Hm t_n_max t_n); [apply maximal_n | apply additive_n].
  - apply (Hm t_rss_max t_rss); [apply maximal_rss | apply additive_rss].
Qed.

(** In every summary, by_category and by_dormancy are the row and column sums of
    by_category_dormancy, and by_category adds up to the whole, for the counts and the
    resident memory: dropping the first two from user rows loses nothing of them. *)
Theorem category_dormancy_marginals start cs t :
  let iv := run_censuses cs (new_interval start) in
  t = iv_node iv \/ (exists u, dget u (iv_users iv) = Some t) ->
  forall m,
    (forall k, tget m k (t_category t) = cd_row m k (t_cat_dorm t)) /\
    (forall d, tget m d (t_dormancy t) = cd_col m d (t_cat_dorm t)) /\
    tsum m (t_category t) = match m with Count => t_n t | Rss => t_rss t end.
Proof.
  intros iv Ht m. destruct (run_tracks start cs) as [_ _ _ Hn _ Hu _]. fold iv in Hn, Hu.
  assert (H : forall g1 g2 f, additive g1 f -> additive g2 f -> g1 t = g2 t).
  { intros g1 g2 f H1 H2. destruct Ht as [->|[u Hu']].
    - by rewrite (Hn g1 f H1), (Hn g2 f H2).
    - pose proof (uo_sum _ _ Hu g1 f u H1) as E1. pose proof (uo_sum _ _ Hu g2 f u H2) as E2.
      rewrite Hu' in E1, E2. cbn in E1, E2. unfold id in *. congruence. }
  split_and!.
  - intros k. apply (H _ _ _ (additive_category m k) (additive_cd_row m k)).
  - intros d. apply (H _ _ _ (additive_dormancy m d) (additive_cd_col m d)).
  - destruct m; [apply (H _ _ _ (additive_category_sum Count) additive_n)
                | apply (H _ _ _ (additive_category_sum Rss) additive_rss)].
Qed.

Definition demo_procs : list proc :=
  match user_procs [demo_proc "ann" "python" "active" (NFloat (flit 5 1)) 100;
                    demo_proc "bob" "shell" "idle" (NInt 0) 10] with Ok ps => ps | Raise _ => [] end.

Lemma category_dormancy_marginals_witness :
  let t := iv_node (run_censuses [(true, demo_procs)] (new_interval (utc 0))) in
  (forall k, tget Rss k (t_category t) = cd_row Rss k (t_cat_dorm t)) /\
  (forall d, tget Rss d (t_dormancy t) = cd_col Rss d (t_cat_dorm t)) /\
  tsum Rss (t_category t) = t_rss t.
Proof.
  apply (category_dormancy_marginals (utc 0) [(true, demo_procs)]
           (iv_node (run_censuses [(true, demo_procs)] (new_interval (utc 0)))) (or_introl eq_refl) Rss).
Defined.

(** The CPU seconds of those maps are binary64 sums, taken in a different order: here
    by_category holds 0.6000000000000001 where the row of by_category_dormancy adds up to 0.6. *)
Example cpu_marginal_rounds :
  let p idle cpu := Proc "ann" (Some (NFloat cpu)) 1 None 1 "R" false "active" idle "absent" "python" None in
  let t := census_node true [p "<5m" (flit 1 1); p "5m-1h" (flit 1 1); p "<5m" (flit 4 1)] in
  (option_map c_cpu (dget "python" (t_category t)),
   option_map (fun row => foldl (fun s kc => fadd s (c_cpu kc.2)) fzero row) (dget "python" (t_cat_dorm t)))
  = (Some (int_truediv 6000000000000001 (10 ^ 16)), Some (flit 6 1)).
Proof. vm_compute. reflexivity. Qed.
