(* ===== verification/NodeMetrics.v ===== *)
(** * One-minute node metrics

    [node_monitor/pipeline/node_metrics.py]: counter messages folded into one row a minute.
    A message is the JSON object the probe sent; the aggregator is a state that the methods
    update, and an exception leaves what was done before it, as in the code.  Sets are
    iterated in the order of the first dictionary: the results do not depend on it, since the
    maps they fill are sorted when a minute closes. *)

From S2P Require Import Prelude PyTime PyFloat PyVal.

Open Scope py_scope.

Definition NODE_METRICS_COLUMNS : list string :=
  ["minute"; "cpu_pct"; "load1"; "load5"; "load15"; "procs_running"; "procs_total"; "socket_count";
   "mem_total_kb"; "mem_available_kb"; "mem_cached_kb"; "mem_shmem_kb"; "mem_used_kb"; "swap_used_kb";
   "network_rates"; "lustre_md_rates"; "gpus"; "gpu_status"; "sample_latency_sec"; "clock_offset_sec";
   "probe_cpu_seconds"; "probe_maxrss_kb"; "probe_rss_kb"; "sample_count"; "expected_count"].

Definition CPU_KEYS : list string :=
  ["user"; "nice"; "system"; "iowait"; "irq"; "softirq"; "steal"; "idle"].

Definition _MAX_PENDING_CENSUS_MINUTES : nat := 10.

(** ** Reading messages *)

(** [v or {}] of something that must then be a mapping *)
Definition or_empty (v : value) : res dict :=
  if truthy v then match v with VDict d => Ok d | _ => Raise AttributeError end else Ok [].

(** [v[k]] *)
Definition subscript (v : value) (k : string) : res value :=
  match v with VDict d => item k d | _ => Raise TypeError end.

Definition as_num (v : value) : res num :=
  match num_of v with Some n => Ok n | None => Raise TypeError end.

(** [_floor_minute] *)
Definition _floor_minute : datetime -> datetime := floor_minute.

(** [_parse_ts] ([%Y-%m-%dT%H:%M:%S.%fZ]): a field other than the year may have fewer digits
    than its width, the fraction counts from the left, the letters match in either case, and
    the date must exist.  Digits are the ASCII ones. *)
Fixpoint take_digits (max : nat) (n : nat) (acc : Z) (s : string) : nat * Z * string :=
  match max, s with
  | S max, String c s' => match digit_val c with
                          | Some v => take_digits max (S n) (10 * acc + v) s'
                          | None => (n, acc, s)
                          end
  | _, _ => (n, acc, s)
  end.

Definition number (max : nat) (lo hi : Z) (s : string) : option (Z * string) :=
  match take_digits max 0 0 s with
  | (O, _, _) => None
  | (_, v, s) => if (lo <=? v) && (v <=? hi) then Some (v, s) else None
  end.

(** [%d] also takes a space before a single digit. *)
Definition day_number (s : string) : option (Z * string) :=
  match s with
  | String " "%char s => number 1 1 9 s
  | _ => number 2 1 31 s
  end.

Definition microseconds (s : string) : option (Z * string) :=
  match take_digits 6 0 0 s with
  | (O, _, _) => None
  | (n, v, s) => Some (v * 10 ^ (6 - Z.of_nat n), s)
  end.

Definition letter (upper lower : ascii) (s : string) : option string :=
  match expect upper s with Some s => Some s | None => expect lower s end.

Definition _parse_ts (s : string) : option datetime :=
  '(y, s) ← unpad 4 0 s; s ← expect "-"%char s;
  '(mo, s) ← number 2 1 12 s; s ← expect "-"%char s;
  '(d, s) ← day_number s; s ← letter "T"%char "t"%char s;
  '(h, s) ← number 2 0 23 s; s ← expect ":"%char s;
  '(mi, s) ← number 2 0 59 s; s ← expect ":"%char s;
  '(se, s) ← number 2 0 59 s; s ← expect "."%char s;
  '(us, s) ← microseconds s; s ← letter "Z"%char "z"%char s;
  if decide (s = "" /\ 1 <= y /\ civil_of_days (days_of_civil (Civil y mo d)) = Civil y mo d)
  then Some (utc (days_of_civil (Civil y mo d) * day_us + h * hour_us + mi * minute_us
                  + se * second_us + us))
  else None.

Example parse_ts_ex :
  (_parse_ts "2023-11-14T22:13:20.123456Z", _parse_ts "2023-11-14T22:13:20.5z",
   _parse_ts "2023-02-29T22:13:20.123456Z", _parse_ts "2023-11-14T22:13:20Z")
  = (Some (utc 1700000000123456), Some (utc 1700000000500000), None, None).
Proof. vm_compute. reflexivity. Qed.

(** [target.split("-MDT")[0]] *)
Fixpoint before (sep s : string) : string :=
  if String.prefix sep s then "" else
  match s with "" => "" | String c s => String c (before sep s) end.

(** [_fs_totals]: per file system, per target, the total of operations *)
Definition _fs_totals (md_ops : value) : res (list (string * list (string * value))) :=
  d ← or_empty md_ops;
  foldl (fun acc tv =>
           out ← acc;
           match tv.2 with
           | VDict ops =>
               let fs := before "-MDT" tv.1 in
               Ok (dset fs (dset tv.1 (default (VInt 0) (dget "total" ops)) (default [] (dget fs out))) out)
           | _ => Raise AttributeError
           end) (Ok []) d.

(** ** State *)

(** [_Minute] *)
Record minute_state := Minute {
  mn_minute : datetime;
  mn_last : dict;
  mn_sample_count : Z;
  mn_offsets : list float;
  mn_cpu : list (string * num);
  mn_cpu_pairs : Z;
  mn_net : list (string * (num * num * float));
  mn_md : list (string * (num * float));
  mn_probe_cpu : num;
  mn_probe_pairs : Z;
  mn_probe_rss : value;
}.

Definition new_minute (m : datetime) : minute_state :=
  Minute m [] 0 [] (map (fun k => (k, NInt 0)) CPU_KEYS) 0 [] [] (NFloat fzero) 0 VNone.

(** A census held for its minute: its GPUs, the longest scan, its GPU status. *)
Record slot := Slot { sl_gpus : value; sl_scan : value; sl_status : value }.
Definition empty_slot : slot := Slot (VList []) VNone VNone.

Record minutes := Minutes {
  ma_expected : Z;
  ma_open : option minute_state;
  ma_prev : option (dict * datetime * Z);
  (* by the instant of the minute: equal datetimes are equal keys *)
  ma_census : list (Z * slot);
  ma_last_closed : option datetime;
}.

Definition set_open o a := Minutes (ma_expected a) o (ma_prev a) (ma_census a) (ma_last_closed a).
Definition set_prev p a := Minutes (ma_expected a) (ma_open a) p (ma_census a) (ma_last_closed a).
Definition set_census c a := Minutes (ma_expected a) (ma_open a) (ma_prev a) c (ma_last_closed a).

(** [MinuteAggregator.__init__] *)
Definition new_minutes (counter_interval : num) : minutes :=
  Minutes (round_int (fdiv (float_of_Z 60) (num_float counter_interval))) None None [] None.

(** [datetime] comparisons *)
Definition before_time (a b : datetime) : bool := instant a <? instant b.
Definition not_after (a b : datetime) : bool := instant a <=? instant b.

(** ** Censuses *)

(** The oldest minutes go until at most [_MAX_PENDING_CENSUS_MINUTES] are held; each turn of
    the loop removes one, so the number held is enough fuel. *)
Definition oldest (c : list (Z * slot)) : option Z :=
  match dkeys c with [] => None | k :: ks => Some (foldl Z.min k ks) end.
Fixpoint trim (fuel : nat) (c : list (Z * slot)) : list (Z * slot) :=
  match fuel with
  | O => c
  | S fuel =>
      if (_MAX_PENDING_CENSUS_MINUTES <? length c)%nat then
        match oldest c with Some k => trim fuel (ddel k c) | None => c end
      else c
  end.

(** [a > b] of two numbers or two strings (by code points); lists are not compared. *)
Definition greater (a b : value) : res bool :=
  match num_of a, num_of b, a, b with
  | Some x, Some y, _, _ => Ok (num_ltb y x)
  | _, _, VStr s, VStr t => Ok (negb (bool_decide (String.le s t)))
  | _, _, _, _ => Raise TypeError
  end.
Definition longest_scan (scan old : value) : res value :=
  match scan, old with
  | VNone, _ => Ok old
  | _, VNone => Ok scan
  | _, _ => g ← greater scan old; Ok (if (g : bool) then scan else old)
  end.

(** [add_census] *)
Definition add_census (msg : dict) (recv : datetime) : M minutes unit :=
  let* r := lift (require_aware recv) in
  let minute := _floor_minute r in
  let* a := gets id in
  if match ma_open a with Some m => before_time minute (mn_minute m) | None => false end then ret tt
  else if match ma_last_closed a with Some c => not_after minute c | None => false end then ret tt
  else
    let k := instant minute in
    let s := default empty_slot (dget k (ma_census a)) in
    let gpus := dget_or_none "gpus" msg in
    let s := Slot (if truthy gpus then gpus else VList []) (sl_scan s) (sl_status s) in
    modify (set_census (dset k s (ma_census a))) ;;;
    let* scan := lift (longest_scan (dget_or_none "scan_seconds" msg) (sl_scan s)) in
    let s := Slot (sl_gpus s) scan (dget_or_none "gpu_status" msg) in
    let c := dset k s (ma_census a) in
    modify (set_census (trim (length c) c)).

(** ** Pairs of counters *)

Definition on_open (f : minute_state -> minute_state) : M minutes unit :=
  modify (fun a => set_open (option_map f (ma_open a)) a).

(** [min(l)]: the first of the least *)
Definition num_min (x : num) (l : list num) : num :=
  foldl (fun acc y => if num_ltb y acc then y else acc) x l.

(** The CPU family: [None] when a key is missing on either side. *)
Fixpoint cpu_deltas (keys : list string) (ja jb : dict) : res (list (string * num)) :=
  match keys with
  | [] => Ok []
  | k :: keys =>
      b ← (item k jb ≫= as_num); a ← (item k ja ≫= as_num);
      ds ← cpu_deltas keys ja jb; Ok ((k, num_sub b a) :: ds)
  end.

Definition has_keys (keys : list string) (d : dict) : bool :=
  forallb (fun k => match dget k d with Some _ => true | None => false end) keys.

Definition add_cpu (a b : dict) : M minutes unit :=
  let* ja := lift (or_empty (dget_or_none "cpu_jiffies" a)) in
  let* jb := lift (or_empty (dget_or_none "cpu_jiffies" b)) in
  if has_keys CPU_KEYS ja && has_keys CPU_KEYS jb then
    let* d := lift (cpu_deltas CPU_KEYS ja jb) in
    if match dvalues d with x :: l => num_leb (NInt 0) (num_min x l) | [] => false end then
      on_open (fun m =>
        Minute (mn_minute m) (mn_last m) (mn_sample_count m) (mn_offsets m)
          (foldl (fun c kn => dset kn.1 (num_add (default (NInt 0) (dget kn.1 c)) kn.2) c) (mn_cpu m) d)
          (mn_cpu_pairs m + 1) (mn_net m) (mn_md m) (mn_probe_cpu m) (mn_probe_pairs m) (mn_probe_rss m))
    else ret tt
  else ret tt.

(** One interface seen in both messages. *)
Definition add_iface (na nb : dict) (elapsed : float) (iface : string) : M minutes unit :=
  let counter d key := v ← item iface d; v ← subscript v key; as_num v in
  let* rb := lift (counter nb "rx_bytes") in
  let* ra := lift (counter na "rx_bytes") in
  let* tb := lift (counter nb "tx_bytes") in
  let* ta := lift (counter na "tx_bytes") in
  let drx := num_sub rb ra in let dtx := num_sub tb ta in
  if num_ltb drx (NInt 0) || num_ltb dtx (NInt 0) then ret tt
  else
    on_open (fun m =>
      let '(rx, tx, el) := default (NInt 0, NInt 0, fzero) (dget iface (mn_net m)) in
      Minute (mn_minute m) (mn_last m) (mn_sample_count m) (mn_offsets m) (mn_cpu m) (mn_cpu_pairs m)
        (dset iface (num_add rx drx, num_add tx dtx, fadd el elapsed) (mn_net m))
        (mn_md m) (mn_probe_cpu m) (mn_probe_pairs m) (mn_probe_rss m)).

(** [a.keys() & b.keys()] *)
Definition both_keys {V} (a b : list (string * V)) : list string :=
  filter (fun k => is_Some (dget k b)) (dkeys a).

Definition add_net (a b : dict) (elapsed : float) : M minutes unit :=
  let* na := lift (or_empty (dget_or_none "net" a)) in
  let* nb := lift (or_empty (dget_or_none "net" b)) in
  foldM (fun _ iface => add_iface na nb elapsed iface) tt (both_keys na nb).

(** The deltas of a file system's targets seen in both messages. *)
Fixpoint target_deltas (ts : list string) (fa fb : list (string * value)) : res (list num) :=
  match ts with
  | [] => Ok []
  | t :: ts =>
      vb ← match dget t fb with Some v => as_num v | None => Raise (KeyError t) end;
      va ← match dget t fa with Some v => as_num v | None => Raise (KeyError t) end;
      ds ← target_deltas ts fa fb; Ok (num_sub vb va :: ds)
  end.

Definition add_fs (fa fb : list (string * list (string * value))) (elapsed : float) (fs : string)
    : M minutes unit :=
  let ta := default [] (dget fs fa) in let tb := default [] (dget fs fb) in
  let* ds := lift (target_deltas (both_keys ta tb) ta tb) in
  if match ds with [] => true | x :: l => num_ltb (num_min x l) (NInt 0) end then ret tt
  else
    on_open (fun m =>
      let '(n, el) := default (NInt 0, fzero) (dget fs (mn_md m)) in
      Minute (mn_minute m) (mn_last m) (mn_sample_count m) (mn_offsets m) (mn_cpu m) (mn_cpu_pairs m)
        (mn_net m) (dset fs (num_add n (foldl num_add (NInt 0) ds), fadd el elapsed) (mn_md m))
        (mn_probe_cpu m) (mn_probe_pairs m) (mn_probe_rss m)).

Definition add_md (a b : dict) (elapsed : float) : M minutes unit :=
  let* fa := lift (_fs_totals (dget_or_none "md_ops" a)) in
  let* fb := lift (_fs_totals (dget_or_none "md_ops" b)) in
  foldM (fun _ fs => add_fs fa fb elapsed fs) tt (both_keys fa fb).

(** [pa["cpu_seconds"] + pa["children_cpu_seconds"]] *)
Definition probe_cpu (p : dict) : res num :=
  a ← item "cpu_seconds" p; b ← item "children_cpu_seconds" p;
  a ← as_num a; b ← as_num b; Ok (num_add a b).

Definition add_probe (a b : dict) : M minutes unit :=
  let* pa := lift (or_empty (dget_or_none "probe_self" a)) in
  let* pb := lift (or_empty (dget_or_none "probe_self" b)) in
  let* both := try_except (let* ca := lift (probe_cpu pa) in let* cb := lift (probe_cpu pb) in ret (Some (ca, cb)))
                 (fun e => match e with KeyError _ => Some (ret None) | _ => None end) in
  match both with
  | None => ret tt
  | Some (ca, cb) =>
      if negb (num_leb ca cb) then ret tt
      else
        on_open (fun m =>
          Minute (mn_minute m) (mn_last m) (mn_sample_count m) (mn_offsets m) (mn_cpu m) (mn_cpu_pairs m)
            (mn_net m) (mn_md m) (num_add (mn_probe_cpu m) (num_sub cb ca)) (mn_probe_pairs m + 1)
            (mn_probe_rss m))
  end.

(** [_add_pair]: each family on its own *)
Definition _add_pair (a b : dict) (elapsed : float) : M minutes unit :=
  add_cpu a b ;;; add_net a b elapsed ;;; add_md a b elapsed ;;; add_probe a b.

(** ** Closing a minute *)

(** [statistics.median] of a non-empty list *)
#[export] Instance fleb_dec : RelDecision (fun a b => fleb a b = true).
Proof. intros a b. apply _. Defined.
Definition median (l : list float) : float :=
  let s := merge_sort (fun a b => fleb a b = true) l in
  let n := length s in
  if Nat.even n
  then fdiv (fadd (nth (n / 2 - 1) s fzero) (nth (n / 2) s fzero)) (float_of_Z 2)
  else nth (n / 2) s fzero.

Definition num_sum (l : list num) : num := foldl num_add (NInt 0) l.

Definition diff (a b : value) : res value :=
  match a, b with
  | VNone, _ | _, VNone => Ok VNone
  | _, _ => x ← as_num a; y ← as_num b; Ok (val_of (num_sub x y))
  end.

(** The row of a closed minute; [s] is the census held for it. *)
Definition minute_row (expected : Z) (m : minute_state) (s : slot) : res dict :=
  let last := mn_last m in
  let get k := dget_or_none k last in
  mem ← or_empty (get "mem");
  probe ← or_empty (get "probe_self");
  let total := num_sum (dvalues (mn_cpu m)) in
  let cpu_pct :=
    if negb (mn_cpu_pairs m =? 0) && num_ltb (NInt 0) total then
      VDict (map (fun k => (k, VFloat (round_digits 2
        (fdiv (fmul (float_of_Z 100) (num_float (default (NInt 0) (dget k (mn_cpu m))))) (num_float total)))))
        CPU_KEYS)
    else VNone in
  used ← diff (dget_or_none "total_kb" mem) (dget_or_none "available_kb" mem);
  swap ← diff (dget_or_none "swap_total_kb" mem) (dget_or_none "swap_free_kb" mem);
  Ok [("minute", VTime (mn_minute m));
      ("cpu_pct", cpu_pct);
      ("load1", get "load1"); ("load5", get "load5"); ("load15", get "load15");
      ("procs_running", get "procs_running"); ("procs_total", get "procs_total");
      ("socket_count", get "socket_count");
      ("mem_total_kb", dget_or_none "total_kb" mem);
      ("mem_available_kb", dget_or_none "available_kb" mem);
      ("mem_cached_kb", dget_or_none "cached_kb" mem);
      ("mem_shmem_kb", dget_or_none "shmem_kb" mem);
      ("mem_used_kb", used); ("swap_used_kb", swap);
      ("network_rates", VDict (map (fun e => let '(rx, tx, el) := e.2 in
         (e.1, VDict [("rx_bytes_per_sec", VFloat (fdiv (num_float rx) el));
                      ("tx_bytes_per_sec", VFloat (fdiv (num_float tx) el))])) (sorted_items (mn_net m))));
      ("lustre_md_rates", VDict (map (fun e => let '(n, el) := e.2 in
         (e.1, VFloat (fdiv (num_float n) el))) (sorted_items (mn_md m))));
      ("gpus", sl_gpus s); ("gpu_status", sl_status s);
      ("sample_latency_sec", sl_scan s);
      ("clock_offset_sec", match mn_offsets m with
                           | [] => VNone
                           | l => VFloat (round_digits 3 (median l))
                           end);
      ("probe_cpu_seconds", if mn_probe_pairs m =? 0 then VNone else val_of (mn_probe_cpu m));
      ("probe_maxrss_kb", dget_or_none "maxrss_kb" probe);
      ("probe_rss_kb", mn_probe_rss m);
      ("sample_count", VInt (mn_sample_count m)); ("expected_count", VInt expected)].

(** [_close]: the open minute goes, with its census and those of earlier minutes. *)
Definition _close (m : minute_state) : M minutes dict := fun a =>
  let k := instant (mn_minute m) in
  let s := default empty_slot (dget k (ma_census a)) in
  let rest := filter (fun ks => ~ ks.1 < k) (ddel k (ma_census a)) in
  (minute_row (ma_expected a) m s,
   Minutes (ma_expected a) None (ma_prev a) rest (Some (mn_minute m))).

(** [flush] *)
Definition flush : M minutes (list dict) :=
  let* o := gets ma_open in
  match o with
  | None => ret []
  | Some m => let* r := _close m in ret [r]
  end.

Definition seconds_between (a b : datetime) : float := int_truediv (instant a - instant b) second_us.

(** What [add_counters] does after the earlier minute is out: the message joins the open
    minute, or opens one, and the pair with the previous message touches only the rates. *)
Definition fold_message (msg : dict) (recv : datetime) (session_id : Z) : M minutes unit :=
  modify (fun a => set_open (Some (default (new_minute (_floor_minute recv)) (ma_open a))) a) ;;;
  on_open (fun m => Minute (mn_minute m) msg (mn_sample_count m + 1) (mn_offsets m) (mn_cpu m)
                      (mn_cpu_pairs m) (mn_net m) (mn_md m) (mn_probe_cpu m) (mn_probe_pairs m) (mn_probe_rss m)) ;;;
  let* ps := lift (or_empty (dget_or_none "probe_self" msg)) in
  match dget_or_none "rss_kb" ps with
  | VNone => ret tt
  | rss => on_open (fun m => Minute (mn_minute m) (mn_last m) (mn_sample_count m) (mn_offsets m) (mn_cpu m)
                      (mn_cpu_pairs m) (mn_net m) (mn_md m) (mn_probe_cpu m) (mn_probe_pairs m) rss)
  end ;;;
  match dget "ts" msg with
  | Some (VStr s) =>
      match _parse_ts s with
      | Some t => on_open (fun m => Minute (mn_minute m) (mn_last m) (mn_sample_count m)
                    (mn_offsets m ++ [seconds_between recv t]) (mn_cpu m)
                    (mn_cpu_pairs m) (mn_net m) (mn_md m) (mn_probe_cpu m) (mn_probe_pairs m) (mn_probe_rss m))
      | None => ret tt
      end
  | _ => ret tt
  end ;;;
  let* prev := gets ma_prev in
  modify (set_prev (Some (msg, recv, session_id))) ;;;
  match prev with
  | Some (pmsg, precv, psession) =>
      if psession =? session_id then
        let elapsed := seconds_between recv precv in
        if fltb fzero elapsed then _add_pair pmsg msg elapsed else ret tt
      else ret tt
  | None => ret tt
  end.

(** [add_counters] *)
Definition add_counters (msg : dict) (recv : datetime) (session_id : Z) : M minutes (list dict) :=
  let* r := lift (require_aware recv) in
  let* o := gets ma_open in
  let* rows := match o with
               | Some m => if before_time (mn_minute m) (_floor_minute r)
                           then let* r := _close m in ret [r] else ret []
               | None => ret []
               end in
  fold_message msg recv session_id ;;;
  ret rows.

(** ** What the steps leave alone *)

(** The part of the state that folding a pair of counters never touches. *)
Definition frame_of (a : minutes) :=
  (ma_expected a, option_map (fun m => (mn_minute m, mn_last m, mn_sample_count m)) (ma_open a),
   ma_census a, ma_last_closed a).

Lemma keeps_on_open (I : minutes -> Prop) f :
  (forall m a, ma_open a = Some m -> I a -> I (set_open (Some (f m)) a)) -> keeps I (on_open f).
Proof.
  intros H. apply keeps_modify. intros a Ha. destruct (ma_open a) as [m|] eqn:E; cbn; [by apply H|].
  destruct a; cbn in *. by subst.
Qed.

(** Folding a pair is a fold of four families; a property of the open minute that each
    family keeps is kept. *)
Section Families.
Context (I : minutes -> Prop).

Definition stable (f : minute_state -> minute_state) : Prop :=
  forall m a, ma_open a = Some m -> I a -> I (set_open (Some (f m)) a).

Lemma keeps_add_cpu a b :
  (forall d, stable (fun m => Minute (mn_minute m) (mn_last m) (mn_sample_count m) (mn_offsets m)
     (foldl (fun c kn => dset kn.1 (num_add (default (NInt 0) (dget kn.1 c)) kn.2) c) (mn_cpu m) d)
     (mn_cpu_pairs m + 1) (mn_net m) (mn_md m) (mn_probe_cpu m) (mn_probe_pairs m) (mn_probe_rss m))) ->
  keeps I (add_cpu a b).
Proof.
  intros H. unfold add_cpu. repeat (apply keeps_bind; [apply keeps_lift | intros ?]).
  destruct (_ && _); [|apply keeps_ret]. apply keeps_bind; [apply keeps_lift | intros d].
  destruct (dvalues d); [apply keeps_ret|]. destruct (num_leb _ _); [|apply keeps_ret].
  apply keeps_on_open, H.
Qed.

Lemma keeps_add_net a b el :
  (forall net, stable (fun m => Minute (mn_minute m) (mn_last m) (mn_sample_count m) (mn_offsets m)
     (mn_cpu m) (mn_cpu_pairs m) (net m) (mn_md m) (mn_probe_cpu m) (mn_probe_pairs m) (mn_probe_rss m))) ->
  keeps I (add_net a b el).
Proof.
  intros H. unfold add_net. repeat (apply keeps_bind; [apply keeps_lift | intros ?]).
  apply keeps_foldM. intros _ iface. unfold add_iface.
  repeat (apply keeps_bind; [apply keeps_lift | intros ?]).
  destruct (_ || _); [apply keeps_ret|]. apply keeps_on_open. intros m s E Hs.
  pose proof (H (fun m => let '(rx, tx, e) := default (NInt 0, NInt 0, fzero) (dget iface (mn_net m)) in
     dset iface (num_add rx (num_sub a2 a3), num_add tx (num_sub a4 a5), fadd e el) (mn_net m)) m s E Hs) as Hn.
  cbv beta in Hn. by destruct (default _ (dget iface (mn_net m))) as [[rx tx] e].
Qed.

Lemma keeps_add_md a b el :
  (forall md, stable (fun m => Minute (mn_minute m) (mn_last m) (mn_sample_count m) (mn_offsets m)
     (mn_cpu m) (mn_cpu_pairs m) (mn_net m) (md m) (mn_probe_cpu m) (mn_probe_pairs m) (mn_probe_rss m))) ->
  keeps I (add_md a b el).
Proof.
  intros H. unfold add_md. repeat (apply keeps_bind; [apply keeps_lift | intros ?]).
  apply keeps_foldM. intros _ fs. unfold add_fs.
  apply keeps_bind; [apply keeps_lift | intros ds].
  case_match; [apply keeps_ret|]. apply keeps_on_open. intros m s E Hs.
  pose proof (H (fun m => let '(n, e) := default (NInt 0, fzero) (dget fs (mn_md m)) in
     dset fs (num_add n (foldl num_add (NInt 0) ds), fadd e el) (mn_md m)) m s E Hs) as Hn.
  cbv beta in Hn. by destruct (default _ (dget fs (mn_md m))) as [n e].
Qed.

Lemma keeps_add_probe a b :
  (forall c, stable (fun m => Minute (mn_minute m) (mn_last m) (mn_sample_count m) (mn_offsets m)
     (mn_cpu m) (mn_cpu_pairs m) (mn_net m) (mn_md m) (c m) (mn_probe_pairs m + 1) (mn_probe_rss m))) ->
  keeps I (add_probe a b).
Proof.
  intros H. unfold add_probe. do 2 (apply keeps_bind; [apply keeps_lift | intros ?]).
  apply keeps_bind.
  - apply keeps_try; [|intros [] k [= <-]; apply keeps_ret].
    repeat (apply keeps_bind; [apply keeps_lift | intros ?]). apply keeps_ret.
  - intros [[ca cb]|]; [|apply keeps_ret]. destruct (negb _); [apply keeps_ret|].
    apply keeps_on_open, (H (fun m => num_add (mn_probe_cpu m) (num_sub cb ca))).
Qed.
End Families.

Lemma keeps_pair_frame fr a b el : keeps (fun s => frame_of s = fr) (_add_pair a b el).
Proof.
  unfold _add_pair.
  repeat (apply keeps_bind; [|intros _]);
    first [apply keeps_add_cpu; intros d | apply keeps_add_net; intros net
          | apply keeps_add_md; intros md | apply keeps_add_probe; intros c];
    intros m s E <-; unfold frame_of; cbn; by rewrite E.
Qed.

(** ** The stream of minutes *)

(** A counters message with its receive time and session. *)
Definition counters := (dict * datetime * Z)%type.
Definition in_msg (c : counters) : dict := c.1.1.
Definition in_recv (c : counters) : datetime := c.1.2.
Definition minute_at (c : counters) : Z := instant (_floor_minute (in_recv c)).

(** A group is the messages folded into one minute: the first one names the minute, the
    others come no later than it (those of an earlier minute by a clock stepping back). *)
Record group := Group { g_first : counters; g_rest : list counters }.
Definition g_all (g : group) : list counters := g_first g :: g_rest g.
Definition g_last (g : group) : counters := default (g_first g) (last (g_all g)).
Definition g_minute (g : group) : Z := minute_at (g_first g).
Definition well_grouped (g : group) : Prop := Forall (fun c => minute_at c <= g_minute g) (g_all g).

Definition GAUGES : list string := ["load1"; "load5"; "load15"; "procs_running"; "procs_total"; "socket_count"].

(** The row of a group: every column, the minute of its first message, the gauges of its
    last one, and how many messages it has. *)
Record row_of (expected : Z) (g : group) (r : dict) : Prop := RowOf {
  ro_columns : dkeys r = NODE_METRICS_COLUMNS;
  ro_minute : dget "minute" r = Some (VTime (_floor_minute (in_recv (g_first g))));
  ro_samples : dget "sample_count" r = Some (VInt (Z.of_nat (length (g_all g))));
  ro_expected : dget "expected_count" r = Some (VInt expected);
  ro_gauges : Forall (fun k => dget k r = Some (dget_or_none k (in_msg (g_last g)))) GAUGES;
}.

(** The open minute holds the group's minute, last message and count. *)
Definition opens (m : minute_state) (g : group) : Prop :=
  mn_minute m = _floor_minute (in_recv (g_first g)) /\ mn_last m = in_msg (g_last g) /\
  mn_sample_count m = Z.of_nat (length (g_all g)).

Lemma minute_row_of expected m s g r :
  opens m g -> minute_row expected m s = Ok r -> row_of expected g r.
Proof.
  intros (Hm & Hl & Hc) E. unfold minute_row in E. cbv zeta in E.
  destruct (or_empty (dget_or_none "mem" _)) as [mem|]; unfold mbind, res_bind in E; cbv beta iota zeta in E; [|discriminate].
  destruct (or_empty (dget_or_none "probe_self" _)) as [probe|]; unfold mbind, res_bind in E; cbv beta iota zeta in E; [|discriminate].
  destruct (diff _ _) as [used|]; unfold mbind, res_bind in E; cbv beta iota zeta in E; [|discriminate].
  destruct (diff _ _) as [swap|]; unfold mbind, res_bind in E; cbv beta iota zeta in E; [|discriminate].
  injection E as <-. split; rewrite <- ?Hm, <- ?Hl, <- ?Hc; by repeat constructor.
Qed.

Definition g_add (g : group) (c : counters) : group := Group (g_first g) (g_rest g ++ [c]).

Lemma g_last_add g c : g_last (g_add g c) = c.
Proof. unfold g_last. change (g_all (g_add g c)) with (g_all g ++ [c]). by rewrite last_snoc. Qed.

Lemma g_all_add g c : g_all (g_add g c) = g_all g ++ [c].
Proof. done. Qed.

Definition head_of (m : minute_state) := (mn_minute m, mn_last m, mn_sample_count m).

(** The message joins the open minute, or opens its own; the pair with the previous message
    touches only the rates. *)
Lemma fold_message_frame msg recv sid a :
  let m0 := default (new_minute (_floor_minute recv)) (ma_open a) in
  frame_of (snd (fold_message msg recv sid a))
  = (ma_expected a, Some (mn_minute m0, msg, mn_sample_count m0 + 1), ma_census a, ma_last_closed a).
Proof.
  intros m0. unfold fold_message.
  set (rest := fun _ : unit => bind (on_open _) _). unfold bind at 1, modify at 1.
  set (a1 := set_open _ a). subst rest. cbv beta.
  set (rest := fun _ : unit => bind (lift _) _). unfold bind at 1, on_open at 1, modify at 1.
  set (a2 := set_open _ a1). set (fr := (ma_expected a, _, _, _)).
  assert (H2 : frame_of a2 = fr) by done.
  enough (Hk : keeps (fun s => frame_of s = fr) (rest tt)) by exact (Hk a2 H2).
  subst rest. cbv beta. apply keeps_bind; [apply keeps_lift | intros ps].
  assert (Ho : forall f, (forall m, head_of (f m) = head_of m) -> keeps (fun s => frame_of s = fr) (on_open f)).
  { intros f Hf. apply keeps_on_open. intros m s E <-. unfold frame_of. cbn. rewrite E. cbn.
    specialize (Hf m). unfold head_of in Hf. by rewrite Hf. }
  apply keeps_bind; [|intros _].
  { case_match; solve [apply keeps_ret | by apply Ho]. }
  apply keeps_bind; [|intros _].
  { repeat case_match; solve [apply keeps_ret | by apply Ho]. }
  apply keeps_bind; [apply keeps_gets | intros prev].
  apply keeps_bind; [by apply keeps_modify | intros _].
  destruct prev as [[[pmsg precv] psid]|]; [|apply keeps_ret].
  repeat apply keeps_if; try apply keeps_ret. apply keeps_pair_frame.
Qed.

(** Counters and censuses as they come, with what they emit collected in order. *)
Inductive input := InCounters (c : counters) | InCensus (msg : dict) (recv : datetime).

Definition step_input (i : input) : M minutes (list dict) :=
  match i with
  | InCounters c => add_counters (in_msg c) (in_recv c) c.2
  | InCensus msg recv => add_census msg recv ;;; ret []
  end.
Definition feed (out : list dict) (ins : list input) : M minutes (list dict) :=
  foldM (fun acc i => let* rows := step_input i in ret (acc ++ rows)) out ins.
Definition counters_of (i : input) : list counters :=
  match i with InCounters c => [c] | InCensus _ _ => [] end.

Lemma add_census_frame msg recv a :
  let a' := snd (add_census msg recv a) in
  ma_expected a' = ma_expected a /\ ma_open a' = ma_open a /\ ma_last_closed a' = ma_last_closed a.
Proof.
  intros a'.
  set (fr := fun a => (ma_expected a, ma_open a, ma_last_closed a)).
  enough (H : fr a' = fr a) by (by injection H).
  enough (Hk : keeps (fun s => fr s = fr a) (add_census msg recv)) by exact (Hk a eq_refl).
  unfold add_census. apply keeps_bind; [apply keeps_lift | intros r].
  apply keeps_bind; [apply keeps_gets | intros s]. repeat apply keeps_if; try apply keeps_ret.
  apply keeps_bind; [by apply keeps_modify | intros _].
  apply keeps_bind; [apply keeps_lift | intros scan; by apply keeps_modify].
Qed.

Definition earlier_group (g1 g2 : group) : Prop := g_minute g1 < g_minute g2.
#[export] Instance earlier_group_trans : Transitive earlier_group.
Proof. unfold earlier_group. intros a b c ? ?. lia. Qed.

Record account (expected : Z) (ins : list input) (closed : list group) (cur : option group)
    (out : list dict) (a : minutes) : Prop := Account {
  ac_expected : ma_expected a = expected;
  ac_open : match ma_open a, cur with
            | Some m, Some g => opens m g | None, None => True | _, _ => False
            end;
  ac_rows : Forall2 (row_of expected) closed out;
  ac_all : concat (map counters_of ins) = concat (map g_all (closed ++ option_list cur));
  ac_sorted : StronglySorted earlier_group (closed ++ option_list cur);
  ac_grouped : Forall well_grouped (closed ++ option_list cur);
  ac_started : cur = None -> closed = [];
}.

Lemma minute_account_new n : account (ma_expected (new_minutes n)) [] [] None [] (new_minutes n).
Proof. split; try done; constructor. Qed.

Lemma account_census expected ins closed cur out a msg recv a' :
  account expected ins closed cur out a -> (add_census msg recv a).2 = a' ->
  account expected (ins ++ [InCensus msg recv]) closed cur (out ++ []) a'.
Proof.
  intros [He Ho Hr Ha Hs Hg Hst] <-. destruct (add_census_frame msg recv a) as (E1 & E2 & E3).
  rewrite app_nil_r. split; try done.
  - by rewrite E1.
  - by rewrite E2.
  - rewrite map_app, concat_app. cbn. by rewrite app_nil_r.
Qed.

(** What the open minute is after folding a message. *)
Lemma fold_message_opens msg recv sid a :
  let a' := snd (fold_message msg recv sid a) in
  let m0 := default (new_minute (_floor_minute recv)) (ma_open a) in
  ma_expected a' = ma_expected a /\ ma_last_closed a' = ma_last_closed a /\ ma_census a' = ma_census a /\
  exists m', ma_open a' = Some m' /\ mn_minute m' = mn_minute m0 /\ mn_last m' = msg /\
             mn_sample_count m' = mn_sample_count m0 + 1.
Proof.
  intros a' m0. pose proof (fold_message_frame msg recv sid a) as H. cbv zeta in H. fold a' m0 in H.
  unfold frame_of in H. injection H as H1 H2 H3 H4.
  destruct (ma_open a') as [m'|]; [|done]. cbn in H2. injection H2 as ? ? ?.
  split_and!; try done. by exists m'.
Qed.

Lemma minute_account_join expected ins closed g out a c a' :
  account expected ins closed (Some g) out a ->
  minute_at c <= g_minute g ->
  (fold_message (in_msg c) (in_recv c) c.2 a).2 = a' ->
  account expected (ins ++ [InCounters c]) closed (Some (g_add g c)) (out ++ []) a'.
Proof.
  intros [He Ho Hr Ha Hs Hg _] Hc <-. rewrite app_nil_r.
  destruct (fold_message_opens (in_msg c) (in_recv c) c.2 a) as (E1 & E2 & _ & m' & Em & F1 & F2 & F3).
  destruct (ma_open a) as [m|]; [|done]. destruct Ho as (G1 & G2 & G3). cbn [default] in F1, F3. unfold id in F1, F3.
  split; try done.
  - by rewrite E1.
  - rewrite Em. split_and!; [by rewrite F1 | by rewrite g_last_add |].
    rewrite F3, G3, g_all_add, length_app. cbn. lia.
  - rewrite map_app, concat_app, Ha. cbn [option_list]. rewrite !map_app, !concat_app. cbn. rewrite !app_nil_r.
    by rewrite <- app_assoc.
  - by eapply StronglySorted_swap_last; [|exact Hs].
  - cbn in *. apply Forall_app in Hg as [H1 H2]. apply Forall_app. split; [done|].
    apply Forall_cons in H2 as [H2 _]. apply Forall_singleton. unfold well_grouped in *.
    rewrite g_all_add. apply Forall_app. split; [done|]. by apply Forall_singleton.
Qed.

Lemma minute_account_open expected ins closed cur out a a1 c rows a' :
  account expected ins closed cur out a ->
  (forall g, cur = Some g -> g_minute g < minute_at c) ->
  Forall2 (row_of expected) (option_list cur) rows ->
  ma_expected a1 = expected -> ma_open a1 = None ->
  (fold_message (in_msg c) (in_recv c) c.2 a1).2 = a' ->
  account expected (ins ++ [InCounters c]) (closed ++ option_list cur) (Some (Group c [])) (out ++ rows) a'.
Proof.
  intros [He Ho Hr Ha Hs Hg Hst] Hlt Hrows He1 Ho1 <-.
  destruct (fold_message_opens (in_msg c) (in_recv c) c.2 a1) as (E1 & E2 & _ & m' & Em & F1 & F2 & F3).
  rewrite Ho1 in F1, F3. cbn in F1, F3. split; try done.
  - by rewrite E1.
  - by rewrite Em.
  - by apply Forall2_app.
  - rewrite map_app, concat_app, Ha. rewrite (map_app _ (closed ++ option_list cur)), concat_app. cbn. done.
  - destruct cur as [g|]; cbn [option_list] in *.
    + rewrite <- app_assoc. apply StronglySorted_snoc; [apply _ | done | by apply Hlt].
    + rewrite (Hst eq_refl). repeat constructor.
  - apply Forall_app. split; [done|]. apply Forall_singleton. by repeat constructor.
Qed.

Lemma close_run m a :
  (_close m a).1 = minute_row (ma_expected a) m (default empty_slot (dget (instant (mn_minute m)) (ma_census a))) /\
  ma_expected (_close m a).2 = ma_expected a /\ ma_open (_close m a).2 = None.
Proof. done. Qed.

Lemma account_counters expected ins closed cur out a c rows a' :
  account expected ins closed cur out a ->
  add_counters (in_msg c) (in_recv c) c.2 a = (Ok rows, a') ->
  exists closed' cur', account expected (ins ++ [InCounters c]) closed' cur' (out ++ rows) a'.
Proof.
  intros Hac E. unfold add_counters in E.
  destruct (require_aware (in_recv c)) as [r|] eqn:Er; [|discriminate E].
  unfold require_aware in Er. destruct (is_aware _); [|discriminate]. injection Er as <-.
  unfold bind at 1, lift at 1 in E. unfold bind at 1, gets at 1 in E.
  set (fm := fun rows => bind (fold_message _ _ _) _) in E.
  assert (Hfm : forall rows0 a0, fm rows0 a0 = (Ok rows, a') ->
            rows0 = rows /\ (fold_message (in_msg c) (in_recv c) c.2 a0).2 = a').
  { intros rows0 a0. subst fm. cbv beta. unfold bind at 1, ret at 1.
    destruct (fold_message _ _ _ a0) as [[[]|e] a1]; by intros [= -> ->]. }
  pose proof (ac_open _ _ _ _ _ _ Hac) as Ho. pose proof (ac_expected _ _ _ _ _ _ Hac) as He.
  destruct (ma_open a) as [m|] eqn:Eo; [|unfold bind at 1, ret at 1 in E].
  - destruct cur as [g|]; [|done]. destruct Ho as (G1 & G2 & G3).
    unfold before_time in E. rewrite G1 in E.
    destruct (Z.ltb_spec (instant (_floor_minute (in_recv (g_first g)))) (instant (_floor_minute (in_recv c)))) as [Hlt|Hge].
    + unfold bind at 1 2 in E. destruct (close_run m a) as (C1 & C2 & C3).
      destruct (_close m a) as [[r|e] a1]; [|discriminate E]. cbn in C1, C2, C3.
      unfold ret at 1 in E. apply Hfm in E as [<- <-].
      eexists _, _. eapply minute_account_open; [exact Hac | | | | exact C3 | done].
      * by intros ? [= <-].
      * apply Forall2_cons_2; [|apply Forall2_nil_2].
        apply (minute_row_of _ m (default empty_slot (dget (instant (mn_minute m)) (ma_census a)))); [done|].
        by rewrite <- He.
      * by rewrite C2.
    + unfold bind at 1, ret at 1 in E. apply Hfm in E as [<- <-].
      eexists _, _. by eapply minute_account_join.
  - destruct cur as [g|]; [done|]. apply Hfm in E as [<- <-].
    eexists _, _. by eapply minute_account_open.
Qed.

Lemma minute_feed_account expected ins closed cur out a ins2 out2 a2 :
  account expected ins closed cur out a -> feed out ins2 a = (Ok out2, a2) ->
  exists closed' cur', account expected (ins ++ ins2) closed' cur' out2 a2.
Proof.
  revert ins closed cur out a. induction ins2 as [|i ins2 IH]; intros ins closed cur out a Hac E.
  - cbn in E. injection E as <- <-. rewrite app_nil_r. eauto.
  - unfold feed in E. cbn [foldM] in E. unfold bind at 1 2 in E.
    destruct (step_input i a) as [[o|e] u1] eqn:E1; [|done]. cbn in E.
    assert (exists closed' cur', account expected (ins ++ [i]) closed' cur' (out ++ o) u1) as (c' & g' & H').
    { destruct i as [c|msg recv]; cbn in E1.
      - by eapply account_counters.
      - unfold bind at 1, ret at 1 in E1. destruct (add_census msg recv a) as [[[]|e] a1] eqn:E2; [|done].
        injection E1 as <- <-. eexists _, _. eapply account_census; [done|]. by rewrite E2. }
    change (i :: ins2) with ([i] ++ ins2). rewrite app_assoc. by eapply IH.
Qed.

(** ** Pending censuses *)

Lemma oldest_spec c k :
  oldest c = Some k -> k ∈ dkeys c /\ Forall (fun x => k <= x) (dkeys c).
Proof.
  unfold oldest. destruct (dkeys c) as [|k0 ks]; [done|]. intros [= <-].
  enough (H : forall acc, (foldl Z.min acc ks = acc \/ foldl Z.min acc ks ∈ ks) /\
              Forall (fun x => foldl Z.min acc ks <= x) (acc :: ks)).
  { destruct (H k0) as [Hin Hle]. split; [set_solver | done]. }
  induction ks as [|x ks IH]; intros acc; cbn; [split; [by left | repeat constructor; lia]|].
  destruct (IH (Z.min acc x)) as [Hin Hle]. apply Forall_cons in Hle as [Hl Hle].
  split; [|repeat constructor; try lia; done].
  destruct Hin as [->|Hin]; [|right; set_solver]. destruct (Z.min_spec acc x) as [[_ ->]|[_ ->]]; set_solver.
Qed.

Lemma ddel_keys {V} k (d : list (Z * V)) x : x ∈ dkeys (ddel k d) -> x ∈ dkeys d.
Proof.
  induction d as [|[k' v] d IH]; cbn; [done|]. destruct (decide (k' = k)); cbn; set_solver.
Qed.

Lemma length_ddel {V} k (d : list (Z * V)) : k ∈ dkeys d -> S (length (ddel k d)) = length d.
Proof.
  induction d as [|[k' v] d IH]; cbn; [set_solver|]. destruct (decide (k' = k)); cbn; [done|].
  intros H. rewrite IH; set_solver.
Qed.

Lemma ddel_split {V} k (d : list (Z * V)) x : x ∈ dkeys d -> x = k \/ x ∈ dkeys (ddel k d).
Proof.
  induction d as [|[k' v] d IH]; cbn; [set_solver|]. destruct (decide (k' = k)) as [->|]; cbn; set_solver.
Qed.

(** [trim] ends with at most the limit, and every minute it dropped is no newer than any it kept. *)
Lemma trim_spec fuel c :
  (length c <= fuel)%nat ->
  (length (trim fuel c) <= _MAX_PENDING_CENSUS_MINUTES)%nat /\
  (forall x, x ∈ dkeys (trim fuel c) -> x ∈ dkeys c) /\
  (forall x y, x ∈ dkeys c -> x ∉ dkeys (trim fuel c) -> y ∈ dkeys (trim fuel c) -> x <= y) /\
  ((length c <= _MAX_PENDING_CENSUS_MINUTES)%nat -> trim fuel c = c).
Proof.
  revert c. induction fuel as [|fuel IH]; intros c Hf; cbn [trim].
  - destruct c; cbn in *; [|lia]. split_and!; [unfold _MAX_PENDING_CENSUS_MINUTES; lia | set_solver | set_solver | done].
  - destruct (Nat.ltb_spec _MAX_PENDING_CENSUS_MINUTES (length c)) as [Hlt|Hge].
    2: { split_and!; [lia | done | set_solver | done]. }
    destruct (oldest c) as [k|] eqn:Eo.
    2: { unfold oldest in Eo. destruct c; cbn in *; [unfold _MAX_PENDING_CENSUS_MINUTES in Hlt; lia | done]. }
    apply oldest_spec in Eo as [Hk Hmin]. pose proof (length_ddel k c Hk) as Hlen.
    destruct (IH (ddel k c)) as (H1 & H2 & H3 & H4); [lia|]. split_and!; [done | | | lia].
    + intros x Hx. by eapply ddel_keys, H2.
    + intros x y Hx Hnx Hy. destruct (ddel_split k c x Hx) as [->|Hx'].
      * rewrite Forall_forall in Hmin. apply Hmin. by eapply ddel_keys, H2.
      * by apply H3.
Qed.

(** The pending censuses are keyed by minute, at most the limit, each after the last minute
    closed. *)
Record census_inv (a : minutes) : Prop := CensusInv {
  ci_keys : NoDup (dkeys (ma_census a));
  ci_bound : (length (ma_census a) <= _MAX_PENDING_CENSUS_MINUTES)%nat;
  ci_after : match ma_last_closed a with
             | Some c => Forall (fun k => instant c < k) (dkeys (ma_census a))
             | None => True
             end;
}.

Lemma ddel_sublist {V} k (d : list (Z * V)) : ddel k d `sublist_of` d.
Proof.
  induction d as [|[k' v] d IH]; cbn; [done|]. destruct (decide (k' = k)); [by apply sublist_cons | by apply sublist_skip].
Qed.

Lemma dkeys_sublist {V} (d1 d2 : list (Z * V)) : d1 `sublist_of` d2 -> dkeys d1 `sublist_of` dkeys d2.
Proof. unfold dkeys. induction 1; cbn; by constructor. Qed.

Lemma Forall_sub {A} (P : A -> Prop) l1 l2 : l1 `sublist_of` l2 -> Forall P l2 -> Forall P l1.
Proof. intros Hs. rewrite !Forall_forall. intros H x Hx. by eapply H, elem_of_sublist. Qed.

Lemma trim_sublist fuel c : trim fuel c `sublist_of` c.
Proof.
  revert c. induction fuel as [|fuel IH]; intros c; cbn [trim]; [done|].
  destruct (_ <? _)%nat; [|done]. destruct (oldest c); [|done]. etrans; [apply IH | apply ddel_sublist].
Qed.

Lemma ddel_absent {V} k (d : list (Z * V)) : NoDup (dkeys d) -> k ∉ dkeys (ddel k d).
Proof.
  induction d as [|[k' v] d IH]; cbn; [set_solver|]. rewrite NoDup_cons. intros [Hn Hd].
  destruct (decide (k' = k)) as [->|]; [done|]. cbn. set_solver.
Qed.

(** An accepted census either changes nothing, its minute being past, or files itself and
    keeps the newest minutes. *)
Lemma add_census_cases msg recv a a' :
  add_census msg recv a = (Ok tt, a') ->
  a' = a \/
  exists s, let k := instant (_floor_minute recv) in let c := dset k s (ma_census a) in
  match ma_last_closed a with Some l => instant l < k | None => True end /\
  a' = set_census (trim (length c) c) a.
Proof.
  unfold add_census. destruct (require_aware recv) as [r|] eqn:Er; [|discriminate].
  unfold require_aware in Er. destruct (is_aware recv); [|discriminate]. injection Er as <-.
  unfold bind at 1, lift at 1. unfold bind at 1, gets at 1, id.
  destruct (match ma_open a with Some _ => _ | None => _ end); [intros [= <-]; by left|].
  destruct (match ma_last_closed a with Some _ => _ | None => _ end) eqn:El; [intros [= <-]; by left|].
  intros E. right. unfold bind at 1, modify at 1 in E.
  set (k := instant (_floor_minute recv)) in *. set (a1 := set_census _ a) in E.
  unfold bind, lift in E. destruct (longest_scan _ _) as [scan|e]; [|discriminate E].
  unfold modify in E. injection E as <-. eexists.
  split; [|done]. destruct (ma_last_closed a) as [l|]; [|done]. unfold not_after in El. apply Z.leb_gt in El. done.
Qed.

Lemma census_inv_add msg recv a a' :
  census_inv a -> add_census msg recv a = (Ok tt, a') -> census_inv a'.
Proof.
  intros [H1 H2 H3] E. apply add_census_cases in E as [->|(s & Hk & ->)]; [done|].
  set (k := instant _) in *. set (c := dset k s (ma_census a)) in *.
  pose proof (dkeys_sublist _ _ (trim_sublist (length c) c)) as Hsub.
  split; cbn.
  - eapply sublist_NoDup; [|exact Hsub]. by apply NoDup_dkeys_dset.
  - by apply trim_spec.
  - destruct (ma_last_closed a) as [l|]; [|done]. apply (Forall_sub _ _ _ Hsub).
    unfold c. rewrite dkeys_dset. case_decide; [done|]. apply Forall_app. split; [done|]. by apply Forall_singleton.
Qed.

Lemma census_inv_close m a : census_inv a -> census_inv (_close m a).2.
Proof.
  intros [H1 H2 H3]. cbn. set (k := instant _). set (rest := filter _ _).
  assert (Hs : rest `sublist_of` ddel k (ma_census a)) by apply sublist_filter.
  assert (Hs2 : rest `sublist_of` ma_census a) by (etrans; [exact Hs | apply ddel_sublist]).
  split; cbn.
  - by eapply sublist_NoDup; [|by apply dkeys_sublist].
  - apply sublist_length in Hs2. lia.
  - apply Forall_forall. intros x Hx. apply list_elem_of_fmap in Hx as ([x' v] & -> & Hx). cbn.
    assert (x' <> k).
    { intros ->. apply (ddel_absent k (ma_census a)); [done|].
      eapply elem_of_sublist in Hx; [|exact Hs]. apply list_elem_of_fmap. by exists (k, v). }
    apply list_elem_of_filter in Hx as [Hx _]. cbn in Hx. unfold k in *. lia.
Qed.

Lemma census_inv_frame a a' :
  ma_census a' = ma_census a -> ma_last_closed a' = ma_last_closed a -> census_inv a -> census_inv a'.
Proof. intros E1 E2 []. split; by rewrite ?E1, ?E2. Qed.

Lemma census_inv_counters msg recv sid : keeps census_inv (add_counters msg recv sid).
Proof.
  unfold add_counters. apply keeps_bind; [apply keeps_lift | intros r].
  apply keeps_bind; [apply keeps_gets | intros o]. apply keeps_bind.
  - destruct o as [m|]; [|apply keeps_ret]. apply keeps_if; [|apply keeps_ret].
    apply keeps_bind; [|intros; apply keeps_ret]. intros a. apply census_inv_close.
  - intros rows. apply keeps_bind; [|intros; apply keeps_ret].
    intros a. destruct (fold_message_opens msg recv sid a) as (_ & E1 & E2 & _). by apply census_inv_frame.
Qed.

Lemma census_inv_new n : census_inv (new_minutes n).
Proof. split; cbn; [constructor | lia | done]. Qed.

Lemma census_inv_feed out ins a out' a' :
  census_inv a -> feed out ins a = (Ok out', a') -> census_inv a'.
Proof.
  revert out a. induction ins as [|i ins IH]; intros out a Ha E.
  - cbn in E. by injection E as <- <-.
  - unfold feed in E. cbn [foldM] in E. unfold bind at 1 2 in E.
    destruct (step_input i a) as [[o|e] a1] eqn:E1; [|done]. cbn in E. eapply IH; [|exact E].
    destruct i as [c|msg recv]; cbn [step_input] in E1.
    + pose proof (census_inv_counters (in_msg c) (in_recv c) c.2 a Ha) as H. by rewrite E1 in H.
    + unfold bind at 1, ret at 1 in E1. destruct (add_census msg recv a) as [[[]|e] a2] eqn:E2; [|done].
      injection E1 as <- <-. by eapply census_inv_add.
Qed.

(** ** Properties *)

Definition demo_counters (user : Z) (rx : Z) (load : float) : dict :=
  [("load1", VFloat load);
   ("cpu_jiffies", VDict (("user", VInt user) :: map (fun k => (k, VInt 0)) (tail CPU_KEYS)));
   ("net", VDict [("eth0", VDict [("rx_bytes", VInt rx); ("tx_bytes", VInt 0)])]);
   ("ts", VStr "2023-11-14T22:15:00.000000Z")].

(** Three messages of one minute, the second a reset interface; the next minute closes it. *)
Example minutes_run :
  let t0 := 1700000100000000 in
  let ins := [InCounters (demo_counters 10 1000 (flit 1 1), utc t0, 1);
              InCensus [("gpus", VList [VInt 7]); ("scan_seconds", VFloat (flit 5 1))] (utc (t0 + 1000000));
              InCounters (demo_counters 40 500 (flit 2 1), utc (t0 + 10000000), 1);
              InCounters (demo_counters 50 800 (flit 3 1), utc (t0 + 20000000), 1);
              InCounters (demo_counters 60 900 (flit 4 1), utc (t0 + 61000000), 1)] in
  match feed [] ins (new_minutes (NInt 10)) with
  | (Ok [r], a) =>
      (map (fun k => dget k r) ["minute"; "load1"; "cpu_pct"; "network_rates"; "gpus"; "sample_latency_sec";
                                "clock_offset_sec"; "sample_count"; "expected_count"],
       option_map (fun m => (mn_minute m, mn_sample_count m)) (ma_open a), length (ma_census a))
  | _ => ([], None, 0%nat)
  end
  = (map Some [VTime (utc 1700000100000000); VFloat (flit 3 1);
               VDict (("user", VFloat (float_of_Z 100)) :: map (fun k => (k, VFloat fzero)) (tail CPU_KEYS));
               VDict [("eth0", VDict [("rx_bytes_per_sec", VFloat (float_of_Z 30)); ("tx_bytes_per_sec", VFloat fzero)])];
               VList [VInt 7]; VFloat (flit 5 1); VFloat (float_of_Z 10); VInt 3; VInt 6],
     Some (utc 1700000160000000, 1), 0%nat).
Proof. vm_compute. reflexivity. Qed.

(** C22. The counters are summarised faithfully: the accepted messages are cut, in order, into
    groups with strictly increasing minutes, no message of a group being later than its
    minute; the rows that come out describe the closed groups one for one (minute, number of
    samples, the gauges of the last message, every column), and the open minute holds the
    group not yet closed. *)
Theorem minute_stream n ins out a :
  feed [] ins (new_minutes n) = (Ok out, a) ->
  exists closed cur,
    concat (map counters_of ins) = concat (map g_all (closed ++ option_list cur)) /\
    StronglySorted earlier_group (closed ++ option_list cur) /\
    Forall well_grouped (closed ++ option_list cur) /\
    Forall2 (row_of (ma_expected a)) closed out /\
    match ma_open a, cur with Some m, Some g => opens m g | None, None => True | _, _ => False end.
Proof.
  intros E. destruct (minute_feed_account _ [] [] None [] _ ins out a (minute_account_new n) E)
    as (closed & cur & [He Ho Hr Ha Hs Hg _]). rewrite He. eauto 8.
Qed.

Definition demo_inputs : list input :=
  [InCounters (demo_counters 10 1000 (flit 1 1), utc 1700000100000000, 1);
   InCounters (demo_counters 40 500 (flit 2 1), utc 1700000110000000, 1);
   InCensus [] (utc 1700000110000000);
   InCounters (demo_counters 60 900 (flit 4 1), utc 1700000161000000, 1)].

Lemma minute_stream_witness :
  let run := feed [] demo_inputs (new_minutes (NInt 10)) in
  exists closed cur,
    concat (map counters_of demo_inputs) = concat (map g_all (closed ++ option_list cur)) /\
    StronglySorted earlier_group (closed ++ option_list cur) /\
    Forall well_grouped (closed ++ option_list cur) /\
    Forall2 (row_of (ma_expected run.2)) closed match run.1 with Ok out => out | Raise _ => [] end /\
    match ma_open run.2, cur with Some m, Some g => opens m g | None, None => True | _, _ => False end.
Proof. apply (minute_stream (NInt 10) demo_inputs). vm_compute. reflexivity. Defined.

(** The censuses waiting for their minute's counters never number more than ten, are for
    distinct minutes, and none is for a minute already closed. *)
Theorem pending_bounded n ins out a :
  feed [] ins (new_minutes n) = (Ok out, a) -> census_inv a.
Proof. apply census_inv_feed, census_inv_new. Qed.

Lemma pending_bounded_witness : census_inv (feed [] demo_inputs (new_minutes (NInt 10))).2.
Proof.
  apply (pending_bounded (NInt 10) demo_inputs
           match (feed [] demo_inputs (new_minutes (NInt 10))).1 with Ok out => out | Raise _ => [] end).
  vm_compute. reflexivity.
Defined.

(** When a census would be the eleventh, it is the oldest minutes that go: what is kept
    is no older than anything dropped, and nothing is dropped below the limit. *)
Theorem newest_censuses_kept msg recv a a' :
  add_census msg recv a = (Ok tt, a') ->
  forall x, x ∈ dkeys (ma_census a) -> x ∉ dkeys (ma_census a') ->
    (_MAX_PENDING_CENSUS_MINUTES <= length (ma_census a))%nat /\
    forall y, y ∈ dkeys (ma_census a') -> x <= y.
Proof.
  intros E x Hx Hn. apply add_census_cases in E as [->|(s & _ & ->)]; [done|]. cbn in *.
  set (c := dset _ s (ma_census a)) in *. destruct (trim_spec (length c) c ltac:(lia)) as (_ & _ & H3 & H4).
  assert (Hxc : x ∈ dkeys c) by (unfold c; rewrite dkeys_dset; case_decide; set_solver).
  split; [|intros y Hy; by eapply H3].
  destruct (decide (_MAX_PENDING_CENSUS_MINUTES <= length (ma_census a))%nat) as [|Hlt]; [done|].
  exfalso. apply Hn. rewrite H4; [done|].
  assert (length c <= S (length (ma_census a)))%nat; [|lia].
  unfold c. rewrite <- !(length_map fst). change (map fst) with (@dkeys Z slot).
  rewrite dkeys_dset. case_decide; rewrite ?length_app; cbn; lia.
Qed.

Definition full_census : minutes :=
  set_census (map (fun i => (i * minute_us, empty_slot)) [0; 1; 2; 3; 4; 5; 6; 7; 8; 9]) (new_minutes (NInt 10)).

Lemma newest_censuses_kept_witness :
  (_MAX_PENDING_CENSUS_MINUTES <= length (ma_census full_census))%nat /\
  forall y, y ∈ dkeys (ma_census (add_census [] (utc (10 * minute_us)) full_census).2) -> 0 <= y.
Proof.
  apply (newest_censuses_kept [] (utc (10 * minute_us)) full_census
           (add_census [] (utc (10 * minute_us)) full_census).2).
  - vm_compute. reflexivity.
  - apply (bool_decide_unpack _). vm_compute. exact I.
  - apply (bool_decide_unpack _). vm_compute. exact I.
Defined.

(** A pair of messages of different sessions, or whose clock did not advance, adds
    nothing to the rates: the open minute keeps its CPU, network, metadata and probe sums. *)
Theorem broken_pair_adds_nothing msg recv sid pmsg precv psid a m :
  ma_open a = Some m -> ma_prev a = Some (pmsg, precv, psid) ->
  psid <> sid \/ fltb fzero (seconds_between recv precv) = false ->
  exists m', ma_open (fold_message msg recv sid a).2 = Some m' /\
    mn_cpu m' = mn_cpu m /\ mn_cpu_pairs m' = mn_cpu_pairs m /\ mn_net m' = mn_net m /\
    mn_md m' = mn_md m /\ mn_probe_cpu m' = mn_probe_cpu m /\ mn_probe_pairs m' = mn_probe_pairs m.
Proof.
  intros Ho Hp Hb.
  set (sums := fun m => (mn_cpu m, mn_cpu_pairs m, mn_net m, mn_md m, mn_probe_cpu m, mn_probe_pairs m)).
  set (I := fun s : minutes => ma_prev s = Some (pmsg, precv, psid) /\
                     exists m', ma_open s = Some m' /\ sums m' = sums m).
  set (J := fun s : minutes => exists m', ma_open s = Some m' /\ sums m' = sums m).
  enough (H : hoare I (fold_message msg recv sid) (fun _ s => J s)).
  { destruct (H a) as (m' & E & Es); [split; [done|]; by exists m|]. exists m'. split; [done|].
    injection Es as ? ? ? ? ? ?. done. }
  assert (HO : forall f, (forall m, sums (f m) = sums m) -> keeps I (on_open f)).
  { intros f Hf. apply keeps_on_open. intros m0 s E0 (P1 & m1 & E1 & E2). split; [done|].
    exists (f m0). split; [done|]. rewrite Hf.
    rewrite E0 in E1. by injection E1 as ->. }
  assert (HB : forall {A} (c1 : M minutes A) {B} (c2 : A -> M minutes B), keeps I c1 ->
            (forall x, hoare I (c2 x) (fun _ s => J s)) -> hoare I (bind c1 c2) (fun _ s => J s)).
  { intros A c1 B c2 H1 H2. eapply hoare_bind with (R := fun _ => I); [|done].
    eapply hoare_post; [exact H1|]. intros [] s Hs; [done | exact (proj2 Hs)]. }
  unfold fold_message. apply HB; [|intros _].
  { apply keeps_modify. intros s (P1 & m1 & E1 & E2). split; [done|]. exists m1. cbn. by rewrite E1. }
  apply HB; [by apply HO | intros _]. apply HB; [apply keeps_lift | intros ps].
  apply HB; [case_match; solve [apply keeps_ret | by apply HO] | intros _].
  apply HB; [repeat case_match; solve [apply keeps_ret | by apply HO] | intros _].
  intros s (P1 & Hs). unfold bind, gets, modify. rewrite P1.
  destruct (Z.eqb_spec psid sid) as [->|]; [|exact Hs].
  destruct Hb as [Hb|Hb]; [done|]. rewrite Hb. exact Hs.
Qed.

Lemma broken_pair_adds_nothing_witness :
  let a := (feed [] [InCounters (demo_counters 10 1000 (flit 1 1), utc 1700000100000000, 1)] (new_minutes (NInt 10))).2 in
  let m := default (new_minute (utc 0)) (ma_open a) in
  exists m', ma_open (fold_message (demo_counters 40 2000 (flit 1 1)) (utc 1700000110000000) 2 a).2 = Some m' /\
    mn_cpu m' = mn_cpu m /\ mn_cpu_pairs m' = mn_cpu_pairs m /\ mn_net m' = mn_net m /\
    mn_md m' = mn_md m /\ mn_probe_cpu m' = mn_probe_cpu m /\ mn_probe_pairs m' = mn_probe_pairs m.
Proof.
  apply (broken_pair_adds_nothing _ _ 2 (demo_counters 10 1000 (flit 1 1)) (utc 1700000100000000) 1);
    [vm_compute; reflexivity | vm_compute; reflexivity | by left].
Defined.
