(* ===== verification/Regex.v ===== *)
(** * Python's [re], as far as the pipeline uses it

    The rule tables and the redactor are regular expressions.  [parse] reads a pattern in
    Python's syntax, [mtch] is the backtracking matcher (greedy repetition, captures,
    lookahead, fixed-width lookbehind, anchors), [search] and [sub] are the methods of a
    compiled pattern.  Text is ASCII: a byte from 128 on counts as a letter (not a space), and
    case folds within ASCII only. *)

From S2P Require Import Prelude.

Open Scope nat_scope.

Abbreviation text := (list ascii).
Definition chars (s : string) : text := String.list_ascii_of_string s.
Definition str (t : text) : string := String.string_of_list_ascii t.

(** ** Syntax *)

Inductive class_item := IChar (c : ascii) | IRange (a b : ascii) | IDigit | ISpace | INotSpace | IWord.

Inductive regex :=
| Eps
| Cls (ic neg : bool) (items : list class_item)
| Cat (a b : regex)
| Alt (a b : regex)
| Rep (lo : nat) (hi : option nat) (a : regex)
| Grp (n : nat) (a : regex)
| Look (neg : bool) (a : regex)
| Behind (neg : bool) (width : nat) (a : regex)
| Bol | Eol | WordB.

(** ** Characters *)

Definition code (c : ascii) : nat := nat_of_ascii c.
Definition in_range (lo hi : nat) (c : ascii) : bool := (lo <=? code c) && (code c <=? hi).
Definition is_digit (c : ascii) : bool := in_range 48 57 c.
Definition is_upper (c : ascii) : bool := in_range 65 90 c.
Definition is_lower (c : ascii) : bool := in_range 97 122 c.
Definition is_space (c : ascii) : bool := in_range 9 13 c || in_range 28 32 c.
Definition is_word (c : ascii) : bool :=
  is_digit c || is_upper c || is_lower c || (code c =? 95) || (128 <=? code c).
Definition swapcase (c : ascii) : ascii :=
  if is_upper c then ascii_of_nat (code c + 32)
  else if is_lower c then ascii_of_nat (code c - 32) else c.

Definition in_item (c : ascii) (i : class_item) : bool :=
  match i with
  | IChar d => bool_decide (c = d)
  | IRange a b => in_range (code a) (code b) c
  | IDigit => is_digit c
  | ISpace => is_space c
  | INotSpace => negb (is_space c)
  | IWord => is_word c
  end.
Definition in_class (ic neg : bool) (items : list class_item) (c : ascii) : bool :=
  xorb neg (existsb (in_item c) items || (ic && existsb (in_item (swapcase c)) items)).

Definition newline : ascii := ascii_of_nat 10.
Definition is_word_at (t : text) (i : nat) : bool :=
  match t !! i with Some c => is_word c | None => false end.

Definition at_eol (t : text) (i : nat) : bool :=
  (i =? length t) || ((S i =? length t) && bool_decide (t !! i = Some newline)).
Definition at_word_boundary (t : text) (i : nat) : bool :=
  xorb (match i with O => false | S j => is_word_at t j end) (is_word_at t i).

(** ** Matching *)

(** Spans of the groups, the latest first. *)
Definition captures := list (nat * (nat * nat)).
Definition span (n : nat) (c : captures) : option (nat * nat) := dget n c.
Abbreviation found := (nat * captures)%type.

Definition pred_opt (h : option nat) : option nat := option_map pred h.

Definition cont : Type := nat -> captures -> option found.

(** The optional repetitions of [ma], tried greedily as long as each one advances. *)
Fixpoint more (ma : cont -> cont) (k : cont) (fuel : nat) (hi : option nat) (i : nat) (c : captures)
    : option found :=
  match fuel, hi with
  | O, _ | _, Some O => k i c
  | S fuel, _ =>
      match ma (fun j c' => if i <? j then more ma k fuel (pred_opt hi) j c' else None) i c with
      | Some x => Some x
      | None => k i c
      end
  end.

(** [n] repetitions of [ma], then [k]. *)
Fixpoint least (ma : cont -> cont) (n : nat) (k : cont) : cont :=
  match n with
  | O => k
  | S n => ma (least ma n k)
  end.

(** [mtch t r k i c]: the first way, in the matcher's order of preference, to match [r] at
    position [i] and then succeed with [k].  Each optional repetition advances, so there are
    at most as many as characters left. *)
Fixpoint mtch (t : text) (r : regex) (k : cont) (i : nat) (c : captures) : option found :=
  match r with
  | Eps => k i c
  | Cls ic neg items =>
      match t !! i with
      | Some x => if in_class ic neg items x then k (S i) c else None
      | None => None
      end
  | Cat a b => mtch t a (mtch t b k) i c
  | Alt a b => match mtch t a k i c with Some x => Some x | None => mtch t b k i c end
  | Rep lo hi a =>
      least (mtch t a) lo
        (fun j c' => more (mtch t a) k (length t - j) (option_map (fun h => h - lo) hi) j c') i c
  | Grp n a => mtch t a (fun j c' => k j ((n, (i, j)) :: c')) i c
  | Look neg a =>
      match mtch t a (fun j c' => Some (j, c')) i c with
      | Some (_, c') => if neg then None else k i c'
      | None => if neg then k i c else None
      end
  | Behind neg w a =>
      let inside := if w <=? i then mtch t a (fun j c' => if j =? i then Some (j, c') else None) (i - w) c
                    else None in
      match inside with
      | Some (_, c') => if neg then None else k i c'
      | None => if neg then k i c else None
      end
  | Bol => if i =? 0 then k i c else None
  | Eol => if at_eol t i then k i c else None
  | WordB => if at_word_boundary t i then k i c else None
  end.

(** A match at [i]: its end and its captures.  [advance] asks for a non-empty one. *)
Definition match_at (t : text) (r : regex) (advance : bool) (i : nat) : option found :=
  mtch t r (fun j c => if advance && (j =? i) then None else Some (j, c)) i [].

(** The leftmost match at or after [i]; [n] positions are left to try after it. *)
Fixpoint search_from (t : text) (r : regex) (advance : bool) (n i : nat) : option (nat * found) :=
  match match_at t r advance i with
  | Some f => Some (i, f)
  | None => match n with O => None | S n => search_from t r false n (S i) end
  end.

(** [pattern.search(text) is not None] *)
Definition search (r : regex) (s : string) : bool :=
  let t := chars s in
  match search_from t r false (length t) 0 with Some _ => true | None => false end.

(** ** Replacing *)

Definition slice (t : text) (i j : nat) : text := take (j - i) (drop i t).

(** The matches [pattern.sub] replaces, left to right: start, end and captures.  The next
    search starts where the last match ended and, after an empty match, may not be empty
    there; so either the position or the flag advances, and twice the positions is enough
    fuel. *)
Fixpoint all_matches (fuel : nat) (t : text) (r : regex) (count : option nat) (advance : bool) (i : nat)
    : list (nat * found) :=
  match fuel, count with
  | O, _ | _, Some O => []
  | S fuel, _ =>
      match search_from t r advance (length t - i) i with
      | None => []
      | Some (b, (e, c)) =>
          (b, (e, c)) :: all_matches fuel t r (pred_opt count) (b =? e) e
      end
  end.

(** [pattern.sub(repl, text, count)] *)
Fixpoint replace_all (t : text) (repl : nat * found -> text) (i : nat) (ms : list (nat * found)) : text :=
  match ms with
  | [] => drop i t
  | (b, (e, c)) :: ms => slice t i b ++ repl (b, (e, c)) ++ replace_all t repl e ms
  end.
Definition sub (r : regex) (repl : text -> nat * found -> text) (count : option nat) (t : text) : text :=
  replace_all t (repl t) 0 (all_matches (2 * length t + 2) t r count false 0).

(** ** Reading a pattern *)

Definition digits_val (t : text) : option nat :=
  match t with
  | [] => None
  | _ => foldl (fun acc c => n ← acc; if is_digit c then Some (10 * n + (code c - 48)) else None) (Some 0) t
  end.

(** Up to and without the character [stop]. *)
Fixpoint until (stop : ascii) (t : text) : option (text * text) :=
  match t with
  | [] => None
  | c :: t => if bool_decide (c = stop) then Some ([], t)
              else '(a, b) ← until stop t; Some (c :: a, b)
  end.

Definition escape_item (c : ascii) : option class_item :=
  match c with
  | "s"%char => Some ISpace
  | "S"%char => Some INotSpace
  | "w"%char => Some IWord
  | "d"%char => Some IDigit
  | "t"%char => Some (IChar (ascii_of_nat 9))
  | "n"%char => Some (IChar newline)
  | _ => if is_lower c || is_upper c || is_digit c then None else Some (IChar c)
  end.

(** The items of a class, after the bracket and the caret. *)
Fixpoint class_items (fuel : nat) (t : text) : option (list class_item * text) :=
  match fuel with
  | O => None
  | S fuel =>
      match t with
      | [] => None
      | "]"%char :: t => Some ([], t)
      | "\"%char :: c :: t => i ← escape_item c; '(l, t) ← class_items fuel t; Some (i :: l, t)
      | a :: "-"%char :: b :: t =>
          if bool_decide (b = "]"%char) then Some ([IChar a; IChar "-"%char], t)
          else '(l, t) ← class_items fuel t; Some (IRange a b :: l, t)
      | a :: t => '(l, t) ← class_items fuel t; Some (IChar a :: l, t)
      end
  end.

(** The width of a lookbehind. *)
Fixpoint width (r : regex) : option nat :=
  match r with
  | Eps | Look _ _ | Behind _ _ _ | Bol | Eol | WordB => Some 0
  | Cls _ _ _ => Some 1
  | Cat a b => x ← width a; y ← width b; Some (x + y)
  | Alt a b => x ← width a; y ← width b; if x =? y then Some x else None
  | Rep lo hi a => x ← width a; if bool_decide (hi = Some lo) then Some (lo * x) else None
  | Grp _ a => width a
  end.

(** A quantifier, if one follows. *)
Definition quantifier (t : text) : option (nat * option nat * text) :=
  match t with
  | "*"%char :: t => Some (0, None, t)
  | "+"%char :: t => Some (1, None, t)
  | "?"%char :: t => Some (0, Some 1, t)
  | "{"%char :: t =>
      '(body, t) ← until "}"%char t;
      match until ","%char body with
      | Some (lo, hi) =>
          lo ← digits_val lo;
          match hi with [] => Some (lo, None, t) | _ => hi ← digits_val hi; Some (lo, Some hi, t) end
      | None => n ← digits_val body; Some (n, Some n, t)
      end
  | _ => None
  end.

Definition lit (ic : bool) (c : ascii) : regex := Cls ic false [IChar c].

(** [g] is the number of the last group opened; [ic] whether case is ignored.  Each call
    consumes a character before the fuel is spent, so the pattern's length is enough. *)
Fixpoint alternatives (fuel : nat) (ic : bool) (g : nat) (t : text) : option (regex * nat * text) :=
  match fuel with
  | O => None
  | S fuel =>
      '(a, g, t) ← sequence fuel ic g t;
      match t with
      | "|"%char :: t => '(b, g, t) ← alternatives fuel ic g t; Some (Alt a b, g, t)
      | _ => Some (a, g, t)
      end
  end
with sequence (fuel : nat) (ic : bool) (g : nat) (t : text) : option (regex * nat * text) :=
  match fuel with
  | O => None
  | S fuel =>
      match t with
      | [] | "|"%char :: _ | ")"%char :: _ => Some (Eps, g, t)
      | _ =>
          '(a, g, t) ← atom fuel ic g t;
          let '(a, t) := match quantifier t with Some (lo, hi, t) => (Rep lo hi a, t) | None => (a, t) end in
          '(b, g, t) ← sequence fuel ic g t;
          Some (match b with Eps => a | _ => Cat a b end, g, t)
      end
  end
with atom (fuel : nat) (ic : bool) (g : nat) (t : text) : option (regex * nat * text) :=
  match fuel with
  | O => None
  | S fuel =>
      let close ic g t :=
        '(a, g, t) ← alternatives fuel ic g t;
        match t with ")"%char :: t => Some (a, g, t) | _ => None end in
      match t with
      | "("%char :: "?"%char :: ":"%char :: t => close ic g t
      | "("%char :: "?"%char :: "i"%char :: ":"%char :: t => close true g t
      | "("%char :: "?"%char :: "-"%char :: "i"%char :: ":"%char :: t => close false g t
      | "("%char :: "?"%char :: "="%char :: t => '(a, g, t) ← close ic g t; Some (Look false a, g, t)
      | "("%char :: "?"%char :: "!"%char :: t => '(a, g, t) ← close ic g t; Some (Look true a, g, t)
      | "("%char :: "?"%char :: "<"%char :: "="%char :: t =>
          '(a, g, t) ← close ic g t; w ← width a; Some (Behind false w a, g, t)
      | "("%char :: "?"%char :: "<"%char :: "!"%char :: t =>
          '(a, g, t) ← close ic g t; w ← width a; Some (Behind true w a, g, t)
      | "("%char :: "?"%char :: "P"%char :: "<"%char :: t =>
          '(_, t) ← until ">"%char t;
          '(a, g', t) ← close ic (S g) t; Some (Grp (S g) a, g', t)
      | "("%char :: t => '(a, g', t) ← close ic (S g) t; Some (Grp (S g) a, g', t)
      | "["%char :: "^"%char :: t => '(l, t) ← class_items (S (length t)) t; Some (Cls ic true l, g, t)
      | "["%char :: t => '(l, t) ← class_items (S (length t)) t; Some (Cls ic false l, g, t)
      | "."%char :: t => Some (Cls false true [IChar newline], g, t)
      | "^"%char :: t => Some (Bol, g, t)
      | "$"%char :: t => Some (Eol, g, t)
      | "\"%char :: "b"%char :: t => Some (WordB, g, t)
      | "\"%char :: c :: t => i ← escape_item c; Some (Cls ic false [i], g, t)
      | c :: t => if bool_decide (c ∈ [")"%char; "*"%char; "+"%char; "?"%char; "|"%char]) then None
                  else Some (lit ic c, g, t)
      | [] => None
      end
  end.

(** A compiled pattern: its matcher and its number of groups. *)
Record pattern := Pattern { re_body : regex; re_groups : nat }.

Definition parse (ic : bool) (s : string) : option pattern :=
  let t := chars s in
  '(r, g, rest) ← alternatives (4 * length t + 4) ic 0 t;
  match rest with [] => Some (Pattern r g) | _ => None end.

(** [re.compile]; the patterns of the development are all read successfully (see the
    examples), so the default is never used. *)
Definition compile_with (ic : bool) (s : string) : pattern := default (Pattern Eps 0) (parse ic s).
Definition compile : string -> pattern := compile_with false.
Definition compile_ignorecase : string -> pattern := compile_with true.

Definition hit (p : string) (s : string) : option bool :=
  p ← parse false p; Some (search (re_body p) s).
Example regex_ex :
  (hit "(^|/)git( |$)" "/usr/bin/git status", hit "(^|/)git( |$)" "gitk", hit "-m\s+pytest\b" "python -m  pytest -x",
   hit "(?<![A-Za-z0-9])AKIA[0-9A-Z]{16}" "xAKIA0123456789ABCDEF", hit "^[a-z]+(?=:)" "abc:d", hit "a{2,3}$" "caaa")
  = (Some true, Some false, Some true, Some false, Some true, Some true).
Proof. vm_compute. reflexivity. Qed.
Example sub_ex :
  str (sub (re_body (compile "x*")) (fun _ _ => chars "-") None (chars "abxxd")) = "-a-b--d-".
Proof. vm_compute. reflexivity. Qed.

(** ** What a pattern means

    [den t r i j]: [r] matches the text from [i] to [j], whatever the order in which the
    matcher tries. *)

Fixpoint iter (n : nat) (R : nat -> nat -> Prop) (i j : nat) : Prop :=
  match n with
  | O => i = j
  | S n => exists l, R i l /\ iter n R l j
  end.

Fixpoint den (t : text) (r : regex) (i j : nat) : Prop :=
  match r with
  | Eps => i = j
  | Cls ic neg items => exists x, t !! i = Some x /\ in_class ic neg items x = true /\ j = S i
  | Cat a b => exists l, den t a i l /\ den t b l j
  | Alt a b => den t a i j \/ den t b i j
  | Rep lo hi a => exists n, lo <= n /\ match hi with Some h => lo + (h - lo) >= n | None => True end /\ iter n (den t a) i j
  | Grp _ a => den t a i j
  | Look neg a => i = j /\ (if neg then ~ exists l, den t a i l else exists l, den t a i l)
  | Behind neg w a => i = j /\ (if neg then ~ (w <= i /\ den t a (i - w) i) else w <= i /\ den t a (i - w) i)
  | Bol => i = j /\ i = 0
  | Eol => i = j /\ at_eol t i = true
  | WordB => i = j /\ at_word_boundary t i = true
  end.

Lemma iter_app n m R i j : iter (n + m) R i j <-> exists l, iter n R i l /\ iter m R l j.
Proof.
  revert i. induction n as [|n IH]; intros i; cbn.
  - split; [by exists i | by intros (? & -> & ?)].
  - split.
    + intros (l & ? & H). apply IH in H as (l' & ? & ?). eauto.
    + intros (l & (l' & ? & ?) & ?). exists l'. split; [done|]. apply IH. eauto.
Qed.

Lemma den_bounds t r i j : i <= length t -> den t r i j -> i <= j <= length t.
Proof.
  revert i j. induction r as [|ic neg items|a IHa b IHb|a IHa b IHb|lo hi a IH|n a IH|neg a IH|neg w a IH| | |];
    cbn; intros i j Hi; try (intros; destruct_and?; subst; lia).
  - intros (x & E & _ & ->). apply lookup_lt_Some in E. lia.
  - intros (l & H1 & H2). apply IHa in H1; [|done]. apply IHb in H2; lia.
  - intros [H|H]; auto.
  - intros (n & _ & _ & H). revert i Hi H. induction n as [|n IHn]; cbn; intros i Hi; [intros ->; lia|].
    intros (l & H1 & H2). apply IH in H1; [|done]. apply IHn in H2; lia.
  - apply IH. done.
Qed.

(** A continuation-passing matcher [ma] agrees with a relation [R]: what it finds is a match
    that [k] accepts, and when it finds nothing [k] refuses the end of every match. *)
Definition agrees (t : text) (ma : cont -> cont) (R : nat -> nat -> Prop) : Prop :=
  forall k i c, i <= length t ->
    (forall x, ma k i c = Some x -> exists j c', R i j /\ k j c' = Some x) /\
    (ma k i c = None -> forall j, R i j -> exists c', k j c' = None).

Section Repetition.
Context (t : text) (ma : cont -> cont) (R : nat -> nat -> Prop).
Hypothesis Hma : agrees t ma R.
Hypothesis Hb : forall i j, i <= length t -> R i j -> i <= j <= length t.

Definition within (n : nat) (hi : option nat) : Prop := match hi with Some h => n <= h | None => True end.

Lemma more_agrees k fuel hi i c :
  i <= length t -> length t - i <= fuel ->
  (forall x, more ma k fuel hi i c = Some x ->
     exists n j c', within n hi /\ iter n R i j /\ k j c' = Some x) /\
  (more ma k fuel hi i c = None ->
     forall n j, within n hi -> iter n R i j -> exists c', k j c' = None).
Proof.
  revert hi i c. induction fuel as [|fuel IH]; intros hi i c Hi Hf.
  - cbn. split; [intros x Hx; exists 0, i, c; by destruct hi; cbn; auto with lia|].
    intros Hk n j _ H. enough (j = i) as -> by eauto.
    clear Hk. assert (i = length t) as -> by lia. clear -Hb H. induction n as [|n IHn]; cbn in H; [done|].
    destruct H as (l & H1 & H2). apply Hb in H1; [|done]. replace l with (length t) in H2 by lia. auto.
  - cbn [more]. set (k' := fun j c' => if i <? j then _ else None).
    destruct hi as [[|h]|].
    { split; [intros x Hx; exists 0, i, c; by cbn|].
      intros Hk [|n] j Hn; cbn in Hn; [|lia]. cbn. intros ->. eauto. }
    all: destruct (Hma k' i c Hi) as [H1 H2]; destruct (ma k' i c) as [x|] eqn:E.
    all: split; [|first [done | intros Hk]].
    all: try (intros x' [= <-]; destruct (H1 _ eq_refl) as (j & c' & HR & Hk'); unfold k' in Hk';
              destruct (Nat.ltb_spec i j) as [Hlt|]; [|discriminate Hk'];
              pose proof (Hb _ _ Hi HR); cbn [pred_opt option_map pred] in Hk';
              eapply IH in Hk' as (n & j' & c2 & Hn & Hit & Hx); [|lia|lia];
              exists (S n), j', c2; cbn in *; split_and!; [lia || done | by exists j | done]).
    all: try (intros x' Hx; exists 0, i, c; split_and!; [cbn; lia || done | done | done]).
    all: intros n; induction n as [|n IHn]; intros j Hn; cbn; [intros ->; by eauto|];
         intros (l & HR & Hit); pose proof (Hb _ _ Hi HR);
         destruct (decide (l = i)) as [->|Hne]; [apply IHn; [cbn in *; lia || done | done]|];
         destruct (H2 eq_refl l HR) as [c' Hc]; unfold k' in Hc;
         rewrite (proj2 (Nat.ltb_lt i l)) in Hc by lia; cbn [pred_opt option_map pred] in Hc;
         eapply IH in Hc; [exact Hc | lia | lia | | exact Hit]; cbn in *; lia || done.
Qed.

Lemma least_agrees n (ka : cont -> cont) (S : nat -> nat -> Prop) :
  agrees t ka S -> agrees t (fun k => least ma n (ka k)) (fun i j => exists l, iter n R i l /\ S l j).
Proof.
  intros Hka. induction n as [|n IH]; intros k i c Hi; cbn [least iter].
  - destruct (Hka k i c Hi) as [H1 H2]. split.
    + intros x Hx. destruct (H1 x Hx) as (j & c' & ? & ?). exists j, c'. split; [by exists i | done].
    + intros Hn j (l & -> & HS). eauto.
  - destruct (Hma (least ma n (ka k)) i c Hi) as [H1 H2]. split.
    + intros x Hx. destruct (H1 x Hx) as (l & c' & HR & Hx'). pose proof (Hb _ _ Hi HR).
      destruct (IH k l c' ltac:(lia)) as [G1 _]. destruct (G1 x Hx') as (j & c2 & (l' & ? & ?) & ?).
      exists j, c2. split; [|done]. exists l'. split; [|done]. by exists l.
    + intros Hn j (l' & (l & HR & Hit) & HS). destruct (H2 Hn l HR) as [c' Hc]. pose proof (Hb _ _ Hi HR).
      destruct (IH k l c' ltac:(lia)) as [_ G2]. apply (G2 Hc). by exists l'.
Qed.
End Repetition.

Lemma mtch_agrees t r : agrees t (mtch t r) (den t r).
Proof.
  induction r as [|ic neg items|a IHa b IHb|a IHa b IHb|lo hi a IH|n a IH|neg a IH|neg w a IH| | |];
    intros k i c Hi; cbn [mtch den].
  - split; [intros x Hx; exists i, c; eauto | intros Hn j <-; eauto].
  - destruct (t !! i) as [x|] eqn:E.
    2: { split; [done|]. by intros _ j (x & ? & _). }
    destruct (in_class ic neg items x) eqn:Ec.
    + split; [intros y Hy; exists (S i), c; eauto|]. intros Hn j (x' & _ & _ & ->). eauto.
    + split; [done|]. intros _ j (x' & [= <-] & Ex & _). by rewrite Ec in Ex.
  - destruct (IHa (mtch t b k) i c Hi) as [H1 H2]. split.
    + intros x Hx. destruct (H1 x Hx) as (l & c' & HR & Hx'). pose proof (den_bounds t a i l Hi HR).
      apply IHb in Hx' as (j & c2 & ? & ?); [|lia]. exists j, c2. eauto.
    + intros Hn j (l & HR & HS). destruct (H2 Hn l HR) as [c' Hc]. pose proof (den_bounds t a i l Hi HR).
      eapply IHb; [|exact Hc | exact HS]. lia.
  - destruct (IHa k i c Hi) as [H1 H2]. destruct (IHb k i c Hi) as [H3 H4].
    destruct (mtch t a k i c) as [x|].
    + split; [|done]. intros y [= <-]. destruct (H1 x eq_refl) as (j & c' & ? & ?). eauto 6.
    + split; [|naive_solver]. intros x Hx. destruct (H3 x Hx) as (j & c' & ? & ?). eauto 6.
  - pose proof (fun i j => den_bounds t a i j) as Hb.
    set (h := option_map _ hi).
    destruct (least_agrees t (mtch t a) (den t a) IH Hb lo
                (fun k j c' => more (mtch t a) k (length t - j) h j c')
                (fun i j => exists n, within n h /\ iter n (den t a) i j)) with (k := k) (i := i) (c := c) as [H1 H2].
    { intros k' i' c' Hi'. destruct (more_agrees t _ _ IH Hb k' (length t - i') h i' c' Hi' ltac:(lia)) as [G1 G2].
      split; [|naive_solver]. intros x Hx. destruct (G1 x Hx) as (n & j & c2 & ? & ? & ?). eauto 6. }
    { done. }
    split.
    + intros x Hx. destruct (H1 x Hx) as (j & c' & (l & Hl & n & Hn & Hit) & Hk). exists j, c'. split; [|done].
      exists (lo + n). split_and!; [lia | destruct hi; cbn in *; lia | apply iter_app; eauto].
    + intros Hn j (n & Hlo & Hh & Hit). apply H2; [done|]. replace n with (lo + (n - lo)) in Hit by lia.
      apply iter_app in Hit as (l & ? & ?). exists l. split; [done|]. exists (n - lo). split; [|done].
      destruct hi; cbn in *; [lia | done].
  - destruct (IH (fun j c' => k j ((n, (i, j)) :: c')) i c Hi) as [H1 H2]. split.
    + intros x Hx. destruct (H1 x Hx) as (j & c' & ? & ?). eauto.
    + intros Hn j Hd. destruct (H2 Hn j Hd) as [c' Hc]. eauto.
  - destruct (IH (fun j c' => Some (j, c')) i c Hi) as [H1 H2].
    destruct (mtch t a _ i c) as [[j c']|].
    + destruct (H1 _ eq_refl) as (j' & c2 & Hd & _). destruct neg.
      * split; [done|]. intros _ j2 [-> Hno]. destruct Hno. eauto.
      * split; [intros x Hx; exists i, c'; eauto|]. intros Hn j2 [<- _]. eauto.
    + assert (Hno : ~ exists l, den t a i l) by (intros [l Hl]; by destruct (H2 eq_refl l Hl)).
      destruct neg; [|split; [done|]; by intros _ j2 [_ Hl]].
      split; [intros x Hx; exists i, c; eauto|]. intros Hn j2 [<- _]. eauto.
  - match goal with |- context [mtch t a ?k0 (i - w) c] => set (k' := k0) end.
    set (inside := if w <=? i then mtch t a k' (i - w) c else None).
    assert (Hin : match inside with
                  | Some (j, c') => w <= i /\ den t a (i - w) i
                  | None => ~ (w <= i /\ den t a (i - w) i) end).
    { subst inside. destruct (Nat.leb_spec w i); [|lia]. destruct (IH k' (i - w) c ltac:(lia)) as [H1 H2].
      destruct (mtch t a k' (i - w) c) as [[j c']|].
      - destruct (H1 _ eq_refl) as (j' & c2 & Hd & Hk). unfold k' in Hk.
        destruct (Nat.eqb_spec j' i) as [->|]; [done | discriminate Hk].
      - intros [_ Hd]. destruct (H2 eq_refl i Hd) as [c2 Hk]. unfold k' in Hk. by rewrite Nat.eqb_refl in Hk. }
    clearbody inside. destruct inside as [[j c']|]; destruct neg.
    + split; [done|]. intros _ j2 [-> Hno]. done.
    + split; [intros x Hx; exists i, c'; eauto|]. intros Hn j2 [<- _]. eauto.
    + split; [intros x Hx; exists i, c; eauto|]. intros Hn j2 [<- _]. eauto.
    + split; [done|]. by intros _ j2 [_ Hl].
  - destruct (Nat.eqb_spec i 0); split; try done; [intros x Hx; exists i, c; eauto | intros Hn j [<- _]; eauto | by intros _ j [_ ?]].
  - destruct (at_eol t i) eqn:E; split; try done; [intros x Hx; exists i, c; eauto | intros Hn j [<- _]; eauto | by intros _ j [_ ?]].
  - destruct (at_word_boundary t i) eqn:E; split; try done;
      [intros x Hx; exists i, c; eauto | intros Hn j [<- _]; eauto | by intros _ j [_ ?]].
Qed.

(** ** Captures *)

(** What holds between the captures before and after: [T] is a preorder along the text. *)
Definition tracks (t : text) (T : nat -> captures -> nat -> captures -> Prop) (ma : cont -> cont) : Prop :=
  forall k i c x, i <= length t -> ma k i c = Some x ->
    exists j c', i <= j <= length t /\ T i c j c' /\ k j c' = Some x.

Section Tracks.
Context (t : text) (T : nat -> captures -> nat -> captures -> Prop).
Hypothesis Trefl : forall i c, T i c i c.
Hypothesis Ttrans : forall i c j c' l c'', i <= j -> j <= l -> T i c j c' -> T j c' l c'' -> T i c l c''.

Lemma tracks_step k i c j c' x (ma : cont -> cont) :
  tracks t T ma -> i <= j <= length t -> T i c j c' -> ma k j c' = Some x ->
  exists l c'', i <= l <= length t /\ T i c l c'' /\ k l c'' = Some x.
Proof.
  intros Hma Hij HT Hx. apply Hma in Hx as (l & c2 & Hl & HT2 & Hx); [|lia].
  exists l, c2. split_and!; [lia | lia | | done]. eapply (Ttrans i c j c'); try done; lia.
Qed.

Lemma more_tracks ma fuel hi : tracks t T ma -> tracks t T (fun k => more ma k fuel hi).
Proof.
  intros Hma. revert hi. induction fuel as [|fuel IH]; intros hi k i c x Hi; cbn [more].
  - intros Hx. exists i, c. destruct hi; eauto with lia.
  - assert (Hk : k i c = Some x -> exists j c', i <= j <= length t /\ T i c j c' /\ k j c' = Some x).
    { intros Hx. exists i, c. eauto with lia. }
    destruct hi as [[|h]|]; [exact Hk | |];
      (match goal with |- context [ma ?k0 i c] => destruct (ma k0 i c) as [y|] eqn:E end; [|exact Hk];
       intros [= <-]; apply Hma in E as (j & c' & Hj & HT & Hx); [|done];
       destruct (i <? j); [|discriminate Hx];
       match type of Hx with more _ _ _ ?h _ _ = _ =>
         exact (tracks_step k i c j c' y (fun k => more ma k fuel h) (IH h) Hj HT Hx) end).
Qed.

Lemma least_tracks ma n ka : tracks t T ma -> tracks t T ka -> tracks t T (fun k => least ma n (ka k)).
Proof.
  intros Hma Hka. induction n as [|n IH]; cbn [least]; [done|].
  intros k i c x Hi Hx. apply Hma in Hx as (j & c' & Hj & HT & Hx); [|done]. by eapply tracks_step.
Qed.

(** A pattern's captures follow [T] when its groups do and its lookarounds leave them alone. *)
Fixpoint looks_keep (r : regex) : Prop :=
  match r with
  | Look _ a => forall i c, forall j c', mtch t a (fun j c' => Some (j, c')) i c = Some (j, c') -> i <= length t -> c' = c
  | Behind _ w a => forall i c, forall j c',
      mtch t a (fun j c' => if j =? i then Some (j, c') else None) (i - w) c = Some (j, c') -> i <= length t -> c' = c
  | Cat a b | Alt a b => looks_keep a /\ looks_keep b
  | Rep _ _ a | Grp _ a => looks_keep a
  | _ => True
  end.
Fixpoint groups_keep (r : regex) : Prop :=
  match r with
  | Grp n a => (forall i c j c', i <= j -> T i c j c' -> T i c j ((n, (i, j)) :: c')) /\ groups_keep a
  | Cat a b | Alt a b => groups_keep a /\ groups_keep b
  | Rep _ _ a => groups_keep a
  | _ => True
  end.

Hypothesis Tstep : forall i c, T i c (S i) c.

Lemma mtch_tracks r : looks_keep r -> groups_keep r -> tracks t T (mtch t r).
Proof.
  induction r as [|ic neg items|a IHa b IHb|a IHa b IHb|lo hi a IH|n a IH|neg a IH|neg w a IH| | |];
    cbn [looks_keep groups_keep]; intros HL HG k i c x Hi; cbn [mtch].
  - intros Hx. exists i, c. eauto with lia.
  - destruct (t !! i) eqn:E; [|done]. apply lookup_lt_Some in E. destruct (in_class _ _ _ _); [|done].
    intros Hx. exists (S i), c. eauto with lia.
  - intros Hx. apply IHa in Hx as (j & c' & Hj & HT & Hx); [|naive_solver..].
    eapply tracks_step; [|exact Hj | exact HT | exact Hx]. naive_solver.
  - destruct (mtch t a k i c) as [y|] eqn:E; intros Hx.
    + injection Hx as ->. eapply IHa; naive_solver.
    + eapply IHb; naive_solver.
  - apply (least_tracks _ lo (fun k j c' => more (mtch t a) k (length t - j) (option_map (fun h => h - lo) hi) j c'));
      [by apply IH | | done]. intros k' i' c' x' Hi'. apply more_tracks; [by apply IH | done].
  - intros Hx. apply IH in Hx as (j & c' & Hj & HT & Hx); [|naive_solver..].
    exists j, ((n, (i, j)) :: c'). split_and!; [lia | lia | | done]. apply HG; [lia | done].
  - destruct (mtch t a _ i c) as [[j c']|] eqn:E; destruct neg; try done; intros Hx.
    + apply HL in E; [|done]. subst c'. exists i, c. eauto with lia.
    + exists i, c. eauto with lia.
  - match goal with |- context [if w <=? i then ?m else None] => destruct (w <=? i); [destruct m as [[j c']|] eqn:E|] end;
      destruct neg; try done; intros Hx.
    + apply HL in E; [|done]. subst c'. exists i, c. eauto with lia.
    + exists i, c. eauto with lia.
    + exists i, c. eauto with lia.
  - destruct (i =? 0); [|done]. intros Hx. exists i, c. eauto with lia.
  - destruct (at_eol t i); [|done]. intros Hx. exists i, c. eauto with lia.
  - destruct (at_word_boundary t i); [|done]. intros Hx. exists i, c. eauto with lia.
Qed.
End Tracks.

Fixpoint no_groups (r : regex) : bool :=
  match r with
  | Grp _ _ => false
  | Cat a b | Alt a b => no_groups a && no_groups b
  | Rep _ _ a | Look _ a | Behind _ _ a => no_groups a
  | _ => true
  end.

(** No group inside a lookaround. *)
Fixpoint plain (r : regex) : bool :=
  match r with
  | Look _ a | Behind _ _ a => no_groups a
  | Cat a b | Alt a b => plain a && plain b
  | Rep _ _ a | Grp _ a => plain a
  | _ => true
  end.

Definition same_caps (i : nat) (c : captures) (j : nat) (c' : captures) : Prop := c' = c.

(** Induction on a pattern, splitting the boolean conditions. *)
Ltac pattern_cases r H :=
  induction r as [|ic neg items|a IHa b IHb|a IHa b IHb|lo hi a IH|n a IH|neg a IH|neg w a IH| | |];
  cbn in *; try done; try (apply andb_true_iff in H as [? ?]; auto); auto.

Lemma no_groups_keep T r : no_groups r = true -> groups_keep T r.
Proof. intros H. pattern_cases r H. Qed.

Lemma no_groups_looks t r : no_groups r = true -> looks_keep t r.
Proof.
  intros H. pattern_cases r H; intros i c j c' E Hi;
    assert (Ht : tracks t same_caps (mtch t a))
      by (apply mtch_tracks; unfold same_caps; try congruence; auto using no_groups_keep);
    (apply Ht in E as (l & c2 & _ & -> & E); [|lia]).
  - by simplify_eq/=.
  - destruct (l =? i); by simplify_eq/=.
Qed.

Lemma no_groups_tracks t r : no_groups r = true -> tracks t same_caps (mtch t r).
Proof.
  intros H. apply mtch_tracks; unfold same_caps; try congruence; auto using no_groups_keep, no_groups_looks.
Qed.

(** A span captured on the way lies between the two positions. *)
Definition inside (i : nat) (c : captures) (j : nat) (c' : captures) : Prop :=
  forall n s e, span n c' = Some (s, e) -> span n c = Some (s, e) \/ (i <= s /\ s <= e <= j).

Lemma plain_tracks t r : plain r = true -> tracks t inside (mtch t r).
Proof.
  intros H. apply mtch_tracks.
  - intros i c n s e. auto.
  - intros i c j c' l c'' Hij Hjl H1 H2 n s e Hs. apply H2 in Hs as [Hs|Hs]; [|lia].
    apply H1 in Hs as [Hs|Hs]; [by left|]. right. lia.
  - intros i c n s e. auto.
  - pattern_cases r H; intros i c j c' E Hi; (apply (no_groups_tracks t a H) in E as (l & c2 & _ & -> & E); [|lia]).
    + by simplify_eq/=.
    + destruct (l =? i); by simplify_eq/=.
  - clear H. induction r as [|ic neg items|a IHa b IHb|a IHa b IHb|lo hi a IH|n a IH|neg a IH|neg w a IH| | |];
      cbn in *; auto. split; [|done]. intros i c j c' Hij HT m s e. unfold span. cbn.
    destruct (decide (n = m)) as [->|]; [intros [= <- <-]; lia | apply HT].
Qed.

(** ** Searching and replacing *)

Lemma match_at_some t r adv i j c :
  i <= length t -> match_at t r adv i = Some (j, c) ->
  den t r i j /\ i <= j <= length t /\ (adv = true -> i < j) /\
  (plain r = true -> forall n s e, span n c = Some (s, e) -> i <= s /\ s <= e <= j).
Proof.
  intros Hi E. unfold match_at in E.
  assert (Hend : forall (l : nat) (c2 : captures), (if adv && (l =? i) then None else @Some (nat * captures) (l, c2)) = Some (j, c) ->
            l = j /\ c2 = c /\ (adv = true -> j <> i)).
  { intros l c2. destruct adv; cbn; [|intros [= <- <-]; done].
    destruct (Nat.eqb_spec l i); [done|]. intros [= <- <-]. done. }
  apply (mtch_agrees t r) in E as E'; [|done]. destruct E' as (l & c2 & Hd & Hk).
  apply Hend in Hk as (-> & _ & Hne). pose proof (den_bounds t r i j Hi Hd). split_and!; try done; try lia.
  - intros Ha. specialize (Hne Ha). lia.
  - intros Hp n s e Hs. apply (plain_tracks t r Hp) in E as (l & c3 & _ & HT & Hk); [|done].
    apply Hend in Hk as (-> & -> & _). apply HT in Hs as [Hs|Hs]; [done | exact Hs].
Qed.

Lemma match_at_none t r i j : i <= length t -> match_at t r false i = None -> ~ den t r i j.
Proof. intros Hi E Hd. by destruct (proj2 (mtch_agrees t r _ i [] Hi) E j Hd). Qed.

Lemma search_from_some t r adv n i b f :
  i + n = length t -> search_from t r adv n i = Some (b, f) ->
  i <= b <= length t /\ exists adv', match_at t r adv' b = Some f /\ (b = i -> adv' = adv).
Proof.
  revert adv i. induction n as [|n IH]; intros adv i Hn; cbn; destruct (match_at t r adv i) eqn:E;
    try (intros [= <- <-]; split; [lia | by exists adv]); try done.
  intros Hs. apply IH in Hs as [Hb (adv' & ? & _)]; [|lia]. split; [lia|]. exists adv'. split; [done | lia].
Qed.

Lemma search_from_none t r n i :
  i + n = length t -> search_from t r false n i = None -> forall b j, i <= b <= length t -> ~ den t r b j.
Proof.
  revert i. induction n as [|n IH]; intros i Hn; cbn; destruct (match_at t r false i) eqn:E; try done.
  - intros _ b j Hb. replace b with i by lia. apply match_at_none; [lia | done].
  - intros Hs b j Hb. destruct (decide (b = i)) as [->|]; [apply match_at_none; [lia | done]|].
    apply (IH (S i) ltac:(lia) Hs). lia.
Qed.

(** [search] finds a match exactly when the pattern matches somewhere. *)
Lemma search_spec r s :
  search r s = true <-> exists i j, i <= length (chars s) /\ den (chars s) r i j.
Proof.
  unfold search. set (t := chars s).
  destruct (search_from t r false (length t) 0) as [[b [e c]]|] eqn:E; split; try done.
  - intros _. apply search_from_some in E as [Hb (adv & E & _)]; [|lia].
    apply match_at_some in E as (Hd & _); [|lia]. exists b, e. split; [lia | done].
  - intros (i & j & Hi & Hd). by destruct (search_from_none t r (length t) 0 ltac:(lia) E i j ltac:(lia)).
Qed.

(** The matches are disjoint and in order; a group's span lies within its match. *)
Fixpoint in_order (t : text) (r : regex) (i : nat) (ms : list (nat * found)) : Prop :=
  match ms with
  | [] => True
  | (b, (e, c)) :: ms =>
      i <= b /\ b <= e <= length t /\ den t r b e /\
      (plain r = true -> forall n s e', span n c = Some (s, e') -> b <= s /\ s <= e' <= e) /\
      in_order t r e ms
  end.

Lemma all_matches_in_order fuel t r count adv i :
  i <= length t -> in_order t r i (all_matches fuel t r count adv i).
Proof.
  revert count adv i. induction fuel as [|fuel IH]; intros count adv i Hi; cbn [all_matches]; [done|].
  assert (H : in_order t r i match search_from t r adv (length t - i) i with
     | Some (b, (e, c)) => (b, (e, c)) :: all_matches fuel t r (pred_opt count) (b =? e) e
     | None => [] end).
  { destruct (search_from t r adv (length t - i) i) as [[b [e c]]|] eqn:E; [|done].
    apply search_from_some in E as [Hb (adv' & E & _)]; [|lia].
    apply match_at_some in E as (Hd & He & _ & Hp); [|lia]. cbn. split_and!; try done; try lia.
    apply IH. lia. }
  by destruct count as [[|n]|].
Qed.

(** The fuel of [sub] is enough: more of it finds no more matches. *)
Lemma all_matches_fuel t r fuel1 fuel2 count (adv : bool) i :
  i <= length t -> 2 * (length t - i) + (if adv then 1 else 2) <= fuel1 -> fuel1 <= fuel2 ->
  all_matches fuel2 t r count adv i = all_matches fuel1 t r count adv i.
Proof.
  revert fuel2 count adv i. induction fuel1 as [|fuel1 IH]; intros fuel2 count adv i Hi Hf Hle.
  - destruct adv; lia.
  - destruct fuel2 as [|fuel2]; [lia|]. cbn [all_matches].
    assert (H : forall count, match search_from t r adv (length t - i) i with
     | Some (b, (e, c)) => (b, (e, c)) :: all_matches fuel2 t r count (b =? e) e
     | None => [] end = match search_from t r adv (length t - i) i with
     | Some (b, (e, c)) => (b, (e, c)) :: all_matches fuel1 t r count (b =? e) e
     | None => [] end); [|by destruct count as [[|n]|]].
    intros count'. destruct (search_from t r adv (length t - i) i) as [[b [e c]]|] eqn:E; [|done].
    apply search_from_some in E as [Hb (adv' & E & Ha)]; [|lia].
    apply match_at_some in E as (_ & He & Hlt & _); [|lia]. f_equal. apply IH; [lia | | lia].
    destruct (Nat.eqb_spec b e) as [<-|]; [|destruct adv; lia].
    destruct (decide (b = i)) as [->|]; [|destruct adv; lia].
    destruct adv; [|lia]. specialize (Ha eq_refl). subst. specialize (Hlt eq_refl). lia.
Qed.

#[global] Arguments search : simpl never.
#[global] Arguments compile : simpl never.
#[global] Arguments compile_ignorecase : simpl never.

(** ** Properties *)

(** The matcher is exactly the meaning of the pattern: when the continuation-passing
    backtracking search succeeds it has found a match accepted by the continuation, and when
    it fails the continuation refuses every match there is. *)
Theorem matcher_exact t r k i c :
  i <= length t ->
  (forall x, mtch t r k i c = Some x -> exists j c', den t r i j /\ k j c' = Some x) /\
  (mtch t r k i c = None -> forall j, den t r i j -> exists c', k j c' = None).
Proof. apply mtch_agrees. Qed.

Lemma matcher_exact_witness :
  let t := chars "xab" in let r := re_body (compile "a*b|c") in
  let k := (fun j c => Some (j, c)) : cont in
  (forall x, mtch t r k 1 [] = Some x -> exists j c', den t r 1 j /\ k j c' = Some x) /\
  (mtch t r k 1 [] = None -> forall j, den t r 1 j -> exists c', k j c' = None).
Proof. apply (matcher_exact (chars "xab")). vm_compute. lia. Defined.

(** Replacement always finishes: the matches [sub] replaces are all the matches, however
    much fuel it is given, and they are disjoint, in order and real. *)
Theorem sub_terminates t r count fuel :
  2 * length t + 2 <= fuel ->
  let ms := all_matches (2 * length t + 2) t r count false 0 in
  all_matches fuel t r count false 0 = ms /\ in_order t r 0 ms.
Proof.
  intros Hf ms. split; [apply all_matches_fuel; lia | apply all_matches_in_order; lia].
Qed.

Lemma sub_terminates_witness :
  let t := chars "abxxd" in let r := re_body (compile "x*") in
  let ms := all_matches (2 * length t + 2) t r None false 0 in
  all_matches 100 t r None false 0 = ms /\ in_order t r 0 ms.
Proof. apply (sub_terminates (chars "abxxd") _ None 100). vm_compute. lia. Defined.
