(* ===== verification/Classify.v ===== *)
(** * Classifying processes

    [node_monitor/pipeline/rules.py], the rule tables, and [classify.py]: a process is given
    the category and activity of the highest-priority rule its command line matches. *)

From S2P Require Import Prelude Regex.

Open Scope Z_scope.

(** ** Rule tables *)

Definition SPEC_CATEGORIES : list string :=
  ["ai_agent"; "editor_server"; "jupyter"; "build"; "python"; "shell"; "data_transfer"; "fs_scan";
   "scheduler"; "workflow"; "system"; "other"].

Definition DEFAULT_CATEGORY : string := "other".

(** (category, regex, priority) *)
Definition CATEGORY_RULES : list (string * string * Z) :=
  [("editor_server", ("vscode-server|vscode_server|\.vscode-server|cursor-server|\.cursor-server|jetbrains|"
     +:+ "remote-dev-server|code-server"), 10);
   ("ai_agent", ("(^|/)(claude|codex|opencode|aider|gemini|cline|goose|windsurf|hermes|hermes-agent|"
     +:+ "hermes_cli|openclaw|open-claw|open_claw)( |$)|-m\s+(claude|codex|opencode|aider|gemini|"
     +:+ "cline|goose|windsurf|hermes_cli|openclaw)[_.\s]|anthropic\.claude-code|openai\.chatgpt|"
     +:+ "claude-code|claude_code|copilot-language|copilot-agent|gh-copilot|github\.copilot|"
     +:+ "codeium-windsurf|codeium\.windsurf|windsurf-server|\.windsurf-server|cursor-agent|"
     +:+ "roo-cline|roo-code|rooveterinaryinc\.roo-cline|continue\.continue|continuedev|"
     +:+ "\.continue/"), 20);
   ("jupyter", "jupyter|ipykernel|jupyter-lab|jupyterhub", 10);
   ("scheduler", ("(^|/)(qstat|qsub|qdel|qhold|qrls|qalter|pbsnodes|pbs_[a-z]+|mpiexec|mpirun|aprun|"
     +:+ "srun)( |$)"), 10);
   ("data_transfer", ("(^|/)(git|git-[a-z-]+|rsync|scp|sftp|globus|globus-url-copy|curl|wget|tar|gzip|gunzip|"
     +:+ "bzip2|xz|zip|unzip|hsi|htar)( |$)"), 10);
   ("fs_scan", "(^|/)(find|du|ncdu|updatedb|locate|stat|ls)( |$)|(^|/)lfs( |$).*(find|df)|(^|/)mlocate", 10);
   ("build", ("(^|/)(make|gmake|cmake|ninja|gcc|g\+\+|cc|c\+\+|clang|clang\+\+|nvcc|ftn|CC|ld|ar|"
     +:+ "ranlib|cargo|rustc|go|javac|configure|conda|pip|pip3|spack)( |$)"), 10);
   ("python", "(^|/)(python|python[0-9.]*)( |$)", 10);
   ("shell", ("(^|/)(sshd|bash|zsh|tcsh|csh|ksh|sh|screen|tmux|systemd|\(sd-pam\)|dbus-daemon|"
     +:+ "dbus-launch|login|su|sudo)( |:|$)|^-"), 10)].

(** (activity, category, regex, priority) *)
Definition ACTIVITY_RULES : list (string * string * string * Z) :=
  [("vscode-remote-server", "editor_server", "vscode-server|code-server", 10);
   ("cursor-remote-server", "editor_server", "cursor-server", 10);
   ("claude-code", "ai_agent", "claude-code|anthropic\.claude-code|(^|/)claude( |$)", 20);
   ("codex-cli", "ai_agent", "(^|/)codex( |$)|openai\.chatgpt", 20);
   ("windsurf", "ai_agent", "(^|/)windsurf( |$)|codeium-windsurf|codeium\.windsurf|windsurf-server|\.windsurf-server", 20);
   ("cursor-cli", "ai_agent", "cursor-agent|(^|/)cursor( |$)", 20);
   ("hermes", "ai_agent", "hermes-agent|hermes_cli|(^|/)hermes( |$)", 20);
   ("openclaw", "ai_agent", "open-claw|openclaw|open_claw", 20);
   ("roo", "ai_agent", "roo-cline|roo-code|rooveterinaryinc\.roo-cline", 20);
   ("continue", "ai_agent", "continue\.continue|continuedev|(^|/)\.continue/", 20);
   ("copilot-agent", "ai_agent", "copilot-agent|copilot-language-server|gh-copilot|github\.copilot", 20);
   ("jupyter-kernel", "jupyter", "ipykernel", 10);
   ("jupyter-server", "jupyter", "jupyter", 10);
   ("torch-distributed", "python", "torch\.distributed|torchrun", 10);
   ("mpi-launch", "scheduler", "(^|/)(mpiexec|mpirun|aprun|srun)( |$)", 10);
   ("compiler-invocation", "build", "(^|/)(gcc|g\+\+|clang|nvcc|ftn|cc|c\+\+)( |$)", 10);
   ("build-driver", "build", "(^|/)(make|gmake|cmake|ninja)( |$)", 10);
   ("package-install", "build", "(^|/)(pip|pip3|conda|spack)( |$)", 10);
   ("git-operation", "data_transfer", "(^|/)git( |$)|(^|/)git-[a-z-]+( |$)", 10);
   ("data-transfer", "data_transfer", "(^|/)(rsync|scp|sftp|globus|globus-url-copy|curl|wget)( |$)", 10);
   ("filesystem-scan", "fs_scan", "(^|/)(find|du|ncdu|updatedb)( |$)", 10);
   ("pbs-query", "scheduler", "(^|/)(qstat|qsub|qdel|pbsnodes)( |$)", 10);
   ("globus-compute", "workflow", "globus-compute-endpoint|globus.compute|gc_submit|gc-ctrl", 10);
   ("balsam", "workflow", "(^|/)balsam( |$)|-m\s+balsam\.", 10);
   ("parsl", "workflow", "(^|/)parsl( |$)|-m\s+parsl\.", 10);
   ("argo", "workflow", "argo-shim|argo-proxy|argo.bridge|ARGO_BRIDGE_SOCK", 10);
   ("postgres", "system", "(^|/)postgres( |$)|postmaster", 10);
   ("dbus", "system", "dbus-daemon|dbus-launch|dbus-session", 10);
   ("fail2ban", "system", "fail2ban-server|fail2ban", 10);
   ("ssh-agent", "shell", "(^|/)ssh-agent( |$)", 10);
   ("sleep", "shell", "(^|/)sleep( |$)", 10);
   ("pytest", "python", "-m\s+pytest\b", 10);
   ("reuse-lint", "other", "-m\s+reuse\b", 10);
   ("python-http-server", "python", "-m\s+http\.server|preview_server|serve_boards|helios_preview_server|nxserver", 10);
   ("starccm", "other", "-m\s+starserver|STAR-CCM", 10);
   ("python-training", "python", "(^|[/ ])train\.py( |$)|train_.*\.py|finetune|fine.tune", 10);
   ("python-inference", "python", ("(^|[/ ])infer\.py( |$)|infer_.*\.py|(^|[/ ])predict\.py( |$)|generat.*\.py|(^|"
     +:+ "[/ ])boltz( |$)"), 10);
   ("python-generic", "python", "(^|/)python[0-9.]*( |$)", 5);
   ("shell", "shell", "(^|/)(bash|zsh|tcsh|csh|ksh|sh)( |$)|^-", 10);
   ("ssh-session", "shell", "(^|/)sshd( |:|$)", 10);
   ("terminal-multiplexer", "shell", "(^|/)(screen|tmux)( |$)", 10);
   ("agent-like-unclassified", "ai_agent", ("(^|/)\.vscode-server/extensions/[A-Za-z0-9_-]+\.[A-Za-z0-9_.-]*(?:agent|assistant|"
     +:+ "copilot|chatbot)[A-Za-z0-9_.-]*(?:/|$)"), 15)].

(** ** Classification *)

Record activity_rule := ActivityRule { ar_activity : string; ar_category : string; ar_pattern : regex; ar_priority : Z }.
Record category_rule := CategoryRule { cr_category : string; cr_pattern : regex; cr_priority : Z }.

Definition _ACTIVITY : list activity_rule :=
  map (fun r => let '(a, c, rx, p) := r in ActivityRule a c (re_body (compile rx)) p) ACTIVITY_RULES.
Definition _CATEGORY : list category_rule :=
  map (fun r => let '(c, rx, p) := r in CategoryRule c (re_body (compile rx)) p) CATEGORY_RULES.

(** [(best is None or priority > best) and pattern.search(haystack)] *)
Definition outranks (best : option Z) (priority : Z) (hits : bool) : bool :=
  match best with None => true | Some b => b <? priority end && hits.

(** The two loops: the activity rules, then the category rules outranking the activity. *)
Definition pick_activity (haystack : string) (rules : list activity_rule) : option activity_rule :=
  foldl (fun best r =>
           if outranks (option_map ar_priority best) (ar_priority r) (search (ar_pattern r) haystack)
           then Some r else best) None rules.
Definition pick_category (haystack : string) (rules : list category_rule)
    (category : option string) (best : option Z) : option string * option Z :=
  foldl (fun st r =>
           if outranks st.2 (cr_priority r) (search (cr_pattern r) haystack)
           then (Some (cr_category r), Some (cr_priority r)) else st) (category, best) rules.

Record Classification := Classified { category : string; activity : option string }.

(** [classify] *)
Definition classify (comm cmdline : string) (uid min_user_uid : Z) : Classification :=
  let haystack := match cmdline with "" => comm | _ => cmdline end in
  let act := pick_activity haystack _ACTIVITY in
  let '(cat, _) := pick_category haystack _CATEGORY (option_map ar_category act) (option_map ar_priority act) in
  let cat := if uid <? min_user_uid then Some "system" else cat in
  Classified (match cat with Some "" | None => DEFAULT_CATEGORY | Some c => c end) (option_map ar_activity act).

(** Every pattern of the tables is one [parse] reads. *)
Example rules_compile :
  forallb (fun r => bool_decide (is_Some (parse false r.1.2))) ACTIVITY_RULES
  && forallb (fun r => bool_decide (is_Some (parse false r.1.2))) CATEGORY_RULES = true.
Proof. vm_compute. reflexivity. Qed.

Definition VSX : string := "/home/u/.vscode-server/extensions/".
Definition cases : list (string * string * Z) :=
  [("bash", "/home/u/scripts/my_windsurf_notes.sh", 31112); ("python3", "python3 train.py --epochs 3", 31112);
   ("sshd", "sshd: alice@pts/3", 0); ("weird", "", 31112); ("make", "make -j 32", 500); ("claude", "", 31112);
   ("python", "/soft/python/bin/python -m claude_code.cli", 31112);
   ("node", VSX +:+ "anthropic.claude-code-1.2.3/bin/claude", 31112);
   ("node", VSX +:+ "acme.super-agent-1.0.0/bin/node", 31112);
   ("x", "tar xf a.tar", 31112); ("x", "/opt/cray/pe/gcc/bin/gcc -O3 -c kernel.c", 31112);
   ("x", "python -m pytest -q", 31112); ("-bash", "-bash", 31112)].

(** Checked against the cases of the test suite. *)
Example classify_cases :
  map (fun c => let '(comm, cmdline, uid) := c in
                let r := classify comm cmdline uid 1000 in (category r, activity r)) cases
  = [("other", None); ("python", Some "python-training"); ("system", Some "ssh-session"); ("other", None);
     ("system", Some "build-driver"); ("ai_agent", Some "claude-code"); ("ai_agent", Some "python-generic");
     ("ai_agent", Some "claude-code"); ("ai_agent", Some "agent-like-unclassified"); ("data_transfer", None);
     ("build", Some "compiler-invocation"); ("python", Some "pytest"); ("shell", Some "shell")].
Proof. vm_compute. reflexivity. Qed.

#[local] Opaque _ACTIVITY _CATEGORY.

(** ** The highest priority wins, ties go to the earlier rule *)

Section Winner.
Context {R : Type} (prio : R -> Z) (hits : R -> Prop).

(** [r] is the first of the hitting rules of the greatest priority, which exceeds [floor]. *)
Definition winner (floor : option Z) (rules : list R) (r : R) : Prop :=
  exists l1 l2, rules = l1 ++ r :: l2 /\ hits r /\
    match floor with Some p => p < prio r | None => True end /\
    (forall r', r' ∈ l1 -> hits r' -> prio r' < prio r) /\
    (forall r', r' ∈ l2 -> hits r' -> prio r' <= prio r).

Definition no_winner (floor : option Z) (rules : list R) : Prop :=
  forall r, r ∈ rules -> hits r -> match floor with Some p => prio r <= p | None => False end.

Lemma winner_snoc_keep floor rules r x :
  winner floor rules r -> (hits x -> prio x <= prio r) -> winner floor (rules ++ [x]) r.
Proof.
  intros (l1 & l2 & -> & Hh & Hf & H1 & H2) Hx. exists l1, (l2 ++ [x]).
  rewrite <- app_assoc. split_and!; try done. intros r' Hr. apply elem_of_app in Hr as [Hr|Hr]; [by apply H2|].
  apply list_elem_of_singleton in Hr as ->. done.
Qed.

Lemma winner_snoc_new floor rules r :
  hits r -> match floor with Some p => p < prio r | None => True end ->
  (forall r', r' ∈ rules -> hits r' -> prio r' < prio r) -> winner floor (rules ++ [r]) r.
Proof. intros Hh Hf Hl. exists rules, []. split_and!; try done. intros r' Hr. by apply not_elem_of_nil in Hr. Qed.

Lemma winner_bound floor rules r r' : winner floor rules r -> r' ∈ rules -> hits r' -> prio r' <= prio r.
Proof.
  intros (l1 & l2 & -> & Hh & Hf & H1 & H2) Hr Hh'. apply elem_of_app in Hr as [Hr|Hr].
  - specialize (H1 r' Hr Hh'). lia.
  - apply elem_of_cons in Hr as [->|Hr]; [lia | by apply H2].
Qed.

Lemma winner_elem floor rules r : winner floor rules r -> r ∈ rules.
Proof. intros (l1 & l2 & -> & _). apply elem_of_app. right. apply elem_of_cons. by left. Qed.

(** One step of either loop. *)
Lemma winner_step (best : option R) floor rules x (b : bool) :
  match best with Some r => winner floor rules r | None => no_winner floor rules end ->
  (b = true <-> hits x) ->
  let top := match best with Some r => Some (prio r) | None => floor end in
  match (if outranks top (prio x) b then Some x else best) with
  | Some r => winner floor (rules ++ [x]) r
  | None => no_winner floor (rules ++ [x])
  end.
Proof.
  intros Hb Hx top. unfold outranks.
  destruct (match top with None => true | Some p => p <? prio x end) eqn:Et; cbn.
  - destruct b.
    + apply winner_snoc_new; [by apply Hx | |]; destruct best as [r|]; subst top; cbn in Et.
      * apply Z.ltb_lt in Et. destruct Hb as (? & ? & _ & _ & Hf & _). destruct floor; [lia | done].
      * destruct floor; [by apply Z.ltb_lt | done].
      * apply Z.ltb_lt in Et. intros r' Hr Hh. pose proof (winner_bound _ _ _ _ Hb Hr Hh). lia.
      * intros r' Hr Hh. specialize (Hb r' Hr Hh). destruct floor; [apply Z.ltb_lt in Et; lia | done].
    + destruct best as [r|].
      * apply winner_snoc_keep; [done|]. intros Hh. by apply Hx in Hh.
      * intros r Hr Hh. apply elem_of_app in Hr as [Hr|Hr]; [by apply Hb|].
        apply list_elem_of_singleton in Hr as ->. by apply Hx in Hh.
  - destruct top as [p|] eqn:Etop; [|done]. apply Z.ltb_ge in Et. destruct best as [r|].
    + apply winner_snoc_keep; [done|]. intros _. by injection Etop as ->.
    + intros r Hr Hh. apply elem_of_app in Hr as [Hr|Hr]; [by apply Hb|].
      apply list_elem_of_singleton in Hr as ->. change top with floor in Etop. by rewrite Etop.
Qed.
End Winner.

Definition hits_activity (haystack : string) (r : activity_rule) : Prop := search (ar_pattern r) haystack = true.
Definition hits_category (haystack : string) (r : category_rule) : Prop := search (cr_pattern r) haystack = true.

Lemma pick_activity_spec haystack rules :
  match pick_activity haystack rules with
  | Some r => winner ar_priority (hits_activity haystack) None rules r
  | None => no_winner ar_priority (hits_activity haystack) None rules
  end.
Proof.
  induction rules as [|x rules IH] using rev_ind; [by intros r Hr%not_elem_of_nil|].
  unfold pick_activity in *. rewrite foldl_app. cbn [foldl].
  set (best := foldl _ None rules) in *.
  pose proof (winner_step ar_priority (hits_activity haystack) best None rules x _ IH (iff_refl _)) as H.
  by destruct best.
Qed.

Lemma pick_category_spec haystack rules cat best :
  match pick_category haystack rules cat best with
  | (Some c, top) => (exists r, winner cr_priority (hits_category haystack) best rules r /\
                        c = cr_category r /\ top = Some (cr_priority r)) \/
                     (cat = Some c /\ top = best /\ no_winner cr_priority (hits_category haystack) best rules)
  | (None, top) => cat = None /\ top = best /\ no_winner cr_priority (hits_category haystack) best rules
  end.
Proof.
  set (Inv := fun rules (st : option string * option Z) =>
    exists w : option category_rule,
      match w with
      | Some r => winner cr_priority (hits_category haystack) best rules r /\ st = (Some (cr_category r), Some (cr_priority r))
      | None => no_winner cr_priority (hits_category haystack) best rules /\ st = (cat, best)
      end).
  assert (H : Inv rules (pick_category haystack rules cat best)).
  { induction rules as [|x rules IH] using rev_ind; [exists None; split; [by intros r Hr%not_elem_of_nil | done]|].
    unfold pick_category in *. rewrite foldl_app. cbn [foldl]. set (st := foldl _ _ rules) in *.
    destruct IH as [w IH].
    assert (Hw : match w with Some r => winner cr_priority (hits_category haystack) best rules r
                 | None => no_winner cr_priority (hits_category haystack) best rules end) by (destruct w; apply IH).
    pose proof (winner_step cr_priority (hits_category haystack) w best rules x _ Hw (iff_refl _)) as Hs. cbv zeta in Hs.
    assert (E2 : st.2 = match w with Some r => Some (cr_priority r) | None => best end)
      by (destruct w; destruct IH as [_ ->]; done).
    rewrite E2. unfold hits_category in *. revert Hs. destruct (outranks _ _ _); intros Hs; [by exists (Some x)|].
    exists w. by destruct w; destruct IH as [_ ->]. }
  destruct H as [[r|] [Hw ->]]; [left; by exists r|]. destruct cat; auto.
Qed.

Lemma classify_rules comm cmdline uid min_user_uid :
  let haystack := match cmdline with "" => comm | _ => cmdline end in
  let r := classify comm cmdline uid min_user_uid in
  exists act : option activity_rule,
    match act with
    | Some a => winner ar_priority (hits_activity haystack) None _ACTIVITY a
    | None => no_winner ar_priority (hits_activity haystack) None _ACTIVITY
    end /\
    activity r = option_map ar_activity act /\
    (uid < min_user_uid -> category r = "system") /\
    (min_user_uid <= uid ->
       (exists c, winner cr_priority (hits_category haystack) (option_map ar_priority act) _CATEGORY c /\
                  category r = cr_category c) \/
       (no_winner cr_priority (hits_category haystack) (option_map ar_priority act) _CATEGORY /\
        category r = match act with Some a => ar_category a | None => DEFAULT_CATEGORY end)).
Proof.
  intros haystack r. unfold r, classify. fold haystack.
  pose proof (pick_activity_spec haystack _ACTIVITY) as Ha.
  set (act := pick_activity haystack _ACTIVITY) in *.
  pose proof (pick_category_spec haystack _CATEGORY (option_map ar_category act) (option_map ar_priority act)) as Hc.
  destruct (pick_category _ _ _ _) as [cat top] eqn:Ec. exists act.
  assert (Hne : Forall (fun a => ar_category a <> "") _ACTIVITY /\ Forall (fun a => cr_category a <> "") _CATEGORY).
  { split; apply (bool_decide_unpack _); vm_compute; exact I. }
  destruct Hne as [Hna Hnc]. rewrite Forall_forall in Hna. rewrite Forall_forall in Hnc.
  split_and!; [exact Ha | reflexivity | intros Hu; cbn; by rewrite (proj2 (Z.ltb_lt _ _) Hu) |].
  intros Hu. cbn [category]. rewrite (proj2 (Z.ltb_ge _ _) Hu). destruct cat as [c|].
  - destruct Hc as [(w & Hw & -> & _)|(E & _ & Hn)].
    + left. exists w. split; [done|]. apply winner_elem, Hnc in Hw.
      destruct (cr_category w) as [|? ?]; [done | reflexivity].
    + right. split; [done|]. destruct act as [a|]; [|done]. cbn in E. injection E as <-.
      apply winner_elem, Hna in Ha. cbn. destruct (ar_category a) as [|? ?]; [done | reflexivity].
  - destruct Hc as (E & _ & Hn). right. split; [done|]. destruct act; [discriminate E | reflexivity].
Qed.

(** ** Properties *)

(** The activity is that of the first matching activity rule of the highest priority, or
    none when no activity rule matches.  The category is "system" for a system uid; else that
    of the first matching category rule of the highest priority among those outranking the
    activity's rule; else the activity rule's; else the default. *)
Theorem classify_highest_wins comm cmdline uid min_user_uid :
  let haystack := match cmdline with "" => comm | _ => cmdline end in
  let r := classify comm cmdline uid min_user_uid in
  exists act : option activity_rule,
    match act with
    | Some a => winner ar_priority (hits_activity haystack) None _ACTIVITY a
    | None => no_winner ar_priority (hits_activity haystack) None _ACTIVITY
    end /\
    activity r = option_map ar_activity act /\
    (uid < min_user_uid -> category r = "system") /\
    (min_user_uid <= uid ->
       (exists c, winner cr_priority (hits_category haystack) (option_map ar_priority act) _CATEGORY c /\
                  category r = cr_category c) \/
       (no_winner cr_priority (hits_category haystack) (option_map ar_priority act) _CATEGORY /\
        category r = match act with Some a => ar_category a | None => DEFAULT_CATEGORY end)).
Proof. apply classify_rules. Qed.

(** Whatever the process, its category is one the specification lists. *)
Theorem classify_spec_categories comm cmdline uid min_user_uid :
  category (classify comm cmdline uid min_user_uid) ∈ SPEC_CATEGORIES.
Proof.
  assert (Hin : Forall (fun a => ar_category a ∈ SPEC_CATEGORIES) _ACTIVITY /\
                Forall (fun a => cr_category a ∈ SPEC_CATEGORIES) _CATEGORY).
  { split; apply (bool_decide_unpack _); vm_compute; exact I. }
  destruct Hin as [Ha Hc]. rewrite Forall_forall in Ha. rewrite Forall_forall in Hc.
  destruct (decide (uid < min_user_uid)) as [Hu|Hu].
  { unfold classify. destruct (pick_category _ _ _ _). cbn. rewrite (proj2 (Z.ltb_lt _ _) Hu). set_solver. }
  destruct (classify_rules comm cmdline uid min_user_uid) as (act & Hact & _ & _ & H).
  destruct (H ltac:(lia)) as [(c & Hw & ->)|[_ ->]].
  - apply Hc. by apply winner_elem in Hw.
  - destruct act as [a|]; [|unfold DEFAULT_CATEGORY; set_solver].
    apply Ha. by apply winner_elem in Hact.
Qed.
