(* ===== verification/Enrich.v ===== *)
(** * Enriching a census

    [node_monitor/pipeline/enrich.py]: the raw rows of the probe become live process rows.
    A row is a JSON object; what the code uses as a string or a number must be one. *)

From stdpp Require Import pretty.
From S2P Require Import Prelude PyTime PyFloat PyVal Regex Classify Redact.

Open Scope Z_scope.

Definition LIVE_PROCESS_COLUMNS : list string :=
  ["pid"; "start_time"; "uid"; "username"; "comm"; "exe"; "argv0"; "cmdline"; "ppid"; "parent_comm";
   "parent_exe"; "parent_kind"; "category"; "activity"; "state"; "threads"; "rss_kb"; "cpu_seconds";
   "cpu_state"; "gpu_mem_mb"; "interactive"; "under_screen_or_tmux"; "idle_for_sec";
   "idle_for_is_lower_bound"; "idle_bucket"; "owner_presence"; "is_user_process"].

Definition _SSHD_SESSION : pattern := Eval vm_compute in compile "^sshd(?:-session)?: [^@\s\[]+@(?P<tty>pts/\d+|notty)$".

Definition _COPIED : list string :=
  ["pid"; "start_time"; "uid"; "username"; "comm"; "exe"; "argv0"; "ppid"; "parent_comm"; "parent_exe";
   "parent_kind"; "state"; "threads"; "rss_kb"; "cpu_seconds"; "gpu_mem_mb"; "interactive";
   "under_screen_or_tmux"; "idle_for_sec"; "idle_for_is_lower_bound"].

(** ** Owners *)

(** [user_key] *)
Definition user_key (row : dict) : res string :=
  match dget_or_none "username" row with
  | VNone => u ← (item "uid" row ≫= as_int); Ok ("uid:" +:+ pretty u)
  | v => as_str v
  end.

(** [v or ""] of a string or nothing *)
Definition text_or_empty (v : value) : res string := if truthy v then as_str v else Ok "".

(** The terminal named by the title of a session's sshd process. *)
Definition session_tty (cmdline : string) : option string :=
  let t := chars cmdline in
  match match_at t (re_body _SSHD_SESSION) false 0 with
  | Some (_, c) => match span 1 c with Some (s, e) => Some (str (slice t s e)) | None => None end
  | None => None
  end.

Definition setdefault {V} (k : string) (v : V) (d : list (string * V)) : list (string * V) :=
  match dget k d with Some _ => d | None => dset k v d end.

(** [owner_presence_by_user] *)
Definition presence_row (presence : list (string * string)) (row : dict) : res (list (string * string)) :=
  cmdline ← text_or_empty (dget_or_none "cmdline" row);
  match session_tty cmdline with
  | None => Ok presence
  | Some tty =>
      user ← user_key row;
      Ok (if bool_decide (tty = "notty") then setdefault user "connected" presence
          else dset user "interactive" presence)
  end.
Definition owner_presence_by_user (rows : list dict) : res (list (string * string)) :=
  foldl (fun acc row => p ← acc; presence_row p row) (Ok []) rows.

(** ** Rows *)

Definition below (n : num) (z : Z) : bool := num_ltb n (NInt z).

(** [idle_bucket] *)
Definition idle_bucket (cpu_state idle_for_sec : value) : res string :=
  match cpu_state, idle_for_sec with
  | VNone, _ | _, VNone => Ok "unknown"
  | _, v =>
      match num_of v with
      | None => Raise TypeError
      | Some n => Ok (if below n 300 then "<5m" else if below n 3600 then "5m-1h"
                      else if below n 86400 then "1h-1d" else ">1d")
      end
  end.

(** One row of [enrich_census], given the presence of the owners. *)
Definition enrich_row (presence : list (string * string)) (r : redactor) (min_user_uid : Z) (gpu_measured : bool)
    (row : dict) : res dict :=
  cmdline ← text_or_empty (dget_or_none "cmdline" row);
  comm ← (item "comm" row ≫= as_str);
  uid ← (item "uid" row ≫= as_int);
  let cls := classify comm cmdline uid min_user_uid in
  user ← user_key row;
  let new := map (fun k => (k, dget_or_none k row)) _COPIED in
  let new := dset "username" (VStr user) new in
  argv0 ← (let v := dget_or_none "argv0" row in
           if truthy v then match v with VStr s => Ok (VStr (redact r s)) | _ => Raise AttributeError end else Ok v);
  let new := dset "argv0" argv0 new in
  let new := dset "cmdline" (VStr (redact r cmdline)) new in
  let new := match dget "gpu_mem_mb" new with
             | Some VNone => if gpu_measured then dset "gpu_mem_mb" (VFloat fzero) new else new
             | _ => new
             end in
  let new := dset "category" (VStr (category cls)) new in
  let new := dset "activity" (val_opt VStr (activity cls)) new in
  let state := dget_or_none "cpu_state" row in
  let new := dset "cpu_state" (if truthy state then state else VStr "unknown") new in
  bucket ← idle_bucket state (dget_or_none "idle_for_sec" row);
  let new := dset "idle_bucket" (VStr bucket) new in
  let new := dset "owner_presence" (VStr (default "absent" (dget user presence))) new in
  let new := dset "is_user_process"
               (VBool ((min_user_uid <=? uid) && negb (bool_decide (category cls = "system")))) new in
  Ok (map (fun k => (k, dget_or_none k new)) LIVE_PROCESS_COLUMNS).

Fixpoint mapM_res {A B} (f : A -> res B) (l : list A) : res (list B) :=
  match l with
  | [] => Ok []
  | x :: l => y ← f x; ys ← mapM_res f l; Ok (y :: ys)
  end.

(** [gpu_status == "ok"] *)
Definition is_ok (gpu_status : value) : bool :=
  match gpu_status with VStr s => bool_decide (s = "ok") | _ => false end.

(** [enrich_census] *)
Definition enrich_census (rows : list dict) (r : redactor) (min_user_uid : Z) (gpu_status : value) : res (list dict) :=
  presence ← owner_presence_by_user rows;
  mapM_res (enrich_row presence r min_user_uid (is_ok gpu_status)) rows.

Definition raw_row (pid uid : Z) (user comm cmdline : string) : dict :=
  [("pid", VInt pid); ("uid", VInt uid); ("username", VStr user); ("comm", VStr comm); ("cmdline", VStr cmdline);
   ("state", VStr "S"); ("threads", VInt 1); ("rss_kb", VInt 100); ("cpu_seconds", VFloat fzero);
   ("interactive", VBool false); ("cpu_state", VStr "idle"); ("idle_for_sec", VInt 400)].
Definition raw_rows : list dict :=
  [raw_row 1 0 "root" "sshd" "sshd: ann [priv]"; raw_row 2 1500 "ann" "sshd" "sshd: ann@pts/3";
   raw_row 3 1500 "ann" "python" "python train.py --token s3"; raw_row 4 1600 "bob" "sshd" "sshd-session: bob@notty";
   ("uid", VInt 1700) :: filter (fun kv => ~ kv.1 ∈ ["uid"; "username"]) (raw_row 5 0 "" "bash" "-bash")].

Example enrich_run :
  match enrich_census raw_rows (Redactor []) 1000 (VStr "ok") with
  | Ok rows => map (fun r => map (fun k => dget_or_none k r)
      ["username"; "cmdline"; "category"; "owner_presence"; "is_user_process"; "gpu_mem_mb"; "idle_bucket"]) rows
  | Raise _ => []
  end
  = [[VStr "root"; VStr "sshd: ann [priv]"; VStr "system"; VStr "absent"; VBool false; VFloat fzero; VStr "5m-1h"];
     [VStr "ann"; VStr "sshd: ann@pts/3"; VStr "shell"; VStr "interactive"; VBool true; VFloat fzero; VStr "5m-1h"];
     [VStr "ann"; VStr "python train.py --token ***"; VStr "python"; VStr "interactive"; VBool true; VFloat fzero; VStr "5m-1h"];
     [VStr "bob"; VStr "sshd-session: bob@notty"; VStr "other"; VStr "connected"; VBool true; VFloat fzero; VStr "5m-1h"];
     [VStr "uid:1700"; VStr "-bash"; VStr "shell"; VStr "absent"; VBool true; VFloat fzero; VStr "5m-1h"]].
Proof. vm_compute. reflexivity. Qed.

#[local] Opaque classify redact.

(** ** What a row becomes *)

Lemma dget_map_keys {V} (f : string -> V) l k : dget k (map (fun k => (k, f k)) l) = if decide (k ∈ l) then Some (f k) else None.
Proof.
  induction l as [|x l IH]; cbn; [done|]. rewrite IH. destruct (decide (x = k)) as [->|].
  - rewrite decide_True; [done | by left].
  - destruct (decide (k ∈ l)); [rewrite decide_True | rewrite decide_False]; try done; set_solver.
Qed.

(** What [enrich_row] makes of a row, as read from it: the owner's key, the command line, the
    command name and the uid. *)
Record enriched (presence : list (string * string)) (r : redactor) (min_user_uid : Z) (gpu_measured : bool)
    (row : dict) (user cmdline comm : string) (uid : Z) (out : dict) : Prop := Enriched {
  er_columns : dkeys out = LIVE_PROCESS_COLUMNS;
  er_username : dget_or_none "username" out = VStr user;
  er_cmdline : dget_or_none "cmdline" out = VStr (redact r cmdline);
  er_argv0 : dget_or_none "argv0" out
    = match dget_or_none "argv0" row with
      | VStr s => VStr (match s with "" => "" | _ => redact r s end)
      | v => v
      end;
  er_category : dget_or_none "category" out = VStr (category (classify comm cmdline uid min_user_uid));
  er_activity : dget_or_none "activity" out = val_opt VStr (activity (classify comm cmdline uid min_user_uid));
  er_presence : dget_or_none "owner_presence" out = VStr (default "absent" (dget user presence));
  er_user_process : dget_or_none "is_user_process" out
    = VBool ((min_user_uid <=? uid) && negb (bool_decide (category (classify comm cmdline uid min_user_uid) = "system")));
  er_gpu : dget_or_none "gpu_mem_mb" out
    = match dget_or_none "gpu_mem_mb" row with
      | VNone => if gpu_measured then VFloat fzero else VNone
      | v => v
      end;
  er_bucket : exists b, idle_bucket (dget_or_none "cpu_state" row) (dget_or_none "idle_for_sec" row) = Ok b /\
    dget_or_none "idle_bucket" out = VStr b;
  er_cpu_state : dget_or_none "cpu_state" out
    = if truthy (dget_or_none "cpu_state" row) then dget_or_none "cpu_state" row else VStr "unknown";
  er_copied : forall k, k ∈ _COPIED -> k ∉ ["username"; "argv0"; "gpu_mem_mb"] ->
    dget_or_none k out = dget_or_none k row;
}.

(** Reads a key through the assignments made; a column of the finished row. *)
Ltac settle :=
  rewrite ?dget_dset;
  repeat first [rewrite (decide_True (P := (_ : string) = _)) by reflexivity
               | rewrite (decide_False (P := (_ : string) = _)) by discriminate];
  try reflexivity.
Ltac column :=
  unfold dget_or_none at 1; rewrite dget_map_keys, decide_True by (apply (bool_decide_unpack _); vm_compute; exact I);
  cbn [from_option]; unfold dget_or_none at 1; settle.

Lemma copied_keys : Forall (fun k => k ∈ LIVE_PROCESS_COLUMNS /\
  k ∉ ["category"; "activity"; "cpu_state"; "idle_bucket"; "owner_presence"; "is_user_process"; "cmdline"]) _COPIED.
Proof. apply (bool_decide_unpack _). vm_compute. exact I. Qed.

Lemma enrich_row_spec presence r min gpu row out :
  enrich_row presence r min gpu row = Ok out ->
  exists user cmdline comm uid,
    user_key row = Ok user /\ text_or_empty (dget_or_none "cmdline" row) = Ok cmdline /\
    dget_or_none "comm" row = VStr comm /\ (item "uid" row ≫= as_int) = Ok uid /\
    enriched presence r min gpu row user cmdline comm uid out.
Proof.
  unfold enrich_row. intros E.
  ok_step E as (cmdline & E1 & E). ok_step E as (comm & E2 & E). ok_step E as (uid & E3 & E).
  ok_step E as (user & E4 & E). ok_step E as (argv0 & E5 & E). ok_step E as (bucket & E6 & E).
  apply res_Ok_inj in E. subst out. exists user, cmdline, comm, uid.
  assert (Hcomm : dget_or_none "comm" row = VStr comm).
  { ok_step E2 as (v & Ev & Es). unfold item in Ev. unfold dget_or_none.
    destruct (dget "comm" row) as [w|]; [|discriminate Ev]. injection Ev as ->. cbn. unfold id.
    by destruct v; inversion Es. }
  split_and!; try done.
  set (new0 := dset "cmdline" _ _). set (new1 := match dget "gpu_mem_mb" new0 with Some VNone => _ | _ => new0 end).
  assert (Hnew1 : forall k, dget k new1 =
            if decide (k = "gpu_mem_mb") then Some (match dget_or_none "gpu_mem_mb" row with
                                                    | VNone => if gpu then VFloat fzero else VNone | v => v end)
            else dget k new0).
  { intros k. assert (H0 : dget "gpu_mem_mb" new0 = Some (dget_or_none "gpu_mem_mb" row)) by reflexivity.
    subst new1. rewrite H0. destruct (decide (k = "gpu_mem_mb")) as [->|Hk].
    - destruct (dget_or_none "gpu_mem_mb" row); try exact H0. destruct gpu; [by rewrite dget_dset_eq | exact H0].
    - destruct (dget_or_none "gpu_mem_mb" row); try done. destruct gpu; [|done].
      rewrite dget_dset_ne; [done | congruence]. }
  clearbody new1. unfold new0 in Hnew1. clear new0.
  assert (Hcopied : forall k, k ∈ _COPIED -> k ∉ ["username"; "argv0"; "gpu_mem_mb"] ->
            dget k new1 = Some (dget_or_none k row)).
  { intros k Hk Hn. rewrite !not_elem_of_cons in Hn. destruct Hn as (? & ? & ? & _).
    pose proof copied_keys as Hc. rewrite Forall_forall in Hc. destruct (Hc k Hk) as [_ Hn].
    rewrite !not_elem_of_cons in Hn. destruct_and!.
    rewrite Hnew1, decide_False by done. rewrite !dget_dset_ne by congruence.
    rewrite dget_map_keys. by rewrite decide_True. }
  split.
  - unfold dkeys. rewrite map_map. apply map_id.
  - column. by rewrite Hnew1, decide_False by discriminate.
  - column. by rewrite Hnew1, decide_False by discriminate.
  - column. rewrite Hnew1, decide_False by discriminate. settle. cbn [from_option]. unfold id.
    assert (Hv : argv0 = match dget_or_none "argv0" row with
                         | VStr s => VStr (match s with "" => "" | _ => redact r s end) | v => v end).
    { clear -E5. cbv zeta in E5.
      destruct (dget_or_none "argv0" row) as [|[]|z|f|s| |[]|[]|[]]; cbn [truthy] in E5;
        try (by apply res_Ok_inj in E5); try discriminate E5.
      - by destruct (negb (z =? 0)); [discriminate E5 | apply res_Ok_inj in E5].
      - by destruct f; try discriminate E5; apply res_Ok_inj in E5.
      - destruct s; by apply res_Ok_inj in E5. }
    exact Hv.
  - column.
  - column.
  - column.
  - column.
  - column. rewrite Hnew1, decide_True by done. by destruct (dget_or_none "gpu_mem_mb" row).
  - exists bucket. split; [done | column].
  - column.
  - intros k Hk Hn. unfold dget_or_none at 1. rewrite dget_map_keys.
    pose proof copied_keys as Hc. rewrite Forall_forall in Hc. destruct (Hc k Hk) as [Hin Hn'].
    rewrite !not_elem_of_cons in Hn'. destruct_and!. rewrite decide_True by done.
    cbn [from_option]. unfold dget_or_none at 1. rewrite !dget_dset_ne by congruence.
    by rewrite Hcopied.
Qed.

(** ** Owner presence *)

(** The session a row stands for: its owner and whether it has a terminal. *)
Definition session (row : dict) : option (string * bool) :=
  match text_or_empty (dget_or_none "cmdline" row), user_key row with
  | Ok cmdline, Ok user => tty ← session_tty cmdline; Some (user, negb (bool_decide (tty = "notty")))
  | _, _ => None
  end.

Definition presence_of (rows : list dict) (u : string) : option string :=
  if decide (Some (u, true) ∈ map session rows) then Some "interactive"
  else if decide (Some (u, false) ∈ map session rows) then Some "connected" else None.

Lemma presence_row_session presence row p :
  presence_row presence row = Ok p ->
  match session row with
  | Some (u, true) => p = dset u "interactive" presence
  | Some (u, false) => p = setdefault u "connected" presence
  | None => p = presence
  end.
Proof.
  unfold presence_row, session. intros E. ok_step E as (cmdline & -> & E).
  destruct (session_tty cmdline) as [tty|]; cbn in *.
  - ok_step E as (user & -> & E). apply res_Ok_inj in E. by destruct (bool_decide (tty = "notty")).
  - apply res_Ok_inj in E. by destruct (user_key row).
Qed.

Lemma presence_spec rows p u : owner_presence_by_user rows = Ok p -> dget u p = presence_of rows u.
Proof.
  unfold owner_presence_by_user. revert p u. induction rows as [|row rows IH] using rev_ind; intros p u E.
  - apply res_Ok_inj in E. subst p. unfold presence_of. cbn. by rewrite !decide_False by set_solver.
  - rewrite foldl_app in E. cbn [foldl] in E. ok_step E as (p0 & E0 & E).
    apply presence_row_session in E. pose proof (fun u => IH p0 u E0) as H0. unfold presence_of in *.
    assert (Hm : forall b, (Some (u, b) ∈ map session (rows ++ [row])) <->
                           (Some (u, b) ∈ map session rows \/ session row = Some (u, b))).
    { intros b. rewrite map_app, elem_of_app. cbn. rewrite list_elem_of_singleton. naive_solver. }
    pose proof (Hm true) as Ht. pose proof (Hm false) as Hf. clear Hm.
    destruct (decide (Some (u, true) ∈ map session (rows ++ [row]))) as [Hi|Hi];
      [|destruct (decide (Some (u, false) ∈ map session (rows ++ [row]))) as [Hc|Hc]];
      specialize (H0 u); destruct (session row) as [[u' []]|]; subst p; unfold setdefault;
      try (destruct (dget u' p0) eqn:Eu'); rewrite ?dget_dset;
      repeat case_decide; simplify_eq; try tauto; naive_solver.
Qed.

Lemma mapM_res_Forall2 {A B} (f : A -> res B) l ys :
  mapM_res f l = Ok ys -> Forall2 (fun x y => f x = Ok y) l ys.
Proof.
  revert ys. induction l as [|x l IH]; intros ys E; cbn in E.
  - apply res_Ok_inj in E. subst. constructor.
  - ok_step E as (y & Ey & E). ok_step E as (ys' & Eys & E). apply res_Ok_inj in E. subst. constructor; auto.
Qed.

(** ** Properties *)

(** The row [out] made of the raw row [row]. *)
Definition made_from (presence : list (string * string)) (r : redactor) (min_user_uid : Z) (gpu_measured : bool)
    (row out : dict) : Prop :=
  exists user cmdline comm uid,
    user_key row = Ok user /\ text_or_empty (dget_or_none "cmdline" row) = Ok cmdline /\
    dget_or_none "comm" row = VStr comm /\ (item "uid" row ≫= as_int) = Ok uid /\
    enriched presence r min_user_uid gpu_measured row user cmdline comm uid out.

(** Every raw row becomes exactly one live row, in order: it has the live columns and no
    other; the command line (and a title in argv0) is stored redacted while the rules
    classified the real one; a process counts as a user's exactly when its uid is not a
    system one and its category is not "system"; unmeasured GPU memory becomes zero only when
    the query succeeded; the rest is copied. *)
Theorem enrich_rows rows r min_user_uid gpu_status out :
  enrich_census rows r min_user_uid gpu_status = Ok out ->
  exists presence, owner_presence_by_user rows = Ok presence /\
    Forall2 (made_from presence r min_user_uid (is_ok gpu_status)) rows out.
Proof.
  intros E. unfold enrich_census in E. ok_step E as (presence & Ep & E). exists presence. split; [done|].
  apply mapM_res_Forall2 in E. eapply Forall2_impl; [exact E|]. intros row y Hy. cbv beta in Hy.
  by apply enrich_row_spec.
Qed.

Definition raw_presence : list (string * string) := [("ann", "interactive"); ("bob", "connected")].
Definition raw_out : list dict :=
  match enrich_census raw_rows (Redactor []) 1000 (VStr "ok") with Ok rows => rows | Raise _ => [] end.

Lemma enrich_rows_witness :
  exists presence, owner_presence_by_user raw_rows = Ok presence /\
    Forall2 (made_from presence (Redactor []) 1000 (is_ok (VStr "ok"))) raw_rows raw_out.
Proof. apply (enrich_rows raw_rows (Redactor []) 1000 (VStr "ok")). vm_compute. reflexivity. Defined.

(** A user's presence is decided by the titles of their own sshd processes: interactive
    when one of them has a terminal, otherwise connected when one has none, otherwise not
    recorded (and the rows say absent). *)
Theorem presence_by_sessions rows presence u :
  owner_presence_by_user rows = Ok presence -> dget u presence = presence_of rows u.
Proof. apply presence_spec. Qed.

Lemma presence_by_sessions_witness : dget "bob" raw_presence = presence_of raw_rows "bob".
Proof. apply (presence_by_sessions raw_rows raw_presence). vm_compute. reflexivity. Defined.
