(* ===== verification/NodePipeline.v ===== *)
(** * The per-node pipeline

    [node_monitor/pipeline/node_pipeline.py]: probe messages and session events in, storage
    records out.  The aggregators and the enrichment are the components of the other files;
    the pipeline decides which samples come too late for what it has already emitted. *)

From S2P Require Import Prelude PyTime PyFloat PyVal Classify Redact Enrich.
From S2P Require Usage NodeMetrics.

Open Scope Z_scope.
Open Scope py_scope.

(** ** Configuration and state *)

(** What [__init__] is given: the system, the node's host and label, the classification's
    limit, the redactor and the intervals. *)
Record config := Config {
  cf_system : string;
  cf_host : string;
  cf_label : string;
  cf_min_user_uid : Z;
  cf_redactor : redactor;
  cf_counter_interval : num;
  cf_census_interval : num;
  cf_summary_interval : num;
}.

Record pipeline := Pipeline {
  np_minutes : NodeMetrics.minutes;
  np_usage : Usage.usage;
  np_session_id : Z;
  np_boot_id : value;
  np_probe_version : value;
  np_last_census_at : option datetime;
  np_last_minute : option datetime;
  np_last_interval : option datetime;
}.

Definition set_minutes m p := Pipeline m (np_usage p) (np_session_id p) (np_boot_id p) (np_probe_version p)
  (np_last_census_at p) (np_last_minute p) (np_last_interval p).
Definition set_usage u p := Pipeline (np_minutes p) u (np_session_id p) (np_boot_id p) (np_probe_version p)
  (np_last_census_at p) (np_last_minute p) (np_last_interval p).
Definition set_session_id i p := Pipeline (np_minutes p) (np_usage p) i (np_boot_id p) (np_probe_version p)
  (np_last_census_at p) (np_last_minute p) (np_last_interval p).
Definition set_probe b v p := Pipeline (np_minutes p) (np_usage p) (np_session_id p) b v
  (np_last_census_at p) (np_last_minute p) (np_last_interval p).
Definition set_last_census t p := Pipeline (np_minutes p) (np_usage p) (np_session_id p) (np_boot_id p)
  (np_probe_version p) (Some t) (np_last_minute p) (np_last_interval p).
Definition set_last_minute t p := Pipeline (np_minutes p) (np_usage p) (np_session_id p) (np_boot_id p)
  (np_probe_version p) (np_last_census_at p) (Some t) (np_last_interval p).
Definition set_last_interval t p := Pipeline (np_minutes p) (np_usage p) (np_session_id p) (np_boot_id p)
  (np_probe_version p) (np_last_census_at p) (np_last_minute p) (Some t).

(** [NodePipeline.__init__] *)
Definition new_pipeline (cf : config) : pipeline :=
  Pipeline (NodeMetrics.new_minutes (cf_counter_interval cf))
    (Usage.new_usage (cf_summary_interval cf) (cf_census_interval cf)) 0 VNone VNone None None None.

Section Pipeline.
Context (cf : config).

(** ** Records *)

(** [_row] *)
Definition _row (fields : dict) : dict :=
  dmerge [("system", VStr (cf_system cf)); ("node", VStr (cf_host cf))] fields.

(** [_event] *)
Definition _event (event_type : string) (detail : dict) (recv : datetime) : record :=
  Record_ COLLECTION_EVENT (_row [("ts", VTime recv); ("event_type", VStr event_type); ("detail", VDict detail)]).

(** [_late] *)
Definition _late (msg : dict) (recv : datetime) : list record :=
  [_event "late_sample" [("type", dget_or_none "type" msg); ("recv", VStr (isoformat recv))] recv].

(** [_live_node] *)
Definition _live_node (recv : datetime) (state : string) (extra : dict) : record :=
  Record_ LIVE_NODE
    (_row ([("label", VStr (cf_label cf)); ("updated_at", VTime recv); ("session_state", VStr state)] ++ extra)).

(** [_minute_records] and [_usage_records]: a record a row, remembering how far they got. *)
Definition row_time (k : string) (row : dict) : res datetime :=
  v ← item k row; match v with VTime t => Ok t | _ => Raise TypeError end.
Definition _minute_records (rows : list dict) : M pipeline (list record) :=
  foldM (fun out row =>
           let* t := lift (row_time "minute" row) in
           modify (set_last_minute t) ;;;
           ret (out ++ [Record_ NODE_METRICS_1M (_row row)])) [] rows.
Definition _usage_records (items : list (string * dict)) : M pipeline (list record) :=
  foldM (fun out kr =>
           let* t := lift (row_time "interval_start" kr.2) in
           modify (set_last_interval t) ;;;
           ret (out ++ [Record_ kr.1 (_row kr.2)])) [] items.

Definition on_minutes {A} (c : M NodeMetrics.minutes A) : M pipeline A := zoom np_minutes set_minutes c.
Definition on_usage {A} (c : M Usage.usage A) : M pipeline A := zoom np_usage set_usage c.

(** ** Messages *)

(** The hardware of a hello, a mapping if there is any; [_row] has a parameter [self]. *)
Definition hardware (msg : dict) : res dict :=
  let v := dget_or_none "hardware" msg in
  if truthy v then
    match v with
    | VDict d => if bool_decide (is_Some (dget "self" d)) then Raise TypeError else Ok d
    | _ => Raise TypeError
    end
  else Ok [].

(** [_hello] *)
Definition _hello (msg : dict) (recv : datetime) : M pipeline (list record) :=
  let get k := dget_or_none k msg in
  modify (set_probe (get "boot_id") (get "probe_version")) ;;;
  let* hw := lift (hardware msg) in
  let fields := dmerge [("boot_id", get "boot_id"); ("btime", get "btime"); ("collected_at", VTime recv);
                        ("probe_version", get "probe_version"); ("python_version", get "python_version");
                        ("hostname_fqdn", get "hostname_fqdn")] hw in
  let out := [Record_ NODE_HARDWARE (_row fields)] in
  let same := match get "hostname_fqdn" with VStr h => bool_decide (h = cf_host cf) | _ => false end in
  ret (if same then out
       else out ++ [_event "hostname_mismatch" [("expected", VStr (cf_host cf)); ("reported", get "hostname_fqdn")] recv]).

(** A sample at [t] is late once the period it belongs to has been emitted. *)
Definition is_late (t : datetime) (last : option datetime) : bool :=
  match last with Some l => instant t <=? instant l | None => false end.

(** [_counters] *)
Definition _counters (msg : dict) (recv : datetime) : M pipeline (list record) :=
  let minute := floor_minute recv in
  let* p := gets id in
  if is_late minute (np_last_minute p) then ret (_late msg recv)
  else
    let* rows := on_minutes (NodeMetrics.add_counters msg recv (np_session_id p)) in
    let* out := _minute_records rows in
    let* mem := lift (NodeMetrics.or_empty (dget_or_none "mem" msg)) in
    let total := dget_or_none "total_kb" mem in
    let* used := lift (NodeMetrics.diff total (dget_or_none "available_kb" mem)) in
    let* p := gets id in
    ret (out ++ [_live_node recv "up"
           [("boot_id", np_boot_id p); ("probe_version", np_probe_version p); ("load1", dget_or_none "load1" msg);
            ("mem_used_kb", used); ("mem_total_kb", total); ("procs_total", dget_or_none "procs_total" msg);
            ("last_census_at", val_opt VTime (np_last_census_at p))]]).

(** The process rows of a census: a list of objects. *)
Fixpoint objects (l : list value) : res (list dict) :=
  match l with
  | [] => Ok []
  | VDict d :: l => ds ← objects l; Ok (d :: ds)
  | _ => Raise AttributeError
  end.
Definition process_rows (v : value) : res (list dict) :=
  match v with VList l => objects l | _ => Raise TypeError end.

Definition status_text (v : value) : option string := match v with VStr s => Some s | _ => None end.

(** [_census]; without process rows it is the summary of a recorded capture. *)
Definition _census (msg : dict) (recv : datetime) : M pipeline (list record) :=
  let* p := gets id in
  match dget_or_none "processes" msg with
  | VNone =>
      if is_late (floor_minute recv) (np_last_minute p) then ret (_late msg recv)
      else
        modify (set_last_census recv) ;;;
        on_minutes (NodeMetrics.add_census msg recv) ;;;
        ret []
  | rows =>
      if is_late (Usage.interval_floor (cf_summary_interval cf) recv) (np_last_interval p) then ret (_late msg recv)
      else
        modify (set_last_census recv) ;;;
        let gpu_status := dget_or_none "gpu_status" msg in
        let* enriched := lift (rs ← process_rows rows;
                               enrich_census rs (cf_redactor cf) (cf_min_user_uid cf) gpu_status) in
        let out := [Record_ LIVE_PROCESSES (_row [("ts", VTime recv); ("processes", VList (map VDict enriched))])] in
        let* items := on_usage (Usage.add_census enriched recv (status_text gpu_status)) in
        let* more := _usage_records items in
        on_minutes (NodeMetrics.add_census msg recv) ;;;
        ret (out ++ more)
  end.

(** [on_message] *)
Definition on_message (msg : dict) (recv : datetime) : M pipeline (list record) :=
  let* _ := lift (require_aware recv) in
  match dget_or_none "type" msg with
  | VStr "hello" => _hello msg recv
  | VStr "counters" => _counters msg recv
  | VStr "census" => _census msg recv
  | VStr "error" =>
      ret [_event "probe_error" [("where", dget_or_none "where" msg); ("message", dget_or_none "message" msg)] recv]
  | _ => ret []
  end.

(** [on_event] *)
Definition on_event (kind : string) (detail : dict) (recv : datetime) : M pipeline (list record) :=
  let* _ := lift (require_aware recv) in
  when (bool_decide (kind = "session_started")) (modify (fun p => set_session_id (np_session_id p + 1) p)) ;;;
  let out := [_event kind detail recv] in
  ret (if bool_decide (kind = "session_lost") then out ++ [_live_node recv "down" []] else out).

(** [flush] *)
Definition flush : M pipeline (list record) :=
  let* rows := on_minutes NodeMetrics.flush in
  let* out := _minute_records rows in
  let* items := on_usage Usage.flush in
  let* more := _usage_records items in
  ret (out ++ more).

End Pipeline.

(** ** Reading records back *)

Lemma dget_row cf k fields :
  NoDup (dkeys fields) -> is_Some (dget k fields) -> dget k (_row cf fields) = dget k fields.
Proof. intros Hn [v Hv]. unfold _row. rewrite dget_dmerge, dget_rev by done. by rewrite Hv. Qed.

(** The minute of a node-metrics record, and the key of a usage record: the start of its
    interval with its user, if it is a user's. *)
Definition minute_of (r : record) : option Z :=
  if decide (kind r = NODE_METRICS_1M) then
    match dget "minute" (row r) with Some (VTime t) => Some (instant t) | _ => None end
  else None.
Definition start_of (r : record) : option Z :=
  match dget "interval_start" (row r) with Some (VTime t) => Some (instant t) | _ => None end.
Definition usage_key (r : record) : option (Z * option string) :=
  if decide (kind r = NODE_USAGE_5M) then s ← start_of r; Some (s, None)
  else if decide (kind r = USER_USAGE_5M) then
    s ← start_of r; match dget "username" (row r) with Some (VStr u) => Some (s, Some u) | _ => None end
  else None.

Definition neither (r : record) : Prop := minute_of r = None /\ usage_key r = None.

Lemma neither_kind k fields :
  k ∉ [NODE_METRICS_1M; NODE_USAGE_5M; USER_USAGE_5M] -> neither (Record_ k fields).
Proof.
  rewrite !not_elem_of_cons. intros (H1 & H2 & H3 & _). unfold neither, minute_of, usage_key. cbn [kind].
  by rewrite !decide_False.
Qed.

Lemma neither_event cf t d recv : neither (_event cf t d recv).
Proof. apply neither_kind. apply (bool_decide_unpack _). vm_compute. exact I. Qed.
Lemma neither_live cf recv s e : neither (_live_node cf recv s e).
Proof. apply neither_kind. apply (bool_decide_unpack _). vm_compute. exact I. Qed.

(** ** What the aggregators still hold is later than what was emitted *)

Definition later_than (last : option datetime) (t : datetime) : Prop :=
  match last with Some l => instant l < instant t | None => True end.

Definition minutes_after (last : option datetime) (a : NodeMetrics.minutes) : Prop :=
  match NodeMetrics.ma_open a with Some m => later_than last (NodeMetrics.mn_minute m) | None => True end.

(** The rows a step emitted: none, or one of a later minute with what remains open later still. *)
Definition minutes_step (last : option datetime) (rows : list dict) (a : NodeMetrics.minutes) : Prop :=
  match rows with
  | [] => minutes_after last a
  | [r] => exists t, dkeys r = NodeMetrics.NODE_METRICS_COLUMNS /\ dget "minute" r = Some (VTime t) /\
             later_than last t /\ minutes_after (Some t) a
  | _ => False
  end.

Lemma minute_row_minute e m s r :
  NodeMetrics.minute_row e m s = Ok r ->
  dkeys r = NodeMetrics.NODE_METRICS_COLUMNS /\ dget "minute" r = Some (VTime (NodeMetrics.mn_minute m)).
Proof.
  intros E. unfold NodeMetrics.minute_row in E. cbv zeta in E.
  ok_step E as (mem & _ & E). ok_step E as (probe & _ & E). ok_step E as (used & _ & E).
  ok_step E as (swap & _ & E). apply res_Ok_inj in E. by subst r.
Qed.

Lemma fold_message_after last msg recv sid a :
  minutes_after last a -> (NodeMetrics.ma_open a = None -> later_than last (floor_minute recv)) ->
  minutes_after last (NodeMetrics.fold_message msg recv sid a).2.
Proof.
  intros Ha Hr. unfold minutes_after in *.
  destruct (NodeMetrics.fold_message_opens msg recv sid a) as (_ & _ & _ & m' & -> & -> & _).
  destruct (NodeMetrics.ma_open a) as [m|]; cbn; [done | by apply Hr].
Qed.

Lemma add_counters_step last msg recv sid a :
  minutes_after last a -> later_than last (floor_minute recv) ->
  let '(r, a') := NodeMetrics.add_counters msg recv sid a in
  match r with Ok rows => minutes_step last rows a' | Raise _ => minutes_after last a' end.
Proof.
  intros Ha Hr. unfold NodeMetrics.add_counters.
  destruct (require_aware recv) as [t|] eqn:Et; [|done]. unfold require_aware in Et.
  destruct (is_aware recv); [|discriminate]. injection Et as <-.
  unfold bind at 1, lift at 1. unfold bind at 1, gets at 1.
  set (fm := fun rows => bind (NodeMetrics.fold_message msg recv sid) _).
  assert (Hfm : forall rows a0 last', minutes_after last' a0 ->
            (NodeMetrics.ma_open a0 = None -> later_than last' (floor_minute recv)) ->
            let '(r, a') := fm rows a0 in
            (r = Ok rows \/ exists e, r = Raise e) /\ minutes_after last' a').
  { intros rows a0 last' H1 H2. subst fm. cbv beta. unfold bind at 1, ret.
    pose proof (fold_message_after last' msg recv sid a0 H1 H2) as H.
    destruct (NodeMetrics.fold_message msg recv sid a0) as [[[]|e] a1]; eauto. }
  assert (Hnone : let '(r, a') := fm [] a in match r with Ok rows => minutes_step last rows a' | Raise _ => minutes_after last a' end).
  { specialize (Hfm [] a last Ha (fun _ => Hr)). destruct (fm [] a) as [r a']. destruct Hfm as [[->|[e ->]] H]; done. }
  destruct (NodeMetrics.ma_open a) as [m|] eqn:Eo; [|exact Hnone].
  destruct (NodeMetrics.before_time _ _) eqn:Eb; [|exact Hnone].
  unfold NodeMetrics.before_time in Eb. apply Z.ltb_lt in Eb.
  unfold bind at 1 2, ret at 1.
  destruct (NodeMetrics.close_run m a) as (C1 & C2 & C3).
  destruct (NodeMetrics._close m a) as [[row|e] a1]; cbn [fst snd] in C1, C2, C3; [|by unfold minutes_after; rewrite C3].
  symmetry in C1. apply minute_row_minute in C1 as [Hk Hm].
  assert (Hl : later_than last (NodeMetrics.mn_minute m)) by (unfold minutes_after in Ha; by rewrite Eo in Ha).
  assert (H1 : minutes_after (Some (NodeMetrics.mn_minute m)) a1) by (unfold minutes_after; by rewrite C3).
  specialize (Hfm [row] a1 (Some (NodeMetrics.mn_minute m)) H1 (fun _ => Eb)).
  destruct (fm [row] a1) as [r a']. destruct Hfm as [[->|[e ->]] H].
  - cbn. exists (NodeMetrics.mn_minute m). auto.
  - unfold minutes_after in *. destruct (NodeMetrics.ma_open a') as [m'|]; [|done].
    destruct last as [l|]; cbn in *; [lia | done].
Qed.

Lemma minutes_flush_step last a :
  minutes_after last a ->
  let '(r, a') := NodeMetrics.flush a in
  match r with Ok rows => minutes_step last rows a' | Raise _ => minutes_after last a' end.
Proof.
  intros Ha. unfold NodeMetrics.flush, bind, gets, ret.
  destruct (NodeMetrics.ma_open a) as [m|] eqn:Eo; [|exact Ha].
  destruct (NodeMetrics.close_run m a) as (C1 & C2 & C3).
  destruct (NodeMetrics._close m a) as [[row|e] a1]; cbn [fst snd] in C1, C2, C3; [|by unfold minutes_after; rewrite C3].
  symmetry in C1. apply minute_row_minute in C1 as [Hk Hm]. exists (NodeMetrics.mn_minute m).
  unfold minutes_after in *. rewrite Eo in Ha. by rewrite C3.
Qed.

Lemma add_census_after last msg recv a :
  minutes_after last a -> minutes_after last (NodeMetrics.add_census msg recv a).2.
Proof.
  intros Ha. unfold minutes_after in *.
  destruct (NodeMetrics.add_census_frame msg recv a) as (_ & -> & _). exact Ha.
Qed.

Definition usage_after (last : option datetime) (u : Usage.usage) : Prop :=
  match Usage.u_open u with
  | Some iv => later_than last (Usage.iv_start iv) /\ NoDup (dkeys (Usage.iv_users iv))
  | None => True
  end.

Definition usage_step (last : option datetime) (items : list (string * dict)) (u : Usage.usage) : Prop :=
  (items = [] /\ usage_after last u) \/
  exists iv e, items = Usage.flush_interval e iv /\ later_than last (Usage.iv_start iv) /\
    NoDup (dkeys (Usage.iv_users iv)) /\ usage_after (Some (Usage.iv_start iv)) u.

Lemma NoDup_add_procs ps gpu iv :
  NoDup (dkeys (Usage.iv_users iv)) -> NoDup (dkeys (Usage.iv_users (Usage.add_procs ps gpu iv))).
Proof.
  unfold Usage.add_procs. cbn [Usage.iv_users]. generalize (Usage.census_users gpu ps) as l.
  intros l. generalize (Usage.iv_users iv) as m. induction l as [|ut l IH]; intros m H; cbn [foldl]; [done|].
  apply IH. by apply NoDup_dkeys_dset.
Qed.

Lemma add_to_open_after last rows start gpu u :
  usage_after last u -> (Usage.u_open u = None -> later_than last start) ->
  let '(r, u') := Usage.add_to_open rows start gpu u in
  usage_after last u' /\ Usage.u_interval u' = Usage.u_interval u.
Proof.
  intros Hu Hs. unfold Usage.add_to_open.
  set (iv := default (Usage.new_interval start) (Usage.u_open u)).
  assert (H : later_than last (Usage.iv_start iv) /\ NoDup (dkeys (Usage.iv_users iv))).
  { subst iv. unfold usage_after in Hu. destruct (Usage.u_open u); cbn; [exact Hu | split; [auto | constructor]]. }
  unfold Usage.add_rows. destruct (Usage.user_procs rows) as [ps|e]; cbn; [|done].
  unfold usage_after. cbn. split; [|done]. destruct H. split; [done | by apply NoDup_add_procs].
Qed.

Lemma usage_add_step last rows recv gpu u :
  usage_after last u -> later_than last (Usage.interval_floor (Usage.u_interval u) recv) ->
  let '(r, u') := Usage.add_census rows recv gpu u in
  Usage.u_interval u' = Usage.u_interval u /\
  match r with Ok items => usage_step last items u' | Raise _ => usage_after last u' end.
Proof.
  intros Hu Hr. unfold Usage.add_census. destruct (require_aware recv) as [t|]; [|done].
  set (start := Usage.interval_floor (Usage.u_interval u) recv) in *.
  set (gm := bool_decide _).
  set (rest := fun out : list (string * dict) => bind (Usage.add_to_open rows start gm) (fun _ => ret out)).
  assert (Hrest : forall out u0 last0, usage_after last0 u0 -> (Usage.u_open u0 = None -> later_than last0 start) ->
            let '(r, u') := rest out u0 in
            Usage.u_interval u' = Usage.u_interval u0 /\ usage_after last0 u' /\ (r = Ok out \/ exists e, r = Raise e)).
  { intros out u0 last0 H1 H2. unfold rest, bind, ret.
    pose proof (add_to_open_after last0 rows start gm u0 H1 H2) as H.
    destruct (Usage.add_to_open rows start gm u0) as [[[]|e] u1]; destruct H as [H3 H4]; eauto. }
  assert (Hnone : let '(r, u') := rest [] u in Usage.u_interval u' = Usage.u_interval u /\
            match r with Ok items => usage_step last items u' | Raise _ => usage_after last u' end).
  { specialize (Hrest [] u last Hu (fun _ => Hr)). destruct (rest [] u) as [r u'].
    destruct Hrest as (H1 & H2 & [->|[e ->]]); split; try done. by left. }
  destruct (Usage.u_open u) as [iv|] eqn:Eo; [|exact Hnone].
  destruct (instant (Usage.iv_start iv) <? instant start) eqn:Eb; [|exact Hnone].
  apply Z.ltb_lt in Eb. unfold bind at 1, Usage.flush. rewrite Eo.
  assert (Hiv : later_than last (Usage.iv_start iv) /\ NoDup (dkeys (Usage.iv_users iv)))
    by (unfold usage_after in Hu; by rewrite Eo in Hu).
  destruct (Usage.iv_samples iv =? 0); [done|].
  set (u1 := Usage.UsageAgg _ _ None).
  specialize (Hrest (Usage.flush_interval (Usage.u_expected u) iv) u1 (Some (Usage.iv_start iv)) I (fun _ => Eb)).
  change ((rest (Usage.flush_interval (Usage.u_expected u) iv)) u1) with (rest (Usage.flush_interval (Usage.u_expected u) iv) u1).
  destruct (rest _ u1) as [r u']. destruct Hrest as (H1 & H2 & [->|[e ->]]); split; try done.
  - right. exists iv, (Usage.u_expected u). naive_solver.
  - unfold usage_after in *. destruct (Usage.u_open u') as [iv'|]; [|done]. destruct H2 as [H2 H3]. split; [|done].
    destruct Hiv as [Hl _]. destruct last as [l|]; cbn in *; [lia | done].
Qed.

Lemma usage_flush_step last u :
  usage_after last u ->
  let '(r, u') := Usage.flush u in
  Usage.u_interval u' = Usage.u_interval u /\
  match r with Ok items => usage_step last items u' | Raise _ => usage_after last u' end.
Proof.
  intros Hu. unfold Usage.flush. destruct (Usage.u_open u) as [iv|] eqn:Eo; [|split; [done | by left]].
  destruct (Usage.iv_samples iv =? 0); split; try done.
  unfold usage_after in Hu. rewrite Eo in Hu. right. exists iv, (Usage.u_expected u). naive_solver.
Qed.

(** ** What has been emitted *)

Definition upto (last : option datetime) (x : Z) : Prop :=
  match last with Some l => x <= instant l | None => False end.

(** The minutes emitted are strictly increasing and none is after [np_last_minute]; the usage
    keys are distinct and none starts after [np_last_interval]. *)
Record minutes_emitted (out : list record) (p : pipeline) : Prop := MinutesEmitted {
  em_sorted : StronglySorted Z.lt (omap minute_of out);
  em_minutes : Forall (upto (np_last_minute p)) (omap minute_of out);
}.
Record usage_emitted (out : list record) (p : pipeline) : Prop := UsageEmitted {
  em_keys : NoDup (omap usage_key out);
  em_starts : Forall (fun k => upto (np_last_interval p) k.1) (omap usage_key out);
}.
Record emitted (cf : config) (out : list record) (p : pipeline) : Prop := Emitted {
  em_min : minutes_emitted out p;
  em_open : minutes_after (np_last_minute p) (np_minutes p);
  em_use : usage_emitted out p;
  em_usage : usage_after (np_last_interval p) (np_usage p);
  em_width : Usage.u_interval (np_usage p) = cf_summary_interval cf;
}.

(** The part of the state the invariant reads. *)
Definition core (p : pipeline) := (np_minutes p, np_usage p, np_last_minute p, np_last_interval p).

Lemma emitted_core cf out p p' : core p' = core p -> emitted cf out p -> emitted cf out p'.
Proof.
  unfold core. intros [= E1 E2 E3 E4] [[] ? [] ? ?].
  split; [split | | split | |]; rewrite ?E1, ?E2, ?E3, ?E4; done.
Qed.

Lemma omap_none {A B} (f : A -> option B) l : Forall (fun x => f x = None) l -> omap f l = [].
Proof. induction 1 as [|x l H _ IH]; cbn; [done|]. by rewrite H. Qed.

Lemma emitted_neither cf out p recs : Forall neither recs -> emitted cf out p -> emitted cf (out ++ recs) p.
Proof.
  intros Hn [[H1 H2] H3 [H4 H5] H6 H7].
  assert (E1 : omap minute_of recs = []) by (apply omap_none; eapply Forall_impl; [exact Hn | intros r []; done]).
  assert (E2 : omap usage_key recs = []) by (apply omap_none; eapply Forall_impl; [exact Hn | intros r []; done]).
  split; [split | | split | |]; rewrite ?omap_app, ?E1, ?E2, ?app_nil_r; done.
Qed.

Lemma upto_later last t x : upto last x -> later_than last t -> x < instant t.
Proof. destruct last; cbn; [lia | done]. Qed.

Lemma minute_record_key cf r t :
  dkeys r = NodeMetrics.NODE_METRICS_COLUMNS -> dget "minute" r = Some (VTime t) ->
  minute_of (Record_ NODE_METRICS_1M (_row cf r)) = Some (instant t) /\
  usage_key (Record_ NODE_METRICS_1M (_row cf r)) = None.
Proof.
  intros Hk Ht. unfold minute_of, usage_key. cbn [kind row]. rewrite decide_True by done.
  rewrite !decide_False by discriminate. split; [|done].
  rewrite dget_row; [by rewrite Ht | | by rewrite Ht].
  rewrite Hk. apply (bool_decide_unpack _). vm_compute. exact I.
Qed.

Lemma emit_minutes cf out p rows :
  minutes_emitted out p -> usage_emitted out p -> minutes_step (np_last_minute p) rows (np_minutes p) ->
  exists recs p', _minute_records cf rows p = (Ok recs, p') /\
    minutes_emitted (out ++ recs) p' /\ usage_emitted (out ++ recs) p' /\
    minutes_after (np_last_minute p') (np_minutes p') /\
    np_usage p' = np_usage p /\ np_last_interval p' = np_last_interval p.
Proof.
  intros [H1 H2] [H3 H4] Hs. destruct rows as [|r [|? ?]]; cbn [minutes_step] in Hs; [| |done].
  - exists [], p. rewrite app_nil_r. cbn. done.
  - destruct Hs as (t & Hk & Ht & Hl & Ha).
    exists [Record_ NODE_METRICS_1M (_row cf r)], (set_last_minute t p).
    destruct (minute_record_key cf r t Hk Ht) as [K1 K2].
    split. { unfold _minute_records. cbn. unfold bind, lift, row_time, item. rewrite Ht. cbn. done. }
    split; [|split; [|done]].
    + split; rewrite omap_app; cbn [omap list_omap]; rewrite K1; cbn.
      * apply StronglySorted_app_2; [|done | by repeat constructor].
        intros x y Hx Hy. apply list_elem_of_singleton in Hy as ->. rewrite Forall_forall in H2.
        eapply upto_later; eauto.
      * apply Forall_app. split; [|apply Forall_singleton; cbn; lia].
        eapply Forall_impl; [exact H2|]. intros x Hx. cbn. pose proof (upto_later _ _ _ Hx Hl). lia.
    + split; rewrite omap_app; cbn [omap list_omap]; rewrite K2; cbn; by rewrite app_nil_r.
Qed.

(** The keys of the rows of an interval. *)
Lemma tally_row_keys t start samples expected gpu derived :
  dget "interval_start" (Usage.tally_row t start samples expected gpu derived) = Some (VTime start) /\
  NoDup ("username" :: "user_count_avg" :: "user_count_max" :: "active_user_count_avg"
         :: dkeys (Usage.tally_row t start samples expected gpu derived)).
Proof. destruct derived; (split; [done|]); apply (bool_decide_unpack _); vm_compute; exact I. Qed.

Definition batch_keys (iv : Usage.interval) : list (Z * option string) :=
  map (fun ut => (instant (Usage.iv_start iv), Some ut.1)) (sorted_items (Usage.iv_users iv))
  ++ [(instant (Usage.iv_start iv), None)].

Lemma flush_interval_keys cf e iv :
  Forall (fun kr : string * dict => dget "interval_start" kr.2 = Some (VTime (Usage.iv_start iv))) (Usage.flush_interval e iv) /\
  omap usage_key (map (fun kr => Record_ kr.1 (_row cf kr.2)) (Usage.flush_interval e iv)) = batch_keys iv /\
  omap minute_of (map (fun kr => Record_ kr.1 (_row cf kr.2)) (Usage.flush_interval e iv)) = [].
Proof.
  unfold Usage.flush_interval, batch_keys. rewrite !map_app, !omap_app. split_and!.
  - apply Forall_app. split; [|apply Forall_singleton; cbn [fst snd]; by rewrite dget_app, (proj1 (tally_row_keys _ _ _ _ _ _))].
    apply Forall_fmap, Forall_true. intros ut. cbn [compose fst snd dget].
    rewrite decide_False by discriminate. apply tally_row_keys.
  - f_equal. induction (sorted_items (Usage.iv_users iv)) as [|[u t] l IH]; [done|]. cbn [map omap list_omap fst snd].
      match goal with |- context [usage_key (Record_ ?k (_row cf ?r))] =>
        assert (K : usage_key (Record_ k (_row cf r)) = Some (instant (Usage.iv_start iv), Some u)) end.
      { destruct (tally_row_keys t (Usage.iv_start iv) (Usage.iv_samples iv) e (Usage.iv_gpu_samples iv) false) as [H1 H2].
        unfold usage_key, start_of. cbn [kind row]. rewrite decide_False by discriminate. rewrite decide_True by done.
        assert (Hn : NoDup (dkeys (("username", VStr u) :: Usage.tally_row t (Usage.iv_start iv) (Usage.iv_samples iv) e (Usage.iv_gpu_samples iv) false))).
        { cbn [dkeys map fst]. apply NoDup_cons in H2 as [H2 H3]. apply NoDup_cons. split; [set_solver|].
          do 3 (apply NoDup_cons in H3 as [_ H3]). done. }
        rewrite !dget_row; try exact Hn; cbn [dget]; rewrite ?(decide_True (P := "username" = "username")) by done;
          rewrite ?(decide_False (P := "username" = "interval_start")) by discriminate; rewrite ?H1; eauto. }
      rewrite K. f_equal. exact IH.
  - rewrite <- omap_app, <- map_app. apply omap_none, Forall_fmap.
    apply Forall_app. split; [|by apply Forall_singleton].
    apply Forall_fmap, Forall_true. done.
Qed.

Lemma usage_records_run cf t items p acc :
  Forall (fun kr : string * dict => dget "interval_start" kr.2 = Some (VTime t)) items ->
  foldM (fun out kr =>
           let* t := lift (row_time "interval_start" kr.2) in
           modify (set_last_interval t) ;;;
           ret (out ++ [Record_ kr.1 (_row cf kr.2)])) acc items p
  = (Ok (acc ++ map (fun kr => Record_ kr.1 (_row cf kr.2)) items),
     match items with [] => p | _ => set_last_interval t p end).
Proof.
  intros H. revert acc p. induction H as [|kr items Hk H IH]; intros acc p; cbn [foldM map]; [by rewrite app_nil_r|].
  unfold bind at 1 2, lift, row_time, item. rewrite Hk. cbn [mbind res_bind]. unfold bind at 1, modify, ret at 1.
  rewrite IH, <- app_assoc. by destruct items.
Qed.

Lemma batch_keys_fresh out iv last :
  NoDup (dkeys (Usage.iv_users iv)) -> later_than last (Usage.iv_start iv) ->
  NoDup out -> Forall (fun k : Z * option string => upto last k.1) out ->
  NoDup (out ++ batch_keys iv) /\
  Forall (fun k => upto (Some (Usage.iv_start iv)) k.1) (out ++ batch_keys iv).
Proof.
  intros Hn Hl Ho Hu.
  assert (Hs : Forall (fun k : Z * option string => k.1 = instant (Usage.iv_start iv)) (batch_keys iv)).
  { unfold batch_keys. apply Forall_app. split; [|by apply Forall_singleton].
    apply Forall_forall. intros k Hk. by apply list_elem_of_fmap in Hk as (ut & -> & _). }
  split.
  - apply NoDup_app. split_and!; [done | |].
    + intros k Hk Hk'. rewrite Forall_forall in Hu, Hs. specialize (Hs k Hk'). specialize (Hu k Hk).
      pose proof (upto_later _ _ _ Hu Hl). lia.
    + unfold batch_keys. apply NoDup_app. split_and!.
      * apply (NoDup_fmap_1 snd). rewrite <- list_fmap_compose.
        change (NoDup (map (fun ut => Some ut.1) (sorted_items (Usage.iv_users iv)))).
        rewrite <- (map_map fst Some). apply (NoDup_fmap_2 Some).
        unfold sorted_items. eapply NoDup_Permutation_proper; [apply Permutation_map, merge_sort_Permutation | exact Hn].
      * intros k Hk. apply list_elem_of_fmap in Hk as (ut & -> & _). by rewrite list_elem_of_singleton.
      * apply NoDup_singleton.
  - apply Forall_app. split.
    + eapply Forall_impl; [exact Hu|]. intros k Hk. cbn. pose proof (upto_later _ _ _ Hk Hl). lia.
    + eapply Forall_impl; [exact Hs|]. intros k Hk. cbn in *. lia.
Qed.

Lemma emit_usage cf out p items :
  minutes_emitted out p -> usage_emitted out p -> usage_step (np_last_interval p) items (np_usage p) ->
  exists recs p', _usage_records cf items p = (Ok recs, p') /\
    minutes_emitted (out ++ recs) p' /\ usage_emitted (out ++ recs) p' /\
    usage_after (np_last_interval p') (np_usage p') /\
    np_usage p' = np_usage p /\ np_minutes p' = np_minutes p /\ np_last_minute p' = np_last_minute p.
Proof.
  intros [H1 H2] [H3 H4] [[-> Ha]|(iv & e & -> & Hl & Hn & Ha)].
  { exists [], p. rewrite app_nil_r. cbn. done. }
  destruct (flush_interval_keys cf e iv) as (K1 & K2 & K3).
  unfold _usage_records. rewrite (usage_records_run cf (Usage.iv_start iv)) by done.
  eexists _, _. split; [done|]. cbn [app].
  assert (Hne : match Usage.flush_interval e iv with [] => p | _ => set_last_interval (Usage.iv_start iv) p end
                = set_last_interval (Usage.iv_start iv) p).
  { unfold Usage.flush_interval. by destruct (map _ (sorted_items _)). }
  rewrite Hne. destruct (batch_keys_fresh (omap usage_key out) iv _ Hn Hl H3 H4) as [B1 B2].
  split; [|split; [|done]].
  - split; by rewrite omap_app, K3, app_nil_r.
  - split; rewrite omap_app, K2; [exact B1 | exact B2].
Qed.

(** ** Every call keeps the invariant *)

Definition keeps_emitted (cf : config) (c : M pipeline (list record)) : Prop :=
  forall out, hoare (emitted cf out) c
    (fun r p => emitted cf (out ++ match r with Ok recs => recs | Raise _ => [] end) p).

Lemma not_late_later t last : is_late t last = false -> later_than last t.
Proof. unfold is_late, later_than. destruct last; [intros H; apply Z.leb_gt in H; lia | done]. Qed.

Lemma emitted_nil cf out p : emitted cf out p -> emitted cf (out ++ []) p.
Proof. by rewrite app_nil_r. Qed.

(** The end of a handler that raised or that returns what it has emitted so far. *)
Lemma late_emitted cf msg recv out p : emitted cf out p -> emitted cf (out ++ _late cf msg recv) p.
Proof. apply emitted_neither. apply Forall_singleton, neither_event. Qed.

(** Records dropped by an exception after the fact leave the invariant of the rest. *)
Lemma emitted_prefix cf out recs p : emitted cf (out ++ recs) p -> emitted cf out p.
Proof.
  intros [[G1 G2] ? [G3 G4] ? ?].
  rewrite omap_app in G1. rewrite omap_app in G2. rewrite omap_app in G3. rewrite omap_app in G4.
  apply Forall_app in G2 as [G2 _]. apply Forall_app in G4 as [G4 _].
  apply StronglySorted_app_1_l in G1. apply NoDup_app in G3 as [G3 _]. by repeat split.
Qed.

Lemma counters_keep cf msg recv : keeps_emitted cf (_counters cf msg recv).
Proof.
  intros out. apply hoare_run. intros p Hp. unfold _counters. unfold bind at 1, gets at 1, id.
  destruct (is_late (floor_minute recv) (np_last_minute p)) eqn:El; [exact (late_emitted cf msg recv out p Hp)|].
  apply not_late_later in El. destruct Hp as [Hm Ho Hu Hw Hi].
  unfold bind at 1, on_minutes, zoom.
  pose proof (add_counters_step _ msg recv (np_session_id p) _ Ho El) as Hs.
  destruct (NodeMetrics.add_counters msg recv (np_session_id p) (np_minutes p)) as [[rows|e] a'].
  2: { apply emitted_nil. destruct Hm, Hu. by repeat split. }
  destruct (emit_minutes cf out (set_minutes a' p) rows) as (recs & p' & E & M1 & M2 & M3 & M4 & M5);
    [by destruct Hm; split | by destruct Hu; split | exact Hs |].
  unfold bind at 1. rewrite E.
  assert (Hp' : emitted cf (out ++ recs) p') by (split; try done; rewrite ?M4, ?M5; done).
  assert (Hdrop : emitted cf (out ++ []) p') by (apply emitted_nil; by eapply emitted_prefix).
  unfold bind, lift, gets, ret.
  destruct (NodeMetrics.or_empty _) as [mem|]; [|exact Hdrop].
  destruct (NodeMetrics.diff _ _) as [used|]; [|exact Hdrop]. cbn [fst snd].
  rewrite app_assoc. apply emitted_neither; [|exact Hp']. apply Forall_singleton, neither_live.
Qed.

Lemma census_keep cf msg recv : keeps_emitted cf (_census cf msg recv).
Proof.
  intros out. apply hoare_run. intros p Hp. unfold _census. unfold bind at 1, gets at 1, id.
  assert (Hsum : let '(r, p') := (if is_late (floor_minute recv) (np_last_minute p) then ret (_late cf msg recv)
                   else modify (set_last_census recv) ;;; on_minutes (NodeMetrics.add_census msg recv) ;;; ret []) p in
                 emitted cf (out ++ match r with Ok recs => recs | Raise _ => [] end) p').
  { destruct (is_late _ _); [exact (late_emitted cf msg recv out p Hp)|].
    unfold bind, modify, on_minutes, zoom, ret.
    pose proof (add_census_after (np_last_minute p) msg recv (np_minutes p) (em_open _ _ _ Hp)) as Ha.
    change (np_minutes (set_last_census recv p)) with (np_minutes p).
    destruct (NodeMetrics.add_census msg recv (np_minutes p)) as [[[]|e] a'];
      apply emitted_nil; destruct Hp as [[] ? [] ? ?]; by repeat split. }
  assert (Hrows : let '(r, p') :=
      (if is_late (Usage.interval_floor (cf_summary_interval cf) recv) (np_last_interval p) then ret (_late cf msg recv)
       else
        modify (set_last_census recv) ;;;
        let gpu_status := dget_or_none "gpu_status" msg in
        let* enriched := lift (rs ← process_rows (dget_or_none "processes" msg);
                               enrich_census rs (cf_redactor cf) (cf_min_user_uid cf) gpu_status) in
        let out := [Record_ LIVE_PROCESSES (_row cf [("ts", VTime recv); ("processes", VList (map VDict enriched))])] in
        let* items := on_usage (Usage.add_census enriched recv (status_text gpu_status)) in
        let* more := _usage_records cf items in
        on_minutes (NodeMetrics.add_census msg recv) ;;;
        ret (out ++ more)) p in
      emitted cf (out ++ match r with Ok recs => recs | Raise _ => [] end) p').
  2: { destruct (dget_or_none "processes" msg); [exact Hsum | exact Hrows..]. }
  clear Hsum.
  destruct (is_late _ _) eqn:El; [exact (late_emitted cf msg recv out p Hp)|]. apply not_late_later in El.
  unfold bind at 1, modify at 1. set (p1 := set_last_census recv p). cbv zeta.
  assert (Hp1 : emitted cf out p1) by (by apply (emitted_core cf out p)).
  unfold bind at 1, lift at 1. destruct (_ ≫= _) as [enriched|e]; [|by apply emitted_nil].
  unfold bind at 1, on_usage at 1, zoom at 1. destruct Hp1 as [Hm Ho Hu Hw Hi].
  rewrite <- Hi in El.
  pose proof (usage_add_step _ enriched recv (status_text (dget_or_none "gpu_status" msg)) (np_usage p1) Hw El) as Hs.
  destruct (Usage.add_census _ _ _ _) as [[items|e] u']; destruct Hs as [Hi' Hs].
  2: { apply emitted_nil. destruct Hm, Hu. repeat split; try done. by rewrite <- Hi. }
  destruct (emit_usage cf out (set_usage u' p1) items) as (recs & p' & E & M1 & M2 & M3 & M4 & M5 & M6);
    [by destruct Hm; split | by destruct Hu; split | exact Hs |].
  unfold bind at 1. rewrite E.
  assert (Hp' : emitted cf (out ++ recs) p').
  { split; try done; rewrite ?M4, ?M5, ?M6; [exact Ho | cbn; by rewrite Hi', Hi]. }
  unfold bind, on_minutes, zoom, ret.
  pose proof (add_census_after (np_last_minute p') msg recv (np_minutes p') (em_open _ _ _ Hp')) as Ha.
  assert (Hp2 : emitted cf (out ++ recs) (set_minutes (NodeMetrics.add_census msg recv (np_minutes p')).2 p')).
  { destruct Hp' as [[] ? [] ? ?]. by repeat split. }
  destruct (NodeMetrics.add_census msg recv (np_minutes p')) as [[[]|e] a'].
  - cbn [fst snd] in *. set (live := Record_ LIVE_PROCESSES _).
    assert (Hl : neither live) by (apply neither_kind; apply (bool_decide_unpack _); vm_compute; exact I).
    change ([live] ++ recs) with (live :: recs). destruct Hp2 as [[G1 G2] ? [G3 G4] ? ?]. destruct Hl as [L1 L2].
    assert (E1 : omap minute_of (out ++ live :: recs) = omap minute_of (out ++ recs))
      by (rewrite !omap_app; f_equal; cbn [omap list_omap]; by rewrite L1).
    assert (E2 : omap usage_key (out ++ live :: recs) = omap usage_key (out ++ recs))
      by (rewrite !omap_app; f_equal; cbn [omap list_omap]; by rewrite L2).
    split; [split | | split | |]; rewrite ?E1, ?E2; done.
  - apply emitted_nil. by eapply emitted_prefix.
Qed.

Lemma flush_keep cf : keeps_emitted cf (flush cf).
Proof.
  intros out. apply hoare_run. intros p [Hm Ho Hu Hw Hi]. unfold flush. unfold bind at 1, on_minutes, zoom.
  pose proof (minutes_flush_step _ _ Ho) as Hs. destruct (NodeMetrics.flush (np_minutes p)) as [[rows|e] a'].
  2: { apply emitted_nil. destruct Hm, Hu. by repeat split. }
  destruct (emit_minutes cf out (set_minutes a' p) rows) as (recs & p' & E & M1 & M2 & M3 & M4 & M5);
    [by destruct Hm; split | by destruct Hu; split | exact Hs |].
  unfold bind at 1. rewrite E. unfold bind at 1, on_usage, zoom.
  assert (Hw' : usage_after (np_last_interval p') (np_usage p')) by (by rewrite M4, M5).
  pose proof (usage_flush_step _ _ Hw') as Hs2. destruct (Usage.flush (np_usage p')) as [[items|e] u']; destruct Hs2 as [Hi' Hs2].
  2: { apply emitted_nil. eapply emitted_prefix. destruct M1, M2. repeat split; try done. cbn. rewrite Hi', M4. exact Hi. }
  destruct (emit_usage cf (out ++ recs) (set_usage u' p') items) as (recs2 & p2 & E2 & N1 & N2 & N3 & N4 & N5 & N6);
    [by destruct M1; split | by destruct M2; split | exact Hs2 |].
  unfold bind, ret. rewrite E2, app_assoc. split; try done; rewrite ?N4, ?N5, ?N6; [exact M3 | cbn; rewrite Hi', M4; exact Hi].
Qed.

Lemma hello_keep cf msg recv : keeps_emitted cf (_hello cf msg recv).
Proof.
  intros out. apply hoare_run. intros p Hp. unfold _hello, bind, modify, lift, ret.
  set (p1 := set_probe _ _ p). assert (Hp1 : emitted cf out p1) by (by apply (emitted_core cf out p)).
  destruct (hardware msg) as [hw|e]; [|by apply emitted_nil].
  assert (H : forall r, neither (Record_ NODE_HARDWARE r))
    by (intros r; apply neither_kind; apply (bool_decide_unpack _); vm_compute; exact I).
  destruct (match dget_or_none "hostname_fqdn" msg with VStr _ => _ | _ => _ end);
    (apply emitted_neither; [|exact Hp1]).
  - by apply Forall_singleton.
  - apply Forall_app. split; apply Forall_singleton; [apply H | apply neither_event].
Qed.

(** An event's kind is text the caller gives. *)
Lemma event_keep cf kind detail recv : keeps_emitted cf (on_event cf kind detail recv).
Proof.
  intros out. apply hoare_run. intros p Hp. unfold on_event. unfold bind at 1, lift at 1.
  destruct (require_aware recv) as [t|e]; [|by apply emitted_nil].
  unfold bind, ret. set (start := when _ _).
  assert (Hs : exists p1, start p = (Ok tt, p1) /\ core p1 = core p).
  { subst start. unfold when. case_bool_decide; eexists; split; cbn; reflexivity. }
  destruct Hs as (p1 & -> & Ec). apply emitted_neither; [|by eapply emitted_core].
  case_bool_decide; repeat constructor; apply neither_event || apply neither_live.
Qed.

Lemma message_keep cf msg recv : keeps_emitted cf (on_message cf msg recv).
Proof.
  intros out. apply hoare_run. intros p Hp. unfold on_message. unfold bind at 1, lift at 1.
  destruct (require_aware recv) as [t|e]; [|by apply emitted_nil].
  assert (Hk : forall c, keeps_emitted cf c -> let '(r, p') := c p in
            emitted cf (out ++ match r with Ok recs => recs | Raise _ => [] end) p').
  { intros c Hc. specialize (Hc out p Hp). by destruct (c p). }
  assert (Hnone : keeps_emitted cf (ret [])).
  { intros o q Hq. cbn. by apply emitted_nil. }
  assert (Herr : forall d, keeps_emitted cf (ret [_event cf "probe_error" d recv])).
  { intros d o q Hq. cbn. apply emitted_neither; [apply Forall_singleton, neither_event | done]. }
  apply (Hk (match dget_or_none "type" msg with VStr "hello" => _ | VStr "counters" => _
                 | VStr "census" => _ | VStr "error" => _ | _ => ret [] end)).
  repeat case_match; auto using hello_keep, counters_keep, census_keep.
Qed.

(** ** Runs *)

(** The calls a caller makes, whatever their outcome; what a call that raises would have
    emitted is lost to the caller. *)
Inductive call :=
| OnMessage (msg : dict) (recv : datetime)
| OnEvent (event : string) (detail : dict) (recv : datetime)
| Flush.

Definition perform (cf : config) (c : call) : M pipeline (list record) :=
  match c with
  | OnMessage msg recv => on_message cf msg recv
  | OnEvent event detail recv => on_event cf event detail recv
  | Flush => flush cf
  end.
Definition step (cf : config) (st : list record * pipeline) (c : call) : list record * pipeline :=
  let '(r, p) := perform cf c st.2 in (st.1 ++ match r with Ok recs => recs | Raise _ => [] end, p).
Definition run (cf : config) (calls : list call) : list record * pipeline :=
  foldl (step cf) ([], new_pipeline cf) calls.

Lemma new_emitted cf : emitted cf [] (new_pipeline cf).
Proof. split; [split; constructor | exact I | split; constructor | exact I | reflexivity]. Qed.

Lemma run_emitted cf calls : emitted cf (run cf calls).1 (run cf calls).2.
Proof.
  unfold run. enough (H : forall st, emitted cf st.1 st.2 ->
    emitted cf (foldl (step cf) st calls).1 (foldl (step cf) st calls).2) by apply H, new_emitted.
  induction calls as [|c calls IH]; intros st H; [exact H|].
  cbn [foldl]. apply IH. unfold step.
  assert (Hc : keeps_emitted cf (perform cf c)) by (destruct c; [apply message_keep | apply event_keep | apply flush_keep]).
  specialize (Hc st.1 st.2 H). by destruct (perform cf c st.2).
Qed.

(** ** What every record carries *)

(** Its row is a dictionary and, unless it describes the hardware (whose fields are the
    probe's own), it names the node of the pipeline. *)
Record carries (cf : config) (r : record) : Prop := Carries {
  ca_row : NoDup (dkeys (row r));
  ca_node : kind r <> NODE_HARDWARE -> dget "node" (row r) = Some (VStr (cf_host cf));
}.

Lemma row_carries cf k fields : (k <> NODE_HARDWARE -> "node" ∉ dkeys fields) -> carries cf (Record_ k (_row cf fields)).
Proof.
  intros Hf. unfold _row. split; cbn [row kind].
  - apply NoDup_dkeys_dmerge. apply (bool_decide_unpack _). vm_compute. exact I.
  - intros Hk. rewrite dget_dmerge. destruct (dget "node" (rev fields)) as [v|] eqn:E; [|done]. destruct (Hf Hk).
    assert (Hin : "node" ∈ dkeys (rev fields)) by (apply elem_of_dkeys; eauto).
    unfold dkeys in *. rewrite map_rev, list_elem_of_In, <- in_rev, <- list_elem_of_In in Hin. exact Hin.
Qed.

Lemma event_carries cf t d recv : carries cf (_event cf t d recv).
Proof. apply row_carries. intros _. cbn. apply (bool_decide_unpack _). vm_compute. exact I. Qed.

Lemma live_carries cf recv s extra : "node" ∉ dkeys extra -> carries cf (_live_node cf recv s extra).
Proof.
  intros He. apply row_carries. intros _. unfold dkeys in *. rewrite map_app. cbn.
  rewrite !elem_of_cons. intros [H|[H|[H|H]]]; try discriminate. done.
Qed.

(** The outcome of a handler. *)
Definition carried (cf : config) (r : res (list record)) : Prop :=
  match r with Ok recs => Forall (carries cf) recs | Raise _ => True end.
Definition nodeless (row : dict) : Prop := "node" ∉ dkeys row.

Lemma bind_carried {A} cf (c : M pipeline A) k p (P : A -> Prop) :
  match (c p).1 with Ok a => P a | Raise _ => True end -> (forall a q, P a -> carried cf (k a q).1) ->
  carried cf (bind c k p).1.
Proof. intros Hc Hk. unfold bind. destruct (c p) as [[a|e] q]; cbn in *; [by apply Hk | done]. Qed.

Lemma records_carried {A} cf (f : list record -> A -> M pipeline (list record)) (P : A -> Prop) l out p :
  (forall out x p, Forall (carries cf) out -> P x -> carried cf (f out x p).1) ->
  Forall P l -> Forall (carries cf) out -> carried cf (foldM f out l p).1.
Proof.
  intros Hf Hl. revert out p. induction Hl as [|x l Hx _ IH]; intros out p Ho; [done|]. cbn [foldM].
  eapply bind_carried; [by apply (Hf out x p)|]. intros a q Ha. by apply IH.
Qed.

Lemma minutes_carried cf rows p : Forall nodeless rows -> carried cf (_minute_records cf rows p).1.
Proof.
  intros Hr. apply (records_carried cf _ nodeless); [|done|constructor]. intros out x q Ho Hx.
  unfold bind, lift, modify, ret. destruct (row_time _ _); [|done]. cbn. apply Forall_app. split; [done|].
  apply Forall_singleton, row_carries. auto.
Qed.

Lemma usage_carried cf items p : Forall (fun kr : string * dict => nodeless kr.2) items -> carried cf (_usage_records cf items p).1.
Proof.
  intros Hr. apply (records_carried cf _ (fun kr => nodeless kr.2)); [|done|constructor]. intros out x q Ho Hx.
  unfold bind, lift, modify, ret. destruct (row_time _ _); [|done]. cbn. apply Forall_app. split; [done|].
  apply Forall_singleton, row_carries. auto.
Qed.

(** The rows of the aggregators name no node. *)
Lemma minutes_step_nodeless last rows a : minutes_step last rows a -> Forall nodeless rows.
Proof.
  destruct rows as [|r [|? ?]]; cbn; [constructor| |done]. intros (t & Hk & _). apply Forall_singleton. unfold nodeless.
  rewrite Hk. apply (bool_decide_unpack _). vm_compute. exact I.
Qed.

Lemma on_minutes_nodeless (c : M NodeMetrics.minutes (list dict)) p :
  (forall a, let '(r, a') := c a in match r with Ok rows => minutes_step None rows a' | Raise _ => minutes_after None a' end) ->
  match (on_minutes c p).1 with Ok rows => Forall nodeless rows | Raise _ => True end.
Proof.
  intros H. unfold on_minutes, zoom. specialize (H (np_minutes p)). destruct (c (np_minutes p)) as [[rows|e] a]; cbn; [|done].
  by eapply minutes_step_nodeless.
Qed.

Lemma minutes_after_none a : minutes_after None a.
Proof. unfold minutes_after. by destruct (NodeMetrics.ma_open a). Qed.

Lemma flush_interval_nodeless e iv : Forall (fun kr : string * dict => nodeless kr.2) (Usage.flush_interval e iv).
Proof.
  unfold Usage.flush_interval. apply Forall_app. split.
  - apply Forall_fmap, Forall_true. intros ut. apply (bool_decide_unpack _). vm_compute. exact I.
  - apply Forall_singleton. apply (bool_decide_unpack _). vm_compute. exact I.
Qed.

Lemma usage_flush_nodeless u :
  match (Usage.flush u).1 with Ok items => Forall (fun kr : string * dict => nodeless kr.2) items | Raise _ => True end.
Proof.
  unfold Usage.flush. destruct (Usage.u_open u) as [iv|]; [|constructor]. destruct (_ =? _); cbn; [done|]. apply flush_interval_nodeless.
Qed.

Lemma usage_add_nodeless rows recv gpu u :
  match (Usage.add_census rows recv gpu u).1 with Ok items => Forall (fun kr : string * dict => nodeless kr.2) items | Raise _ => True end.
Proof.
  unfold Usage.add_census. destruct (require_aware recv); [|done].
  assert (Hrest : forall start gm out u, Forall (fun kr : string * dict => nodeless kr.2) out ->
            match (bind (Usage.add_to_open rows start gm) (fun _ => ret out) u).1 with
            | Ok items => Forall (fun kr : string * dict => nodeless kr.2) items | Raise _ => True end).
  { intros start gm out u' Ho. unfold bind, ret. by destruct (Usage.add_to_open rows start gm u') as [[|] ?]. }
  destruct (Usage.u_open u) as [iv|]; [|by apply Hrest; constructor].
  destruct (_ <? _); [|by apply Hrest; constructor].
  pose proof (usage_flush_nodeless u) as Hf. unfold bind at 1. destruct (Usage.flush u) as [[items|e] u1]; [|done].
  by apply Hrest.
Qed.

(** Every call's. *)
Lemma hello_carried cf msg recv p : carried cf (_hello cf msg recv p).1.
Proof.
  unfold _hello. eapply (bind_carried _ _ _ _ (fun _ => True)); [done|]. intros _ q _.
  eapply (bind_carried _ _ _ _ (fun _ => True)); [by destruct (lift _ _).1|]. intros hw q' _. unfold ret. cbn [fst].
  assert (H : forall r, carries cf (Record_ NODE_HARDWARE (_row cf r))) by (intros r; apply row_carries; by intros []).
  destruct (match dget_or_none "hostname_fqdn" msg with VStr _ => _ | _ => _ end); [by apply Forall_singleton|].
  apply Forall_app. split; apply Forall_singleton; [apply H | apply event_carries].
Qed.

Lemma counters_carried cf msg recv p : carried cf (_counters cf msg recv p).1.
Proof.
  unfold _counters. eapply (bind_carried _ _ _ _ (fun _ => True)); [done|]. intros p0 q _.
  destruct (is_late _ _); [by apply Forall_singleton, event_carries|].
  eapply (bind_carried _ _ _ _ (Forall nodeless)).
  { apply on_minutes_nodeless. intros a. apply add_counters_step; [apply minutes_after_none | done]. }
  intros rows q1 Hr. eapply (bind_carried _ _ _ _ (Forall (carries cf))); [by apply minutes_carried|].
  intros out q2 Ho. eapply (bind_carried _ _ _ _ (fun _ => True)); [by destruct (lift _ _).1|]. intros mem q3 _. cbv zeta.
  eapply (bind_carried _ _ _ _ (fun _ => True)); [by destruct (lift _ _).1|]. intros used q4 _. cbn.
  apply Forall_app. split; [done|]. apply Forall_singleton, live_carries. apply (bool_decide_unpack _). vm_compute. exact I.
Qed.

Lemma census_carried cf msg recv p : carried cf (_census cf msg recv p).1.
Proof.
  unfold _census. eapply (bind_carried _ _ _ _ (fun _ => True)); [done|]. intros p0 q _.
  assert (Hsum : carried cf ((if is_late (floor_minute recv) (np_last_minute p0) then ret (_late cf msg recv)
                   else modify (set_last_census recv) ;;; on_minutes (NodeMetrics.add_census msg recv) ;;; ret []) q).1).
  { destruct (is_late _ _); [by apply Forall_singleton, event_carries|].
    eapply (bind_carried _ _ _ _ (fun _ => True)); [done|]. intros _ q1 _.
    eapply (bind_carried _ _ _ _ (fun _ => True)); [by destruct (on_minutes _ _).1|]. intros _ q2 _. constructor. }
  destruct (dget_or_none "processes" msg); [exact Hsum|..]; clear Hsum;
    (destruct (is_late _ _); [by apply Forall_singleton, event_carries|]);
    (eapply (bind_carried _ _ _ _ (fun _ => True)); [done|]); intros _ q1 _; cbv zeta;
    (eapply (bind_carried _ _ _ _ (fun _ => True)); [by destruct (lift _ _).1|]); intros rows q2 _;
    (eapply (bind_carried _ _ _ _ (Forall (fun kr : string * dict => nodeless kr.2)));
      [unfold on_usage, zoom; match goal with |- context [Usage.add_census ?a ?b ?c ?d] => 
         pose proof (usage_add_nodeless a b c d) as H; destruct (Usage.add_census a b c d) as [[|] ?]; exact H end|]);
    intros items q3 Hi;
    (eapply (bind_carried _ _ _ _ (Forall (carries cf))); [by apply usage_carried|]); intros more q4 Hm;
    (eapply (bind_carried _ _ _ _ (fun _ => True)); [by destruct (on_minutes _ _).1|]); intros _ q5 _;
    (apply Forall_app; split; [|done]); apply Forall_singleton, row_carries; intros _;
    apply (bool_decide_unpack _); vm_compute; exact I.
Qed.

Lemma message_carried cf msg recv p : carried cf (on_message cf msg recv p).1.
Proof.
  unfold on_message. eapply (bind_carried _ _ _ _ (fun _ => True)); [by destruct (lift _ _).1|]. intros _ q _.
  assert (Hnone : carried cf (Ok [])) by constructor.
  assert (Herr : forall d, carried cf (Ok [_event cf "probe_error" d recv])) by (intros; apply Forall_singleton, event_carries).
  repeat case_match; first [apply hello_carried | apply counters_carried | apply census_carried | exact Hnone | apply Herr].
Qed.

Lemma on_event_carried cf kind detail recv p : carried cf (on_event cf kind detail recv p).1.
Proof.
  unfold on_event. eapply (bind_carried _ _ _ _ (fun _ => True)); [by destruct (lift _ _).1|]. intros _ q _.
  eapply (bind_carried _ _ _ _ (fun _ => True)); [by destruct (when _ _ _).1|]. intros _ q' _. unfold ret. cbn [fst carried].
  case_bool_decide; [apply Forall_app; split|]; try apply Forall_singleton, event_carries.
  apply Forall_singleton, live_carries. apply not_elem_of_nil.
Qed.

Lemma flush_carried cf p : carried cf (flush cf p).1.
Proof.
  unfold flush. eapply (bind_carried _ _ _ _ (Forall nodeless)).
  { apply on_minutes_nodeless. intros a. apply minutes_flush_step, minutes_after_none. }
  intros rows q Hr. eapply (bind_carried _ _ _ _ (Forall (carries cf))); [by apply minutes_carried|]. intros out q1 Ho.
  eapply (bind_carried _ _ _ _ (Forall (fun kr : string * dict => nodeless kr.2))).
  { unfold on_usage, zoom. pose proof (usage_flush_nodeless (np_usage q1)) as H. by destruct (Usage.flush (np_usage q1)) as [[|] ?]. }
  intros items q2 Hi. eapply (bind_carried _ _ _ _ (Forall (carries cf))); [by apply usage_carried|]. intros more q3 Hm.
  apply Forall_app. by split.
Qed.

Lemma perform_carried cf c p : carried cf (perform cf c p).1.
Proof. destruct c; [apply message_carried | apply on_event_carried | apply flush_carried]. Qed.

(** ** What the summaries accept *)

(** The fields of a raw row the summaries compute with have their types. *)
Record typed_row (row : dict) : Prop := TypedRow {
  ty_cpu : exists n, as_num_opt (dget_or_none "cpu_seconds" row) = Ok n;
  ty_gpu : exists n, as_num_opt (dget_or_none "gpu_mem_mb" row) = Ok n;
  ty_rss : exists z, dget_or_none "rss_kb" row = VInt z;
  ty_threads : exists z, dget_or_none "threads" row = VInt z;
  ty_state : exists s, dget_or_none "state" row = VStr s;
  ty_cpu_state : match dget_or_none "cpu_state" row with VNone | VStr _ => True | _ => False end;
}.

Lemma item_column k out : dkeys out = LIVE_PROCESS_COLUMNS -> k ∈ LIVE_PROCESS_COLUMNS -> item k out = Ok (dget_or_none k out).
Proof.
  intros Hk Hin. rewrite <- Hk in Hin. apply elem_of_dkeys in Hin as [v Hv]. unfold item, dget_or_none. by rewrite Hv.
Qed.

(** Reading a process row, column by column. *)
Lemma proc_of_columns out user cs b pr cat act ncpu ngpu rss th st :
  dkeys out = LIVE_PROCESS_COLUMNS ->
  dget_or_none "username" out = VStr user -> dget_or_none "cpu_state" out = VStr cs ->
  dget_or_none "idle_bucket" out = VStr b -> dget_or_none "owner_presence" out = VStr pr ->
  dget_or_none "category" out = VStr cat -> dget_or_none "activity" out = val_opt VStr act ->
  as_num_opt (dget_or_none "cpu_seconds" out) = Ok ncpu -> as_num_opt (dget_or_none "gpu_mem_mb" out) = Ok ngpu ->
  dget_or_none "rss_kb" out = VInt rss -> dget_or_none "threads" out = VInt th ->
  dget_or_none "state" out = VStr st ->
  Usage.proc_of out = Ok (Usage.Proc user ncpu rss ngpu th st (truthy (dget_or_none "interactive" out)) cs b pr cat act).
Proof.
  intros Hk H1 H2 H3 H4 H5 H6 H7 H8 H9 H10 H11. unfold Usage.proc_of.
  rewrite !(item_column _ out Hk) by (apply (bool_decide_unpack _); vm_compute; exact I).
  rewrite H1, H2, H3, H4, H5, H6, H9, H10, H11. cbn [mbind res_bind as_str as_int]. rewrite H7. cbn [mbind res_bind].
  rewrite H8. cbn [mbind res_bind]. by destruct act.
Qed.

(** An enriched row of a typed one is read as a process of its owner, in its category. *)
Lemma proc_of_enriched presence r min gpu row user cmdline comm uid out :
  typed_row row -> enriched presence r min gpu row user cmdline comm uid out ->
  exists p, Usage.proc_of out = Ok p /\ Usage.p_username p = user /\
    Usage.p_category p = category (classify comm cmdline uid min).
Proof.
  intros [[ncpu Ecpu] Hgpu [rss Hrss] [th Hth] [st Hst] Hcs] He.
  assert (Hcop : forall k, k ∈ _COPIED -> k ∉ ["username"; "argv0"; "gpu_mem_mb"] -> dget_or_none k out = dget_or_none k row)
    by apply (er_copied _ _ _ _ _ _ _ _ _ _ He).
  assert (Hgpu' : exists n, as_num_opt (dget_or_none "gpu_mem_mb" out) = Ok n).
  { rewrite (er_gpu _ _ _ _ _ _ _ _ _ _ He).
    destruct (dget_or_none "gpu_mem_mb" row); try exact Hgpu. destruct gpu; cbn; eauto. }
  destruct Hgpu' as [ngpu Egpu].
  assert (Hcs' : exists s, dget_or_none "cpu_state" out = VStr s).
  { rewrite (er_cpu_state _ _ _ _ _ _ _ _ _ _ He).
    destruct (dget_or_none "cpu_state" row) as [| | | |s| | | |]; try done; cbn; [eauto|]. destruct s; eauto. }
  destruct Hcs' as [cs Ecs]. destruct (er_bucket _ _ _ _ _ _ _ _ _ _ He) as (b & _ & Eb).
  eexists. split.
  - apply (proc_of_columns out user cs b _ _ _ ncpu ngpu rss th st (er_columns _ _ _ _ _ _ _ _ _ _ He)
      (er_username _ _ _ _ _ _ _ _ _ _ He) Ecs Eb (er_presence _ _ _ _ _ _ _ _ _ _ He)
      (er_category _ _ _ _ _ _ _ _ _ _ He) (er_activity _ _ _ _ _ _ _ _ _ _ He)); try done;
      rewrite Hcop; try done; apply (bool_decide_unpack _); vm_compute; exact I.
  - done.
Qed.

(** Whether a raw row is one the summaries count, and whose process it is. *)
Definition counted (min_user_uid : Z) (row : dict) : bool :=
  match text_or_empty (dget_or_none "cmdline" row), dget_or_none "comm" row, item "uid" row ≫= as_int with
  | Ok cmdline, VStr comm, Ok uid =>
      (min_user_uid <=? uid) && negb (bool_decide (category (classify comm cmdline uid min_user_uid) = "system"))
  | _, _, _ => false
  end.

Lemma user_procs_enriched presence r min gpu rows out :
  Forall typed_row rows -> Forall2 (made_from presence r min gpu) rows out ->
  exists ps, Usage.user_procs out = Ok ps /\
    Forall2 (fun row p => user_key row = Ok (Usage.p_username p)) (filter (fun row => counted min row = true) rows) ps.
Proof.
  intros Ht H. induction H as [|row y rows out Hy H IH]; [exists []; split; constructor|].
  apply Forall_cons in Ht as [Ht1 Ht]. destruct (IH Ht) as (ps & Eps & Hps).
  destruct Hy as (user & cmdline & comm & uid & Eu & Ec & Em & Ei & He).
  assert (Hc : counted min row = (min <=? uid) && negb (bool_decide (category (classify comm cmdline uid min) = "system")))
    by (unfold counted; by rewrite Ec, Em, Ei).
  pose proof (er_user_process _ _ _ _ _ _ _ _ _ _ He) as Hup. rewrite <- Hc in Hup.
  rewrite filter_cons. cbn [Usage.user_procs].
  rewrite (item_column "is_user_process" y (er_columns _ _ _ _ _ _ _ _ _ _ He))
    by (apply (bool_decide_unpack _); vm_compute; exact I).
  rewrite Hup. cbn [mbind res_bind truthy]. destruct (counted min row) eqn:Ecr.
  - rewrite decide_True by done.
    destruct (proc_of_enriched presence r min gpu row user cmdline comm uid y Ht1 He) as (p & Ep & Hu & _).
    exists (p :: ps). rewrite Ep. cbn [mbind res_bind]. rewrite Eps. cbn [mbind res_bind]. split; [done|].
    constructor; [|done]. by rewrite Hu.
  - rewrite decide_False by done. eauto.
Qed.

(** ** Properties *)

Definition demo_config : config :=
  Config "sys" "login1.example" "login1" 1000 (Redactor []) (NInt 10) (NInt 60) (NInt 300).
Definition counters_msg (load : Z) : dict := [("type", VStr "counters"); ("load1", VInt load)].
Definition census_msg (rows : list dict) : dict :=
  [("type", VStr "census"); ("processes", VList (map VDict rows)); ("gpu_status", VStr "ok")].
Definition t0 : Z := 1700000100000000.
Definition demo_calls : list call :=
  [OnEvent "session_started" [] (utc t0);
   OnMessage (counters_msg 1) (utc t0); OnMessage (census_msg raw_rows) (utc (t0 + 1000000));
   OnMessage (counters_msg 2) (utc (t0 + 61000000));
   OnMessage (counters_msg 3) (utc (t0 + 2000000)); Flush;
   OnMessage (counters_msg 4) (utc (t0 + 62000000)); OnMessage (census_msg []) (utc (t0 + 90000000)); Flush].

(** A run with late samples: a counters message after its minute came out (by a clock stepping
    back, or after a flush) is reported and changes nothing. *)
Example pipeline_run :
  let '(out, p) := run demo_config demo_calls in
  (map kind out, omap minute_of out, map snd (omap usage_key out),
   map (fun r => dget_or_none "event_type" (row r)) (filter (fun r => kind r = COLLECTION_EVENT) out))
  = ([COLLECTION_EVENT; LIVE_NODE; LIVE_PROCESSES; NODE_METRICS_1M; LIVE_NODE; COLLECTION_EVENT;
      NODE_METRICS_1M; USER_USAGE_5M; USER_USAGE_5M; USER_USAGE_5M; NODE_USAGE_5M; COLLECTION_EVENT; COLLECTION_EVENT],
     [t0; t0 + 60000000],
     [Some "ann"; Some "bob"; Some "uid:1700"; None],
     [VStr "session_started"; VStr "late_sample"; VStr "late_sample"; VStr "late_sample"]).
Proof. vm_compute. reflexivity. Qed.

(** C18. Nothing is emitted twice: over any sequence of calls, whatever they return or raise
    and however the receive clock moves, the minutes of the node metrics come out strictly
    increasing, and no two usage records have the same interval and user. *)
Theorem emitted_once cf calls :
  let out := (run cf calls).1 in
  StronglySorted Z.lt (omap minute_of out) /\ NoDup (omap usage_key out).
Proof. intros out. destruct (run_emitted cf calls) as [[H _] _ [H' _] _ _]. done. Qed.

(** A late sample is reported by one event and changes nothing: the minute of a counters
    message, or the interval of a census, that has already come out. *)
Theorem late_sample_inert cf msg recv p :
  is_aware recv = true ->
  (dget_or_none "type" msg = VStr "counters" /\ is_late (floor_minute recv) (np_last_minute p) = true) \/
  (dget_or_none "type" msg = VStr "census" /\ dget_or_none "processes" msg <> VNone /\
   is_late (Usage.interval_floor (cf_summary_interval cf) recv) (np_last_interval p) = true) ->
  on_message cf msg recv p = (Ok (_late cf msg recv), p).
Proof.
  intros Ha H. unfold on_message, require_aware. rewrite Ha. unfold bind at 1, lift at 1.
  destruct H as [[-> Hl]|(-> & Hp & Hl)].
  - unfold _counters, bind at 1, gets at 1, id. by rewrite Hl.
  - unfold _census, bind at 1, gets at 1, id. rewrite Hl. by destruct (dget_or_none "processes" msg).
Qed.

Lemma late_sample_inert_witness :
  let p := (run demo_config demo_calls).2 in
  on_message demo_config (counters_msg 5) (utc t0) p = (Ok (_late demo_config (counters_msg 5) (utc t0)), p).
Proof.
  apply (late_sample_inert demo_config (counters_msg 5) (utc t0)); [reflexivity | left; split; [reflexivity | vm_compute; reflexivity]].
Defined.

(** When a session is lost the node's live row says only who it is, when and that it is
    down: no gauge is present, so none is overwritten; the pipeline's state is kept. *)
Theorem session_lost_partial cf detail recv p :
  is_aware recv = true ->
  exists event live,
    on_event cf "session_lost" detail recv p = (Ok [event; live], p) /\
    kind event = COLLECTION_EVENT /\ kind live = LIVE_NODE /\
    row live = [("system", VStr (cf_system cf)); ("node", VStr (cf_host cf)); ("label", VStr (cf_label cf));
                ("updated_at", VTime recv); ("session_state", VStr "down")].
Proof. intros Ha. unfold on_event, require_aware. rewrite Ha. eexists _, _. split; [reflexivity | done]. Qed.

Lemma session_lost_partial_witness :
  exists event live,
    on_event demo_config "session_lost" [] (utc t0) (new_pipeline demo_config)
    = (Ok [event; live], new_pipeline demo_config) /\
    kind event = COLLECTION_EVENT /\ kind live = LIVE_NODE /\
    row live = [("system", VStr "sys"); ("node", VStr "login1.example"); ("label", VStr "login1");
                ("updated_at", VTime (utc t0)); ("session_state", VStr "down")].
Proof. apply (session_lost_partial demo_config [] (utc t0)). reflexivity. Defined.

(** The enrichment gives the summaries what they need: rows whose fields have their types
    never make them raise, and exactly the user processes are counted, one each and in order,
    under the key of their owner. *)
Theorem census_is_countable rows r min_user_uid gpu_status out :
  Forall typed_row rows -> enrich_census rows r min_user_uid gpu_status = Ok out ->
  exists ps, Usage.user_procs out = Ok ps /\
    Forall2 (fun row p => user_key row = Ok (Usage.p_username p))
      (filter (fun row => counted min_user_uid row = true) rows) ps.
Proof.
  intros Ht E. unfold enrich_census in E. ok_step E as (presence & Ep & E).
  apply (user_procs_enriched presence r min_user_uid (is_ok gpu_status)); [done|].
  apply mapM_res_Forall2 in E. eapply Forall2_impl; [exact E|]. intros row y Hy. by apply enrich_row_spec.
Qed.

Lemma typed_raw_rows : Forall typed_row raw_rows.
Proof.
  unfold raw_rows. repeat (apply Forall_cons_2; [split; vm_compute; eauto|]). apply Forall_nil_2.
Qed.

Lemma census_is_countable_witness :
  exists ps, Usage.user_procs raw_out = Ok ps /\
    Forall2 (fun row p => user_key row = Ok (Usage.p_username p))
      (filter (fun row => counted 1000 row = true) raw_rows) ps.
Proof.
  apply (census_is_countable raw_rows (Redactor []) 1000 (VStr "ok") raw_out typed_raw_rows).
  vm_compute. reflexivity.
Defined.
