(* ===== verification/Sql.v ===== *)
(** * The database as its sessions see it

    The tables of the schema [node_monitor], the SQL statements the program sends, and a
    session with the server.  The statements are the source's own text; what they do to the
    tables is SQL's documented meaning of them, with PostgreSQL's unique keys, NOT NULL
    columns and range partitions of [database/migrations].  The server is not the program's:
    whether a statement is carried out at all, and in what state a failure leaves the
    connection, is read from a script of answers that no theorem restricts. *)

From S2P Require Import Prelude PyFloat PyTime PyVal Codec.

Open Scope py_scope.

(** ** Cells, rows and keys *)

Abbreviation row_t := (gmap string db_param).

Definition NULL : db_param := Scalar VNone.

(** A [timestamptz] keeps the instant only; a naive time is read in the session's zone, UTC. *)
Definition store (p : db_param) : db_param :=
  match p with Scalar (VTime t) => Scalar (VTime (utc (instant t))) | _ => p end.

Definition cell (c : string) (r : row_t) : db_param := default NULL (r !! c).

(** The row a statement inserts: its columns with its parameters, in the same order. *)
Definition bind_row (columns : list string) (params : list db_param) : row_t :=
  list_to_map (zip columns (map store params)).

Inductive key_part := KNull | KText (s : string) | KInt (z : Z) | KTime (us : Z).

#[export] Instance key_part_eq_dec : EqDecision key_part.
Proof. solve_decision. Defined.

#[export] Instance key_part_countable : Countable key_part.
Proof.
  refine (inj_countable'
    (fun k => match k with KNull => inl (inl tt) | KText s => inl (inr s)
                         | KInt z => inr (inl z) | KTime t => inr (inr t) end)
    (fun x => match x with inl (inl _) => KNull | inl (inr s) => KText s
                         | inr (inl z) => KInt z | inr (inr t) => KTime t end) _).
  by intros [].
Defined.

Abbreviation key := (list key_part).
Abbreviation table := (gmap key row_t).

(** A value of a key column; any other is refused by the server. *)
Definition key_part_of (p : db_param) : res key_part :=
  match p with
  | Scalar VNone => Ok KNull
  | Scalar (VStr s) => Ok (KText s)
  | Scalar (VInt z) => Ok (KInt z)
  | Scalar (VTime t) => Ok (KTime (instant t))
  | _ => Raise (PgError "DatatypeMismatch" false "42804" "column and expression differ in type")
  end.

Fixpoint mapM_res {A B} (f : A -> res B) (l : list A) : res (list B) :=
  match l with
  | [] => Ok []
  | x :: l => y ← f x; ys ← mapM_res f l; Ok (y :: ys)
  end.

Definition key_of (columns : list string) (r : row_t) : res key :=
  mapM_res (fun c => key_part_of (cell c r)) columns.

Definition is_null (p : db_param) : bool :=
  match p with Scalar VNone => true | _ => false end.

(** The key under which a row that has one is stored. *)
Definition part_of (p : db_param) : key_part :=
  match key_part_of p with Ok k => k | Raise _ => KNull end.

(** SQL's [a <= b] of two [timestamptz] or two [bigint] columns, the types the statements
    compare: false when either is NULL. *)
Definition sql_le (a b : db_param) : bool :=
  match a, b with
  | Scalar (VTime s), Scalar (VTime t) => instant s <=? instant t
  | Scalar (VInt m), Scalar (VInt n) => m <=? n
  | _, _ => false
  end.

(** ** Statements *)

(** [col = EXCLUDED.col, ...] *)
Definition set_excluded (columns : list string) (new old : row_t) : row_t :=
  foldr (fun c r => <[c := cell c new]> r) old columns.

(** What an INSERT does when the key is taken. *)
Inductive on_conflict :=
| Fails_unique
| DoNothing
| DoUpdate (set : row_t -> row_t -> row_t) (guard : row_t -> row_t -> bool).

(** A table's declaration: its columns that cannot be NULL and the columns of its key. *)
Record insert_into := InsertInto { not_null : list string; key_columns : list string }.

Definition not_null_violation (c : string) : exn :=
  PgError "NotNullViolation" false "23502" ("null value in column " +:+ c).

Definition check_not_null (columns : list string) (r : row_t) : res unit :=
  match filter (fun c => is_null (cell c r) = true) columns with
  | [] => Ok tt
  | c :: _ => Raise (not_null_violation c)
  end.

(** [INSERT ... ON CONFLICT]: the number of rows inserted or updated, and the table. *)
Definition insert_row (into : insert_into) (on : on_conflict) (new : row_t) (t : table) : res (Z * table) :=
  check_not_null (not_null into) new ≫= fun _ =>
  k ← key_of (key_columns into) new;
  match t !! k, on with
  | None, _ => Ok (1, <[k := new]> t)
  | Some _, Fails_unique => Raise (PgError "UniqueViolation" false "23505" "duplicate key value")
  | Some _, DoNothing => Ok (0, t)
  | Some old, DoUpdate set guard =>
      if guard old new then Ok (1, <[k := set new old]> t) else Ok (0, t)
  end.

(** ** Partitions *)

Record partition := Partition { p_table : string; p_name : string; p_from : Z; p_to : Z }.

#[export] Instance partition_eq_dec : EqDecision partition.
Proof. solve_decision. Defined.

Record database := Db { tables : gmap string table; partitions : list partition }.

Definition table_of (n : string) (d : database) : table := default ∅ (tables d !! n).
Definition set_table (n : string) (t : table) (d : database) : database :=
  Db (<[n := t]> (tables d)) (partitions d).
Definition set_partitions (ps : list partition) (d : database) : database := Db (tables d) ps.

Definition holds (p : partition) (n : string) (us : Z) : bool :=
  bool_decide (p_table p = n) && (p_from p <=? us) && (us <? p_to p).

(** Some partition of the table takes a row of that time. *)
Definition routed (n : string) (us : Z) (d : database) : bool :=
  existsb (fun p => holds p n us) (partitions d).

Definition no_partition (n : string) : exn :=
  PgError "CheckViolation" false "23514" ("no partition of relation " +:+ n +:+ " found for row").

(** The instant in a row's partition column. *)
Definition row_time (column : string) (r : row_t) : Z :=
  match cell column r with Scalar (VTime t) => instant t | _ => 0 end.

(** [INSERT] into a table, partitioned on [range] if that is a column. *)
Definition insert (n : string) (range : option string) (into : insert_into) (on : on_conflict)
    (new : row_t) (d : database) : res (Z * database) :=
  if match range with Some c => negb (routed n (row_time c new) d) | None => false end
  then Raise (no_partition n)
  else '(w, t) ← insert_row into on new (table_of n d); Ok (w, set_table n t d).

(** [executemany]: the parameters one after the other, the counts added up. *)
Fixpoint insert_many {P} (ins : P -> database -> res (Z * database)) (rows : list P) (d : database)
    : res (Z * database) :=
  match rows with
  | [] => Ok (0, d)
  | r :: rows => '(w, d) ← ins r d; '(ws, d) ← insert_many ins rows d; Ok (w + ws, d)
  end.

Definition relation_exists (name : string) (d : database) : bool :=
  existsb (fun p => bool_decide (p_name p = name)) (partitions d).

Definition overlaps (p q : partition) : bool :=
  bool_decide (p_table p = p_table q) && (p_from p <? p_to q) && (p_from q <? p_to p).

(** [CREATE TABLE IF NOT EXISTS name PARTITION OF n FOR VALUES FROM a TO b] *)
Definition create_partition (p : partition) (d : database) : res (unit * database) :=
  if relation_exists (p_name p) d then Ok (tt, d)
  else if existsb (overlaps p) (partitions d) then
    Raise (PgError "InvalidObjectDefinition" false "42P17" "partition would overlap")
  else Ok (tt, set_partitions (partitions d ++ [p]) d).

(** Detaching a partition and dropping it: its rows are gone with it. *)
Definition drop_partition (n name column : string) (d : database) : database :=
  let '(gone, kept) := (filter (fun p => p_name p = name) (partitions d),
                        filter (fun p => p_name p <> name) (partitions d)) in
  set_partitions kept
    (set_table n (filter (fun kr => existsb (fun p => holds p n (row_time column kr.2)) gone = false)
                    (table_of n d)) d).

(** ** Sessions *)

Record conn := Conn { c_closed : bool; c_broken : bool; c_idle : bool }.
Definition healthy : conn := Conn false false true.

(** How the server answers one request: it carries it out; it does not, and the exception
    leaves the connection as [c]; or, a COMMIT, it does but the reply is lost with the
    connection. *)
Inductive answer :=
| Done
| Fails (e : exn) (c : conn)
| Lost (msg : string) (c : conn).

Definition lost_exn (msg : string) : exn := PgError "OperationalError" true "" msg.

Record session := Session { data : database; answers : list answer; link : option conn }.

Definition set_data d (s : session) : session := Session d (answers s) (link s).
Definition set_conn c (s : session) : session := Session (data s) (answers s) c.
Definition set_answers l (s : session) : session := Session (data s) l (link s).

Abbreviation SM := (M session).

(** [conn.execute]: one statement; one that breaks a constraint changes nothing. *)
Definition execute {A} (f : database -> res (A * database)) : SM A := fun s =>
  match answers s with
  | Fails e c :: l => (Raise e, set_conn (Some c) (set_answers l s))
  | Lost m c :: l => (Raise (lost_exn m), set_conn (Some c) (set_answers l s))
  | _ => let s := set_answers (tail (answers s)) s in
         match f (data s) with
         | Ok (a, d) => (Ok a, set_data d s)
         | Raise e => (Raise e, s)
         end
  end.

(** A statement that changes no table. *)
Definition no_change : database -> res (unit * database) := fun d => Ok (tt, d).

(** COMMIT (or the release of a savepoint) of what was done since [saved]. *)
Definition commit {A} (saved : database) (a : A) : SM A := fun s =>
  match answers s with
  | Fails e c :: l => (Raise e, set_data saved (set_conn (Some c) (set_answers l s)))
  | Lost m c :: l => (Raise (lost_exn m), set_conn (Some c) (set_answers l s))
  | _ => (Ok a, set_answers (tail (answers s)) s)
  end.

(** [with conn.transaction(): body]: all of the body's changes or, after an exception, none. *)
Definition transaction {A} (body : SM A) : SM A := fun s =>
  let saved := data s in
  bind (execute no_change)
       (fun _ s1 => match body s1 with
                    | (Ok a, s2) => commit saved a s2
                    | (Raise e, s2) => (Raise e, set_data saved s2)
                    end) s.

(** [connect]: a new session with the same server. *)
Definition open_session : SM unit := fun s =>
  match answers s with
  | Fails e _ :: l => (Raise e, set_answers l s)
  | Lost m _ :: l => (Raise (lost_exn m), set_answers l s)
  | _ => (Ok tt, set_conn (Some healthy) (set_answers (tail (answers s)) s))
  end.

(** [if self._conn is None or self._conn.closed: self._conn = connect(...)] *)
Definition reconnect : SM unit := fun s =>
  match link s with
  | Some c => if c_closed c then open_session s else (Ok tt, s)
  | None => open_session s
  end.

(** ** Reasoning about sessions

    What holds of the data whatever the server answers. *)

Section Sessions.
Context (I : database -> Prop).

Definition on_data (s : session) : Prop := I (data s).

Lemma keeps_execute {A} (f : database -> res (A * database)) :
  (forall d a d', I d -> f d = Ok (a, d') -> I d') -> keeps on_data (execute f).
Proof.
  intros H s Hs. unfold execute, on_data in *.
  destruct (answers s) as [|[|e c|e c] l]; cbn; try done;
    destruct (f (data s)) as [[a d]|e'] eqn:E; cbn; try done; by eapply H.
Qed.

Lemma keeps_no_change : keeps on_data (execute no_change).
Proof. apply keeps_execute. by intros d a d' ? [= _ <-]. Qed.

Lemma keeps_read {A} (f : database -> A) : keeps on_data (execute (fun d => Ok (f d, d))).
Proof. apply keeps_execute. by intros d a d' ? [= _ <-]. Qed.

(** A transaction that fails leaves the data as it found it. *)
Lemma hoare_transaction {A} (body : SM A) (Q : A -> database -> Prop) :
  hoare on_data body (fun r s => match r with Ok a => Q a (data s) | Raise _ => True end) ->
  hoare on_data (transaction body)
    (fun r s => match r with Ok a => Q a (data s) | Raise _ => I (data s) \/ exists a, Q a (data s) end).
Proof.
  intros Hb s Hs. unfold transaction, bind.
  pose proof (keeps_no_change s Hs) as H1. destruct (execute no_change s) as [[[]|e] s1]; cbn in *; [|by left].
  specialize (Hb s1 H1). destruct (body s1) as [[a|e] s2]; cbn in *; [|by left].
  unfold commit. destruct (answers s2) as [|[|e c|e c] l]; cbn; eauto.
Qed.

Lemma keeps_transaction {A} (body : SM A) :
  hoare on_data body (fun r s => match r with Ok _ => on_data s | Raise _ => True end) ->
  keeps on_data (transaction body).
Proof.
  intros H. eapply hoare_post; [apply (hoare_transaction body (fun _ => I)), H|].
  intros [a|e] s; cbn; [done|]. by intros [?|[_ ?]].
Qed.

Lemma keeps_transaction' {A} (body : SM A) : keeps on_data body -> keeps on_data (transaction body).
Proof. intros H. apply keeps_transaction. eapply hoare_post; [exact H|]. by intros []. Qed.

Lemma keeps_open : keeps on_data open_session.
Proof. intros s Hs. unfold open_session. by destruct (answers s) as [|[] ?]. Qed.

Lemma keeps_reconnect : keeps on_data reconnect.
Proof.
  intros s Hs. unfold reconnect. destruct (link s) as [c|]; [destruct (c_closed c)|]; auto using keeps_open.
Qed.
End Sessions.

#[export] Hint Resolve keeps_execute keeps_no_change keeps_read keeps_transaction' keeps_open keeps_reconnect : nm.

(** A session with nothing wrong ahead: every request is carried out. *)
Definition quiet (s : session) : Prop := answers s = [].

Lemma execute_quiet {A} (f : database -> res (A * database)) s :
  quiet s -> execute f s = match f (data s) with Ok (a, d) => (Ok a, set_data d s) | Raise e => (Raise e, s) end.
Proof. intros Hq. unfold execute, quiet in *. destruct s as [d a l]. cbn in *. by subst. Qed.

Lemma transaction_quiet {A} (body : SM A) s s' r :
  quiet s -> body s = (r, s') -> quiet s' ->
  transaction body s = match r with Ok a => (Ok a, s') | Raise e => (Raise e, set_data (data s) s') end.
Proof.
  intros Hq Hb Hq'. unfold transaction, bind. rewrite execute_quiet by done. cbn.
  replace (set_data (data s) s) with s by by destruct s. rewrite Hb.
  destruct r; [|done]. unfold commit, quiet in *. rewrite Hq'. cbn. destruct s'. cbn in *. by subst.
Qed.

(** ** Tables *)

Lemma set_excluded_lookup columns new old c :
  set_excluded columns new old !! c = if decide (c ∈ columns) then Some (cell c new) else old !! c.
Proof.
  unfold set_excluded. induction columns as [|c' cs IH]; cbn.
  - by rewrite decide_False by set_solver.
  - destruct (decide (c = c')) as [->|Hne].
    + rewrite lookup_insert_eq, decide_True by set_solver. done.
    + rewrite lookup_insert_ne by congruence. rewrite IH.
      destruct (decide (c ∈ cs)); [rewrite decide_True by set_solver | rewrite decide_False by set_solver]; done.
Qed.

Lemma cell_set_excluded columns new old c :
  cell c (set_excluded columns new old) = if decide (c ∈ columns) then cell c new else cell c old.
Proof. unfold cell at 1. rewrite set_excluded_lookup. by case_decide. Qed.

Lemma set_table_set_table n t t' d : set_table n t (set_table n t' d) = set_table n t d.
Proof. unfold set_table. cbn. by rewrite insert_insert_eq. Qed.

Lemma table_of_set_table n m t d : table_of n (set_table m t d) = if decide (n = m) then t else table_of n d.
Proof.
  unfold table_of, set_table. cbn. case_decide as E; [subst; by rewrite lookup_insert_eq|].
  by rewrite lookup_insert_ne.
Qed.

(** ** When the server carries everything out

    [calm b]: if [b], nothing goes wrong from here on.  A triple whose exceptional outcome is
    [b = false] says that only the server can make the code raise. *)

Section Calm.
Context (b : bool).

Definition calm (s : session) : Prop := b = true -> answers s = [].

Lemma calm_fails (s : session) a l : calm s -> answers s = a :: l -> b = false.
Proof. unfold calm. intros H E. destruct b; [|done]. by rewrite H in E. Qed.

Lemma hoare_execute {A} (f : database -> res (A * database)) (I : database -> Prop) (J : A -> database -> Prop) :
  (forall d, I d -> exists a d', f d = Ok (a, d') /\ J a d') ->
  hoare (fun s => I (data s) /\ calm s) (execute f)
    (fun r s => match r with Ok a => J a (data s) /\ calm s | Raise _ => b = false /\ I (data s) end).
Proof.
  intros H s [HI Hc]. destruct (H _ HI) as (a & d' & E & HJ). unfold execute.
  destruct (answers s) as [|[|e c|e c] l] eqn:Ea; cbn; rewrite ?E; cbn.
  - done.
  - split; [done|]. intros Hb. by rewrite (Hc Hb) in Ea.
  - split; [by eapply calm_fails | done].
  - split; [by eapply calm_fails | done].
Qed.

Lemma hoare_transaction_calm {A} (body : SM A) (I : database -> Prop) (J : A -> database -> Prop) :
  hoare (fun s => I (data s) /\ calm s) body
    (fun r s => match r with Ok a => J a (data s) /\ calm s | Raise _ => b = false end) ->
  hoare (fun s => I (data s) /\ calm s) (transaction body)
    (fun r s => match r with Ok a => J a (data s) /\ calm s
                           | Raise _ => b = false /\ (I (data s) \/ exists a, J a (data s)) end).
Proof.
  intros Hb s Hs. unfold transaction, bind.
  pose proof (hoare_execute no_change I (fun _ => I) ltac:(intros d Hd; by exists tt, d) s Hs) as H1.
  destruct (execute no_change s) as [[[]|e] s1]; cbn in *; [|naive_solver].
  specialize (Hb s1 H1). destruct (body s1) as [[a|e] s2]; cbn in *.
  - destruct Hb as [HJ Hc]. unfold commit. destruct (answers s2) as [|[|e c|e c] l] eqn:Ea; cbn.
    + done.
    + split; [done|]. intros Hb. by rewrite (Hc Hb) in Ea.
    + split; [by eapply calm_fails | left; apply Hs].
    + split; [by eapply calm_fails | by right; exists a].
  - split; [done | left; apply Hs].
Qed.
End Calm.
