(* ===== verification/Maintenance.v ===== *)
(** * Monthly partitions

    [node_monitor/database/maintenance.py]: creating the partitions of the coming months,
    dropping the expired ones, and the collector's heartbeat row. *)

From S2P Require Import Prelude PyFloat PyTime PyVal Codec Sql.

Open Scope py_scope.

Definition _SCHEMA : string := "node_monitor".

(** [RetentionConfig] *)
Record retention := Retention {
  node_metrics_days : Z;
  usage_summary_days : Z;
  collection_events_days : Z;
}.

(** The tables with the retention of each, [getattr(retention, attr)]. *)
Definition PARTITIONED : list (string * (retention -> Z)) :=
  [("node_metrics_1m", node_metrics_days); ("user_usage_5m", usage_summary_days);
   ("node_usage_5m", usage_summary_days); ("collection_events", collection_events_days)].

Definition PARTITION_KEY : list (string * string) :=
  [("node_metrics_1m", "minute"); ("user_usage_5m", "interval_start");
   ("node_usage_5m", "interval_start"); ("collection_events", "ts")].

Definition partition_key (table : string) : string := default "" (dget table PARTITION_KEY).

(** The two statements that only prepare a transaction: the cap on lock waits, and the
    advisory lock that keeps two collectors from creating one partition at once. *)
Definition _set_local_lock_timeout : SM unit := execute no_change.
Definition advisory_lock (table : string) : SM unit := execute no_change.

(** ** Months *)

(** [_month_floor] of a time in a year Python can hold. *)
Definition _month_floor (ts : datetime) : res datetime :=
  ts ← require_aware ts;
  let d := date_of (utc (instant ts)) in
  Ok (utc_date (Civil (c_year d) (c_month d) 1)).

(** [_next_month] of the first instant of a month. *)
Definition _next_month (start : datetime) : res datetime :=
  let d := date_of start in
  if c_month d =? 12 then
    if c_year d =? 9999 then Raise (ValueError "year 10000 is out of range")
    else Ok (utc_date (Civil (c_year d + 1) 1 1))
  else Ok (utc_date (Civil (c_year d) (c_month d + 1) 1)).

Definition name_of_month (table : string) (start : datetime) : string :=
  table +:+ "_y" +:+ pad 4 (c_year (date_of start)) +:+ "m" +:+ pad 2 (c_month (date_of start)).

Definition partition_name (table : string) (month_start : datetime) : res string :=
  start ← _month_floor month_start; Ok (name_of_month table start).

(** ** Creating *)

(** The partition of a month, as [CREATE TABLE ... FOR VALUES FROM start TO next] declares it. *)
Definition month_partition (table : string) (start next : datetime) : partition :=
  Partition table (name_of_month table start) (instant start) (instant next).

Definition ensure_partition (table : string) (month_start : datetime) : SM bool :=
  let* start := lift (_month_floor month_start) in
  let* name := lift (partition_name table start) in
  transaction (
    _set_local_lock_timeout ;;;
    advisory_lock table ;;;
    let* exists_ := execute (fun d => Ok (relation_exists name d, d)) in
    if exists_ then ret false
    else let* next := lift (_next_month start) in
         execute (create_partition (month_partition table start next)) ;;;
         ret true).

(** [months]: [start] and the [n] months after it. *)
Fixpoint months_from (n : nat) (start : datetime) : res (list datetime) :=
  match n with
  | O => Ok [start]
  | S n => next ← _next_month start; l ← months_from n next; Ok (start :: l)
  end.

Definition ensure_partitions (now : datetime) (months_ahead : nat) : SM (list string) :=
  let* month := lift (_month_floor now) in
  let* months := lift (months_from months_ahead month) in
  foldM (fun created table =>
    foldM (fun created start =>
      let* made := ensure_partition table start in
      if made then let* n := lift (partition_name table start) in ret (created ++ [n])
      else ret created) created months) [] (map fst PARTITIONED).

(** ** Retention *)

Definition _attached_partitions (table : string) : SM (list string) :=
  execute (fun d => Ok (merge_sort String.le
    (map p_name (filter (fun p => p_table p = table) (partitions d))), d)).

(** [name.startswith(table + "_y")] and [_PARTITION_SUFFIX.fullmatch] of the rest: the year
    and the month the name says. *)
Fixpoint drop_prefix (p s : string) : option string :=
  match p, s with
  | EmptyString, _ => Some s
  | String a p, String b s => if decide (a = b) then drop_prefix p s else None
  | _, _ => None
  end.

Definition _PARTITION_SUFFIX (s : string) : option (Z * Z) :=
  s ← drop_prefix "_y" s; '(y, s) ← unpad 4 0 s;
  s ← expect "m"%char s; '(m, s) ← unpad 2 0 s;
  match s with "" => Some (y, m) | _ => None end.

Definition partition_month (table name : string) : option (Z * Z) :=
  drop_prefix table name ≫= _PARTITION_SUFFIX.

(** [datetime(y, m, 1, tzinfo=timezone.utc)] *)
Definition first_of_month (y m : Z) : res datetime :=
  if (1 <=? y) && (1 <=? m) && (m <=? 12) then Ok (utc_date (Civil y m 1))
  else Raise (ValueError "month must be in 1..12").

Definition is_lock_not_available (e : exn) : bool :=
  match e with PgError cls _ _ _ => bool_decide (cls = "LockNotAvailable") | _ => false end.

(** [start >= current or _next_month(start) > cutoff] is the negation. *)
Definition expired (current cutoff start : datetime) : res bool :=
  if instant current <=? instant start then Ok false
  else next ← _next_month start; Ok (instant next <=? instant cutoff).

Definition drop_one (table name : string) : SM unit :=
  transaction (
    _set_local_lock_timeout ;;;
    execute no_change ;;;                                   (* DETACH *)
    execute (fun d => Ok (tt, drop_partition table name (partition_key table) d))).

(** One partition of the loop of [apply_retention]; [(dropped, skipped)] so far. *)
Definition retire (current cutoff : datetime) (table : string) (acc : list string * list string) (name : string)
    : SM (list string * list string) :=
  match partition_month table name with
  | None => ret acc
  | Some (y, m) =>
      let* start := lift (first_of_month y m) in
      let* due := lift (expired current cutoff start) in
      if due then
        try_except (drop_one table name ;;; ret (acc.1 ++ [name], acc.2))
          (fun e => if is_lock_not_available e then Some (ret (acc.1, acc.2 ++ [name])) else None)
      else ret acc
  end.

(** [now - timedelta(days=days)] *)
Definition cutoff_of (now : datetime) (days : Z) : datetime := add_us now (- (days * day_us)).

Definition apply_retention (now : datetime) (r : retention) : SM (list string * list string) :=
  lift (require_aware now) ;;;
  let* current := lift (_month_floor now) in
  foldM (fun acc ta =>
    let cutoff := cutoff_of now (ta.2 r) in
    let* names := _attached_partitions ta.1 in
    foldM (retire current cutoff ta.1) acc names) ([], []) PARTITIONED.

(** ** Heartbeat and the daily run *)

Definition heartbeat_columns : list string :=
  ["system"; "collector_host"; "version"; "started_at"; "last_seen"; "status"].

Definition heartbeat_into : insert_into :=
  InsertInto ["system"; "collector_host"; "version"; "started_at"; "last_seen"; "status"] ["system"].

Definition write_heartbeat (system collector_host version : string) (started_at now : datetime)
    (status : dict) : SM unit :=
  lift (require_aware started_at) ;;;
  lift (require_aware now) ;;;
  execute (insert "collector_heartbeat" None heartbeat_into
    (DoUpdate (set_excluded ["collector_host"; "version"; "started_at"; "last_seen"; "status"])
       (fun _ _ => true))
    (bind_row heartbeat_columns
       [Scalar (VStr system); Scalar (VStr collector_host); Scalar (VStr version);
        Scalar (VTime started_at); Scalar (VTime now); to_db_value (VDict status)])) ;;;
  ret tt.

Record maintained := Maintained { created : list string; dropped : list string; skipped : list string }.

Definition run (now : datetime) (r : retention) : SM maintained :=
  let* made := ensure_partitions now 2 in
  let* ds := apply_retention now r in
  ret (Maintained made ds.1 ds.2).

(** ** The months, by index: month [k] is month [k mod 12 + 1] of year [k / 12]. *)
Definition month_start (k : Z) : datetime := utc_date (Civil (k / 12) (k mod 12 + 1) 1).
Definition month_index (c : civil) : Z := 12 * c_year c + c_month c - 1.

Lemma days_of_civil_day y m d : days_of_civil (Civil y m d) = days_of_civil (Civil y m 1) + d - 1.
Proof. unfold days_of_civil. cbn. destruct (m <=? 2), (2 <? m); lia. Qed.

Lemma days_of_civil_shift y m d n :
  days_of_civil (Civil (y + 400 * n) m d) = days_of_civil (Civil y m d) + 146097 * n.
Proof.
  unfold days_of_civil. cbn.
  assert (H : forall z, (z + 400 * n) / 400 = z / 400 + n /\ (z + 400 * n) mod 400 = z mod 400).
  { intros z. replace (z + 400 * n) with (z + n * 400) by ring. by rewrite Z.div_add, Z.mod_add by lia. }
  destruct (m <=? 2).
  - replace (y + 400 * n - 1) with (y - 1 + 400 * n) by ring. destruct (H (y - 1)) as [-> ->]. ring.
  - destruct (H y) as [-> ->]. ring.
Qed.

Lemma civil_of_days_shift days n :
  civil_of_days (days + 146097 * n)
  = let c := civil_of_days days in Civil (c_year c + 400 * n) (c_month c) (c_day c).
Proof.
  unfold civil_of_days. replace (days + 146097 * n + 719468) with (days + 719468 + n * 146097) by ring.
  rewrite Z.div_add, Z.mod_add by lia. unfold civil_of_doe. cbn. f_equal. ring.
Qed.

(** The day a civil date is, for the first days of the months of one era. *)
Lemma era_months : forallb (fun k => bool_decide (
    civil_of_days (days_of_civil (Civil (k / 12) (k mod 12 + 1) 1)) = Civil (k / 12) (k mod 12 + 1) 1)
    && (days_of_civil (Civil (k / 12) (k mod 12 + 1) 1)
        <? days_of_civil (Civil ((k + 1) / 12) ((k + 1) mod 12 + 1) 1)))
  (map Z.of_nat (seq 0 4800)) = true.
Proof. vm_compute. reflexivity. Qed.

Lemma doe_year_end doe :
  0 <= doe < 146097 ->
  let yoe := (doe - doe / 1460 + doe / 36524 - doe / 146096) / 365 in
  doe < 365 * (yoe + 1) + (yoe + 1) / 4 - (yoe + 1) / 100 + (yoe + 1) / 400.
Proof. intros H yoe. unfold yoe. Z.to_euclidean_division_equations; lia. Qed.

(** The first day of the month [mp] months after March of year [yoe] of the era. *)
Lemma days_of_month yoe mp :
  0 <= yoe < 400 -> 0 <= mp < 12 ->
  let k := 12 * yoe + mp + 2 in
  days_of_civil (Civil (k / 12) (k mod 12 + 1) 1)
  = 365 * yoe + yoe / 4 - yoe / 100 + (153 * mp + 2) / 5 - 719468.
Proof.
  intros Hy Hm k. unfold days_of_civil. cbn [c_year c_month c_day].
  destruct (Z.leb_spec mp 9).
  - assert (k / 12 = yoe /\ k mod 12 + 1 = mp + 3) as [-> ->] by (unfold k; Z.to_euclidean_division_equations; lia).
    rewrite (proj2 (Z.leb_gt (mp + 3) 2)), (proj2 (Z.ltb_lt 2 (mp + 3))) by lia.
    rewrite (Z.div_small yoe), (Z.mod_small yoe) by lia. replace (mp + 3 - 3) with mp by lia. lia.
  - assert (k / 12 = yoe + 1 /\ k mod 12 + 1 = mp - 9) as [-> ->] by (unfold k; Z.to_euclidean_division_equations; lia).
    rewrite (proj2 (Z.leb_le (mp - 9) 2)), (proj2 (Z.ltb_ge 2 (mp - 9))) by lia.
    replace (yoe + 1 - 1) with yoe by lia. replace (mp - 9 + 9) with mp by lia.
    rewrite (Z.div_small yoe), (Z.mod_small yoe) by lia. lia.
Qed.

Lemma days_of_march yoe :
  0 <= yoe < 400 ->
  days_of_civil (Civil (yoe + 1) 3 1)
  = 365 * (yoe + 1) + (yoe + 1) / 4 - (yoe + 1) / 100 + (yoe + 1) / 400 - 719468.
Proof.
  intros Hy. unfold days_of_civil. cbn [c_year c_month c_day Z.leb Z.ltb Z.compare Pos.compare Pos.compare_cont].
  Z.to_euclidean_division_equations; lia.
Qed.

(** A day comes before the first day of the month after its own. *)
Lemma doe_next doe :
  0 <= doe < 146097 ->
  let k := month_index (civil_of_doe 0 doe) in
  doe - 719468 < days_of_civil (Civil ((k + 1) / 12) ((k + 1) mod 12 + 1) 1).
Proof.
  intros H k. pose proof (doe_ranges doe H) as [Hy Hd]. pose proof (doe_year_end doe H) as He. cbv zeta in *.
  subst k. unfold civil_of_doe, month_index. cbn [c_year c_month]. cbv zeta.
  set (yoe := (doe - _ + _ - _) / 365) in *. set (doy := doe - (365 * yoe + _ - _)) in *.
  assert (0 <= (5 * doy + 2) / 153 <= 11) as Hm by (Z.to_euclidean_division_equations; lia).
  assert (doy < (153 * ((5 * doy + 2) / 153 + 1) + 2) / 5) as Hdm by (Z.to_euclidean_division_equations; lia).
  set (mp := (5 * doy + 2) / 153) in *. clearbody yoe mp. assert (doe = 365 * yoe + yoe / 4 - yoe / 100 + doy) by lia.
  clearbody doy. subst doe.
  assert (Ek : 12 * (yoe + 0 * 400 + (if (if mp <? 10 then mp + 3 else mp - 9) <=? 2 then 1 else 0))
      + (if mp <? 10 then mp + 3 else mp - 9) - 1 + 1 = 12 * yoe + (mp + 1) + 2).
  { destruct (Z.ltb_spec mp 10); [destruct (Z.leb_spec (mp + 3) 2) | destruct (Z.leb_spec (mp - 9) 2)]; lia. }
  rewrite Ek. destruct (Z.eqb_spec mp 11) as [->|].
  - replace (12 * yoe + (11 + 1) + 2) with (12 * (yoe + 1) + 2) by ring.
    assert (((12 * (yoe + 1) + 2) / 12 = yoe + 1) /\ (12 * (yoe + 1) + 2) mod 12 + 1 = 3) as [-> ->]
      by (Z.to_euclidean_division_equations; lia).
    rewrite days_of_march by done. lia.
  - rewrite days_of_month by lia. lia.
Qed.

Lemma era_month r : 0 <= r < 4800 ->
  civil_of_days (days_of_civil (Civil (r / 12) (r mod 12 + 1) 1)) = Civil (r / 12) (r mod 12 + 1) 1 /\
  days_of_civil (Civil (r / 12) (r mod 12 + 1) 1) < days_of_civil (Civil ((r + 1) / 12) ((r + 1) mod 12 + 1) 1).
Proof.
  intros Hr. pose proof (proj1 (forallb_forall _ _) era_months r) as H.
  destruct (andb_prop _ _ (H ltac:(apply in_map_iff; exists (Z.to_nat r); rewrite in_seq; lia))) as [H1 H2].
  split; [by apply bool_decide_eq_true in H1 | by apply Z.ltb_lt].
Qed.

Lemma month_split k : exists n r, 0 <= r < 4800 /\ k / 12 = r / 12 + 400 * n /\ k mod 12 = r mod 12 /\
  (k + 1) / 12 = (r + 1) / 12 + 400 * n /\ (k + 1) mod 12 = (r + 1) mod 12.
Proof.
  exists (k / 4800), (k mod 4800). pose proof (Z.div_mod k 4800 ltac:(lia)) as E.
  pose proof (Z.mod_pos_bound k 4800 ltac:(lia)). split; [done|].
  set (r := k mod 4800) in *. set (n := k / 4800) in *. clearbody r n. subst k.
  Z.to_euclidean_division_equations; lia.
Qed.

Lemma date_of_month_start k : date_of (month_start k) = Civil (k / 12) (k mod 12 + 1) 1.
Proof.
  destruct (month_split k) as (n & r & Hr & E1 & E2 & _). unfold date_of, month_start, utc_date, utc. cbn [dt_us].
  rewrite E1, E2, days_of_civil_shift, Z.div_mul by done.
  rewrite civil_of_days_shift. by destruct (era_month r Hr) as [-> _].
Qed.

Lemma month_start_succ k : instant (month_start k) < instant (month_start (k + 1)).
Proof.
  destruct (month_split k) as (n & r & Hr & E1 & E2 & E3 & E4).
  unfold instant, month_start, utc_date, utc. cbn [dt_us dt_off default].
  rewrite E1, E2, E3, E4, !days_of_civil_shift. destruct (era_month r Hr) as [_ H].
  assert (0 < day_us) by done. nia.
Qed.

Lemma month_start_mono k l : k < l -> instant (month_start k) < instant (month_start l).
Proof.
  intros H. replace l with (k + Z.of_nat (Z.to_nat (l - k))) by lia.
  assert (0 < Z.to_nat (l - k))%nat by lia. induction (Z.to_nat (l - k)) as [|n IH]; [lia|].
  destruct n; [apply (month_start_succ k)|].
  etrans; [apply IH; lia|]. replace (k + Z.of_nat (S (S n))) with (k + Z.of_nat (S n) + 1) by lia.
  apply month_start_succ.
Qed.

Lemma month_start_le k l : k <= l -> instant (month_start k) <= instant (month_start l).
Proof. intros [H|<-]%Z.lt_eq_cases; [by apply Z.lt_le_incl, month_start_mono | lia]. Qed.

(** The index of the UTC month of a time. *)
Definition month_of (ts : datetime) : Z := month_index (date_of (utc (instant ts))).

Lemma month_of_bounds ts :
  instant (month_start (month_of ts)) <= instant ts < instant (month_start (month_of ts + 1)).
Proof.
  unfold month_of. set (us := instant ts). clearbody us.
  unfold date_of, utc. cbn [dt_us]. set (days := us / day_us).
  pose proof (Z.div_mod us day_us ltac:(done)) as E. pose proof (Z.mod_pos_bound us day_us ltac:(done)) as Hr.
  fold days in E.
  assert (days_of_civil (Civil (c_year (civil_of_days days)) (c_month (civil_of_days days)) 1) <= days
          < days_of_civil (Civil ((month_index (civil_of_days days) + 1) / 12)
                             ((month_index (civil_of_days days) + 1) mod 12 + 1) 1)) as [H1 H2].
  { split.
    - pose proof (days_of_civil_of_days days) as Hd. pose proof (civil_of_days_range days) as [_ Hday].
      destruct (civil_of_days days) as [y m d]. cbn in *. rewrite days_of_civil_day in Hd. lia.
    - pose proof (Z.div_mod (days + 719468) 146097 ltac:(lia)) as Ed.
      pose proof (Z.mod_pos_bound (days + 719468) 146097 ltac:(lia)) as Hdoe.
      set (n := (days + 719468) / 146097) in *. set (doe := (days + 719468) mod 146097) in *.
      pose proof (doe_next doe Hdoe) as H.
      assert (days = doe - 719468 + 146097 * n) as Hdays by lia.
      rewrite Hdays, civil_of_days_shift. cbn [c_year c_month c_day].
      assert (civil_of_days (doe - 719468) = civil_of_doe 0 doe) as ->.
      { unfold civil_of_days. replace (doe - 719468 + 719468) with doe by ring.
        by rewrite Z.div_small, Z.mod_small. }
      destruct (civil_of_doe 0 doe) as [y m d]. cbv zeta in *. unfold month_index in *. cbn [c_year c_month] in *.
      replace (12 * (y + 400 * n) + m - 1 + 1) with (12 * y + m - 1 + 1 + 400 * n * 12) by ring.
      rewrite Z.div_add, Z.mod_add, days_of_civil_shift by lia. lia. }
  assert (Hk : month_start (month_index (civil_of_days days))
          = utc_date (Civil (c_year (civil_of_days days)) (c_month (civil_of_days days)) 1)).
  { unfold month_start, month_index. pose proof (civil_of_days_range days) as [Hm _].
    destruct (civil_of_days days) as [y m d]. cbn in *. f_equal. f_equal; Z.to_euclidean_division_equations; lia. }
  rewrite Hk. unfold month_start, instant, utc_date, utc. cbn [dt_us dt_off].
  change (default 0 (Some 0)) with 0. rewrite !Z.mul_0_l, !Z.sub_0_r.
  change day_us with 86400000000 in *. lia.
Qed.

Lemma month_of_eq ts k :
  instant (month_start k) <= instant ts < instant (month_start (k + 1)) -> month_of ts = k.
Proof.
  intros H. pose proof (month_of_bounds ts) as H'.
  destruct (Z.lt_trichotomy (month_of ts) k) as [?|[?|?]]; [|done|]; exfalso.
  - pose proof (month_start_le (month_of ts + 1) k ltac:(lia)). lia.
  - pose proof (month_start_le (k + 1) (month_of ts) ltac:(lia)). lia.
Qed.

Lemma month_of_start k : month_of (month_start k) = k.
Proof. apply month_of_eq. pose proof (month_start_succ k). lia. Qed.

Lemma month_floor_start ts : is_aware ts = true -> _month_floor ts = Ok (month_start (month_of ts)).
Proof.
  intros H. unfold _month_floor, require_aware. rewrite H. cbn -[date_of]. f_equal.
  unfold month_start, month_of, month_index. pose proof (civil_of_days_range (dt_us (utc (instant ts)) / day_us)) as [Hm _].
  unfold date_of in *. destruct (civil_of_days _) as [y m d]. cbn [c_year c_month c_day] in *. f_equal; f_equal; Z.to_euclidean_division_equations; lia.
Qed.

(** Python has no year after 9999. *)
Definition LAST_MONTH : Z := 12 * 9999 + 11.

Lemma next_month_start k : k <> LAST_MONTH -> _next_month (month_start k) = Ok (month_start (k + 1)).
Proof.
  intros Hk. unfold _next_month, LAST_MONTH in *. rewrite date_of_month_start. cbn [c_month c_year].
  destruct (Z.eqb_spec (k mod 12 + 1) 12).
  - destruct (Z.eqb_spec (k / 12) 9999); [Z.to_euclidean_division_equations; lia|].
    unfold month_start. do 3 f_equal; Z.to_euclidean_division_equations; lia.
  - unfold month_start. do 3 f_equal; Z.to_euclidean_division_equations; lia.
Qed.

Lemma next_month_last : exists e, _next_month (month_start LAST_MONTH) = Raise e.
Proof. eexists. vm_compute. reflexivity. Qed.

(** ** Partition names *)

Lemma drop_prefix_app p s : drop_prefix p (p +:+ s) = Some s.
Proof.
  induction p as [|a p IH]; [done|]. rewrite string_app_cons. cbn. by rewrite decide_True.
Qed.

Lemma suffix_text y m : 0 <= y < 10 ^ Z.of_nat 4 -> 0 <= m < 10 ^ Z.of_nat 2 ->
  _PARTITION_SUFFIX ("_y" +:+ (pad 4 y +:+ ("m" +:+ pad 2 m))) = Some (y, m).
Proof.
  intros Hy Hm. unfold _PARTITION_SUFFIX. rewrite drop_prefix_app. cbn [mbind option_bind].
  rewrite unpad_pad by done. cbn [mbind option_bind].
  rewrite string_app_cons, string_app_nil_l, expect_app. cbn [mbind option_bind].
  rewrite <- (string_app_nil_r (pad 2 m)). rewrite unpad_pad by done. reflexivity.
Qed.

(** A name says its month. *)
Lemma partition_month_name table k :
  0 <= k / 12 < 10000 -> partition_month table (name_of_month table (month_start k)) = Some (k / 12, k mod 12 + 1).
Proof.
  intros Hy. unfold name_of_month, partition_month. rewrite date_of_month_start. cbn [c_year c_month].
  rewrite drop_prefix_app. cbn [mbind option_bind]. apply suffix_text; [exact Hy|].
  change (10 ^ Z.of_nat 2) with 100. Z.to_euclidean_division_equations. lia.
Qed.

(** [datetime(...)] of the month a name says. *)
Lemma first_of_month_ok y m start : first_of_month y m = Ok start -> start = month_start (12 * y + m - 1) /\ 1 <= m <= 12.
Proof.
  unfold first_of_month.
  destruct (Z.leb_spec 1 y), (Z.leb_spec 1 m), (Z.leb_spec m 12); cbn; try done.
  intros [= <-]. split; [|lia]. unfold month_start. do 2 f_equal; Z.to_euclidean_division_equations; lia.
Qed.

(** ** Which partitions are due

    By its name, a partition's month; due when the whole month is before the table's cutoff
    and it is not the current month or a later one. *)
Definition due (now : datetime) (r : retention) (p : partition) : Prop :=
  exists days k, (p_table p, days) ∈ PARTITIONED /\
    partition_month (p_table p) (p_name p) = Some (k / 12, k mod 12 + 1) /\
    k < month_of now /\ instant (month_start (k + 1)) <= instant (cutoff_of now (days r)).

Lemma expired_true now cutoff k :
  expired (month_start (month_of now)) cutoff (month_start k) = Ok true <->
  k < month_of now /\ k <> LAST_MONTH /\ instant (month_start (k + 1)) <= instant cutoff.
Proof.
  unfold expired. destruct (Z.leb_spec (instant (month_start (month_of now))) (instant (month_start k))) as [H|H].
  - split; [done|]. intros [H' _]. pose proof (month_start_mono _ _ H'). lia.
  - assert (k < month_of now) as Hk.
    { destruct (Z.lt_ge_cases k (month_of now)) as [?|Hge]; [done|]. pose proof (month_start_le _ _ Hge). lia. }
    destruct (decide (k = LAST_MONTH)) as [->|Hl].
    + destruct next_month_last as [e E]. rewrite E. split; [done | naive_solver].
    + rewrite next_month_start by done. cbn. split.
      * intros [= E]. apply Z.leb_le in E. naive_solver.
      * intros (_ & _ & E). apply Z.leb_le in E. by rewrite E.
Qed.

Lemma not_expired_last now cutoff :
  LAST_MONTH < month_of now ->
  expired (month_start (month_of now)) cutoff (month_start LAST_MONTH) <> Ok false.
Proof.
  intros Hk. pose proof (month_start_mono _ _ Hk) as H. unfold expired.
  rewrite (proj2 (Z.leb_gt _ _) H). destruct next_month_last as [e E]. rewrite E. discriminate.
Qed.

(** ** Retention *)

(** Partition names are unique, as relation names are. *)
Definition unique_names (d : database) : Prop := NoDup (map p_name (partitions d)).

Lemma unique_name d p q : unique_names d -> p ∈ partitions d -> q ∈ partitions d -> p_name p = p_name q -> p = q.
Proof.
  unfold unique_names. induction (partitions d) as [|x l IH]; cbn; [by intros _ ?%elem_of_nil|].
  rewrite NoDup_cons. intros [Hx Hl] Hp Hq E. apply elem_of_cons in Hp as [->|Hp], Hq as [->|Hq]; auto.
  - exfalso. apply Hx. rewrite E. by apply list_elem_of_fmap_2.
  - exfalso. apply Hx. rewrite <- E. by apply list_elem_of_fmap_2.
Qed.

Section Retention.
Context (now : datetime) (r : retention) (d0 : database) (Hu : unique_names d0).

(** [d] is [d0] without some of the partitions that are due, and without their rows. *)
Record retired (d : database) : Prop := {
  ret_parts : forall p, p ∈ partitions d -> p ∈ partitions d0;
  ret_due : forall p, p ∈ partitions d0 -> p ∉ partitions d -> due now r p;
  ret_sub : forall t k row, table_of t d !! k = Some row -> table_of t d0 !! k = Some row;
  ret_rows : forall t k row, table_of t d0 !! k = Some row -> table_of t d !! k = Some row \/
    exists p, p ∈ partitions d0 /\ due now r p /\ holds p t (row_time (partition_key t) row) = true;
}.

Lemma retired_refl : retired d0.
Proof. split; auto. by intros p ? ?. Qed.

Lemma retired_drop d t name :
  retired d -> (forall p, p ∈ partitions d0 -> p_name p = name -> due now r p) ->
  retired (drop_partition t name (partition_key t) d).
Proof.
  intros [H1 H2 H3 H4] Hd. unfold drop_partition. split; cbn [partitions set_partitions].
  - intros p [_ Hp]%list_elem_of_filter. auto.
  - intros p Hp Hn. destruct (decide (p_name p = name)); [by apply Hd|]. apply H2; [done|].
    intros Hp'. apply Hn, list_elem_of_filter. done.
  - intros n k row. change (table_of n (set_partitions ?ps ?d)) with (table_of n d).
    rewrite table_of_set_table. case_decide as E; [subst|apply H3].
    intros [Hr _]%map_lookup_filter_Some. auto.
  - intros n k row Hr. change (table_of n (set_partitions ?ps ?d)) with (table_of n d).
    rewrite table_of_set_table. destruct (H4 n k row Hr) as [Hk|]; [|by right].
    case_decide as E; [subst n|by left].
    destruct (existsb (fun p => holds p t (row_time (partition_key t) row))
                (filter (fun p => p_name p = name) (partitions d))) eqn:Ex.
    + right. apply existsb_exists in Ex as (p & Hp%list_elem_of_In & Hh).
      apply list_elem_of_filter in Hp as [Hn Hp]. exists p. auto.
    + left. by apply map_lookup_filter_Some.
Qed.

Definition attached (t name : string) : Prop := exists p, p ∈ partitions d0 /\ p_table p = t /\ p_name p = name.

Lemma due_by_name t days name y m start :
  (t, days) ∈ PARTITIONED -> attached t name -> partition_month t name = Some (y, m) ->
  first_of_month y m = Ok start -> expired (month_start (month_of now)) (cutoff_of now (days r)) start = Ok true ->
  forall p, p ∈ partitions d0 -> p_name p = name -> due now r p.
Proof.
  intros Ht (q & Hq & Hqt & Hqn) Hm Hs He p Hp Hn.
  assert (p = q) as -> by (eapply unique_name; eauto; congruence).
  apply first_of_month_ok in Hs as [-> Hmm]. apply expired_true in He as (Hk & _ & Hc).
  exists days, (12 * y + m - 1). rewrite Hqt, Hqn. split_and!; try done.
  rewrite Hm. do 2 f_equal; Z.to_euclidean_division_equations; lia.
Qed.

Lemma PARTITIONED_fun t f g : (t, f) ∈ PARTITIONED -> (t, g) ∈ PARTITIONED -> f = g.
Proof.
  unfold PARTITIONED. rewrite !elem_of_cons. intros H1 H2. destruct_or?; simplify_eq; try done; set_solver.
Qed.

Lemma not_due_by_name t days name p :
  (t, days) ∈ PARTITIONED -> attached t name -> p ∈ partitions d0 -> p_name p = name -> due now r p ->
  exists y m k, partition_month t name = Some (y, m) /\ k = 12 * y + m - 1 /\
    k < month_of now /\ instant (month_start (k + 1)) <= instant (cutoff_of now (days r)).
Proof.
  intros Ht (q & Hq & Hqt & Hqn) Hp Hn (days' & k & Ht' & Hm & Hk & Hc).
  assert (p = q) as -> by (eapply unique_name; eauto; congruence).
  rewrite Hqt, Hqn in *. assert (days' = days) as -> by (eapply PARTITIONED_fun; eauto).
  exists (k / 12), (k mod 12 + 1), k. split_and!; try done. Z.to_euclidean_division_equations; lia.
Qed.

(** What is left is still to come ([l] of this table, or a table of [Ts]), not due, or skipped. *)
Definition settled (l : list string) (Ts : list string) (acc : list string * list string) (d : database) : Prop :=
  forall p, p ∈ partitions d -> p_name p ∈ l \/ p_table p ∈ Ts \/ ~ due now r p \/ p_name p ∈ acc.2.

Definition Iret l Ts acc (s : session) : Prop := retired (data s) /\ settled l Ts acc (data s).

Lemma drop_one_spec t days name l Ts acc :
  (t, days) ∈ PARTITIONED ->
  (forall p, p ∈ partitions d0 -> p_name p = name -> due now r p) ->
  hoare (Iret (name :: l) Ts acc) (drop_one t name)
    (fun res s => match res with Ok _ => Iret l Ts acc s | Raise _ => Iret (name :: l) Ts acc s end).
Proof.
  intros Ht Hd.
  set (before := fun d => retired d /\ settled (name :: l) Ts acc d).
  set (after := fun (_ : unit) d => retired d /\ settled l Ts acc d).
  assert (Hdrop : forall d, before d -> after tt (drop_partition t name (partition_key t) d)).
  { intros d [H1 H2]. split; [by apply retired_drop|]. intros p [Hn Hp]%list_elem_of_filter.
    destruct (H2 p Hp) as [Hin|]; [|tauto]. apply elem_of_cons in Hin as [?|?]; [done | by left]. }
  assert (Hb : hoare (on_data before)
    (bind _set_local_lock_timeout (fun _ => bind (execute no_change) (fun _ =>
       execute (fun d => Ok (tt, drop_partition t name (partition_key t) d)))))
    (fun res s => match res with Ok a => after a (data s) | Raise _ => True end)).
  { eapply hoare_bind with (R := fun _ => on_data before); [|intros _; eapply hoare_bind with (R := fun _ => on_data before)].
    - eapply hoare_post; [apply (keeps_no_change before)|]. by intros [] s Hs.
    - eapply hoare_post; [apply (keeps_no_change before)|]. by intros [] s Hs.
    - intros _ s Hs. unfold execute. destruct (answers s) as [|[|e c|e c] a]; cbn; try done; by apply Hdrop. }
  eapply hoare_post; [exact (hoare_transaction before _ after Hb)|].
  intros [[]|e] s; cbn; [done|]. intros [?|[[] [H1 H2]]]; [done|]. split; [done|].
  intros p Hp. destruct (H2 p Hp) as [?|?]; [left; by right | by right].
Qed.

Lemma retire_spec t days name l Ts acc :
  (t, days) ∈ PARTITIONED -> attached t name ->
  hoare (Iret (name :: l) Ts acc) (retire (month_start (month_of now)) (cutoff_of now (days r)) t acc name)
    (fun res s => match res with Ok acc => Iret l Ts acc s | Raise _ => retired (data s) end).
Proof.
  intros Ht Ha. unfold retire.
  assert (Hskip : forall acc' s, Iret (name :: l) Ts acc s -> acc.2 ⊆ acc'.2 ->
    (forall p, p ∈ partitions d0 -> p_name p = name -> ~ due now r p \/ name ∈ acc'.2) -> Iret l Ts acc' s).
  { intros acc' s [H1 H2] Hsub Hn. split; [done|]. intros p Hp.
    destruct (H2 p Hp) as [[E|?]%elem_of_cons|[?|[?|?]]]; auto.
    destruct (Hn p (ret_parts _ H1 p Hp) E); rewrite ?E; auto. }
  destruct (partition_month t name) as [[y m]|] eqn:Em.
  2: { apply hoare_ret. intros s Hs. apply (Hskip acc s Hs); [done|]. intros p Hp Hn. left. intros Hd.
       destruct (not_due_by_name t days name p Ht Ha Hp Hn Hd) as (? & ? & ? & ? & _). congruence. }
  eapply hoare_bind with (R := fun start s => Iret (name :: l) Ts acc s /\ first_of_month y m = Ok start).
  { intros s Hs. cbn. destruct (first_of_month y m); [done | apply Hs]. }
  intros start. eapply hoare_bind with (R := fun b s => (Iret (name :: l) Ts acc s /\ first_of_month y m = Ok start) /\
      expired (month_start (month_of now)) (cutoff_of now (days r)) start = Ok b).
  { intros s Hs. cbn. destruct (expired _ _ _); [done | apply Hs]. }
  intros b. apply hoare_pure. intros He. apply hoare_pure. intros Hf. destruct b.
  - pose proof (due_by_name t days name y m start Ht Ha Em Hf He) as Hd.
    apply (hoare_try _ _ _ (fun _ s => Iret (name :: l) Ts acc s)).
    + eapply hoare_bind with (R := fun _ s => Iret l Ts acc s); [eapply drop_one_spec; eauto|].
      intros _. apply hoare_ret. intros s [H1 H2]. split; [done|]. exact H2.
    + intros e k. destruct (is_lock_not_available e); intros [= <-]. apply hoare_ret. intros s Hs.
      apply (Hskip _ s Hs); cbn; [set_solver|]. intros p _ _. right. set_solver.
    + intros e s _ [H _]. exact H.
  - apply hoare_ret. intros s Hs. apply (Hskip acc s Hs); [done|]. intros p Hp Hn. left. intros Hd.
    destruct (not_due_by_name t days name p Ht Ha Hp Hn Hd) as (y' & m' & k & Em' & -> & Hk & Hc).
    rewrite Em in Em'. injection Em' as <- <-. apply first_of_month_ok in Hf as [-> _].
    assert (expired (month_start (month_of now)) (cutoff_of now (days r)) (month_start (12 * y + m - 1)) = Ok true) as Ht'.
    { apply expired_true. split; [exact Hk|]. split; [|exact Hc]. intros El. rewrite El in He, Hk.
      exact (not_expired_last _ _ Hk He). }
    congruence.
Qed.
End Retention.

Section RetentionRun.
Context (now : datetime) (r : retention) (d0 : database) (Hu : unique_names d0).

Lemma attached_spec t Ts acc :
  hoare (Iret now r d0 [] (t :: Ts) acc) (_attached_partitions t)
    (fun res s => match res with
                  | Ok l => Iret now r d0 l Ts acc s /\ Forall (attached d0 t) l
                  | Raise _ => retired now r d0 (data s) end).
Proof.
  intros s [H1 H2]. unfold _attached_partitions, execute.
  assert (Hok : Iret now r d0 (merge_sort String.le (map p_name (filter (fun p => p_table p = t) (partitions (data s))))) Ts acc s
    /\ Forall (attached d0 t) (merge_sort String.le (map p_name (filter (fun p => p_table p = t) (partitions (data s)))))).
  { split; [split; [done|]|].
    - intros p Hp. destruct (decide (p_table p = t)) as [Et|Hne].
      + left. rewrite merge_sort_Permutation. apply list_elem_of_fmap_2, list_elem_of_filter. done.
      + destruct (H2 p Hp) as [?%elem_of_nil|[[?|?]%elem_of_cons|]]; try done; [by right; left | by right; right].
    - apply Forall_forall. intros n. rewrite merge_sort_Permutation.
      intros (p & -> & [Hpt Hp]%list_elem_of_filter)%list_elem_of_fmap.
      exists p. split_and!; [by eapply ret_parts | done | done]. }
  destruct (answers s) as [|[|e c|e c] a]; cbn; done.
Qed.

Lemma retention_spec :
  is_aware now = true ->
  hoare (fun s => data s = d0) (apply_retention now r)
    (fun res s => match res with Ok acc => Iret now r d0 [] [] acc s | Raise _ => retired now r d0 (data s) end).
Proof.
  intros Ha. unfold apply_retention.
  apply hoare_pre with (P' := Iret now r d0 [] (map fst PARTITIONED) ([], [])).
  2: { intros s <-. split; [apply retired_refl|]. intros p Hp.
       destruct (decide (p_table p ∈ map fst PARTITIONED)) as [?|Hn]; [by right; left|].
       right; right; left. intros (days & k & Ht & _). apply Hn. by apply (list_elem_of_fmap_2 fst) in Ht. }
  eapply hoare_bind with (R := fun _ => Iret now r d0 [] (map fst PARTITIONED) ([], [])).
  { apply hoare_lift. unfold require_aware. rewrite Ha. done. }
  intros _. rewrite month_floor_start by done.
  eapply hoare_bind with (R := fun m s => Iret now r d0 [] (map fst PARTITIONED) ([], []) s /\ m = month_start (month_of now)).
  { apply hoare_lift. done. }
  intros m. apply hoare_pure. intros ->.
  assert (Hsub : forall t days, (t, days) ∈ PARTITIONED -> (t, days) ∈ PARTITIONED) by done.
  revert Hsub. generalize PARTITIONED at 1 3 4 as Ts. intros Ts Hsub.
  assert (Hfor : Forall (fun ta => ta ∈ PARTITIONED) Ts) by (apply Forall_forall; intros []; auto). clear Hsub.
  pose proof (hoare_foldM (fun acc ta => bind (_attached_partitions ta.1)
      (fun names => foldM (retire (month_start (month_of now)) (cutoff_of now (ta.2 r)) ta.1) acc names))
    (fun l acc s => Iret now r d0 [] (map fst l) acc s /\ Forall (fun ta => ta ∈ PARTITIONED) l)
    (fun _ s => retired now r d0 (data s)) Ts ([], [])) as HF. cbv beta in HF.
  eapply hoare_conseq; [apply HF; clear HF | by intros s Hs | by intros [] s; cbn; naive_solver].
  intros [t days] l acc. apply hoare_pure. intros [Ht Hl]%Forall_cons. cbn [fst snd map].
  eapply hoare_bind; [apply attached_spec|]. intros names. apply hoare_pure. intros Hn.
  pose proof (hoare_foldM (retire (month_start (month_of now)) (cutoff_of now (days r)) t)
    (fun ns acc s => Iret now r d0 ns (map fst l) acc s /\ Forall (attached d0 t) ns)
    (fun _ s => retired now r d0 (data s)) names acc) as HF. cbv beta in HF.
  eapply hoare_conseq; [apply HF; clear HF | by intros s Hs | by intros [] s; cbn; naive_solver].
  intros name ns acc'. apply hoare_pure. intros [Hname Hns]%Forall_cons.
  eapply hoare_post; [by apply (retire_spec now r d0 Hu t days)|]. by intros [] s.
Qed.
End RetentionRun.

(** A partition named for a month holds rows of that month only. *)
Definition month_ranges (d : database) : Prop :=
  forall p k, p ∈ partitions d -> partition_month (p_table p) (p_name p) = Some (k / 12, k mod 12 + 1) ->
    p_to p <= instant (month_start (k + 1)).

(** C8. Retention never loses a row it should keep: whatever the server answers, the partitions
    that go are named for a month that is over and wholly past the table's retention, every
    row within retention or of the current month stays, as do the rows of every other table;
    and when it returns, each partition that was due is gone or reported as skipped. *)
Theorem retention_safe now r s out s' :
  is_aware now = true -> unique_names (data s) -> month_ranges (data s) ->
  apply_retention now r s = (out, s') ->
  (forall p, p ∈ partitions (data s) -> p ∉ partitions (data s') -> due now r p) /\
  (forall t k row, table_of t (data s) !! k = Some row ->
     (forall days, (t, days) ∈ PARTITIONED ->
        instant (cutoff_of now (days r)) <= row_time (partition_key t) row \/
        instant (month_start (month_of now)) <= row_time (partition_key t) row) ->
     table_of t (data s') !! k = Some row) /\
  match out with
  | Ok (_, skipped) => forall p, p ∈ partitions (data s') -> due now r p -> p_name p ∈ skipped
  | Raise _ => True
  end.
Proof.
  intros Ha Hu Hr E. pose proof (retention_spec now r (data s) Hu Ha s eq_refl) as H. rewrite E in H. cbn in H.
  assert (Hret : retired now r (data s) (data s')) by (destruct out; [apply H | done]).
  split_and!.
  - apply Hret.
  - intros t k row Hk Hin. destruct (ret_rows _ _ _ _ Hret t k row Hk) as [|(p & Hp & (days & m & Ht & Hm & Hnow & Hc) & Hh)]; [done|].
    exfalso. unfold holds in Hh. apply andb_prop in Hh as [Hh Hto]. apply andb_prop in Hh as [Hpt _].
    apply bool_decide_eq_true in Hpt. apply Z.ltb_lt in Hto. subst t.
    pose proof (Hr p m Hp Hm). pose proof (month_start_le (m + 1) (month_of now) ltac:(lia)).
    destruct (Hin days Ht); lia.
  - destruct out as [[dr sk]|e]; [|done]. destruct H as [_ H]. intros p Hp Hd. cbn in H.
    by destruct (H p Hp) as [?%elem_of_nil|[?%elem_of_nil|[?|?]]].
Qed.

(** ** Creating partitions *)

(** A year [datetime] can hold. *)
Definition python_month (k : Z) : Prop := 12 <= k < LAST_MONTH.

Definition partition_of (t : string) (k : Z) : partition :=
  month_partition t (month_start k) (month_start (k + 1)).

Abbreviation partitioned_tables := (map fst PARTITIONED).

(** Every partition is one of this program's: a month of a partitioned table, each once. *)
Definition monthly_partition (p : partition) : Prop :=
  exists t k, t ∈ partitioned_tables /\ python_month k /\ p = partition_of t k.

Definition monthly (d : database) : Prop :=
  Forall monthly_partition (partitions d) /\ NoDup (partitions d).

Lemma python_month_year k : python_month k -> 0 <= k / 12 < 10000.
Proof. unfold python_month, LAST_MONTH. intros. Z.to_euclidean_division_equations; lia. Qed.

Lemma table_prefix t t' s : t ∈ partitioned_tables -> t' ∈ partitioned_tables ->
  is_Some (drop_prefix t (t' +:+ s)) -> t = t'.
Proof.
  cbn. rewrite !elem_of_cons. intros H1 H2. destruct_or?; subst; try set_solver; cbn; by intros [].
Qed.

(** The name of a partition says its table and month. *)
Lemma partition_name_inj t t' k k' :
  t ∈ partitioned_tables -> t' ∈ partitioned_tables -> python_month k -> python_month k' ->
  p_name (partition_of t k) = p_name (partition_of t' k') -> t = t' /\ k = k'.
Proof.
  intros Ht Ht' Hk%python_month_year Hk'%python_month_year E. cbn in E.
  pose proof (partition_month_name t k Hk) as H. rewrite E in H.
  assert (t = t') as <-.
  { unfold partition_month, name_of_month in H. 
    match type of H with context [drop_prefix t (t' +:+ ?s)] =>
      apply (table_prefix t t' s Ht Ht'); destruct (drop_prefix t (t' +:+ s)); [done | discriminate] end. }
  split; [done|]. rewrite partition_month_name in H by done. injection H as H1 H2.
  Z.to_euclidean_division_equations; lia.
Qed.

Lemma monthly_unique d : monthly d -> unique_names d.
Proof.
  intros [Hf Hn]. unfold unique_names. induction Hn as [|p l Hp Hn IH]; cbn; [constructor|].
  apply Forall_cons in Hf as [(t & k & Ht & Hk & ->) Hf]. constructor; [|by apply IH].
  intros (q & E & Hq)%list_elem_of_fmap. pose proof (proj1 (Forall_forall _ _) Hf q Hq) as (t' & k' & Ht' & Hk' & ->).
  destruct (partition_name_inj t t' k k') as [-> ->]; auto.
Qed.

Lemma monthly_ranges d : monthly d -> month_ranges d.
Proof.
  intros [Hf _] p k Hp Hm. pose proof (proj1 (Forall_forall _ _) Hf p Hp) as (t & l & _ & Hl%python_month_year & ->).
  unfold partition_of, month_partition in *. cbn [p_table p_name p_to] in *.
  rewrite partition_month_name in Hm by done. injection Hm as E1 E2.
  replace k with l by (Z.to_euclidean_division_equations; lia). reflexivity.
Qed.

Lemma months_disjoint t k l : k <> l -> overlaps (partition_of t k) (partition_of t l) = false.
Proof.
  intros Hne. unfold overlaps. cbn. rewrite bool_decide_true by done. cbn.
  destruct (Z.lt_trichotomy k l) as [H|[?|H]]; [|done|].
  - pose proof (month_start_le (k + 1) l ltac:(lia)). apply andb_false_intro2, Z.ltb_ge. done.
  - pose proof (month_start_le (l + 1) k ltac:(lia)). apply andb_false_intro1, Z.ltb_ge. done.
Qed.

Lemma relation_exists_spec d t k : monthly d -> t ∈ partitioned_tables -> python_month k ->
  relation_exists (p_name (partition_of t k)) d = true <-> partition_of t k ∈ partitions d.
Proof.
  intros [Hf _] Ht Hk. unfold relation_exists. rewrite existsb_exists. split.
  - intros (p & Hp%list_elem_of_In & E%bool_decide_eq_true).
    pose proof (proj1 (Forall_forall _ _) Hf p Hp) as (t' & k' & Ht' & Hk' & ->).
    destruct (partition_name_inj t' t k' k) as [-> ->]; auto.
  - intros Hp. exists (partition_of t k). split; [by apply list_elem_of_In | by apply bool_decide_true].
Qed.

(** [create_partition] of a month: added unless it is there. *)
Lemma create_month d t k : monthly d -> t ∈ partitioned_tables -> python_month k ->
  exists d', create_partition (partition_of t k) d = Ok (tt, d') /\ monthly d' /\ tables d' = tables d /\
    (forall p, p ∈ partitions d' <-> p = partition_of t k \/ p ∈ partitions d).
Proof.
  intros Hm Ht Hk. unfold create_partition.
  destruct (relation_exists (p_name (partition_of t k)) d) eqn:E.
  - apply relation_exists_spec in E; [|done..]. exists d. split_and!; try done. intros p. naive_solver.
  - assert (partition_of t k ∉ partitions d) as Hn.
    { intros Hp. apply (relation_exists_spec d t k) in Hp; [congruence | done..]. }
    destruct Hm as [Hf Hd].
    assert (existsb (overlaps (partition_of t k)) (partitions d) = false) as ->.
    { apply not_true_is_false. rewrite existsb_exists. intros (p & Hp%list_elem_of_In & Ho).
      pose proof (proj1 (Forall_forall _ _) Hf p Hp) as (t' & k' & Ht' & Hk' & ->).
      destruct (decide (t = t')) as [<-|Hne].
      - rewrite months_disjoint in Ho; [done|]. by intros <-.
      - unfold overlaps in Ho. cbn in Ho. by rewrite bool_decide_false in Ho. }
    eexists. split; [done|]. split_and!; [split| |]; cbn.
    + apply Forall_app. split; [done|]. apply Forall_singleton. by exists t, k.
    + apply NoDup_app. split_and!; [done | set_solver | apply NoDup_singleton].
    + done.
    + intros p. set_solver.
Qed.

Section Ensure.
Context (b : bool) (d0 : database).

(** [d] is [d0] with more partitions, those of [ready] among them. *)
Definition grown (ready : list (string * Z)) (d : database) : Prop :=
  monthly d /\ tables d = tables d0 /\ (forall p, p ∈ partitions d0 -> p ∈ partitions d) /\
  Forall (fun tk => partition_of tk.1 tk.2 ∈ partitions d) ready.

Lemma ensure_partition_spec ready t ts :
  t ∈ partitioned_tables -> is_aware ts = true -> python_month (month_of ts) ->
  hoare (fun s => grown ready (data s) /\ calm b s) (ensure_partition t ts)
    (fun r s => match r with
                | Ok _ => grown ((t, month_of ts) :: ready) (data s) /\ calm b s
                | Raise _ => b = false /\ grown ready (data s) end).
Proof.
  intros Ht Ha Hk. unfold ensure_partition. rewrite month_floor_start by done.
  eapply hoare_bind with (R := fun m s => (grown ready (data s) /\ calm b s) /\ m = month_start (month_of ts)).
  { by apply hoare_lift. }
  intros m. apply hoare_pure. intros ->. unfold partition_name. rewrite month_floor_start by done.
  rewrite month_of_start. set (k := month_of ts) in *.
  eapply hoare_bind with (R := fun n s => (grown ready (data s) /\ calm b s) /\ n = p_name (partition_of t k)).
  { by apply hoare_lift. }
  intros n. apply hoare_pure. intros ->.
  set (I := grown ready). set (J := fun (_ : bool) => grown ((t, k) :: ready)).
  assert (Hno : forall d, I d -> exists a d', no_change d = Ok (a, d') /\ I d') by (intros d Hd; by exists tt, d).
  eapply hoare_post; [apply (hoare_transaction_calm b _ I J)|].
  2: { intros [x|e] s; cbn; [done|]. intros [? [?|(x & Hm & Ht' & Hp & Hr)]]; [done|].
       apply Forall_cons in Hr as [_ Hr]. split_and!; try done. }
  eapply hoare_bind with (R := fun _ s => I (data s) /\ calm b s).
  { eapply hoare_post; [exact (hoare_execute b no_change I (fun _ => I) Hno)|]. by intros [] s; cbn; [|intros []]. }
  intros _. eapply hoare_bind with (R := fun _ s => I (data s) /\ calm b s).
  { eapply hoare_post; [exact (hoare_execute b no_change I (fun _ => I) Hno)|]. by intros [] s; cbn; [|intros []]. }
  intros _.
  eapply hoare_bind with (R := fun e s => (I (data s) /\ (e = true -> partition_of t k ∈ partitions (data s))) /\ calm b s).
  { eapply hoare_post; [apply (hoare_execute b _ I
        (fun e d => I d /\ (e = true -> partition_of t k ∈ partitions d)))|].
    - intros d Hd. do 2 eexists. split; [done|]. split; [done|]. intros E.
      apply (relation_exists_spec d t k); [apply Hd | done..].
    - by intros [] s; cbn; [|intros []]. }
  intros e. destruct e.
  - apply hoare_ret. intros s [[(H1 & H2 & H3 & H4) Hin] Hc]. split; [|done]. split_and!; try done.
    constructor; [|done]. by apply Hin.
  - eapply hoare_bind with (R := fun nx s => (I (data s) /\ calm b s) /\ nx = month_start (k + 1)).
    { rewrite next_month_start by (unfold python_month, LAST_MONTH in *; lia). apply hoare_lift. naive_solver. }
    intros nx. apply hoare_pure. intros ->.
    eapply hoare_bind with (R := fun _ s => J true (data s) /\ calm b s); [|intros _; by apply hoare_ret].
    eapply hoare_post; [apply (hoare_execute b _ I (fun _ => J true))|].
    + intros d (H1 & H2 & H3 & H4). destruct (create_month d t k H1 Ht Hk) as (d' & E & M & T & P).
      exists tt, d'. split; [exact E|]. split_and!; [done | congruence | naive_solver |].
      constructor; [by apply P; left|]. eapply Forall_impl; [exact H4|]. intros x Hx. apply P. by right.
    + by intros [] s; cbn; [|intros []].
Qed.
End Ensure.

Lemma months_from_start n k :
  k + Z.of_nat n < LAST_MONTH ->
  months_from n (month_start k) = Ok (map month_start (seqZ k (Z.of_nat (S n)))).
Proof.
  revert k. induction n as [|n IH]; intros k Hk.
  - cbn [months_from]. rewrite seqZ_cons, seqZ_nil by lia. done.
  - cbn [months_from]. rewrite next_month_start by (unfold LAST_MONTH in *; lia). cbn [mbind res_bind].
    rewrite IH by lia. cbn [mbind res_bind]. f_equal. rewrite (seqZ_cons k) by lia. cbn [map]. do 2 f_equal.
    f_equal; lia.
Qed.

Section EnsureAll.
Context (b : bool) (d0 : database).

Lemma ensure_one_spec ready t k (created : list string) :
  t ∈ partitioned_tables -> python_month k ->
  hoare (fun s => grown d0 ready (data s) /\ calm b s)
    (bind (ensure_partition t (month_start k)) (fun made =>
       if made then bind (lift (partition_name t (month_start k))) (fun n => ret (created ++ [n]))
       else ret created))
    (fun r s => match r with
      | Ok _ => grown d0 ((t, k) :: ready) (data s) /\ calm b s
      | Raise _ => b = false /\ grown d0 [] (data s) end).
Proof.
  intros Ht Hk.
  eapply hoare_bind with (R := fun _ s => grown d0 ((t, k) :: ready) (data s) /\ calm b s).
  - eapply hoare_post; [apply (ensure_partition_spec b d0 ready t); [done | done | by rewrite month_of_start]|].
    rewrite month_of_start. intros [] s; [done|]. intros (? & ? & ? & ? & _). split_and!; try done.
  - intros []; [|by apply hoare_ret]. unfold partition_name. rewrite month_floor_start by done.
    eapply hoare_bind with (R := fun _ s => grown d0 ((t, k) :: ready) (data s) /\ calm b s);
      [by apply hoare_lift | intros; by apply hoare_ret].
Qed.

Lemma ensure_partitions_spec now n :
  is_aware now = true -> 12 <= month_of now -> month_of now + Z.of_nat n < LAST_MONTH ->
  hoare (fun s => grown d0 [] (data s) /\ calm b s) (ensure_partitions now n)
    (fun r s => match r with
      | Ok _ => (exists l, grown d0 l (data s) /\
                  forall t k, t ∈ partitioned_tables -> k ∈ seqZ (month_of now) (Z.of_nat (S n)) -> (t, k) ∈ l) /\
                calm b s
      | Raise _ => b = false /\ grown d0 [] (data s) end).
Proof.
  intros Ha H0 Hn. unfold ensure_partitions. rewrite month_floor_start by done.
  set (ks := seqZ (month_of now) (Z.of_nat (S n))).
  eapply hoare_bind with (R := fun m s => (grown d0 [] (data s) /\ calm b s) /\ m = month_start (month_of now)).
  { by apply hoare_lift. }
  intros m. apply hoare_pure. intros ->. rewrite months_from_start by done.
  eapply hoare_bind with (R := fun ms s => (grown d0 [] (data s) /\ calm b s) /\ ms = map month_start ks).
  { by apply hoare_lift. }
  intros ms. apply hoare_pure. intros ->.
  set (G := fun l s => grown d0 l (data s) /\ calm b s). set (E := fun s => b = false /\ grown d0 [] (data s)).
  eapply hoare_conseq; [apply (hoare_foldM_gather _ (fun t => gathered (fun st => [(t, month_of st)]) (map month_start ks) []) G E partitioned_tables [] []) | done |].
  - intros t created l Ht.
    eapply hoare_post; [apply (hoare_foldM_gather _ (fun st => [(t, month_of st)]) G E (map month_start ks) created l)|].
    + intros st created' l' (k & -> & Hk%elem_of_seqZ)%list_elem_of_fmap. rewrite month_of_start.
      apply ensure_one_spec; [done | unfold python_month; lia].
    + intros [] s; [|done]. intros [Hg Hc]. split; [|done]. destruct Hg as (? & ? & ? & Hf). split_and!; try done.
      rewrite Forall_forall in *. intros x Hx. apply Hf, elem_of_gathered.
      apply elem_of_app in Hx as [[Hx%elem_of_nil|Hx]%elem_of_gathered|Hx]; [done | by right | by left].
  - intros [x|e] s; [|done]. intros [Hg Hc]. split; [|exact Hc]. eexists. split; [exact Hg|]. intros t k Ht Hk.
    apply elem_of_gathered. right. exists t. split; [done|]. apply elem_of_gathered. right.
    exists (month_start k). rewrite month_of_start. split; [by apply list_elem_of_fmap_2 | set_solver].
Qed.
End EnsureAll.

(** The months from the current one on are routed when their partitions are there. *)
Lemma grown_routed d0 d now n l :
  grown d0 l d ->
  (forall t k, t ∈ partitioned_tables -> k ∈ seqZ (month_of now) (Z.of_nat (S n)) -> (t, k) ∈ l) ->
  forall t us, t ∈ partitioned_tables ->
    instant (month_start (month_of now)) <= us < instant (month_start (month_of now + Z.of_nat n + 1)) ->
    exists k, month_of now <= k /\ partition_of t k ∈ partitions d /\ holds (partition_of t k) t us = true.
Proof.
  intros (H1 & H2 & H3 & H4) Hl t us Ht [Hlo Hhi].
  set (k := month_of (utc us)). pose proof (month_of_bounds (utc us)) as [Hk1 Hk2]. fold k in Hk1, Hk2.
  rewrite (eq_refl : instant (utc us) = us - 0 * second_us) in Hk1, Hk2.
  assert (k ∈ seqZ (month_of now) (Z.of_nat (S n))) as Hk.
  { apply elem_of_seqZ. split.
    - apply Z.le_ngt. intros Hlt. pose proof (month_start_le (k + 1) (month_of now) ltac:(lia)). lia.
    - apply Z.lt_nge. intros Hge. pose proof (month_start_le (month_of now + Z.of_nat n + 1) k ltac:(lia)). lia. }
  exists k. split; [apply elem_of_seqZ in Hk; lia|].
  split; [exact (proj1 (Forall_forall _ _) H4 _ (Hl t k Ht Hk))|].
  unfold holds. cbn [partition_of month_partition p_table p_from p_to].
  rewrite bool_decide_true by done. rewrite (proj2 (Z.leb_le _ _)), (proj2 (Z.ltb_lt _ _)) by lia. done.
Qed.

(** Daily maintenance makes room in time: afterwards every partitioned table has partitions
    for the current month and the [n] that follow, so a row of that span is routed; nothing
    else changes; and only the server can make it fail, in which case no partition is lost. *)
Theorem partitions_ready now n s out s' :
  is_aware now = true -> 12 <= month_of now -> month_of now + Z.of_nat n < LAST_MONTH -> monthly (data s) ->
  ensure_partitions now n s = (out, s') ->
  monthly (data s') /\ tables (data s') = tables (data s) /\
  (forall p, p ∈ partitions (data s) -> p ∈ partitions (data s')) /\
  match out with
  | Ok _ => forall t us, t ∈ partitioned_tables ->
      instant (month_start (month_of now)) <= us < instant (month_start (month_of now + Z.of_nat n + 1)) ->
      routed t us (data s') = true
  | Raise _ => answers s <> []
  end.
Proof.
  intros Ha H0 Hn Hm E. set (b := match answers s with [] => true | _ => false end).
  pose proof (ensure_partitions_spec b (data s) now n Ha H0 Hn s) as H. rewrite E in H. cbn [fst snd] in H.
  destruct out as [created|e].
  - destruct H as [(l & Hg & Hl) _].
    { split; [split_and!; auto|]. subst b. unfold calm. by destruct (answers s). }
    pose proof Hg as (H1 & H2 & H3 & H4). split_and!; try done. intros t us Ht Hus. apply existsb_exists.
    destruct (grown_routed _ _ _ _ _ Hg Hl t us Ht Hus) as (k & _ & Hp & Hh).
    exists (partition_of t k). split; [by apply list_elem_of_In | done].
  - destruct H as (Hb & H1 & H2 & H3 & _).
    { split; [split_and!; auto|]. subst b. unfold calm. by destruct (answers s). }
    split_and!; try done. subst b. by destruct (answers s).
Qed.

(** A partition's name says exactly the month whose times the partition takes. *)
Theorem partition_name_month t ts :
  is_aware ts = true -> 12 <= month_of ts < LAST_MONTH ->
  exists name y m start next,
    partition_name t ts = Ok name /\ partition_month t name = Some (y, m) /\
    first_of_month y m = Ok start /\ _month_floor ts = Ok start /\ _next_month start = Ok next /\
    instant start <= instant ts < instant next.
Proof.
  intros Ha Hk. set (k := month_of ts) in *.
  exists (name_of_month t (month_start k)), (k / 12), (k mod 12 + 1), (month_start k), (month_start (k + 1)).
  unfold partition_name. rewrite month_floor_start by done. fold k.
  split_and!; [done | | | done | | apply month_of_bounds | apply month_of_bounds].
  - apply partition_month_name, python_month_year. unfold python_month. lia.
  - unfold first_of_month. pose proof (Z.mod_pos_bound k 12 ltac:(lia)).
    rewrite !(proj2 (Z.leb_le _ _)) by (Z.to_euclidean_division_equations; lia). done.
  - apply next_month_start. unfold LAST_MONTH in *. lia.
Qed.

(** A two-month-old event with a retention of 30 days, in January 2024. *)
Definition demo_now : datetime := utc_date (Civil 2024 1 15).
Definition demo_retention : retention := Retention 730 730 30.
Definition demo_event (t : datetime) : row_t :=
  bind_row ["ts"; "system"] [Scalar (VTime t); Scalar (VStr "s")].
Definition demo_db : database :=
  Db {[ "collection_events" :=
          {[ [KInt 1] := demo_event (utc_date (Civil 2023 11 3));
             [KInt 2] := demo_event (utc_date (Civil 2023 12 20)) ]} ]}
     [partition_of "collection_events" (12 * 2023 + 10); partition_of "collection_events" (12 * 2023 + 11)].
Definition demo_session (l : list answer) : session := Session demo_db l (Some healthy).

Lemma demo_monthly : monthly demo_db.
Proof.
  split.
  - repeat constructor; eexists _, _; (split; [|split; [|reflexivity]]); try done;
      apply list_elem_of_In; cbn; tauto.
  - apply (bool_decide_unpack _). vm_compute. exact I.
Qed.

Lemma partition_name_month_witness :
  exists name y m start next,
    partition_name "user_usage_5m" demo_now = Ok name /\ partition_month "user_usage_5m" name = Some (y, m) /\
    first_of_month y m = Ok start /\ _month_floor demo_now = Ok start /\ _next_month start = Ok next /\
    instant start <= instant demo_now < instant next.
Proof. apply (partition_name_month "user_usage_5m" demo_now); vm_compute; [reflexivity | split; congruence]. Defined.

Lemma retention_safe_witness :
  exists out s', apply_retention demo_now demo_retention (demo_session []) = (out, s') /\
    (forall p, p ∈ partitions demo_db -> p ∉ partitions (data s') -> due demo_now demo_retention p) /\
    out = Ok (["collection_events_y2023m11"], []) /\ dom (table_of "collection_events" (data s')) = {[ [KInt 2] ]}.
Proof.
  destruct (apply_retention demo_now demo_retention (demo_session [])) as [out s'] eqn:E. exists out, s'.
  assert (Eo : (apply_retention demo_now demo_retention (demo_session [])).1 = Ok (["collection_events_y2023m11"], []))
    by (vm_compute; reflexivity).
  assert (Ed : bool_decide (dom (table_of "collection_events"
      (data (apply_retention demo_now demo_retention (demo_session [])).2)) = {[ [KInt 2] ]}) = true)
    by (vm_compute; reflexivity).
  rewrite E in Eo, Ed. split; [reflexivity|]. split; [|split; [exact Eo | by apply bool_decide_eq_true in Ed]].
  exact (proj1 (retention_safe demo_now demo_retention (demo_session []) out s' eq_refl
    (monthly_unique _ demo_monthly) (monthly_ranges _ demo_monthly) E)).
Defined.

Lemma partitions_ready_witness :
  exists out s', ensure_partitions demo_now 2 (demo_session []) = (out, s') /\
    routed "user_usage_5m" (instant (utc_date (Civil 2024 3 31))) (data s') = true.
Proof.
  destruct (ensure_partitions demo_now 2 (demo_session [])) as [out s'] eqn:E. exists out, s'. split; [reflexivity|].
  pose proof (partitions_ready demo_now 2 (demo_session []) out s' eq_refl ltac:(vm_compute; congruence)
    ltac:(vm_compute; reflexivity) demo_monthly E) as (_ & _ & _ & H).
  destruct out as [l|e]; [|by destruct H].
  apply H; [apply list_elem_of_In; cbn; tauto | vm_compute; split; congruence].
Defined.

(** A long reader holds the table: the partition is skipped and stays attached. *)
Example retention_skips_locked :
  let locked := PgError "LockNotAvailable" true "55P03" "canceling statement due to lock timeout" in
  let '(out, s') := apply_retention demo_now demo_retention
    (demo_session [Done; Done; Done; Done; Done; Done; Fails locked healthy]) in
  (out, length (partitions (data s'))) = (Ok ([], ["collection_events_y2023m11"]), 2%nat).
Proof. vm_compute. reflexivity. Qed.
