(* ===== verification/Upsert.v ===== *)
(** * Replaying upserts

    When the same rows are upserted twice in a row, the second pass changes nothing.  The
    argument is made per key and per column: a guarded update only moves the compared column
    forward, so the rows that still apply in the second pass are exactly those that applied
    last in the first. *)

From S2P Require Import Prelude PyFloat PyTime PyVal Codec Sql.

(** ** The order the statements compare by *)

Lemma sql_le_trans a b c : sql_le a b = true -> sql_le b c = true -> sql_le a c = true.
Proof.
  destruct a as [|[]], b as [|[]], c as [|[]]; cbn; try done; rewrite !Z.leb_le; lia.
Qed.

Lemma sql_le_refl_l a b : sql_le a b = true -> sql_le a a = true.
Proof. destruct a as [|[]], b as [|[]]; cbn; try done; intros _; apply Z.leb_refl. Qed.

(** ** Guarded column updates *)

Section Guarded.
Context {X : Type} (g : string) (row : X -> row_t) (W : X -> string -> option db_param).

(** The columns an update writes, and what it writes there; they are columns of its row. *)
Definition overwrite (x : X) (old : row_t) : row_t := map_imap (fun c _ => W x c) (row x) ∪ old.

Record writes (x : X) : Prop := {
  w_row : forall c v, W x c = Some v -> row x !! c = Some v;
  w_guard : W x g = Some (cell g (row x));
}.

Lemma overwrite_lookup x old c : writes x ->
  overwrite x old !! c = match W x c with Some v => Some v | None => old !! c end.
Proof.
  intros Hw. unfold overwrite. rewrite lookup_union, map_lookup_imap.
  destruct (row x !! c) eqn:E; cbn.
  - by destruct (W x c), (old !! c).
  - destruct (W x c) eqn:Ew; [by rewrite (w_row x Hw c _ Ew) in E|]. by destruct (old !! c).
Qed.

Lemma overwrite_guard x old : writes x -> cell g (overwrite x old) = cell g (row x).
Proof. intros Hw. unfold cell at 1. by rewrite overwrite_lookup, (w_guard x Hw) by done. Qed.

Lemma overwrite_row x : writes x -> overwrite x (row x) = row x.
Proof.
  intros Hw. apply map_eq. intros c. rewrite overwrite_lookup by done.
  destruct (W x c) eqn:E; [by rewrite (w_row x Hw c _ E) | done].
Qed.

Definition update (x : X) (old : row_t) : row_t :=
  if sql_le (cell g old) (cell g (row x)) then overwrite x old else old.
Definition updates (xs : list X) (s : row_t) : row_t := foldl (fun s x => update x s) s xs.

(** The rows still at [T] or later, written one after the other. *)
Definition latest (T : db_param) (xs : list X) (s : row_t) : row_t :=
  foldl (fun s x => if sql_le T (cell g (row x)) then overwrite x s else s) s xs.

Lemma column_fold T xs c : Forall writes xs ->
  (forall s, latest T xs s !! c = s !! c) \/ (exists v, forall s, latest T xs s !! c = Some v).
Proof.
  unfold latest. induction xs as [|x xs IH]; intros Hw; [by left|]. apply Forall_cons in Hw as [Hx Hw].
  destruct (IH Hw) as [H|[v H]]; cbn.
  - destruct (sql_le T (cell g (row x))); [|left; intros s; apply H].
    destruct (W x c) eqn:E; [right; eexists | left]; intros s; by rewrite H, overwrite_lookup, E.
  - right. exists v. intros s. apply H.
Qed.

Lemma latest_idemp T xs s : Forall writes xs -> latest T xs (latest T xs s) = latest T xs s.
Proof.
  intros Hw. apply map_eq. intros c. destruct (column_fold T xs c Hw) as [H|[v H]]; by rewrite !H.
Qed.

Lemma update_guard x s : writes x -> sql_le (cell g s) (cell g (update x s)) = true \/ update x s = s.
Proof.
  intros Hw. unfold update. destruct (sql_le (cell g s) (cell g (row x))) eqn:E; [left | by right].
  by rewrite overwrite_guard.
Qed.

(** The compared column only moves forward. *)
Lemma updates_forward xs s : Forall writes xs ->
  sql_le (cell g s) (cell g (updates xs s)) = true \/ updates xs s = s.
Proof.
  revert s. induction xs as [|x xs IH]; intros s Hw; [by right|]. apply Forall_cons in Hw as [Hx Hw].
  change (updates (x :: xs) s) with (updates xs (update x s)).
  destruct (IH (update x s) Hw) as [H|H]; destruct (update_guard x s Hx) as [H'|H'].
  - left. by eapply sql_le_trans.
  - left. by rewrite H' in *.
  - left. by rewrite H.
  - right. by rewrite H, H'.
Qed.

Section Final.
Context (T : db_param).

Lemma forward_applies x xs s : writes x -> Forall writes xs -> cell g (updates xs (update x s)) = T ->
  sql_le T (cell g (row x)) = true -> update x s = overwrite x s.
Proof.
  intros Hx Hw HT Hle. unfold update in *. destruct (sql_le (cell g s) (cell g (row x))) eqn:E; [done|].
  exfalso. destruct (updates_forward xs s Hw) as [H|H]; rewrite ?H, ?HT in *.
  - by rewrite (sql_le_trans _ _ _ H Hle) in E.
  - congruence.
Qed.

(** Once at [T], only the rows at [T] apply. *)
Lemma updates_latest xs s : Forall writes xs -> cell g (updates xs s) = T -> sql_le T (cell g s) = true ->
  updates xs s = latest T xs s.
Proof.
  revert s. induction xs as [|x xs IH]; intros s Hw HT Hs; [done|]. apply Forall_cons in Hw as [Hx Hw].
  change (updates (x :: xs) s) with (updates xs (update x s)) in *.
  change (latest T (x :: xs) s) with (latest T xs (if sql_le T (cell g (row x)) then overwrite x s else s)).
  destruct (sql_le T (cell g (row x))) eqn:E.
  - pose proof (forward_applies x xs s Hx Hw HT E) as Ha. rewrite Ha in HT |- *.
    apply IH; [done | done | by rewrite (overwrite_guard x s Hx)].
  - unfold update in *. destruct (sql_le (cell g s) (cell g (row x))) eqn:E'; [|by apply IH].
    by rewrite (sql_le_trans _ _ _ Hs E') in E.
Qed.

Lemma updates_as_latest xs s : Forall writes xs -> cell g (updates xs s) = T ->
  exists s', updates xs s = latest T xs s'.
Proof.
  revert s. induction xs as [|x xs IH]; intros s Hw HT; [by exists s|]. apply Forall_cons in Hw as [Hx Hw].
  change (updates (x :: xs) s) with (updates xs (update x s)) in *.
  destruct (sql_le T (cell g (row x))) eqn:E.
  - exists s. pose proof (forward_applies x xs s Hx Hw HT E) as Ha. rewrite Ha in HT |- *.
    change (latest T (x :: xs) s) with (latest T xs (if sql_le T (cell g (row x)) then overwrite x s else s)).
    rewrite E. apply updates_latest; [done | done | by rewrite (overwrite_guard x s Hx)].
  - destruct (IH _ Hw HT) as [s' H]. exists s'. rewrite H.
    change (latest T (x :: xs) s') with (latest T xs (if sql_le T (cell g (row x)) then overwrite x s' else s')).
    by rewrite E.
Qed.

(** The rows that would still apply at [T] are not beyond it. *)
Lemma latest_rows_at xs s x : Forall writes xs -> cell g (updates xs s) = T -> x ∈ xs ->
  sql_le T (cell g (row x)) = true -> cell g (row x) = T \/ sql_le (cell g (row x)) T = true.
Proof.
  revert s. induction xs as [|y xs IH]; intros s Hw HT Hin Hle; [by apply elem_of_nil in Hin|].
  apply Forall_cons in Hw as [Hy Hw]. change (updates (y :: xs) s) with (updates xs (update y s)) in *.
  apply elem_of_cons in Hin as [->|Hin]; [|by eapply IH].
  pose proof (forward_applies y xs s Hy Hw HT Hle) as Ha. rewrite Ha in HT.
  destruct (updates_forward xs (overwrite y s) Hw) as [H|H]; rewrite ?H, ?HT, overwrite_guard in * by done; auto.
Qed.

Lemma second_pass xs s : Forall writes xs ->
  (forall x, x ∈ xs -> sql_le T (cell g (row x)) = true -> cell g (row x) = T \/ sql_le (cell g (row x)) T = true) ->
  cell g s = T \/ (sql_le (cell g s) T = true /\ sql_le T (cell g s) = true) ->
  updates xs s = latest T xs s.
Proof.
  revert s. induction xs as [|x xs IH]; intros s Hw Hat Hs; [done|]. apply Forall_cons in Hw as [Hx Hw].
  change (updates (x :: xs) s) with (updates xs (update x s)).
  change (latest T (x :: xs) s) with (latest T xs (if sql_le T (cell g (row x)) then overwrite x s else s)).
  assert (sql_le (cell g s) (cell g (row x)) = sql_le T (cell g (row x))) as E.
  { destruct Hs as [->|[H1 H2]]; [done|]. apply eq_true_iff_eq. split; intros; by eapply sql_le_trans. }
  unfold update. rewrite E. destruct (sql_le T (cell g (row x))) eqn:E2.
  - apply IH; [done | set_solver |]. rewrite overwrite_guard by done. destruct (Hat x ltac:(set_solver) E2); auto.
  - apply IH; [done | set_solver | done].
Qed.
End Final.

(** The second pass over the same rows changes nothing. *)
Lemma updates_replay xs s : Forall writes xs -> updates xs (updates xs s) = updates xs s.
Proof.
  intros Hw. set (T := cell g (updates xs s)).
  destruct (updates_as_latest T xs s Hw eq_refl) as [s' Hs].
  rewrite (second_pass T xs (updates xs s) Hw); [| | by left].
  - rewrite Hs. by apply latest_idemp.
  - intros x Hx Hle. by eapply latest_rows_at.
Qed.
End Guarded.

(** ** The smallest value seen *)

Section Least.
Definition least_of (xs : list db_param) (s : db_param) : db_param :=
  foldl (fun s x => if sql_le s x then s else x) s xs.

Lemma least_of_le xs p q : sql_le p q = true -> least_of xs p = least_of xs q \/ least_of xs p = p.
Proof.
  revert p q. induction xs as [|x xs IH]; intros p q Hpq; [by right|]. cbn.
  destruct (sql_le q x) eqn:Eq.
  - rewrite (sql_le_trans _ _ _ Hpq Eq). by apply IH.
  - destruct (sql_le p x) eqn:Ep; [by apply IH | by left].
Qed.

Lemma least_of_two xs p q : least_of xs p = least_of xs q \/ least_of xs p = p \/ least_of xs q = q.
Proof.
  revert p q. induction xs as [|x xs IH]; intros p q; [by right; left|]. cbn.
  destruct (sql_le p x) eqn:Ep, (sql_le q x) eqn:Eq; [apply IH | | | by left].
  - destruct (least_of_le xs p x Ep); auto.
  - destruct (least_of_le xs q x Eq); auto.
Qed.

Lemma least_of_replay xs s : least_of xs (least_of xs s) = least_of xs s.
Proof.
  destruct (least_of_two xs s (least_of xs s)) as [E|[E|E]]; [by symmetry | by rewrite E, E | done].
Qed.
End Least.

(** ** Rows inserted one after the other *)

Record rowop := RowOp { op_into : insert_into; op_on : on_conflict; op_row : row_t }.

(** The key a row is stored under, when the server accepts it. *)
Definition op_key (o : rowop) : option key :=
  match check_not_null (not_null (op_into o)) (op_row o), key_of (key_columns (op_into o)) (op_row o) with
  | Ok _, Ok k => Some k
  | _, _ => None
  end.

(** What a row does to the row stored under its key. *)
Definition effect (o : rowop) (v : option row_t) : option row_t :=
  Some match v, op_on o with
       | None, _ => op_row o
       | Some old, DoUpdate set guard => if guard old (op_row o) then set (op_row o) old else old
       | Some old, _ => old
       end.
Definition effects (os : list rowop) (v : option row_t) : option row_t := foldl (fun v o => effect o v) v os.

Fixpoint insert_all (os : list rowop) (t : table) : option table :=
  match os with
  | [] => Some t
  | o :: os => match insert_row (op_into o) (op_on o) (op_row o) t with
               | Ok (_, t) => insert_all os t
               | Raise _ => None
               end
  end.

Definition tolerant (o : rowop) : Prop := op_on o <> Fails_unique.

Lemma insert_row_effect o t : tolerant o ->
  match insert_row (op_into o) (op_on o) (op_row o) t with
  | Ok (_, t') => exists k, op_key o = Some k /\ t' = partial_alter (effect o) k t
  | Raise _ => op_key o = None
  end.
Proof.
  intros Ht. unfold insert_row, op_key. destruct (check_not_null _ _) as [[]|]; cbn; [|done].
  destruct (key_of _ _) as [k|]; cbn; [|done].
  assert (Hs : forall old, t !! k = Some old -> effect o (Some old) = Some old -> t = partial_alter (effect o) k t).
  { intros old E Hold. apply map_eq. intros j. destruct (decide (j = k)) as [->|]; [|by rewrite lookup_partial_alter_ne].
    by rewrite lookup_partial_alter_eq, E, Hold. }
  assert (Hi : forall r, effect o (t !! k) = Some r -> <[k := r]> t = partial_alter (effect o) k t).
  { intros r Hr. apply map_eq. intros j. destruct (decide (j = k)) as [->|].
    - by rewrite lookup_insert_eq, lookup_partial_alter_eq, Hr.
    - by rewrite lookup_insert_ne, lookup_partial_alter_ne. }
  unfold tolerant in Ht. unfold effect in *. destruct (t !! k) as [old|] eqn:E, (op_on o) as [| |set guard] eqn:Eo; try done.
  all: try (exists k; split; [done|]; by eauto).
  destruct (guard old (op_row o)) eqn:Eg; exists k; (split; [done|]); [by apply Hi | apply (Hs old); [done | by rewrite Eg]].
Qed.

Definition has_key (k : key) (o : rowop) : bool := bool_decide (op_key o = Some k).

Lemma insert_all_lookup os t t' : Forall tolerant os -> insert_all os t = Some t' ->
  Forall (fun o => is_Some (op_key o)) os /\
  forall k, t' !! k = effects (filter (fun o => has_key k o = true) os) (t !! k).
Proof.
  revert t. induction os as [|o os IH]; intros t Ht E; cbn in E; [injection E as ->; by split|].
  apply Forall_cons in Ht as [Ho Ht]. pose proof (insert_row_effect o t Ho) as H.
  destruct (insert_row _ _ _ t) as [[w t1]|e]; [|done]. destruct H as (k & Hk & ->).
  destruct (IH _ Ht E) as [Hks Hl]. split; [by constructor|]. intros j. rewrite Hl, filter_cons.
  assert (Hd : has_key j o = bool_decide (j = k)).
  { unfold has_key. rewrite Hk. apply bool_decide_ext. split; [by intros [= ->] | by intros ->]. }
  rewrite Hd. destruct (decide (j = k)) as [->|Hne].
  - rewrite lookup_partial_alter_eq, bool_decide_true by done. done.
  - rewrite lookup_partial_alter_ne, bool_decide_false by done. done.
Qed.

Lemma insert_all_ok os t : Forall tolerant os -> Forall (fun o => is_Some (op_key o)) os -> is_Some (insert_all os t).
Proof.
  revert t. induction os as [|o os IH]; intros t Ht Hk; cbn; [done|].
  apply Forall_cons in Ht as [Ho Ht], Hk as [[k Hko] Hk]. pose proof (insert_row_effect o t Ho) as H.
  destruct (insert_row _ _ _ t) as [[w t1]|e]; [by apply IH | congruence].
Qed.

(** ** Families of rows whose replay changes nothing *)

Definition replays (P : rowop -> Prop) : Prop :=
  (forall o, P o -> tolerant o) /\
  forall os v, Forall P os -> effects os (effects os v) = effects os v.

Lemma insert_all_replay P os t t' : replays P -> Forall P os -> insert_all os t = Some t' -> insert_all os t' = Some t'.
Proof.
  intros [Ht Hr] HP E. assert (Hto : Forall tolerant os) by (eapply Forall_impl; eauto).
  destruct (insert_all_lookup os t t' Hto E) as [Hk Hl].
  destruct (insert_all_ok os t' Hto Hk) as [t2 E2]. rewrite E2. f_equal. apply map_eq. intros k.
  destruct (insert_all_lookup os t' t2 Hto E2) as [_ Hl2]. rewrite Hl2, Hl. apply Hr.
  apply Forall_forall. intros o [_ Ho]%list_elem_of_filter. by eapply Forall_forall.
Qed.

Lemma effects_some os s : exists s', effects os (Some s) = Some s'.
Proof. revert s. induction os as [|o os IH]; intros s; [by exists s|]. apply IH. Qed.

(** The first row of a new key is stored; from then on it is there to be updated. *)
Lemma replays_from_some (P : rowop -> Prop) :
  (forall o, P o -> tolerant o) ->
  (forall o, P o -> effect o (Some (op_row o)) = Some (op_row o)) ->
  (forall os s, Forall P os -> effects os (effects os (Some s)) = effects os (Some s)) ->
  replays P.
Proof.
  intros Ht Hself Hs. split; [done|]. intros os [s|] HP; [by apply Hs|].
  destruct os as [|o os]; [done|]. pose proof (Forall_inv HP) as Ho.
  change (effects (o :: os) None) with (effects os (Some (op_row o))).
  assert (E : effects os (Some (op_row o)) = effects (o :: os) (Some (op_row o))).
  { change (effects (o :: os) (Some (op_row o))) with (effects os (effect o (Some (op_row o)))). by rewrite Hself. }
  rewrite E. by apply Hs.
Qed.

(** [ON CONFLICT DO NOTHING] *)
Definition ignoring (o : rowop) : Prop := op_on o = DoNothing.

Lemma ignoring_keeps os s : Forall ignoring os -> effects os (Some s) = Some s.
Proof.
  induction os as [|o os IH]; intros H; [done|]. apply Forall_cons in H as [Ho H].
  change (effects (o :: os) (Some s)) with (effects os (effect o (Some s))).
  unfold effect. rewrite Ho. by apply IH.
Qed.

Lemma replays_ignoring : replays ignoring.
Proof.
  apply replays_from_some.
  - intros o H. unfold tolerant. by rewrite H.
  - intros o H. unfold effect. by rewrite H.
  - intros os s H. by rewrite !ignoring_keeps.
Qed.

(** [DO UPDATE SET col = EXCLUDED.col, ... WHERE t.g <= EXCLUDED.g] *)
Definition guarded (g : string) (o : rowop) : Prop :=
  exists columns, op_on o = DoUpdate (set_excluded columns) (fun old new => sql_le (cell g old) (cell g new)) /\
    g ∈ columns /\ forall c, c ∈ columns -> is_Some (op_row o !! c).

(** What a row that updates writes, read off the update itself. *)
Definition written_columns (o : rowop) (c : string) : option db_param :=
  match op_on o with
  | DoUpdate set _ => set (op_row o) ∅ !! c
  | _ => None
  end.


Section GuardedFamily.
Context (g : string).

Lemma guarded_written o columns c :
  op_on o = DoUpdate (set_excluded columns) (fun old new => sql_le (cell g old) (cell g new)) ->
  written_columns o c = if decide (c ∈ columns) then Some (cell c (op_row o)) else None.
Proof. intros E. unfold written_columns. rewrite E, set_excluded_lookup. by case_decide. Qed.

Lemma guarded_writes o : guarded g o -> writes g op_row written_columns o.
Proof.
  intros (columns & E & Hg & Hc). split.
  - intros c v. rewrite (guarded_written o columns c E). case_decide; [|done]. intros [= <-].
    unfold cell. by destruct (Hc c ltac:(done)) as [x ->].
  - by rewrite (guarded_written o columns g E), decide_True.
Qed.

Lemma guarded_effect o s : guarded g o -> effect o (Some s) = Some (update g op_row written_columns o s).
Proof.
  intros Hg. pose proof (guarded_writes o Hg) as Hw. destruct Hg as (columns & E & Hg & Hc).
  unfold effect, update. rewrite E. destruct (sql_le _ _); [|done]. f_equal. apply map_eq. intros c.
  rewrite (overwrite_lookup g) by done. rewrite set_excluded_lookup, (guarded_written o columns c E). by case_decide.
Qed.

Lemma guarded_effects os s : Forall (guarded g) os -> effects os (Some s) = Some (updates g op_row written_columns os s).
Proof.
  revert s. induction os as [|o os IH]; intros s H; [done|]. apply Forall_cons in H as [Ho H].
  change (effects (o :: os) (Some s)) with (effects os (effect o (Some s))). rewrite guarded_effect by done. by apply IH.
Qed.

Lemma replays_guarded : replays (guarded g).
Proof.
  apply replays_from_some.
  - intros o (columns & E & _). unfold tolerant. by rewrite E.
  - intros o Ho. rewrite guarded_effect by done. unfold update. f_equal. destruct (sql_le _ _); [|done].
    apply (overwrite_row g). by apply guarded_writes.
  - intros os s H. rewrite !guarded_effects by done. f_equal. apply updates_replay.
    eapply Forall_impl; [exact H|]. apply guarded_writes.
Qed.

(** A stored row is never lost, and its compared column only moves forward. *)
Lemma guarded_forward os s : Forall (guarded g) os ->
  exists s', effects os (Some s) = Some s' /\ (s' = s \/ sql_le (cell g s) (cell g s') = true).
Proof.
  intros H. eexists. split; [by apply guarded_effects|].
  destruct (updates_forward g op_row written_columns os s); auto.
  eapply Forall_impl; [exact H|]. apply guarded_writes.
Qed.
End GuardedFamily.
