(* ===== verification/Undisturbed.v ===== *)
(** * Runs of database code against an undisturbed server

    Whatever the server answers, a run that succeeds did what it does with a server that
    carries everything out; a transaction does all of that or nothing.  Code whose statements
    do not depend on what the tables hold ([uniform]) upserts the same rows every time, so
    its replay changes nothing when each table's rows are of a replayable family. *)

From S2P Require Import Prelude PyFloat PyTime PyVal Codec Sql Upsert.

Open Scope py_scope.

(** ** Undisturbed runs

    [steady c]: when [c] succeeds, whatever the server's answers, it did what it does with a
    server that carries everything out. *)

Definition undisturbed (d : database) : session := Session d [] None.

Definition outcome {A} (c : SM A) (d : database) : option (A * database) :=
  match c (undisturbed d) with (Ok a, s) => Some (a, data s) | (Raise _, _) => None end.

Record steady {A} (c : SM A) : Prop := {
  steady_ok : forall s a s', c s = (Ok a, s') -> c (undisturbed (data s)) = (Ok a, undisturbed (data s'));
  steady_calm : forall s r s', answers s = [] -> c s = (r, s') ->
    answers s' = [] /\ forall e, r = Raise e -> fst (c (undisturbed (data s))) = Raise e;
}.

Lemma steady_execute {A} (f : database -> res (A * database)) : steady (execute f).
Proof.
  split.
  - intros s a s'. unfold execute. cbn.
    destruct (answers s) as [|[|e c|e c] l]; try done; cbn;
      destruct (f (data s)) as [[a' d']|e']; try done; by intros [= <- <-].
  - intros s r s' Ha. unfold execute. rewrite Ha. cbn.
    destruct (f (data s)) as [[a' d']|e']; intros [= <- <-]; cbn; naive_solver.
Qed.

Lemma steady_ret {A} (a : A) : steady (@ret session A a).
Proof. split; [by intros s a' s' [= <- <-] | intros s r s' ? [= <- <-]; naive_solver]. Qed.

Lemma steady_lift {A} (x : res A) : steady (@lift session A x).
Proof. split; [by intros s a' s' [= -> <-] | intros s r s' ? [= <- <-]; naive_solver]. Qed.

Lemma steady_bind {A B} (c : SM A) (k : A -> SM B) : steady c -> (forall a, steady (k a)) -> steady (bind c k).
Proof.
  intros [Hc1 Hc2] Hk. split.
  - intros s b s'. unfold bind. destruct (c s) as [[a|e] s1] eqn:E; [|done]. intros E2.
    rewrite (Hc1 _ _ _ E). by apply (steady_ok _ (Hk a)).
  - intros s r s' Ha. unfold bind. destruct (c s) as [[a|e] s1] eqn:E; intros E2.
    + destruct (Hc2 _ _ _ Ha E) as [Ha1 _]. destruct (steady_calm _ (Hk a) _ _ _ Ha1 E2) as [Ha2 Hr].
      split; [done|]. rewrite (Hc1 _ _ _ E). exact Hr.
    + destruct (Hc2 _ _ _ Ha E) as [Ha1 Hr]. injection E2 as <- <-. split; [done|]. intros e' [= <-].
      specialize (Hr e eq_refl). destruct (c (undisturbed (data s))) as [[a|e''] s2]; cbn in *; congruence.
Qed.

Lemma steady_foldM {A B} (f : B -> A -> SM B) l b : (forall b x, steady (f b x)) -> steady (foldM f b l).
Proof.
  intros Hf. revert b. induction l as [|x l IH]; intros b; cbn [foldM]; [apply steady_ret|].
  apply steady_bind; auto.
Qed.

#[export] Hint Resolve steady_execute steady_ret steady_lift steady_bind steady_foldM : nm.

Lemma outcome_bind {A B} (c : SM A) (k : A -> SM B) d : steady c ->
  outcome (bind c k) d = '(a, d) ← outcome c d; outcome (k a) d.
Proof.
  intros Hc. unfold outcome, bind. destruct (c (undisturbed d)) as [[a|e] s] eqn:E; cbn; [|done].
  pose proof (steady_ok _ Hc _ _ _ E) as E2. cbn in E2. rewrite E in E2. injection E2 as E2. by rewrite <- E2.
Qed.

Lemma outcome_execute {A} (f : database -> res (A * database)) d :
  outcome (execute f) d = match f d with Ok x => Some x | Raise _ => None end.
Proof. unfold outcome, execute. cbn. by destruct (f d) as [[a d']|e]. Qed.

Lemma outcome_lift {A} (x : res A) d : outcome (lift x) d = match x with Ok a => Some (a, d) | Raise _ => None end.
Proof. unfold outcome, lift. by destruct x. Qed.

Lemma outcome_ret {A} (a : A) d : outcome (ret a) d = Some (a, d).
Proof. done. Qed.

(** A transaction does all of its body or nothing; only a lost acknowledgement leaves the
    work done behind an exception. *)
Lemma transaction_outcome {A} (body : SM A) s out s' : steady body -> transaction body s = (out, s') ->
  match out with
  | Ok a => outcome body (data s) = Some (a, data s')
  | Raise e => data s' = data s \/
      (exists msg, e = lost_exn msg) /\ exists a, outcome body (data s) = Some (a, data s')
  end /\
  (answers s = [] -> answers s' = [] /\
     forall e, out = Raise e -> data s' = data s /\ fst (body (undisturbed (data s))) = Raise e).
Proof.
  intros Hb. unfold transaction, bind.
  assert (Hbegin : match execute no_change s with
                   | (Ok _, s1) => data s1 = data s /\ (answers s = [] -> answers s1 = [])
                   | (Raise _, s1) => data s1 = data s /\ answers s <> [] end).
  { unfold execute. destruct (answers s) as [|[|e c|e c] l]; done. }
  destruct (execute no_change s) as [[[]|e] s1]; destruct Hbegin as [Hd Ha].
  2: { intros [= <- <-]. split; [by left | done]. }
  destruct (body s1) as [[a|e] s2] eqn:E.
  - pose proof (steady_ok _ Hb _ _ _ E) as E2. rewrite Hd in E2.
    assert (Ho : outcome body (data s) = Some (a, data s2)) by (unfold outcome; by rewrite E2).
    assert (Hc : answers s = [] -> answers s2 = []) by (intros H; apply (steady_calm _ Hb _ _ _ (Ha H) E)).
    unfold commit. destruct (answers s2) as [|[|e c|e c] l] eqn:Ea; intros [= <- <-]; cbn; split; eauto;
      intros H; specialize (Hc H); done.
  - intros [= <- <-]. split; [by left|]. intros H.
    destruct (steady_calm _ Hb _ _ _ (Ha H) E) as [H1 H2]. split; [done|]. intros e' [= <-].
    split; [done|]. rewrite <- Hd. by apply H2.
Qed.

(** ** What a run of statements does to each table *)

Record step_to (ops : string -> list rowop) (d d' : database) : Prop := {
  st_parts : partitions d' = partitions d;
  st_table : forall n, ops n <> [] -> insert_all (ops n) (table_of n d) = Some (table_of n d') /\ is_Some (tables d' !! n);
  st_other : forall n, ops n = [] -> tables d' !! n = tables d !! n;
}.

Definition ops_nil : string -> list rowop := fun _ => [].
Definition ops_one (n : string) (o : rowop) : string -> list rowop := fun m => if decide (m = n) then [o] else [].
Definition ops_app (o1 o2 : string -> list rowop) : string -> list rowop := fun n => o1 n ++ o2 n.

Lemma insert_all_app o1 o2 t : insert_all (o1 ++ o2) t = t ← insert_all o1 t; insert_all o2 t.
Proof.
  revert t. induction o1 as [|o os IH]; intros t; [done|]. cbn.
  destruct (insert_row _ _ _ t) as [[w t1]|e]; [apply IH | done].
Qed.

Lemma step_insert_all ops d d' n : step_to ops d d' -> insert_all (ops n) (table_of n d) = Some (table_of n d').
Proof.
  intros [_ H1 H2]. destruct (ops n) as [|o os] eqn:E.
  - unfold table_of. by rewrite (H2 n E).
  - rewrite <- E. apply H1. congruence.
Qed.

Lemma step_nil d : step_to ops_nil d d.
Proof. by split. Qed.

Lemma step_app o1 o2 d d1 d2 : step_to o1 d d1 -> step_to o2 d1 d2 -> step_to (ops_app o1 o2) d d2.
Proof.
  intros S1 S2. split.
  - by rewrite (st_parts _ _ _ S2), (st_parts _ _ _ S1).
  - intros n Hn. unfold ops_app in *. split.
    + rewrite insert_all_app, (step_insert_all _ _ _ n S1). cbn. apply (step_insert_all _ _ _ n S2).
    + destruct (o2 n) eqn:E2; [|apply S2; congruence].
      rewrite (st_other _ _ _ S2 n E2). apply S1. rewrite app_nil_r in Hn. done.
  - intros n. unfold ops_app. intros [E1 E2]%app_eq_nil. by rewrite (st_other _ _ _ S2 n E2), (st_other _ _ _ S1 n E1).
Qed.

(** An INSERT succeeds or not by its row and the partitions alone. *)
Lemma insert_step n range into on new d w d' :
  on <> Fails_unique -> insert n range into on new d = Ok (w, d') ->
  forall d2, partitions d2 = partitions d ->
    exists w2 d2', insert n range into on new d2 = Ok (w2, d2') /\ step_to (ops_one n (RowOp into on new)) d2 d2'.
Proof.
  intros Hon E d2 Hp. unfold insert in *.
  assert (Hr : match range with Some c => negb (routed n (row_time c new) d2) | None => false end
             = match range with Some c => negb (routed n (row_time c new) d) | None => false end).
  { unfold routed. by rewrite Hp. }
  rewrite Hr. destruct (match range with Some c => _ | None => false end); [done|].
  pose proof (insert_row_effect (RowOp into on new) (table_of n d) Hon) as H1.
  pose proof (insert_row_effect (RowOp into on new) (table_of n d2) Hon) as H2. cbn [op_into op_on op_row] in *.
  destruct (insert_row into on new (table_of n d)) as [[w1 t1]|e1]; [|done].
  destruct (insert_row into on new (table_of n d2)) as [[w2 t2]|e2] eqn:E2.
  2: { destruct H1 as (k & Hk & _). congruence. }
  exists w2, (set_table n t2 d2). split; [done|]. split; [done | |].
  - intros m. unfold ops_one. case_decide as Hm; [subst|done]. intros _. split.
    + cbn [insert_all op_into op_on op_row]. rewrite E2. by rewrite table_of_set_table, decide_True.
    + cbn. by rewrite lookup_insert_eq.
  - intros m. unfold ops_one. case_decide as Hm; [done|]. intros _. cbn. by rewrite lookup_insert_ne.
Qed.

(** ** Runs that do not depend on the tables

    A family gives, for each table, the kind of row written to it. *)

Section Uniform.
Context (fam : string -> rowop -> Prop).

Definition uniform {X A} (c : X -> SM A) : Prop :=
  forall x d a d', outcome (c x) d = Some (a, d') ->
    exists ops, (forall n, Forall (fam n) (ops n)) /\
      forall x2 d2, partitions d2 = partitions d ->
        exists a2 d2', outcome (c x2) d2 = Some (a2, d2') /\ step_to ops d2 d2'.

Lemma uniform_same {X A} (c : X -> SM A) x d a d' : uniform c -> outcome (c x) d = Some (a, d') ->
  exists ops, (forall n, Forall (fam n) (ops n)) /\ step_to ops d d' /\
    forall x2 d2, partitions d2 = partitions d ->
      exists a2 d2', outcome (c x2) d2 = Some (a2, d2') /\ step_to ops d2 d2'.
Proof.
  intros Hu E. destruct (Hu x d a d' E) as (ops & Hf & H). exists ops. split_and!; [done | | done].
  destruct (H x d eq_refl) as (a2 & d2 & E2 & S). rewrite E in E2. by injection E2 as <- <-.
Qed.

Lemma uniform_pure {X A} (c : X -> SM A) :
  (forall x d, match outcome (c x) d with Some (_, d') => d' = d | None => True end) ->
  (forall x x2 d d2, is_Some (outcome (c x) d) -> is_Some (outcome (c x2) d2)) -> uniform c.
Proof.
  intros H1 H2 x d a d' E. exists ops_nil. split; [by constructor|]. intros x2 d2 _.
  destruct (H2 x x2 d d2 ltac:(eauto)) as [[a2 d2'] E2]. pose proof (H1 x2 d2) as H. rewrite E2 in H. subst.
  exists a2, d2. split; [done | apply step_nil].
Qed.

Lemma uniform_ret {X A} (f : X -> A) : uniform (fun x => ret (f x)).
Proof. apply uniform_pure; [done | by intros; eexists]. Qed.

Lemma uniform_bind {X A B} (c : X -> SM A) (k : X -> A -> SM B) :
  (forall x, steady (c x)) -> uniform c -> uniform (fun xa : X * A => k xa.1 xa.2) -> uniform (fun x => bind (c x) (k x)).
Proof.
  intros Hs Hc Hk x d b d' E. rewrite outcome_bind in E by done.
  destruct (outcome (c x) d) as [[a d1]|] eqn:E1; [|done]. cbn in E.
  destruct (uniform_same c x d a d1 Hc E1) as (o1 & F1 & S1 & H1).
  destruct (uniform_same _ (x, a) d1 b d' Hk E) as (o2 & F2 & S2 & H2).
  exists (ops_app o1 o2). split; [intros n; apply Forall_app; auto|].
  intros x2 d2 Hp. destruct (H1 x2 d2 Hp) as (a2 & d2' & E2 & S). rewrite outcome_bind, E2 by done. cbn.
  destruct (H2 (x2, a2) d2') as (b2 & d2'' & E3 & S'); [by rewrite (st_parts _ _ _ S), Hp, (st_parts _ _ _ S1)|].
  exists b2, d2''. split; [exact E3 | by eapply step_app].
Qed.

(** A value that does not depend on the state, computed before the rest. *)
Lemma uniform_lift_bind {X A B} (v : res A) (k : X -> A -> SM B) :
  (forall a, v = Ok a -> uniform (fun x => k x a)) -> uniform (fun x => bind (lift v) (k x)).
Proof.
  intros Hk x d b d'. rewrite outcome_bind, outcome_lift by apply steady_lift.
  destruct v as [a|e]; cbn; [|done]. intros E. destruct (Hk a eq_refl x d b d' E) as (ops & F & H).
  exists ops. split; [done|]. intros x2 d2 Hp. rewrite outcome_bind, outcome_lift by apply steady_lift. cbn. auto.
Qed.

Lemma uniform_foldM {A B} (f : B -> A -> SM B) l :
  (forall b x, steady (f b x)) -> (forall x, x ∈ l -> uniform (fun b => f b x)) -> uniform (fun b => foldM f b l).
Proof.
  intros Hs. induction l as [|x l IH]; intros Hf; cbn [foldM]; [apply (uniform_ret id)|].
  apply (uniform_bind (fun b => f b x) (fun _ b => foldM f b l)); [done | apply Hf; set_solver|].
  intros [b0 b] d b' d' E. destruct (IH ltac:(intros; apply Hf; set_solver) b d b' d' E) as (ops & F & H).
  exists ops. split; [done|]. intros [x1 x2] d2 Hp. by apply H.
Qed.

Lemma uniform_execute {X} n range into on new :
  on <> Fails_unique -> fam n (RowOp into on new) -> uniform (fun _ : X => execute (insert n range into on new)).
Proof.
  intros Hon Hf x d w d'. rewrite outcome_execute. destruct (insert _ _ _ _ _ d) as [[w1 d1]|] eqn:E; [|done].
  intros [= <- <-]. exists (ops_one n (RowOp into on new)). split.
  - intros m. unfold ops_one. case_decide; [subst; by repeat constructor | constructor].
  - intros _ d2 Hp. destruct (insert_step n range into on new d w1 d1 Hon E d2 Hp) as (w2 & d2' & E2 & S).
    exists w2, d2'. by rewrite outcome_execute, E2.
Qed.

Lemma uniform_insert_many {X P} (ins : P -> database -> res (Z * database)) ps :
  (forall p, p ∈ ps -> uniform (fun _ : unit => execute (ins p))) -> uniform (fun _ : X => execute (insert_many ins ps)).
Proof.
  induction ps as [|p ps IH]; intros H.
  - apply uniform_pure; intros; rewrite outcome_execute; done.
  - intros x d w d'. rewrite outcome_execute. cbn [insert_many].
    destruct (ins p d) as [[w1 d1]|] eqn:E1; [|done]. cbn.
    destruct (insert_many ins ps d1) as [[w2 d2]|] eqn:E2; [|done]. cbn. intros [= <- <-].
    assert (O1 : outcome (execute (ins p)) d = Some (w1, d1)) by (by rewrite outcome_execute, E1).
    assert (O2 : outcome (execute (insert_many ins ps)) d1 = Some (w2, d2)) by (by rewrite outcome_execute, E2).
    destruct (uniform_same _ tt d w1 d1 (H p ltac:(set_solver)) O1) as (o1 & F1 & S1 & H1).
    destruct (uniform_same _ x d1 w2 d2 (IH ltac:(intros; apply H; set_solver)) O2) as (o2 & F2 & S2 & H2).
    exists (ops_app o1 o2). split; [intros n; apply Forall_app; auto|].
    intros x2 d3 Hp. destruct (H1 tt d3 Hp) as (a3 & d3' & E3 & S3). rewrite outcome_execute in E3.
    destruct (ins p d3) as [[? ?]|] eqn:Ei; [|done]. injection E3 as -> ->.
    destruct (H2 x2 d3') as (a4 & d4 & E4 & S4); [by rewrite (st_parts _ _ _ S3), Hp, (st_parts _ _ _ S1)|].
    rewrite outcome_execute in E4. destruct (insert_many ins ps d3') as [[? ?]|] eqn:Em; [|done]. injection E4 as -> ->.
    eexists _, _. rewrite outcome_execute. cbn [insert_many]. rewrite Ei. cbn. rewrite Em. cbn.
    split; [done | by eapply step_app].
Qed.

(** Replayed, a uniform run of replayable rows changes nothing. *)
Lemma uniform_replay {X A} (c : X -> SM A) x d a d' :
  (forall n, replays (fam n)) -> uniform c -> outcome (c x) d = Some (a, d') ->
  forall e, partitions e = partitions d' -> (forall n o, fam n o -> tables e !! n = tables d' !! n) ->
    exists a2, outcome (c x) e = Some (a2, e).
Proof.
  intros Hf Hc E e Hpe Hte. destruct (uniform_same c x d a d' Hc E) as (ops & F & S & H).
  destruct (H x e) as (a2 & e' & E2 & S2); [by rewrite Hpe, (st_parts _ _ _ S)|]. exists a2. rewrite E2. do 2 f_equal.
  assert (Ht : tables e' = tables e).
  { apply map_eq. intros n. destruct (ops n) as [|o os] eqn:En; [by apply (st_other _ _ _ S2)|].
    assert (Hn : tables e !! n = tables d' !! n).
    { apply (Hte n o). pose proof (F n) as Fn. rewrite En in Fn. by apply Forall_inv in Fn. }
    destruct (st_table _ _ _ S n) as [I1 [t1 Hd1]]; [congruence|].
    destruct (st_table _ _ _ S2 n) as [I2 [t2 Hd2]]; [congruence|].
    pose proof (insert_all_replay _ _ _ _ (Hf n) (F n) I1) as I3.
    assert (table_of n e = table_of n d') as Ee by (unfold table_of; by rewrite Hn).
    rewrite Ee, I3 in I2. injection I2 as I2. unfold table_of in I2. rewrite Hd1, Hd2 in I2. cbn in I2.
    by rewrite Hn, Hd1, Hd2, I2. }
  pose proof (st_parts _ _ _ S2) as Hp. destruct e', e. cbn in *. by subst.
Qed.
End Uniform.
