(* ===== verification/DbWriter.v ===== *)
(** * Writing a batch to the database

    [node_monitor/database/writer.py]: a batch is prepared ([_plan]) before the database is
    touched, then written in one transaction ([_apply]), creating missing partitions on
    demand.  [write] and [ping] are the [Writer] interface of [Connect] over a [session]. *)

From S2P Require Import Prelude PyFloat PyTime PyVal Codec Connect Usage NodeMetrics Enrich Sql Maintenance.

Open Scope py_scope.

Definition _IDENTITY : list string := ["system"; "node"].

Definition _TABLE : list (string * string) :=
  [(LIVE_PROCESSES, "live_processes"); (LIVE_NODE, "live_nodes"); (NODE_HARDWARE, "node_hardware");
   (NODE_METRICS_1M, "node_metrics_1m"); (USER_USAGE_5M, "user_usage_5m");
   (NODE_USAGE_5M, "node_usage_5m"); (COLLECTION_EVENT, "collection_events")].

(** Summary table: its columns after system and node, and its primary key. *)
Definition _SUMMARIES : list (string * (list string * list string)) :=
  [("node_metrics_1m", (NODE_METRICS_COLUMNS, ["system"; "node"; "minute"]));
   ("user_usage_5m", (USER_USAGE_COLUMNS, ["system"; "node"; "username"; "interval_start"]));
   ("node_usage_5m", (NODE_USAGE_COLUMNS, ["system"; "node"; "interval_start"]))].

Definition _LIVE_NODE_COLUMNS : list string :=
  ["label"; "updated_at"; "session_state"; "boot_id"; "probe_version"; "load1"; "mem_used_kb";
   "mem_total_kb"; "procs_total"; "last_census_at"].
Definition _LIVE_NODE_REQUIRED : list string := ["updated_at"; "session_state"].

Definition _HARDWARE_COLUMNS : list string :=
  ["boot_id"; "btime"; "collected_at"; "probe_version"; "python_version"; "hostname_fqdn";
   "cpu_model"; "cpu_logical"; "sockets"; "cores_per_socket"; "cpu_max_freq_khz"; "numa_nodes";
   "mem_total_kb"; "swap_total_kb"; "hugepage_size_kb"; "kernel_release"; "os_pretty_name";
   "net_fs_mounts"; "net_ifaces"; "gpus"].
Definition _UNKNOWN_BOOT_ID : string := "unknown".

Definition _EVENT_COLUMNS : list string := ["ts"; "system"; "node"; "event_type"; "detail"].

Definition _MISSING_PARTITION_SQLSTATE : string := "23514".
Definition _MISSING_PARTITION_TEXT : string := "no partition of relation".

(** ** The statements *)

(** [_insert(table, columns)] with an [ON CONFLICT] clause and its parameters. *)
Definition _insert (columns : list string) (params : list db_param) : row_t := bind_row columns params.

Definition _SUMMARY_SQL (t : string) : list db_param -> database -> res (Z * database) :=
  match dget t _SUMMARIES with
  | None => fun _ _ => Raise (KeyError t)
  | Some (columns, k) =>
      let all_columns := _IDENTITY ++ columns in
      fun params => insert t (Some (partition_key t)) (InsertInto k k)
        (DoUpdate (set_excluded (filter (fun c => c ∉ k) all_columns))
           (fun old new => sql_le (cell "sample_count" old) (cell "sample_count" new)))
        (_insert all_columns params)
  end.

Definition hardware_into : insert_into :=
  InsertInto ["system"; "node"; "boot_id"; "collected_at"] ["system"; "node"; "boot_id"].
Definition _HARDWARE_SQL (params : list db_param) : database -> res (Z * database) :=
  insert "node_hardware" None hardware_into DoNothing (_insert (_IDENTITY ++ _HARDWARE_COLUMNS) params).

(** [collection_events_natural_key] treats NULLs as equal. *)
Definition events_into : insert_into :=
  InsertInto ["ts"; "system"; "event_type"; "detail"] ["system"; "node"; "ts"; "event_type"].
Definition _EVENT_SQL (params : list db_param) : database -> res (Z * database) :=
  insert "collection_events" (Some "ts") events_into DoNothing (_insert _EVENT_COLUMNS params).

Definition process_into : insert_into :=
  InsertInto ["system"; "node"; "ts"; "pid"; "start_time"] ["system"; "node"; "pid"; "start_time"].
Definition _PROCESS_SQL (params : list db_param) : database -> res (Z * database) :=
  insert "live_processes" None process_into Fails_unique
    (_insert (_IDENTITY ++ ["ts"] ++ LIVE_PROCESS_COLUMNS) params).

Definition snapshot_into : insert_into := InsertInto ["system"; "node"; "ts"] ["system"; "node"].
Definition _SNAPSHOT_SQL (params : list db_param) : database -> res (Z * database) :=
  insert "live_snapshots" None snapshot_into
    (DoUpdate (set_excluded ["ts"]) (fun old new => sql_le (cell "ts" old) (cell "ts" new)))
    (_insert ["system"; "node"; "ts"] params).

Definition of_node (system node : db_param) (r : row_t) : bool :=
  bool_decide (part_of (cell "system" r) = part_of system) && bool_decide (part_of (cell "node" r) = part_of node).

Definition _DELETE_PROCESSES_SQL (system node : db_param) (d : database) : res (unit * database) :=
  Ok (tt, set_table "live_processes"
            (filter (fun kr => of_node system node kr.2 = false) (table_of "live_processes" d)) d).

Definition node_into : insert_into :=
  InsertInto ["system"; "node"; "first_seen"; "last_seen"] ["system"; "node"].
Definition node_columns : list string := ["system"; "node"; "label"; "first_seen"; "last_seen"; "boot_id"].

(** [CASE WHEN c AND EXCLUDED.last_seen >= n.last_seen THEN EXCLUDED.col ELSE n.col END] *)
Definition case_newer (c : bool) (column : string) (new old : row_t) : db_param :=
  if c && sql_le (cell "last_seen" old) (cell "last_seen" new) then cell column new else cell column old.
Definition sql_least (a b : db_param) : db_param := if sql_le a b then a else b.
Definition sql_greatest (a b : db_param) : db_param := if sql_le a b then b else a.

Definition node_set (has_label : bool) (new old : row_t) : row_t :=
  <["label" := case_newer has_label "label" new old]>
  (<["boot_id" := case_newer (negb (is_null (cell "boot_id" new))) "boot_id" new old]>
  (<["first_seen" := sql_least (cell "first_seen" old) (cell "first_seen" new)]>
  (<["last_seen" := sql_greatest (cell "last_seen" old) (cell "last_seen" new)]> old))).

Record node_params := NodeParams { np_row : list db_param; has_label : bool }.

Definition _NODE_SQL (p : node_params) : database -> res (Z * database) :=
  insert "nodes" None node_into (DoUpdate (node_set (has_label p)) (fun _ _ => true))
    (_insert node_columns (np_row p)).

Definition _live_node_upsert (columns : list string) (params : list db_param) : database -> res (Z * database) :=
  insert "live_nodes" None (InsertInto ["system"; "node"; "updated_at"; "session_state"] ["system"; "node"])
    (DoUpdate (set_excluded columns) (fun old new => sql_le (cell "updated_at" old) (cell "updated_at" new)))
    (_insert (_IDENTITY ++ columns) params).

(** ** Preparing a batch *)

Record plan := Plan {
  snapshots : list ((string * string) * dict);
  live_nodes : list dict;
  hardware : list dict;
  summaries : list (string * list (list db_param));
  plan_events : list (list db_param);
  months : list ((string * string) * datetime);
  beyond_retention : list (string * Z);
}.

Definition empty_plan : plan := Plan [] [] [] [] [] [] [].

Definition _node_params (r : dict) (seen : value) (label_present : bool) : res node_params :=
  system ← item "system" r; node ← item "node" r;
  Ok (NodeParams [Scalar system; Scalar node; Scalar (dget_or_none "label" r); Scalar seen; Scalar seen;
                  Scalar (dget_or_none "boot_id" r)] label_present).

(** [t in s] *)
Fixpoint has_infix (t s : string) : bool :=
  has_prefix t s || match s with String _ s => has_infix t s | EmptyString => false end.

Definition is_check_violation (e : exn) : bool :=
  match e with PgError cls _ _ _ => bool_decide (cls = "CheckViolation") | _ => false end.

Definition _is_missing_partition (e : exn) : bool :=
  match e with
  | PgError _ _ sqlstate message =>
      bool_decide (sqlstate = _MISSING_PARTITION_SQLSTATE) && has_infix _MISSING_PARTITION_TEXT message
  | _ => false
  end.

(** [a <= b] of two datetimes: both aware or both naive. *)
Definition time_le (a b : value) : res bool :=
  match a, b with
  | VTime s, VTime t =>
      if Bool.eqb (is_aware s) (is_aware t) then Ok (instant s <=? instant t) else Raise TypeError
  | _, _ => Raise TypeError
  end.

Definition add_snapshot (r : dict) (pl : plan) : res plan :=
  system ← item "system" r ≫= as_str; node ← item "node" r ≫= as_str;
  let k := (system, node) in
  let keep := Plan (dset k r (snapshots pl)) (live_nodes pl) (hardware pl) (summaries pl)
                (plan_events pl) (months pl) (beyond_retention pl) in
  match dget k (snapshots pl) with
  | None => Ok keep
  | Some current =>
      ts ← item "ts" r; now ← item "ts" current;
      le ← time_le now ts;
      Ok (if le : bool then keep else pl)
  end.

Definition is_none (v : value) : bool := match v with VNone => true | _ => false end.

Definition missing (kind column : string) : exn := ValueError (kind +:+ " record without " +:+ column).

Definition add_live_node (r : dict) (pl : plan) : res plan :=
  match filter (fun c => is_none (dget_or_none c r) = true) _LIVE_NODE_REQUIRED with
  | c :: _ => Raise (missing LIVE_NODE c)
  | [] => Ok (Plan (snapshots pl) (live_nodes pl ++ [r]) (hardware pl) (summaries pl)
                (plan_events pl) (months pl) (beyond_retention pl))
  end.

Definition add_hardware (r : dict) (pl : plan) : res plan :=
  Ok (Plan (snapshots pl) (live_nodes pl) (hardware pl ++ [r]) (summaries pl) (plan_events pl)
        (months pl) (beyond_retention pl)).

Definition add_event_row (r : dict) (pl : plan) : res plan :=
  let detail := match dget_or_none "detail" r with VNone => VDict [] | v => v end in
  ts ← item "ts" r; system ← item "system" r; ty ← item "event_type" r;
  Ok (Plan (snapshots pl) (live_nodes pl) (hardware pl) (summaries pl)
        (plan_events pl ++ [[Scalar ts; Scalar system; Scalar (dget_or_none "node" r); Scalar ty;
                             to_db_value detail]])
        (months pl) (beyond_retention pl)).

Definition add_summary (t : string) (r : dict) (pl : plan) : res plan :=
  match dget t _SUMMARIES with
  | None => Raise (KeyError t)
  | Some (columns, _) =>
      let params := map (fun c => to_db_value (dget_or_none c r)) (_IDENTITY ++ columns) in
      Ok (Plan (snapshots pl) (live_nodes pl) (hardware pl)
            (dset t (default [] (dget t (summaries pl)) ++ [params]) (summaries pl))
            (plan_events pl) (months pl) (beyond_retention pl))
  end.

Definition count_beyond (t : string) (pl : plan) : plan :=
  Plan (snapshots pl) (live_nodes pl) (hardware pl) (summaries pl) (plan_events pl) (months pl)
    (dset t (default 0 (dget t (beyond_retention pl)) + 1) (beyond_retention pl)).

(** [plan.months.setdefault((table, name), ts)] *)
Definition need_month (t name : string) (ts : datetime) (pl : plan) : plan :=
  match dget (t, name) (months pl) with
  | Some _ => pl
  | None => Plan (snapshots pl) (live_nodes pl) (hardware pl) (summaries pl) (plan_events pl)
              (dset (t, name) ts (months pl)) (beyond_retention pl)
  end.

Section Writer.
Context (keep : retention).

(** The checks of a row of a partitioned table; [None] when it is beyond retention. *)
Definition admit_row (now : datetime) (rec_kind t : string) (r : dict) (pl : plan) : res (option plan) :=
  match dget t PARTITIONED with
  | None => Ok (Some pl)
  | Some days =>
      match dget_or_none (partition_key t) r with
      | VNone => Raise (missing rec_kind (partition_key t))
      | VTime ts =>
          ts ← require_aware ts;
          if instant ts <? instant (cutoff_of now (days keep)) then Ok None
          else name ← partition_name t ts; Ok (Some (need_month t name ts pl))
      | _ => Raise AttributeError
      end
  end.

(** One record of the loop of [_plan]. *)
Definition plan_one (now : datetime) (pl : plan) (rec : record) : res plan :=
  let t := default "" (dget (kind rec) _TABLE) in
  admitted ← admit_row now (kind rec) t (row rec) pl;
  match admitted with
  | None => Ok (count_beyond t pl)
  | Some pl =>
      if decide (kind rec = LIVE_PROCESSES) then add_snapshot (row rec) pl
      else if decide (kind rec = LIVE_NODE) then add_live_node (row rec) pl
      else if decide (kind rec = NODE_HARDWARE) then add_hardware (row rec) pl
      else if decide (kind rec = COLLECTION_EVENT) then add_event_row (row rec) pl
      else add_summary t (row rec) pl
  end.

Fixpoint foldM_res {A B} (f : B -> A -> res B) (b : B) (l : list A) : res B :=
  match l with [] => Ok b | x :: l => b ← f b x; foldM_res f b l end.

Definition _plan (records : list record) (now : datetime) : res plan :=
  now ← require_aware now;
  match filter (fun rec => dget (kind rec) _TABLE = None) records with
  | rec :: _ => Raise (ValueError ("unknown record kind " +:+ kind rec))
  | [] => foldM_res (plan_one now) empty_plan records
  end.
End Writer.

(** ** Writing *)

(** [written[table] += n] *)
Definition count_written (t : string) (n : Z) (w : list (string * Z)) : list (string * Z) :=
  dset t (default 0 (dget t w) + n) w.

Definition month_le (a b : (string * string) * datetime) : Prop :=
  String.le a.1.1 b.1.1 /\ (a.1.1 = b.1.1 -> String.le a.1.2 b.1.2).
#[local] Instance month_le_dec : RelDecision month_le.
Proof. intros a b. unfold month_le. apply _. Defined.

Definition _create_partitions (pl : plan) : SM (list string) :=
  transaction (
    foldM (fun made (m : (string * string) * datetime) =>
      let '((t, name), ts) := m in
      let* new := ensure_partition t ts in
      ret (if new : bool then made ++ [name] else made)) [] (merge_sort month_le (months pl))).

Definition hardware_params (r : dict) : list db_param :=
  let values := if is_none (dget_or_none "boot_id" r) then dset "boot_id" (VStr _UNKNOWN_BOOT_ID) r else r in
  map (fun c => to_db_value (dget_or_none c values)) (_IDENTITY ++ _HARDWARE_COLUMNS).

(** The parameters of the [nodes] statement, seen at the time in a column of the row. *)
Definition node_seen (column : string) (label_present : bool) (r : dict) : res node_params :=
  seen ← item column r; _node_params r seen label_present.

Definition _write_hardware (r : dict) : SM Z :=
  let* inserted := execute (_HARDWARE_SQL (hardware_params r)) in
  let* p := lift (node_seen "collected_at" false r) in
  execute (_NODE_SQL p) ;;;
  ret inserted.

Definition live_columns (r : dict) : list string := filter (fun c => c ∈ dkeys r) _LIVE_NODE_COLUMNS.

Definition live_params (r : dict) : res (list db_param) :=
  mapM_res (fun c => v ← item c r; Ok (to_db_value v)) (_IDENTITY ++ live_columns r).

Definition _write_live_node (r : dict) : SM Z :=
  let* params := lift (live_params r) in
  let* updated := execute (_live_node_upsert (live_columns r) params) in
  let* p := lift (node_seen "updated_at" (bool_decide ("label" ∈ dkeys r)) r) in
  execute (_NODE_SQL p) ;;;
  ret updated.

(** A value as the key of a Python dict; the pids and start times of a census are integers. *)
Definition hash_key (v : value) : res key_part :=
  match key_part_of (Scalar v) with Ok k => Ok k | Raise _ => Raise TypeError end.

(** [{(p.get("pid"), p.get("start_time")): p for p in processes}]: the last entry wins. *)
Definition by_process (processes : list value) : res (list ((key_part * key_part) * dict)) :=
  foldM_res (fun d v =>
    match v with
    | VDict p => pid ← hash_key (dget_or_none "pid" p); st ← hash_key (dget_or_none "start_time" p);
                 Ok (dset (pid, st) p d)
    | _ => Raise AttributeError
    end) [] processes.

Definition process_params (system node ts : value) (p : dict) : list db_param :=
  [Scalar system; Scalar node; Scalar ts] ++ map (fun c => to_db_value (dget_or_none c p)) LIVE_PROCESS_COLUMNS.

Definition list_of (v : value) : res (list value) :=
  match v with VList l | VTuple l => Ok l | _ => Raise TypeError end.

Definition snapshot_id (r : dict) : res (value * value * value) :=
  s ← item "system" r; n ← item "node" r; t ← item "ts" r; Ok (s, n, t).

Definition snapshot_processes (r : dict) : res (list dict) :=
  v ← item "processes" r; l ← list_of v; procs ← by_process l; Ok (map snd procs).

Definition _write_snapshot (r : dict) : SM Z :=
  let* '(system, node, ts) := lift (snapshot_id r) in
  let* fetched := execute (_SNAPSHOT_SQL [Scalar system; Scalar node; Scalar ts]) in
  if fetched =? 0 then ret 0
  else
    execute (_DELETE_PROCESSES_SQL (Scalar system) (Scalar node)) ;;;
    let* procs := lift (snapshot_processes r) in
    match procs with
    | [] => ret 0
    | _ => execute (insert_many _PROCESS_SQL (map (process_params system node ts) procs))
    end.

(** The rows of one list of the plan, one after the other, counted under their table. *)
Definition write_rows {A} (t : string) (f : A -> SM Z) (l : list A) (w : list (string * Z)) : SM (list (string * Z)) :=
  foldM (fun w x => let* n := f x in ret (count_written t n w)) w l.

Definition write_summaries (l : list (string * list (list db_param))) (w : list (string * Z)) : SM (list (string * Z)) :=
  foldM (fun w (tp : string * list (list db_param)) =>
    let* n := execute (insert_many (_SUMMARY_SQL tp.1) tp.2) in
    ret (count_written tp.1 n w)) w l.

Definition write_events (evs : list (list db_param)) (w : list (string * Z)) : SM (list (string * Z)) :=
  match evs with
  | [] => ret w
  | _ => let* n := execute (insert_many _EVENT_SQL evs) in ret (count_written "collection_events" n w)
  end.

(** Every table but the live processes; partitioned tables first. *)
Definition apply_rows (pl : plan) : SM (list (string * Z)) :=
  let* w := write_summaries (summaries pl) [] in
  let* w := write_events (plan_events pl) w in
  let* w := write_rows "node_hardware" _write_hardware (hardware pl) w in
  write_rows "live_nodes" _write_live_node (live_nodes pl) w.

Definition apply_snapshots (pl : plan) (w : list (string * Z)) : SM (list (string * Z)) :=
  write_rows "live_processes" _write_snapshot (map snd (snapshots pl)) w.

Definition _apply (pl : plan) : SM (list (string * Z)) :=
  transaction (let* w := apply_rows pl in apply_snapshots pl w).

(** [_discard_if_unusable] *)
Definition _discard_if_unusable (force : bool) : SM unit := fun s =>
  match link s with
  | None => (Ok tt, s)
  | Some c =>
      if force || c_closed c || c_broken c || negb (c_idle c) then (Ok tt, set_conn None s) else (Ok tt, s)
  end.

(** The attempt inside the outer [try] of [write]: the counts and the partitions created. *)
Definition write_attempt (pl : plan) : SM (list (string * Z) * list string) :=
  reconnect ;;;
  try_except (let* w := _apply pl in ret (w, []))
    (fun e =>
       if is_check_violation e then
         Some (if _is_missing_partition e then
                 let* made := _create_partitions pl in
                 let* w := _apply pl in ret (w, made)
               else raise e)
       else None).

Definition write (keep : retention) (records : list record) (now : datetime) : SM write_result :=
  let* pl := lift (_plan keep records now) in
  let* r := try_except (write_attempt pl)
    (fun e => Some (
       let outage := is_unavailable e in
       _discard_if_unusable outage ;;;
       raise (if outage then DatabaseUnavailable ("database unavailable: " +:+ exn_text e) else e))) in
  ret (WriteResult r.1 (beyond_retention pl) r.2).

Definition ping : SM bool :=
  try_except (reconnect ;;; execute no_change ;;; ret true)
    (fun _ => Some (_discard_if_unusable true ;;; ret false)).

Definition close : SM unit := modify (set_conn None).

(** [DatabaseWriter] is a [Writer]. *)
#[export] Instance database_writer (keep : retention) : Writer session := {
  db_write := write keep;
  db_ping s := match ping s with (Ok b, s') => (b, s') | (Raise _, s') => (false, s') end;
}.
