(* ===== verification/WriterFacts.v ===== *)
(** * The writer is safe to replay

    What writing a batch does to each table: the upserts of [apply_rows] are of replayable
    families, and a snapshot, once written, is settled.  Hence a batch written twice leaves
    the database as written once, a write is all or nothing, live state only moves forward,
    and a node's process rows are those of its snapshot. *)

From S2P Require Import Prelude PyFloat PyTime PyVal Codec Connect Enrich Sql Maintenance Upsert Undisturbed DbWriter.

Open Scope py_scope.

(** ** The node row *)

Section NodeRows.
Definition node_row : Type := bool * row_t.

Definition NODE_FIELDS : list string := ["label"; "boot_id"; "first_seen"; "last_seen"].

Definition bound (x : node_row) : Prop := forall c, c ∈ NODE_FIELDS -> is_Some (x.2 !! c).

Definition node_sets (xs : list node_row) (s : row_t) : row_t := foldl (fun s x => node_set x.1 x.2 s) s xs.

(** The columns the guard on [last_seen] decides, and what a newer row writes there. *)
Definition newer_columns (r : row_t) : row_t :=
  list_to_map [("label", cell "label" r); ("boot_id", cell "boot_id" r); ("last_seen", cell "last_seen" r)].
Definition newer_writes (x : node_row) (c : string) : option db_param :=
  if decide (c = "label") then if x.1 then Some (cell c x.2) else None
  else if decide (c = "boot_id") then if is_null (cell c x.2) then None else Some (cell c x.2)
  else if decide (c = "last_seen") then Some (cell c x.2)
  else None.

Lemma newer_columns_lookup r c : newer_columns r !! c
  = if decide (c = "label") then Some (cell c r) else if decide (c = "boot_id") then Some (cell c r)
    else if decide (c = "last_seen") then Some (cell c r) else None.
Proof.
  unfold newer_columns. cbn [list_to_map foldr]. repeat case_decide; subst; try (by simplify_map_eq).
Qed.

Lemma newer_writes_ok (x : node_row) : writes "last_seen" (fun x => newer_columns x.2) newer_writes x.
Proof.
  split.
  - intros c v. unfold newer_writes. rewrite newer_columns_lookup. repeat case_decide; try done.
    + by destruct x.1.
    + by destruct (is_null _).
  - unfold newer_writes. cbn. f_equal.
Qed.

Lemma node_set_lookup hl new old c : node_set hl new old !! c
  = if decide (c = "label") then Some (case_newer hl "label" new old)
    else if decide (c = "boot_id") then Some (case_newer (negb (is_null (cell "boot_id" new))) "boot_id" new old)
    else if decide (c = "first_seen") then Some (sql_least (cell "first_seen" old) (cell "first_seen" new))
    else if decide (c = "last_seen") then Some (sql_greatest (cell "last_seen" old) (cell "last_seen" new))
    else old !! c.
Proof. unfold node_set. repeat case_decide; subst; by simplify_map_eq. Qed.

Lemma node_set_newer x old :
  newer_columns (node_set x.1 x.2 old) = update "last_seen" (fun x => newer_columns x.2) newer_writes x (newer_columns old).
Proof.
  destruct x as [hl new]. cbn [fst snd]. apply map_eq. intros c.
  assert (Hg : forall r, cell "last_seen" (newer_columns r) = cell "last_seen" r) by done.
  unfold update. cbn [fst snd]. rewrite !Hg.
  rewrite newer_columns_lookup. unfold cell at 1 2 3. rewrite node_set_lookup.
  destruct (sql_le (cell "last_seen" old) (cell "last_seen" new)) eqn:E.
  - rewrite (overwrite_lookup "last_seen") by apply newer_writes_ok. rewrite newer_columns_lookup.
    unfold newer_writes, case_newer, sql_greatest. cbn [fst snd]. rewrite E, !andb_true_r.
    repeat case_decide; subst; cbn; try done; [by destruct hl | by destruct (is_null _)].
  - rewrite newer_columns_lookup. unfold case_newer, sql_greatest. rewrite E, !andb_false_r.
    repeat case_decide; subst; done.
Qed.

Lemma node_sets_newer xs s :
  newer_columns (node_sets xs s) = updates "last_seen" (fun x => newer_columns x.2) newer_writes xs (newer_columns s).
Proof.
  revert s. induction xs as [|x xs IH]; intros s; [done|].
  change (node_sets (x :: xs) s) with (node_sets xs (node_set x.1 x.2 s)). rewrite IH. by rewrite node_set_newer.
Qed.

Lemma cell_first_seen hl new old :
  cell "first_seen" (node_set hl new old) = sql_least (cell "first_seen" old) (cell "first_seen" new).
Proof. unfold cell at 1. by rewrite node_set_lookup. Qed.

Lemma node_sets_first xs s :
  cell "first_seen" (node_sets xs s) = least_of (map (fun x => cell "first_seen" x.2) xs) (cell "first_seen" s).
Proof.
  revert s. induction xs as [|x xs IH]; intros s; [done|].
  change (node_sets (x :: xs) s) with (node_sets xs (node_set x.1 x.2 s)). rewrite IH, cell_first_seen. done.
Qed.

Lemma node_sets_other xs s c : c ∉ NODE_FIELDS -> node_sets xs s !! c = s !! c.
Proof.
  intros Hc. revert s. induction xs as [|x xs IH]; intros s; [done|].
  change (node_sets (x :: xs) s) with (node_sets xs (node_set x.1 x.2 s)). rewrite IH, node_set_lookup.
  unfold NODE_FIELDS in Hc. by rewrite !decide_False by set_solver.
Qed.

Lemma node_sets_bound x xs s c : c ∈ NODE_FIELDS -> is_Some (node_sets (x :: xs) s !! c).
Proof.
  intros Hc. revert x s. induction xs as [|y xs IH]; intros x s.
  - change (node_sets [x] s) with (node_set x.1 x.2 s). rewrite node_set_lookup.
    unfold NODE_FIELDS in Hc. repeat case_decide; try done. set_solver.
  - exact (IH y (node_set x.1 x.2 s)).
Qed.

Lemma node_sets_replay xs s : node_sets xs (node_sets xs s) = node_sets xs s.
Proof.
  destruct xs as [|x xs]; [done|]. set (m := node_sets (x :: xs) s). apply map_eq. intros c.
  destruct (decide (c ∈ NODE_FIELDS)) as [Hc|Hc].
  2: { by rewrite node_sets_other. }
  assert (Hcell : cell c (node_sets (x :: xs) m) = cell c m).
  { destruct (decide (c = "first_seen")) as [->|Hne].
    - rewrite node_sets_first. unfold m. rewrite node_sets_first. apply least_of_replay.
    - assert (Hn : newer_columns (node_sets (x :: xs) m) = newer_columns m).
      { rewrite node_sets_newer. unfold m. rewrite node_sets_newer. apply updates_replay.
        apply Forall_forall. intros y _. apply newer_writes_ok. }
      apply (f_equal (fun r => r !! c)) in Hn. rewrite !newer_columns_lookup in Hn.
      unfold NODE_FIELDS in Hc. repeat case_decide; try congruence. set_solver. }
  destruct (node_sets_bound x xs m c Hc) as [v1 E1]. destruct (node_sets_bound x xs s c Hc) as [v2 E2]. fold m in E2.
  unfold cell in Hcell. rewrite E1, E2 in Hcell |- *. cbn in Hcell. by rewrite Hcell.
Qed.

Lemma node_set_self x : bound x -> node_set x.1 x.2 x.2 = x.2.
Proof.
  intros Hb. apply map_eq. intros c. rewrite node_set_lookup.
  assert (Hc : c ∈ NODE_FIELDS -> Some (cell c x.2) = x.2 !! c).
  { intros Hc. unfold cell. by destruct (Hb c Hc) as [v ->]. }
  unfold NODE_FIELDS in Hc. unfold case_newer, sql_least, sql_greatest.
  repeat case_decide; subst; try done; rewrite <- Hc by set_solver; by repeat case_match.
Qed.
End NodeRows.

Definition noding (o : rowop) : Prop :=
  exists hl, op_on o = DoUpdate (node_set hl) (fun _ _ => true) /\ bound (hl, op_row o).

Lemma noding_rows os : Forall noding os ->
  exists xs, Forall bound xs /\ forall s, effects os (Some s) = Some (node_sets xs s).
Proof.
  induction 1 as [|o os (hl & E & Hb) _ (xs & Hxs & IH)]; [by exists []|].
  exists ((hl, op_row o) :: xs). split; [by constructor|]. intros s.
  change (effects (o :: os) (Some s)) with (effects os (effect o (Some s))). unfold effect. rewrite E. apply IH.
Qed.

Lemma replays_noding : replays noding.
Proof.
  apply replays_from_some.
  - intros o (hl & E & _). unfold tolerant. by rewrite E.
  - intros o (hl & E & Hb). unfold effect. rewrite E. f_equal. apply (node_set_self (hl, op_row o) Hb).
  - intros os s H. destruct (noding_rows os H) as (xs & _ & E). by rewrite !E, node_sets_replay.
Qed.

(** The family of each table the writer upserts into. *)
Definition family (n : string) : rowop -> Prop :=
  if decide (n ∈ dkeys _SUMMARIES) then guarded "sample_count"
  else if decide (n = "live_nodes") then guarded "updated_at"
  else if decide (n = "nodes") then noding
  else if decide (n = "live_snapshots" \/ n = "live_processes") then fun _ => False
  else ignoring.

Lemma replays_none : replays (fun _ => False).
Proof. split; [done|]. intros [|o os] v H; [done | by apply Forall_inv in H]. Qed.

Lemma family_replays n : replays (family n).
Proof.
  unfold family. repeat case_decide; auto using replays_guarded, replays_noding, replays_ignoring, replays_none.
Qed.

(** ** Plans are well formed *)

Record plan_ok (pl : plan) : Prop := {
  po_summaries : Forall (fun tp : string * list (list db_param) => exists columns k, dget tp.1 _SUMMARIES = Some (columns, k) /\
    Forall (fun ps => length ps = length (_IDENTITY ++ columns)) tp.2) (summaries pl);
  po_live : Forall (fun r => forall c, c ∈ _LIVE_NODE_REQUIRED -> is_none (dget_or_none c r) = false) (live_nodes pl);
  po_snapshots : Forall (fun kr : (string * string) * dict =>
    item "system" kr.2 = Ok (VStr kr.1.1) /\ item "node" kr.2 = Ok (VStr kr.1.2)) (snapshots pl);
  po_nodes : NoDup (dkeys (snapshots pl));
}.

Lemma need_month_ok t name ts pl : plan_ok pl -> plan_ok (need_month t name ts pl).
Proof. intros []. unfold need_month. destruct (dget _ _); by split. Qed.

Lemma admit_row_ok keep now knd t r pl pl' : plan_ok pl -> admit_row keep now knd t r pl = Ok (Some pl') -> plan_ok pl'.
Proof.
  intros Hp. unfold admit_row. destruct (dget t PARTITIONED); [|by intros [= <-]].
  destruct (dget_or_none _ r); try done. intros E.
  ok_step E as (ts & _ & E). destruct (_ <? _); [done|]. ok_step E as (n & _ & E). injection E as <-.
  by apply need_month_ok.
Qed.

Lemma as_str_ok v s : as_str v = Ok s -> v = VStr s.
Proof. destruct v; cbn; by intros [= ->]. Qed.

Lemma plan_one_ok keep now pl rec pl' : plan_ok pl -> plan_one keep now pl rec = Ok pl' -> plan_ok pl'.
Proof.
  intros Hp E. unfold plan_one in E. generalize dependent (default "" (dget (kind rec) _TABLE)). intros t E. ok_step E as (adm & Ea & E). destruct adm as [pl1|].
  2: { injection E as <-. by destruct Hp. }
  apply admit_row_ok in Ea as [H1 H2 H3 H4]; [|done]. clear Hp. repeat case_decide.
  - unfold add_snapshot in E. ok_step E as (sys & Es & E). ok_step E as (nd & En & E).
    ok_step Es as (vs & Es & Es'). ok_step En as (vn & En & En'). apply as_str_ok in Es' as ->, En' as ->.
    assert (Hkeep : plan_ok (Plan (dset (sys, nd) (row rec) (snapshots pl1)) (live_nodes pl1) (hardware pl1)
        (summaries pl1) (plan_events pl1) (months pl1) (beyond_retention pl1))).
    { split; cbn; [done | done | by apply Forall_dset | by apply NoDup_dkeys_dset]. }
    destruct (dget _ _); [|by injection E as <-].
    ok_step E as (ts & _ & E). ok_step E as (cur & _ & E). ok_step E as (le & _ & E). injection E as <-. by destruct le.
  - unfold add_live_node in E. destruct (filter _ _) eqn:Ef; [|done]. injection E as <-.
    split; cbn; try done. apply Forall_app. split; [done|]. apply Forall_singleton. intros c Hc.
    apply not_true_is_false. intros Hn.
    assert (c ∈ filter (fun c => is_none (dget_or_none c (row rec)) = true) _LIVE_NODE_REQUIRED) as Hin
      by by apply list_elem_of_filter.
    rewrite Ef in Hin. by apply elem_of_nil in Hin.
  - injection E as <-. by split.
  - unfold add_event_row in E. ok_step E as (? & _ & E). ok_step E as (? & _ & E). ok_step E as (? & _ & E).
    injection E as <-. by split.
  - unfold add_summary in E. destruct (dget _ _SUMMARIES) as [[columns k]|] eqn:Es; [|done]. injection E as <-.
    split; cbn; try done. apply Forall_dset; [|done]. exists columns, k. split; [done|].
    apply Forall_app. split; [|apply Forall_singleton; cbn; by rewrite ?length_fmap, ?length_map].
    destruct (dget _ (summaries pl1)) as [pss|] eqn:Ed; [|constructor]. cbn.
    apply dget_elem in Ed as Hx.
    destruct (proj1 (Forall_forall _ _) H1 _ Hx) as (c2 & k2 & E2 & Hf). cbn [fst snd] in E2, Hf. rewrite Es in E2. by injection E2 as <- <-.
Qed.

Lemma plan_is_ok keep records now pl : _plan keep records now = Ok pl -> plan_ok pl.
Proof.
  intros E. unfold _plan in E. ok_step E as (n & _ & E). destruct (filter _ records); [|done].
  assert (Hp : plan_ok empty_plan) by (split; constructor).
  revert E Hp. generalize empty_plan. induction records as [|r rs IH]; intros p E Hp; cbn in E; [by injection E as <-|].
  ok_step E as (p' & E1 & E). eapply IH; [done|]. by eapply plan_one_ok.
Qed.

(** ** Every row the writer upserts belongs to its table's family *)

Lemma bind_row_some columns params c : length params = length columns -> c ∈ columns ->
  is_Some (bind_row columns params !! c).
Proof.
  unfold bind_row. revert params. induction columns as [|c' cs IH]; intros params Hl Hc; [by apply elem_of_nil in Hc|].
  destruct params as [|p ps]; [done|]. cbn. destruct (decide (c = c')) as [->|Hne].
  - by rewrite lookup_insert_eq.
  - rewrite lookup_insert_ne by done. apply IH; [by injection Hl | set_solver].
Qed.

Lemma summary_family t columns k ps : dget t _SUMMARIES = Some (columns, k) -> length ps = length (_IDENTITY ++ columns) ->
  family t (RowOp (InsertInto k k) (DoUpdate (set_excluded (filter (fun c => c ∉ k) (_IDENTITY ++ columns)))
     (fun old new => sql_le (cell "sample_count" old) (cell "sample_count" new))) (_insert (_IDENTITY ++ columns) ps)).
Proof.
  intros Et Hl. unfold family. rewrite decide_True by (apply elem_of_dkeys; by rewrite Et).
  eexists. split; [done|]. split.
  - assert (Ht : t ∈ dkeys _SUMMARIES) by (apply elem_of_dkeys; by rewrite Et).
    cbn in Ht. apply list_elem_of_filter. revert Et.
    repeat (apply elem_of_cons in Ht as [->|Ht]; [by intros [= <- <-]; apply (bool_decide_unpack _); vm_compute|]).
    by apply elem_of_nil in Ht.
  - intros c [_ Hc]%list_elem_of_filter. cbn [op_row]. by apply bind_row_some.
Qed.

Lemma node_params_family r seen lp p : _node_params r seen lp = Ok p ->
  family "nodes" (RowOp node_into (DoUpdate (node_set (has_label p)) (fun _ _ => true)) (_insert node_columns (np_row p))).
Proof.
  intros E. unfold _node_params in E. ok_step E as (s & _ & E). ok_step E as (n & _ & E). injection E as <-.
  unfold family. rewrite decide_False by (cbn; set_solver). rewrite decide_False, decide_True by done.
  eexists. split; [done|]. intros c Hc. apply bind_row_some; [done|].
  unfold NODE_FIELDS, node_columns in *. set_solver.
Qed.

(** ** Everything but the snapshots replays as nothing *)

Section Rows.
Abbreviation uni := (uniform family).

Lemma uniform_comp {X Y A} (h : Y -> X) (c : X -> SM A) : uni c -> uni (fun y => c (h y)).
Proof.
  intros H y d a d' E. destruct (H (h y) d a d' E) as (ops & F & G). exists ops. split; [done|].
  intros y2 d2 Hp. by apply G.
Qed.

Lemma steady_write_hardware r : steady (_write_hardware r).
Proof. unfold _write_hardware. auto 10 with nm. Qed.
Lemma steady_write_live_node r : steady (_write_live_node r).
Proof. unfold _write_live_node. auto 10 with nm. Qed.
Lemma steady_write_rows {A} t (f : A -> SM Z) l w : (forall x, steady (f x)) -> steady (write_rows t f l w).
Proof. intros H. unfold write_rows. auto with nm. Qed.

Lemma uniform_node_seen {X} column lp r (f : X -> Z) :
  uni (fun x : X => bind (lift (node_seen column lp r)) (fun p => bind (execute (_NODE_SQL p)) (fun _ => ret (f x)))).
Proof.
  apply (uniform_lift_bind family (X := X) _ (fun x p => bind (execute (_NODE_SQL p)) (fun _ => ret (f x)))).
  intros p Hp. unfold node_seen in Hp. ok_step Hp as (seen & _ & Hp).
  apply (uniform_bind family (fun _ => execute (_NODE_SQL p)) (fun x _ => ret (f x))); [auto with nm | |].
  - apply uniform_execute; [done|]. by eapply node_params_family.
  - apply (uniform_ret family (fun xa : X * Z => f xa.1)).
Qed.

Lemma uniform_write_hardware {X} r : uni (fun _ : X => _write_hardware r).
Proof.
  unfold _write_hardware.
  apply (uniform_bind family (fun _ : X => execute (_HARDWARE_SQL (hardware_params r)))
    (fun _ n => bind (lift (node_seen "collected_at" false r)) (fun p => bind (execute (_NODE_SQL p)) (fun _ => ret n)))).
  - auto with nm.
  - apply uniform_execute; [done|]. unfold family. rewrite decide_False by (cbn; set_solver).
    by rewrite !decide_False by naive_solver.
  - apply (uniform_node_seen "collected_at" false r (fun xa : X * Z => xa.2)).
Qed.

Lemma mapM_res_length {A B} (f : A -> res B) l l' : mapM_res f l = Ok l' -> length l' = length l.
Proof.
  revert l'. induction l as [|x l IH]; cbn; intros l' E; [by injection E as <-|].
  ok_step E as (y & _ & E). ok_step E as (ys & Hys & E). injection E as <-. cbn. by rewrite (IH ys Hys).
Qed.

Lemma is_none_dkeys c r : is_none (dget_or_none c r) = false -> c ∈ dkeys r.
Proof. unfold dget_or_none. rewrite elem_of_dkeys. by destruct (dget c r). Qed.

Lemma live_family r ps :
  (forall c, c ∈ _LIVE_NODE_REQUIRED -> is_none (dget_or_none c r) = false) ->
  length ps = length (_IDENTITY ++ live_columns r) ->
  family "live_nodes" (RowOp (InsertInto ["system"; "node"; "updated_at"; "session_state"] ["system"; "node"])
    (DoUpdate (set_excluded (live_columns r)) (fun old new => sql_le (cell "updated_at" old) (cell "updated_at" new)))
    (_insert (_IDENTITY ++ live_columns r) ps)).
Proof.
  intros Hr Hl. unfold family. rewrite decide_False by (cbn; set_solver). rewrite decide_True by done.
  eexists. split; [done|]. split.
  - apply list_elem_of_filter. split; [apply is_none_dkeys, Hr; set_solver | unfold _LIVE_NODE_COLUMNS; set_solver].
  - intros c Hc. cbn [op_row]. apply bind_row_some; [done | set_solver].
Qed.

Lemma uniform_write_live_node {X} r :
  (forall c, c ∈ _LIVE_NODE_REQUIRED -> is_none (dget_or_none c r) = false) -> uni (fun _ : X => _write_live_node r).
Proof.
  intros Hr. unfold _write_live_node. apply (uniform_lift_bind family (X := X)). intros ps Hps.
  apply mapM_res_length in Hps.
  apply (uniform_bind family (fun _ : X => execute (_live_node_upsert (live_columns r) ps))
    (fun _ n => bind (lift (node_seen "updated_at" (bool_decide ("label" ∈ dkeys r)) r))
       (fun p => bind (execute (_NODE_SQL p)) (fun _ => ret n)))).
  - auto with nm.
  - apply uniform_execute; [done | by apply live_family].
  - apply (uniform_node_seen "updated_at" _ r (fun xa : X * Z => xa.2)).
Qed.
End Rows.

Section ApplyRows.
Abbreviation uni := (uniform family).

Lemma uniform_write_rows {A} t (f : A -> SM Z) l :
  (forall x, steady (f x)) -> (forall x, x ∈ l -> uni (fun _ : list (string * Z) => f x)) ->
  uni (fun w => write_rows t f l w).
Proof.
  intros Hs Hf. unfold write_rows. apply uniform_foldM; [auto with nm|]. intros x Hx.
  apply (uniform_bind family (fun _ => f x) (fun w n => ret (count_written t n w))); [done | by apply Hf |].
  apply (uniform_ret family (fun wn : list (string * Z) * Z => count_written t wn.2 wn.1)).
Qed.

Lemma uniform_summaries l :
  Forall (fun tp : string * list (list db_param) => exists columns k, dget tp.1 _SUMMARIES = Some (columns, k) /\
    Forall (fun ps => length ps = length (_IDENTITY ++ columns)) tp.2) l ->
  uni (write_summaries l).
Proof.
  intros Hl. unfold write_summaries. apply uniform_foldM; [auto with nm|]. intros [t pss] Hin.
  destruct (proj1 (Forall_forall _ _) Hl _ Hin) as (columns & k & Et & Hp). cbn [fst snd] in *.
  apply (uniform_bind family (fun _ => execute (insert_many (_SUMMARY_SQL t) pss)) (fun w n => ret (count_written t n w))).
  - auto with nm.
  - apply uniform_insert_many. intros ps Hps. unfold _SUMMARY_SQL. rewrite Et.
    apply uniform_execute; [done|]. apply summary_family; [done|]. by apply (proj1 (Forall_forall _ _) Hp).
  - apply (uniform_ret family (fun wn : list (string * Z) * Z => count_written t wn.2 wn.1)).
Qed.

Lemma steady_write_events evs w : steady (write_events evs w).
Proof. unfold write_events. destruct evs; auto with nm. Qed.
Lemma steady_write_summaries l w : steady (write_summaries l w).
Proof. unfold write_summaries. auto with nm. Qed.

Lemma uniform_events evs : uni (write_events evs).
Proof.
  unfold write_events. destruct evs as [|e evs]; [apply (uniform_ret family id)|].
  apply (uniform_bind family (fun _ => execute (insert_many _EVENT_SQL (e :: evs)))
    (fun w n => ret (count_written "collection_events" n w))).
  - auto with nm.
  - apply uniform_insert_many. intros p _. apply uniform_execute; [done|].
    unfold family. rewrite decide_False by (cbn; set_solver). by rewrite !decide_False by naive_solver.
  - apply (uniform_ret family (fun wn : list (string * Z) * Z => count_written "collection_events" wn.2 wn.1)).
Qed.

Lemma steady_apply_rows pl : steady (apply_rows pl).
Proof.
  unfold apply_rows. repeat (apply steady_bind; [|intros ?w]);
    auto using steady_write_summaries, steady_write_events, steady_write_rows, steady_write_hardware, steady_write_live_node.
Qed.

Lemma uniform_apply_rows pl : plan_ok pl -> uni (fun _ : unit => apply_rows pl).
Proof.
  intros [H1 H2 _ _]. unfold apply_rows.
  set (K3 := write_rows "live_nodes" _write_live_node (live_nodes pl)).
  set (K2 := fun w => bind (write_rows "node_hardware" _write_hardware (hardware pl) w) K3).
  set (K1 := fun w => bind (write_events (plan_events pl) w) K2).
  assert (U3 : uni K3).
  { apply uniform_write_rows; [apply steady_write_live_node|].
    intros r Hr. apply uniform_write_live_node. exact (proj1 (Forall_forall _ _) H2 r Hr). }
  assert (U2 : uni K2).
  { apply (uniform_bind family _ (fun _ => K3)); [| |exact (uniform_comp snd K3 U3)].
    - intros w. apply steady_write_rows, steady_write_hardware.
    - apply uniform_write_rows; [apply steady_write_hardware | intros; apply uniform_write_hardware]. }
  assert (U1 : uni K1).
  { apply (uniform_bind family _ (fun _ => K2)); [apply steady_write_events | apply uniform_events |].
    exact (uniform_comp snd K2 U2). }
  apply (uniform_bind family (fun _ : unit => write_summaries (summaries pl) []) (fun _ => K1)).
  - intros _. apply steady_write_summaries.
  - exact (uniform_comp (fun _ : unit => []) _ (uniform_summaries _ H1)).
  - exact (uniform_comp snd K1 U1).
Qed.
End ApplyRows.

(** ** Snapshots *)

(** Inserting rows whose keys must be new. *)
Definition strict (o : rowop) : Prop := op_on o = Fails_unique.

Lemma insert_all_strict os t t' : Forall strict os -> insert_all os t = Some t' ->
  exists m, insert_all os ∅ = Some m /\ m ##ₘ t /\ t' = m ∪ t /\
    forall k r, m !! k = Some r -> exists o, o ∈ os /\ op_row o = r /\ op_key o = Some k.
Proof.
  assert (Hgen : forall u, Forall strict os -> u ##ₘ t -> insert_all os (u ∪ t) = Some t' ->
    exists m, insert_all os u = Some m /\ m ##ₘ t /\ t' = m ∪ t /\
      forall k r, m !! k = Some r -> u !! k = Some r \/ exists o, o ∈ os /\ op_row o = r /\ op_key o = Some k).
  { induction os as [|o os IH]; intros u Hs Hd E; cbn [insert_all] in *.
    - injection E as <-. exists u. split_and!; auto.
    - apply Forall_cons in Hs as [Ho Hs]. unfold strict in Ho.
      destruct (insert_row _ _ _ (u ∪ t)) as [[w t1]|] eqn:E1; [|done]. unfold insert_row in E1 |- *.
      rewrite Ho in E1 |- *.
      destruct (check_not_null _ _) as [[]|] eqn:En; cbn in *; [|done].
      destruct (key_of _ _) as [k|] eqn:Ek; cbn in *; [|done].
      destruct ((u ∪ t) !! k) eqn:El; [done|]. injection E1 as <- <-.
      apply lookup_union_None in El as [Eu Et]. rewrite Eu.
      rewrite insert_union_l in E. destruct (IH _ Hs (proj2 (map_disjoint_insert_l _ _ _ _) (conj Et Hd)) E) as (m & Hm & Hdm & -> & Hk).
      exists m. split_and!; [done..|]. intros j r Hj. destruct (Hk j r Hj) as [Hi|(o' & Ho' & Hr & Hko)].
      + apply lookup_insert_Some in Hi as [[<- <-]|[_ Hi]]; [|by left]. right. exists o.
        split_and!; [by left | done |]. unfold op_key. by rewrite En, Ek.
      + right. exists o'. split_and!; [by right | done..]. }
  intros Hs E. destruct (Hgen ∅ Hs (map_disjoint_empty_l _)) as (m & H1 & H2 & H3 & H4).
  { by rewrite map_empty_union. }
  exists m. split_and!; try done. intros k r Hk. destruct (H4 k r Hk) as [He|?]; [|done]. by rewrite lookup_empty in He.
Qed.

Lemma strict_keeps os v m k : Forall strict os -> insert_all os v = Some m -> is_Some (v !! k) -> is_Some (m !! k).
Proof.
  revert v. induction os as [|o os IH]; intros v Hs E Hv; cbn in E; [by injection E as <-|].
  apply Forall_cons in Hs as [Ho Hs]. unfold insert_row in E. rewrite Ho in E.
  destruct (check_not_null _ _) as [[]|]; cbn in *; [|done]. destruct (key_of _ _) as [k'|]; cbn in *; [|done].
  destruct (v !! k'); [done|]. apply (IH (<[k' := op_row o]> v) Hs E). rewrite lookup_insert_is_Some'. auto.
Qed.

Lemma insert_all_strict_back os m t : Forall strict os -> insert_all os ∅ = Some m -> m ##ₘ t ->
  insert_all os t = Some (m ∪ t).
Proof.
  assert (Hgen : forall u, Forall strict os -> u ##ₘ t -> insert_all os u = Some m -> m ##ₘ t ->
    insert_all os (u ∪ t) = Some (m ∪ t)).
  { induction os as [|o os IH]; intros u Hs Hd E Hdm; cbn [insert_all] in *; [by injection E as ->|].
    apply Forall_cons in Hs as [Ho Hs]. unfold strict in Ho. unfold insert_row in *. rewrite Ho in *.
    destruct (check_not_null _ _) as [[]|] eqn:En; cbn in *; [|done].
    destruct (key_of _ _) as [k|] eqn:Ek; cbn in *; [|done].
    destruct (u !! k) eqn:Eu; [done|].
    assert (Hmk : is_Some (m !! k)).
    { eapply strict_keeps; [exact Hs | exact E | by rewrite lookup_insert_eq]. }
    assert (Ht : t !! k = None).
    { destruct Hmk as [r Hr]. by eapply map_disjoint_Some_r. }
    rewrite (proj2 (lookup_union_None _ _ _)) by done. rewrite insert_union_l.
    apply IH; [done | by apply map_disjoint_insert_l | done | done]. }
  intros Hs E Hd. rewrite <- (map_empty_union t) at 1. apply Hgen; [done | apply map_disjoint_empty_l | done | done].
Qed.

Lemma insert_plain n into on new d : insert n None into on new d =
  match insert_row into on new (table_of n d) with Ok (w, t) => Ok (w, set_table n t d) | Raise e => Raise e end.
Proof. unfold insert. by destruct (insert_row _ _ _ _) as [[w t]|e]. Qed.

(** [executemany] of one INSERT into a table that is not partitioned. *)
Lemma insert_many_table n into on (row_of : list db_param -> row_t) pss d :
  pss <> [] ->
  match insert_many (fun ps => insert n None into on (row_of ps)) pss d with
  | Ok (_, d') => exists t', insert_all (map (fun ps => RowOp into on (row_of ps)) pss) (table_of n d) = Some t' /\
                             d' = set_table n t' d
  | Raise _ => insert_all (map (fun ps => RowOp into on (row_of ps)) pss) (table_of n d) = None
  end.
Proof.
  assert (Hgen : forall pss d,
    match insert_many (fun ps => insert n None into on (row_of ps)) pss d with
    | Ok (_, d') => exists t', insert_all (map (fun ps => RowOp into on (row_of ps)) pss) (table_of n d) = Some t' /\
                               (d' = set_table n t' d \/ pss = [])
    | Raise _ => insert_all (map (fun ps => RowOp into on (row_of ps)) pss) (table_of n d) = None
    end).
  { clear pss d. induction pss as [|ps pss IH]; intros d; cbn [insert_many map insert_all]; [eauto|].
    rewrite (insert_plain n into on (row_of ps) d). cbn [op_into op_on op_row].
    destruct (insert_row into on (row_of ps) (table_of n d)) as [[w t1]|e]; cbn; [|done].
    specialize (IH (set_table n t1 d)). rewrite table_of_set_table, decide_True in IH by done.
    destruct (insert_many _ pss _) as [[w2 d2]|e] eqn:E2; cbn [mbind res_bind]; [|exact IH].
    destruct IH as (t' & Ht & [->| ->]); exists t'; (split; [done|]); left.
    - by rewrite set_table_set_table.
    - cbn in *. injection E2 as _ <-. by injection Ht as ->. }
  intros Hne. specialize (Hgen pss d). destruct (insert_many _ _ _) as [[w d']|e]; [|done].
  destruct Hgen as (t' & Ht & [->|?]); [|done]. eauto.
Qed.

Definition node_key (s n : string) : key := [KText s; KText n].
Definition rows_of (s n : string) (t : table) : table :=
  filter (fun kr => of_node (Scalar (VStr s)) (Scalar (VStr n)) kr.2 = true) t.
Definition others_of (s n : string) (t : table) : table :=
  filter (fun kr => of_node (Scalar (VStr s)) (Scalar (VStr n)) kr.2 = false) t.

Definition snapshot_row (s n : string) (ts : value) : row_t :=
  _insert ["system"; "node"; "ts"] [Scalar (VStr s); Scalar (VStr n); Scalar ts].

Definition process_ops (s n : string) (ts : value) (procs : list dict) : list rowop :=
  map (fun ps => RowOp process_into Fails_unique (_insert (_IDENTITY ++ ["ts"] ++ LIVE_PROCESS_COLUMNS) ps))
    (map (process_params (VStr s) (VStr n) ts) procs).

(** The stored snapshot is newer than the record's, or it is the record's: its time, and for
    process rows exactly those of the record. *)
Definition settled (s n : string) (r : dict) (d : database) : Prop :=
  exists ts old, item "ts" r = Ok ts /\ is_null (Scalar ts) = false /\ table_of "live_snapshots" d !! node_key s n = Some old /\
    (sql_le (cell "ts" old) (store (Scalar ts)) = false \/
     (old !! "ts" = Some (store (Scalar ts)) /\ is_Some (tables d !! "live_processes") /\
      exists procs, snapshot_processes r = Ok procs /\
        insert_all (process_ops s n ts procs) ∅ = Some (rows_of s n (table_of "live_processes" d)))).

Lemma process_row_of_node s n ts p :
  of_node (Scalar (VStr s)) (Scalar (VStr n)) (_insert (_IDENTITY ++ ["ts"] ++ LIVE_PROCESS_COLUMNS) (process_params (VStr s) (VStr n) ts p)) = true.
Proof.
  unfold of_node, cell, _insert, bind_row, process_params. cbn.
  rewrite lookup_insert_eq, lookup_insert_ne, lookup_insert_eq by done. cbn. by rewrite !bool_decide_true.
Qed.

Lemma rows_others_disjoint s n t : rows_of s n t ##ₘ others_of s n t.
Proof.
  apply map_disjoint_spec. intros k r1 r2 [H1 H2]%map_lookup_filter_Some [H3 H4]%map_lookup_filter_Some.
  cbn in *. congruence.
Qed.

Lemma rows_others_union s n t : rows_of s n t ∪ others_of s n t = t.
Proof.
  apply map_eq. intros k. apply option_eq. intros r.
  rewrite lookup_union_Some by apply rows_others_disjoint. unfold rows_of, others_of. rewrite !map_lookup_filter_Some. cbn.
  destruct (of_node _ _ r); naive_solver.
Qed.

Lemma snapshot_insert s n ts d : 
  _SNAPSHOT_SQL [Scalar (VStr s); Scalar (VStr n); Scalar ts] d =
  let t := table_of "live_snapshots" d in
  if is_null (Scalar ts) then Raise (not_null_violation "ts")
  else match t !! node_key s n with
       | None => Ok (1, set_table "live_snapshots" (<[node_key s n := snapshot_row s n ts]> t) d)
       | Some old => if sql_le (cell "ts" old) (store (Scalar ts))
                     then Ok (1, set_table "live_snapshots" (<[node_key s n := <["ts" := store (Scalar ts)]> old]> t) d)
                     else Ok (0, set_table "live_snapshots" t d)
       end.
Proof.
  unfold _SNAPSHOT_SQL. rewrite insert_plain. cbv zeta. fold (snapshot_row s n ts).
  assert (Hsys : cell "system" (snapshot_row s n ts) = Scalar (VStr s)) by done.
  assert (Hnode : cell "node" (snapshot_row s n ts) = Scalar (VStr n)) by done.
  assert (Hts : cell "ts" (snapshot_row s n ts) = store (Scalar ts)) by done.
  assert (Hnull : is_null (store (Scalar ts)) = is_null (Scalar ts)) by by destruct ts.
  unfold insert_row. unfold check_not_null. cbn [not_null key_columns snapshot_into].
  assert (Hf : filter (fun c => is_null (cell c (snapshot_row s n ts)) = true) ["system"; "node"; "ts"]
             = if is_null (Scalar ts) then ["ts"] else []).
  { rewrite !filter_cons, filter_nil, Hsys, Hnode, Hts, Hnull. cbn. by destruct ts. }
  rewrite Hf. destruct (is_null (Scalar ts)); [done|]. cbn [mbind res_bind].
  assert (Hk : key_of ["system"; "node"] (snapshot_row s n ts) = Ok (node_key s n)) by done.
  rewrite Hk. cbn [mbind res_bind]. destruct (_ !! node_key s n) as [old|]; [|done].
  rewrite Hts. destruct (sql_le _ _); [|done]. cbn [set_excluded foldr]. by rewrite Hts.
Qed.

Lemma process_ops_strict s n ts procs : Forall strict (process_ops s n ts procs).
Proof. apply Forall_forall. by intros o (ps & -> & _)%list_elem_of_fmap. Qed.

(** The processes a snapshot stores: what the DELETE leaves, and the record's own. *)
Lemma store_processes s n ts procs d1 w d' :
  outcome (match procs with [] => ret 0 | _ => execute (insert_many _PROCESS_SQL (map (process_params (VStr s) (VStr n) ts) procs)) end)
    (set_table "live_processes" (others_of s n (table_of "live_processes" d1)) d1) = Some (w, d') ->
  exists m, insert_all (process_ops s n ts procs) ∅ = Some m /\
    m ##ₘ others_of s n (table_of "live_processes" d1) /\
    d' = set_table "live_processes" (m ∪ others_of s n (table_of "live_processes" d1)) d1.
Proof.
  intros E.
  set (P0 := others_of s n (table_of "live_processes" d1)) in *.
  destruct procs as [|p procs].
  - rewrite outcome_ret in E. injection E as <- <-. exists ∅. split_and!; [done | apply map_disjoint_empty_l |].
    by rewrite map_empty_union.
  - rewrite outcome_execute in E.
    pose proof (insert_many_table "live_processes" process_into Fails_unique
      (_insert (_IDENTITY ++ ["ts"] ++ LIVE_PROCESS_COLUMNS)) (map (process_params (VStr s) (VStr n) ts) (p :: procs))
      (set_table "live_processes" P0 d1) ltac:(done)) as H.
    change (fun ps => insert "live_processes" None process_into Fails_unique (_insert (_IDENTITY ++ ["ts"] ++ LIVE_PROCESS_COLUMNS) ps))
      with _PROCESS_SQL in H.
    destruct (insert_many _ _ _) as [[w2 d2]|e]; [|done]. injection E as -> ->. destruct H as (t' & Ht & ->).
    rewrite table_of_set_table, decide_True in Ht by done. fold (process_ops s n ts (p :: procs)) in Ht.
    destruct (insert_all_strict _ _ _ (process_ops_strict s n ts (p :: procs)) Ht) as (m & Hm & Hd & -> & _).
    exists m. split_and!; try done. by rewrite set_table_set_table.
Qed.

Lemma process_rows_all s n ts procs m : insert_all (process_ops s n ts procs) ∅ = Some m ->
  forall k r, m !! k = Some r -> of_node (Scalar (VStr s)) (Scalar (VStr n)) r = true.
Proof.
  intros Hm k r Hk. destruct (insert_all_strict _ _ _ (process_ops_strict s n ts procs) Hm) as (m' & Hm' & _ & _ & H).
  rewrite Hm in Hm'. injection Hm' as <-. destruct (H k r Hk) as (o & Ho & <- & _).
  apply list_elem_of_fmap in Ho as (ps & -> & Hps). apply list_elem_of_fmap in Hps as (p & -> & _).
  apply process_row_of_node.
Qed.

Lemma rows_of_union s n m t : (forall k r, m !! k = Some r -> of_node (Scalar (VStr s)) (Scalar (VStr n)) r = true) ->
  m ##ₘ others_of s n t -> rows_of s n (m ∪ others_of s n t) = m /\ others_of s n (m ∪ others_of s n t) = others_of s n t.
Proof.
  intros Hm Hd. split; apply map_eq; intros k; apply option_eq; intros r; unfold rows_of, others_of in *;
    rewrite ?map_lookup_filter_Some, ?lookup_union_Some, ?map_lookup_filter_Some by done; cbn; split.
  - intros [[?|[_ ?]] ?]; [done | congruence].
  - eauto.
  - intros [[Hk|?] Ho]; [rewrite (Hm k r Hk) in Ho; discriminate | done].
  - intros [? ?]. eauto.
Qed.

(** Another node's rows are untouched. *)
Lemma rows_of_other s n s2 n2 m t : (s, n) <> (s2, n2) ->
  (forall k r, m !! k = Some r -> of_node (Scalar (VStr s)) (Scalar (VStr n)) r = true) ->
  m ##ₘ others_of s n t -> rows_of s2 n2 (m ∪ others_of s n t) = rows_of s2 n2 t.
Proof.
  intros Hne Hm Hd. apply map_eq; intros k; apply option_eq; intros r. unfold rows_of, others_of in *.
  rewrite !map_lookup_filter_Some, lookup_union_Some, map_lookup_filter_Some by done. cbn.
  assert (Hx : of_node (Scalar (VStr s2)) (Scalar (VStr n2)) r = true -> of_node (Scalar (VStr s)) (Scalar (VStr n)) r = false).
  { unfold of_node. intros [E1%bool_decide_eq_true E2%bool_decide_eq_true]%andb_prop. rewrite E1, E2. cbn.
    destruct (decide (s2 = s)) as [->|]; [|by rewrite bool_decide_false by congruence].
    rewrite bool_decide_true by done. apply bool_decide_false. congruence. }
  split.
  - intros [[Hk|[? ?]] Ho]; [|done]. specialize (Hx Ho). rewrite (Hm k r Hk) in Hx. discriminate.
  - intros [? Ho]. auto.
Qed.

(** What writing one snapshot changes: the node's snapshot row and its process rows. *)
Record snapshot_written (s n : string) (d d' : database) : Prop := {
  sw_parts : partitions d' = partitions d;
  sw_tables : forall m, m <> "live_snapshots" -> m <> "live_processes" -> tables d' !! m = tables d !! m;
  sw_present : is_Some (tables d' !! "live_snapshots");
  sw_snapshots : forall k, k <> node_key s n -> table_of "live_snapshots" d' !! k = table_of "live_snapshots" d !! k;
  sw_processes : forall s2 n2, (s, n) <> (s2, n2) ->
    rows_of s2 n2 (table_of "live_processes" d') = rows_of s2 n2 (table_of "live_processes" d);
  sw_dom : is_Some (tables d !! "live_processes") -> is_Some (tables d' !! "live_processes");
  sw_forward : forall old : row_t, table_of "live_snapshots" d !! node_key s n = Some old ->
    exists new : row_t, table_of "live_snapshots" d' !! node_key s n = Some new /\
      (new = old \/ sql_le (cell "ts" old) (cell "ts" new) = true);
}.

Lemma steady_write_snapshot r : steady (_write_snapshot r).
Proof.
  unfold _write_snapshot. apply steady_bind; [auto with nm|]. intros [[system node] ts].
  apply steady_bind; [auto with nm|]. intros z. destruct (z =? 0); [auto with nm|].
  apply steady_bind; [auto with nm|]. intros _. apply steady_bind; [auto with nm|].
  intros [|p ps]; auto with nm.
Qed.

Lemma outcome_write_snapshot s n ts r d :
  item "system" r = Ok (VStr s) -> item "node" r = Ok (VStr n) -> item "ts" r = Ok ts ->
  outcome (_write_snapshot r) d =
  match _SNAPSHOT_SQL [Scalar (VStr s); Scalar (VStr n); Scalar ts] d with
  | Raise _ => None
  | Ok (w, d1) =>
      if w =? 0 then Some (0, d1)
      else match snapshot_processes r with
           | Raise _ => None
           | Ok procs => outcome (match procs with [] => ret 0 | _ => execute (insert_many _PROCESS_SQL (map (process_params (VStr s) (VStr n) ts) procs)) end)
                           (set_table "live_processes" (others_of s n (table_of "live_processes" d1)) d1)
           end
  end.
Proof.
  intros E1 E2 E3. unfold _write_snapshot. rewrite outcome_bind, outcome_lift by auto with nm.
  unfold snapshot_id. rewrite E1, E2, E3. cbn [mbind res_bind option_bind].
  rewrite outcome_bind, outcome_execute by auto with nm.
  destruct (_SNAPSHOT_SQL _ d) as [[w d1]|e]; [|done]. cbn [mbind option_bind]. destruct (w =? 0); [done|].
  rewrite outcome_bind, outcome_execute by auto with nm. cbn [mbind option_bind _DELETE_PROCESSES_SQL].
  rewrite outcome_bind, outcome_lift by auto with nm. by destruct (snapshot_processes r).
Qed.

Section OneSnapshot.
Context (s n : string) (ts : value) (r : dict).
Context (Hs : item "system" r = Ok (VStr s)) (Hn : item "node" r = Ok (VStr n)) (Ht : item "ts" r = Ok ts).

(** Storing the snapshot row, then the processes. *)
Lemma snapshot_stored d d1 m new :
  (forall old : row_t, table_of "live_snapshots" d !! node_key s n = Some old ->
     new = old \/ sql_le (cell "ts" old) (cell "ts" new) = true) ->
  d1 = set_table "live_snapshots" (<[node_key s n := new]> (table_of "live_snapshots" d)) d ->
  (forall k x, m !! k = Some x -> of_node (Scalar (VStr s)) (Scalar (VStr n)) x = true) ->
  m ##ₘ others_of s n (table_of "live_processes" d1) ->
  snapshot_written s n d (set_table "live_processes" (m ∪ others_of s n (table_of "live_processes" d1)) d1).
Proof.
  intros Hnew -> Hm Hd. rewrite table_of_set_table, decide_False in * by done.
  assert (Hsn : table_of "live_snapshots" (set_table "live_processes" (m ∪ others_of s n (table_of "live_processes" d))
      (set_table "live_snapshots" (<[node_key s n := new]> (table_of "live_snapshots" d)) d))
      = <[node_key s n := new]> (table_of "live_snapshots" d)).
  { rewrite table_of_set_table, decide_False by done. by rewrite table_of_set_table, decide_True. }
  split.
  - done.
  - intros x H1 H2. cbn. by rewrite !lookup_insert_ne by done.
  - cbn. rewrite lookup_insert_ne, lookup_insert_eq by done. eauto.
  - intros k Hk. rewrite Hsn. by rewrite lookup_insert_ne.
  - intros s2 n2 Hne. rewrite table_of_set_table, decide_True by done. by apply rows_of_other.
  - intros _. cbn. rewrite lookup_insert_eq. eauto.
  - intros old Hold. exists new. rewrite Hsn, lookup_insert_eq. split; [done | by apply Hnew].
Qed.

Lemma snapshot_kept d : is_Some (table_of "live_snapshots" d !! node_key s n) ->
  set_table "live_snapshots" (table_of "live_snapshots" d) d = d /\ snapshot_written s n d d.
Proof.
  intros [old Hold]. assert (Hd : is_Some (tables d !! "live_snapshots")).
  { unfold table_of in Hold. destruct (tables d !! "live_snapshots"); [eauto|].
    change (default ∅ None) with (∅ : table) in Hold. by rewrite lookup_empty in Hold. }
  split.
  - destruct Hd as [t Et]. unfold set_table, table_of. rewrite Et. cbn. rewrite insert_id by done. by destruct d.
  - split; try done. intros old' Hold'. exists old'. auto.
Qed.

Lemma write_snapshot_run d w d' :
  outcome (_write_snapshot r) d = Some (w, d') -> settled s n r d' /\ snapshot_written s n d d'.
Proof.
  rewrite (outcome_write_snapshot s n ts r d Hs Hn Ht), snapshot_insert. cbv zeta.
  destruct (is_null (Scalar ts)) eqn:En; [done|].
  set (T := table_of "live_snapshots" d).
  assert (Hgo : forall new, cell "ts" new = store (Scalar ts) -> new !! "ts" = Some (store (Scalar ts)) ->
    (forall old : row_t, T !! node_key s n = Some old -> new = old \/ sql_le (cell "ts" old) (cell "ts" new) = true) ->
    forall procs d1, d1 = set_table "live_snapshots" (<[node_key s n := new]> T) d -> snapshot_processes r = Ok procs ->
    outcome (match procs with [] => ret 0 | _ => execute (insert_many _PROCESS_SQL (map (process_params (VStr s) (VStr n) ts) procs)) end)
      (set_table "live_processes" (others_of s n (table_of "live_processes" d1)) d1) = Some (w, d') ->
    settled s n r d' /\ snapshot_written s n d d').
  { intros new Hc Hl Hf procs d1 Hd1 Hp E. apply store_processes in E as (m & Hm & Hdis & ->).
    pose proof (process_rows_all s n ts procs m Hm) as Hrows. split.
    - exists ts, new. split; [done|]. split; [done|]. rewrite !table_of_set_table, decide_False, decide_True by done. subst d1.
      rewrite table_of_set_table, decide_True, lookup_insert_eq by done. split; [done|]. right. split; [done|]. split.
      + cbn. rewrite lookup_insert_eq. eauto.
      + exists procs. split; [done|]. rewrite (proj1 (rows_of_union s n m _ Hrows Hdis)). exact Hm.
    - by apply (snapshot_stored d d1 m new Hf Hd1 Hrows Hdis). }
  destruct (T !! node_key s n) as [old|] eqn:Eo; [destruct (sql_le (cell "ts" old) (store (Scalar ts))) eqn:El|]; cbn [Z.eqb].
  - destruct (snapshot_processes r) as [procs|] eqn:Ep; [|done]. intros E.
    eapply (Hgo (<["ts" := store (Scalar ts)]> old)); [| | |reflexivity|reflexivity|exact E].
    + unfold cell. by rewrite lookup_insert_eq.
    + by rewrite lookup_insert_eq.
    + intros old' [= <-]. right. unfold cell at 2. by rewrite lookup_insert_eq.
  - intros [= <- <-]. destruct (snapshot_kept d) as [Hid Hw]; [fold T; by rewrite Eo|]. unfold T in Eo |- *. rewrite Hid.
    split; [|done]. exists ts, old. split_and!; [done | done | done | by left].
  - destruct (snapshot_processes r) as [procs|] eqn:Ep; [|done]. intros E.
    eapply (Hgo (snapshot_row s n ts)); [done | done | done | reflexivity | reflexivity | exact E].
Qed.

(** Writing a settled snapshot again changes nothing. *)
Lemma settled_replay d : settled s n r d ->
  exists w, outcome (_write_snapshot r) d = Some (w, d).
Proof.
  intros (ts' & old & Et & En & Eo & Hcase). rewrite Ht in Et. injection Et as <-.
  rewrite (outcome_write_snapshot s n ts r d Hs Hn Ht), snapshot_insert. cbv zeta. rewrite En, Eo.
  destruct (snapshot_kept d ltac:(rewrite Eo; eauto)) as [Hid _].
  destruct (sql_le (cell "ts" old) (store (Scalar ts))) eqn:El; cbn [Z.eqb]; [|rewrite Hid; eauto].
  destruct Hcase as [?|(Hts & [t Hpt] & procs & Hp & Hm)]; [done|]. rewrite Hp.
  rewrite (insert_id old "ts") by done. rewrite (insert_id _ (node_key s n)) by done. rewrite Hid.
  set (P := table_of "live_processes" d) in *.
  assert (Hback : set_table "live_processes" P d = d).
  { unfold P, set_table, table_of. rewrite Hpt. cbn. rewrite insert_id by done. by destruct d. }
  destruct procs as [|p procs].
  - cbn in Hm. injection Hm as Hm. exists 0. rewrite outcome_ret. do 2 f_equal. rewrite <- Hback at 2. f_equal.
    rewrite <- (rows_others_union s n P) at 2. by rewrite <- Hm, map_empty_union.
  - rewrite outcome_execute.
    pose proof (insert_many_table "live_processes" process_into Fails_unique
      (_insert (_IDENTITY ++ ["ts"] ++ LIVE_PROCESS_COLUMNS)) (map (process_params (VStr s) (VStr n) ts) (p :: procs))
      (set_table "live_processes" (others_of s n P) d) ltac:(done)) as H.
    change (fun ps => insert "live_processes" None process_into Fails_unique (_insert (_IDENTITY ++ ["ts"] ++ LIVE_PROCESS_COLUMNS) ps))
      with _PROCESS_SQL in H. fold (process_ops s n ts (p :: procs)) in H.
    rewrite table_of_set_table, decide_True in H by done.
    rewrite (insert_all_strict_back _ _ (others_of s n P) (process_ops_strict s n ts (p :: procs)) Hm
      (rows_others_disjoint s n P)) in H. rewrite rows_others_union in H.
    destruct (insert_many _ _ _) as [[w2 d2]|e]; [|done]. destruct H as (t' & [= <-] & ->).
    exists w2. by rewrite set_table_set_table, Hback.
Qed.

(** Being settled depends on the node's snapshot and process rows only. *)
Lemma settled_stable d d' : settled s n r d ->
  table_of "live_snapshots" d' !! node_key s n = table_of "live_snapshots" d !! node_key s n ->
  rows_of s n (table_of "live_processes" d') = rows_of s n (table_of "live_processes" d) ->
  (is_Some (tables d !! "live_processes") -> is_Some (tables d' !! "live_processes")) ->
  settled s n r d'.
Proof.
  intros (t & old & Et & En & Eo & Hcase) Hsn Hr Hd. exists t, old. split_and!; [done | done | congruence |].
  destruct Hcase as [?|(? & ? & procs & ? & ?)]; [by left|]. right. split_and!; auto. exists procs. by rewrite Hr.
Qed.
End OneSnapshot.
