(* ===== verification/WriterSafety.v ===== *)
(** * What a write guarantees

    All or nothing, safe to retry, never backwards: the theorems about
    [DatabaseWriter.write] over a whole run, whatever the server answers. *)

From S2P Require Import Prelude PyFloat PyTime PyVal Codec Connect Enrich Sql Maintenance Upsert Undisturbed DbWriter WriterFacts.
Open Scope py_scope.

(** ** A list of snapshots of different nodes *)

Definition identified (kr : (string * string) * dict) : Prop :=
  item "system" kr.2 = Ok (VStr kr.1.1) /\ item "node" kr.2 = Ok (VStr kr.1.2).

Lemma snapshot_ts s n r d w d' : item "system" r = Ok (VStr s) -> item "node" r = Ok (VStr n) ->
  outcome (_write_snapshot r) d = Some (w, d') -> exists ts, item "ts" r = Ok ts.
Proof.
  intros E1 E2. unfold _write_snapshot. rewrite outcome_bind, outcome_lift by auto with nm.
  unfold snapshot_id. rewrite E1, E2. cbn [mbind res_bind]. destruct (item "ts" r); [eauto | done].
Qed.

(** What a list of snapshots leaves as it is, and how it moves the snapshot rows. *)
Record snapshots_written (d d' : database) : Prop := {
  ws_parts : partitions d' = partitions d;
  ws_tables : forall m, m <> "live_snapshots" -> m <> "live_processes" -> tables d' !! m = tables d !! m;
  ws_forward : forall k old, table_of "live_snapshots" d !! k = Some old ->
    exists new : row_t, table_of "live_snapshots" d' !! k = Some new /\
      (new = old \/ sql_le (cell "ts" old) (cell "ts" new) = true);
}.

Lemma snapshots_written_trans d1 d2 d3 : snapshots_written d1 d2 -> snapshots_written d2 d3 -> snapshots_written d1 d3.
Proof.
  intros [P1 T1 F1] [P2 T2 F2]. split; [congruence | |].
  - intros m H1 H2. by rewrite T2, T1.
  - intros k old Ho. destruct (F1 k old Ho) as (x & Hx & Hox). destruct (F2 k x Hx) as (y & Hy & Hxy).
    exists y. split; [done|]. destruct Hox as [->|Hox], Hxy as [->|Hxy]; auto. right. by eapply sql_le_trans.
Qed.

Lemma snapshot_written_weaken s n d d' : snapshot_written s n d d' -> snapshots_written d d'.
Proof.
  intros []. split; try done. intros k old Ho. destruct (decide (k = node_key s n)) as [->|Hne]; [auto|].
  exists old. rewrite sw_snapshots by done. auto.
Qed.

Definition snapshot_list (l : list ((string * string) * dict)) (w : list (string * Z)) : SM (list (string * Z)) :=
  write_rows "live_processes" _write_snapshot (map snd l) w.

Lemma steady_snapshot_list l w : steady (snapshot_list l w).
Proof. apply steady_write_rows, steady_write_snapshot. Qed.

Lemma snapshot_list_cons k r l w d : outcome (snapshot_list ((k, r) :: l) w) d
  = match outcome (_write_snapshot r) d with
    | Some (n, d1) => outcome (snapshot_list l (count_written "live_processes" n w)) d1
    | None => None
    end.
Proof.
  unfold snapshot_list, write_rows. cbn [map foldM snd].
  rewrite outcome_bind by (apply steady_bind; [apply steady_write_snapshot | auto with nm]).
  rewrite outcome_bind by apply steady_write_snapshot.
  by destruct (outcome (_write_snapshot r) d) as [[n d1]|].
Qed.

Lemma snapshot_list_run l w d w' d' :
  Forall identified l -> NoDup (dkeys l) -> outcome (snapshot_list l w) d = Some (w', d') ->
  snapshots_written d d' /\ Forall (fun kr => settled kr.1.1 kr.1.2 kr.2 d') l /\
  forall s n r, settled s n r d -> (s, n) ∉ dkeys l -> settled s n r d'.
Proof.
  revert w d. induction l as [|[[s n] r] l IH]; intros w d Hi Hd E.
  - injection E as <- <-. split_and!; [split; eauto | constructor | done].
  - apply Forall_cons in Hi as [[Hs Hn] Hi]. cbn in Hd. apply NoDup_cons in Hd as [Hni Hd]. cbn in Hs, Hn.
    rewrite snapshot_list_cons in E. destruct (outcome (_write_snapshot r) d) as [[z d1]|] eqn:E1; [|done].
    destruct (snapshot_ts s n r d z d1 Hs Hn E1) as [ts Ht].
    destruct (write_snapshot_run s n ts r Hs Hn Ht d z d1 E1) as [Hset Hw].
    destruct (IH _ _ Hi Hd E) as (Hws & Hall & Hkeep). split_and!.
    + eapply snapshots_written_trans; [by eapply snapshot_written_weaken | done].
    + constructor; [|done]. cbn. apply Hkeep; eauto.
    + intros s2 n2 r2 H2 Hn2. cbn in Hn2. apply not_elem_of_cons in Hn2 as [Hne Hn2].
      apply Hkeep; eauto. apply (settled_stable s2 n2 r2 d d1); [done | | |].
      * apply Hw. unfold node_key. congruence.
      * apply Hw. congruence.
      * apply Hw.
Qed.

Lemma snapshot_list_replay l w d : Forall identified l -> Forall (fun kr => settled kr.1.1 kr.1.2 kr.2 d) l ->
  exists w', outcome (snapshot_list l w) d = Some (w', d).
Proof.
  revert w. induction l as [|[[s n] r] l IH]; intros w Hi Hs; [by exists w|].
  apply Forall_cons in Hi as [[Es En] Hi], Hs as [Hset Hs]. cbn [fst snd] in *.
  assert (exists ts, item "ts" r = Ok ts) as [ts Ht] by (destruct Hset as (ts & ? & ? & _); eauto).
  destruct (settled_replay s n ts r Es En Ht d Hset) as [z E]. rewrite snapshot_list_cons, E. by apply IH.
Qed.

(** ** A batch *)

(** What [_apply] does inside its transaction. *)
Definition batch (pl : plan) : SM (list (string * Z)) := let* w := apply_rows pl in apply_snapshots pl w.

Lemma steady_batch pl : steady (batch pl).
Proof. apply steady_bind; [apply steady_apply_rows | intros; apply steady_snapshot_list]. Qed.

Lemma batch_split pl d w d' : outcome (batch pl) d = Some (w, d') ->
  exists w1 d1, outcome (apply_rows pl) d = Some (w1, d1) /\ outcome (snapshot_list (snapshots pl) w1) d1 = Some (w, d').
Proof.
  unfold batch. rewrite outcome_bind by apply steady_apply_rows.
  destruct (outcome (apply_rows pl) d) as [[w1 d1]|]; [|done]. cbn. eauto.
Qed.

Lemma family_live n o : family n o -> n <> "live_snapshots" /\ n <> "live_processes".
Proof.
  unfold family. intros H. split; intros ->; revert H;
    (rewrite decide_False by (cbn; set_solver)); by rewrite !decide_False, decide_True by naive_solver.
Qed.

(** Writing a batch that is already written changes nothing. *)
Lemma batch_replay pl d w d' : plan_ok pl -> outcome (batch pl) d = Some (w, d') ->
  exists w2, outcome (batch pl) d' = Some (w2, d').
Proof.
  intros Hp (w1 & d1 & E1 & E2)%batch_split. pose proof (po_snapshots _ Hp) as Hi. pose proof (po_nodes _ Hp) as Hn.
  destruct (snapshot_list_run _ _ _ _ _ Hi Hn E2) as (Hws & Hall & _).
  destruct (uniform_replay family (fun _ : unit => apply_rows pl) tt d w1 d1 family_replays (uniform_apply_rows pl Hp) E1 d')
    as [w2 E3].
  - apply Hws.
  - intros n o Hf. apply Hws; by apply (family_live n o).
  - unfold batch. rewrite outcome_bind, E3 by apply steady_apply_rows. cbn [mbind option_bind].
    apply snapshot_list_replay; done.
Qed.

(** ** [write] *)

(** Partition creation leaves every table as it is. *)
Definition same_tables (d0 d : database) : Prop :=
  tables d = tables d0 /\ forall p, p ∈ partitions d0 -> p ∈ partitions d.

Lemma keeps_same_tables_create d0 p : keeps (on_data (same_tables d0)) (execute (create_partition p)).
Proof.
  apply keeps_execute. intros d [] d' [H1 H2]. unfold create_partition.
  destruct (relation_exists _ _); [by intros [= <-]|]. destruct (existsb _ _); [done|]. intros [= <-].
  split; [done|]. cbn. intros q Hq. apply elem_of_app. auto.
Qed.

Lemma keeps_create_partitions d0 pl : keeps (on_data (same_tables d0)) (_create_partitions pl).
Proof.
  unfold _create_partitions. apply keeps_transaction', keeps_foldM. intros made [[t name] ts].
  apply keeps_bind; [|intros []; apply keeps_ret]. unfold ensure_partition.
  apply keeps_bind; [apply keeps_lift|]. intros start. apply keeps_bind; [apply keeps_lift|]. intros nm.
  apply keeps_transaction'. repeat (apply keeps_bind; [apply keeps_no_change|]; intros []).
  apply keeps_bind; [apply keeps_read|]. intros []; [apply keeps_ret|].
  apply keeps_bind; [apply keeps_lift|]. intros next.
  apply keeps_bind; [apply keeps_same_tables_create | intros; apply keeps_ret].
Qed.

(** The batch was written, on top of [d0] with perhaps more partitions. *)
Definition applied (pl : plan) (d0 d : database) (w : list (string * Z)) : Prop :=
  exists d1, same_tables d0 d1 /\ outcome (batch pl) d1 = Some (w, d).

Lemma same_tables_refl d : same_tables d d.
Proof. by split. Qed.

Lemma attempt_spec pl d0 :
  hoare (fun s => same_tables d0 (data s)) (_apply pl)
    (fun r s => match r with
      | Ok w => applied pl d0 (data s) w
      | Raise e => same_tables d0 (data s) \/ (is_check_violation e = false /\ exists w, applied pl d0 (data s) w)
      end).
Proof.
  apply hoare_run. intros s Hs. destruct (_apply pl s) as [out s'] eqn:E.
  destruct (transaction_outcome _ _ _ _ (steady_batch pl) E) as [H _]. destruct out as [w|e].
  - by exists (data s).
  - destruct H as [->|[[msg ->] [w Hw]]]; [by left|]. right. split; [done|]. by exists w, (data s).
Qed.

Lemma write_attempt_spec pl d0 :
  hoare (fun s => data s = d0) (write_attempt pl)
    (fun r s => match r with
      | Ok wp => applied pl d0 (data s) wp.1
      | Raise e => same_tables d0 (data s) \/ exists w, applied pl d0 (data s) w
      end).
Proof.
  unfold write_attempt. apply hoare_bind with (R := fun _ s => same_tables d0 (data s)).
  { eapply hoare_conseq; [apply (keeps_reconnect (same_tables d0)) | intros s <-; apply same_tables_refl |].
    intros [] s Hs; [done | by left]. }
  intros _. eapply hoare_try with (R := fun e s => same_tables d0 (data s) \/
      (is_check_violation e = false /\ exists w, applied pl d0 (data s) w)).
  - eapply hoare_bind; [eapply hoare_post; [apply attempt_spec|]|].
    + intros [w|e] s H; [exact H|]. exact H.
    + intros w. apply hoare_ret. done.
  - intros e k. destruct (is_check_violation e); intros [= <-].
    apply hoare_pre with (P' := fun s => same_tables d0 (data s)); [|naive_solver].
    destruct (_is_missing_partition e); [|by apply hoare_raise; left].
    apply hoare_bind with (R := fun _ s => same_tables d0 (data s)).
    { eapply hoare_post; [apply (keeps_create_partitions d0)|]. intros [] s Hs; [done | by left]. }
    intros made. eapply hoare_bind; [eapply hoare_post; [apply attempt_spec|]|].
    + intros [w|e'] s H; [exact H|]. destruct H as [?|[_ ?]]; auto.
    + intros w. apply hoare_ret. done.
  - intros e s _ [?|[_ ?]]; auto.
Qed.

Lemma discard_spec (I : database -> Prop) force : keeps (on_data I) (_discard_if_unusable force).
Proof. intros s Hs. unfold _discard_if_unusable. destruct (link s) as [c|]; [|done]. by case_match. Qed.

Lemma write_spec keep records now s out s' pl :
  _plan keep records now = Ok pl -> write keep records now s = (out, s') ->
  match out with
  | Ok r => applied pl (data s) (data s') (rows_written r)
  | Raise _ => same_tables (data s) (data s') \/ exists w, applied pl (data s) (data s') w
  end.
Proof.
  intros Hp E. enough (H : hoare (fun s1 => data s1 = data s) (write keep records now)
    (fun r s' => match r with
      | Ok r => applied pl (data s) (data s') (rows_written r)
      | Raise _ => same_tables (data s) (data s') \/ exists w, applied pl (data s) (data s') w end)).
  { specialize (H s eq_refl). by rewrite E in H. }
  unfold write. rewrite Hp.
  apply hoare_bind with (R := fun p s1 => data s1 = data s /\ p = pl); [by apply hoare_lift|].
  intros p. apply hoare_pure. intros ->.
  set (over := fun d => same_tables (data s) d \/ exists w, applied pl (data s) d w).
  apply hoare_bind with (R := fun wp s1 => applied pl (data s) (data s1) wp.1).
  - eapply hoare_try with (R := fun _ s1 => over (data s1)); [apply write_attempt_spec | | done].
    intros e k [= <-]. apply hoare_bind with (R := fun _ s1 => over (data s1)).
    + eapply hoare_post; [apply (discard_spec over)|]. by intros [].
    + intros _. apply hoare_raise. done.
  - intros wp. apply hoare_ret. done.
Qed.

(** With a server that carries everything out, writing a written batch changes nothing. *)
Lemma write_again keep records now pl d0 d w s :
  _plan keep records now = Ok pl -> applied pl d0 d w -> data s = d -> answers s = [] ->
  exists r s', write keep records now s = (Ok r, s') /\ data s' = d.
Proof.
  intros Hp (d1 & _ & E) Hd Ha. destruct (batch_replay pl d1 w d (plan_is_ok _ _ _ _ Hp) E) as [w2 E2].
  assert (Hrc : exists s1, reconnect s = (Ok tt, s1) /\ data s1 = d /\ answers s1 = []).
  { unfold reconnect, open_session. rewrite Ha.
    destruct (link s) as [c|]; [destruct (c_closed c)|]; eexists; split; try reflexivity; done. }
  destruct Hrc as (s1 & R1 & D1 & A1).
  destruct (_apply pl s1) as [out s2] eqn:Ea.
  destruct (transaction_outcome _ _ _ _ (steady_batch pl) Ea) as [H1 H2]. destruct (H2 A1) as [A2 H3].
  unfold write. rewrite Hp. destruct out as [w3|e].
  - rewrite D1, E2 in H1. injection H1 as <- Hd2. exists (WriteResult w2 (beyond_retention pl) []), s2. split; [|done].
    unfold bind, lift, try_except, write_attempt, bind. rewrite R1. unfold try_except, bind. by rewrite Ea.
  - exfalso. destruct (H3 e eq_refl) as [_ Hf]. rewrite D1 in Hf. unfold outcome in E2.
    change (fst (batch pl (undisturbed d)) = Raise e) in Hf.
    by destruct (batch pl (undisturbed d)) as [[w4|e4] s4].
Qed.


(** ** Live state only moves forward *)

(** The column each table's updates are ordered by; other tables' rows are never updated. *)
Definition clock (n : string) : option string :=
  if decide (n ∈ dkeys _SUMMARIES) then Some "sample_count"
  else if decide (n = "live_nodes") then Some "updated_at"
  else if decide (n = "nodes") then Some "last_seen"
  else if decide (n = "live_snapshots") then Some "ts"
  else None.

Definition forward (n : string) (old new : row_t) : Prop :=
  new = old \/ exists g, clock n = Some g /\ (cell g new = cell g old \/ sql_le (cell g old) (cell g new) = true).

Lemma node_sets_forward xs s :
  cell "last_seen" (node_sets xs s) = cell "last_seen" s \/ sql_le (cell "last_seen" s) (cell "last_seen" (node_sets xs s)) = true.
Proof.
  assert (Hw : Forall (writes "last_seen" (fun x : node_row => newer_columns x.2) newer_writes) xs)
    by (apply Forall_forall; intros; apply newer_writes_ok).
  pose proof (updates_forward "last_seen" (fun x : node_row => newer_columns x.2) newer_writes xs (newer_columns s) Hw) as H.
  rewrite <- node_sets_newer in H.
  assert (Hg : forall r, cell "last_seen" (newer_columns r) = cell "last_seen" r) by done.
  destruct H as [H|H]; [right; by rewrite !Hg in H | left; rewrite <- (Hg (node_sets xs s)), H; apply Hg].
Qed.

Lemma effects_forward n os s : Forall (family n) os ->
  exists s', effects os (Some s) = Some s' /\ forward n s s'.
Proof.
  intros H.
  assert (Hg : forall g, clock n = Some g -> Forall (guarded g) os -> exists s', effects os (Some s) = Some s' /\ forward n s s').
  { intros g Hc Hgu. destruct (guarded_forward g os s Hgu) as (s' & E & Hs'); exists s'; split; [exact E|].
    destruct Hs' as [Heq|Hle]; [by left | right; eauto]. }
  unfold family in H. unfold clock in Hg.
  destruct (decide (n ∈ dkeys _SUMMARIES)); [by eapply Hg|].
  destruct (decide (n = "live_nodes")); [by eapply Hg|].
  destruct (decide (n = "nodes")) as [->|].
  { destruct (noding_rows os H) as (xs & _ & E). exists (node_sets xs s). split; [exact (E s)|]. right.
    exists "last_seen". split; [done | apply node_sets_forward]. }
  destruct (decide (n = "live_snapshots" \/ n = "live_processes")).
  { destruct os as [|x os]; [exists s; split; [done | by left] | by apply Forall_inv in H]. }
  exists s. split; [by apply ignoring_keeps | by left].
Qed.

Lemma batch_forward pl d w d' : plan_ok pl -> outcome (batch pl) d = Some (w, d') ->
  forall n k old, n <> "live_processes" -> table_of n d !! k = Some old ->
  exists new : row_t, table_of n d' !! k = Some new /\ forward n old new.
Proof.
  intros Hp (w1 & d1 & E1 & E2)%batch_split n k old Hn Ho.
  destruct (uniform_same family _ tt d w1 d1 (uniform_apply_rows pl Hp) E1) as (ops & F & S & _).
  pose proof (step_insert_all ops d d1 n S) as Hi.
  assert (Ht : Forall tolerant (ops n)) by (eapply Forall_impl; [apply F | apply family_replays]).
  destruct (insert_all_lookup _ _ _ Ht Hi) as [_ Hl].
  destruct (effects_forward n (filter (fun o => has_key k o = true) (ops n)) old) as (mid & Em & Hm).
  { apply Forall_forall. intros o [_ Hin]%list_elem_of_filter. exact (proj1 (Forall_forall _ _) (F n) o Hin). }
  assert (Hmid : table_of n d1 !! k = Some mid) by (by rewrite Hl, Ho).
  destruct (snapshot_list_run _ _ _ _ _ (po_snapshots _ Hp) (po_nodes _ Hp) E2) as ([_ Hst Hsf] & _ & _).
  destruct (decide (n = "live_snapshots")) as [->|Hne].
  - destruct (Hsf k mid Hmid) as (new & Hnew & Hle). exists new. split; [done|].
    assert (mid = old) as ->.
    { destruct (ops "live_snapshots") as [|o os] eqn:Eo.
      - pose proof (st_other _ _ _ S _ Eo) as Es. unfold table_of in Hmid, Ho. rewrite Es in Hmid. congruence.
      - exfalso. pose proof (F "live_snapshots") as Ff. rewrite Eo in Ff. apply Forall_inv, family_live in Ff. by destruct Ff. }
    destruct Hle as [->|Hle]; [by left | right; exists "ts"; auto].
  - exists mid. split; [|done]. unfold table_of in *. by rewrite Hst.
Qed.

(** C7. Live state only moves forward, and what is stored stays: whatever a write does, a row of
    any table but the live processes is still there afterwards, and either unchanged or
    replaced by one that is not older: not from fewer samples for a summary, not of an
    earlier time for a live node, a node or a snapshot.  A batch replayed after newer data was
    written reverts nothing. *)
Theorem write_forward keep records now s out s' n k (old : row_t) :
  write keep records now s = (out, s') -> n <> "live_processes" ->
  table_of n (data s) !! k = Some old ->
  exists new : row_t, table_of n (data s') !! k = Some new /\ forward n old new.
Proof.
  intros E Hn Ho. assert (Hsame : same_tables (data s) (data s') -> exists new : row_t, table_of n (data s') !! k = Some new /\ forward n old new).
  { intros [Ht _]. exists old. unfold table_of in *. rewrite Ht. split; [done | by left]. }
  destruct (_plan keep records now) as [pl|e] eqn:Hp.
  2: { unfold write in E. rewrite Hp in E. injection E as <- <-. apply Hsame. by split. }
  assert (Happ : forall w, applied pl (data s) (data s') w -> exists new : row_t, table_of n (data s') !! k = Some new /\ forward n old new).
  { intros w (d1 & [Ht _] & Eb). eapply batch_forward; [by eapply plan_is_ok | exact Eb | done |].
    unfold table_of in *. by rewrite Ht. }
  pose proof (write_spec keep records now s out s' pl Hp E) as H. destruct out as [r|e]; [by eapply Happ|].
  destruct H as [H|[w H]]; [by apply Hsame | by eapply Happ].
Qed.

(** A node's live processes are those of its newest snapshot: when a write returns, for each
    node with a snapshot in the batch, the node's process rows are exactly the processes of
    the batch's newest snapshot of it, at its time, unless the database already held a newer
    one. *)
Theorem write_snapshots keep records now s r s' pl :
  write keep records now s = (Ok r, s') -> _plan keep records now = Ok pl ->
  Forall (fun kr => settled kr.1.1 kr.1.2 kr.2 (data s')) (snapshots pl).
Proof.
  intros E Hp. destruct (write_spec keep records now s (Ok r) s' pl Hp E) as (d1 & _ & Eb).
  pose proof (plan_is_ok _ _ _ _ Hp) as Hok. apply batch_split in Eb as (w1 & d2 & _ & E2).
  by destruct (snapshot_list_run _ _ _ _ _ (po_snapshots _ Hok) (po_nodes _ Hok) E2) as (_ & H & _).
Qed.

(** ** A batch written to an empty database *)

Definition demo_process (pid : Z) : value :=
  VDict [("pid", VInt pid); ("start_time", VInt 100); ("comm", VStr "python")].
Definition demo_records (t : datetime) (pids : list Z) : list record :=
  [Record_ LIVE_NODE [("system", VStr "s"); ("node", VStr "n1"); ("updated_at", VTime t); ("session_state", VStr "up");
                      ("load1", VInt (Z.of_nat (length pids)))];
   Record_ LIVE_PROCESSES [("system", VStr "s"); ("node", VStr "n1"); ("ts", VTime t);
                           ("processes", VList (map demo_process pids))];
   Record_ COLLECTION_EVENT [("system", VStr "s"); ("node", VNone); ("ts", VTime t); ("event_type", VStr "hello")]].
Definition demo_batch : list record := demo_records demo_now [1; 2].
Definition empty_db : database := Db ∅ [].
Definition first_session (l : list answer) : session := Session empty_db l None.

Definition demo_written : res write_result * session := write demo_retention demo_batch demo_now (first_session []).

(** The counts, and the partition made on the way. *)
Example demo_result : fst demo_written =
  Ok (WriteResult [("collection_events", 1); ("live_nodes", 1); ("live_processes", 2)] [] ["collection_events_y2024m01"]).
Proof. vm_compute. reflexivity. Qed.

(** The acknowledgement of the COMMIT is lost: the write raises, the batch is in, and the
    retry finds it there. *)
Example lost_then_retried :
  let lost := repeat Done 18 ++ [Lost "server closed the connection" healthy] in
  let s1 := snd (write demo_retention demo_batch demo_now (first_session lost)) in
  let s2 := snd (write demo_retention demo_batch demo_now s1) in
  (fst (write demo_retention demo_batch demo_now (first_session lost)),
   bool_decide (dom (table_of "live_processes" (data s1)) = {[ [KText "s"; KText "n1"; KInt 1; KInt 100]; [KText "s"; KText "n1"; KInt 2; KInt 100] ]}),
   size (table_of "collection_events" (data s1)), size (table_of "collection_events" (data s2)))
  = (Raise (DatabaseUnavailable "database unavailable: server closed the connection"), true, 1%nat, 1%nat).
Proof. vm_compute. reflexivity. Qed.


(** An older batch, written after a newer one, changes neither the live node nor the processes. *)
Definition older : datetime := add_us demo_now (- hour_us).

Lemma write_forward_witness :
  exists s2 old new, snd (write demo_retention (demo_records older [3]) older (snd demo_written)) = s2 /\
    table_of "live_nodes" (data (snd demo_written)) !! node_key "s" "n1" = Some old /\
    table_of "live_nodes" (data s2) !! node_key "s" "n1" = Some new /\ forward "live_nodes" old new /\
    cell "updated_at" new = Scalar (VTime demo_now).
Proof.
  assert (Ho : exists old, table_of "live_nodes" (data (snd demo_written)) !! node_key "s" "n1" = Some old)
    by (eexists; vm_compute; reflexivity).
  assert (Hc : default NULL (cell "updated_at" <$> table_of "live_nodes"
      (data (snd (write demo_retention (demo_records older [3]) older (snd demo_written)))) !! node_key "s" "n1")
      = Scalar (VTime demo_now)) by (vm_compute; reflexivity).
  destruct Ho as [old Ho].
  destruct (write demo_retention (demo_records older [3]) older (snd demo_written)) as [out s2] eqn:E.
  destruct (write_forward demo_retention (demo_records older [3]) older (snd demo_written) out s2 "live_nodes"
    (node_key "s" "n1") old E ltac:(discriminate) Ho) as (new & Hn & Hf).
  exists s2, old, new. cbn [snd] in Hc. rewrite Hn in Hc. split; [reflexivity|]. split; [exact Ho|].
  split; [exact Hn|]. split; [exact Hf | exact Hc].
Defined.

Lemma write_snapshots_witness :
  exists pl, _plan demo_retention demo_batch demo_now = Ok pl /\
    Forall (fun kr => settled kr.1.1 kr.1.2 kr.2 (data (snd demo_written))) (snapshots pl) /\ length (snapshots pl) = 1%nat.
Proof.
  assert (Hok : exists r, fst demo_written = Ok r) by (eexists; vm_compute; reflexivity).
  assert (Hp : exists pl, _plan demo_retention demo_batch demo_now = Ok pl /\ length (snapshots pl) = 1%nat)
    by (eexists; split; [vm_compute; reflexivity | reflexivity]).
  destruct Hok as [r Hr], Hp as (pl & Hp & Hl). exists pl. split; [exact Hp|]. split; [|exact Hl].
  apply (write_snapshots demo_retention demo_batch demo_now (first_session []) r (snd demo_written) pl); [|exact Hp].
  rewrite <- Hr. unfold demo_written. apply surjective_pairing.
Defined.
