(* ===== verification/Upkeep.v ===== *)
(** * Housekeeping: heartbeat, partitions and retention on schedule

    [node_monitor/collector/upkeep.py]: an [Upkeep] with its own session, its schedule and
    the test of whether heartbeats are failing.  [status], the callable that builds a
    heartbeat's status, runs on an arbitrary environment [E] and may raise.  Intervals are in
    microseconds, the resolution of [timedelta].  [logged] keeps the messages logged; [beats]
    and [runs] are ghost fields: the times at which a heartbeat and at which
    maintenance was attempted. *)

From S2P Require Import Prelude PyFloat PyTime PyVal Codec Spool Sql Maintenance.

Open Scope py_scope.

Record uconfig := UConfig {
  u_system : string;
  u_retention : retention;
  u_host : string;
  u_version : string;
  u_started : datetime;
  heartbeat_interval : Z;
  maintenance_interval : Z;
  retry_interval : Z;
}.

Record upkeep (E : Type) := Upkeep_ {
  env : E;
  sess : session;
  last_heartbeat_attempt : option datetime;
  next_maintenance : option datetime;
  heartbeat_failing : bool;
  logged : list string;
  beats : list datetime;
  runs : list datetime;
}.
Arguments Upkeep_ {E}. Arguments env {E}. Arguments sess {E}.
Arguments last_heartbeat_attempt {E}. Arguments next_maintenance {E}.
Arguments heartbeat_failing {E}. Arguments logged {E}. Arguments beats {E}. Arguments runs {E}.

(** [a - b] and [a >= b] of datetimes: both aware or both naive. *)
Definition time_sub (a b : datetime) : res Z :=
  if Bool.eqb (is_aware a) (is_aware b) then Ok (instant a - instant b) else Raise TypeError.
Definition time_ge (a b : datetime) : res bool :=
  if Bool.eqb (is_aware a) (is_aware b) then Ok (instant b <=? instant a) else Raise TypeError.

Section Upkeep.
Context {E : Type} (cfg : uconfig).
Implicit Types (u : upkeep E).
Abbreviation UM := (M (upkeep E)).

Definition set_env e u : upkeep E := Upkeep_ e (sess u) (last_heartbeat_attempt u) (next_maintenance u) (heartbeat_failing u) (logged u) (beats u) (runs u).
Definition set_sess s u : upkeep E := Upkeep_ (env u) s (last_heartbeat_attempt u) (next_maintenance u) (heartbeat_failing u) (logged u) (beats u) (runs u).
Definition set_next n u : upkeep E := Upkeep_ (env u) (sess u) (last_heartbeat_attempt u) n (heartbeat_failing u) (logged u) (beats u) (runs u).
Definition set_failing b u : upkeep E := Upkeep_ (env u) (sess u) (last_heartbeat_attempt u) (next_maintenance u) b (logged u) (beats u) (runs u).
Definition log (m : string) u : upkeep E := Upkeep_ (env u) (sess u) (last_heartbeat_attempt u) (next_maintenance u) (heartbeat_failing u) (logged u ++ [m]) (beats u) (runs u).
(** [self._last_heartbeat_attempt = now] *)
Definition set_attempt now u : upkeep E := Upkeep_ (env u) (sess u) (Some now) (next_maintenance u) (heartbeat_failing u) (logged u) (beats u ++ [now]) (runs u).
Definition mark_run now u : upkeep E := Upkeep_ (env u) (sess u) (last_heartbeat_attempt u) (next_maintenance u) (heartbeat_failing u) (logged u) (beats u) (runs u ++ [now]).

(** [__init__] *)
Definition new_upkeep (e : E) (s : session) : upkeep E :=
  Upkeep_ e (set_conn None s) None None false [] [] [].

Definition on_session {A} (c : SM A) : UM A := zoom sess set_sess c.
Definition on_env {A} (c : M E A) : UM A := zoom env set_env c.

(** [_drop_connection] *)
Definition _drop_connection : UM unit := on_session (modify (set_conn None)).

(** [_connection] *)
Definition _connection : UM unit := on_session reconnect.

(** [_event] *)
Definition _event (now : datetime) (event_type : string) (detail : dict) : record :=
  Record_ COLLECTION_EVENT
    [("system", VStr (u_system cfg)); ("node", VNone); ("ts", VTime now);
     ("event_type", VStr event_type); ("detail", VDict detail)].

(** [_heartbeat] *)
Definition _heartbeat (now : datetime) (status : dict) : UM unit :=
  _connection ;;;
  on_session (write_heartbeat (u_system cfg) (u_host cfg) (u_version cfg) (u_started cfg) now status).

(** [_heartbeat_failed] *)
Definition _heartbeat_failed (exc : exn) : UM unit :=
  let* failing := gets heartbeat_failing in
  when (negb failing) (modify (log ("heartbeat failed: " +:+ describe exc))) ;;;
  modify (set_failing true).

(** [_heartbeat_ok] *)
Definition _heartbeat_ok : UM unit :=
  let* failing := gets heartbeat_failing in
  when failing (modify (log "heartbeat succeeded again")) ;;;
  modify (set_failing false).

Definition names (l : list string) : value := VList (map VStr l).
Definition maintained_detail (m : maintained) : dict :=
  [("created", names (created m)); ("dropped", names (dropped m)); ("skipped", names (skipped m))].
Definition nothing_done (m : maintained) : bool :=
  match created m, dropped m, skipped m with [], [], [] => true | _, _, _ => false end.

(** [_maintain] *)
Definition _maintain (now : datetime) : UM (list record) :=
  modify (mark_run now) ;;;
  let* r := try_except
    (_connection ;;;
     let* m := on_session (run now (u_retention cfg)) in ret (inl m))
    (fun exc => Some (modify (log "partition maintenance failed") ;;;
                      _drop_connection ;;;
                      modify (set_next (Some (add_us now (retry_interval cfg)))) ;;;
                      ret (inr [_event now "maintenance_failed" [("error", VStr (describe exc))]]))) in
  match r with
  | inr events => ret events
  | inl m =>
      let clean := match skipped m with [] => true | _ => false end in
      modify (set_next (Some (add_us now (if clean then maintenance_interval cfg else retry_interval cfg)))) ;;;
      if nothing_done m then ret []
      else ret [_event now "partitions_maintained" (maintained_detail m)]
  end.

(** The two conditions of [_tick]. *)
Definition heartbeat_due (now : datetime) u : res bool :=
  match last_heartbeat_attempt u with
  | None => Ok true
  | Some t => d ← time_sub now t; Ok (heartbeat_interval cfg <=? d)
  end.
Definition maintenance_due (now : datetime) u : res bool :=
  match next_maintenance u with None => Ok true | Some t => time_ge now t end.

(** The heartbeat of [_tick]; whether it went through. *)
Definition beat (now : datetime) (status : M E dict) (maintenance : bool) : UM bool :=
  modify (set_attempt now) ;;;
  let* current := on_env status in
  let* ok := try_except (_heartbeat now current ;;; ret true)
    (fun exc => Some (_drop_connection ;;;
                      _heartbeat_failed exc ;;;
                      when maintenance (modify (set_next (Some (add_us now (heartbeat_interval cfg))))) ;;;
                      ret false)) in
  when ok _heartbeat_ok ;;;
  ret ok.

(** [_tick] *)
Definition _tick (now : datetime) (status : M E dict) : UM (list record) :=
  let* u := gets id in
  let* heartbeat := lift (heartbeat_due now u) in
  let* maintenance := lift (maintenance_due now u) in
  let* go_on := if heartbeat then beat now status maintenance else ret true in
  if go_on then (if maintenance then _maintain now else ret []) else ret [].

(** [tick] *)
Definition tick (now : datetime) (status : M E dict) : UM (list record) :=
  try_except (_tick now status)
    (fun _ => Some (modify (log "upkeep failed") ;;; _drop_connection ;;; ret [])).

(** The loop of [close], with [attempts] attempts left. *)
Fixpoint close_attempts (attempts : nat) (now : datetime) (status : dict) : UM unit :=
  match attempts with
  | O => ret tt
  | S others =>
      let* ok := try_except (_heartbeat now status ;;; ret true)
        (fun exc => Some (_drop_connection ;;;
                          when (match others with O => true | _ => false end)
                            (modify (log ("final heartbeat failed: " +:+ describe exc))) ;;;
                          ret false)) in
      if ok then ret tt else close_attempts others now status
  end.

(** [close] *)
Definition close (now : datetime) (status : dict) : UM unit :=
  let status := dmerge status [("state", VStr "stopped")] in
  let* u := gets id in
  close_attempts (match link (sess u) with Some _ => 2 | None => 1 end) now status ;;;
  _drop_connection.
End Upkeep.

(** ** The schedule *)

Section Schedule.
Context {E : Type} (cfg : uconfig).
Implicit Types (u : upkeep E).

(** The state of the outage a log describes: a failure is logged once, then a success. *)
Definition log_step (failing : option bool) (m : string) : option bool :=
  (failing : option bool) ≫= fun f : bool =>
  if String.prefix "heartbeat failed: " m then (if f then None else Some true)
  else if decide (m = "heartbeat succeeded again") then (if f then Some false else None)
  else Some f.
Definition outage_told (l : list string) : option bool := foldl log_step (Some false) l.

(** [l] has every two neighbours at least [d] microseconds apart. *)
Definition spaced (d : Z) (l : list datetime) : Prop :=
  forall i s t, l !! i = Some s -> l !! S i = Some t -> d <= instant t - instant s.

Lemma spaced_snoc d l t :
  spaced d l -> (forall s, last l = Some s -> d <= instant t - instant s) -> spaced d (l ++ [t]).
Proof.
  intros Hl Ht i s s' Hs Hs'. destruct (decide (S i < length l)%nat) as [Hlt|Hge].
  - rewrite lookup_app_l in Hs, Hs' by lia. eauto.
  - pose proof (lookup_lt_Some _ _ _ Hs') as Hlen. rewrite length_app in Hlen. cbn in Hlen.
    assert (S i = length l) as Hi by lia. rewrite lookup_app_l in Hs by lia.
    rewrite lookup_app_r, Hi, Nat.sub_diag in Hs' by lia. injection Hs' as <-.
    apply Ht. rewrite last_lookup. by rewrite <- Hi.
Qed.

Abbreviation run_gap := (Z.min (maintenance_interval cfg) (retry_interval cfg)).

Record on_schedule u : Prop := OnSchedule {
  os_last : last (beats u) = last_heartbeat_attempt u;
  os_beats : spaced (heartbeat_interval cfg) (beats u);
  os_runs : spaced run_gap (runs u);
  os_next : forall t, last (runs u) = Some t ->
    exists n, next_maintenance u = Some n /\ run_gap <= instant n - instant t;
  os_log : outage_told (logged u) = Some (heartbeat_failing u);
}.

Lemma time_sub_ok a b d : time_sub a b = Ok d -> d = instant a - instant b.
Proof. unfold time_sub. case_match; [by intros [= <-] | done]. Qed.
Lemma time_ge_ok a b : time_ge a b = Ok true -> instant b <= instant a.
Proof. unfold time_ge. case_match; [intros [= E1]; by apply Z.leb_le | done]. Qed.

Lemma outage_told_log l m : outage_told (l ++ [m]) = log_step (outage_told l) m.
Proof. unfold outage_told. by rewrite foldl_app. Qed.

(** Messages that are not about heartbeats. *)
Lemma log_other m u :
  String.prefix "heartbeat failed: " m = false -> m <> "heartbeat succeeded again" ->
  on_schedule u -> on_schedule (log m u).
Proof.
  intros H1 H2 [? ? ? ? Hl]. split; cbn; try done.
  rewrite outage_told_log, Hl. cbn. rewrite H1. by rewrite decide_False.
Qed.

Lemma schedule_session {A} (c : SM A) : keeps on_schedule (on_session c : M (upkeep E) A).
Proof. intros u Hu. unfold on_session, zoom. destruct (c (sess u)) as [r s]. destruct Hu. by split. Qed.
Lemma schedule_env {A} (c : M E A) : keeps on_schedule (on_env c : M (upkeep E) A).
Proof. intros u Hu. unfold on_env, zoom. destruct (c (env u)) as [r s]. destruct Hu. by split. Qed.

#[local] Hint Resolve schedule_session schedule_env : nm.

Lemma schedule_heartbeat now st : keeps on_schedule (@_heartbeat E cfg now st).
Proof. unfold _heartbeat, _connection. auto with nm. Qed.
Lemma schedule_drop : keeps on_schedule (@_drop_connection E).
Proof. apply schedule_session. Qed.

Lemma schedule_failed exc : keeps on_schedule (@_heartbeat_failed E exc).
Proof.
  intros u [Hl Hb Hr Hn Ho]. unfold _heartbeat_failed, bind, gets.
  destruct (heartbeat_failing u) eqn:Ef; cbn; split; cbn; try done.
  rewrite outage_told_log, Ho. cbn [log_step mbind option_bind].
  assert (String.prefix "heartbeat failed: " ("heartbeat failed: " +:+ describe exc) = true) as ->; [|done].
  by destruct (describe exc).
Qed.

Lemma schedule_ok : keeps on_schedule (@_heartbeat_ok E).
Proof.
  intros u [Hl Hb Hr Hn Ho]. unfold _heartbeat_ok, bind, gets.
  destruct (heartbeat_failing u) eqn:Ef; cbn; split; cbn; try done.
  by rewrite outage_told_log, Ho.
Qed.

#[local] Hint Resolve schedule_heartbeat schedule_drop schedule_failed schedule_ok : nm.

(** Moving the next maintenance to a later time. *)
Lemma schedule_next now d (P : upkeep E -> Prop) :
  0 <= d -> (forall u, P u -> on_schedule u /\ maintenance_due now u = Ok true) ->
  hoare P (modify (set_next (Some (add_us now d)))) (fun _ => on_schedule).
Proof.
  intros Hd HP. apply hoare_modify. intros u Hu. destruct (HP u Hu) as [[Hl Hb Hr Hn Ho] Hdue].
  split; cbn; try done. intros t Ht. eexists. split; [done|].
  destruct (Hn t Ht) as (n & En & Hgap). unfold maintenance_due in Hdue. rewrite En in Hdue.
  apply time_ge_ok in Hdue. unfold instant, add_us in *. cbn. lia.
Qed.

(** [maintenance_due] only reads [next_maintenance]. *)
Definition due_still now (b : bool) u : Prop := on_schedule u /\ maintenance_due now u = Ok b.

Lemma due_keeps {A} now b (c : M (upkeep E) A) :
  keeps on_schedule c -> (forall n, keeps (fun u => next_maintenance u = n) c) -> keeps (due_still now b) c.
Proof.
  intros H1 H2 u [Hu Hd]. split; [by apply H1|]. pose proof (H2 _ u eq_refl) as En. cbv beta in En.
  unfold maintenance_due in *. by rewrite En.
Qed.

Lemma next_session {A} (c : SM A) n : keeps (fun u => next_maintenance u = n) (on_session c : M (upkeep E) A).
Proof. intros u Hu. unfold on_session, zoom. by destruct (c (sess u)). Qed.
Lemma next_env {A} (c : M E A) n : keeps (fun u => next_maintenance u = n) (on_env c : M (upkeep E) A).
Proof. intros u Hu. unfold on_env, zoom. by destruct (c (env u)). Qed.
#[local] Hint Resolve next_session next_env : nm.
Lemma next_heartbeat now st n : keeps (fun u => next_maintenance u = n) (@_heartbeat E cfg now st).
Proof. unfold _heartbeat, _connection. auto with nm. Qed.
Lemma next_failed exc n : keeps (fun u => next_maintenance u = n) (@_heartbeat_failed E exc).
Proof. intros u Hu. unfold _heartbeat_failed, bind, gets. by destruct (heartbeat_failing u). Qed.
#[local] Hint Resolve next_heartbeat next_failed : nm.

Lemma schedule_attempt now b :
  hoare (fun u => due_still now b u /\ heartbeat_due cfg now u = Ok true) (modify (set_attempt now))
    (fun _ => due_still now b).
Proof.
  apply hoare_modify. intros u [[[Hl Hb Hr Hn Ho] Hm] Hd]. split; [split; cbn; try done|done].
  - by rewrite last_snoc.
  - apply spaced_snoc; [done|]. intros s Hs. unfold heartbeat_due in Hd. rewrite <- Hl, Hs in Hd.
    apply res_bind_ok in Hd as (x & Hx & [= Hle]). apply time_sub_ok in Hx. apply Z.leb_le in Hle. lia.
Qed.

Lemma beat_schedule now st b :
  0 <= heartbeat_interval cfg ->
  hoare (fun u => due_still now b u /\ heartbeat_due cfg now u = Ok true) (beat cfg now st b)
    (fun r u => on_schedule u /\ (r = Ok true -> due_still now b u)).
Proof.
  intros Hi. unfold beat.
  eapply hoare_bind with (R := fun _ => due_still now b).
  { eapply hoare_post; [apply schedule_attempt|]. intros [] u Hu; [done|]. split; [apply Hu | done]. }
  intros _. eapply hoare_bind with (R := fun _ => due_still now b).
  { eapply hoare_post; [apply (due_keeps now b); auto with nm|]. intros [] u Hu; [done|]. split; [apply Hu | done]. }
  intros current.
  eapply hoare_bind with (R := fun ok u => on_schedule u /\ (ok = true -> due_still now b u)).
  - apply (hoare_try _ _ _ (fun _ => due_still now b)); [| |done].
    + eapply hoare_bind with (R := fun _ => due_still now b); [|intros _; apply hoare_ret; by intros u [? ?]].
      eapply hoare_post; [apply (due_keeps now b); auto with nm|]. by intros [].
    + intros e k [= <-]. eapply hoare_bind with (R := fun _ => due_still now b).
      { eapply hoare_post; [apply (due_keeps now b); [auto with nm | intros; apply next_session]|].
        intros [] u Hu; [done|]. split; [apply Hu | done]. }
      intros _. eapply hoare_bind with (R := fun _ => due_still now b).
      { eapply hoare_post; [apply (due_keeps now b); auto with nm|]. intros [] u Hu; [done|]. split; [apply Hu | done]. }
      intros _. eapply hoare_bind with (R := fun _ => on_schedule); [|intros _; by apply hoare_ret].
      destruct b; cbn [when].
      * eapply hoare_post; [apply (schedule_next now); [done | by intros u Hu]|]. intros [] u Hu; [done|]. by split.
      * apply hoare_ret. by intros u [? ?].
  - intros ok. eapply hoare_bind with (R := fun _ u => on_schedule u /\ (ok = true -> due_still now b u));
      [|intros _; apply hoare_ret; intros u [H1 H2]; split; [done|]; intros [= ->]; auto].
    destruct ok; cbn [when].
    + eapply hoare_conseq with (Q' := fun _ => due_still now b) (P' := due_still now b).
      * apply due_keeps; [auto with nm|]. intros n u Hu. unfold _heartbeat_ok, bind, gets.
        by destruct (heartbeat_failing u).
      * intros u [_ H]. auto.
      * intros [] u [H1 H2]; [by split | split; [done | by intros]].
    + by apply hoare_ret.
Qed.

(** While maintenance runs: its time is the last of [runs], the next one is not set yet. *)
Record running now u : Prop := Running {
  rn_last : last (beats u) = last_heartbeat_attempt u;
  rn_beats : spaced (heartbeat_interval cfg) (beats u);
  rn_runs : spaced run_gap (runs u);
  rn_now : last (runs u) = Some now;
  rn_log : outage_told (logged u) = Some (heartbeat_failing u);
}.

Lemma running_session {A} now (c : SM A) : keeps (running now) (on_session c : M (upkeep E) A).
Proof. intros u Hu. unfold on_session, zoom. destruct (c (sess u)) as [r s]. destruct Hu. by split. Qed.

Lemma running_done now d :
  run_gap <= d -> hoare (running now) (modify (set_next (Some (add_us now d)))) (fun _ => on_schedule).
Proof.
  intros Hd. apply hoare_modify. intros u [Hl Hb Hr Hn Ho]. split; cbn; try done.
  intros t Ht. rewrite Hn in Ht. injection Ht as <-. eexists. split; [done|].
  unfold instant, add_us. cbn. lia.
Qed.

Lemma running_log now m u :
  String.prefix "heartbeat failed: " m = false -> m <> "heartbeat succeeded again" ->
  running now u -> running now (log m u).
Proof.
  intros H1 H2 [? ? ? ? Hl]. split; cbn; try done.
  rewrite outage_told_log, Hl. cbn. rewrite H1. by rewrite decide_False.
Qed.

Lemma maintain_schedule now :
  hoare (due_still now true) (@_maintain E cfg now) (fun _ => on_schedule).
Proof.
  unfold _maintain. eapply hoare_bind with (R := fun _ => running now).
  { apply hoare_modify. intros u [[Hl Hb Hr Hn Ho] Hdue]. split; cbn; try done.
    - apply spaced_snoc; [done|]. intros t Ht. destruct (Hn t Ht) as (n & En & Hgap).
      unfold maintenance_due in Hdue. rewrite En in Hdue. apply time_ge_ok in Hdue. lia.
    - by rewrite last_snoc. }
  intros _. eapply hoare_bind with (R := fun r => match r with inl _ => running now | inr _ => on_schedule end).
  - apply (hoare_try _ _ _ (fun _ => running now)); [| |done].
    + unfold _connection. eapply hoare_bind with (R := fun _ => running now).
      { eapply hoare_post; [apply running_session|]. by intros []. }
      intros _. eapply hoare_bind with (R := fun _ => running now); [|intros m; by apply hoare_ret].
      eapply hoare_post; [apply running_session|]. by intros [].
    + intros e k [= <-]. eapply hoare_bind with (R := fun _ => running now).
      { apply hoare_modify. intros u Hu. by apply running_log. }
      intros _. eapply hoare_bind with (R := fun _ => running now).
      { apply hoare_run. by intros u []. }
      intros _. eapply hoare_bind with (R := fun _ => on_schedule); [|intros _; by apply hoare_ret].
      eapply hoare_post; [apply running_done; lia|]. by intros [].
  - intros [m|events]; [|by apply hoare_ret]. eapply hoare_bind with (R := fun _ => on_schedule).
    + eapply hoare_post; [apply running_done; destruct (skipped m); lia|]. by intros [].
    + intros _. by destruct (nothing_done m); apply hoare_ret.
Qed.

Lemma tick_body_schedule now st :
  0 <= heartbeat_interval cfg -> keeps on_schedule (@_tick E cfg now st).
Proof.
  intros Hi. unfold _tick. eapply hoare_bind with (R := fun u0 u => on_schedule u /\ u0 = u).
  { by apply hoare_gets. }
  intros u0. eapply hoare_bind with (R := fun b u => on_schedule u /\ heartbeat_due cfg now u = Ok b /\ u0 = u).
  { apply hoare_lift. intros u [Hu ->]. by destruct (heartbeat_due cfg now u). }
  intros h. eapply hoare_bind with (R := fun b u => due_still now b u /\ heartbeat_due cfg now u = Ok h).
  { apply hoare_lift. intros u (Hu & Hh & ->). by destruct (maintenance_due now u) eqn:E1. }
  intros m. eapply hoare_bind with (R := fun go u => on_schedule u /\ (go = true -> due_still now m u)).
  - destruct h.
    + eapply hoare_post; [by apply beat_schedule|]. intros [go|e] u [H1 H2]; [|done].
      split; [done|]. intros ->. auto.
    + apply hoare_ret. intros u [[H1 H2] _]. by split.
  - intros go. destruct go; [|apply hoare_ret; by intros u [? _]].
    destruct m; [|apply hoare_ret; by intros u [? _]].
    eapply hoare_pre; [apply maintain_schedule|]. intros u [_ H]. auto.
Qed.

Lemma tick_schedule now st :
  0 <= heartbeat_interval cfg -> keeps on_schedule (@tick E cfg now st).
Proof.
  intros Hi. apply keeps_try; [by apply tick_body_schedule|]. intros e k [= <-].
  apply keeps_bind.
  - apply keeps_modify. intros u Hu. by apply log_other.
  - intros _. apply keeps_bind; [apply schedule_drop|]. intros _. apply keeps_ret.
Qed.

Lemma tick_returns now st u : exists evs u', @tick E cfg now st u = (Ok evs, u').
Proof. unfold tick, try_except. destruct (_tick cfg now st u) as [[evs|e] u']; by eexists _, _. Qed.

(** A run of the thread's ticks; the events they return. *)
Fixpoint ticks (l : list (datetime * M E dict)) : M (upkeep E) (list record) :=
  match l with
  | [] => ret []
  | (now, st) :: l => let* evs := tick cfg now st in let* rest := ticks l in ret (evs ++ rest)
  end.

(** Housekeeping keeps its schedule whatever the server, the clock and the status callable
    do: no sequence of ticks raises; heartbeats are attempted at least the heartbeat interval
    apart and maintenance at least the shorter of its two intervals apart; and the log tells
    each outage once, a failure and then a success. *)
Theorem upkeep_schedule e s l :
  0 <= heartbeat_interval cfg ->
  exists evs u, ticks l (new_upkeep e s) = (Ok evs, u) /\
    spaced (heartbeat_interval cfg) (beats u) /\
    spaced (Z.min (maintenance_interval cfg) (retry_interval cfg)) (runs u) /\
    outage_told (logged u) = Some (heartbeat_failing u).
Proof.
  intros Hi. assert (H : forall l u, on_schedule u -> exists evs u', ticks l u = (Ok evs, u') /\ on_schedule u').
  { clear l. induction l as [|[now st] l IH]; intros u Hu; cbn [ticks]; [by eexists _, _|].
    pose proof (tick_schedule now st Hi u Hu) as H1. destruct (tick_returns now st u) as (evs & u1 & E1).
    rewrite E1 in H1. erewrite run_bind by exact E1. destruct (IH u1 H1) as (evs' & u2 & E2 & H2).
    erewrite run_bind by exact E2. by eexists _, _. }
  destruct (H l (new_upkeep e s)) as (evs & u & El & [H1 H2 H3 _ H4]); [by split|]. by exists evs, u.
Qed.
End Schedule.

(** ** The environment: only [status] touches it *)

Section Environment.
Context {E : Type} (cfg : uconfig) (P : E -> Prop).

Abbreviation in_env := (fun u : upkeep E => P (env u)).

Lemma env_session {A} (c : SM A) : keeps in_env (on_session c).
Proof. intros u Hu. unfold on_session, zoom. by destruct (c (sess u)). Qed.

Lemma env_status {A} (c : M E A) : keeps P c -> keeps in_env (on_env c).
Proof. intros Hc u Hu. unfold on_env, zoom. specialize (Hc (env u) Hu). by destruct (c (env u)). Qed.

#[local] Hint Resolve env_session env_status : nm.
#[local] Hint Extern 0 (keeps _ (modify _)) => apply keeps_modify; intros; assumption : nm.

Lemma env_heartbeat now st : keeps in_env (_heartbeat cfg now st).
Proof. unfold _heartbeat, _connection. auto with nm. Qed.
#[local] Hint Resolve env_heartbeat : nm.

Lemma env_handler (f : exn -> M (upkeep E) bool) now st :
  (forall e, keeps in_env (f e)) ->
  keeps in_env (try_except (_heartbeat cfg now st ;;; ret true) (fun exc => Some (f exc))).
Proof. intros Hf. apply keeps_try; [auto with nm|]. intros e k [= <-]. apply Hf. Qed.

Lemma env_maintain now : keeps in_env (_maintain cfg now).
Proof.
  unfold _maintain, _connection, _drop_connection. apply keeps_bind; [auto with nm|]. intros _.
  apply keeps_bind; [|intros [m|evs]; [destruct (nothing_done m)|]; auto 8 with nm].
  apply keeps_try; [auto 8 with nm|]. intros e k [= <-]. auto 8 with nm.
Qed.

Lemma env_tick now st : keeps P st -> keeps in_env (tick cfg now st).
Proof.
  intros Hst. unfold tick, _drop_connection. apply keeps_try; [|intros e k [= <-]; auto 8 with nm].
  unfold _tick. do 3 (apply keeps_bind; [auto with nm|]; intros). apply keeps_bind.
  - apply keeps_if; [|auto with nm]. unfold beat, _heartbeat_ok.
    do 2 (apply keeps_bind; [auto with nm|]; intros). apply keeps_bind; [|auto 8 with nm].
    apply env_handler. intros e. unfold _drop_connection, _heartbeat_failed. auto 12 with nm.
  - intros go. auto using env_maintain with nm.
Qed.

Lemma env_close now st : keeps in_env (close cfg now st).
Proof.
  unfold close, _drop_connection. apply keeps_bind; [auto with nm|]. intros u. apply keeps_bind; [|auto with nm].
  generalize (match link (sess u) with Some _ => 2%nat | None => 1%nat end) as n.
  induction n as [|n IH]; cbn [close_attempts]; [auto with nm|]. apply keeps_bind.
  - apply env_handler. intros e. unfold _drop_connection. auto 12 with nm.
  - intros [|]; auto with nm.
Qed.
End Environment.

(** ** A tick when the server answers *)

Section Quiet.
Context (now : datetime) (r : retention) (b : bool).

Abbreviation mine d := (Forall monthly_partition (partitions d)).
Definition kept_calm (s : session) : Prop := mine (data s) /\ calm b s.

Lemma drop_one_calm t name :
  hoare kept_calm (drop_one t name) (fun res s => match res with Ok _ => kept_calm s | Raise _ => b = false /\ mine (data s) end).
Proof.
  set (I := fun d => mine d). set (J := fun (_ : unit) d => mine d).
  assert (Hno : forall d, I d -> exists a d', no_change d = Ok (a, d') /\ I d') by (intros d Hd; by exists tt, d).
  eapply hoare_post; [apply (hoare_transaction_calm b _ I J)|].
  2: { intros [x|e] s; cbn; [done|]. intros [? [?|[[] ?]]]; done. }
  do 2 (eapply hoare_bind with (R := fun _ s => I (data s) /\ calm b s);
    [eapply hoare_post; [exact (hoare_execute b no_change I (fun _ => I) Hno)|]; by intros [] s; cbn; [|intros []]
    |intros _]).
  eapply hoare_post; [apply (hoare_execute b _ I J)|by intros [] s; cbn; [|intros []]].
  intros d Hd. eexists tt, _. split; [done|]. unfold J. cbn.
  apply Forall_forall. intros p [_ Hp]%list_elem_of_filter. by apply (proj1 (Forall_forall _ _) Hd).
Qed.

Lemma retire_calm t days k acc :
  python_month k -> t ∈ partitioned_tables -> (b = true -> acc.2 = []) ->
  hoare kept_calm
    (retire (month_start (month_of now)) (cutoff_of now (days r)) t acc (p_name (partition_of t k)))
    (fun res s => match res with Ok acc => kept_calm s /\ (b = true -> acc.2 = []) | Raise _ => b = false end).
Proof.
  intros Hk Ht Hacc. unfold retire.
  rewrite (partition_month_name t k (python_month_year k Hk) : partition_month t (p_name (partition_of t k)) = _).
  assert (first_of_month (k / 12) (k mod 12 + 1) = Ok (month_start k)) as Hf.
  { unfold first_of_month. unfold python_month, LAST_MONTH in Hk.
    rewrite !(proj2 (Z.leb_le _ _)) by (Z.to_euclidean_division_equations; lia). done. }
  rewrite Hf. eapply hoare_bind with (R := fun start s => kept_calm s /\ start = month_start k).
  { by apply hoare_lift. }
  intros start. apply hoare_pure. intros ->.
  assert (exists due, expired (month_start (month_of now)) (cutoff_of now (days r)) (month_start k) = Ok due) as [due He].
  { unfold expired. case_match; [by eexists|]. rewrite next_month_start; [by eexists|].
    unfold python_month in Hk. lia. }
  rewrite He. eapply hoare_bind with (R := fun d s => kept_calm s /\ d = due); [by apply hoare_lift|].
  intros d. apply hoare_pure. intros ->. destruct due; [|by apply hoare_ret].
  apply (hoare_try _ _ _ (fun _ s => b = false /\ mine (data s))).
  - eapply hoare_bind with (R := fun _ => kept_calm); [eapply hoare_post; [apply drop_one_calm|]; by intros []|].
    intros _. by apply hoare_ret.
  - intros e k'. destruct (is_lock_not_available e); intros [= <-]. apply hoare_ret. intros s [Hb Hm].
    split; [split; [done|]|]; intros Hb'; congruence.
  - by intros e s _ [? _].
Qed.

Lemma attached_calm t :
  hoare kept_calm (_attached_partitions t)
    (fun res s => match res with
      | Ok l => kept_calm s /\ (t ∈ partitioned_tables -> Forall (fun n => exists k, python_month k /\ n = p_name (partition_of t k)) l)
      | Raise _ => b = false end).
Proof.
  eapply hoare_post; [apply (hoare_execute b _ (fun d => mine d) (fun l d => mine d /\
    Forall (fun n => exists k, python_month k /\ n = p_name (partition_of t k)) l))|].
  - intros d Hd. eexists _, _. split; [done|]. split; [exact Hd|].
    apply Forall_forall. intros n. rewrite merge_sort_Permutation.
    intros (p & -> & [Hpt Hp]%list_elem_of_filter)%list_elem_of_fmap.
    destruct (proj1 (Forall_forall _ _) Hd p Hp) as (t' & k & _ & Hk & ->). cbn in Hpt. subst t'. by exists k.
  - intros [l|e] s; cbn; [|by intros [? _]]. intros [[H1 H2] H3]. by split.
Qed.

Lemma retention_calm :
  is_aware now = true ->
  hoare kept_calm (apply_retention now r)
    (fun res s => match res with Ok acc => kept_calm s /\ (b = true -> acc.2 = []) | Raise _ => b = false end).
Proof.
  intros Ha. unfold apply_retention.
  eapply hoare_bind with (R := fun _ => kept_calm); [apply hoare_lift; unfold require_aware; by rewrite Ha|].
  intros _. rewrite month_floor_start by done.
  eapply hoare_bind with (R := fun m s => kept_calm s /\ m = month_start (month_of now)); [by apply hoare_lift|].
  intros m. apply hoare_pure. intros ->.
  set (G := fun (acc : list string * list string) s => kept_calm s /\ (b = true -> acc.2 = [])).
  pose proof (hoare_foldM (fun acc ta => bind (_attached_partitions ta.1)
      (fun names => foldM (retire (month_start (month_of now)) (cutoff_of now (ta.2 r)) ta.1) acc names))
    (fun l acc s => G acc s /\ Forall (fun ta => ta ∈ PARTITIONED) l) (fun _ _ => b = false) PARTITIONED ([], [])) as HF.
  cbv beta in HF. eapply hoare_conseq; [apply HF; clear HF | | by intros [] s; cbn; unfold G; naive_solver].
  2: { intros s Hs. split; [by split | by apply Forall_forall]. }
  intros [t days] l acc. apply hoare_pure. intros [Ht Hl]%Forall_cons. apply (list_elem_of_fmap_2 fst) in Ht. cbn [fst snd].
  apply hoare_pure. intros Hacc. eapply hoare_bind; [apply attached_calm|]. intros names.
  apply hoare_pure. intros Hn. specialize (Hn Ht).
  pose proof (hoare_foldM (retire (month_start (month_of now)) (cutoff_of now (days r)) t)
    (fun ns acc s => G acc s /\ Forall (fun n => exists k, python_month k /\ n = p_name (partition_of t k)) ns)
    (fun _ _ => b = false) names acc) as HF. cbv beta in HF.
  eapply hoare_conseq; [apply HF; clear HF | by intros s Hs | by intros [] s; cbn; naive_solver].
  intros n ns acc'. apply hoare_pure. intros [(k & Hk & ->) Hns]%Forall_cons. apply hoare_pure. intros Hacc'.
  eapply hoare_post; [by apply retire_calm|]. by intros [] s.
Qed.
End Quiet.

(** What the daily run leaves: the coming months routed, nothing due left, other tables alone. *)
Definition tidy (now : datetime) (r : retention) (d0 d : database) : Prop :=
  (forall t us, t ∈ partitioned_tables ->
     instant (month_start (month_of now)) <= us < instant (month_start (month_of now + 3)) -> routed t us d = true) /\
  (forall p, p ∈ partitions d -> ~ due now r p) /\
  (forall t k row, t ∉ partitioned_tables -> table_of t d0 !! k = Some row -> table_of t d !! k = Some row).

Lemma run_tidy now r d0 :
  is_aware now = true -> 12 <= month_of now -> month_of now + 2 < LAST_MONTH -> monthly d0 ->
  hoare (fun s => data s = d0 /\ calm true s) (run now r)
    (fun res s => match res with Ok m => tidy now r d0 (data s) /\ skipped m = [] | Raise _ => False end).
Proof.
  intros Ha H1 H2 Hm. unfold run.
  eapply hoare_bind with (R := fun _ s => exists d, data s = d /\ calm true s /\ exists l, grown d0 l d /\
      forall t k, t ∈ partitioned_tables -> k ∈ seqZ (month_of now) 3 -> (t, k) ∈ l).
  { eapply hoare_conseq; [apply (ensure_partitions_spec true d0 now 2 Ha ltac:(lia) ltac:(lia)) | |].
    - intros s [<- Hc]. split; [split_and!; auto|done].
    - intros [x|e] s; [|by intros [? _]]. intros [(l & Hg & Hl) Hc]. eexists. by eauto. }
  intros made. apply hoare_run. intros s (d & Ed & Hc & l & Hg & Hl). pose proof Hg as (Hmd & Htab & _).
  pose proof (retention_spec now r d (monthly_unique _ Hmd) Ha s Ed) as HR.
  pose proof (retention_calm now r true Ha s) as HC. unfold bind.
  destruct (apply_retention now r s) as [[acc|e] s']; cbn in HR, HC.
  2: { exfalso. assert (true = false) by (apply HC; split; [rewrite Ed; apply Hmd | done]). done. }
  destruct HC as [_ HC]; [split; [rewrite Ed; apply Hmd | done]|]. destruct HR as [Hret Hset]. specialize (HC eq_refl).
  cbn. split; [|exact HC]. split_and!.
  - intros t us Ht Hus. replace (month_of now + 3) with (month_of now + Z.of_nat 2 + 1) in Hus by lia. destruct (grown_routed _ _ now 2 l Hg Hl t us Ht Hus) as (k & Hk & Hp & Hh).
    apply existsb_exists. exists (partition_of t k). split; [|done]. apply list_elem_of_In.
    destruct (decide (partition_of t k ∈ partitions (data s'))) as [|Hn]; [done|]. exfalso.
    destruct (ret_due _ _ _ _ Hret _ Hp Hn) as (days & k' & _ & Hm' & Hlt & _).
    assert (12 * 10000 > k) as Hy.
    { pose proof (proj1 (Forall_forall _ _) (proj1 Hmd) _ Hp) as (t2 & k2 & _ & Hk2 & Heq).
      unfold partition_of, month_partition in Heq. injection Heq as -> _ Hfrom _.
      assert (k = k2) as ->; [|unfold python_month, LAST_MONTH in Hk2; lia].
      destruct (Z.lt_trichotomy k k2) as [Hc1|[?|Hc1]]; [|done|];
        apply month_start_mono in Hc1; lia. }
    change (p_name (partition_of t k)) with (name_of_month t (month_start k)) in Hm'.
    change (p_table (partition_of t k)) with t in Hm'. rewrite partition_month_name in Hm'.
    + injection Hm' as E1 E2. Z.to_euclidean_division_equations; lia.
    + Z.to_euclidean_division_equations; lia.
  - intros p Hp Hd. unfold settled in Hset. rewrite HC in Hset. destruct (Hset p Hp) as [?%elem_of_nil|[?%elem_of_nil|[?|?%elem_of_nil]]]; done.
  - intros t k row Ht Hk. assert (table_of t d !! k = Some row) as Hk' by (unfold table_of; by rewrite Htab).
    destruct (ret_rows _ _ _ _ Hret t k row Hk') as [|(p & Hp & (days & k' & Hin & _) & Hh)]; [done|].
    exfalso. unfold holds in Hh. apply andb_prop in Hh as [Hh _]. apply andb_prop in Hh as [Hh _].
    apply bool_decide_eq_true in Hh. subst t. apply Ht. by apply (list_elem_of_fmap_2 fst) in Hin.
Qed.

Section TickQuiet.
Context {E : Type} (cfg : uconfig) (now : datetime).
Context (Hnow : is_aware now = true) (Hstart : is_aware (u_started cfg) = true).

(** The row of this collector in [collector_heartbeat]. *)
Definition heartbeat_row (d : database) : option row_t :=
  table_of "collector_heartbeat" d !! [KText (u_system cfg)].

Abbreviation beat_params status :=
  [Scalar (VStr (u_system cfg)); Scalar (VStr (u_host cfg)); Scalar (VStr (u_version cfg));
   Scalar (VTime (u_started cfg)); Scalar (VTime now); to_db_value (VDict status)].
Abbreviation beat_set := (set_excluded ["collector_host"; "version"; "started_at"; "last_seen"; "status"]).

Lemma heartbeat_insert status d :
  exists w d', insert "collector_heartbeat" None heartbeat_into (DoUpdate beat_set (fun _ _ => true))
      (bind_row heartbeat_columns (beat_params status)) d = Ok (w, d') /\
    partitions d' = partitions d /\
    (forall t, t <> "collector_heartbeat" -> table_of t d' = table_of t d) /\
    exists row, heartbeat_row d' = Some row /\
      cell "last_seen" row = Scalar (VTime (utc (instant now))) /\ cell "status" row = to_db_value (VDict status).
Proof.
  unfold insert, insert_row.
  assert (Hk : key_of (key_columns heartbeat_into) (bind_row heartbeat_columns (beat_params status)) = Ok [KText (u_system cfg)])
    by reflexivity.
  rewrite Hk. cbn [mbind res_bind check_not_null].
  assert (Hn : check_not_null (not_null heartbeat_into) (bind_row heartbeat_columns (beat_params status)) = Ok tt)
    by reflexivity.
  rewrite Hn. cbn [mbind res_bind].
  destruct (table_of "collector_heartbeat" d !! [KText (u_system cfg)]) as [old|] eqn:Eo; cbn [mbind res_bind];
    (eexists _, _; split; [reflexivity|]; split; [done|]; split;
      [intros t Ht; by rewrite table_of_set_table, decide_False
      |unfold heartbeat_row; rewrite table_of_set_table, decide_True, lookup_insert_eq by done;
       eexists; split; [reflexivity|]; rewrite ?cell_set_excluded, ?decide_True by (apply list_elem_of_In; cbn; tauto);
       split; reflexivity]).
Qed.

(** A heartbeat on a server that answers. *)
Lemma heartbeat_quiet (u : upkeep E) status :
  quiet (sess u) ->
  exists s, _heartbeat cfg now status u = (Ok tt, set_sess s u) /\ quiet s /\
    partitions (data s) = partitions (data (sess u)) /\
    (forall t, t <> "collector_heartbeat" -> table_of t (data s) = table_of t (data (sess u))) /\
    exists row, heartbeat_row (data s) = Some row /\
      cell "last_seen" row = Scalar (VTime (utc (instant now))) /\ cell "status" row = to_db_value (VDict status).
Proof using Hnow Hstart.
  intros Hq. unfold _heartbeat, _connection.
  assert (exists s1, reconnect (sess u) = (Ok tt, s1) /\ quiet s1 /\ data s1 = data (sess u)) as (s1 & E1 & Hq1 & Hd1).
  { unfold reconnect, open_session, quiet in *. rewrite Hq.
    destruct (link (sess u)) as [c|]; [destruct (c_closed c)|]; by eexists. }
  erewrite run_bind by (unfold on_session, zoom; rewrite E1; reflexivity). cbn beta iota.
  destruct (heartbeat_insert status (data s1)) as (w & d' & Ei & Hp & Ht & Hrow).
  unfold on_session, zoom. cbn [sess set_sess]. unfold write_heartbeat, require_aware. rewrite Hnow, Hstart.
  erewrite run_bind by done. erewrite run_bind by done. cbn beta iota.
  erewrite run_bind by (rewrite execute_quiet by done; rewrite Ei; reflexivity). cbn beta iota.
  exists (set_data d' s1). rewrite Hd1 in *. by split_and!.
Qed.

(** C35. When the server answers, a tick that is due does all of it: the heartbeat row holds this
    time and status, every partitioned table takes rows of this month and the next two, no
    partition is left that retention says to drop, the other tables keep their rows, and the
    next maintenance is one interval away. *)
Theorem tick_maintains (u : upkeep E) st current e' :
  12 <= month_of now -> month_of now + 2 < LAST_MONTH ->
  quiet (sess u) -> monthly (data (sess u)) ->
  heartbeat_due cfg now u = Ok true -> maintenance_due now u = Ok true ->
  st (env u) = (Ok current, e') ->
  exists evs u' row, tick cfg now st u = (Ok evs, u') /\
    heartbeat_row (data (sess u')) = Some row /\
    cell "last_seen" row = Scalar (VTime (utc (instant now))) /\ cell "status" row = to_db_value (VDict current) /\
    (forall t us, t ∈ partitioned_tables ->
       instant (month_start (month_of now)) <= us < instant (month_start (month_of now + 3)) ->
       routed t us (data (sess u')) = true) /\
    (forall p, p ∈ partitions (data (sess u')) -> ~ due now (u_retention cfg) p) /\
    (forall t k r, t ∉ partitioned_tables -> t <> "collector_heartbeat" ->
       table_of t (data (sess u)) !! k = Some r -> table_of t (data (sess u')) !! k = Some r) /\
    next_maintenance u' = Some (add_us now (maintenance_interval cfg)) /\ heartbeat_failing u' = false.
Proof using Hnow Hstart.
  intros H1 H2 Hq Hm Hh Hmd Est.
  set (u1 := set_env e' (set_attempt now u)).
  destruct (heartbeat_quiet u1 current Hq) as (s & Ehb & Hqs & Hp & Ht & row & Hrow & Hls & Hst).
  assert (Eb : beat cfg now st true u = (Ok true, set_failing false (if heartbeat_failing u
      then log "heartbeat succeeded again" (set_sess s u1) else set_sess s u1))).
  { unfold beat. erewrite run_bind by done. cbn beta iota.
    erewrite run_bind by (unfold on_env, zoom; cbn [env set_attempt]; rewrite Est; reflexivity). cbn beta iota.
    change (set_env e' (set_attempt now u)) with u1.
    erewrite run_bind.
    2: { apply run_try_ok. eapply run_bind_ok; [exact Ehb|]. reflexivity. }
    cbn beta iota. cbn [when]. unfold _heartbeat_ok, bind, gets. cbn [heartbeat_failing set_sess u1 set_env set_attempt].
    by destruct (heartbeat_failing u). }
  set (u2 := set_failing _ _) in Eb.
  assert (Hs2 : sess u2 = s) by (by unfold u2; destruct (heartbeat_failing u)).
  assert (Hf2 : heartbeat_failing u2 = false) by done.
  (* maintenance: a fresh session if the heartbeat's is closed *)
  assert (exists s1, reconnect s = (Ok tt, s1) /\ quiet s1 /\ data s1 = data s) as (s1 & E1 & Hq1 & Hd1).
  { unfold reconnect, open_session, quiet in *. rewrite Hqs.
    destruct (link s) as [c|]; [destruct (c_closed c)|]; by eexists. }
  assert (Hm1 : monthly (data s)) by (unfold monthly; rewrite Hp; apply Hm).
  pose proof (run_tidy now (u_retention cfg) (data s) Hnow H1 H2 Hm1 s1) as HR.
  destruct (run now (u_retention cfg) s1) as [[m|e] s2] eqn:Er; cbn in HR.
  2: { exfalso. apply HR. split; [done | intros _; exact Hq1]. }
  destruct HR as [(Hr1 & Hr2 & Hr3) Hsk]; [split; [done | intros _; exact Hq1]|].
  exists (if nothing_done m then [] else [_event cfg now "partitions_maintained" (maintained_detail m)]).
  exists (set_next (Some (add_us now (maintenance_interval cfg))) (set_sess s2 (mark_run now u2))), row.
  split; [|split_and!; try done].
  - apply run_try_ok. unfold _tick.
    erewrite run_bind by done. cbn beta iota. erewrite run_bind by (unfold lift, id; rewrite Hh; reflexivity).
    cbn beta iota. erewrite run_bind by (unfold lift, id; rewrite Hmd; reflexivity). cbn beta iota.
    erewrite run_bind by exact Eb. cbn beta iota. unfold _maintain.
    erewrite run_bind by done. cbn beta iota.
    erewrite run_bind.
    2: { apply run_try_ok. eapply run_bind_ok.
      { unfold _connection, on_session, zoom. cbn [sess mark_run]. rewrite Hs2, E1. reflexivity. }
      eapply run_bind_ok; [|reflexivity]. unfold on_session, zoom. cbn [sess set_sess]. rewrite Er. reflexivity. }
    cbn beta iota. rewrite Hsk. erewrite run_bind by done. cbn beta iota. by destruct (nothing_done m).
  - unfold heartbeat_row in *. cbn [sess set_next set_sess]. apply Hr3; [|done].
    intros Hin. apply list_elem_of_In in Hin. cbn in Hin. naive_solver.
  - intros t k r Hnt Hne Hk. apply Hr3; [done|]. by rewrite Ht.
Qed.
End TickQuiet.

(** ** Examples *)

Definition demo_config : uconfig :=
  UConfig "s" demo_retention "host" "1.0" demo_now (60 * second_us) day_us hour_us.
Definition demo_status : M unit dict := ret [("connected", VBool true)].
Definition demo_upkeep (l : list answer) : upkeep unit := new_upkeep tt (demo_session l).

Lemma upkeep_schedule_witness :
  exists evs u, ticks demo_config [(demo_now, demo_status); (add_us demo_now (5 * second_us), raise TypeError)]
                  (new_upkeep tt (demo_session [Fails (lost_exn "refused") healthy])) = (Ok evs, u) /\
    spaced (60 * second_us) (beats u) /\
    spaced (Z.min day_us hour_us) (runs u) /\
    outage_told (logged u) = Some (heartbeat_failing u).
Proof. apply (upkeep_schedule demo_config tt); vm_compute; congruence. Defined.

Lemma tick_maintains_witness :
  exists evs u' row, tick demo_config demo_now demo_status (demo_upkeep []) = (Ok evs, u') /\
    heartbeat_row demo_config (data (sess u')) = Some row /\
    next_maintenance u' = Some (add_us demo_now day_us).
Proof.
  destruct (tick_maintains demo_config demo_now eq_refl eq_refl (demo_upkeep []) demo_status [("connected", VBool true)] tt)
    as (evs & u' & row & H1 & H2 & _ & _ & _ & _ & _ & H3 & _).
  - vm_compute. congruence.
  - vm_compute. reflexivity.
  - reflexivity.
  - exact demo_monthly.
  - reflexivity.
  - reflexivity.
  - reflexivity.
  - exists evs, u', row. split; [exact H1|]. split; [exact H2 | exact H3].
Defined.

(** The connection is refused twice, 60 seconds apart, then the server is back: one warning, one
    message of recovery, and the maintenance that was put off runs. *)
Example upkeep_outage :
  let refused := Fails (lost_exn "refused") healthy in
  let at_ s := add_us demo_now (s * second_us) in
  let '(_, u) := ticks demo_config [(at_ 0, demo_status); (at_ 30, demo_status); (at_ 60, demo_status);
                                    (at_ 120, demo_status); (at_ 125, demo_status)]
                   (demo_upkeep [refused; refused]) in
  (logged u, beats u, runs u)
  = (["heartbeat failed: OperationalError: refused"; "heartbeat succeeded again"],
     [at_ 0; at_ 60; at_ 120], [at_ 120]).
Proof. vm_compute. reflexivity. Qed.
