(* ===== verification/WriterThread.v ===== *)
(** * The writer thread

    [node_monitor/collector/writer_thread.py]: the thread that drains the record queue into
    the buffered writer and runs the housekeeping, over the queue, the spool, the database
    and the schedule of the other files.  The writer and the housekeeping have a session each
    with the same server: what one changes in the database the other sees.

    The event loop's thread works on the queue meanwhile.  What it does between two steps of
    the loop is a script: for each round, its operations before the take and those before the
    test of the loop.  [given] and [told] are ghost fields: the lists of records handed to the
    buffered writer, and every event it made. *)

From stdpp Require Import pretty.
From S2P Require Import Prelude PyFloat PyTime PyVal Codec Spool Connect Buffered RecordQueue.
From S2P Require Import Sql Maintenance DbWriter Upkeep.

Open Scope py_scope.

Definition _FINAL_ROUNDS : nat := 3.

(** What [status_fn] sees. *)
Record core := Core {
  _queue : queue;
  _buffered : bworld session;
  _last_write_at : option datetime;
  clock : nat -> datetime;
  readings : nat;
  given : list (list record);
  told : list record;
}.

Definition set_queue q c : core := Core q (_buffered c) (_last_write_at c) (clock c) (readings c) (given c) (told c).
Definition set_buffered b c : core := Core (_queue c) b (_last_write_at c) (clock c) (readings c) (given c) (told c).
Definition set_written t c : core := Core (_queue c) (_buffered c) (Some t) (clock c) (readings c) (given c) (told c).
Definition set_readings n c : core := Core (_queue c) (_buffered c) (_last_write_at c) (clock c) n (given c) (told c).
Definition note g t c : core := Core (_queue c) (_buffered c) (_last_write_at c) (clock c) (readings c) (given c ++ [g]) (told c ++ t).

Record thread := Thread {
  _upkeep : upkeep core;
  _carried : list record;
  thread_log : list string;
}.

Definition set_upkeep u th : thread := Thread u (_carried th) (thread_log th).
Definition set_carried c th : thread := Thread (_upkeep th) c (thread_log th).
Definition log m th : thread := Thread (_upkeep th) (_carried th) (thread_log th ++ [m]).
Definition core_of (th : thread) : core := env (_upkeep th).
Definition set_core c (th : thread) : thread := set_upkeep (set_env c (_upkeep th)) th.

Section WriterThread.
Context {JT : JsonText} (max_bytes : Z) (settings : Buffered.settings) (keep : retention) (ucfg : uconfig).
Context (status_fn : M core dict).
#[local] Existing Instance database_writer.
#[local] Instance writer_of_session : Writer session := database_writer keep.

Abbreviation TM := (M thread).

Definition on_core {A} (c : M core A) : TM A := zoom core_of set_core c.
Definition on_buffered {A} (c : M (bworld session) A) : M core A := zoom _buffered set_buffered c.
Definition on_queue {A} (c : M queue A) : M core A := zoom _queue set_queue c.

(** The housekeeping's session sees the database as the writer's left it, and back. *)
Definition shared_db (th : thread) : upkeep core :=
  set_sess (set_data (data (db (_buffered (core_of th)))) (sess (_upkeep th))) (_upkeep th).
Definition share_db (u : upkeep core) (th : thread) : thread :=
  let b := _buffered (env u) in
  set_upkeep (set_env (set_buffered (set_db (set_data (data (sess u)) (db b)) b) (env u)) u) th.
Definition on_upkeep {A} (c : M (upkeep core) A) : TM A := zoom shared_db share_db c.

(** [self._clock()] *)
Definition _clock : M core datetime := fun c => (Ok (clock c (readings c)), set_readings (S (readings c)) c).

(** [status] *)
Definition status : M core dict :=
  let* c := gets id in
  let* b := on_buffered Buffered.status in
  let* d := on_queue (gets depth) in
  ret (dmerge b [("queue", VDict [("durable", VInt d.1); ("live", VInt d.2)]);
                 ("last_write_at", match _last_write_at c with Some t => VStr (isoformat t) | None => VNone end)]).

(** [self._buffered.submit(records, now)], noting what it was given and the events it made. *)
Definition buffered_submit (records : list record) (now : datetime) : M core (list record) := fun c =>
  let b := _buffered c in
  let '(out, b') := submit max_bytes settings records now b in
  (out, note records (reported b out b') (set_buffered b' c)).

(** [_submit] *)
Definition _submit (records : list record) : TM (list record) :=
  let* events := try_except
    (on_core (let* now := _clock in let* evs := buffered_submit records now in ret (Some evs)))
    (fun _ => Some (modify (log ("writing " +:+ pretty (N.of_nat (length records)) +:+ " records failed")) ;;; ret None)) in
  match events with
  | None => ret []
  | Some events =>
      on_core (let* t := _clock in modify (set_written t)) ;;;
      ret events
  end.

(** [_round] *)
Definition _round (durable live : list record) (tick_too : bool) : TM unit :=
  let* carried := gets _carried in
  modify (set_carried []) ;;;
  let first := carried ++ durable in
  let* events1 := match first with [] => ret [] | _ => _submit first end in
  let* events2 := match live with [] => ret [] | _ => _submit live end in
  let* events3 :=
    if tick_too then
      let* now := on_core _clock in
      try_except (on_upkeep (tick ucfg now status_fn))
        (fun _ => Some (modify (log "upkeep tick failed") ;;; ret []))
    else ret [] in
  modify (set_carried (events1 ++ events2 ++ events3)).

(** What the event loop's thread does to the queue. *)
Definition others (os : list op) : M core unit :=
  modify (fun c => set_queue (foldl (fun q o => (step o q).2) (_queue c) os) c).

(** The loop of [run]; [false] when the script ends first, the loop still waiting. *)
Fixpoint main_loop (script : list (list op * list op)) : TM bool :=
  match script with
  | [] => ret false
  | (before, during) :: script =>
      on_core (others before) ;;;
      let* ' (durable, live) := on_core (on_queue take) in
      _round durable live true ;;;
      on_core (others during) ;;;
      let* q := gets (fun th => _queue (core_of th)) in
      if closed q && ((depth q).1 =? 0) && ((depth q).2 =? 0) then ret true else main_loop script
  end.

(** The rounds that write the last events. *)
Fixpoint final_rounds (n : nat) : TM unit :=
  match n with
  | O => ret tt
  | S n =>
      let* carried := gets _carried in
      match carried with
      | [] => ret tt
      | _ => _round [] [] false ;;; final_rounds n
      end
  end.

(** [self._buffered.close()]: the spool has nothing to close, the writer drops its session. *)
Definition buffered_close : M core unit :=
  on_buffered (modify (fun b => set_db (DbWriter.close (db b)).2 b)).

(** [_shutdown] *)
Definition _shutdown : TM unit :=
  try_except
    (let* now := on_core _clock in
     let* st := on_core status_fn in
     on_upkeep (Upkeep.close ucfg now st))
    (fun _ => Some (modify (log "upkeep close failed"))) ;;;
  on_core buffered_close.

(** [run]; [false] when it is still waiting for records at the end of the script. *)
Definition run (script : list (list op * list op)) : TM bool :=
  let* ended := try_except
    (let* ended := main_loop script in
     when ended (final_rounds _FINAL_ROUNDS) ;;;
     ret ended)
    (fun e => Some (modify (log "writer thread crashed") ;;; _shutdown ;;; raise e)) in
  when ended _shutdown ;;;
  ret ended.
End WriterThread.

(** ** No record taken from the queue is lost silently *)

Section Conservation.
Context {JT : JsonText} (max_bytes : Z) (settings : Buffered.settings) (keep : retention) (ucfg : uconfig).
Context (status_fn : M core dict).
Context (ck : nat -> datetime) (Hck : forall n, is_aware (ck n) = true).
Context (Hback : 0 <= fst (backoff settings) /\ 0 <= snd (backoff settings)).
(** The sequence number the spool starts from. *)
Context (seq0 : Z) (Hseq0 : 0 <= seq0).
#[local] Instance writer_of_session' : Writer session := database_writer keep.
Implicit Types (c : core) (th : thread).

(** Where the records [g] of a submit are: in the database; in a file of the spool or of
    [corrupt/], or that file's records are in the database, or the file is live-only; or an
    event says that they are lost. *)
Definition rests (g : list record) (evs : list record) (b : bworld session) : Prop :=
  g ∈ acked b
  \/ (exists n, known n b /\ is_live_only n = all_live g /\ accounted n (payload g) [] b)
  \/ has_event "spool_dropped" evs
  \/ has_event "spool_write_failed" evs
  \/ not_kept evs.

Lemma rests_mono g evs evs' b : evs ⊆ evs' -> rests g evs b -> rests g evs' b.
Proof.
  intros Hsub [H|[H|[H|[H|(r & d & Hr & H)]]]]; [by left | by right; left | | |].
  - do 2 right; left. by eapply has_event_mono.
  - do 3 right; left. by eapply has_event_mono.
  - do 4 right. exists r, d. auto.
Qed.

Lemma placed_rests g evs b : placed g evs b -> rests g evs b.
Proof.
  intros [H|[(n & Hb & Hl & Hz & H)|[H|H]]]; [by left | right; left | by do 3 right; left | by do 4 right].
  exists n. split; [done|]. split; [done|]. destruct H as [H|H]; [by left | right; by left].
Qed.

(** What rests still does after another submit. *)
Lemma submit_rests rs now b out b' g evs :
  is_aware now = true -> seq_ok (spool b) -> 0 <= seq (spool b) -> seq (spool b) + 2 < 10 ^ 6 -> link_ok settings b ->
  submit max_bytes settings rs now b = (out, b') -> rests g evs b -> rests g (evs ++ reported b out b') b'.
Proof using Hback.
  clear Hseq0 seq0 Hck ck. intros Ha Hok Hb Hk Hl E [H|[(n & Hkn & Hln & Hacc)|H]].
  - left. pose proof (submit_acked max_bytes settings g rs now b H) as H1. cbv beta in H1. by rewrite E in H1.
  - destruct (submit_dealt max_bytes settings rs now b n (payload g))
      as (out2 & b2 & E2 & H & _ & _ & _ & _ & Hkn2); auto; [].
    rewrite E in E2. injection E2 as <- <-.
    assert (Hacc' : accounted n (payload g) [] b' \/ has_event "spool_dropped" (reported b out b')).
    { destruct H as [H|[H|[H|[H|H]]]]; [by do 2 left | left; right; by left | left; right; by right; left
        | left; right; by do 2 right; left | by right]. }
    destruct Hacc' as [H1|H1]; [right; left; by exists n | do 2 right; left].
    eapply has_event_mono, H1. set_solver.
  - do 2 right. destruct H as [H|[H|(r & d & Hr & H)]];
      [left; eapply has_event_mono, H; set_solver | right; left; eapply has_event_mono, H; set_solver | do 2 right].
    exists r, d. split; [set_solver | done].
Qed.

(** The buffered writer and everything given to it, after at most [k] submits. *)
Record sound (k : nat) c : Prop := Sound {
  so_seq : seq_ok (spool (_buffered c));
  so_bound : 0 <= seq (spool (_buffered c)) <= seq0 + 2 * Z.of_nat k;
  so_link : link_ok settings (_buffered c);
  so_clock : clock c = ck;
  so_given : Forall (fun g => g <> [] -> rests g (told c) (_buffered c)) (given c);
}.

(** A submit adds its records to what is accounted for. *)
Lemma submit_sound k rs now c out b' :
  is_aware now = true -> seq0 + 2 * Z.of_nat k + 2 < 10 ^ 6 -> sound k c ->
  submit max_bytes settings rs now (_buffered c) = (out, b') ->
  sound (S k) (note rs (reported (_buffered c) out b') (set_buffered b' c)).
Proof.
  intros Ha Hk [Hok Hb Hl Hc Hg] E.
  destruct (submit_dealt max_bytes settings rs now (_buffered c) "x-L.jsonl" "")
    as (out1 & b1 & E1 & _ & Hp & Hl' & Hok' & Hb' & _); auto using known_none, accounted_none; [lia..|].
  rewrite E in E1. injection E1 as <- <-.
  split; cbn; [done | lia | done | done |]. apply Forall_app. split.
  2: { apply Forall_singleton. intros Hne. apply rests_mono with (evs := reported (_buffered c) out b'); [set_solver|].
       by apply placed_rests, Hp. }
  eapply Forall_impl; [exact Hg|]. cbn. intros g Hg' Hne.
  eapply submit_rests; eauto; lia.
Qed.

(** Nothing of the spool or of the database's log changed. *)
Lemma sound_grows k c c' :
  grows (_buffered c) (_buffered c') -> Buffered.link (_buffered c') = Buffered.link (_buffered c) ->
  clock c' = clock c -> given c' = given c -> told c' = told c -> sound k c -> sound k c'.
Proof.
  intros Hg Hl Ec Eg Et [Hok Hb Hlk Hc Hgv]. split.
  - eapply seq_ok_mono; [exact Hok | by rewrite (gr_seq _ _ Hg) | by rewrite (gr_batches _ _ Hg)].
  - by rewrite (gr_seq _ _ Hg).
  - by eapply link_ok_eq.
  - by rewrite Ec.
  - rewrite Eg, Et. eapply Forall_impl; [exact Hgv|]. cbn. intros g H Hne.
    destruct (H Hne) as [Hx|[(n & [Hk1 Hk2] & Hln & Hx)|Hx]]; [left | right; left | by do 2 right].
    + by apply (gr_acked _ _ Hg).
    + exists n. split; [split; [done|]; by rewrite (gr_seq _ _ Hg)|]. split; [done|]. by eapply accounted_grows.
Qed.

Lemma sound_le k k' c : (k <= k')%nat -> sound k c -> sound k' c.
Proof. intros Hle [? Hb ? ? ?]. split; try done. lia. Qed.

(** What building a status may do: look at the spool. *)
Definition looks_only {A} (c : M core A) : Prop := forall x,
  grows (_buffered x) (_buffered (c x).2) /\ Buffered.link (_buffered (c x).2) = Buffered.link (_buffered x) /\
  _queue (c x).2 = _queue x /\ clock (c x).2 = clock x /\ given (c x).2 = given x /\ told (c x).2 = told x.

(** During a round: [sound] after [k] submits, the queue [q] and, of the records in hand, [D]
    handed over since [gs]. *)
Definition handed (k : nat) (q : queue) (gs : list (list record)) (D : list record) c : Prop :=
  sound k c /\ _queue c = q /\ exists more, given c = gs ++ more /\ D `sublist_of` concat more.

Lemma handed_looks {A} k q gs D (c : M core A) : looks_only c -> keeps (handed k q gs D) c.
Proof.
  intros Hc x (Hs & Hq & more & Hg & Hd). destruct (Hc x) as (H1 & H2 & H3 & H4 & H5 & H6).
  split; [by eapply sound_grows|]. split; [congruence|]. exists more. by rewrite H5.
Qed.

Abbreviation on_th P := (fun th : thread => P (core_of th)).

Lemma core_keeps {A} (P : core -> Prop) (c : M core A) : keeps P c -> keeps (on_th P) (on_core c).
Proof.
  intros Hc th Hth. unfold on_core, zoom. specialize (Hc (core_of th) Hth). by destruct (c (core_of th)).
Qed.

Lemma looks_clock : looks_only _clock.
Proof. by intros x. Qed.

Lemma looks_written t : looks_only (modify (set_written t)).
Proof. by intros x. Qed.

Lemma looks_bind {A B} (c : M core A) (f : A -> M core B) :
  looks_only c -> (forall a, looks_only (f a)) -> looks_only (bind c f).
Proof.
  intros Hc Hf x. unfold bind. pose proof (Hc x) as H. destruct (c x) as [[a|e] y]; [|exact H].
  cbn [snd] in H. pose proof (Hf a y) as H'. destruct H as (H1 & H2 & H3 & H4 & H5 & H6).
  destruct H' as (? & ? & ? & ? & ? & ?). split_and!; try congruence. by eapply grows_stable.
Qed.

Lemma looks_ret {A} (a : A) : looks_only (ret a).
Proof. by intros x. Qed.
Lemma looks_gets {A} (f : core -> A) : looks_only (gets f).
Proof. by intros x. Qed.

(** The thread's own status only looks. *)
Definition buffered_looks {A} (c : M (bworld session) A) : Prop :=
  forall b, grows b (c b).2 /\ Buffered.link (c b).2 = Buffered.link b.

Lemma buffered_looks_bind {A B} (c : M (bworld session) A) (f : A -> M (bworld session) B) :
  buffered_looks c -> (forall a, buffered_looks (f a)) -> buffered_looks (bind c f).
Proof.
  intros Hc Hf b. unfold bind. pose proof (Hc b) as H. destruct (c b) as [[a|e] b1]; [|exact H].
  cbn [snd] in H. destruct H as [H1 H2]. destruct (Hf a b1) as [H3 H4].
  split; [by eapply grows_stable | congruence].
Qed.

Lemma buffered_looks_spool {A} (c : M sworld A) :
  (forall w, later w (c w).2) -> buffered_looks (on_spool c).
Proof.
  intros Hc b. unfold on_spool, zoom. specialize (Hc (spool b)). destruct (c (spool b)) as [r w].
  cbn in *. destruct Hc as [k ->]. by split.
Qed.

Lemma looks_buffered {A} (c : M (bworld session) A) : buffered_looks c -> looks_only (on_buffered c).
Proof.
  intros Hc x. unfold on_buffered, zoom. specialize (Hc (_buffered x)).
  destruct (c (_buffered x)) as [r b]. cbn in *. destruct Hc as [H1 H2]. by split_and!.
Qed.

Lemma count_later w : later w (batch_count w).2.
Proof. unfold batch_count, bind. destruct (batch_files_cases w) as (w' & H & [-> | ->]); exact H. Qed.

Lemma size_later w : later w (size_bytes w).2.
Proof.
  unfold size_bytes, bind. destruct (batch_files_cases w) as (w1 & H & E).
  assert (exists l, _batch_files w = (Ok l, w1)) as (l & ->) by (destruct E; by eexists).
  destruct (sizes_cases l w1) as (zs & w2 & -> & H2 & _). cbn. by etrans.
Qed.

Lemma looks_status : looks_only status.
Proof.
  unfold status. apply looks_bind; [apply looks_gets|]. intros c. apply looks_bind.
  - apply looks_buffered. unfold Buffered.status. apply buffered_looks_bind; [by intros b|].
    intros b. apply buffered_looks_bind; [apply buffered_looks_spool, count_later|].
    intros n. apply buffered_looks_bind; [apply buffered_looks_spool, size_later|]. by intros z b'.
  - intros b. apply looks_bind; [|intros d; apply looks_ret]. by intros x; destruct x.
Qed.

(** The housekeeping works on a session of its own. *)
Lemma shared_keeps k q gs D {A} (c : M (upkeep core) A) :
  keeps (fun u => handed k q gs D (env u)) c -> keeps (on_th (handed k q gs D)) (on_upkeep c).
Proof.
  intros Hc th Hth. unfold on_upkeep, zoom. specialize (Hc (shared_db th) Hth).
  destruct (c (shared_db th)) as [r u]. cbn [snd] in Hc |- *. destruct Hc as (Hs & Hq & Hm).
  split; [|by split]. by eapply sound_grows, Hs.
Qed.

Lemma submit_handed k q gs D rs :
  seq0 + 2 * Z.of_nat k + 2 < 10 ^ 6 ->
  hoare (on_th (handed k q gs D)) (_submit max_bytes settings keep rs)
    (fun r th => (exists evs, r = Ok evs) /\ handed (S k) q gs (D ++ rs) (core_of th)).
Proof.
  intros Hk. unfold _submit.
  set (H1 := handed (S k) q gs (D ++ rs)).
  eapply hoare_bind with (R := fun _ => on_th H1).
  - apply (hoare_try _ _ _ (fun _ => on_th H1)); [| |done].
    + intros th (Hs & Hq & more & Hg & Hd). unfold on_core, zoom.
      erewrite run_bind by done. cbn beta iota. unfold buffered_submit, bind.
      set (c1 := set_readings _ _). cbv zeta. 
      destruct (submit max_bytes settings rs _ (_buffered c1)) as [out b'] eqn:E.
      assert (Hd1 : H1 (note rs (reported (_buffered c1) out b') (set_buffered b' c1))).
      { split; [|split; [exact Hq|]].
        - eapply submit_sound; [| done | | exact E]; [|by eapply sound_grows, Hs].
          rewrite (so_clock _ _ Hs). apply Hck.
        - exists (more ++ [rs]). cbn. rewrite Hg, <- app_assoc. split; [done|]. rewrite concat_app. cbn.
          rewrite app_nil_r. by apply sublist_app. }
      destruct out as [evs|e]; exact Hd1.
    + intros e c' [= <-]. eapply hoare_bind with (R := fun _ => on_th H1); [by apply hoare_modify|].
      intros _. by apply hoare_ret.
  - intros [events|].
    + eapply hoare_bind with (R := fun _ => on_th H1); [|intros _; apply hoare_ret; intros th Hth; split; [by eexists | done]].
      apply hoare_run. intros th Hth.
      pose proof (core_keeps H1 (bind _clock (fun t => modify (set_written t)))
        ltac:(apply handed_looks, looks_bind; [apply looks_clock | apply looks_written]) th Hth) as H.
      unfold on_core, zoom in *. exact H.
    + apply hoare_ret. intros th Hth. split; [by eexists | done].
Qed.

(** A computation that does not raise and leaves [P]. *)
Abbreviation succeeds P := (fun r th => (exists x, r = Ok x) /\ P (core_of th)).

Lemma hand_over k q gs D rs :
  seq0 + 2 * Z.of_nat k + 2 < 10 ^ 6 ->
  hoare (on_th (handed k q gs D))
    (match rs with [] => ret [] | _ => _submit max_bytes settings keep rs end)
    (succeeds (handed (S k) q gs (D ++ rs))).
Proof.
  intros Hk. destruct rs as [|r rs]; [|by apply submit_handed].
  apply hoare_ret. intros th (Hs & Hq & Hm). split; [by eexists|]. rewrite app_nil_r. split; [|done].
  eapply sound_le, Hs. lia.
Qed.

Context (Hstatus : looks_only status_fn).

Lemma tick_handed k q gs D now :
  hoare (on_th (handed k q gs D))
    (try_except (on_upkeep (tick ucfg now status_fn)) (fun _ => Some (modify (log "upkeep tick failed") ;;; ret [])))
    (succeeds (handed k q gs D)).
Proof.
  apply (hoare_try _ _ _ (fun _ => on_th (handed k q gs D))); [| |done].
  - eapply hoare_post.
    + apply shared_keeps, env_tick, handed_looks, Hstatus.
    + intros [evs|e] th Hth; [split; [by eexists | exact Hth] | exact Hth].
  - intros e c [= <-]. eapply hoare_bind with (R := fun _ => on_th (handed k q gs D)); [by apply hoare_modify|].
    intros _. apply hoare_ret. intros th Hth. split; [by eexists | exact Hth].
Qed.

(** A round hands over what was taken, after the events carried to it. *)
Lemma round_handed k q gs durable live t :
  seq0 + 2 * Z.of_nat (S k) + 2 < 10 ^ 6 ->
  hoare (on_th (handed k q gs [])) (_round max_bytes settings keep ucfg status_fn durable live t)
    (succeeds (handed (2 + k) q gs durable)).
Proof.
  intros Hk. unfold _round.
  eapply hoare_bind with (R := fun _ => on_th (handed k q gs [])); [by apply hoare_gets|]. intros carried.
  eapply hoare_bind with (R := fun _ => on_th (handed k q gs [])); [by apply hoare_modify|]. intros _.
  cbv zeta.
  eapply hoare_bind with (R := fun _ => on_th (handed (S k) q gs (carried ++ durable))).
  { eapply hoare_post; [apply hand_over; lia|]. intros r th [[x ->] H]. exact H. }
  intros events1.
  eapply hoare_bind with (R := fun _ => on_th (handed (2 + k) q gs ((carried ++ durable) ++ live))).
  { eapply hoare_post; [apply hand_over; lia|]. intros r th [[x ->] H]. exact H. }
  intros events2. eapply hoare_bind with (R := fun _ => on_th (handed (2 + k) q gs ((carried ++ durable) ++ live))).
  - destruct t; [|by apply hoare_ret].
    eapply hoare_bind with (R := fun _ => on_th (handed (2 + k) q gs ((carried ++ durable) ++ live))).
    + apply hoare_run. intros th Hth. unfold on_core, zoom, _clock.
      apply (handed_looks _ _ _ _ _ looks_clock (core_of th) Hth).
    + intros now. eapply hoare_post; [apply tick_handed|]. intros r th [[x ->] H]. exact H.
  - intros events3. apply hoare_modify. intros th (Hs & Hq & more & Hg & Hd). split; [by eexists|].
    split; [done|]. split; [done|]. exists more. split; [done|].
    etrans; [|exact Hd]. etrans; [apply sublist_inserts_l; reflexivity|]. apply sublist_inserts_r. reflexivity.
Qed.

(** *** The loop *)

Definition all_ops (script : list (list op * list op)) : list op := script ≫= fun bd => bd.1 ++ bd.2.

Lemma orderly_closed os : orderly os true -> puts os = [].
Proof.
  induction os as [|[rs| |] os IH]; cbn; [done | | done | done].
  intros [H1 H2]. rewrite H1 by done. cbn. by apply IH.
Qed.

Lemma puts_app os os' : puts (os ++ os') = puts os ++ puts os'.
Proof. unfold puts. by rewrite bind_app. Qed.
Lemma durable_app l l' : durable_of (l ++ l') = durable_of l ++ durable_of l'.
Proof. unfold durable_of. by rewrite filter_app. Qed.

(** The records put, [total]; those still to come, [rest]; the others are in the queue, or were
    taken from it and handed over in their order. *)
Definition waiting (total : list record) (k : nat) (rest : list op) c : Prop :=
  exists h taken, represents h (_queue c) /\ orderly rest (closed (_queue c)) /\
    Forall well_formed (puts rest) /\ total = taken ++ durable_of h ++ durable_of (puts rest) /\
    taken `sublist_of` concat (given c) /\ sound k c.

Lemma others_queue os rest q h :
  represents h q -> Forall well_formed (puts (os ++ rest)) -> orderly (os ++ rest) (closed q) -> Take ∉ os ->
  let q' := foldl (fun q o => (step o q).2) q os in
  exists h', represents h' q' /\ orderly rest (closed q') /\ durable_of h' = durable_of h ++ durable_of (puts os).
Proof.
  revert q h. induction os as [|o os IH]; intros q h Hrep Hwf Ho Ht; cbn.
  { exists h. by rewrite app_nil_r. }
  change (puts ((o :: os) ++ rest)) with (puts (o :: (os ++ rest))) in Hwf.
  assert (puts (o :: (os ++ rest)) = puts [o] ++ puts (os ++ rest)) as Hp by (cbn; by rewrite app_nil_r).
  rewrite Hp in Hwf. apply Forall_app in Hwf as [Hwo Hwf].
  assert (orderly [o] (closed q) /\ orderly (os ++ rest) (match o with Close => true | _ => closed q end))
    as [Ho1 Ho2] by (destruct o; cbn in *; tauto).
  destruct (step_represents o h q Hrep Hwo Ho1) as (h' & Hrep' & Hc & Hres). rewrite <- Hc in Ho2.
  destruct (IH _ h' Hrep' Hwf Ho2 ltac:(set_solver)) as (h'' & H1 & H2 & H3).
  exists h''. split; [exact H1|]. split; [exact H2|]. rewrite H3.
  destruct o; [|set_solver|]; destruct Hres as [-> _]; cbn [mbind list_bind puts]; [|done].
  unfold puts. cbn. by rewrite !durable_app, <- app_assoc.
Qed.

Lemma others_waiting total k os rest :
  Take ∉ os -> hoare (waiting total k (os ++ rest)) (others os) (fun r c => r = Ok tt /\ waiting total k rest c).
Proof.
  intros Ht. apply hoare_modify. intros c (h & taken & Hrep & Ho & Hwf & Htot & Hsub & Hs). split; [done|].
  destruct (others_queue os rest (_queue c) h Hrep Hwf Ho Ht) as (h' & H1 & H2 & H3).
  exists h', taken. split_and!; [exact H1 | exact H2 | | | exact Hsub | by eapply sound_grows, Hs].
  - rewrite puts_app in Hwf. by apply Forall_app in Hwf as [_ ?].
  - rewrite H3, Htot, puts_app, durable_app, <- app_assoc. done.
Qed.

(** A take and the round on what it returned. *)
Lemma turn_waiting total k rest :
  seq0 + 2 * Z.of_nat (S k) + 2 < 10 ^ 6 ->
  hoare (on_th (waiting total k rest))
    (let* ' (durable, live) := on_core (on_queue take) in _round max_bytes settings keep ucfg status_fn durable live true)
    (succeeds (waiting total (2 + k) rest)).
Proof.
  intros Hk th (h & taken & Hrep & Ho & Hwf & Htot & Hsub & Hs).
  assert (Et : on_core (on_queue take) th
      = (Ok (durable_of h, dvalues (live_processes (_queue (core_of th))) ++ dvalues (live_node (_queue (core_of th)))),
         set_core (set_queue (Queue [] [] [] (closed (_queue (core_of th)))) (core_of th)) th)).
  { unfold on_core, on_queue, zoom. by rewrite (take_represents h _ Hrep). }
  erewrite run_bind by exact Et. cbn beta iota.
  set (q := Queue [] [] [] _). set (live := dvalues _ ++ _). set (th1 := set_core _ th).
  pose proof (round_handed k q (given (core_of th)) (durable_of h) live true Hk th1) as H.
  destruct (_round _ _ _ _ _ _ _ _ th1) as [r th2]. cbn [fst snd] in *.
  destruct H as ([u ->] & Hs2 & Hq & more & Hg & Hd).
  { split; [by eapply sound_grows, Hs|]. split; [done|]. exists []. split; [by rewrite app_nil_r | apply sublist_nil_l]. }
  split; [by eexists|]. exists [], (taken ++ durable_of h). rewrite Hq. split_and!; try done.
  - apply represents_nil.
  - by rewrite Htot, <- app_assoc.
  - rewrite Hg, concat_app. by apply sublist_app.
Qed.

Definition finished (total : list record) (k : nat) (ended : bool) c : Prop :=
  sound k c /\ exists taken, total = taken ++ durable (_queue c) /\ taken `sublist_of` concat (given c) /\
    (ended = true -> durable (_queue c) = []).

Lemma loop_finished total script k :
  seq0 + 2 * Z.of_nat (k + 2 * length script) + 2 < 10 ^ 6 -> Take ∉ all_ops script ->
  hoare (on_th (waiting total k (all_ops script))) (main_loop max_bytes settings keep ucfg status_fn script)
    (fun r th => exists ended, r = Ok ended /\ finished total (k + 2 * length script) ended (core_of th)).
Proof.
  revert k. induction script as [|[before during] script IH]; intros k Hk Ht; cbn [main_loop].
  - apply hoare_ret. intros th (h & taken & Hrep & _ & _ & Htot & Hsub & Hs). exists false. split; [done|].
    rewrite Nat.add_0_r. split; [done|]. exists taken. rewrite (rep_durable _ _ Hrep). split_and!; try done.
    rewrite Htot. cbn. by rewrite app_nil_r.
  - cbn [length] in Hk. unfold all_ops in Ht. cbn in Ht. fold (all_ops script) in Ht.
    change (all_ops ((before, during) :: script)) with ((before ++ during) ++ all_ops script).
    rewrite <- app_assoc.
    eapply hoare_bind with (R := fun _ => on_th (waiting total k (during ++ all_ops script))).
    { intros th Hth. unfold on_core, zoom.
      destruct (others_waiting total k before (during ++ all_ops script) ltac:(set_solver) _ Hth) as [E H].
      destruct (others before (core_of th)) as [r c]. cbn in *. by subst. }
    intros _. set (rest := fun _ : unit => bind (on_core (others during)) _).
    assert (Hassoc : forall th, bind (on_core (on_queue take)) (fun dl => let '(durable, live) := dl in
        _round max_bytes settings keep ucfg status_fn durable live true ;;; rest tt) th
      = bind (let* ' (durable, live) := on_core (on_queue take) in
              _round max_bytes settings keep ucfg status_fn durable live true) rest th).
    { intros th. unfold bind. destruct (on_core (on_queue take) th) as [[[d l]|e] th1]; [|done].
      by destruct (_round _ _ _ _ _ d l true th1) as [[[]|e] th2]. }
    apply (hoare_ext _ _ _ _ Hassoc).
    eapply hoare_bind with (R := fun _ => on_th (waiting total (2 + k) (during ++ all_ops script))).
    { eapply hoare_post; [apply turn_waiting; lia|]. intros r th [[x ->] H]. exact H. }
    intros u. unfold rest. eapply hoare_bind with (R := fun _ => on_th (waiting total (2 + k) (all_ops script))).
    { intros th Hth. unfold on_core, zoom.
      destruct (others_waiting total (2 + k) during (all_ops script) ltac:(set_solver) _ Hth) as [E H].
      destruct (others during (core_of th)) as [r c]. cbn in *. by subst. }
    intros _. eapply hoare_bind with (R := fun q th => waiting total (2 + k) (all_ops script) (core_of th) /\ q = _queue (core_of th)).
    { by apply hoare_gets. }
    intros q. destruct (closed q && _ && _) eqn:Eq.
    + apply hoare_ret. intros th [(h & taken & Hrep & Ho & Hwf & Htot & Hsub & Hs) ->]. exists true. split; [done|].
      apply andb_prop in Eq as [Eq _]. apply andb_prop in Eq as [Hcl Hd]. rewrite Hcl in Ho.
      apply Z.eqb_eq in Hd. cbn in Hd.
      assert (Hnil : durable (_queue (core_of th)) = []) by (destruct (durable (_queue (core_of th))); [done | cbn in Hd; lia]).
      rewrite (orderly_closed _ Ho), <- (rep_durable _ _ Hrep), Hnil in Htot. cbn in Htot. rewrite app_nil_r in Htot.
      split; [|exists taken; rewrite Hnil, app_nil_r; by split_and!].
      eapply sound_le, Hs. cbn [length]. lia.
    + eapply hoare_conseq; [apply (IH (2 + k)%nat); [lia | set_solver] | by intros th [H _] |].
      cbn [length]. by replace (k + 2 * S (length script))%nat with ((2 + k) + 2 * length script)%nat by lia.
Qed.

(** After the loop, with everything handed over. *)
Definition all_given (total : list record) (k : nat) c : Prop :=
  sound k c /\ durable (_queue c) = [] /\ total `sublist_of` concat (given c).

Lemma final_given total n k :
  seq0 + 2 * Z.of_nat (k + 2 * n) + 2 < 10 ^ 6 ->
  hoare (on_th (all_given total k)) (final_rounds max_bytes settings keep ucfg status_fn n)
    (fun r th => r = Ok tt /\ all_given total (k + 2 * n) (core_of th)).
Proof.
  revert k. induction n as [|n IH]; intros k Hk; cbn [final_rounds].
  { apply hoare_ret. intros th (Hs & H). split; [done|]. split; [eapply sound_le, Hs; lia | done]. }
  eapply hoare_bind with (R := fun _ => on_th (all_given total k)); [by apply hoare_gets|]. intros carried.
  destruct carried; [apply hoare_ret; intros th (Hs & H); split; [done|]; split; [eapply sound_le, Hs; lia | done]|].
  eapply hoare_bind with (R := fun _ => on_th (all_given total (2 + k))).
  - intros th (Hs & Hq & Hsub).
    pose proof (round_handed k (_queue (core_of th)) (given (core_of th)) [] [] false ltac:(lia) th) as H.
    destruct (_round _ _ _ _ _ [] [] false th) as [x th2]. cbn [fst snd] in *.
    destruct H as ([u ->] & Hs2 & Hq2 & more & Hg & _).
    { split; [done|]. split; [done|]. exists []. split; [by rewrite app_nil_r | apply sublist_nil_l]. }
    split; [done|]. split; [by rewrite Hq2|]. rewrite Hg, concat_app. by apply sublist_inserts_r.
  - intros _. eapply hoare_post; [apply IH; lia|]. intros x th [-> (Hs & H)]. split; [done|].
    split; [eapply sound_le, Hs; lia | done].
Qed.

Lemma all_given_looks {A} total k (c : M core A) : looks_only c -> keeps (all_given total k) c.
Proof.
  intros Hc x (Hs & Hq & Hd). destruct (Hc x) as (H1 & H2 & H3 & H4 & H5 & H6).
  split; [by eapply sound_grows|]. by rewrite H3, H5.
Qed.

Lemma shutdown_given total k :
  hoare (on_th (all_given total k)) (_shutdown ucfg status_fn) (fun r th => r = Ok tt /\ all_given total k (core_of th)).
Proof.
  unfold _shutdown. set (P := all_given total k).
  eapply hoare_bind with (R := fun _ => on_th P).
  - apply (hoare_try _ _ _ (fun _ => on_th P)); [| |done].
    + eapply hoare_bind with (R := fun _ => on_th P).
      { eapply hoare_post; [apply core_keeps, all_given_looks, looks_clock|]. by intros []. }
      intros now. eapply hoare_bind with (R := fun _ => on_th P).
      { eapply hoare_post; [apply core_keeps, all_given_looks, Hstatus|]. by intros []. }
      intros st th Hth. unfold on_upkeep, zoom.
      pose proof (env_close ucfg P now st (shared_db th) Hth) as H.
      destruct (Upkeep.close ucfg now st (shared_db th)) as [x u]. cbn [fst snd] in *.
      assert (Hp : P (core_of (share_db u th))); [|by destruct x].
      destruct H as (Hs & Hq & Hd). split; [|by split]. by eapply sound_grows, Hs.
    + intros e c [= <-]. by apply hoare_modify.
  - intros _. apply hoare_run. intros th (Hs & Hq & Hd). cbn. split; [done|].
    split; [by eapply sound_grows, Hs | by split].
Qed.
End Conservation.

(** The thread when it starts, on an empty queue. *)
Definition new_thread (sp : sworld) (d : session) (m : nat -> Z) (ck : nat -> datetime) : thread :=
  Thread (new_upkeep (Core new_queue (new_buffered sp d m) None ck 0 [] []) (set_conn None d)) [] [].

Section Thread.
Context {JT : JsonText} (max_bytes : Z) (settings : Buffered.settings) (keep : retention) (ucfg : uconfig).
Context (status_fn : M core dict).

(** What a run in which the event loop did [os] to the queue leaves: every durable record put
    is still queued or was handed to the buffered writer, in order, and none is queued once the
    thread has ended; each list handed over is accounted for. *)
Definition conserved (os : list op) (ended : bool) (c : core) : Prop :=
  (exists taken, durable_of (puts os) = taken ++ durable (_queue c) /\ taken `sublist_of` concat (given c)) /\
  (ended = true -> durable (_queue c) = []) /\
  (forall g, g ∈ given c -> g <> [] -> rests g (told c) (_buffered c)).

Lemma thread_conserves sp d m ck script :
  (forall n, is_aware (ck n) = true) -> looks_only status_fn ->
  0 <= fst (backoff settings) /\ 0 <= snd (backoff settings) ->
  seq_ok sp -> 0 <= seq sp -> seq sp + 4 * Z.of_nat (length script) + 14 < 10 ^ 6 ->
  Forall well_formed (puts (all_ops script)) -> orderly (all_ops script) false -> Take ∉ all_ops script ->
  exists ended th, run max_bytes settings keep ucfg status_fn script (new_thread sp d m ck) = (Ok ended, th) /\
    conserved (all_ops script) ended (core_of th).
Proof.
  intros Hck Hst Hb Hok H0 Hmax Hwf Ho Ht.
  set (total := durable_of (puts (all_ops script))). set (K := (0 + 2 * length script)%nat).
  assert (Hloop : hoare (fun th => waiting settings ck (seq sp) total 0 (all_ops script) (core_of th))
      (let* ended := main_loop max_bytes settings keep ucfg status_fn script in
       when ended (final_rounds max_bytes settings keep ucfg status_fn _FINAL_ROUNDS) ;;; ret ended)
      (fun r th => exists ended, r = Ok ended /\
         (if ended then all_given settings ck (seq sp) total (K + 6) (core_of th)
          else finished settings ck (seq sp) total K false (core_of th)))).
  { eapply hoare_bind with (R := fun ended th => finished settings ck (seq sp) total K ended (core_of th)).
    - eapply hoare_post; [apply loop_finished; auto; lia|]. intros x th (ended & -> & H). exact H.
    - intros [|]; cbn [when].
      + eapply hoare_bind with (R := fun _ th => all_given settings ck (seq sp) total (K + 6) (core_of th)).
        * eapply hoare_conseq; [apply (final_given max_bytes settings keep ucfg status_fn ck Hck Hb (seq sp) H0 Hst total 3 K)| |].
          -- unfold K. lia.
          -- intros th (Hs & taken & Htot & Hsub & Hnil). split; [exact Hs|]. split; [by apply Hnil|].
             rewrite Htot, (Hnil eq_refl), app_nil_r. exact Hsub.
          -- intros x th [-> H]. exact H.
        * intros _. apply hoare_ret. intros th H. by exists true.
      + eapply hoare_bind with (R := fun _ th => finished settings ck (seq sp) total K false (core_of th));
          [by apply hoare_ret|]. intros _. apply hoare_ret. intros th H. by exists false. }
  set (th0 := new_thread sp d m ck).
  assert (Hw : waiting settings ck (seq sp) total 0 (all_ops script) (core_of th0)).
  { exists [], []. split_and!; try done; [apply represents_nil|]. split; try done; [cbn; lia|].
    split; cbn; try done; split; by intros []. }
  specialize (Hloop th0 Hw). unfold run.
  destruct ((let* ended := main_loop max_bytes settings keep ucfg status_fn script in _) th0) as [x th1] eqn:E1.
  cbn [fst snd] in Hloop. destruct Hloop as (ended & -> & Hend).
  erewrite run_bind by (apply run_try_ok; exact E1). cbn beta iota. destruct ended; cbn [when].
  - pose proof (shutdown_given settings ucfg status_fn ck (seq sp) Hst total (K + 6) th1 Hend) as H.
    destruct (_shutdown ucfg status_fn th1) as [x th2] eqn:E2. cbn [fst snd] in H. destruct H as [-> (Hs & Hq & Hsub)].
    exists true, th2. split; [by erewrite run_bind by exact E2|]. 
    split; [exists total; rewrite Hq, app_nil_r; done|]. split; [done|].
    intros g Hg. exact (proj1 (Forall_forall _ _) (so_given _ _ _ _ _ Hs) g Hg).
  - destruct Hend as (Hs & taken & Htot & Hsub & _). exists false, th1. split; [done|]. 
    split; [by exists taken|]. split; [done|].
    intros g Hg. exact (proj1 (Forall_forall _ _) (so_given _ _ _ _ _ Hs) g Hg).
Qed.

End Thread.

(** ** Examples: one event, with the server up and with it down *)

#[local] Existing Instance demo_json.

Definition hello : record :=
  Record_ COLLECTION_EVENT [("system", VStr "s"); ("node", VNone); ("ts", VTime Maintenance.demo_now);
                            ("event_type", VStr "hello")].
Definition demo_script : list (list op * list op) := [([Put [hello]], []); ([], [Close]); ([], [])].
Definition demo_clock (n : nat) : datetime := add_us Maintenance.demo_now (Z.of_nat n * second_us).
Definition demo_thread (l : list answer) : thread :=
  new_thread (demo_world ∅) (Session (Db ∅ []) l None) (fun _ => 0) demo_clock.
Definition demo_run (l : list answer) : res bool * thread :=
  run 100000 demo_settings demo_retention demo_config status demo_script (demo_thread l).

(** The names of the spool's batches and the rows of the events' table at the end. *)
Definition demo_outcome (l : list answer) : res bool * nat * nat :=
  let '(r, th) := demo_run l in
  let c := core_of th in
  (r, length (map_to_list (batches (spool (_buffered c)))),
   length (filter (fun kr => match cell "event_type" kr.2 with Scalar (VStr s) => bool_decide (s = "hello") | _ => false end = true)
             (map_to_list (table_of "collection_events" (data (db (_buffered c))))))).

Example demo_up : demo_outcome [] = (Ok true, 0%nat, 1%nat).
Proof. vm_compute. reflexivity. Qed.

(** The connection is refused at first: the event waits in the spool, and so does the report
    of the outage. *)
Example demo_down : demo_outcome [Fails (lost_exn "refused") healthy] = (Ok true, 2%nat, 0%nat).
Proof. vm_compute. reflexivity. Qed.

