(* ===== verification/Daemon.v ===== *)
(** * The collector daemon

    [node_monitor/collector/daemon.py]: the sessions' callbacks feed the node's pipelines, whose
    records go through the record queue to the writer thread.  The event loop runs one callback
    at a time; a run is the sequence of what the sessions report and, between them, of what the
    writer thread takes.  The file ends with the two threads together: everything the daemon
    puts meets the conservation of WriterThread.v.

    [ops] is a ghost field: what the daemon did to the queue.  Log messages and the signal
    handlers are left out; the end of [run_sessions] is the end of the inputs. *)

From Stdlib Require Import ZArith Lia.
From S2P Require Import Prelude PyFloat PyTime PyVal Text Codec Spool RecordQueue.
From S2P Require NodePipeline Buffered DbWriter Sql Maintenance Upkeep WriterThread.

#[local] Open Scope string_scope.
#[local] Open Scope list_scope.
#[local] Open Scope Z_scope.
#[local] Open Scope py_scope.

Abbreviation config := NodePipeline.config.
Abbreviation pipeline := NodePipeline.pipeline.
Abbreviation label_of := NodePipeline.cf_label.

Definition _ERROR_CHARS : nat := 200.

Record daemon := Daemon {
  _pipelines : list (string * pipeline);
  _session_states : list (string * string);
  _stopping : bool;
  _queue : queue;
  now_is : nat -> datetime;
  readings : nat;
  ops : list op;
}.

(** What the event loop runs next: a callback of the node's session, or nothing of its own
    while the writer thread takes what is queued. *)
Inductive input :=
| Said (label : string) (msg : dict)
| Happened (label : string) (kind : string) (detail : dict)
| Crashed (label : string) (e : exn)
| WriterTakes.

Section Daemon.
Context (system : string) (nodes : list config) (record_tap : option (record -> res unit)).
(** The version, the host and the pid. *)
Context (identity : dict).

(** *** [__init__] *)
Definition _nodes : list (string * config) := foldl (fun d cf => dset (label_of cf) cf d) [] nodes.
Definition new_pipelines : list (string * pipeline) :=
  foldl (fun d cf => dset (label_of cf) (NodePipeline.new_pipeline cf) d) [] nodes.
Definition starting : list (string * string) := foldl (fun d cf => dset (label_of cf) "starting" d) [] nodes.
Definition new_daemon (ck : nat -> datetime) : daemon := Daemon new_pipelines starting false new_queue ck 0 [].

Definition set_pipelines ps d : daemon := Daemon ps (_session_states d) (_stopping d) (_queue d) (now_is d) (readings d) (ops d).
Definition set_states ss d : daemon := Daemon (_pipelines d) ss (_stopping d) (_queue d) (now_is d) (readings d) (ops d).
Definition set_stopping d : daemon := Daemon (_pipelines d) (_session_states d) true (_queue d) (now_is d) (readings d) (ops d).
Definition set_queue q d : daemon := Daemon (_pipelines d) (_session_states d) (_stopping d) q (now_is d) (readings d) (ops d).
Definition set_readings n d : daemon := Daemon (_pipelines d) (_session_states d) (_stopping d) (_queue d) (now_is d) n (ops d).
Definition did o d : daemon := Daemon (_pipelines d) (_session_states d) (_stopping d) (_queue d) (now_is d) (readings d) (ops d ++ [o]).

Abbreviation DM := (M daemon).

Definition _now : DM datetime := fun d => (Ok (now_is d (readings d)), set_readings (S (readings d)) d).

(** [self._queue.put(records)], [self._queue.close()] *)
Definition queue_put (records : list record) : DM unit := fun d =>
  let '(r, q) := put records (_queue d) in (r, did (Put records) (set_queue q d)).
Definition queue_close : DM unit := fun d =>
  let '(r, q) := close (_queue d) in (r, did Close (set_queue q d)).

(** [self._pipelines[label]] and what it is asked for *)
Definition on_pipeline {A} (label : string) (c : config -> M pipeline A) : DM A := fun d =>
  match dget label (_pipelines d), dget label _nodes with
  | Some p, Some cf => let '(r, p') := c cf p in (r, set_pipelines (dset label p' (_pipelines d)) d)
  | _, _ => (Raise (KeyError label), d)
  end.

Definition error_detail (e : exn) : dict :=
  [("type", VStr (exn_class e)); ("error", VStr (take_chars _ERROR_CHARS (exn_text e)))].

Definition _pipeline_error (label : string) (e : exn) (recv : datetime) : res record :=
  match dget label _nodes with
  | None => Raise (KeyError label)
  | Some cf =>
      Ok (Record_ COLLECTION_EVENT
            [("system", VStr system); ("node", VStr (NodePipeline.cf_host cf)); ("ts", VTime recv);
             ("event_type", VStr "pipeline_error"); ("detail", VDict (error_detail e))])
  end.

Definition _collector_event (event_type : string) (detail : dict) : DM record :=
  let* now := _now in
  ret (Record_ COLLECTION_EVENT
         [("system", VStr system); ("node", VNone); ("ts", VTime now); ("event_type", VStr event_type);
          ("detail", VDict detail)]).

Definition _tapped (records : list record) : DM (list record) :=
  match record_tap with
  | None => ret records
  | Some tap => foldM (fun _ r => lift (tap r)) tt records ;;; ret records
  end.

(** *** Callbacks *)

Definition _deliver (label : string) (recv : datetime) (produce : DM (list record)) : DM unit :=
  let* records := try_except produce
    (fun e => Some (let* r := lift (_pipeline_error label e recv) in ret [r])) in
  let* records := _tapped records in
  queue_put records.

Definition _on_message (label : string) (msg : dict) : DM unit :=
  let* recv := _now in
  _deliver label recv (on_pipeline label (fun cf => NodePipeline.on_message cf msg recv)).

Definition set_state (label state : string) : DM unit :=
  modify (fun d => set_states (dset label state (_session_states d)) d).

Definition _on_event (label kind : string) (detail : dict) : DM unit :=
  let* recv := _now in
  (if bool_decide (kind = "session_started") then set_state label "up"
   else if bool_decide (kind = "session_lost") then set_state label "down"
   else ret tt) ;;;
  _deliver label recv (on_pipeline label (fun cf => NodePipeline.on_event cf kind detail recv)).

Definition _on_crash (label : string) (e : exn) : DM unit :=
  _on_event label "session_crashed" (error_detail e) ;;;
  set_state label "down".

Definition serve (i : input) : DM unit :=
  match i with
  | Said label msg => _on_message label msg
  | Happened label kind detail => _on_event label kind detail
  | Crashed label e => _on_crash label e
  | WriterTakes => modify (fun d => set_queue (step Take (_queue d)).2 d)
  end.

(** *** Start and stop *)

(** [_schema_ok], from how connecting and [check_schema] ended. *)
Definition _schema_ok (checked : res unit) : bool :=
  match checked with Raise (SchemaOutOfDate _) => false | _ => true end.

(** The last records of a pipeline, or the report that it has none. *)
Definition last_records (label : string) : DM (list record) :=
  try_except (let* records := on_pipeline label NodePipeline.flush in _tapped records)
    (fun e => Some (let* now := _now in let* r := lift (_pipeline_error label e now) in _tapped [r])).

Definition _finish_queue : DM unit :=
  let* labels := gets (fun d => dkeys (_pipelines d)) in
  let* records := foldM (fun acc label => let* more := last_records label in ret (acc ++ more)) [] labels in
  let* stopped := _collector_event "collector_stopped" [] in
  fun d => let '(r, d1) := queue_put (records ++ [stopped]) d in
           let '(r', d2) := queue_close d1 in
           (match r' with Ok _ => r | Raise e => Raise e end, d2).

(** The [finally] of [run]. *)
Definition wind_down : DM unit :=
  modify set_stopping ;;;
  modify (fun d => set_states (map (fun ls => (ls.1, "stopped")) (_session_states d)) d) ;;;
  _finish_queue.

(** [run], with what its sessions report until they have stopped; its exit status. *)
Definition run (checked : res unit) (inputs : list input) : DM Z :=
  if negb (_schema_ok checked) then ret 2
  else
    (fun d =>
       let '(r, d1) := (let* e := _collector_event "collector_started" identity in
                        queue_put [e] ;;;
                        foldM (fun _ i => serve i) tt inputs) d in
       let '(r', d2) := wind_down d1 in
       (match r' with Ok _ => r | Raise e => Raise e end, d2)) ;;;
    ret 0.

(** [_status]: what the heartbeats say, with the daemon's part as the writer thread finds it. *)
Definition _status (stopping : bool) (states : list (string * string)) : M WriterThread.core dict :=
  let* st := WriterThread.status in
  ret (dmerge [("state", VStr (if stopping then "stopping" else "running"));
               ("sessions", VDict (map (fun ls => (ls.1, VStr ls.2)) states))] st).
End Daemon.

(** ** What a run does *)

(** What node [label]'s pipeline is asked for, without the receive times. *)
Definition said_of (label : string) (i : input) : option (datetime -> NodePipeline.call) :=
  match i with
  | Said l msg => if decide (l = label) then Some (NodePipeline.OnMessage msg) else None
  | Happened l kind d => if decide (l = label) then Some (NodePipeline.OnEvent kind d) else None
  | Crashed l e => if decide (l = label) then Some (NodePipeline.OnEvent "session_crashed" (error_detail e)) else None
  | WriterTakes => None
  end.
Definition said (label : string) (ins : list input) : list (datetime -> NodePipeline.call) := omap (said_of label) ins.
Definition at_times (cs : list (datetime -> NodePipeline.call)) (ts : list datetime) : list NodePipeline.call :=
  zip_with (fun c t => c t) cs ts.

(** The records a summary table gets, and those of them for a node. *)
Definition summary (r : record) : bool := bool_decide (kind r ∈ [NODE_METRICS_1M; NODE_USAGE_5M; USER_USAGE_5M]).
Definition summary_of (host : string) (r : record) : bool :=
  summary r && match dget "node" (row r) with Some (VStr h) => bool_decide (h = host) | _ => false end.

Definition known (nodes : list config) (i : input) : Prop :=
  match i with Said l _ | Happened l _ _ | Crashed l _ => l ∈ map label_of nodes | WriterTakes => True end.

Lemma omap_summary {A} (f : record -> option A) (l : list record) :
  (forall r, summary r = false -> f r = None) -> omap f (filter (fun r => summary r = true) l) = omap f l.
Proof.
  intros Hf. induction l as [|r l IH]; [done|]. rewrite filter_cons. destruct (summary r) eqn:E.
  - rewrite decide_True by done. cbn. by rewrite IH.
  - rewrite decide_False by done. cbn. by rewrite (Hf r E), IH.
Qed.

Lemma not_summary r : summary r = false -> NodePipeline.minute_of r = None /\ NodePipeline.usage_key r = None.
Proof.
  intros Hs%bool_decide_eq_false. unfold NodePipeline.minute_of, NodePipeline.usage_key.
  rewrite !decide_False by (intros H; apply Hs; rewrite H; set_solver). done.
Qed.

Section Table.
Context {V : Type} (f : config -> V).
Definition table (l : list config) d : list (string * V) := foldl (fun d cf => dset (label_of cf) (f cf) d) d l.

Lemma table_other l d k : k ∉ map label_of l -> dget k (table l d) = dget k d.
Proof.
  revert d. induction l as [|cf l IH]; intros d Hk; [done|]. cbn [map] in Hk. apply not_elem_of_cons in Hk as [H1 H2].
  cbn. fold (table l (dset (label_of cf) (f cf) d)). rewrite IH, dget_dset_ne by congruence. done.
Qed.

Lemma table_lookup l d cf : NoDup (map label_of l) -> cf ∈ l -> dget (label_of cf) (table l d) = Some (f cf).
Proof.
  revert d. induction l as [|cf' l IH]; intros d Hn Hin; [by apply elem_of_nil in Hin|].
  cbn [map] in Hn. apply NoDup_cons in Hn as [H1 H2]. cbn. fold (table l (dset (label_of cf') (f cf') d)).
  apply elem_of_cons in Hin as [<-|Hin]; [by rewrite table_other, dget_dset_eq | by apply IH].
Qed.

Lemma table_keys l : NoDup (map label_of l) -> dkeys (table l []) = map label_of l.
Proof.
  assert (H : forall d, NoDup (dkeys d ++ map label_of l) -> dkeys (table l d) = dkeys d ++ map label_of l).
  { induction l as [|cf l IH]; intros d Hn; cbn [map] in *; [by rewrite app_nil_r|].
    assert (Hk : label_of cf ∉ dkeys d) by (apply NoDup_app in Hn as (_ & Hn & _); intros Hin; apply (Hn _ Hin); by left).
    change (table (cf :: l) d) with (table l (dset (label_of cf) (f cf) d)).
    assert (E : dkeys (dset (label_of cf) (f cf) d) = dkeys d ++ [label_of cf]) by (rewrite dkeys_dset; by rewrite decide_False by done).
    rewrite IH, E, <- app_assoc; [done|]. by rewrite E, <- app_assoc. }
  intros Hn. by apply H.
Qed.
End Table.

Section Run.
Context (system : string) (nodes : list config) (record_tap : option (record -> res unit)) (identity : dict).
Context (Hlabels : NoDup (map label_of nodes)) (Hhosts : NoDup (map NodePipeline.cf_host nodes)).
Context (Htap : forall tap r, record_tap = Some tap -> tap r = Ok tt).
Implicit Types (d : daemon) (cf : config).

Lemma nodes_lookup cf : cf ∈ nodes -> dget (label_of cf) (_nodes nodes) = Some cf.
Proof. intros Hin. by apply (table_lookup (fun cf => cf)). Qed.

Definition error_record cf (e : exn) (recv : datetime) : record :=
  Record_ COLLECTION_EVENT
    [("system", VStr system); ("node", VStr (NodePipeline.cf_host cf)); ("ts", VTime recv);
     ("event_type", VStr "pipeline_error"); ("detail", VDict (error_detail e))].

Lemma pipeline_error_known cf e recv : cf ∈ nodes -> _pipeline_error system nodes (label_of cf) e recv = Ok (error_record cf e recv).
Proof. intros Hin. unfold _pipeline_error. by rewrite nodes_lookup. Qed.

Lemma tapped_run records d : _tapped record_tap records d = (Ok records, d).
Proof.
  unfold _tapped. destruct record_tap as [tap|] eqn:E; [|done]. unfold bind.
  assert (H : foldM (fun _ r => lift (tap r)) tt records d = (Ok tt, d)).
  { induction records as [|r records IH]; [done|]. cbn [foldM]. unfold bind, lift. rewrite (Htap tap r eq_refl). exact IH. }
  by rewrite H.
Qed.

(** ** The queue is open, and takes what it is given *)

Definition open_queue (q : queue) : Prop := (exists h, represents h q) /\ closed q = false.

Lemma put_open rs d : open_queue (_queue d) -> Forall well_formed rs ->
  exists q, queue_put rs d = (Ok tt, did (Put rs) (set_queue q d)) /\ open_queue q.
Proof.
  intros [[h Hrep] Hc] Hwf. destruct (put_represents h (_queue d) rs Hrep Hc Hwf) as (q & E & Hrep' & Hc').
  exists q. unfold queue_put. rewrite E. split; [done|]. split; [by eexists | done].
Qed.

Lemma take_open q : open_queue q -> open_queue (step Take q).2.
Proof.
  intros [_ Hc]. split; [exists []; apply represents_nil | exact Hc].
Qed.

(** ** What a pipeline's call puts *)

(** The records of a node: dictionaries, of which those of the summaries name it. *)
Definition of_pipeline cf (r : record) : Prop :=
  well_formed r /\ (summary r = true -> dget "node" (row r) = Some (VStr (NodePipeline.cf_host cf))).

Lemma carries_of cf r : NodePipeline.carries cf r -> of_pipeline cf r.
Proof.
  intros [Hr Hn]. split; [split; [done|]|].
  - intros Hl%bool_decide_eq_true. exists (NodePipeline.cf_host cf). apply Hn. destruct Hl as [-> | ->]; discriminate.
  - intros Hs%bool_decide_eq_true. apply Hn. intros E. rewrite E in Hs. revert Hs. apply (bool_decide_unpack _). vm_compute. exact I.
Qed.

Lemma error_of cf e recv : of_pipeline cf (error_record cf e recv).
Proof.
  split; [split|].
  - apply (bool_decide_unpack _). vm_compute. exact I.
  - intros H. discriminate H.
  - intros H. discriminate H.
Qed.

Definition delivered cf c recv (p : pipeline) : list record :=
  match (NodePipeline.perform cf c p).1 with Ok rs => rs | Raise e => [error_record cf e recv] end.

Lemma delivered_of cf c recv p : Forall (of_pipeline cf) (delivered cf c recv p).
Proof.
  unfold delivered. pose proof (NodePipeline.perform_carried cf c p) as H.
  destruct (NodePipeline.perform cf c p).1 as [rs|e]; cbn in H.
  - eapply Forall_impl; [exact H|]. apply carries_of.
  - apply Forall_singleton, error_of.
Qed.

Lemma of_pipeline_well_formed cf rs : Forall (of_pipeline cf) rs -> Forall well_formed rs.
Proof. intros H. eapply Forall_impl; [exact H|]. by intros r []. Qed.

Lemma own_summaries cf rs : Forall (of_pipeline cf) rs ->
  filter (fun r => summary_of (NodePipeline.cf_host cf) r = true) rs = filter (fun r => summary r = true) rs.
Proof.
  induction 1 as [|r rs [_ Hr] _ IH]; [done|]. rewrite !filter_cons, IH. unfold summary_of.
  destruct (summary r); cbn; [|done]. by rewrite Hr, bool_decide_eq_true_2.
Qed.

Lemma others_summaries cf h rs : h <> NodePipeline.cf_host cf -> Forall (of_pipeline cf) rs ->
  filter (fun r => summary_of h r = true) rs = [].
Proof.
  intros Hh. induction 1 as [|r rs [_ Hr] _ IH]; [done|]. rewrite filter_cons, IH. unfold summary_of.
  destruct (summary r); cbn; [|done]. rewrite Hr, bool_decide_eq_false_2; [done | congruence | done].
Qed.

(** ** Every node's pipeline runs its own calls *)

Definition follows cf (calls : list NodePipeline.call) (ps : list (string * pipeline)) (recs : list record) : Prop :=
  dget (label_of cf) ps = Some (NodePipeline.run cf calls).2 /\
  filter (fun r => summary_of (NodePipeline.cf_host cf) r = true) recs
  = filter (fun r => summary r = true) (NodePipeline.run cf calls).1.

Lemma run_snoc cf calls c : NodePipeline.run cf (calls ++ [c]) = NodePipeline.step cf (NodePipeline.run cf calls) c.
Proof. unfold NodePipeline.run. by rewrite foldl_app. Qed.

Lemma follows_own cf calls ps recs c recv p :
  follows cf calls ps recs -> dget (label_of cf) ps = Some p ->
  follows cf (calls ++ [c]) (dset (label_of cf) (NodePipeline.perform cf c p).2 ps) (recs ++ delivered cf c recv p).
Proof.
  intros [Hp Hr] Hd. rewrite Hd in Hp. injection Hp as Hp. unfold follows. rewrite run_snoc, dget_dset_eq, filter_app, Hr.
  rewrite (own_summaries cf) by apply delivered_of. unfold NodePipeline.step, delivered. rewrite <- Hp.
  destruct (NodePipeline.perform cf c p) as [[rs|e] p']; cbn [fst snd]; rewrite filter_app; done.
Qed.

Lemma follows_other cf cf' calls ps recs c recv p p' :
  cf ∈ nodes -> cf' ∈ nodes -> cf <> cf' -> follows cf' calls ps recs ->
  follows cf' calls (dset (label_of cf) p' ps) (recs ++ delivered cf c recv p).
Proof.
  intros H1 H2 Hne [Hp Hr]. unfold follows. rewrite filter_app, Hr.
  assert (Hl : label_of cf <> label_of cf').
  { intros E. apply Hne. pose proof (nodes_lookup cf H1) as L1. rewrite E, (nodes_lookup cf' H2) in L1. congruence. }
  assert (Hh : NodePipeline.cf_host cf' <> NodePipeline.cf_host cf).
  { intros E. apply Hne. apply list_elem_of_lookup in H1 as [i Hi]. apply list_elem_of_lookup in H2 as [j Hj].
    assert (Hij : i = j).
    { apply (NoDup_lookup _ _ _ (NodePipeline.cf_host cf) Hhosts); rewrite <- list_fmap_lookup || rewrite list_lookup_fmap;
        [by rewrite Hi | by rewrite Hj; cbn; rewrite E]. }
    subst. congruence. }
  rewrite (others_summaries cf) by (done || apply delivered_of). rewrite app_nil_r, dget_dset_ne by done. done.
Qed.
(** ** The state between two callbacks *)

Definition callback (i : input) : bool := match i with WriterTakes => false | _ => true end.

Definition is_event (t : string) (r : record) : Prop :=
  kind r = COLLECTION_EVENT /\ dget "event_type" (row r) = Some (VStr t).

Record served (ck : nat -> datetime) (seen : list input) d : Prop := Served {
  sv_clock : now_is d = ck;
  sv_queue : open_queue (_queue d);
  sv_labels : dkeys (_pipelines d) = map label_of nodes;
  sv_states : dkeys (_session_states d) = map label_of nodes;
  sv_ops : exists first outs, ops d = Put [first] :: map Put outs /\ is_event "collector_started" first /\
    length outs = length (filter (fun i => callback i = true) seen);
  sv_wf : Forall well_formed (puts (ops d));
  sv_nodes : forall cf, cf ∈ nodes -> exists ts, length ts = length (said (label_of cf) seen) /\
    follows cf (at_times (said (label_of cf) seen) ts) (_pipelines d) (puts (ops d));
}.

Lemma at_times_snoc cs ts c t : length ts = length cs -> at_times (cs ++ [c]) (ts ++ [t]) = at_times cs ts ++ [c t].
Proof. intros H. unfold at_times. by rewrite zip_with_app. Qed.

Lemma said_snoc l seen i : said l (seen ++ [i]) = said l seen ++ match said_of l i with Some c => [c] | None => [] end.
Proof. unfold said. rewrite omap_app. cbn. by destruct (said_of l i). Qed.

Lemma puts_snoc os rs : puts (os ++ [Put rs]) = puts os ++ rs.
Proof. unfold puts. rewrite bind_app. cbn. by rewrite app_nil_r. Qed.

(** The run of a pipeline's call, in its place. *)
Lemma on_pipeline_run cf c d p : cf ∈ nodes -> dget (label_of cf) (_pipelines d) = Some p ->
  on_pipeline nodes (label_of cf) (fun cf => NodePipeline.perform cf c) d
  = ((NodePipeline.perform cf c p).1, set_pipelines (dset (label_of cf) (NodePipeline.perform cf c p).2 (_pipelines d)) d).
Proof.
  intros Hin Hp. unfold on_pipeline. rewrite Hp, nodes_lookup by done. by destruct (NodePipeline.perform cf c p).
Qed.

Lemma pipeline_known ck seen d cf : served ck seen d -> cf ∈ nodes -> exists p, dget (label_of cf) (_pipelines d) = Some p.
Proof. intros Hs Hin. destruct (sv_nodes _ _ _ Hs cf Hin) as (ts & _ & H & _). eauto. Qed.

Lemma keys_kept {V} l (v : V) (m : list (string * V)) : l ∈ dkeys m -> dkeys (dset l v m) = dkeys m.
Proof. intros H. rewrite dkeys_dset. by rewrite decide_True. Qed.

Lemma deliver_served ck seen i cf mk recv :
  cf ∈ nodes -> callback i = true -> (forall l, said_of l i = if decide (l = label_of cf) then Some mk else None) ->
  hoare (served ck seen)
    (_deliver system nodes record_tap (label_of cf) recv (on_pipeline nodes (label_of cf) (fun cf => NodePipeline.perform cf (mk recv))))
    (fun r d => r = Ok tt /\ served ck (seen ++ [i]) d).
Proof.
  intros Hin Hi Hsaid d Hs. destruct (pipeline_known _ _ _ _ Hs Hin) as [p Hp].
  pose proof (delivered_of cf (mk recv) recv p) as Hof.
  set (rs := delivered cf (mk recv) recv p) in *.
  set (d1 := set_pipelines (dset (label_of cf) (NodePipeline.perform cf (mk recv) p).2 (_pipelines d)) d).
  assert (E1 : try_except (on_pipeline nodes (label_of cf) (fun cf => NodePipeline.perform cf (mk recv)))
    (fun e => Some (let* r := lift (_pipeline_error system nodes (label_of cf) e recv) in ret [r])) d = (Ok rs, d1)).
  { unfold try_except. rewrite (on_pipeline_run cf (mk recv) d p) by done. subst rs. unfold delivered.
    destruct (NodePipeline.perform cf (mk recv) p).1 as [out|e]; [done|]. unfold bind, lift. by rewrite pipeline_error_known. }
  destruct (put_open rs d1 (sv_queue _ _ _ Hs) (of_pipeline_well_formed cf rs Hof)) as (q & E2 & Hq).
  unfold _deliver. erewrite run_bind by exact E1. cbn beta iota. erewrite run_bind by apply tapped_run. cbn beta iota.
  rewrite E2. cbn [fst snd]. split; [done|]. destruct Hs as [H1 H2 H3 H4 (first & outs & H5 & He & H6) H7 H8].
  split; cbn [now_is _queue _pipelines _session_states ops did set_queue set_pipelines d1]; try done.
  - rewrite keys_kept; [done|]. apply elem_of_dkeys. by rewrite Hp.
  - exists first, (outs ++ [rs]). rewrite H5, map_app, length_app, H6, filter_app, filter_cons, decide_True, length_app by done. done.
  - rewrite puts_snoc. apply Forall_app. split; [done|]. by eapply of_pipeline_well_formed.
  - intros cf' Hin'. destruct (H8 cf' Hin') as (ts & Hts & Hf). rewrite puts_snoc, said_snoc, Hsaid.
    destruct (decide (label_of cf' = label_of cf)) as [El|El].
    + assert (cf' = cf) as -> by (pose proof (nodes_lookup cf' Hin') as L; rewrite El, (nodes_lookup cf Hin) in L; congruence).
      exists (ts ++ [recv]). rewrite !length_app, Hts. split; [done|]. rewrite at_times_snoc by done. by apply follows_own.
    + exists ts. rewrite app_nil_r. split; [done|]. apply follows_other; try done. by intros ->.
Qed.

Lemma state_served ck seen label state : hoare (fun d => served ck seen d /\ label ∈ map label_of nodes)
  (set_state label state) (fun r d => r = Ok tt /\ served ck seen d).
Proof.
  intros d [[] Hl]. split; [done|]. split; try done. cbn [set_state modify snd set_states _session_states]. rewrite keys_kept; congruence.
Qed.

Lemma event_served ck seen i cf kind detail :
  cf ∈ nodes -> callback i = true ->
  (forall l, said_of l i = if decide (l = label_of cf) then Some (NodePipeline.OnEvent kind detail) else None) ->
  hoare (served ck seen) (_on_event system nodes record_tap (label_of cf) kind detail)
    (fun r d => r = Ok tt /\ served ck (seen ++ [i]) d).
Proof.
  intros Hin Hi Hsaid. assert (Hl : label_of cf ∈ map label_of nodes) by (by apply list_elem_of_fmap_2).
  unfold _on_event. eapply hoare_bind with (R := fun _ => served ck seen).
  { intros d []. by split. }
  intros recv. eapply hoare_bind with (R := fun _ => served ck seen); [|intros _; by apply (deliver_served ck seen i cf (NodePipeline.OnEvent kind detail) recv)].
  assert (Hst : forall st, hoare (served ck seen) (set_state (label_of cf) st)
            (fun r s => match r with Ok _ => served ck seen s | Raise e => r = Ok tt /\ served ck (seen ++ [i]) s end)).
  { intros st. eapply hoare_conseq; [apply state_served | by intros d | by intros r d [-> H]]. }
  apply hoare_if; intros _; [apply Hst|]. apply hoare_if; intros _; [apply Hst | by apply hoare_ret].
Qed.

Lemma serve_served ck seen i : known nodes i ->
  hoare (served ck seen) (serve system nodes record_tap i) (fun r d => r = Ok tt /\ served ck (seen ++ [i]) d).
Proof.
  intros Hk. destruct i as [l msg|l kind d|l e|]; cbn [serve known] in *.
  1-3: apply list_elem_of_fmap in Hk as (cf & -> & Hin).
  - unfold _on_message. eapply hoare_bind with (R := fun _ => served ck seen); [intros d []; by split|]. intros recv.
    apply (deliver_served ck seen _ cf (NodePipeline.OnMessage msg) recv); [done | done|]. intros l. cbn. by repeat case_decide; subst.
  - apply (event_served ck seen _ cf kind d); [done | done|]. intros l. cbn. by repeat case_decide; subst.
  - unfold _on_crash. eapply hoare_bind with (R := fun _ => served ck (seen ++ [Crashed (label_of cf) e])).
    + eapply hoare_post; [apply (event_served ck seen (Crashed (label_of cf) e) cf); [done | done|]|].
      * intros l. cbn. by repeat case_decide; subst.
      * by intros r d [-> H].
    + intros _. eapply hoare_pre; [apply state_served|]. intros d Hd. split; [done|]. by apply list_elem_of_fmap_2.
  - intros d [H1 H2 H3 H4 H5 H6 H7]. split; [done|]. split; try done.
    + by apply take_open.
    + destruct H5 as (first & outs & H5). exists first, outs. by rewrite filter_app, app_nil_r.
    + intros cf Hin. destruct (H7 cf Hin) as (ts & H). exists ts. by rewrite said_snoc, app_nil_r.
Qed.

Lemma inputs_served ck seen ins : Forall (known nodes) ins ->
  hoare (served ck seen) (foldM (fun _ i => serve system nodes record_tap i) tt ins)
    (fun r d => r = Ok tt /\ served ck (seen ++ ins) d).
Proof.
  intros Hk. revert seen. induction Hk as [|i ins Hi _ IH]; intros seen; cbn [foldM].
  { apply hoare_ret. by rewrite app_nil_r. }
  eapply hoare_bind with (R := fun _ => served ck (seen ++ [i])).
  - eapply hoare_post; [by apply serve_served|]. by intros r d [-> H].
  - intros []. eapply hoare_post; [apply IH|]. by rewrite <- app_assoc.
Qed.
(** ** The end of the run *)

(** The pipelines of [flushed] have been flushed, into [acc]. *)
Record flushing (ck : nat -> datetime) (seen : list input) (os : list op) (flushed : list config) (acc : list record) d : Prop := Flushing {
  fl_clock : now_is d = ck;
  fl_queue : open_queue (_queue d);
  fl_labels : dkeys (_pipelines d) = map label_of nodes;
  fl_ops : ops d = os;
  fl_wf : Forall well_formed acc;
  fl_states : Forall (fun ls => ls.2 = "stopped") (_session_states d) /\ _stopping d = true;
  fl_nodes : forall cf, cf ∈ nodes -> exists ts last, length ts = length (said (label_of cf) seen) /\
    (cf ∈ flushed -> last = [NodePipeline.Flush]) /\ (cf ∉ flushed -> last = []) /\
    follows cf (at_times (said (label_of cf) seen) ts ++ last) (_pipelines d) (puts os ++ acc);
}.

Lemma last_records_run cf d p : cf ∈ nodes -> dget (label_of cf) (_pipelines d) = Some p ->
  exists n recv, last_records system nodes record_tap (label_of cf) d
    = (Ok (delivered cf NodePipeline.Flush recv p),
       set_readings n (set_pipelines (dset (label_of cf) (NodePipeline.perform cf NodePipeline.Flush p).2 (_pipelines d)) d)).
Proof.
  intros Hin Hp. set (ps := dset _ _ (_pipelines d)).
  exists (match (NodePipeline.perform cf NodePipeline.Flush p).1 with Ok _ => readings d | Raise _ => S (readings d) end), (now_is d (readings d)).
  unfold last_records. rewrite (run_try _ _ _ (match (NodePipeline.perform cf NodePipeline.Flush p).1 with Ok rs => Ok rs | Raise e => Raise e end)
    (set_pipelines ps d)).
  - unfold delivered. destruct (NodePipeline.perform cf NodePipeline.Flush p).1 as [rs|e]; [done|].
    unfold bind, _now, lift. cbn [readings set_pipelines]. rewrite pipeline_error_known by done. by rewrite tapped_run.
  - change NodePipeline.flush with (fun cf => NodePipeline.perform cf NodePipeline.Flush).
    unfold bind. rewrite (on_pipeline_run cf NodePipeline.Flush d p) by done. fold ps.
    destruct (NodePipeline.perform cf NodePipeline.Flush p).1 as [rs|e]; [|done]. apply tapped_run.
Qed.

Lemma last_records_flushing ck seen os flushed acc cf :
  cf ∈ nodes -> cf ∉ flushed ->
  hoare (flushing ck seen os flushed acc)
    (let* more := last_records system nodes record_tap (label_of cf) in ret (acc ++ more))
    (fun r d => exists acc', r = Ok acc' /\ flushing ck seen os (cf :: flushed) acc' d).
Proof.
  intros Hin Hnew d [H1 H2 H3 H4 H5 H6 H7]. destruct (H7 cf Hin) as (ts & l & Hts & _ & Hl & Hf). rewrite (Hl Hnew), app_nil_r in Hf.
  assert (Hp : exists p, dget (label_of cf) (_pipelines d) = Some p) by (destruct Hf; eauto). destruct Hp as [p Hp].
  destruct (last_records_run cf d p Hin Hp) as (n & recv & E). unfold bind. rewrite E. cbn [fst snd ret].
  pose proof (delivered_of cf NodePipeline.Flush recv p) as Hof.
  eexists. split; [done|]. split; cbn [now_is _queue _pipelines _session_states _stopping ops set_readings set_pipelines]; try done.
  - rewrite keys_kept; [done|]. apply elem_of_dkeys. by rewrite Hp.
  - apply Forall_app. split; [done|]. by eapply of_pipeline_well_formed.
  - intros cf' Hin'. rewrite app_assoc. destruct (H7 cf' Hin') as (ts' & l' & Hts' & Ha & Hb & Hf').
    destruct (decide (label_of cf' = label_of cf)) as [El|El].
    + assert (cf' = cf) as -> by (pose proof (nodes_lookup cf' Hin') as L; rewrite El, (nodes_lookup cf Hin) in L; congruence).
      exists ts, [NodePipeline.Flush]. split; [done|]. split; [done|]. split; [intros Hn; destruct Hn; by left|]. by apply follows_own.
    + assert (Hne : cf' <> cf) by (by intros ->).
      exists ts', l'. split; [done|]. split; [intros Hc; apply Ha; apply elem_of_cons in Hc as [Hc|Hc]; [done | done]|].
      split; [intros Hc; apply Hb; intros Hc'; apply Hc; by right|]. by apply follows_other.
Qed.

Lemma flush_all ck seen os flushed acc l :
  NoDup l -> (forall cf, cf ∈ l -> cf ∈ nodes /\ cf ∉ flushed) ->
  hoare (flushing ck seen os flushed acc)
    (foldM (fun acc label => let* more := last_records system nodes record_tap label in ret (acc ++ more)) acc (map label_of l))
    (fun r d => exists acc', r = Ok acc' /\ flushing ck seen os (rev l ++ flushed) acc' d).
Proof.
  intros Hn. revert flushed acc. induction Hn as [|cf l Hcf Hn IH]; intros flushed acc Hl; cbn [map foldM rev].
  { apply hoare_ret. intros d Hd. by exists acc. }
  destruct (Hl cf ltac:(by left)) as [Hin Hnew].
  eapply hoare_bind with (R := fun acc' => flushing ck seen os (cf :: flushed) acc').
  - eapply hoare_post; [by apply last_records_flushing|]. by intros r d (acc' & -> & H).
  - intros acc'. eapply hoare_post; [apply IH|].
    + intros cf' Hc. destruct (Hl cf' ltac:(by right)) as [H1 H2]. split; [done|]. rewrite not_elem_of_cons. split; [|done]. by intros ->.
    + intros r d (a & -> & H). exists a. split; [done|]. by rewrite <- app_assoc.
Qed.

(** After the run: nothing more is put, and every pipeline has had its calls and a flush. *)
Record finished (seen : list input) d : Prop := Finished {
  fi_ops : exists first outs final stopped,
    ops d = (Put [first] :: map Put outs) ++ [Put (final ++ [stopped]); Close] /\
    length outs = length (filter (fun i => callback i = true) seen) /\
    is_event "collector_started" first /\ is_event "collector_stopped" stopped;
  fi_closed : closed (_queue d) = true;
  fi_wf : Forall well_formed (puts (ops d));
  fi_states : Forall (fun ls => ls.2 = "stopped") (_session_states d) /\ _stopping d = true;
  fi_nodes : forall cf, cf ∈ nodes -> exists ts, length ts = length (said (label_of cf) seen) /\
    follows cf (at_times (said (label_of cf) seen) ts ++ [NodePipeline.Flush]) (_pipelines d) (puts (ops d));
}.

Lemma collector_event_run t detail d :
  _collector_event system t detail d
  = (Ok (Record_ COLLECTION_EVENT [("system", VStr system); ("node", VNone); ("ts", VTime (now_is d (readings d)));
        ("event_type", VStr t); ("detail", VDict detail)]), set_readings (S (readings d)) d).
Proof. done. Qed.

Lemma collector_event_well_formed t v detail :
  well_formed (Record_ COLLECTION_EVENT [("system", VStr system); ("node", VNone); ("ts", v); ("event_type", VStr t); ("detail", VDict detail)]).
Proof. split; [apply (bool_decide_unpack _); vm_compute; exact I | discriminate]. Qed.

Lemma NoDup_nodes : NoDup nodes.
Proof. exact (NoDup_fmap_1 label_of nodes Hlabels). Qed.

Lemma winds_down ck seen d : served ck seen d ->
  exists d', wind_down system nodes record_tap d = (Ok tt, d') /\ finished seen d'.
Proof.
  intros [H1 H2 H3 H4 (first & outs & H5 & He & H6) H7 H8]. unfold wind_down, bind, modify at 1 2.
  set (d0 := set_states _ (set_stopping d)).
  assert (Hf : flushing ck seen (ops d) [] [] d0).
  { split; cbn; try done.
    - split; [|done]. apply Forall_fmap, Forall_true. done.
    - intros cf Hin. destruct (H8 cf Hin) as (ts & Hts & Hfo). exists ts, []. rewrite !app_nil_r. split_and!; try done.
      intros Hc. by apply elem_of_nil in Hc. }
  unfold _finish_queue. unfold bind at 1, gets. cbv beta iota.
  assert (El : dkeys (_pipelines d0) = map label_of nodes) by apply H3. rewrite El.
  pose proof (flush_all ck seen (ops d) [] [] nodes NoDup_nodes
    (fun cf Hc => conj Hc (not_elem_of_nil cf)) d0 Hf) as Hfl.
  destruct (foldM _ [] (map label_of nodes) d0) as [r d1] eqn:Efo. cbn [fst snd] in Hfl. destruct Hfl as (acc & -> & [G1 G2 G3 G4 G5 G6 G7]).
  erewrite run_bind by exact Efo. cbn beta iota. erewrite run_bind by apply collector_event_run. cbn beta iota.
  set (stopped := Record_ COLLECTION_EVENT _). set (d2 := set_readings _ d1).
  destruct (put_open (acc ++ [stopped]) d2 G2) as (q & E & Hrep & Hc).
  { apply Forall_app. split; [done|]. apply Forall_singleton, collector_event_well_formed. }
  rewrite E. unfold queue_close. cbn. eexists. split; [done|]. split; cbn.
  - rewrite G4, H5. exists first, outs, acc, stopped. rewrite <- app_assoc. split_and!; try done.
  - done.
  - rewrite G4. unfold puts. rewrite !bind_app. cbn. rewrite !app_nil_r. apply Forall_app. split; [done|].
    apply Forall_app. split; [done|]. apply Forall_singleton, collector_event_well_formed.
  - done.
  - intros cf Hin. destruct (G7 cf Hin) as (ts & l & Hts & Ha & _ & Hfo). exists ts. split; [done|].
    assert (Hrev : cf ∈ rev nodes ++ []) by (rewrite app_nil_r, list_elem_of_In, <- in_rev, <- list_elem_of_In; done).
    rewrite (Ha Hrev) in Hfo.
    destruct Hfo as [F1 F2]. split; [done|]. rewrite G4. unfold puts in *. rewrite !bind_app. cbn. rewrite !app_nil_r.
    rewrite !filter_app in *. rewrite app_assoc, F2. apply app_nil_r.
Qed.

Lemma served_new ck : let d := new_daemon nodes ck in
  exists d', (let* e := _collector_event system "collector_started" identity in queue_put [e]) d = (Ok tt, d') /\ served ck [] d'.
Proof.
  intros d. erewrite run_bind by apply collector_event_run. cbn beta iota.
  set (e := Record_ COLLECTION_EVENT _). set (d1 := set_readings _ d).
  destruct (put_open [e] d1) as (q & E & Hq).
  { split; [exists []; apply represents_nil | done]. }
  { apply Forall_singleton, collector_event_well_formed. }
  rewrite E. eexists. split; [done|]. split; cbn; try done.
  - apply (table_keys (fun cf => NodePipeline.new_pipeline cf)). done.
  - apply (table_keys (fun _ => "starting")). done.
  - exists e, []. done.
  - apply Forall_singleton, collector_event_well_formed.
  - intros cf Hin. exists []. split; [done|]. split; [|done]. by apply (table_lookup (fun cf => NodePipeline.new_pipeline cf)).
Qed.

Lemma run_finished ck checked ins : _schema_ok checked = true -> Forall (known nodes) ins ->
  exists d, run system nodes record_tap identity checked ins (new_daemon nodes ck) = (Ok 0, d) /\ finished ins d.
Proof.
  intros Hc Hk. unfold run. rewrite Hc. cbn [negb]. destruct (served_new ck) as (d1 & E1 & Hs).
  pose proof (inputs_served ck [] ins Hk d1 Hs) as [E2 Hs2].
  destruct (foldM _ tt ins d1) as [r d2] eqn:Ef. cbn [fst snd] in *. subst r.
  destruct (winds_down ck ins d2 Hs2) as (d3 & E3 & Hf). exists d3. split; [|done].
  unfold bind at 1.
  assert (Eb : (let* e := _collector_event system "collector_started" identity in
                queue_put [e] ;;; foldM (fun _ i => serve system nodes record_tap i) tt ins) (new_daemon nodes ck) = (Ok tt, d2)).
  { unfold bind in E1 |- *. destruct (_collector_event _ _ _ _) as [[e|x] dx]; [|discriminate]. rewrite E1. exact Ef. }
  rewrite Eb, E3. done.
Qed.
End Run.

(** ** Properties *)

Lemma put_ops_orderly outs : orderly (map Put outs ++ [Close]) false.
Proof. induction outs as [|rs outs IH]; cbn; [done|]. by split. Qed.

Lemma put_ops_take outs : Take ∉ map Put outs ++ [Close].
Proof.
  induction outs as [|rs outs IH]; cbn; rewrite not_elem_of_cons; (split; [discriminate|]); [apply not_elem_of_nil | exact IH].
Qed.

Lemma finished_ops nodes seen d : finished nodes seen d -> exists outs, ops d = map Put outs ++ [Close].
Proof.
  intros Hf. destruct (fi_ops _ _ _ Hf) as (first & outs & final & stopped & -> & _).
  exists ([first] :: outs ++ [final ++ [stopped]]). cbn. by rewrite map_app, <- app_assoc.
Qed.


(** C16. The nodes do not mix: each node's pipeline makes exactly the calls of its own session,
    in their order, and a last flush, so that over the whole run, of every node, the summaries
    put for its host are those its pipeline returned; their minutes come out strictly
    increasing and no two of the usage records have the same interval and user. *)
Theorem daemon_node_isolation system nodes record_tap identity ck checked ins cf :
  NoDup (map label_of nodes) -> NoDup (map NodePipeline.cf_host nodes) ->
  (forall tap r, record_tap = Some tap -> tap r = Ok tt) ->
  _schema_ok checked = true -> Forall (known nodes) ins -> cf ∈ nodes ->
  let d := (run system nodes record_tap identity checked ins (new_daemon nodes ck)).2 in
  let mine := filter (fun r => summary_of (NodePipeline.cf_host cf) r = true) (puts (ops d)) in
  exists times, length times = length (said (label_of cf) ins) /\
    let r := NodePipeline.run cf (at_times (said (label_of cf) ins) times ++ [NodePipeline.Flush]) in
    dget (label_of cf) (_pipelines d) = Some r.2 /\
    mine = filter (fun r => summary r = true) r.1 /\
    StronglySorted Z.lt (omap NodePipeline.minute_of mine) /\ NoDup (omap NodePipeline.usage_key mine).
Proof.
  intros Hl Hh Ht Hc Hk Hin d mine.
  destruct (run_finished system nodes record_tap identity Hl Hh Ht ck checked ins Hc Hk) as (d' & E & Hf).
  assert (Ed : d = d') by (unfold d; by rewrite E). subst d'.
  destruct (fi_nodes _ _ _ Hf cf Hin) as (times & Hlen & Hp & Hm). exists times. split; [done|]. cbv zeta.
  split; [done|]. split; [exact Hm|]. unfold mine. rewrite Hm.
  rewrite !omap_summary by (intros r Hr; apply (not_summary r Hr)).
  by destruct (NodePipeline.run_emitted cf (at_times (said (label_of cf) ins) times ++ [NodePipeline.Flush])) as [[] _ [] _ _].
Qed.


(** ** Two nodes and their writer *)

Definition node1 : config := NodePipeline.demo_config.
Definition node2 : config :=
  NodePipeline.Config "sys" "login2.example" "login2" 1000 (Redact.Redactor []) (NInt 10) (NInt 60) (NInt 300).
Definition demo_nodes : list config := [node1; node2].
Definition demo_ck (n : nat) : datetime := utc (NodePipeline.t0 + Z.of_nat n * 25000000).
Definition demo_inputs : list input :=
  [Happened "login1" "session_started" [("attempt", VInt 1)]; Said "login1" (NodePipeline.counters_msg 1);
   Said "login2" (NodePipeline.census_msg Enrich.raw_rows); WriterTakes;
   Said "login1" [("type", VStr "counters"); ("mem", VInt 3)];
   Crashed "login2" (RuntimeError "boom"); Said "login1" (NodePipeline.counters_msg 2)].
Definition demo_daemon : daemon :=
  (run "sys" demo_nodes None [("pid", VInt 7)] (Ok tt) demo_inputs (new_daemon demo_nodes demo_ck)).2.

Definition shape (os : list op) : list (list string) :=
  map (fun o => match o with
                | Put rs => map (fun r => match dget "event_type" (row r) with Some (VStr t) => t | _ => kind r end) rs
                | Take => ["take"] | Close => ["close"]
                end) os.

(** The malformed message of the first node costs its event, and the minute it came in: the
    message that closes that minute is reported too, and no row of it comes out.  The second
    node is not disturbed: its census comes out at the end. *)
Example daemon_demo :
  (shape (ops demo_daemon), _session_states demo_daemon)
  = ([["collector_started"]; ["session_started"]; [LIVE_NODE]; [LIVE_PROCESSES]; ["pipeline_error"];
      ["session_crashed"]; ["pipeline_error"];
      [USER_USAGE_5M; USER_USAGE_5M; USER_USAGE_5M; NODE_USAGE_5M; "collector_stopped"]; ["close"]],
     [("login1", "stopped"); ("login2", "stopped")]).
Proof. vm_compute. reflexivity. Qed.

Lemma demo_labels : NoDup (map label_of demo_nodes).
Proof. apply (bool_decide_unpack _). vm_compute. exact I. Qed.
Lemma demo_hosts : NoDup (map NodePipeline.cf_host demo_nodes).
Proof. apply (bool_decide_unpack _). vm_compute. exact I. Qed.
Lemma demo_known : Forall (known demo_nodes) demo_inputs.
Proof. repeat constructor; apply (bool_decide_unpack _); vm_compute; exact I. Qed.


Lemma daemon_node_isolation_witness :
  let mine := filter (fun r => summary_of "login2.example" r = true) (puts (ops demo_daemon)) in
  exists times, length times = length (said "login2" demo_inputs) /\
    let r := NodePipeline.run node2 (at_times (said "login2" demo_inputs) times ++ [NodePipeline.Flush]) in
    dget "login2" (_pipelines demo_daemon) = Some r.2 /\
    mine = filter (fun r => summary r = true) r.1 /\
    StronglySorted Z.lt (omap NodePipeline.minute_of mine) /\ NoDup (omap NodePipeline.usage_key mine).
Proof.
  apply (daemon_node_isolation "sys" demo_nodes None [("pid", VInt 7)] demo_ck (Ok tt) demo_inputs node2 demo_labels demo_hosts).
  - intros tap r [=].
  - reflexivity.
  - exact demo_known.
  - by right; left.
Defined.

(** The writer takes in two rounds what the daemon put, and then sees that it is over. *)
Definition demo_script : list (list op * list op) :=
  [(firstn 3%nat (ops demo_daemon), skipn 3%nat (ops demo_daemon)); ([], []); ([], [])].
Definition demo_view (n : nat) : bool * list (string * string) := ((3 <? n)%nat, [("login1", "up")]).
#[local] Existing Instance Spool.demo_json.

