(* ===== verification/Config.v ===== *)
(** * Configuration

    [node_monitor/config.py]: finding the file, validating it and building the [Config].  The
    parsed YAML is a [value] whose mappings have text keys; a frozen dataclass instance is the
    dictionary of its fields.  What lies outside the program is the class [Outside]: the file
    system, the environment, the YAML parser, [re.compile], [repr], and the two checks of
    [urlsplit] that depend on tables ([ipaddress] and Unicode normalisation). *)

From stdpp Require Import pretty.
From S2P Require Import Prelude PyFloat PyTime PyVal Text.

Class Outside := {
  getenv : string -> option string;
  expanduser : string -> string;
  is_file : string -> bool;
  (** [Path.read_text], and [yaml.safe_load]: [inl] is the text of a [YAMLError]. *)
  read_text : string -> res string;
  safe_load : string -> string + value;
  st_mode : string -> res Z;
  (** The text of the [re.error] of a pattern that does not compile. *)
  re_error : string -> option string;
  repr : value -> string;
  netloc_rejected : string -> bool;
}.

(** ** The dataclasses, as their fields with the defaults *)

Abbreviation fields := (list (string * value)).

Definition SshConfig : fields := [("identity_file", VNone); ("connect_timeout_sec", VInt 10)].
Definition CollectionConfig : fields :=
  [("counter_interval_sec", VInt 10); ("census_interval_sec", VInt 60); ("summary_interval_sec", VInt 300);
   ("session_silence_timeout_sec", VInt 30); ("session_max_lifetime_sec", VInt 21600);
   ("reconnect_backoff_sec", VTuple [VInt 5; VInt 300]); ("probe_rss_limit_mb", VInt 128)].
Definition ClassificationConfig : fields :=
  [("active_cpu_seconds_per_min", VFloat (flit 1 1)); ("min_user_uid", VInt 1000)].
Definition RedactionConfig : fields := [("extra_patterns", VTuple [])].
Definition DatabaseConfig : fields := [("url", VNone); ("connect_timeout_sec", VInt 10)].
Definition WebConfig : fields := [("database_url", VNone); ("host", VStr "127.0.0.1"); ("port", VInt 9998)].
Definition RetentionConfig : fields :=
  [("node_metrics_days", VInt 730); ("usage_summary_days", VInt 730); ("collection_events_days", VInt 180)].
Definition SpoolConfig : fields := [("max_bytes", VInt 1073741824)].

Record NodeConfig := NodeConfig_ { n_host : value; n_label : value; n_ssh_target : value }.

Record Config := Config_ {
  system : value;
  nodes : list NodeConfig;
  probe_python : value;
  working_dir : string;
  ssh : dict;
  collection : dict;
  classification : dict;
  source_path : string;
  redaction : dict;
  database : dict;
  web : dict;
  retention : dict;
  spool : dict;
}.

Definition TOP_LEVEL_KEYS : list string :=
  ["system"; "nodes"; "ssh"; "probe_python"; "working_dir"; "collection"; "classification";
   "database"; "web"; "redaction"; "retention"; "spool"].
Definition _COLLECTION_FUTURE : list string := ["hourly_census"].
Definition _CLASSIFICATION_FUTURE : list string := ["notable_cpu_seconds_per_min"; "notable_rss_mb"].
Definition _RETENTION_FUTURE : list string := ["process_samples_days"; "command_lines_days"].
Definition _NODE_KEYS : list string := ["host"; "label"; "ssh_target"].

(** ** Numbers *)

(** [math.isfinite(n)] *)
Definition math_isfinite (n : num) : res bool := f ← to_float n; Ok (isfinite f).

(** [a < b]; anything but numbers raises. *)
Definition value_lt (a b : value) : res bool :=
  match num_of a, num_of b with
  | Some x, Some y => Ok (num_ltb x y)
  | _, _ => Raise TypeError
  end.

(** A number that is not a [bool]. *)
Definition number (v : value) : option num := match v with VBool _ => None | _ => num_of v end.

Definition zero : num := NInt 0.

(** ** The checks *)

(** Decoding [%XX] and [+] in a query name, byte by byte. *)
Definition hex_val (c : ascii) : option N :=
  let n := N_of_ascii c in
  if (48 <=? n)%N && (n <=? 57)%N then Some (n - 48)%N
  else if (65 <=? n)%N && (n <=? 70)%N then Some (n - 55)%N
  else if (97 <=? n)%N && (n <=? 102)%N then Some (n - 87)%N
  else None.

Fixpoint unquote (s : string) : string :=
  match s with
  | String "+" s => String " " (unquote s)
  | String "%" (String a (String b s') as rest) =>
      match hex_val a, hex_val b with
      | Some x, Some y => String (ascii_of_N (16 * x + y)) (unquote s')
      | _, _ => String "%" (unquote rest)
      end
  | String c s => String c (unquote s)
  | EmptyString => EmptyString
  end.

(** What follows the last [@], the userinfo's end; [None] without one. *)
Definition userinfo (netloc : string) : option string :=
  match rev (split_on "@" netloc) with
  | (_ :: _ :: _) as ps => Some (joined "@" (rev (tail ps)))
  | _ => None
  end.

(** [urlsplit] drops tabs and line ends wherever they are. *)
Fixpoint strip_unsafe (s : string) : string :=
  match s with
  | EmptyString => EmptyString
  | String a s =>
      if decide (a ∈ ["009"; "010"; "013"]%char) then strip_unsafe s else String a (strip_unsafe s)
  end.

Definition after_scheme (url : string) : string :=
  match partition_at ":" url with
  | (_, Some (String "/" (String "/" rest))) => rest
  | _ => ""
  end.

Fixpoint octal (digits : nat) (z : Z) : string :=
  match digits with
  | O => ""
  | S n => octal n (z / 8) +:+ String (digit (z mod 8)) ""
  end.

Section Config.
Context {OS : Outside}.
#[local] Open Scope string_scope.
#[local] Open Scope Z_scope.

Definition config_error {A} (msg : string) : res A := Raise (ConfigError msg).

(** [find_config_path] *)
Definition candidates (explicit : option string) : list string :=
  match explicit with
  | Some p => if decide (p = "") then [] else [expanduser p]
  | None => []
  end.
Definition standard_candidates : list string :=
  (match getenv "NODE_MONITOR_CONFIG" with
   | Some e => if decide (e = "") then [] else [expanduser e]
   | None => []
   end) ++ [expanduser "~/.node_monitor.yaml"; expanduser "~/.config/node_monitor/config.yaml"].

Definition find_config_path (explicit : option string) : res string :=
  let cs := match candidates explicit with [] => standard_candidates | cs => cs end in
  match filter (fun c => is_file c = true) cs with
  | c :: _ => Ok c
  | [] => config_error ("no config file found; tried: " +:+ joined ", " cs)
  end.

Definition _section (raw : dict) (name : string) : res dict :=
  match dget_or_none name raw with
  | VNone => Ok []
  | VDict d => Ok d
  | _ => config_error ("'" +:+ name +:+ "' must be a mapping")
  end.

Definition _check_keys (where_ : string) (data : dict) (allowed : list string) : res unit :=
  match filter (fun k => k ∉ allowed) (dkeys data) with
  | [] => Ok tt
  | k :: _ => config_error ("unknown key '" +:+ k +:+ "' in " +:+ where_)
  end.

Definition _build (cls : fields) (where_ : string) (data : dict) (extra_allowed : list string) : res dict :=
  let names := map fst cls in
  _check_keys where_ data (names ++ extra_allowed) ≫= fun _ =>
  Ok (map (fun fd => (fd.1, default fd.2 (dget fd.1 data))) cls).

(** [f"{where}.{key} must be {what}, got {value!r}"] *)
Definition must_be (where_ key what : string) (v : value) : string :=
  where_ +:+ "." +:+ key +:+ " must be " +:+ what +:+ ", got " +:+ repr v.

Definition _positive (where_ key : string) (v : value) : res unit :=
  match number v with
  | Some n => if num_ltb zero n then Ok tt else config_error (must_be where_ key "a positive number" v)
  | None => config_error (must_be where_ key "a positive number" v)
  end.

Definition _positive_finite (where_ key : string) (v : value) : res unit :=
  _positive where_ key v ≫= fun _ =>
  match number v with
  | Some n => b ← math_isfinite n;
              if (b : bool) then Ok tt else config_error (must_be where_ key "a finite number" v)
  | None => Raise TypeError
  end.

Definition _positive_int (where_ key : string) (v : value) : res unit :=
  match v with
  | VInt z => if 0 <? z then Ok tt else config_error (must_be where_ key "a positive integer" v)
  | _ => config_error (must_be where_ key "a positive integer" v)
  end.

Definition is_url (s : string) : bool :=
  String.prefix "postgresql://" s || String.prefix "postgres://" s.

Definition _check_url (label : string) (url : value) : res unit :=
  let bad := config_error (label +:+ " must be a postgresql:// or postgres:// URL, got " +:+ repr url) in
  match url with
  | VNone => Ok tt
  | VStr s => if is_url s then Ok tt else bad
  | _ => bad
  end.

(** [urlsplit(url).password]; [None] when [urlsplit] raises. *)
Definition netloc_of (url : string) : string := until ["/"; "?"; "#"]%char (after_scheme (strip_unsafe url)).
Definition query_of (url : string) : string :=
  let rest := until ["#"]%char (drop_until ["/"; "?"; "#"]%char (after_scheme (strip_unsafe url))) in
  default "" (partition_at "?" rest).2.
Definition has_char (c : ascii) (s : string) : bool :=
  match (partition_at c s).2 with Some _ => true | None => false end.
Definition split_raises (netloc : string) : bool :=
  xorb (has_char "[" netloc) (has_char "]" netloc) || netloc_rejected netloc.

Definition url_password (url : string) : option string :=
  match userinfo (netloc_of url) with Some u => (partition_at ":" u).2 | None => None end.

(** ["password" in parse_qs(query)]: some pair of that name with a value. *)
Definition password_parameter (query : string) : bool :=
  existsb (fun nv => match partition_at "=" nv with
                     | (n, Some v) => negb (bool_decide (v = "")) && bool_decide (unquote n = "password")
                     | _ => false
                     end) (split_on "&" query).

Definition _has_password (url : value) : bool :=
  match url with
  | VStr s =>
      if split_raises (netloc_of s) then false
      else match url_password s with
           | Some p => negb (bool_decide (p = "")) || password_parameter (query_of s)
           | None => password_parameter (query_of s)
           end
  | _ => false
  end.

(** [abs(x - round(x)) < 1e-9] *)
Definition _near_integer (x : float) : res bool :=
  n ← py_round x; f ← to_float (NInt n); Ok (fltb (SFabs (fsub x f)) (flit 1 9)).

(** [getattr(c, key)] of a field that is a number. *)
Definition field (key : string) (c : dict) : value := dget_or_none key c.
Definition number_field (key : string) (c : dict) : res num :=
  match num_of (field key c) with Some n => Ok n | None => Raise TypeError end.

Fixpoint each {A} (f : A -> res unit) (l : list A) : res unit :=
  match l with [] => Ok tt | x :: l => f x ≫= fun _ => each f l end.

(** The condition of the second [if] of [_validate_collection], negated. *)
Definition intervals_align (summary census : num) : res bool :=
  ratio ← true_div summary census;
  n ← py_round ratio;
  if n <? 1 then Ok false
  else a ← _near_integer ratio;
       if negb a then Ok false
       else x ← true_div (NInt 3600) summary; _near_integer x.

Definition COLLECTION_NUMBERS : list string :=
  ["counter_interval_sec"; "census_interval_sec"; "summary_interval_sec";
   "session_silence_timeout_sec"; "session_max_lifetime_sec"; "probe_rss_limit_mb"].

Definition _validate_collection (c : dict) : res unit :=
  each (fun key => _positive "collection" key (field key c)) COLLECTION_NUMBERS ≫= fun _ =>
  counter ← number_field "counter_interval_sec" c;
  silence ← number_field "session_silence_timeout_sec" c;
  if negb (num_ltb counter silence) then
    config_error "collection.session_silence_timeout_sec must exceed counter_interval_sec, or a healthy session would be declared silent"
  else
    summary ← number_field "summary_interval_sec" c;
    census ← number_field "census_interval_sec" c;
    ok ← intervals_align summary census;
    if (ok : bool) then Ok tt
    else config_error "collection.summary_interval_sec must be a multiple of census_interval_sec and divide 3600 so intervals align to the clock".

(** ** Nodes *)

(** Lists and mappings cannot be put in a set; [a == b] of two values that can. *)
Definition hashable (v : value) : bool :=
  match v with VList _ | VDict _ | VTuple _ => false | _ => true end.

Definition same_label (a b : value) : bool :=
  match a, b with
  | VStr s, VStr t => bool_decide (s = t)
  | VNone, VNone => true
  | VTime s, VTime t => Bool.eqb (is_aware s) (is_aware t) && (instant s =? instant t)
  | _, _ => match num_of a, num_of b with
            | Some x, Some y => match num_cmp x y with Some Eq => true | _ => false end
            | _, _ => false
            end
  end.

(** One entry of [nodes]; [seen] are the labels so far. *)
Definition parse_node (seen : list value) (entry : value) : res NodeConfig :=
  match entry with
  | VDict e =>
      _check_keys "nodes[]" e _NODE_KEYS ≫= fun _ =>
      each (fun required => if truthy (dget_or_none required e) then Ok tt
                            else config_error ("node entry is missing '" +:+ required +:+ "'")) ["host"; "label"] ≫= fun _ =>
      let label := dget_or_none "label" e in
      if negb (hashable label) then Raise TypeError
      else if existsb (same_label label) seen then config_error ("duplicate node label '" +:+ repr label +:+ "'")
      else
        let host := dget_or_none "host" e in
        let target := dget_or_none "ssh_target" e in
        Ok (NodeConfig_ host label (if truthy target then target else host))
  | _ => config_error "each entry in 'nodes' must be a mapping"
  end.

Fixpoint parse_entries (seen : list value) (entries : list value) : res (list NodeConfig) :=
  match entries with
  | [] => Ok []
  | e :: es => n ← parse_node seen e; ns ← parse_entries (n_label n :: seen) es; Ok (n :: ns)
  end.

Definition _parse_nodes (raw_nodes : value) : res (list NodeConfig) :=
  match raw_nodes with
  | VList (e :: es) => parse_entries [] (e :: es)
  | _ => config_error "'nodes' must be a non-empty list"
  end.

(** ** [load_config] *)

(** The text of the file, parsed, with the keys it must have. *)
Definition load_raw (source : string) : res dict :=
  text ← read_text source;
  match safe_load text with
  | inl exc => config_error (source +:+ ": invalid YAML: " +:+ exc)
  | inr (VDict raw) =>
      _check_keys "config" raw TOP_LEVEL_KEYS ≫= fun _ =>
      each (fun required => if decide (required ∈ dkeys raw) then Ok tt
                            else config_error ("missing required key '" +:+ required +:+ "'"))
        ["system"; "probe_python"; "nodes"] ≫= fun _ =>
      Ok raw
  | inr _ => config_error (source +:+ ": top level must be a mapping")
  end.

Definition load_ssh (raw : dict) : res dict :=
  data ← _section raw "ssh";
  let identity := dget_or_none "identity_file" data in
  data ← (if truthy identity
          then p ← as_str identity; Ok (dset "identity_file" (VStr (expanduser p)) data)
          else Ok data);
  _build SshConfig "ssh" data [].

(** [isinstance(pair, (list, tuple)) and len(pair) == 2 and 0 < pair[0] < pair[1]] *)
Definition backoff_pair (v : value) : res (option (value * value)) :=
  match v with
  | VList [a; b] | VTuple [a; b] =>
      x ← value_lt (VInt 0) a;
      if negb x then Ok None
      else y ← value_lt a b; Ok (if (y : bool) then Some (a, b) else None)
  | _ => Ok None
  end.

Definition load_collection (raw : dict) : res dict :=
  data ← _section raw "collection";
  data ← match dget "reconnect_backoff_sec" data with
         | Some v =>
             o ← backoff_pair v;
             match o with
             | Some (a, b) => Ok (dset "reconnect_backoff_sec" (VTuple [a; b]) data)
             | None => config_error "reconnect_backoff_sec must be [min, max] with 0 < min < max"
             end
         | None => Ok data
         end;
  c ← _build CollectionConfig "collection" data _COLLECTION_FUTURE;
  _validate_collection c ≫= fun _ => Ok c.

Definition check_uid (uid : value) : res unit :=
  let bad := config_error (must_be "classification" "min_user_uid" "a non-negative integer" uid) in
  match uid with VInt z => if z <? 0 then bad else Ok tt | _ => bad end.

Definition check_pattern (pattern : value) : res unit :=
  match pattern with
  | VStr p => match re_error p with
              | Some exc => config_error ("redaction.extra_patterns: " +:+ repr pattern
                                          +:+ " is not a valid regex: " +:+ exc)
              | None => Ok tt
              end
  | _ => config_error ("redaction.extra_patterns entries must be strings, got " +:+ repr pattern)
  end.

Definition load_redaction (raw : dict) : res dict :=
  data ← _section raw "redaction";
  let patterns := dget_or_none "extra_patterns" data in
  patterns ← (if truthy patterns then
                match patterns with
                | VList l | VTuple l => Ok l
                | _ => config_error "redaction.extra_patterns must be a list of regular expressions"
                end
              else Ok []);
  each check_pattern patterns ≫= fun _ =>
  _build RedactionConfig "redaction" (dset "extra_patterns" (VTuple patterns) data) [].

Definition check_web (web : dict) : res unit :=
  let host := field "host" web in
  let port := field "port" web in
  match host with
  | VStr s => if decide (s = "") then config_error (must_be "web" "host" "a non-empty string" host) else Ok tt
  | _ => config_error (must_be "web" "host" "a non-empty string" host)
  end ≫= fun _ =>
  match port with
  | VInt z => if (1 <=? z) && (z <=? 65535) then Ok tt
              else config_error (must_be "web" "port" "an integer in 1..65535" port)
  | _ => config_error (must_be "web" "port" "an integer in 1..65535" port)
  end.

(** A password in the file makes the file a credential. *)
Definition check_mode (source : string) (database web : dict) : res unit :=
  if _has_password (field "url" database) || _has_password (field "database_url" web) then
    st ← st_mode source;
    let mode := Z.land st 511 in
    if Z.land mode 63 =? 0 then Ok tt
    else config_error (source +:+ " contains a database password and must have mode 0600 (found "
                       +:+ octal 4 mode +:+ "); run: chmod 600 " +:+ source)
  else Ok tt.

(** [replace(section, key=override)] if the variable is set and not empty. *)
Definition override (variable key : string) (section : dict) : res dict :=
  match getenv variable with
  | Some v =>
      if decide (v = "") then Ok section
      else _check_url variable (VStr v) ≫= fun _ => Ok (dset key (VStr v) section)
  | None => Ok section
  end.

Definition RETENTION_KEYS : list string := ["node_metrics_days"; "usage_summary_days"; "collection_events_days"].

Definition load_config (path : option string) : res Config :=
  source ← find_config_path path;
  raw ← load_raw source;
  ssh ← load_ssh raw;
  collection ← load_collection raw;
  class_data ← _section raw "classification";
  classification ← _build ClassificationConfig "classification" class_data _CLASSIFICATION_FUTURE;
  _positive "ssh" "connect_timeout_sec" (field "connect_timeout_sec" ssh) ≫= fun _ =>
  _positive "classification" "active_cpu_seconds_per_min" (field "active_cpu_seconds_per_min" classification) ≫= fun _ =>
  check_uid (field "min_user_uid" classification) ≫= fun _ =>
  redaction ← load_redaction raw;
  database_data ← _section raw "database";
  database ← _build DatabaseConfig "database" database_data [];
  web_data ← _section raw "web";
  web ← _build WebConfig "web" web_data [];
  retention_data ← _section raw "retention";
  retention ← _build RetentionConfig "retention" retention_data _RETENTION_FUTURE;
  spool_data ← _section raw "spool";
  spool ← _build SpoolConfig "spool" spool_data [];
  _check_url "database.url" (field "url" database) ≫= fun _ =>
  _check_url "web.database_url" (field "database_url" web) ≫= fun _ =>
  _positive_finite "database" "connect_timeout_sec" (field "connect_timeout_sec" database) ≫= fun _ =>
  _positive_int "spool" "max_bytes" (field "max_bytes" spool) ≫= fun _ =>
  each (fun key => _positive_int "retention" key (field key retention)) RETENTION_KEYS ≫= fun _ =>
  check_web web ≫= fun _ =>
  check_mode source database web ≫= fun _ =>
  database ← override "NODE_MONITOR_DB_URL" "url" database;
  web ← override "NODE_MONITOR_WEB_DB_URL" "database_url" web;
  nodes ← _parse_nodes (dget_or_none "nodes" raw);
  dir ← as_str (let w := dget_or_none "working_dir" raw in if truthy w then w else VStr "~/node-monitor");
  Ok (Config_ (dget_or_none "system" raw) nodes (dget_or_none "probe_python" raw) (expanduser dir)
        ssh collection classification source redaction database web retention spool).
End Config.

(** ** What an accepted configuration promises *)

Definition positive (v : value) : Prop := exists n, number v = Some n /\ num_ltb zero n = true.

Definition positive_integer (v : value) : Prop := exists z, v = VInt z /\ 0 < z.

Definition url_or_none (v : value) : Prop := v = VNone \/ exists s, v = VStr s /\ is_url s = true.

(** The fields of a dataclass, all of them and no other. *)
Definition instance_of (cls : fields) (d : dict) : Prop := dkeys d = map fst cls.

Section Valid.
Context {OS : Outside}.
Implicit Types (d raw : dict) (c : Config).

Record valid_collection d : Prop := ValidCollection {
  vc_fields : instance_of CollectionConfig d;
  vc_positive : forall key, key ∈ COLLECTION_NUMBERS -> positive (field key d);
  vc_silence : value_lt (field "counter_interval_sec" d) (field "session_silence_timeout_sec" d) = Ok true;
  vc_aligned : exists summary census, number (field "summary_interval_sec" d) = Some summary /\
    number (field "census_interval_sec" d) = Some census /\ intervals_align summary census = Ok true;
  vc_backoff : exists a b, field "reconnect_backoff_sec" d = VTuple [a; b] /\
    value_lt (VInt 0) a = Ok true /\ value_lt a b = Ok true;
}.

Record valid_nodes (ns : list NodeConfig) : Prop := ValidNodes {
  vn_some : ns <> [];
  vn_named : Forall (fun n => truthy (n_host n) = true /\ truthy (n_label n) = true /\ truthy (n_ssh_target n) = true) ns;
  vn_distinct : ForallOrdPairs (fun m n => same_label (n_label n) (n_label m) = false) ns;
}.

Record valid c : Prop := Valid {
  v_ssh : instance_of SshConfig (ssh c) /\ positive (field "connect_timeout_sec" (ssh c));
  v_collection : valid_collection (collection c);
  v_classification : instance_of ClassificationConfig (classification c) /\
    positive (field "active_cpu_seconds_per_min" (classification c)) /\
    exists z, field "min_user_uid" (classification c) = VInt z /\ 0 <= z;
  v_redaction : instance_of RedactionConfig (redaction c) /\
    exists ps, field "extra_patterns" (redaction c) = VTuple (map VStr ps) /\ Forall (fun p => re_error p = None) ps;
  v_database : instance_of DatabaseConfig (database c) /\ url_or_none (field "url" (database c)) /\
    exists n, number (field "connect_timeout_sec" (database c)) = Some n /\ num_ltb zero n = true /\ math_isfinite n = Ok true;
  v_web : instance_of WebConfig (web c) /\ url_or_none (field "database_url" (web c)) /\
    (exists s, field "host" (web c) = VStr s /\ s <> "") /\
    exists z, field "port" (web c) = VInt z /\ 1 <= z <= 65535;
  v_retention : instance_of RetentionConfig (retention c) /\
    forall key, key ∈ RETENTION_KEYS -> positive_integer (field key (retention c));
  v_spool : instance_of SpoolConfig (spool c) /\ positive_integer (field "max_bytes" (spool c));
  v_nodes : valid_nodes (nodes c);
}.

(** *** The checks *)

Lemma positive_ok w k v : _positive w k v = Ok tt -> positive v.
Proof.
  unfold _positive. destruct (number v) as [n|] eqn:En; [|done].
  destruct (num_ltb zero n) eqn:El; [|done]. intros _. by exists n.
Qed.

Lemma positive_int_ok w k v : _positive_int w k v = Ok tt -> positive_integer v.
Proof.
  unfold _positive_int. destruct v; try done. destruct (Z.ltb_spec 0 z); [|done]. intros _. by exists z.
Qed.

Lemma positive_finite_ok w k v :
  _positive_finite w k v = Ok tt ->
  exists n, number v = Some n /\ num_ltb zero n = true /\ math_isfinite n = Ok true.
Proof.
  unfold _positive_finite. intros E. ok_step E as ([] & H1 & E). apply positive_ok in H1 as (n & En & Hp).
  rewrite En in E. ok_step E as (b & Hb & E). destruct b; [|done]. by exists n.
Qed.

Lemma check_url_ok l v : _check_url l v = Ok tt -> url_or_none v.
Proof.
  unfold _check_url. destruct v; try done; [by left|]. destruct (is_url s) eqn:E; [|done]. right. by exists s.
Qed.

Lemma each_ok {A} (f : A -> res unit) l : each f l = Ok tt -> forall x, x ∈ l -> f x = Ok tt.
Proof.
  induction l as [|y l IH]; cbn; [set_solver|]. intros E. ok_step E as ([] & H & E).
  intros x [->|Hx]%elem_of_cons; auto.
Qed.

Lemma check_keys_ok w d allowed : _check_keys w d allowed = Ok tt -> forall k, k ∈ dkeys d -> k ∈ allowed.
Proof.
  unfold _check_keys. destruct (filter _ _) as [|k ks] eqn:E; [|done]. intros _ k Hk.
  destruct (decide (k ∈ allowed)) as [|Hn]; [done|]. exfalso.
  assert (k ∈ filter (fun k => k ∉ allowed) (dkeys d)) as H by (by apply list_elem_of_filter). rewrite E in H. set_solver.
Qed.

Lemma build_ok cls w d extra i :
  _build cls w d extra = Ok i ->
  instance_of cls i /\ (forall k, k ∈ dkeys d -> k ∈ map fst cls ++ extra) /\
  i = map (fun fd => (fd.1, default fd.2 (dget fd.1 d))) cls.
Proof.
  unfold _build. intros E. ok_step E as ([] & H & E). injection E as <-. split_and!; [|by eapply check_keys_ok|done].
  unfold instance_of, dkeys. rewrite map_map. done.
Qed.

(** The value of a field: the file's, or the default. *)
Lemma build_field cls w d extra i k v :
  _build cls w d extra = Ok i -> dget k cls = Some v -> field k i = default v (dget k d).
Proof.
  intros E Hk. apply build_ok in E as (_ & _ & ->). unfold field, dget_or_none.
  induction cls as [|[k' v'] cls IH]; cbn in *; [done|]. case_decide as Hd; [|auto]. subst k'. by injection Hk as ->.
Qed.

Lemma number_num v n : number v = Some n -> num_of v = Some n.
Proof. by destruct v. Qed.

Lemma number_field_ok k d n m : number_field k d = Ok n -> number (field k d) = Some m -> n = m.
Proof.
  unfold number_field. intros H1 H2%number_num. rewrite H2 in H1. by injection H1.
Qed.

Lemma validate_ok d : _validate_collection d = Ok tt ->
  (forall key, key ∈ COLLECTION_NUMBERS -> positive (field key d)) /\
  value_lt (field "counter_interval_sec" d) (field "session_silence_timeout_sec" d) = Ok true /\
  exists summary census, number (field "summary_interval_sec" d) = Some summary /\
    number (field "census_interval_sec" d) = Some census /\ intervals_align summary census = Ok true.
Proof.
  unfold _validate_collection. intros E. ok_step E as ([] & Hpos & E).
  assert (Hp : forall key, key ∈ COLLECTION_NUMBERS -> positive (field key d)).
  { intros key Hk. pose proof (each_ok _ _ Hpos key Hk) as H. by apply positive_ok in H. }
  ok_step E as (counter & Hc & E). ok_step E as (silence & Hs & E).
  destruct (Hp "counter_interval_sec") as (n1 & En1 & _); [set_solver|].
  destruct (Hp "session_silence_timeout_sec") as (n2 & En2 & _); [set_solver|].
  destruct (Hp "summary_interval_sec") as (n3 & En3 & _); [set_solver|].
  destruct (Hp "census_interval_sec") as (n4 & En4 & _); [set_solver|].
  rewrite <- (number_field_ok _ _ _ _ Hc En1) in En1. rewrite <- (number_field_ok _ _ _ _ Hs En2) in En2.
  destruct (num_ltb counter silence) eqn:Elt; [|done]. cbn [negb] in E.
  ok_step E as (summary & Hsu & E). ok_step E as (census & Hce & E). ok_step E as (b & Hb & E). destruct b; [|done].
  split_and!; [done | |].
  - unfold value_lt. by rewrite (number_num _ _ En1), (number_num _ _ En2), Elt.
  - exists summary, census. rewrite (number_field_ok _ _ _ _ Hsu En3), (number_field_ok _ _ _ _ Hce En4) in *. done.
Qed.

Lemma load_collection_ok raw d : load_collection raw = Ok d -> valid_collection d.
Proof.
  unfold load_collection. intros E. ok_step E as (data & _ & E). ok_step E as (data' & Hd & E).
  ok_step E as (d' & Hb & E). ok_step E as ([] & Hv & E). injection E as ->.
  pose proof (build_ok _ _ _ _ _ Hb) as (Hi & _ & _). destruct (validate_ok _ Hv) as (H1 & H2 & H3).
  split; [done..|]. rewrite (build_field _ _ _ _ _ "reconnect_backoff_sec" _ Hb eq_refl).
  destruct (dget "reconnect_backoff_sec" data) as [v|] eqn:Eg.
  - ok_step Hd as (o & Ho & Hd). destruct o as [[a b]|]; [|done]. injection Hd as <-.
    rewrite dget_dset_eq. cbn [default]. exists a, b. split; [done|].
    assert (Hpair : forall x y, (b0 ← value_lt (VInt 0) x;
        if negb b0 then Ok None else b1 ← value_lt x y; Ok (if (b1 : bool) then Some (x, y) else None)) = Ok (Some (a, b)) ->
        value_lt (VInt 0) a = Ok true /\ value_lt a b = Ok true).
    { intros x y Hx. ok_step Hx as (b0 & Hb0 & Hx). destruct b0; [|done]. cbn [negb] in Hx.
      ok_step Hx as (b1 & Hb1 & Hx). destruct b1; [|done]. by injection Hx as -> ->. }
    unfold backoff_pair in Ho. destruct v as [| | | | | |[|x [|y []]]|[|x [|y []]]|]; try done; eapply Hpair, Ho.
  - injection Hd as ->. rewrite Eg. cbn [default]. exists (VInt 5), (VInt 300). done.
Qed.

Lemma parse_entries_ok seen es ns :
  parse_entries seen es = Ok ns ->
  length ns = length es /\
  Forall (fun n => truthy (n_host n) = true /\ truthy (n_label n) = true /\ truthy (n_ssh_target n) = true) ns /\
  ForallOrdPairs (fun m n => same_label (n_label n) (n_label m) = false) ns /\
  Forall (fun n => Forall (fun l => same_label (n_label n) l = false) seen) ns.
Proof.
  revert seen ns. induction es as [|e es IH]; intros seen ns E; cbn [parse_entries] in E.
  { injection E as <-. split_and!; constructor. }
  ok_step E as (n & Hn & E). ok_step E as (ns' & Hns & E). injection E as <-.
  destruct (IH _ _ Hns) as (Hlen & Hf & Hd & Hs). unfold parse_node in Hn. destruct e as [| | | | | | | |e]; try done.
  ok_step Hn as ([] & _ & Hn). ok_step Hn as ([] & Hreq & Hn).
  destruct (negb _); [done|]. destruct (existsb _ _) eqn:Ex; [done|]. injection Hn as <-.
  assert (Ht : forall k, k ∈ ["host"; "label"] -> truthy (dget_or_none k e) = true).
  { intros k Hk. pose proof (each_ok _ _ Hreq k Hk) as H. cbn in H. by destruct (truthy (dget_or_none k e)). }
  split_and!; [cbn; lia | | |].
  - constructor; [|done]. cbn. split_and!; [apply Ht; set_solver..|]. case_match; [done|]. apply Ht; set_solver.
  - constructor; [|done]. rewrite Forall_forall in Hs. apply Forall_forall. intros m Hm.
    specialize (Hs m Hm). by apply Forall_cons in Hs as [Hs _].
  - constructor.
    + apply Forall_forall. intros l Hl. cbn. apply not_true_is_false. intros Hsame.
      apply not_true_iff_false in Ex. apply Ex, existsb_exists. exists l. split; [by apply list_elem_of_In | done].
    + eapply Forall_impl; [exact Hs|]. intros m Hm. by apply Forall_cons in Hm as [_ Hm].
Qed.

Lemma parse_nodes_ok v ns : _parse_nodes v = Ok ns -> valid_nodes ns.
Proof.
  unfold _parse_nodes. destruct v as [| | | | | |[|e es]| |]; try done. intros E.
  destruct (parse_entries_ok _ _ _ E) as (Hl & H1 & H2 & _). split; [|done..]. by destruct ns.
Qed.

Lemma load_redaction_ok raw d :
  load_redaction raw = Ok d ->
  instance_of RedactionConfig d /\
  exists ps, field "extra_patterns" d = VTuple (map VStr ps) /\ Forall (fun p => re_error p = None) ps.
Proof.
  unfold load_redaction. intros E. ok_step E as (data & _ & E). ok_step E as (l & _ & E). ok_step E as ([] & Hp & E).
  split; [by eapply build_ok|]. rewrite (build_field _ _ _ _ _ "extra_patterns" _ E eq_refl), dget_dset_eq. cbn [default].
  assert (H : exists ps, l = map VStr ps /\ Forall (fun p => re_error p = None) ps).
  { clear E. induction l as [|v l IH]; [by exists []|]. cbn in Hp. ok_step Hp as ([] & Hv & Hp).
    destruct (IH Hp) as (ps & -> & Hps). destruct v as [| | | |p| | | |]; try done. cbn in Hv.
    destruct (re_error p) eqn:Er; [done|]. exists (p :: ps). split; [done | by constructor]. }
  destruct H as (ps & -> & Hps). by exists ps.
Qed.

Lemma override_ok variable key d d' :
  override variable key d = Ok d' -> d' = d \/ exists s, d' = dset key (VStr s) d /\ is_url s = true.
Proof.
  unfold override. destruct (getenv variable) as [s|]; [|intros [= <-]; by left].
  case_decide; [intros [= <-]; by left|]. intros E. ok_step E as ([] & Hu & E). injection E as <-. right.
  exists s. split; [done|]. apply check_url_ok in Hu as [?|(s' & [= <-] & ?)]; done.
Qed.

(** Overriding one field of an instance leaves the others. *)
Lemma override_field cls variable key d d' k :
  override variable key d = Ok d' -> key ∈ map fst cls -> instance_of cls d ->
  instance_of cls d' /\ (k <> key -> field k d' = field k d) /\
  (url_or_none (field key d) -> url_or_none (field key d')).
Proof.
  intros E Hk Hi. destruct (override_ok _ _ _ _ E) as [->|(s & -> & Hs)]; [done|].
  unfold field, dget_or_none. split_and!.
  - unfold instance_of in *. rewrite dkeys_dset, Hi. by rewrite decide_True.
  - intros Hne. by rewrite dget_dset_ne.
  - intros _. rewrite dget_dset_eq. right. by exists s.
Qed.
End Valid.
#[export] Instance res_eq_dec {A} `{EqDecision A} : EqDecision (res A).
Proof. solve_decision. Defined.

Section Load.
Context {OS : Outside}.

Lemma check_uid_ok v : check_uid v = Ok tt -> exists z, v = VInt z /\ 0 <= z.
Proof. unfold check_uid. destruct v; try done. destruct (Z.ltb_spec z 0); [done|]. intros _. by exists z. Qed.

Lemma check_web_ok w : check_web w = Ok tt ->
  (exists s, field "host" w = VStr s /\ s <> "") /\ exists z, field "port" w = VInt z /\ 1 <= z <= 65535.
Proof.
  unfold check_web. intros E. ok_step E as ([] & Hh & E). split.
  - destruct (field "host" w); try done. case_decide; [done|]. by exists s.
  - destruct (field "port" w); try done. destruct (Z.leb_spec 1 z), (Z.leb_spec z 65535); try done. by exists z.
Qed.


(** What [dget_or_none] says of an absent section. *)
Definition file_field (raw : dict) (name key : string) : value :=
  match dget_or_none name raw with VDict d => dget_or_none key d | _ => VNone end.

Lemma section_build raw name cls w data i key :
  _section raw name = Ok data -> _build cls w data [] = Ok i -> dget key cls = Some VNone ->
  field key i = file_field raw name key.
Proof.
  intros Hs Hb Hk. rewrite (build_field _ _ _ _ _ _ _ Hb Hk). unfold file_field.
  unfold _section in Hs. destruct (dget_or_none name raw); try done; injection Hs as <-; done.
Qed.

(** A file that holds a database password is only accepted if nobody but its owner can
    read, write or run it, whatever the environment overrides afterwards. *)
Theorem load_config_private path c raw :
  load_config path = Ok c -> load_raw (source_path c) = Ok raw ->
  _has_password (file_field raw "database" "url") || _has_password (file_field raw "web" "database_url") = true ->
  exists st, st_mode (source_path c) = Ok st /\ forall b, 0 <= b < 6 -> Z.testbit st b = false.
Proof.
  intros E Hraw Hpass. unfold load_config in E.
  ok_step E as (source & Hsource & E). ok_step E as (raw' & Hraw' & E). ok_step E as (sh & _ & E).
  ok_step E as (coll & _ & E). ok_step E as (cd & _ & E). ok_step E as (cl & _ & E).
  ok_step E as ([] & _ & E). ok_step E as ([] & _ & E). ok_step E as ([] & _ & E).
  ok_step E as (red & _ & E). ok_step E as (dd & Hdd & E). ok_step E as (db & Hdb & E).
  ok_step E as (wd & Hwd & E). ok_step E as (wb & Hweb & E). ok_step E as (rd & _ & E).
  ok_step E as (ret & _ & E). ok_step E as (sd & _ & E). ok_step E as (sp & _ & E).
  do 6 ok_step E as ([] & _ & E). ok_step E as ([] & Hmode & E). ok_step E as (db' & _ & E).
  ok_step E as (web' & _ & E). ok_step E as (ns & _ & E). ok_step E as (dir & _ & E). injection E as <-.
  cbn [source_path] in *. assert (raw' = raw) as -> by congruence.
  unfold check_mode in Hmode.
  rewrite (section_build _ _ _ _ _ _ "url" Hdd Hdb eq_refl), (section_build _ _ _ _ _ _ "database_url" Hwd Hweb eq_refl), Hpass in Hmode.
  ok_step Hmode as (st & Hst & Hmode). exists st. split; [done|].
  destruct (Z.eqb_spec (Z.land (Z.land st 511) 63) 0) as [Hz|]; [|done].
  intros b Hb. rewrite <- Z.land_assoc in Hz. change (Z.land 511 63) with 63 in Hz.
  pose proof (f_equal (fun z => Z.testbit z b) Hz) as Hbit. cbn beta in Hbit.
  rewrite Z.land_spec, Z.bits_0 in Hbit. change 63 with (Z.ones 6) in Hbit.
  rewrite Z.ones_spec_low in Hbit by lia. by rewrite andb_true_r in Hbit.
Qed.
End Load.

(** ** Alignment of whole numbers of seconds *)

Definition near_hour (s : Z) : bool :=
  bool_decide ((x ← true_div (NInt 3600) (NInt s); _near_integer x) = Ok true).
Definition aligns (s c : Z) : bool := bool_decide (intervals_align (NInt s) (NInt c) = Ok true).
Definition divides (a b : Z) : bool := b mod a =? 0.

Lemma near_hour_all : forallb (fun s => Bool.eqb (near_hour s) (divides s 3600)) (seqZ 1 3600) = true.
Proof. vm_compute. reflexivity. Qed.

Lemma aligns_all :
  forallb (fun s => forallb (fun c => Bool.eqb (aligns s c) (divides c s)) (seqZ 1 s))
    (filter (fun s => divides s 3600 = true) (seqZ 1 3600)) = true.
Proof. vm_compute. reflexivity. Qed.

Lemma divides_iff a b : 1 <= a -> divides a b = true <-> (a | b).
Proof. intros Ha. unfold divides. rewrite Z.eqb_eq. apply Z.mod_divide. lia. Qed.

Lemma forallb_elem {A} (f : A -> bool) l x : forallb f l = true -> x ∈ l -> f x = true.
Proof. intros H Hx. exact (proj1 (forallb_forall f l) H x (proj1 (list_elem_of_In _ _) Hx)). Qed.

Lemma aligns_hour s c : intervals_align (NInt s) (NInt c) = Ok true -> near_hour s = true.
Proof.
  unfold intervals_align, near_hour. intros E. ok_step E as (r & _ & E). ok_step E as (n & _ & E).
  destruct (n <? 1); [done|]. ok_step E as (a & _ & E). destruct a; [|done]. by apply bool_decide_eq_true.
Qed.

(** The test on floating-point ratios is exact on whole numbers of seconds: intervals up to
    an hour are accepted when, and only when, the census divides the summary and the summary
    divides the hour. *)
Theorem whole_seconds_align s c :
  1 <= c <= s -> s <= 3600 -> intervals_align (NInt s) (NInt c) = Ok true <-> (c | s) /\ (s | 3600).
Proof.
  intros Hc Hs.
  assert (Hh : near_hour s = divides s 3600).
  { pose proof (forallb_elem _ _ s near_hour_all) as H. apply eqb_prop, H, elem_of_seqZ. lia. }
  assert (Ha : divides s 3600 = true -> aligns s c = divides c s).
  { intros Hd. pose proof (forallb_elem _ _ s aligns_all) as H.
    apply eqb_prop, (forallb_elem (fun c => Bool.eqb (aligns s c) (divides c s)) (seqZ 1 s) c).
    - apply H, list_elem_of_filter. split; [done|]. apply elem_of_seqZ. lia.
    - apply elem_of_seqZ. lia. }
  rewrite <- !divides_iff by lia. split.
  - intros E. pose proof (aligns_hour _ _ E) as Hn. rewrite Hh in Hn. split; [|done].
    rewrite <- (Ha Hn). by apply bool_decide_eq_true.
  - intros [H1 H2]. rewrite <- (Ha H2) in H1. by apply bool_decide_eq_true in H1.
Qed.

Lemma whole_seconds_align_witness :
  (intervals_align (NInt 300) (NInt 60) = Ok true <-> (60 | 300) /\ (300 | 3600)) /\
  (intervals_align (NInt 420) (NInt 60) = Ok true <-> (60 | 420) /\ (420 | 3600)).
Proof. split; apply whole_seconds_align; lia. Defined.

(** Two settings the check does not stop: an infinite interval ends in an [OverflowError], and
    an interval of [3600 * 10 ^ 9] seconds or more passes as dividing the hour. *)
Example infinite_interval : intervals_align (NFloat (S754_infinity false)) (NInt 60) = Raise OverflowError.
Proof. reflexivity. Qed.
Example endless_interval : intervals_align (NInt (4 * 10 ^ 12)) (NInt (4 * 10 ^ 12)) = Ok true.
Proof. vm_compute. reflexivity. Qed.

(** ** A file *)

Definition demo_yaml (url : string) : value :=
  VDict [("system", VStr "s"); ("probe_python", VStr "python3");
         ("nodes", VList [VDict [("host", VStr "n1.example"); ("label", VStr "n1")]]);
         ("database", VDict [("url", VStr url)])].

(** The file [/etc/nm.yaml] with the given URL and mode; [NODE_MONITOR_DB_URL] is set. *)
Definition demo_outside (url : string) (mode : Z) : Outside := {|
  getenv v := if decide (v = "NODE_MONITOR_DB_URL") then Some "postgresql://other/nm" else None;
  expanduser p := p;
  is_file p := bool_decide (p = "/etc/nm.yaml");
  read_text _ := Ok "";
  safe_load _ := inr (demo_yaml url);
  st_mode _ := Ok mode;
  re_error _ := None;
  repr _ := "?";
  netloc_rejected _ := false;
|}.

Definition secret_url : string := "postgresql://nm:pw@db/nm".


Lemma load_config_private_witness :
  exists c raw st, load_config (OS := demo_outside secret_url 33152) (Some "/etc/nm.yaml") = Ok c /\
    load_raw (OS := demo_outside secret_url 33152) (source_path c) = Ok raw /\
    st_mode (Outside := demo_outside secret_url 33152) (source_path c) = Ok st /\
    forall b, 0 <= b < 6 -> Z.testbit st b = false.
Proof.
  destruct (load_config (OS := demo_outside secret_url 33152) (Some "/etc/nm.yaml")) as [c|e] eqn:E;
    [|exfalso; vm_compute in E; discriminate].
  assert (Hr : load_raw (OS := demo_outside secret_url 33152) (source_path c) = Ok
     match demo_yaml secret_url with VDict d => d | _ => [] end) by (vm_compute; reflexivity).
  destruct (load_config_private (OS := demo_outside secret_url 33152) _ _ _ E Hr) as (st & H1 & H2);
    [vm_compute; reflexivity|].
  exists c. eexists. exists st. split; [reflexivity|]. split; [exact Hr|]. split; [exact H1 | exact H2].
Defined.

(** With mode 0644 the file is refused. *)
Example open_file_refused :
  match load_config (OS := demo_outside secret_url 33188) (Some "/etc/nm.yaml") with
  | Raise (ConfigError m) => m
  | _ => ""
  end = "/etc/nm.yaml contains a database password and must have mode 0600 (found 0644); run: chmod 600 /etc/nm.yaml".
Proof. vm_compute. reflexivity. Qed.

(** Passwords in the other places a URL can hold one, and none. *)
Example passwords_found :
  let found u := _has_password (OS := demo_outside "" 0) (VStr u) in
  map found ["postgresql://db/nm?pass%77ord=x"; "postgresql://db/nm?password="; "postgresql://nm@db/nm";
             "postgres://u:p@q@h"; "postgresql://db/nm#password=x"]
  = [true; false; false; true; false].
Proof. vm_compute. reflexivity. Qed.
