(* ===== verification/ProbeHost.v ===== *)
(** * The node the probe runs on

    What [node_monitor/probe/probe.py] asks of its host, as the class [Host]: every answer may
    depend on everything that happened before ([world]), so two reads of one /proc file can
    differ, a process can vanish between them and a clock can do what it likes.  The readers
    every collector shares ([read_text] and its errnos, [read_first_line], [os.path.join])
    are here too. *)

From Stdlib Require Import ZArith Lia.
From S2P Require Import Prelude PyFloat PyTime PyVal Codec Text.

(** An [OSError]: its errno, the name of its class and its text. *)
Record os_failure := Failure { errno : Z; f_class : string; f_text : string }.
Definition os_exn (f : os_failure) : exn := OSSub (f_class f) (f_text f).

Class Host := {
  world : Type;
  (** files: [open(p, "rb").read()], [os.readlink], [os.listdir], [os.path.isdir] *)
  slurp : string -> world -> (os_failure + string) * world;
  readlink : string -> world -> option string * world;
  listdir : string -> world -> option (list string) * world;
  isdir : string -> world -> bool * world;
  (** constants of the running system *)
  clk_tck : Z;
  page_size : Z;
  getpid : Z;
  (** the password database; [None] for [KeyError] and [OverflowError] *)
  getpwuid : Z -> world -> option string * world;
  getppid : world -> Z * world;
  (** clocks *)
  monotonic : world -> float * world;
  time_time : world -> float * world;
  sleep : float -> world -> world;
  (** [shutil.which]; a child process: [Popen], [communicate] within a time, [killpg], [poll],
      [returncode] *)
  which : string -> world -> option string * world;
  proc : Type;
  popen : list string -> world -> (os_failure + proc) * world;
  communicate : proc -> float -> world -> (exn + string * string) * world;
  killpg : proc -> world -> world;
  poll : proc -> world -> (exn + option Z) * world;
  returncode : proc -> Z;
}.

Section Host.
Context {H : Host}.

(** A question to the host. *)
Definition ask {A} (f : world -> A * world) : M world A := fun w => let '(a, w) := f w in (Ok a, w).
Definition ask_or_raise {A} (f : world -> (exn + A) * world) : M world A :=
  fun w => match f w with (inl e, w) => (Raise e, w) | (inr a, w) => (Ok a, w) end.

(** EACCES, EPERM, ENOENT, ESRCH, EINVAL, EIO, ENXIO *)
Definition _BENIGN_ERRNOS : list Z := [13; 1; 2; 3; 22; 5; 6].

Definition decoded (s : string) : string := bytes_string (decode_replace (string_bytes s)).

Definition read_text (path : string) : M world (option string) :=
  fun w => match slurp path w with
           | (inr bytes, w) => (Ok (Some (decoded bytes)), w)
           | (inl f, w) => if decide (errno f ∈ _BENIGN_ERRNOS) then (Ok None, w) else (Raise (os_exn f), w)
           end.

Definition read_first_line (path : string) : M world (option string) :=
  bind (read_text path) (fun text => ret (option_map first_line_of text)).

Definition read_link (path : string) : M world (option string) := ask (readlink path).

(** [os.path.join(base, part)], and with several parts *)
Definition ends_in_slash (s : string) : bool :=
  match rpartition_at "/" s with Some (_, "") => true | _ => false end.
Definition path_join (base part : string) : string :=
  if String.prefix "/" part then part
  else if bool_decide (base = "") || ends_in_slash base then base +:+ part
  else base +:+ "/" +:+ part.
Definition path (base : string) (parts : list string) : string := foldl path_join base parts.
Definition basename (p : string) : string := match rpartition_at "/" p with Some (_, b) => b | None => p end.

(** [roots] *)
Record roots := Roots { r_proc : string; r_sys : string; r_os_release : option string }.
Definition _proc (r : roots) (parts : list string) : string := path (r_proc r) parts.
Definition _sys (r : roots) (parts : list string) : string := path (r_sys r) parts.

(** [try: r  except ValueError: h] on a computation without state. *)
Definition on_value_error {A} (r : res A) (h : A) : res A :=
  match r with Raise (ValueError _) => Ok h | _ => r end.

Definition handle_value_error {A} (k : M world A) (e : exn) : option (M world A) :=
  match e with ValueError _ => Some k | _ => None end.
End Host.

(** ** A host at rest, for examples

    Files, links and directories are fixed; the clock advances a second each time it is read;
    there is no nvidia-smi. *)
Definition no_entry : os_failure := Failure 2 "FileNotFoundError" "[Errno 2] No such file or directory".

Definition still_host (files links : list (string * string)) (dirs : list (string * list string))
    (users : list (Z * string)) : Host := {|
  world := Z;
  slurp p w := (match dget p files with Some s => inr s | None => inl no_entry end, w);
  readlink p w := (dget p links, w);
  listdir p w := (dget p dirs, w);
  isdir p w := (bool_decide (is_Some (dget p dirs)), w);
  clk_tck := 100;
  page_size := 4096;
  getpid := 4242;
  getpwuid u w := (dget u users, w);
  getppid w := (77, w);
  monotonic w := (float_of_Z w, w + 1);
  time_time w := (float_of_Z (1700000000 + w), w);
  sleep _ w := w + 1;
  which _ w := (None, w);
  proc := unit;
  popen _ w := (inl no_entry, w);
  communicate _ _ w := (inl TimeoutExpired, w);
  killpg _ w := w;
  poll _ w := (inr None, w);
  returncode _ := 0;
|}.

Definition ascii_only : Unicode := {| wide_isdigit _ := false; wide_int _ := None; wide_float _ := None |}.
