(* ===== verification/StderrLog.v ===== *)
(** * What a session keeps of its stderr

    [_StderrLog] of [node_monitor/collector/session.py]: the bytes of stderr come in chunks
    cut anywhere; every line with something in it becomes an event, at most 20 of them, only
    the first 2000 bytes of a line and the last 2048 bytes of everything are held. *)

From Stdlib Require Import ZArith Lia ZifyBool ZifyN.
From S2P Require Import Prelude PyFloat PyTime PyVal Codec Text ProbeHost.

#[local] Open Scope string_scope.
#[local] Open Scope list_scope.
#[local] Open Scope Z_scope.

Definition STDERR_LINE_MAX_CHARS : nat := 500.
Definition STDERR_LINES_PER_SESSION : Z := 20.
Definition STDERR_TAIL_BYTES : nat := 2048.

Record stderr_log := StderrLog {
  _line : string;
  _tail : string;
  _emitted : Z;
  _suppressed : Z;
  (** the details given to [emit] so far *)
  told : list dict;
}.

Definition new_log : stderr_log := StderrLog "" "" 0 0 [].

(** [s[-n:]] for bytes *)
Definition last_bytes (n : nat) (s : string) : string := drop_chars (String.length s - n) s.

(** [text.rstrip("\r")] *)
Definition rstrip_cr (s : string) : string :=
  String.string_of_list_ascii (rev (drop_char "013" (rev (String.list_ascii_of_string s)))).

(** The text of a finished line. *)
Definition line_text (line : string) : string := take_chars STDERR_LINE_MAX_CHARS (rstrip_cr (decoded line)).

Definition _finish_line (l : stderr_log) : stderr_log :=
  let text := line_text (_line l) in
  if bool_decide (strip text = "") then StderrLog "" (_tail l) (_emitted l) (_suppressed l) (told l)
  else if _emitted l <? STDERR_LINES_PER_SESSION
  then StderrLog "" (_tail l) (_emitted l + 1) (_suppressed l) (told l ++ [[("line", VStr text)]])
  else StderrLog "" (_tail l) (_emitted l) (_suppressed l + 1) (told l).

Definition LINE_KEEP : nat := STDERR_LINE_MAX_CHARS * 4.

(** [room = keep - len(self._line); if room > 0: self._line += ...] *)
Definition extend (piece : string) (l : stderr_log) : stderr_log :=
  StderrLog (_line l +:+ prefix_of (LINE_KEEP - String.length (_line l)) piece)
    (_tail l) (_emitted l) (_suppressed l) (told l).

(** The loop over the lines of a chunk: every piece but the last ends a line. *)
Fixpoint feed_pieces (pieces : list string) (l : stderr_log) : stderr_log :=
  match pieces with
  | [] => l
  | [p] => extend p l
  | p :: ps => feed_pieces ps (_finish_line (extend p l))
  end.

Definition feed (chunk : string) (l : stderr_log) : stderr_log :=
  let tail := last_bytes STDERR_TAIL_BYTES (_tail l +:+ last_bytes STDERR_TAIL_BYTES chunk) in
  feed_pieces (lines chunk) (StderrLog (_line l) tail (_emitted l) (_suppressed l) (told l)).

Definition finish (l : stderr_log) : stderr_log :=
  let l := _finish_line l in
  if _suppressed l =? 0 then l
  else StderrLog (_line l) (_tail l) (_emitted l) (_suppressed l) (told l ++ [[("suppressed", VInt (_suppressed l))]]).

Definition tail (l : stderr_log) : string := decoded (_tail l).

(** ** The log does not depend on where the chunks are cut *)

Definition with_tail (t : string) (l : stderr_log) : stderr_log := StderrLog (_line l) t (_emitted l) (_suppressed l) (told l).
Definition with_line (t : string) (l : stderr_log) : stderr_log := StderrLog t (_tail l) (_emitted l) (_suppressed l) (told l).

(** What the log holds is bounded. *)
Record bounded_log (l : stderr_log) : Prop := {
  bl_line : (String.length (_line l) <= LINE_KEEP)%nat;
  bl_tail : (String.length (_tail l) <= STDERR_TAIL_BYTES)%nat;
  bl_emitted : 0 <= _emitted l <= STDERR_LINES_PER_SESSION;
}.

Lemma split_on_nonempty c s : split_on c s <> [].
Proof. induction s as [|a s IH]; cbn; [done|]. case_decide; [done|]. by destruct (split_on c s). Qed.

Lemma split_on_app c s t : exists ps x y qs,
  split_on c s = ps ++ [x] /\ split_on c t = y :: qs /\ split_on c (s +:+ t) = ps ++ (x +:+ y) :: qs.
Proof.
  destruct (split_on c t) as [|y qs] eqn:Et; [by apply split_on_nonempty in Et|].
  induction s as [|a s IH].
  - exists [], "", y, qs. rewrite !string_app_nil_l. by rewrite Et.
  - destruct IH as (ps & x & y' & qs' & E1 & [= <- <-] & E3). rewrite string_app_cons. cbn. rewrite E1, E3.
    case_decide; [by exists ("" :: ps), x, y, qs|].
    destruct ps as [|p ps]; cbn; [by exists [], (String a x), y, qs | by exists (String a p :: ps), x, y, qs].
Qed.

Lemma feed_pieces_app ps x l : feed_pieces (ps ++ [x]) l = extend x (foldl (fun l p => _finish_line (extend p l)) l ps).
Proof.
  revert l. induction ps as [|p ps IH]; intros l; [done|]. cbn [app feed_pieces foldl].
  destruct (ps ++ [x]) eqn:E; [by destruct ps|]. apply IH.
Qed.

Lemma extend_extend x y l : (String.length (_line l) <= LINE_KEEP)%nat -> extend y (extend x l) = extend (x +:+ y) l.
Proof.
  intros Hl. unfold extend. cbn [_line _tail _emitted _suppressed told]. f_equal.
  rewrite prefix_of_app, string_app_assoc. do 2 f_equal.
  rewrite length_app_str, length_prefix_of.
  destruct (decide (String.length x <= LINE_KEEP - String.length (_line l))%nat); [f_equal; lia|].
  replace (LINE_KEEP - _)%nat with 0%nat by lia. by replace (_ - _ - _)%nat with 0%nat by lia.
Qed.

Lemma feed_pieces_cons y qs l :
  feed_pieces (y :: qs) l = match qs with [] => extend y l | _ => feed_pieces qs (_finish_line (extend y l)) end.
Proof. by destruct qs. Qed.

Lemma finish_line_empty l : _line (_finish_line l) = "".
Proof. unfold _finish_line. destruct (bool_decide _); [done|]. by destruct (_ <? _). Qed.

Lemma feed_pieces_join ps x y qs l :
  (String.length (_line l) <= LINE_KEEP)%nat ->
  feed_pieces (y :: qs) (feed_pieces (ps ++ [x]) l) = feed_pieces (ps ++ (x +:+ y) :: qs) l.
Proof.
  intros Hl. rewrite feed_pieces_app.
  assert (H : forall l', (String.length (_line l') <= LINE_KEEP)%nat ->
            feed_pieces (y :: qs) (extend x l') = feed_pieces ((x +:+ y) :: qs) l').
  { intros l' Hl'. rewrite !feed_pieces_cons, extend_extend by done. done. }
  revert l Hl. induction ps as [|p ps IH]; intros l Hl; cbn [foldl app]; [by apply H|].
  rewrite IH; [|rewrite finish_line_empty; apply Nat.le_0_l].
  rewrite (feed_pieces_cons p). destruct ps; reflexivity.
Qed.

(** The tail goes its own way. *)
Lemma extend_tail t p l : extend p (with_tail t l) = with_tail t (extend p l).
Proof. done. Qed.
Lemma finish_line_tail t l : _finish_line (with_tail t l) = with_tail t (_finish_line l).
Proof. unfold _finish_line. cbn [_line _emitted with_tail]. destruct (bool_decide _); [done|]. by destruct (_ <? _). Qed.
Lemma feed_pieces_tail t ps l : feed_pieces ps (with_tail t l) = with_tail t (feed_pieces ps l).
Proof.
  revert l. induction ps as [|p ps IH]; intros l; [done|]. rewrite !feed_pieces_cons, extend_tail.
  destruct ps; [done|]. by rewrite finish_line_tail, IH.
Qed.
Lemma extend_keeps_tail p l : _tail (extend p l) = _tail l.
Proof. done. Qed.
Lemma finish_keeps_tail l : _tail (_finish_line l) = _tail l.
Proof. unfold _finish_line. destruct (bool_decide _); [done|]. by destruct (_ <? _). Qed.
Lemma feed_pieces_keeps_tail ps l : _tail (feed_pieces ps l) = _tail l.
Proof.
  revert l. induction ps as [|p ps IH]; intros l; [done|]. rewrite feed_pieces_cons. destruct ps; [done|].
  by rewrite IH, finish_keeps_tail.
Qed.

Lemma last_bytes_left n x y : last_bytes n (last_bytes n x +:+ y) = last_bytes n (x +:+ y).
Proof.
  unfold last_bytes. rewrite !length_app_str, length_drop_chars.
  destruct (decide (String.length x <= n)%nat) as [Hl|Hl].
  { replace (String.length x - n)%nat with 0%nat by lia. cbn [drop_chars]. by rewrite Nat.sub_0_r. }
  set (k := (String.length x - n)%nat). assert (E : x +:+ y = prefix_of k x +:+ (drop_chars k x +:+ y)) by by rewrite <- string_app_assoc, prefix_drop.
  rewrite E.
  assert (Hp : String.length (prefix_of k x) = k) by (rewrite length_prefix_of; lia).
  replace (String.length x + String.length y - n)%nat with (String.length (prefix_of k x) + String.length y)%nat by lia.
  rewrite drop_chars_past. f_equal. lia.
Qed.

Lemma last_bytes_right n x y : last_bytes n (x +:+ last_bytes n y) = last_bytes n (x +:+ y).
Proof.
  unfold last_bytes. rewrite !length_app_str, length_drop_chars.
  destruct (decide (String.length y <= n)%nat) as [Hl|Hl].
  { replace (String.length y - n)%nat with 0%nat by lia. cbn [drop_chars]. by rewrite Nat.sub_0_r. }
  replace (String.length x + (String.length y - (String.length y - n)) - n)%nat with (String.length x + 0)%nat by lia.
  replace (String.length x + String.length y - n)%nat with (String.length x + (String.length y - n))%nat by lia.
  by rewrite !drop_chars_past.
Qed.

Lemma length_last_bytes n s : (String.length (last_bytes n s) <= n)%nat.
Proof. unfold last_bytes. rewrite length_drop_chars. lia. Qed.

Lemma feed_eq chunk l :
  feed chunk l = with_tail (last_bytes STDERR_TAIL_BYTES (_tail l +:+ chunk)) (feed_pieces (lines chunk) l).
Proof. unfold feed. rewrite last_bytes_right. apply (feed_pieces_tail _ _ l). Qed.

Lemma feed_app a b l : bounded_log l -> feed b (feed a l) = feed (a +:+ b) l.
Proof.
  intros [Hl Ht He]. rewrite !feed_eq, feed_pieces_tail.
  destruct (split_on_app newline a b) as (ps & x & y & qs & E1 & E2 & E3). unfold lines. rewrite E1, E2, E3.
  rewrite feed_pieces_join by done. unfold with_tail. cbn [_tail]. by rewrite last_bytes_left, string_app_assoc.
Qed.

Lemma extend_bounded p l : bounded_log l -> bounded_log (extend p l).
Proof.
  intros [Hl Ht He]. split; cbn [extend _line _tail _emitted]; [|done|done]. rewrite length_app_str, length_prefix_of. lia.
Qed.
Lemma finish_line_bounded l : bounded_log l -> bounded_log (_finish_line l).
Proof.
  intros [Hl Ht He]. unfold _finish_line.
  destruct (bool_decide _); [|destruct (Z.ltb_spec (_emitted l) STDERR_LINES_PER_SESSION)];
    split; cbn [_line _tail _emitted String.length]; try done; lia.
Qed.
Lemma feed_pieces_bounded ps l : bounded_log l -> bounded_log (feed_pieces ps l).
Proof.
  revert l. induction ps as [|p ps IH]; intros l Hl; [done|]. rewrite feed_pieces_cons.
  destruct ps; [by apply extend_bounded|]. by apply IH, finish_line_bounded, extend_bounded.
Qed.
Lemma feed_bounded chunk l : bounded_log l -> bounded_log (feed chunk l).
Proof.
  intros Hl. rewrite feed_eq. destruct (feed_pieces_bounded (lines chunk) l Hl) as [H1 H2 H3].
  split; cbn [with_tail _line _tail _emitted]; [done | apply length_last_bytes | done].
Qed.

Fixpoint joined_up (chunks : list string) : string := match chunks with [] => "" | c :: cs => c +:+ joined_up cs end.

Lemma feed_nil l : bounded_log l -> feed "" l = l.
Proof.
  intros [Hl Ht _]. rewrite feed_eq. change (lines "") with [""]. cbn [feed_pieces].
  unfold extend, with_tail. cbn [_line _tail _emitted _suppressed told].
  assert (E : forall n, prefix_of n "" = "") by (by intros []). rewrite E, !string_app_nil_r.
  unfold last_bytes. replace (String.length (_tail l) - STDERR_TAIL_BYTES)%nat with 0%nat by lia.
  by destruct l.
Qed.

Lemma feed_all chunks l : bounded_log l -> foldl (fun l c => feed c l) l chunks = feed (joined_up chunks) l.
Proof.
  revert l. induction chunks as [|c cs IH]; intros l Hl; cbn [foldl joined_up]; [by rewrite feed_nil|].
  rewrite IH by by apply feed_bounded. by apply feed_app.
Qed.

(** ** What a session's stderr becomes *)

(** The lines with something in them, as they are shown. *)
Definition shown (stderr : string) : list string :=
  filter (fun t => strip t <> "") (map (fun line => line_text (prefix_of LINE_KEEP line)) (lines stderr)).

(** The first 20 of them, then how many there were beyond. *)
Definition stderr_events (stderr : string) : list dict :=
  let ls := shown stderr in
  map (fun t => [("line", VStr t)]) (take 20 ls) ++
  (if (length ls <=? 20)%nat then [] else [[("suppressed", VInt (Z.of_nat (length ls) - 20))]]).

Definition end_line (l : stderr_log) (piece : string) : stderr_log := _finish_line (extend piece l).

Lemma finish_pieces y qs l : _finish_line (feed_pieces (y :: qs) l) = foldl end_line l (y :: qs).
Proof.
  revert y l. induction qs as [|q qs IH]; intros y l; [done|]. rewrite feed_pieces_cons, IH. done.
Qed.

Lemma end_line_spec p l : _line l = "" -> 0 <= _emitted l ->
  let t := line_text (prefix_of LINE_KEEP p) in
  end_line l p =
    if bool_decide (strip t = "") then l
    else if _emitted l <? STDERR_LINES_PER_SESSION
    then StderrLog "" (_tail l) (_emitted l + 1) (_suppressed l) (told l ++ [[("line", VStr t)]])
    else StderrLog "" (_tail l) (_emitted l) (_suppressed l + 1) (told l).
Proof.
  intros Hl He t. unfold end_line, _finish_line, extend. cbn [_line _tail _emitted _suppressed told].
  rewrite Hl, string_app_nil_l. change (LINE_KEEP - String.length "")%nat with (LINE_KEEP - 0)%nat. rewrite Nat.sub_0_r.
  fold t. destruct (bool_decide (strip t = "")); [|done]. destruct l; cbn in *. by rewrite Hl.
Qed.

Lemma end_lines_spec ps l : _line l = "" -> 0 <= _emitted l <= 20 -> (_suppressed l = 0 \/ _emitted l = 20) -> 0 <= _suppressed l ->
  let ls := filter (fun t => strip t <> "") (map (fun p => line_text (prefix_of LINE_KEEP p)) ps) in
  let n := Z.to_nat (20 - _emitted l) in
  foldl end_line l ps =
    StderrLog "" (_tail l) (_emitted l + Z.of_nat (Nat.min n (length ls)))
      (_suppressed l + Z.of_nat (length ls - n)) (told l ++ map (fun t => [("line", VStr t)]) (take n ls)).
Proof.
  revert l. induction ps as [|p ps IH]; intros l Hl He Hs H0; cbn [map foldl].
  { rewrite filter_nil. cbn zeta. cbn [length]. rewrite Nat.min_0_r, take_nil, !Z.add_0_r. cbn [map].
    rewrite app_nil_r. destruct l; cbn in *. by rewrite Hl. }
  rewrite end_line_spec by (done || lia). set (t := line_text (prefix_of LINE_KEEP p)). cbv zeta. rewrite filter_cons.
  case_bool_decide as Ht.
  { rewrite decide_False by (by intros Hn). by apply IH. }
  rewrite decide_True by done. set (ls := filter _ _) in *. unfold STDERR_LINES_PER_SESSION.
  destruct (Z.ltb_spec (_emitted l) 20) as [Hlt|Hge].
  - rewrite IH; cbn [_line _tail _emitted _suppressed told]; [|done|lia|lia|lia].
    fold ls. destruct (Z.to_nat (20 - _emitted l)) as [|n] eqn:En; [lia|].
    replace (Z.to_nat (20 - (_emitted l + 1))) with n by lia. cbn [take length map Nat.min Nat.sub].
    rewrite <- app_assoc. f_equal; lia.
  - rewrite IH; cbn [_line _tail _emitted _suppressed told]; [|done|lia|lia|lia].
    fold ls. replace (Z.to_nat (20 - _emitted l)) with 0%nat by lia. cbn [take length map Nat.min Nat.sub].
    rewrite Nat.sub_0_r. f_equal; lia.
Qed.

Lemma new_bounded : bounded_log new_log.
Proof. split; cbn [_line _tail _emitted new_log String.length]; [apply Nat.le_0_l..|]. unfold STDERR_LINES_PER_SESSION. lia. Qed.

(** A session's stderr is reported the same however its bytes are cut into chunks: once it
    ends, the events are its first 20 lines with something in them and, if there were more, how
    many; the tail is the last 2048 bytes of everything; and on the way the log never holds
    more than 2000 bytes of a line and 2048 of the tail. *)
Theorem stderr_by_lines chunks :
  let l := foldl (fun l c => feed c l) new_log chunks in
  told (finish l) = stderr_events (joined_up chunks) /\
  _tail (finish l) = last_bytes STDERR_TAIL_BYTES (joined_up chunks) /\
  bounded_log l.
Proof.
  intros l. assert (El : l = feed (joined_up chunks) new_log) by (apply feed_all, new_bounded).
  assert (Hb : bounded_log l) by (rewrite El; apply feed_bounded, new_bounded). split; [|split; [|exact Hb]].
  - rewrite El, feed_eq. unfold finish. rewrite finish_line_tail. unfold stderr_events, shown.
    destruct (lines (joined_up chunks)) as [|y qs] eqn:Ep; [by apply split_on_nonempty in Ep|].
    rewrite finish_pieces, end_lines_spec by (cbn; lia || by left || done). cbn zeta. cbn [with_tail _suppressed told _emitted new_log app].
    set (ls := filter _ _). change (Z.to_nat (20 - 0)) with 20%nat. rewrite Z.add_0_l.
    destruct (Nat.leb_spec (length ls) 20) as [Hle|Hgt].
    + replace (length ls - 20)%nat with 0%nat by lia. cbn [Z.of_nat Z.eqb told]. by rewrite app_nil_r.
    + replace (Z.of_nat (length ls - 20) =? 0) with false by lia. cbn [told]. by replace (Z.of_nat (length ls - 20)) with (Z.of_nat (length ls) - 20) by lia.
  - rewrite El, feed_eq. unfold finish. rewrite finish_line_tail.
    case_match; cbn [with_tail _tail]; by rewrite string_app_nil_l.
Qed.
