(* ===== verification/Session.v ===== *)
(** * A node's probe session

    [node_monitor/collector/session.py]: the coroutine that runs one ssh session after another
    for a node, delivers the probe's lines and reports how each session begins and ends.
    asyncio, the ssh process and the clock are the class [Remote]: where the coroutine awaits,
    its answer is what came first (a line, the timeout, stop), and the stderr the drainer read
    meanwhile.  The callbacks are the [trace]: what [on_message] and [on_event] were called
    with, in order; they do not raise (Daemon.v has the ones the daemon gives). *)

From Stdlib Require Import ZArith Lia.
From S2P Require Import Prelude PyFloat PyTime PyVal Codec Text ProbeHost StderrLog.

#[local] Open Scope string_scope.
#[local] Open Scope list_scope.
#[local] Open Scope Z_scope.

Definition STREAM_LIMIT : Z := 32 * 1024 * 1024.
Definition MALFORMED_SAMPLE_CHARS : nat := 200.
Definition TERM_GRACE_SEC : float := float_of_Z 5.
Definition KILL_WAIT_SEC : float := float_of_Z 5.
Definition ROTATE_EOF_WAIT_SEC : float := float_of_Z 10.
Definition EXIT_GRACE_SEC : float := float_of_Z 1.
Definition GROUP_POLL_SEC : float := flit 2 2.
Definition MAX_BACKOFF_DOUBLINGS : Z := 30.
Definition TERM : Z := 15.
Definition KILL : Z := 9.

(** What a bounded [readline] ends with: a line (empty at EOF), the timeout, a line over the
    limit, or the cancellation that stop brings. *)
Inductive read_result := GotLine (raw : string) | TimedOut | TooLong | Cancelled.

Class Remote := {
  remote : Type;
  stop_is_set : remote -> bool * remote;
  clock : remote -> float * remote;
  (** [create_subprocess_exec]: the text of the [OSError], or the pid *)
  spawn : list string -> remote -> (string + Z) * remote;
  (** the payload written by the feeder; [proc.stdin.close()] *)
  write_payload : string -> remote -> remote;
  close_stdin : remote -> remote;
  readline : float -> remote -> read_result * remote;
  (** the chunks of stderr read since it was last asked *)
  stderr_read : remote -> list string * remote;
  (** [_within(proc.wait(), timeout)]: whether it exited in time; [proc.returncode] *)
  exits_within : float -> remote -> bool * remote;
  returncode : remote -> option Z;
  signal_group : Z -> Z -> remote -> remote;
  group_exists : Z -> remote -> bool * remote;
  nap : float -> remote -> remote;
  (** [random.random()], and [_within(self._stop.wait(), delay)] *)
  random : remote -> float * remote;
  wait_stop : float -> remote -> remote;
}.

Inductive happening :=
| Event (kind : string) (detail : dict)
| Message (msg : dict).

(** The session object, with what it told its owner. *)
Record node_session (R : Type) := NodeSession {
  env : R;
  (** [self._stop]: once set it stays set *)
  _stop : bool;
  _proc : option Z;
  _boot_id : value;
  _bye_reason : option string;
  log : stderr_log;
  trace : list happening;
}.
Arguments NodeSession {R}.
Arguments env {R}.
Arguments _stop {R}.
Arguments _proc {R}.
Arguments _boot_id {R}.
Arguments _bye_reason {R}.
Arguments log {R}.
Arguments trace {R}.

(** [__init__] *)
Record session_config := SessionConfig {
  argv : list string;
  payload : string;
  silence_timeout : float;
  max_lifetime : float;
  backoff : float * float;
  healthy_after : float;
}.

Inductive pump_end := PEof | PDeadline | PSilence | PStopped.
Inductive outcome := SpawnFailed | Eof | Exited | Silent | Rotate | Stop.

(** The names of the outcomes that are reported as losses. *)
Definition outcome_name (o : outcome) : string :=
  match o with
  | SpawnFailed => "spawn_failed" | Eof => "eof" | Exited => "exit" | Silent => "silence"
  | Rotate => "rotate" | Stop => "stop"
  end.

Section Session.
Context {R : Remote} {JT : JsonText} (cfg : session_config) (fuel : nat).
Abbreviation ns := (node_session remote).
#[local] Open Scope py_scope.
#[local] Open Scope string_scope.
#[local] Open Scope list_scope.
#[local] Open Scope Z_scope.

Definition set_env (r : remote) (s : ns) : ns := NodeSession r (_stop s) (_proc s) (_boot_id s) (_bye_reason s) (log s) (trace s).
Definition set_stop b (s : ns) : ns := NodeSession (env s) b (_proc s) (_boot_id s) (_bye_reason s) (log s) (trace s).
Definition set_proc p (s : ns) : ns := NodeSession (env s) (_stop s) p (_boot_id s) (_bye_reason s) (log s) (trace s).
Definition set_boot_id b (s : ns) : ns := NodeSession (env s) (_stop s) (_proc s) b (_bye_reason s) (log s) (trace s).
Definition set_bye_reason b (s : ns) : ns := NodeSession (env s) (_stop s) (_proc s) (_boot_id s) b (log s) (trace s).
Definition set_log l (s : ns) : ns := NodeSession (env s) (_stop s) (_proc s) (_boot_id s) (_bye_reason s) l (trace s).
Definition tell (h : happening) (s : ns) : ns := NodeSession (env s) (_stop s) (_proc s) (_boot_id s) (_bye_reason s) (log s) (trace s ++ [h]).

(** A question to the outside, and an action on it. *)
Definition asks {A} (f : remote -> A * remote) : M ns A :=
  fun s => let '(a, r) := f (env s) in (Ok a, set_env r s).
Definition acts (f : remote -> remote) : M ns unit := modify (fun s => set_env (f (env s)) s).

(** [self._stop.is_set()] *)
Definition is_set : M ns bool :=
  let* now := asks stop_is_set in
  modify (fun s => set_stop (_stop s || now) s) ;;;
  gets _stop.

Definition _event (kind : string) (detail : dict) : M ns unit := modify (tell (Event kind detail)).

(** The log is fed and what it emits becomes events. *)
Definition with_log (f : stderr_log -> stderr_log) : M ns unit :=
  let* l := gets log in
  modify (set_log (f l)) ;;;
  foldM (fun _ d => _event "probe_stderr" d) tt (drop (length (told l)) (told (f l))).
Definition drain : M ns unit :=
  let* chunks := asks stderr_read in
  foldM (fun _ c => with_log (feed c)) tt chunks.

(** ** Lines *)

Definition _note_boot_id (boot_id : value) : M ns unit :=
  match boot_id with
  | VNone => ret tt
  | _ =>
      let* known := gets _boot_id in
      when (match known with VNone => false | _ => negb (py_eq boot_id known) end)
        (_event "node_rebooted" [("old_boot_id", known); ("new_boot_id", boot_id)]) ;;;
      modify (set_boot_id boot_id)
  end.

Definition without_newline (raw : string) : string :=
  match rpartition_at newline raw with Some (text, "") => text | _ => raw end.

Definition malformed (text : string) : dict :=
  [("bytes", VInt (Z.of_nat (String.length text)));
   ("sample", VStr (take_chars MALFORMED_SAMPLE_CHARS (decoded (prefix_of (MALFORMED_SAMPLE_CHARS * 4) text))))].

(** The reason of a bye. *)
Definition bye_of (msg : dict) : string :=
  match dget_or_none "reason" msg with
  | VStr "" => "bye"
  | VStr r => r
  | _ => "bye"
  end.

Definition is_type (t : string) (msg : dict) : bool :=
  match dget_or_none "type" msg with VStr s => bool_decide (s = t) | _ => false end.

Definition _handle_line (raw : string) : M ns unit :=
  let text := without_newline raw in
  match loads text with
  | Some (VDict msg) =>
      (if is_type "hello" msg then _note_boot_id (dget_or_none "boot_id" msg)
       else if is_type "bye" msg then modify (set_bye_reason (Some (bye_of msg)))
       else ret tt) ;;;
      modify (tell (Message msg))
  | _ => _event "malformed_line" (malformed text)
  end.

Fixpoint _pump (n : nat) (deadline : float) (silence : option float) : M ns pump_end :=
  match n with
  | O => raise Hang
  | S n =>
      let* now := asks clock in
      let remaining := fsub deadline now in
      if fleb remaining fzero then ret PDeadline
      else
        let by_deadline := match silence with None => true | Some s => fltb remaining s end in
        let* got := asks (readline (if by_deadline then remaining else default remaining silence)) in
        drain ;;;
        match got with
        | TimedOut => ret (if by_deadline then PDeadline else PSilence)
        | TooLong =>
            _event "malformed_line" [("bytes", VInt STREAM_LIMIT); ("sample", VStr "")] ;;;
            _pump n deadline silence
        | Cancelled => modify (set_stop true) ;;; ret PStopped
        | GotLine "" => ret PEof
        | GotLine raw => _handle_line raw ;;; _pump n deadline silence
        end
  end.

Definition _stream (started : float) : M ns outcome :=
  let* e := _pump fuel (fadd started (max_lifetime cfg)) (Some (silence_timeout cfg)) in
  let* bye := gets _bye_reason in
  ret (match e with
       | PStopped => Stop
       | PDeadline => Rotate
       | PEof => match bye with Some _ => Rotate | None => Eof end
       | PSilence => match bye with Some _ => Rotate | None => Silent end
       end).

(** ** The process group *)

Fixpoint group_vanishes (n : nat) (pid : Z) (deadline : float) : M ns bool :=
  match n with
  | O => raise Hang
  | S n =>
      let* there := asks (group_exists pid) in
      if negb there then ret true
      else
        let* now := asks clock in
        if fleb deadline now then ret false
        else acts (nap GROUP_POLL_SEC) ;;; group_vanishes n pid deadline
  end.

Definition _group_gone (pid : Z) (timeout : float) : M ns bool :=
  let* now := asks clock in
  let* exited := asks (exits_within timeout) in
  if negb exited then ret false else group_vanishes fuel pid (fadd now timeout).

Definition _end_process_group (pid : Z) : M ns unit :=
  acts (signal_group pid TERM) ;;;
  let* gone := _group_gone pid TERM_GRACE_SEC in
  if gone : bool then ret tt
  else acts (signal_group pid KILL) ;;; _group_gone pid KILL_WAIT_SEC ;;; ret tt.

(** ** One session *)

(** [finally] of [_session] *)
Definition wind_up (pid : Z) : M ns unit :=
  acts close_stdin ;;;
  _end_process_group pid ;;;
  drain ;;;
  modify (set_proc None).

(** The body of its [try]: the outcome, and when it ended. *)
Definition session_body (started : float) : M ns (outcome * float) :=
  let* o := _stream started in
  let* ended := asks clock in
  match o with
  | Rotate | Stop =>
      acts close_stdin ;;;
      let* now := asks clock in
      _pump fuel (fadd now ROTATE_EOF_WAIT_SEC) None ;;;
      ret (o, ended)
  | Eof =>
      let* exited := asks (exits_within EXIT_GRACE_SEC) in
      ret (if exited : bool then Exited else Eof, ended)
  | _ => ret (o, ended)
  end.

Definition uptime_of (started ended : float) : float := fsub ended started.
Definition rounded (f : float) : value := VFloat (round_digits 3 f).

(** The report of how the session ended. *)
Definition report_end (o : outcome) (uptime : float) : M ns unit :=
  match o with
  | Rotate =>
      let* bye := gets _bye_reason in
      _event "session_rotated"
        [("uptime_sec", rounded uptime); ("reason", VStr (default "max_lifetime" bye))]
  | Stop => ret tt
  | _ =>
      let* code := gets (fun s => returncode (env s)) in
      let* l := gets log in
      _event "session_lost"
        [("reason", VStr (outcome_name o)); ("exit_code", val_opt VInt code); ("uptime_sec", rounded uptime);
         ("stderr_tail", VStr (tail l))]
  end.

Definition spawned (attempt : Z) (pid : Z) : M ns (outcome * float) :=
  modify (set_bye_reason None) ;;;
  let* started := asks clock in
  modify (set_proc (Some pid)) ;;;
  _event "session_started" [("attempt", VInt attempt); ("pid", VInt pid)] ;;;
  modify (set_log new_log) ;;;
  acts (write_payload (payload cfg)) ;;;
  let* ' (o, ended) := (fun s =>
    match session_body started s with
    | (Ok r, s') => (wind_up pid ;;; ret r) s'
    | (Raise Hang, s') => (Raise Hang, s')
    | (Raise e, s') => (wind_up pid ;;; raise e) s'
    end) in
  with_log finish ;;;
  report_end o (uptime_of started ended) ;;;
  ret (o, uptime_of started ended).

Definition _session (attempt : Z) : M ns (outcome * float) :=
  let* p := asks (spawn (argv cfg)) in
  match p with
  | inl err =>
      _event "session_lost"
        [("reason", VStr "spawn_failed"); ("exit_code", VNone); ("uptime_sec", VFloat fzero);
         ("stderr_tail", VStr (last_chars STDERR_TAIL_BYTES err))] ;;;
      ret (SpawnFailed, fzero)
  | inr pid => spawned attempt pid
  end.

(** ** run *)

Definition py_min (a b : float) : float := if fltb b a then b else a.

Definition backoff_delay (failures : Z) (r : float) : float :=
  let base := fmul (fst (backoff cfg)) (float_of_Z (2 ^ Z.min (failures - 1) MAX_BACKOFF_DOUBLINGS)) in
  fmul (py_min (snd (backoff cfg)) base) (fadd (flit 5 1) (fdiv r (float_of_Z 2))).

(** What the loop does after a session: [None] when it stops, or the failures so far. *)
Definition after_session (o : outcome) (uptime : float) (failures : Z) : M ns (option Z) :=
  let failures := if fleb (healthy_after cfg) uptime then 0 else failures in
  let* stopped := is_set in
  if stopped : bool then ret None
  else
    let* bye := gets _bye_reason in
    if match o with Rotate => true | _ => false end && (bool_decide (bye = None) || fleb (healthy_after cfg) uptime)
    then ret (Some failures)
    else
      let failures := failures + 1 in
      let* r := asks random in
      let delay := backoff_delay failures r in
      _event "reconnect_wait" [("delay_sec", rounded delay); ("failures", VInt failures)] ;;;
      acts (wait_stop delay) ;;;
      ret (Some failures).

(** The loop; [false] when it has not stopped after [n] sessions. *)
Fixpoint run_loop (n : nat) (attempt failures : Z) : M ns bool :=
  match n with
  | O => ret false
  | S n =>
      let* stopped := is_set in
      if stopped : bool then ret true
      else
        let* ' (o, uptime) := _session (attempt + 1) in
        let* next := after_session o uptime failures in
        match next with
        | None => ret true
        | Some failures => run_loop n (attempt + 1) failures
        end
  end.

Definition run (n : nat) : M ns bool := run_loop n 0 0.

Definition new_session (r : remote) : ns := NodeSession r false None VNone None new_log [].
End Session.

(** ** The life of the sessions, in the events *)

(** Where a trace leaves the session: none yet (or a wait is over), one under way (and whether
    the probe said bye), lost, or rotated. *)
Inductive phase := Idle | Running (bye : bool) | Lost | Rotated.

Definition start_phase (kind : string) : option phase :=
  if decide (kind = "session_started") then Some (Running false)
  else if decide (kind = "session_lost") then Some Lost
  else None.

(** What may come next. *)
Definition next_phase (p : phase) (h : happening) : option phase :=
  match p, h with
  | Idle, Event kind _ => start_phase kind
  | Rotated, Event kind _ => if decide (kind = "reconnect_wait") then Some Idle else start_phase kind
  | Lost, Event kind _ => if decide (kind = "reconnect_wait") then Some Idle else None
  | Running bye, Event kind _ =>
      if decide (kind ∈ ["malformed_line"; "probe_stderr"; "node_rebooted"]) then Some (Running bye)
      else if decide (kind = "session_rotated") then Some Rotated
      else if decide (kind = "session_lost") then (if bye then None else Some Lost)
      else None
  | Running bye, Message msg => Some (Running (bye || is_type "bye" msg))
  | _, Message _ => None
  end.

Definition phase_of (t : list happening) : option phase :=
  foldl (fun p h => p ≫= fun p => next_phase p h) (Some Idle) t.

Lemma phase_of_snoc t h p : phase_of t = Some p -> phase_of (t ++ [h]) = next_phase p h.
Proof. intros Hp. unfold phase_of in *. rewrite foldl_app. cbn. by rewrite Hp. Qed.

(** ** Reboots, in the events *)

Definition boot_of (msg : dict) : value := if is_type "hello" msg then dget_or_none "boot_id" msg else VNone.

(** The boot id known after a trace in which [node_rebooted] is told exactly where a hello's
    boot id differs from the one known before, and just before that hello. *)
Inductive rebooting : value -> list happening -> Prop :=
| rb_none : rebooting VNone []
| rb_event k t kind d : kind <> "node_rebooted" -> rebooting k t -> rebooting k (t ++ [Event kind d])
| rb_message k t msg : boot_of msg = VNone -> rebooting k t -> rebooting k (t ++ [Message msg])
| rb_same k t msg : boot_of msg <> VNone -> k = VNone \/ py_eq (boot_of msg) k = true -> rebooting k t ->
    rebooting (boot_of msg) (t ++ [Message msg])
| rb_reboot k t msg : boot_of msg <> VNone -> k <> VNone -> py_eq (boot_of msg) k = false -> rebooting k t ->
    rebooting (boot_of msg)
      ((t ++ [Event "node_rebooted" [("old_boot_id", k); ("new_boot_id", boot_of msg)]]) ++ [Message msg]).

#[local] Instance vnone_dec (v : value) : Decision (v = VNone).
Proof. destruct v; first [by left | by right]. Defined.

Section Life.
Context {R : Remote} {JT : JsonText} (cfg : session_config) (fuel : nat).
Abbreviation ns := (node_session remote).
Implicit Types (s : ns).

Definition said_bye s : bool := match _bye_reason s with Some _ => true | None => false end.
Definition rebooted s : Prop := rebooting (_boot_id s) (trace s).

(** A session under way; one may begin. *)
Definition running s : Prop := phase_of (trace s) = Some (Running (said_bye s)) /\ rebooted s.
Definition ready s : Prop := (phase_of (trace s) = Some Idle \/ phase_of (trace s) = Some Rotated) /\ rebooted s.
Definition in_phase (p : phase) s : Prop := phase_of (trace s) = Some p /\ rebooted s.

Lemma keeps_asks {A} (I : ns -> Prop) (f : remote -> A * remote) : (forall s r, I s -> I (set_env r s)) -> keeps I (asks f).
Proof. intros HI s Hs. unfold asks. destruct (f (env s)). by apply HI. Qed.
Lemma keeps_acts (I : ns -> Prop) f : (forall s r, I s -> I (set_env r s)) -> keeps I (acts f).
Proof. intros HI. apply keeps_modify. auto. Qed.
Lemma keeps_is_set (I : ns -> Prop) : (forall s r, I s -> I (set_env r s)) -> (forall s b, I s -> I (set_stop b s)) -> keeps I is_set.
Proof.
  intros H1 H2. apply keeps_bind; [by apply keeps_asks|]. intros b. apply keeps_bind; [|intros; apply keeps_gets].
  apply keeps_modify. auto.
Qed.

Lemma running_env s r : running s -> running (set_env r s).
Proof. done. Qed.
Lemma running_stop s b : running s -> running (set_stop b s).
Proof. done. Qed.
Lemma running_logged s l : running s -> running (set_log l s).
Proof. done. Qed.
Lemma running_proc s p : running s -> running (set_proc p s).
Proof. done. Qed.

Lemma running_event kind d s :
  kind ∈ ["malformed_line"; "probe_stderr"] -> running s -> running (tell (Event kind d) s).
Proof.
  intros Hk [Hp Hr]. split.
  - unfold tell. cbn [trace]. erewrite phase_of_snoc by exact Hp. cbn [next_phase].
    rewrite decide_True by (rewrite !elem_of_cons in *; tauto). done.
  - apply rb_event; [|done]. intros ->. revert Hk. apply (bool_decide_unpack _). vm_compute. exact I.
Qed.

Lemma keeps_event kind d : kind ∈ ["malformed_line"; "probe_stderr"] -> keeps running (_event kind d).
Proof. intros Hk. apply keeps_modify. intros s. by apply running_event. Qed.

Lemma keeps_with_log f : keeps running (with_log f).
Proof.
  apply keeps_bind; [apply keeps_gets|]. intros l. apply keeps_bind; [apply keeps_modify; intros; by apply running_logged|].
  intros _. apply keeps_foldM. intros _ d. apply keeps_event. set_solver.
Qed.

Lemma keeps_drain : keeps running drain.
Proof.
  apply keeps_bind; [apply keeps_asks, running_env|]. intros chunks. apply keeps_foldM. intros _ c. apply keeps_with_log.
Qed.

Lemma is_type_one a b msg : is_type a msg = true -> is_type b msg = true -> a = b.
Proof.
  unfold is_type. destruct (dget_or_none "type" msg); try discriminate.
  intros ->%bool_decide_eq_true Hb%bool_decide_eq_true. done.
Qed.

(** A message told after the boot id and the bye were noted. *)
Lemma keeps_message msg :
  keeps running (bind (if is_type "hello" msg then _note_boot_id (dget_or_none "boot_id" msg)
                       else if is_type "bye" msg then modify (set_bye_reason (Some (bye_of msg)))
                       else ret tt) (fun _ => modify (tell (Message msg)))).
Proof.
  intros s [Hp Hr]. destruct (is_type "hello" msg) eqn:Eh.
  - assert (Eb : is_type "bye" msg = false).
    { apply not_true_is_false. intros Eb. by pose proof (is_type_one _ _ _ Eh Eb). }
    assert (Hbo : boot_of msg = dget_or_none "boot_id" msg) by (unfold boot_of; by rewrite Eh).
    assert (Hmsg : forall t, phase_of t = Some (Running (said_bye s)) -> phase_of (t ++ [Message msg]) = Some (Running (said_bye s))).
    { intros t Ht. erewrite phase_of_snoc by exact Ht. cbn. by rewrite Eb, orb_false_r. }
    unfold _note_boot_id, rebooted in *. rewrite <- Hbo.
    destruct (decide (boot_of msg = VNone)) as [En|En].
    { rewrite En. split; cbn; [by apply Hmsg | by apply rb_message]. }
    assert (Em : bind (match boot_of msg with
        | VNone => ret tt
        | _ => bind (gets _boot_id) (fun known =>
               bind (when (match known with VNone => false | _ => negb (py_eq (boot_of msg) known) end)
                 (_event "node_rebooted" [("old_boot_id", known); ("new_boot_id", boot_of msg)])) (fun _ =>
               modify (set_boot_id (boot_of msg)))) end) (fun _ => modify (tell (Message msg))) s
      = (Ok tt, let t := if match _boot_id s with VNone => false | _ => negb (py_eq (boot_of msg) (_boot_id s)) end
                         then tell (Event "node_rebooted" [("old_boot_id", _boot_id s); ("new_boot_id", boot_of msg)]) s else s in
                tell (Message msg) (set_boot_id (boot_of msg) t))).
    { destruct (boot_of msg); [by destruct En|..]; unfold bind, gets; cbv beta;
        match goal with |- context [when ?c _] => destruct c end; reflexivity. }
    rewrite Em. cbn [fst snd].
    destruct (decide (_boot_id s = VNone)) as [Ek|Ek].
    { rewrite Ek. cbn zeta iota. split; cbn; [by apply Hmsg|]. apply (rb_same VNone); [done | by left | by rewrite <- Ek]. }
    destruct (py_eq (boot_of msg) (_boot_id s)) eqn:Eq.
    + replace (match _boot_id s with VNone => false | _ => negb true end) with false by (by destruct (_boot_id s)).
      split; cbn; [by apply Hmsg|]. apply (rb_same (_boot_id s)); [done | by right | done].
    + replace (match _boot_id s with VNone => false | _ => negb false end) with true by (by destruct (_boot_id s)).
      split; cbn; [apply Hmsg; by erewrite phase_of_snoc by exact Hp | by apply rb_reboot].
  - assert (Hbo : boot_of msg = VNone) by (unfold boot_of; by rewrite Eh).
    destruct (is_type "bye" msg) eqn:Eb; (split; [|by apply rb_message]); cbn; erewrite phase_of_snoc by exact Hp; cbn; rewrite Eb.
    + by rewrite orb_true_r.
    + by rewrite orb_false_r.
Qed.

Lemma keeps_handle_line raw : keeps running (_handle_line raw).
Proof.
  unfold _handle_line. destruct (loads _) as [[]|]; try (apply keeps_event; set_solver). apply keeps_message.
Qed.

Lemma keeps_pump n deadline silence : keeps running (_pump n deadline silence).
Proof.
  induction n as [|n IH]; cbn [_pump]; [apply keeps_raise|].
  apply keeps_bind; [apply keeps_asks, running_env|]. intros now. cbv zeta. apply keeps_if; [apply keeps_ret|].
  apply keeps_bind; [apply keeps_asks, running_env|]. intros got.
  apply keeps_bind; [apply keeps_drain|]. intros _. destruct got as [[|a raw]| | |].
  - apply keeps_ret.
  - apply keeps_bind; [apply keeps_handle_line | done].
  - apply keeps_ret.
  - apply keeps_bind; [apply keeps_event; set_solver | done].
  - apply keeps_bind; [apply keeps_modify; intros; by apply running_stop | intros; apply keeps_ret].
Qed.

(** A pump that ends with the cancellation leaves the session stopped. *)
Lemma pump_stopped n deadline silence s :
  (_pump n deadline silence s).1 = Ok PStopped -> _stop (_pump n deadline silence s).2 = true.
Proof.
  revert s. induction n as [|n IH]; intros s; cbn [_pump]; [done|].
  assert (Hb : forall {A} (c : M ns A) k s, (forall a s, (k a s).1 = Ok PStopped -> _stop (k a s).2 = true) ->
             (bind c k s).1 = Ok PStopped -> _stop (bind c k s).2 = true).
  { intros A c k s0 Hk. unfold bind. destruct (c s0) as [[a|e] s1]; [apply Hk | done]. }
  apply Hb. intros now s1. cbv zeta. destruct (fleb _ fzero); [done|].
  apply Hb. intros got s2. apply Hb. intros _ s3. destruct got as [[|a raw]| | |]; try done.
  - apply Hb. intros _ s4. apply IH.
  - by destruct (match silence with None => true | Some _ => _ end).
  - apply Hb. intros _ s4. apply IH.
Qed.

(** Losses are not reported after a bye, and stop is remembered. *)
Definition streamed (r : res outcome) s : Prop :=
  running s /\
  match r with
  | Ok Eof | Ok Silent => _bye_reason s = None
  | Ok Stop => _stop s = true
  | Ok Rotate => True
  | Ok _ => False
  | Raise _ => True
  end.

Lemma stream_streamed started : hoare running (_stream cfg fuel started) streamed.
Proof.
  intros s Hs. unfold _stream, bind.
  pose proof (keeps_pump fuel (fadd started (max_lifetime cfg)) (Some (silence_timeout cfg)) s Hs) as Hp.
  pose proof (pump_stopped fuel (fadd started (max_lifetime cfg)) (Some (silence_timeout cfg)) s) as Hst.
  destruct (_pump _ _ _ s) as [[e|x] s1]; cbn in *; [|done].
  split; [done|]. destruct e; cbn; try done; [| |by apply Hst]; by destruct (_bye_reason s1).
Qed.

Definition ended_with (r : res (outcome * float)) s : Prop :=
  running s /\
  match r with
  | Ok (Eof, _) | Ok (Silent, _) | Ok (Exited, _) => _bye_reason s = None
  | Ok (Stop, _) => _stop s = true
  | Ok (Rotate, _) => True
  | Ok _ => False
  | Raise _ => True
  end.

Definition reports_loss (o : outcome) : bool := match o with Eof | Silent | Exited => true | _ => false end.
(** [running], and no bye so far, or stopped. *)
Definition unsaid s : Prop := running s /\ _bye_reason s = None.
Definition halted s : Prop := running s /\ _stop s = true.

Lemma asks_unsaid {A} (f : remote -> A * remote) : keeps unsaid (asks f).
Proof. by apply keeps_asks. Qed.

Lemma keeps_halted {A} (c : M ns A) : keeps running c -> (forall s, _stop s = true -> _stop (c s).2 = true) -> keeps halted c.
Proof. intros Hc Hk s [Hs Ht]. split; [by apply Hc | by apply Hk]. Qed.

(** [c] never takes back a stop. *)
Definition sticky {A} (c : M ns A) : Prop := forall s, _stop s = true -> _stop (c s).2 = true.
Lemma sticky_bind {A B} (c : M ns A) (k : A -> M ns B) : sticky c -> (forall a, sticky (k a)) -> sticky (bind c k).
Proof.
  intros Hc Hk s Hs. specialize (Hc s Hs). unfold bind. destruct (c s) as [[a|e] s']; [by apply Hk | done].
Qed.
Lemma sticky_modify f : (forall s, _stop s = true -> _stop (f s) = true) -> sticky (modify f).
Proof. intros Hf s Hs. by apply Hf. Qed.
Lemma sticky_asks {A} (f : remote -> A * remote) : sticky (asks f).
Proof. intros s Hs. unfold asks. by destruct (f (env s)). Qed.
Lemma sticky_ret {A} (a : A) : sticky (ret a).
Proof. by intros s Hs. Qed.
Lemma sticky_raise {A} e : sticky (A := A) (raise e).
Proof. by intros s Hs. Qed.
Lemma sticky_gets {A} (f : ns -> A) : sticky (gets f).
Proof. by intros s Hs. Qed.
Lemma sticky_foldM {A B} (f : B -> A -> M ns B) l b : (forall b x, sticky (f b x)) -> sticky (foldM f b l).
Proof. intros Hf. revert b. induction l as [|x l IH]; intros b; cbn; [apply sticky_ret | by apply sticky_bind]. Qed.

Ltac sticky := repeat first
  [ progress intros | apply sticky_bind | apply sticky_asks | apply sticky_ret | apply sticky_raise | apply sticky_gets
  | apply sticky_foldM | apply sticky_modify; done | case_match ].

Lemma sticky_drain : sticky drain.
Proof. unfold drain, with_log, _event. sticky. Qed.
Lemma sticky_handle_line raw : sticky (_handle_line raw).
Proof. unfold _handle_line, _note_boot_id, _event, when. sticky. Qed.
Lemma sticky_pump n deadline silence : sticky (_pump n deadline silence).
Proof.
  pose proof sticky_drain. pose proof sticky_handle_line.
  induction n as [|n IH]; cbn [_pump]; [apply sticky_raise|].
  apply sticky_bind; [apply sticky_asks|]. intros now. cbv zeta. destruct (fleb _ fzero); [apply sticky_ret|].
  apply sticky_bind; [apply sticky_asks|]. intros got. apply sticky_bind; [done|]. intros _.
  destruct got as [[|a raw]| | |]; unfold _event; try (by sticky); apply sticky_bind; auto; by apply sticky_modify.
Qed.

Lemma body_ended started : hoare running (session_body cfg fuel started) ended_with.
Proof.
  unfold session_body. eapply hoare_bind; [eapply hoare_post; [apply stream_streamed|]|].
  { intros [o|e] s Hs; [exact Hs | by destruct Hs]. }
  intros o. cbv beta. eapply hoare_bind with (R := fun _ s => streamed (Ok o) s).
  { intros s Hs. unfold asks. by destruct (clock (env s)). }
  intros ended. destruct o; try (apply hoare_ret; intros s [Hr Hs]; by split).
  - eapply hoare_pre with (P' := unsaid); [|by intros s Hs]. eapply hoare_bind with (R := fun _ => unsaid).
    { eapply hoare_post; [apply asks_unsaid|]. intros [a|e] s Hs; [exact Hs | by destruct Hs]. }
    intros [|]; by apply hoare_ret.
  - eapply hoare_pre with (P' := running); [|by intros s [Hs _]].
    eapply hoare_post with (Q' := fun (r : res (outcome * float)) s => running s /\ match r with Ok (o, _) => o = Rotate | Raise _ => True end).
    2: { intros [[o e]|e] s [Hs Ho]; [subst o; by split | by split]. }
    eapply hoare_bind with (R := fun _ => running).
    { eapply hoare_post; [apply keeps_acts, running_env|]. by intros []. }
    intros _. eapply hoare_bind with (R := fun _ => running).
    { eapply hoare_post; [apply keeps_asks, running_env|]. by intros []. }
    intros now. eapply hoare_bind with (R := fun _ => running).
    { eapply hoare_post; [apply keeps_pump|]. by intros []. }
    intros _. by apply hoare_ret.
  - eapply hoare_pre with (P' := halted); [|by intros s Hs].
    eapply hoare_bind with (R := fun _ => halted).
    { eapply hoare_post; [apply keeps_acts; by intros s r Hs|]. intros [a|e] s Hs; [exact Hs | by destruct Hs]. }
    intros _. eapply hoare_bind with (R := fun _ => halted).
    { eapply hoare_post; [apply keeps_asks; by intros s r Hs|]. intros [a|e] s Hs; [exact Hs | by destruct Hs]. }
    intros now. eapply hoare_bind with (R := fun _ => halted).
    { eapply hoare_post; [apply keeps_halted; [apply keeps_pump | apply sticky_pump]|].
      intros [a|e] s Hs; [exact Hs | by destruct Hs]. }
    intros _. by apply hoare_ret.
Qed.

(** [c] leaves the bye and the stop as they are. *)
Definition fixed {A} (c : M ns A) : Prop := forall s, _bye_reason (c s).2 = _bye_reason s /\ _stop (c s).2 = _stop s.
Lemma fixed_bind {A B} (c : M ns A) (k : A -> M ns B) : fixed c -> (forall a, fixed (k a)) -> fixed (bind c k).
Proof.
  intros Hc Hk s. specialize (Hc s). unfold bind. destruct (c s) as [[a|e] s']; [|done].
  specialize (Hk a s'). cbn in *. destruct Hc as [-> ->] in Hk. exact Hk.
Qed.
Lemma fixed_modify f : (forall s, _bye_reason (f s) = _bye_reason s /\ _stop (f s) = _stop s) -> fixed (modify f).
Proof. intros Hf s. apply Hf. Qed.
Lemma fixed_asks {A} (f : remote -> A * remote) : fixed (asks f).
Proof. intros s. unfold asks. by destruct (f (env s)). Qed.
Lemma fixed_ret {A} (a : A) : fixed (ret a).
Proof. by intros s. Qed.
Lemma fixed_raise {A} e : fixed (A := A) (raise e).
Proof. by intros s. Qed.
Lemma fixed_gets {A} (f : ns -> A) : fixed (gets f).
Proof. by intros s. Qed.
Lemma fixed_foldM {A B} (f : B -> A -> M ns B) l b : (forall b x, fixed (f b x)) -> fixed (foldM f b l).
Proof. intros Hf. revert b. induction l as [|x l IH]; intros b; cbn; [apply fixed_ret | by apply fixed_bind]. Qed.
Lemma fixed_acts f : fixed (acts f).
Proof. by apply fixed_modify. Qed.
Lemma fixed_event kind d : fixed (_event kind d).
Proof. by apply fixed_modify. Qed.
Lemma fixed_with_log f : fixed (with_log f).
Proof.
  apply fixed_bind; [apply fixed_gets|]. intros l. apply fixed_bind; [by apply fixed_modify|]. intros _.
  apply fixed_foldM. intros. apply fixed_event.
Qed.
Lemma fixed_drain : fixed drain.
Proof. apply fixed_bind; [apply fixed_asks|]. intros l. apply fixed_foldM. intros. apply fixed_with_log. Qed.

Lemma group_vanishes_both n pid deadline : fixed (group_vanishes n pid deadline) /\ keeps running (group_vanishes n pid deadline).
Proof.
  induction n as [|n [IH1 IH2]]; cbn [group_vanishes]; [split; [apply fixed_raise | apply keeps_raise]|]. split.
  - apply fixed_bind; [apply fixed_asks|]. intros [|]; [|apply fixed_ret]. apply fixed_bind; [apply fixed_asks|]. intros now.
    destruct (fleb _ _); [apply fixed_ret|]. by apply fixed_bind; [apply fixed_acts|].
  - apply keeps_bind; [apply keeps_asks, running_env|]. intros there. apply keeps_if; [apply keeps_ret|].
    apply keeps_bind; [apply keeps_asks, running_env|]. intros now. apply keeps_if; [apply keeps_ret|].
    by apply keeps_bind; [apply keeps_acts, running_env|].
Qed.

Lemma group_gone_both pid timeout : fixed (_group_gone fuel pid timeout) /\ keeps running (_group_gone fuel pid timeout).
Proof.
  unfold _group_gone. split.
  - apply fixed_bind; [apply fixed_asks|]. intros now. apply fixed_bind; [apply fixed_asks|].
    intros [|]; [apply group_vanishes_both | apply fixed_ret].
  - apply keeps_bind; [apply keeps_asks, running_env|]. intros now. apply keeps_bind; [apply keeps_asks, running_env|].
    intros [|]; [apply group_vanishes_both | apply keeps_ret].
Qed.

Lemma wind_up_both pid : fixed (wind_up fuel pid) /\ keeps running (wind_up fuel pid).
Proof.
  unfold wind_up, _end_process_group. split.
  - apply fixed_bind; [apply fixed_acts|]. intros _. apply fixed_bind; [|intros _].
    2: { apply fixed_bind; [apply fixed_drain|]. intros _. by apply fixed_modify. }
    apply fixed_bind; [apply fixed_acts|]. intros _. apply fixed_bind; [apply group_gone_both|]. intros [|]; [apply fixed_ret|].
    apply fixed_bind; [apply fixed_acts|]. intros _. apply fixed_bind; [apply group_gone_both|]. intros _. apply fixed_ret.
  - apply keeps_bind; [apply keeps_acts, running_env|]. intros _. apply keeps_bind; [|intros _].
    2: { apply keeps_bind; [apply keeps_drain|]. intros _. apply keeps_modify. intros. by apply running_proc. }
    apply keeps_bind; [apply keeps_acts, running_env|]. intros _. apply keeps_bind; [apply group_gone_both|].
    intros [|]; [apply keeps_ret|].
    apply keeps_bind; [apply keeps_acts, running_env|]. intros _. apply keeps_bind; [apply group_gone_both|]. intros _. apply keeps_ret.
Qed.

(** A step of the end keeps what the outcome promises. *)
Lemma keeps_ended {A} (c : M ns A) x : fixed c -> keeps running c -> keeps (ended_with (Ok x)) c.
Proof.
  intros Hf Hk s [Hr Hx]. destruct (Hf s) as [Hb Hs]. split; [by apply Hk|]. destruct x as [[] ?]; by rewrite ?Hb, ?Hs.
Qed.

Definition legal s : Prop := rebooted s /\ is_Some (phase_of (trace s)).
Definition over (o : outcome) s : Prop :=
  rebooted s /\
  match o with
  | Rotate => phase_of (trace s) = Some Rotated
  | Stop => phase_of (trace s) = Some (Running (said_bye s)) /\ _stop s = true
  | _ => phase_of (trace s) = Some Lost
  end.
Definition session_over (r : res (outcome * float)) s : Prop :=
  match r with Ok (o, _) => over o s | Raise _ => legal s end.

Lemma running_legal s : running s -> legal s.
Proof. intros [Hp Hr]. split; [done | by eexists]. Qed.

Lemma report_over o uptime ended :
  hoare (ended_with (Ok (o, ended))) (bind (report_end o uptime) (fun _ => ret (o, uptime))) session_over.
Proof.
  intros s [[Hp Hr] Hx]. unfold report_end, bind, gets, _event, modify.
  assert (Hl : forall d, phase_of (trace s) = Some (Running false) ->
    over Exited (tell (Event "session_lost" d) s)).
  { intros d Hf. split; [by apply rb_event|]. cbn [tell trace]. by erewrite phase_of_snoc by exact Hf. }
  unfold said_bye in Hp.
  destruct o; cbn [fst snd ret]; try (rewrite Hx in Hp; by apply Hl); [done| |].
  - split; [by apply rb_event|]. cbn [tell trace]. by erewrite phase_of_snoc by exact Hp.
  - by split.
Qed.

Lemma spawned_over attempt pid : hoare ready (spawned cfg fuel attempt pid) session_over.
Proof.
  unfold spawned. eapply hoare_bind with (R := fun _ s => ready s /\ _bye_reason s = None).
  { by apply hoare_modify. }
  intros _. eapply hoare_bind with (R := fun _ s => ready s /\ _bye_reason s = None).
  { intros s Hs. unfold asks. by destruct (clock (env s)). }
  intros started. eapply hoare_bind with (R := fun _ s => ready s /\ _bye_reason s = None).
  { by apply hoare_modify. }
  intros _. eapply hoare_bind with (R := fun _ => running).
  { apply hoare_modify. intros s [[Hp Hr] Hb]. split; [|by apply rb_event]. cbn. unfold said_bye. cbn. rewrite Hb.
    destruct Hp as [Hp|Hp]; by erewrite phase_of_snoc by exact Hp. }
  intros _. eapply hoare_bind with (R := fun _ => running); [by apply hoare_modify|].
  intros _. eapply hoare_bind with (R := fun _ => running); [by apply hoare_modify|].
  intros _. eapply hoare_bind with (R := fun x => ended_with (Ok x)).
  - intros s Hs. pose proof (body_ended started s Hs) as Hb.
    destruct (session_body cfg fuel started s) as [[[o ended]|e] s1]; cbn [fst snd] in Hb.
    + pose proof (keeps_ended (wind_up fuel pid) (o, ended) (proj1 (wind_up_both pid)) (proj2 (wind_up_both pid)) s1 Hb) as Hw.
      unfold bind. destruct (wind_up fuel pid s1) as [[u|e] s2]; [exact Hw|]. apply running_legal. by destruct Hw.
    + destruct Hb as [Hb _]. pose proof (proj2 (wind_up_both pid) s1 Hb) as Hw. unfold bind.
      destruct e; first [by apply running_legal | destruct (wind_up fuel pid s1) as [[u|x] s2]; by apply running_legal].
  - intros [o ended]. eapply hoare_bind with (R := fun _ => ended_with (Ok (o, ended))).
    + eapply hoare_post; [apply (keeps_ended _ (o, ended)); [apply fixed_with_log | apply keeps_with_log]|].
      intros [u|e] s Hs; [exact Hs | by apply running_legal; destruct Hs].
    + intros _. apply report_over.
Qed.

Lemma session_session_over attempt : hoare ready (_session cfg fuel attempt) session_over.
Proof.
  unfold _session. eapply hoare_bind with (R := fun _ => ready).
  { intros s Hs. unfold asks. by destruct (spawn (argv cfg) (env s)). }
  intros [err|pid]; [|apply spawned_over].
  intros s [Hp Hr]. unfold bind, _event, modify. cbn [fst snd ret]. split; [by apply rb_event|]. cbn [tell trace].
  destruct Hp as [Hp|Hp]; by erewrite phase_of_snoc by exact Hp.
Qed.

Lemma after_ready o uptime failures :
  hoare (over o) (after_session cfg o uptime failures)
    (fun r s => match r with Ok (Some _) => ready s | _ => legal s end).
Proof.
  assert (Hl : forall s, over o s -> legal s).
  { intros s [Hr Ho]. split; [done|]. destruct o; first [rewrite Ho; by eexists | destruct Ho as [Ho' _]; rewrite Ho'; by eexists]. }
  unfold after_session. eapply hoare_bind with (R := fun stopped s => over o s /\ (stopped = false -> o <> Stop)).
  { intros s Ho. unfold is_set, bind, asks, modify, gets. destruct (stop_is_set (env s)) as [b r]. cbn.
    split; [|intros Hf ->; destruct Ho as (_ & _ & Hs); cbn in Hs; by rewrite Hs in Hf].
    destruct Ho as [Hr Ho]. split; [done|]. destruct o; try done. destruct Ho as [Hp Hs]. split; [done|]. cbn in *. by rewrite Hs. }
  intros [|]; [apply hoare_ret; intros s [Hs _]; by apply Hl|].
  eapply hoare_bind with (R := fun _ s => over o s /\ (false = false -> o <> Stop)); [by apply hoare_gets|].
  intros bye. apply hoare_if; intros Hc.
  - apply hoare_ret. intros s [[Hr Ho] _]. destruct o; try discriminate Hc. split; [by right | done].
  - eapply hoare_bind with (R := fun _ s => over o s /\ (false = false -> o <> Stop)).
    { intros s Hs. unfold asks. by destruct (random (env s)). }
    intros r. cbv zeta. eapply hoare_bind with (R := fun _ => ready).
    { apply hoare_modify. intros s [[Hr Ho] Hn]. split; [|by apply rb_event]. left. cbn [tell trace].
      destruct o; try (by erewrite phase_of_snoc by exact Ho). by destruct Hn. }
    intros _. eapply hoare_bind with (R := fun _ => ready); [by apply hoare_modify|]. intros _. by apply hoare_ret.
Qed.

Lemma run_loop_legal n attempt failures : hoare ready (run_loop cfg fuel n attempt failures) (fun _ => legal).
Proof.
  assert (Hl : forall s, ready s -> legal s).
  { intros s [[Hp|Hp] Hr]; (split; [done|]); rewrite Hp; by eexists. }
  revert attempt failures. induction n as [|n IH]; intros attempt failures; cbn [run_loop].
  { by apply hoare_ret. }
  eapply hoare_bind with (R := fun _ => ready).
  { eapply hoare_post; [by apply (keeps_is_set ready)|]. intros [a|e] s Hs; auto. }
  intros [|]; [by apply hoare_ret|].
  eapply hoare_bind with (R := fun x s => over x.1 s).
  { eapply hoare_post; [apply session_session_over|]. by intros [[o u]|e] s Hs. }
  intros [o uptime]. eapply hoare_bind with (R := fun x s => match x with Some _ => ready s | None => legal s end).
  { eapply hoare_post; [apply after_ready|]. by intros [[f|]|e] s Hs. }
  intros [f|]; [apply IH | by apply hoare_ret].
Qed.

(** C9. The events of a node's sessions tell their life, whatever the probe, ssh, the clock and
    the stop do: a session that starts delivers messages and diagnostics and then is rotated or
    lost, once, or stopped, and never lost after the probe said bye; an attempt that cannot be
    started is lost at once; every loss is followed by a wait before the next attempt; and
    [node_rebooted] is told exactly where a hello's boot id differs from the one known, just
    before that hello is delivered. *)
Theorem session_lifecycle n r :
  let s := (run cfg fuel n (new_session r)).2 in
  is_Some (phase_of (trace s)) /\ rebooting (_boot_id s) (trace s).
Proof.
  intros s. assert (Hr : ready (new_session r)) by (split; [by left | apply rb_none]).
  destruct (run_loop_legal n 0 0 _ Hr) as [Hb Hp]. by split.
Qed.
End Life.
