(* ===== verification/ProbeNode.v ===== *)
(** * The probe's node readers

    [node_monitor/probe/probe.py]: the node counters ([collect_counters] and its parts), the
    hardware inventory ([collect_hardware], without its nvidia-smi fallback, which is in
    ProbeGpu.v) and [boot_identity].  Each reader asks the host once per file and parses what
    it got; a field the file does not give stays out or [None]. *)

From Stdlib Require Import ZArith Lia.
From S2P Require Import Prelude PyFloat PyTime PyVal Regex Text ProbeHost.

Section Node.
Context {H : Host} {U : Unicode}.
#[local] Open Scope py_scope.
#[local] Open Scope string_scope.
#[local] Open Scope list_scope.
#[local] Open Scope Z_scope.

(** The value at the head of a meminfo line, under its name in [wanted]. *)
Definition meminfo_line (wanted : list (string * string)) (out : dict) (line : string) : res dict :=
  let '(key, rest) := partition_at ":" line in
  match dget key wanted with
  | None => Ok out
  | Some name =>
      match words (default "" rest) with
      | v :: _ => if isdigit v then z ← py_int v; Ok (dset name (VInt z) out) else Ok out
      | [] => Ok out
      end
  end.

Definition fold_res {A B} (f : B -> A -> res B) (b : B) (l : list A) : res B :=
  foldl (fun acc x => acc ≫= fun b => f b x) (Ok b) l.

Definition _meminfo_fields (r : roots) (wanted : list (string * string)) : M world dict :=
  let out := foldl (fun d k => dset k VNone d) [] (dvalues wanted) in
  let* text := read_text (_proc r ["meminfo"]) in
  match text with
  | None => ret out
  | Some t => lift (fold_res (meminfo_line wanted) out (lines t))
  end.

(** ** Node counters *)

(** The four numbers of a loadavg line, or [{}] when one of them is not a number. *)
Definition loadavg_numbers (p0 p1 p2 running : string) : res (option dict) :=
  on_value_error
    (l1 ← py_float p0; l5 ← py_float p1; l15 ← py_float p2; n ← py_int running;
     Ok (Some [("load1", VFloat l1); ("load5", VFloat l5); ("load15", VFloat l15); ("procs_running", VInt n)]))
    None.

Definition loadavg_of (line : string) : res (dict * option Z) :=
  match words line with
  | p0 :: p1 :: p2 :: p3 :: _ =>
      let '(running, total) := partition_at "/" p3 in
      let total := default "" total in
      out ← loadavg_numbers p0 p1 p2 running;
      match out with
      | None => Ok ([], None)
      | Some out => if isdigit total then z ← py_int total; Ok (out, Some z) else Ok (out, None)
      end
  | _ => Ok ([], None)
  end.

Definition _collect_loadavg (r : roots) : M world (dict * option Z) :=
  let* line := read_first_line (_proc r ["loadavg"]) in
  match line with
  | None => ret ([], None)
  | Some line => lift (loadavg_of line)
  end.

Definition JIFFY_NAMES : list string :=
  ["user"; "nice"; "system"; "idle"; "iowait"; "irq"; "softirq"; "steal"; "guest"; "guest_nice"].

Definition jiffies_of (line : string) : res dict :=
  fold_res (fun out nv =>
    on_value_error (z ← py_int nv.2; Ok (dset nv.1 (VInt z) out)) out)
    [] (zip JIFFY_NAMES (tail (words line))).

Definition _collect_cpu_jiffies (r : roots) : M world (option dict) :=
  let* line := read_first_line (_proc r ["stat"]) in
  match line with
  | Some line =>
      if String.prefix "cpu " line then let* d := lift (jiffies_of line) in ret (Some d) else ret None
  | None => ret None
  end.

Definition MEMINFO_WANTED : list (string * string) :=
  [("MemTotal", "total_kb"); ("MemAvailable", "available_kb"); ("Cached", "cached_kb"); ("Shmem", "shmem_kb");
   ("MemFree", "free_kb"); ("SwapTotal", "swap_total_kb"); ("SwapFree", "swap_free_kb")].

Definition is_none (v : value) : bool := match v with VNone => true | _ => false end.

Definition _collect_meminfo (r : roots) : M world dict :=
  let* fields := _meminfo_fields r MEMINFO_WANTED in
  ret (filter (fun kv => is_none kv.2 = false) fields).

(** One interface's line of net/dev. *)
Definition net_line (out : dict) (line : string) : res dict :=
  let '(name, rest) := partition_at ":" line in
  let name := strip name in
  let fields := words (default "" rest) in
  if bool_decide (name = "") || bool_decide (name = "lo") || (length fields <? 9)%nat then Ok out
  else
    on_value_error
      (rx ← py_int (nth 0 fields ""); tx ← py_int (nth 8 fields "");
       Ok (dset name (VDict [("rx_bytes", VInt rx); ("tx_bytes", VInt tx)]) out))
      out.

Definition _collect_net (r : roots) : M world dict :=
  let* text := read_text (_proc r ["net"; "dev"]) in
  match text with
  | None => ret []
  | Some t => lift (fold_res net_line [] (drop 2 (lines t)))
  end.

Definition md_line (acc : dict * Z) (line : string) : res (dict * Z) :=
  match words line with
  | k :: v :: _ => if isdigit v then z ← py_int v; Ok (dset k (VInt z) acc.1, acc.2 + z) else Ok acc
  | _ => Ok acc
  end.

Definition md_counters (stats : string) : res dict :=
  '(counters, total) ← fold_res md_line ([], 0) (lines stats);
  Ok (match counters with [] => [] | _ => dset "total" (VInt total) counters end).

Definition _collect_lustre_md (r : roots) : M world dict :=
  let base := _proc r ["fs"; "lustre"; "mdc"] in
  let* targets := ask (listdir base) in
  foldM (fun out target =>
    let* stats := read_text (path base [target; "md_stats"]) in
    match stats with
    | None => ret out
    | Some s =>
        let* counters := lift (md_counters s) in
        ret (match counters with [] => out | _ => dset target (VDict counters) out end)
    end) [] (default [] targets).

(** The last field of the first line that gives one. *)
Fixpoint sockets_used (ls : list string) : res (option Z) :=
  match ls with
  | [] => Ok None
  | line :: ls =>
      if String.prefix "sockets: used" line then
        match last (words line) with
        | Some v => if isdigit v then z ← py_int v; Ok (Some z) else sockets_used ls
        | None => sockets_used ls
        end
      else sockets_used ls
  end.

Definition _collect_socket_count (r : roots) : M world (option Z) :=
  let* text := read_text (_proc r ["net"; "sockstat"]) in
  match text with None => ret None | Some t => lift (sockets_used (lines t)) end.

Definition _collect_uptime (r : roots) : M world (option float) :=
  let* line := read_first_line (_proc r ["uptime"]) in
  match line with
  | None => ret None
  | Some line =>
      match words line with
      | [] => ret None
      | v :: _ => lift (on_value_error (f ← py_float v; Ok (Some f)) None)
      end
  end.

Definition collect_counters (r : roots) : M world dict :=
  let* uptime := _collect_uptime r in
  let counters := match uptime with Some f => [("uptime_sec", VFloat f)] | None => [] end in
  let* ' (load, procs_total) := _collect_loadavg r in
  let counters := dmerge counters load in
  let counters := match procs_total with Some z => dset "procs_total" (VInt z) counters | None => counters end in
  let* cpu := _collect_cpu_jiffies r in
  let counters := match cpu with Some d => dset "cpu_jiffies" (VDict d) counters | None => counters end in
  let counters := dset "clk_tck" (VInt clk_tck) counters in
  let* mem := _collect_meminfo r in
  let counters := dset "mem" (VDict mem) counters in
  let* net := _collect_net r in
  let counters := dset "net" (VDict net) counters in
  let* md := _collect_lustre_md r in
  let counters := dset "md_ops" (VDict md) counters in
  let* sockets := _collect_socket_count r in
  ret (dset "socket_count" (val_opt VInt sockets) counters).

(** ** Hardware inventory *)

(** [out] with the physical ids met so far. *)
Record cpuinfo := CpuInfo {
  cpu_model : option string;
  cpu_logical : Z;
  cores_per_socket : option Z;
  physical_ids : gset string;
}.

Definition cpuinfo_line (c : cpuinfo) (line : string) : res cpuinfo :=
  match partition_at ":" line with
  | (_, None) => Ok c
  | (key, Some rest) =>
      let key := strip key in
      let value := strip rest in
      if bool_decide (key = "processor") then
        Ok (CpuInfo (cpu_model c) (cpu_logical c + 1) (cores_per_socket c) (physical_ids c))
      else if bool_decide (key = "model name" /\ cpu_model c = None) then
        Ok (CpuInfo (Some value) (cpu_logical c) (cores_per_socket c) (physical_ids c))
      else if bool_decide (key = "physical id") then
        Ok (CpuInfo (cpu_model c) (cpu_logical c) (cores_per_socket c) ({[value]} ∪ physical_ids c))
      else if bool_decide (key = "cpu cores" /\ cores_per_socket c = None) then
        on_value_error
          (z ← py_int value; Ok (CpuInfo (cpu_model c) (cpu_logical c) (Some z) (physical_ids c))) c
      else Ok c
  end.

Definition sockets_of (c : cpuinfo) : option Z :=
  if bool_decide (physical_ids c = ∅) then None else Some (Z.of_nat (size (physical_ids c))).

Definition _collect_cpuinfo (r : roots) : M world cpuinfo :=
  let* text := read_text (_proc r ["cpuinfo"]) in
  match text with
  | None => ret (CpuInfo None 0 None ∅)
  | Some t => lift (fold_res cpuinfo_line (CpuInfo None 0 None ∅) (lines t))
  end.

Definition _collect_cpu_max_freq_khz (r : roots) : M world (option Z) :=
  let* text := read_text (_sys r ["devices"; "system"; "cpu"; "cpu0"; "cpufreq"; "cpuinfo_max_freq"]) in
  match text with
  | None => ret None
  | Some t => lift (on_value_error (z ← py_int (strip t); Ok (Some z)) None)
  end.

Definition NODE_DIR : pattern := Eval vm_compute in compile "^node\d+$".

Definition _collect_numa_nodes (r : roots) : M world Z :=
  let* entries := ask (listdir (_sys r ["devices"; "system"; "node"])) in
  ret (match entries with
       | None => 0
       | Some es => Z.of_nat (length (filter (fun e => search (re_body NODE_DIR) e = true) es))
       end).

Fixpoint pretty_name (ls : list string) : option string :=
  match ls with
  | [] => None
  | line :: ls =>
      match partition_at "=" line with
      | (key, Some rest) => if bool_decide (strip key = "PRETTY_NAME") then Some (strip_char (ascii_of_nat 34) (strip rest)) else pretty_name ls
      | _ => pretty_name ls
      end
  end.

Definition _collect_os_pretty_name (r : roots) : M world (option string) :=
  let* text := read_text (default "/etc/os-release" (r_os_release r)) in
  ret (match text with None => None | Some t => pretty_name (lines t) end).

Definition is_net_fs (line : string) : bool :=
  match words line with
  | _ :: _ :: fs :: _ => bool_decide (fs ∈ ["lustre"; "nfs"; "nfs4"])
  | _ => false
  end.

Definition _collect_net_fs_mounts (r : roots) : M world Z :=
  let* text := read_text (_proc r ["mounts"]) in
  ret (match text with
       | None => 0
       | Some t => Z.of_nat (length (filter (fun l => is_net_fs l = true) (lines t)))
       end).

(** The link speed, [None] when it is unreadable or not a number. *)
Definition iface_speed (dir : string) : M world value :=
  let* text := try_except (read_text (path_join dir "speed"))
                 (fun e => if is_exception e then Some (ret None) else None) in
  match text with
  | None => ret VNone
  | Some t => lift (on_value_error (z ← py_int (strip t); Ok (VInt z)) VNone)
  end.

Definition _collect_net_ifaces (r : roots) : M world dict :=
  let base := _sys r ["class"; "net"] in
  let* names := ask (listdir base) in
  foldM (fun out name =>
    let iface_dir := path_join base name in
    let* dir := ask (isdir iface_dir) in
    if dir : bool then let* speed := iface_speed iface_dir in ret (dset name speed out) else ret out)
    [] (default [] names).

(** [boot_identity] *)
Fixpoint btime_of (ls : list string) : res (option Z) :=
  match ls with
  | [] => Ok None
  | line :: ls =>
      if String.prefix "btime " line then
        match words line with
        | _ :: v :: _ => on_value_error (z ← py_int v; Ok (Some z)) None
        | _ => Ok None
        end
      else btime_of ls
  end.

Definition boot_identity (r : roots) : M world (option string * option Z) :=
  let* boot_id := read_first_line (_proc r ["sys"; "kernel"; "random"; "boot_id"]) in
  let* text := read_text (_proc r ["stat"]) in
  let* btime := lift (btime_of (lines (default "" text))) in
  ret (boot_id, btime).
End Node.
