(* ===== verification/ProbeProc.v ===== *)
(** * The process census

    [node_monitor/probe/probe.py], from [parse_stat] to [scan_processes]: one walk of /proc
    that makes a row of every process it can read and counts every way one can fail to be
    read.  The state of the walk is the host, the uid cache and the coverage counts. *)

From Stdlib Require Import ZArith Lia ZifyBool ZifyN.
From stdpp Require Import pretty.
From S2P Require Import Prelude PyFloat PyTime PyVal Regex Text ProbeHost.

#[local] Open Scope string_scope.
#[local] Open Scope list_scope.
#[local] Open Scope Z_scope.

Definition _SHELL_RE : pattern := Eval vm_compute in compile "(^|/)(bash|zsh|tcsh|csh|ksh|sh)( |$)|^-".
Definition _MULTIPLEXER_RE : pattern := Eval vm_compute in compile_ignorecase "(^|/)(screen|tmux)(:| |$)".

(** [parse_stat]: the comm lies between the first "(" and the last ")". *)
Definition parse_stat (raw : string) : option (string * list string) :=
  match partition_at "(" raw, rpartition_at ")" raw with
  | (before, Some _), Some (upto, after) =>
      if (String.length upto <? String.length before)%nat then None
      else
        let tail := words (after_char after) in
        if (length tail <? 22)%nat then None else Some (drop_chars (S (String.length before)) upto, tail)
  | _, _ => None
  end.

Definition _parent_kind (ppid : Z) (parent_comm : option string) : string :=
  if ppid =? 1 then "init"
  else match parent_comm with
       | None => "unknown"
       | Some comm =>
           if search (re_body _MULTIPLEXER_RE) comm then "multiplexer"
           else if String.prefix "sshd" comm then "sshd"
           else if search (re_body _SHELL_RE) comm then "shell"
           else "other"
       end.

(** A census row as [_read_process] makes it. *)
Record proc_row := ProcRow {
  pid : Z;
  ppid : Z;
  start_time : Z;
  uid : Z;
  username : option string;
  comm : string;
  exe : option string;
  argv0 : string;
  cmdline : string;
  state : string;
  threads : option Z;
  rss_kb : Z;
  utime : Z;
  stime : Z;
  tty_nr : Z;
  interactive : bool;
  session_leader : bool;
}.

(** What [_enrich_parents] adds to a row. *)
Record parent_info := ParentInfo {
  parent_comm : option string;
  parent_exe : option string;
  under_screen_or_tmux : bool;
  parent_kind : string;
}.

Definition COVERAGE_KEYS : list string :=
  ["pids_seen"; "stat_unreadable"; "stat_unparseable"; "kernel_thread"; "vanished";
   "owner_unresolved"; "exe_unreadable"; "parent_unresolved"].

(** The state of a walk: the host, the owners' names met so far and the coverage counts. *)
Record scan_state (W : Type) := Scan {
  host : W;
  uid_names : list (Z * option string);
  coverage : list (string * Z);
}.
Arguments Scan {W}.
Arguments host {W}.
Arguments uid_names {W}.
Arguments coverage {W}.

Section Scan.
Context {H : Host} {U : Unicode}.
#[local] Open Scope py_scope.
#[local] Open Scope string_scope.
#[local] Open Scope list_scope.
#[local] Open Scope Z_scope.

Abbreviation scan := (scan_state world).
Definition set_host w (s : scan) : scan := Scan w (uid_names s) (coverage s).
Definition set_uid_names u (s : scan) : scan := Scan (host s) u (coverage s).
Definition set_coverage c (s : scan) : scan := Scan (host s) (uid_names s) c.
Definition on_host {A} : M world A -> M scan A := zoom host set_host.

(** [coverage[key] += 1] *)
Definition bump (key : string) : M scan unit :=
  let* cov := gets coverage in
  match dget key cov with
  | Some n => modify (set_coverage (dset key (n + 1) cov))
  | None => raise (KeyError key)
  end.

Definition _resolve_uid (u : Z) : M scan (option string) :=
  let* names := gets uid_names in
  match dget u names with
  | Some name => ret name
  | None =>
      let* name := on_host (ask (getpwuid u)) in
      modify (set_uid_names (dset u name names)) ;;; ret name
  end.

(** The number of a status line: its second field, when that is one. *)
Definition status_number (line : string) (old : option Z) : res (option Z) :=
  match words line with
  | _ :: v :: _ => if isdigit v then z ← py_int v; Ok (Some z) else Ok old
  | _ => Ok old
  end.

Fixpoint status_lines (ls : list string) (uid threads : option Z) : res (option Z * option Z) :=
  match ls with
  | [] => Ok (uid, threads)
  | line :: ls =>
      if String.prefix "Uid:" line then
        uid ← status_number line uid; status_lines ls uid threads
      else if String.prefix "Threads:" line then
        threads ← status_number line threads; status_lines ls uid threads
      else status_lines ls uid threads
  end.

Definition _status_fields (raw : string) : res (option Z * option Z) := status_lines (lines raw) None None.

(** The numbers of a stat line; [None] when one of them is not a number. *)
Record stat_numbers := StatNumbers {
  s_pid : Z; s_ppid : Z; s_sid : Z; s_tty_nr : Z; s_utime : Z; s_stime : Z; s_start_time : Z; s_rss_pages : Z;
}.
Definition field_of (tail : list string) (i : nat) : string := nth i tail "".
Definition stat_ints (pid : string) (tail : list string) : res (option stat_numbers) :=
  on_value_error
    (pid ← py_int pid;
     ppid ← py_int (field_of tail 1);
     sid ← py_int (field_of tail 3);
     tty_nr ← py_int (field_of tail 4);
     utime ← py_int (field_of tail 11);
     stime ← py_int (field_of tail 12);
     start_time ← py_int (field_of tail 19);
     rss_pages ← py_int (field_of tail 21);
     Ok (Some (StatNumbers pid ppid sid tty_nr utime stime start_time rss_pages)))
    None.

Definition NUL : ascii := "000"%char.

(** [bump key; return None] *)
Definition excluded {A} (key : string) : M scan (option A) := bump key ;;; ret None.

Definition _read_process (proc_dir : string) (page_kb : Z) : M scan (option proc_row) :=
  let* raw_stat := on_host (read_text (proc_dir +:+ "/stat")) in
  match raw_stat with
  | None => excluded "stat_unreadable"
  | Some raw =>
  match parse_stat raw with
  | None => excluded "stat_unparseable"
  | Some (comm, tail) =>
  let* raw_cmdline := on_host (read_text (proc_dir +:+ "/cmdline")) in
  let raw_cmdline := default "" raw_cmdline in
  let cmdline := strip (replace_char NUL " " raw_cmdline) in
  if bool_decide (cmdline = "") then excluded "kernel_thread"
  else
  let* raw_status := on_host (read_text (proc_dir +:+ "/status")) in
  let* ' (uid, threads) :=
    match raw_status with Some raw => lift (_status_fields raw) | None => ret (None, None) end in
  match uid with
  | None => excluded "vanished"
  | Some uid =>
  let* numbers := lift (stat_ints (basename proc_dir) tail) in
  match numbers with
  | None => excluded "stat_unparseable"
  | Some n =>
  let* username := _resolve_uid uid in
  when (bool_decide (username = None)) (bump "owner_unresolved") ;;;
  let* exe := on_host (read_link (proc_dir +:+ "/exe")) in
  when (bool_decide (exe = None)) (bump "exe_unreadable") ;;;
  ret (Some (ProcRow (s_pid n) (s_ppid n) (s_start_time n) uid username comm exe
    (partition_at NUL raw_cmdline).1 cmdline (field_of tail 0) threads (s_rss_pages n * page_kb)
    (s_utime n) (s_stime n) (s_tty_nr n) (negb (s_tty_nr n =? 0)) (s_pid n =? s_sid n)))
  end end end end.

(** A parent outside the census: one bounded read. *)
Definition _resolve_parent_direct (r : roots) (ppid : Z) : M scan (option string * option string) :=
  let proc_dir := _proc r [pretty ppid] in
  let* raw_stat := on_host (read_text (proc_dir +:+ "/stat")) in
  let comm := match raw_stat with Some raw => option_map fst (parse_stat raw) | None => None end in
  let* exe := on_host (read_link (proc_dir +:+ "/exe")) in
  ret (comm, exe).

Definition multiplexed (comm : option string) : bool :=
  match comm with
  | Some c => negb (bool_decide (c = "")) && search (re_body _MULTIPLEXER_RE) c
  | None => false
  end.

Definition by_pid (rows : list proc_row) : list (Z * proc_row) :=
  foldl (fun d row => dset (pid row) row d) [] rows.

Definition enrich_parent (r : roots) (d : list (Z * proc_row)) (row : proc_row) : M scan (proc_row * parent_info) :=
  let* ' (comm, exe) :=
    match dget (ppid row) d with
    | Some parent => ret (Some (comm parent), exe parent)
    | None => _resolve_parent_direct r (ppid row)
    end in
  when (bool_decide (comm = None)) (bump "parent_unresolved") ;;;
  ret (row, ParentInfo comm exe (multiplexed comm) (_parent_kind (ppid row) comm)).

Definition _enrich_parents (r : roots) (rows : list proc_row) : M scan (list (proc_row * parent_info)) :=
  let d := by_pid rows in
  foldM (fun out row => let* e := enrich_parent r d row in ret (out ++ [e])) [] rows.

Definition fresh_coverage : list (string * Z) := map (fun k => (k, 0)) COVERAGE_KEYS.

(** One entry of the listing. *)
Definition scan_entry (r : roots) (page_kb : Z) (rows : list proc_row) (entry : string) : M scan (list proc_row) :=
  if isdigit entry then
    bump "pids_seen" ;;;
    let* row := _read_process (_proc r [entry]) page_kb in
    ret (match row with Some row => rows ++ [row] | None => rows end)
  else ret rows.

Definition scan_processes (r : roots) : M scan (list (proc_row * parent_info)) :=
  modify (set_coverage fresh_coverage) ;;;
  let page_kb := page_size / 1024 in
  let* entries := on_host (ask (listdir (r_proc r))) in
  match entries with
  | None => ret []
  | Some entries =>
      let* rows := foldM (scan_entry r page_kb) [] entries in
      _enrich_parents r rows
  end.
End Scan.

(** ** The fields of a stat line *)

Lemma not_char_joined c fields : c <> " "%char -> Forall (fun f => not_char c f = true) fields ->
  not_char c (joined " " fields) = true.
Proof.
  intros Hc. induction fields as [|f fields IH]; [done|]. intros [Hf Hs]%Forall_cons.
  destruct fields as [|g fields]; [done|]. rewrite joined_cons. unfold not_char in *.
  rewrite !forall_chars_app, Hf, IH by done. cbn. by rewrite bool_decide_false.
Qed.

Lemma drop_continuation_word fields : Forall (fun f => is_word f = true) fields ->
  drop_continuation (joined " " fields) = joined " " fields.
Proof.
  destruct fields as [|f fields]; [done|]. intros [Hf _]%Forall_cons.
  apply andb_prop in Hf as [Hne Hf]. destruct f as [|a f]; [done|]. apply andb_prop in Hf as [Ha _].
  assert (E : exists t, joined " " (String a f :: fields) = String a t).
  { destruct fields; [by eexists|]. rewrite joined_cons, string_app_cons. by eexists. }
  destruct E as [t ->]. cbn. replace (continues a) with false; [done|].
  unfold continues, word_char in *. cbv zeta in *. lia.
Qed.

(** A stat line is taken apart rightly whatever the process calls itself: with any comm at
    all between the parentheses (spaces, newlines and parentheses included), [parse_stat] gives
    that comm and the fields that follow it. *)
Theorem parse_stat_any_comm pid comm fields :
  not_char "(" pid = true ->
  Forall (fun f => is_word f = true /\ not_char ")" f = true) fields ->
  (22 <= length fields)%nat ->
  parse_stat (pid +:+ " (" +:+ comm +:+ ") " +:+ joined " " fields) = Some (comm, fields).
Proof.
  intros Hp Hf Hl. unfold parse_stat.
  assert (E1 : pid +:+ " (" +:+ comm +:+ ") " +:+ joined " " fields
    = (pid +:+ " ") +:+ String "(" (comm +:+ ") " +:+ joined " " fields)) by by rewrite string_app_assoc.
  assert (E2 : pid +:+ " (" +:+ comm +:+ ") " +:+ joined " " fields
    = (pid +:+ " (" +:+ comm) +:+ String ")" (" " +:+ joined " " fields)) by by rewrite !string_app_assoc.
  rewrite E1 at 1. rewrite partition_at_app by (unfold not_char in Hp; by rewrite forall_chars_app, Hp).
  rewrite E2, rpartition_at_app; last first.
  { rewrite forall_chars_app. apply andb_true_intro. split; [done|].
    apply not_char_joined; [done|]. eapply Forall_impl; [exact Hf|]. by intros f [_ ?]. }
  assert (Hw : Forall (fun f => is_word f = true) fields).
  { eapply Forall_impl; [exact Hf|]. by intros f [? _]. }
  change (pid +:+ " (" +:+ comm) with (pid +:+ String " " (String "(" comm)).
  rewrite (proj2 (Nat.ltb_ge _ _)) by (rewrite !length_app_str; cbn; lia).
  change (" " +:+ joined " " fields) with (String " " (joined " " fields)). cbn [after_char].
  rewrite drop_continuation_word, words_joined by done.
  rewrite (proj2 (Nat.ltb_ge _ _)) by done. do 2 f_equal.
  replace (pid +:+ String " " (String "(" comm)) with ((pid +:+ " (") +:+ comm) by by rewrite string_app_assoc.
  replace (S (String.length (pid +:+ " "))) with (String.length (pid +:+ " (")) by (rewrite !length_app_str; cbn; lia).
  apply drop_chars_app.
Qed.

Lemma parse_stat_any_comm_witness :
  parse_stat "42 (a) S (b c) S 1 1 1 0 -1 0 0 0 0 0 7 8 0 0 20 0 1 0 99 4096 12" =
  Some ("a) S (b c", ["S"; "1"; "1"; "1"; "0"; "-1"; "0"; "0"; "0"; "0"; "0"; "7"; "8"; "0"; "0"; "20"; "0"; "1"; "0"; "99"; "4096"; "12"]).
Proof.
  apply (parse_stat_any_comm "42" "a) S (b c"
    ["S"; "1"; "1"; "1"; "0"; "-1"; "0"; "0"; "0"; "0"; "0"; "7"; "8"; "0"; "0"; "20"; "0"; "1"; "0"; "99"; "4096"; "12"]).
  - reflexivity.
  - repeat constructor.
  - cbn. lia.
Defined.

(** ** What a scan counts *)

Definition count (key : string) (cov : list (string * Z)) : Z := default 0 (dget key cov).

Lemma count_dset k k' v cov : count k (dset k' v cov) = if decide (k' = k) then v else count k cov.
Proof. unfold count. rewrite dget_dset. by case_decide. Qed.

(** The rows of which the scan did not learn something. *)
Definition nameless (rows : list proc_row) : Z := Z.of_nat (length (filter (fun r => username r = None) rows)).
Definition exeless (rows : list proc_row) : Z := Z.of_nat (length (filter (fun r => exe r = None) rows)).

(** [cov] while [rows] are made of [seen] processes: [pending] of them, [u] owners and [e]
    executables are counted in [seen] (or counted missing) but have no row yet. *)
Record tally (seen : Z) (rows : list proc_row) (pending u e : Z) (cov : list (string * Z)) : Prop := {
  t_keys : dkeys cov = COVERAGE_KEYS;
  t_seen : count "pids_seen" cov = seen;
  t_sum : count "stat_unreadable" cov + count "stat_unparseable" cov + count "kernel_thread" cov
          + count "vanished" cov + Z.of_nat (length rows) + pending = seen;
  t_owner : count "owner_unresolved" cov = nameless rows + u;
  t_exe : count "exe_unreadable" cov = exeless rows + e;
  t_parent : count "parent_unresolved" cov = 0;
}.

Ltac keys :=
  repeat match goal with
  | |- context [decide (?a = ?b)] => first [rewrite (decide_True (P := a = b)) by reflexivity | rewrite (decide_False (P := a = b)) by discriminate]
  end.

Section Counting.
Context {H : Host} {U : Unicode}.
Abbreviation scan := (scan_state world).
#[local] Open Scope py_scope.
#[local] Open Scope string_scope.
#[local] Open Scope list_scope.
#[local] Open Scope Z_scope.

(** [P] holds of the coverage. *)
Definition covered (P : list (string * Z) -> Prop) (s : scan) : Prop := P (coverage s).

Lemma on_host_covered {A} P (c : M world A) : hoare (covered P) (on_host c) (fun _ => covered P).
Proof. apply hoare_zoom. intros s Hs. done. Qed.

Lemma bump_covered key P Q :
  (forall cov, P cov -> key ∈ dkeys cov) ->
  (forall cov, P cov -> Q (dset key (count key cov + 1) cov)) ->
  hoare (covered P) (bump key) (fun r s => r = Ok tt /\ covered Q s).
Proof.
  intros Hk HQ s Hs. unfold bump, bind, gets. cbn.
  destruct (proj1 (elem_of_dkeys _ _) (Hk _ Hs)) as [n En]. rewrite En. cbn. split; [done|].
  specialize (HQ _ Hs). unfold count in HQ. by rewrite En in HQ.
Qed.

Lemma resolve_uid_covered u P : hoare (covered P) (_resolve_uid u) (fun _ => covered P).
Proof.
  unfold _resolve_uid. eapply hoare_bind with (R := fun _ => covered P).
  { by apply hoare_gets. }
  intros names. destruct (dget u names); [by apply hoare_ret|].
  eapply hoare_bind with (R := fun _ => covered P).
  { eapply hoare_post; [apply on_host_covered|]. by intros []. }
  intros name. eapply hoare_bind with (R := fun _ => covered P); [by apply hoare_modify|].
  intros _. by apply hoare_ret.
Qed.

Lemma dkeys_bump key (cov : list (string * Z)) v : key ∈ COVERAGE_KEYS -> dkeys cov = COVERAGE_KEYS -> dkeys (dset key v cov) = COVERAGE_KEYS.
Proof. intros Hk E. rewrite dkeys_dset, E. by rewrite decide_True. Qed.

Lemma excluded_covered {A} key n rows :
  key ∈ ["stat_unreadable"; "stat_unparseable"; "kernel_thread"; "vanished"] ->
  hoare (covered (tally n rows 1 0 0)) (excluded (A := A) key) (fun r s => r = Ok None /\ covered (tally n rows 0 0 0) s).
Proof.
  intros Hk. assert (Hin : key ∈ COVERAGE_KEYS) by (unfold COVERAGE_KEYS; set_solver).
  unfold excluded. eapply hoare_bind with (R := fun _ => covered (tally n rows 0 0 0)).
  - eapply hoare_post.
    + apply bump_covered with (Q := tally n rows 0 0 0).
      * intros cov [-> _ _ _ _ _]. done.
      * intros cov [K S T O E P]. rewrite !elem_of_cons, elem_of_nil in Hk.
        destruct Hk as [->|[->|[->|[->|[]]]]];
          (split; [by apply dkeys_bump| ..]; rewrite !count_dset; keys; try done; lia).
    + by intros r s [-> ?].
  - intros _. by apply hoare_ret.
Qed.

Lemma nameless_snoc rows r : nameless (rows ++ [r]) = nameless rows + (if decide (username r = None) then 1 else 0).
Proof. unfold nameless. rewrite filter_snoc, length_app. case_decide; cbn; lia. Qed.
Lemma exeless_snoc rows r : exeless (rows ++ [r]) = exeless rows + (if decide (exe r = None) then 1 else 0).
Proof. unfold exeless. rewrite filter_snoc, length_app. case_decide; cbn; lia. Qed.

Lemma owner_covered n rows (o : option string) :
  hoare (covered (tally n rows 1 0 0)) (when (bool_decide (o = None)) (bump "owner_unresolved"))
    (fun r s => r = Ok tt /\ covered (tally n rows 1 (if decide (o = None) then 1 else 0) 0) s).
Proof.
  destruct o; cbn; [by apply hoare_ret|]. apply bump_covered.
  - intros cov [-> _ _ _ _ _]. unfold COVERAGE_KEYS. set_solver.
  - intros cov [K S T O E P]. split; [apply dkeys_bump; [unfold COVERAGE_KEYS; set_solver | done] | ..];
      rewrite !count_dset; keys; try done; lia.
Qed.

Lemma exe_covered n rows u (o : option string) :
  hoare (covered (tally n rows 1 u 0)) (when (bool_decide (o = None)) (bump "exe_unreadable"))
    (fun r s => r = Ok tt /\ covered (tally n rows 1 u (if decide (o = None) then 1 else 0)) s).
Proof.
  destruct o; cbn; [by apply hoare_ret|]. apply bump_covered.
  - intros cov [-> _ _ _ _ _]. unfold COVERAGE_KEYS. set_solver.
  - intros cov [K S T O E P]. split; [apply dkeys_bump; [unfold COVERAGE_KEYS; set_solver | done] | ..];
      rewrite !count_dset; keys; try done; lia.
Qed.

Lemma tally_row n rows row :
  forall cov, tally n rows 1 (if decide (username row = None) then 1 else 0) (if decide (exe row = None) then 1 else 0) cov ->
  tally n (rows ++ [row]) 0 0 0 cov.
Proof.
  intros cov [K S T O E P]. split; try done; rewrite ?nameless_snoc, ?exeless_snoc; try lia.
  rewrite length_app. cbn. lia.
Qed.

Definition added (n : Z) (rows : list proc_row) (row : option proc_row) : scan -> Prop :=
  covered (tally n (rows ++ option_list row) 0 0 0).

Definition or_raises {A} (Q : A -> scan -> Prop) (r : res A) (s : scan) : Prop :=
  match r with Ok a => Q a s | Raise _ => True end.

Lemma or_raises_bind {A B} (c : M scan A) (k : A -> M scan B) P R Q :
  hoare P c (or_raises R) -> (forall a, hoare (R a) (k a) (or_raises Q)) -> hoare P (bind c k) (or_raises Q).
Proof.
  intros Hc Hk. eapply hoare_bind; [|exact Hk]. eapply hoare_post; [exact Hc|]. by intros [].
Qed.

Lemma on_host_raises {A} P (c : M world A) : hoare (covered P) (on_host c) (or_raises (fun _ => covered P)).
Proof. eapply hoare_post; [apply on_host_covered|]. by intros []. Qed.

Lemma excluded_added key n rows :
  key ∈ ["stat_unreadable"; "stat_unparseable"; "kernel_thread"; "vanished"] ->
  hoare (covered (tally n rows 1 0 0)) (excluded key) (or_raises (added n rows)).
Proof.
  intros Hk. eapply hoare_post; [by apply excluded_covered|].
  intros r s [-> Hs]. cbn. unfold added. cbn. by rewrite app_nil_r.
Qed.

Ltac reading := eapply or_raises_bind; [apply on_host_raises|].

Lemma read_process_added d page_kb n rows :
  hoare (covered (tally n rows 1 0 0)) (_read_process d page_kb) (or_raises (added n rows)).
Proof.
  unfold _read_process. reading. intros [raw|]; [|apply excluded_added; set_solver].
  destruct (parse_stat raw) as [[comm tail]|]; [|apply excluded_added; set_solver].
  reading. intros cm. cbv zeta. apply hoare_if; intros _; [apply excluded_added; set_solver|].
  reading. intros st. eapply or_raises_bind with (R := fun _ => covered (tally n rows 1 0 0)).
  { destruct st; [apply hoare_lift; by intros ? ?; destruct (_status_fields _) | by apply hoare_ret]. }
  intros [[u|] th]; [|apply excluded_added; set_solver].
  eapply or_raises_bind with (R := fun _ => covered (tally n rows 1 0 0)).
  { apply hoare_lift. by intros ? ?; destruct (stat_ints _ _). }
  intros [nums|]; [|apply excluded_added; set_solver].
  eapply or_raises_bind with (R := fun _ => covered (tally n rows 1 0 0)).
  { eapply hoare_post; [apply resolve_uid_covered|]. by intros []. }
  intros name. eapply or_raises_bind with (R := fun _ => covered (tally n rows 1 (if decide (name = None) then 1 else 0) 0)).
  { eapply hoare_post; [apply owner_covered|]. by intros r s [-> Hs]. }
  intros _. reading. intros x.
  eapply or_raises_bind with (R := fun _ => covered (tally n rows 1 (if decide (name = None) then 1 else 0) (if decide (x = None) then 1 else 0))).
  { eapply hoare_post; [apply exe_covered|]. by intros r s [-> Hs]. }
  intros _. apply hoare_ret. intros s Hs. by apply tally_row.
Qed.

Lemma scan_entry_added r page_kb n rows entry :
  hoare (covered (tally n rows 0 0 0)) (scan_entry r page_kb rows entry)
    (or_raises (fun rows' => covered (tally (n + (if isdigit entry then 1 else 0)) rows' 0 0 0))).
Proof.
  unfold scan_entry. destruct (isdigit entry); last first.
  { rewrite Z.add_0_r. by apply hoare_ret. }
  eapply or_raises_bind with (R := fun _ => covered (tally (n + 1) rows 1 0 0)).
  - eapply hoare_post; [apply bump_covered with (Q := tally (n + 1) rows 1 0 0)|].
    + intros cov [-> _ _ _ _ _]. unfold COVERAGE_KEYS. set_solver.
    + intros cov [K S T O E P]. split; [apply dkeys_bump; [unfold COVERAGE_KEYS; set_solver | done] | ..];
        rewrite !count_dset; keys; try done; lia.
    + by intros r' s [-> Hs].
  - intros _. eapply or_raises_bind; [apply read_process_added|]. intros row.
    apply hoare_ret. intros s Hs. unfold added in Hs. cbn. destruct row; cbn in Hs; [done|].
    by rewrite app_nil_r in Hs.
Qed.

Definition numeric (entries : list string) : Z := Z.of_nat (length (filter (fun e => isdigit e = true) entries)).

Lemma scan_entries_added r page_kb entries n rows :
  hoare (covered (tally n rows 0 0 0)) (foldM (scan_entry r page_kb) rows entries)
    (or_raises (fun rows' => covered (tally (n + numeric entries) rows' 0 0 0))).
Proof.
  revert n rows. induction entries as [|e es IH]; intros n rows; cbn [foldM].
  - apply hoare_ret. intros s Hs. cbn. unfold numeric. cbn. by rewrite Z.add_0_r.
  - eapply or_raises_bind; [apply scan_entry_added|]. intros rows'.
    eapply hoare_post; [apply IH|]. intros [rs|ex] s Hs; [|done]. cbn in *.
    replace (n + numeric (e :: es)) with (n + (if isdigit e then 1 else 0) + numeric es); [done|].
    unfold numeric. rewrite filter_cons. destruct (isdigit e); [rewrite decide_True by done; cbn [length]; lia | rewrite decide_False by done; lia].
Qed.

(** The rows with their parents: how many parents have no name is what the count says, and the
    other counts stay. *)
Definition orphaned (out : list (proc_row * parent_info)) : Z :=
  Z.of_nat (length (filter (fun re => parent_comm re.2 = None) out)).

Record settled (n : Z) (rows : list proc_row) (u : Z) (cov : list (string * Z)) : Prop := {
  st_keys : dkeys cov = COVERAGE_KEYS;
  st_seen : count "pids_seen" cov = n;
  st_sum : count "stat_unreadable" cov + count "stat_unparseable" cov + count "kernel_thread" cov
           + count "vanished" cov + Z.of_nat (length rows) = n;
  st_owner : count "owner_unresolved" cov = nameless rows;
  st_exe : count "exe_unreadable" cov = exeless rows;
  st_parent : count "parent_unresolved" cov = u;
}.

Lemma tally_settled n rows cov : tally n rows 0 0 0 cov -> settled n rows 0 cov.
Proof. intros [? ? ? ? ? ?]. split; try done; lia. Qed.

Lemma resolve_parent_covered r p P : hoare (covered P) (_resolve_parent_direct r p) (or_raises (fun _ => covered P)).
Proof.
  unfold _resolve_parent_direct. reading. intros raw. cbv zeta. reading. intros x. by apply hoare_ret.
Qed.

Lemma enrich_parent_settled r d row n rows u :
  hoare (covered (settled n rows u)) (enrich_parent r d row)
    (or_raises (fun re s => re.1 = row /\ covered (settled n rows (u + (if decide (parent_comm re.2 = None) then 1 else 0))) s)).
Proof.
  unfold enrich_parent.
  eapply or_raises_bind with (R := fun _ => covered (settled n rows u)).
  { destruct (dget _ _); [by apply hoare_ret | apply resolve_parent_covered]. }
  intros [cm x].
  eapply or_raises_bind with (R := fun _ => covered (settled n rows (u + (if decide (cm = None) then 1 else 0)))).
  - destruct cm; cbn; [apply hoare_ret; intros ? ?; by rewrite Z.add_0_r|].
    eapply hoare_post; [apply bump_covered with (Q := settled n rows (u + 1))|].
    + intros cov [-> _ _ _ _ _]. unfold COVERAGE_KEYS. set_solver.
    + intros cov [K S T O E P]. split; [apply dkeys_bump; [unfold COVERAGE_KEYS; set_solver | done] | ..];
        rewrite !count_dset; keys; try done; lia.
    + by intros r' s [-> Hs].
  - intros _. apply hoare_ret. intros s Hs. done.
Qed.

Lemma orphaned_snoc out re : orphaned (out ++ [re]) = orphaned out + (if decide (parent_comm re.2 = None) then 1 else 0).
Proof. unfold orphaned. rewrite filter_snoc, length_app. case_decide; cbn; lia. Qed.

Lemma enrich_parents_settled r d rows n all out :
  hoare (covered (settled n all (orphaned out)))
    (foldM (fun out row => bind (enrich_parent r d row) (fun e => ret (out ++ [e]))) out rows)
    (or_raises (fun out' s => covered (settled n all (orphaned out')) s /\ map fst out' = map fst out ++ rows)).
Proof.
  revert out. induction rows as [|row rows IH]; intros out; cbn [foldM].
  - apply hoare_ret. intros s Hs. cbn. by rewrite app_nil_r.
  - eapply or_raises_bind with (R := fun out' s => covered (settled n all (orphaned out')) s /\ map fst out' = map fst out ++ [row]).
    + eapply or_raises_bind; [apply enrich_parent_settled|]. intros re. apply hoare_ret.
      intros s [<- Hs]. cbn. rewrite orphaned_snoc, map_app. done.
    + intros out'. apply hoare_pure. intros E. eapply hoare_post; [apply IH|].
      intros [out''|e] s; [|done]. cbn. rewrite E, <- app_assoc. done.
Qed.

(** C19. Every process of a census is accounted for: [pids_seen] counts the numeric entries of
    the /proc listing, it is the number of rows plus the processes whose stat was unreadable or
    unparseable, the kernel threads and those that vanished, and the three other counts say how
    many rows lack an owner name, an executable or a parent name. *)
Theorem scan_accounts r s rows s' :
  scan_processes r s = (Ok rows, s') ->
  let c key := count key (coverage s') in
  let base := map fst rows in
  c "pids_seen" = numeric (default [] (listdir (r_proc r) (host s)).1)
  /\ c "pids_seen" = Z.of_nat (length rows) + c "stat_unreadable" + c "stat_unparseable" + c "kernel_thread" + c "vanished"
  /\ c "owner_unresolved" = nameless base
  /\ c "exe_unreadable" = exeless base
  /\ c "parent_unresolved" = orphaned rows.
Proof.
  intros E c base.
  set (n := numeric (default [] (listdir (r_proc r) (host s)).1)).
  assert (Hs : covered (settled n base (orphaned rows)) s').
  { unfold scan_processes, bind, modify in E. cbn in E. unfold on_host, zoom, ask in E. cbn in E.
    subst n. destruct (listdir (r_proc r) (host s)) as [[es|] w] eqn:El; cbn in E.
    2: { injection E as <- <-. cbn. by split. }
    match type of E with context [foldM ?f ?b es ?s0] =>
      pose proof (scan_entries_added r (page_size / 1024) es 0 [] s0) as Hes;
      destruct (foldM f b es s0) as [[rs|e] s1] eqn:Ef; [|done] end.
    cbn in Hes. assert (Ht : tally (numeric es) rs 0 0 0 (coverage s1)) by by apply Hes.
    unfold _enrich_parents in E.
    pose proof (enrich_parents_settled r (by_pid rs) rs (numeric es) rs [] s1) as Hen.
    destruct (foldM _ _ rs s1) as [[out|e] s2] eqn:Eo in *; [|done]. injection E as <- <-.
    destruct Hen as [Hen Eb]; [by apply tally_settled|]. cbn in Eb. subst base. rewrite Eb. exact Hen. }
  destruct Hs as [K S T O X P]. subst c base. split_and!; try done.
  rewrite length_map in T. lia.
Qed.
End Counting.

(** A node with two users' processes, one kernel thread and one that vanished. *)
Definition small_node : Host :=
  let nul := String NUL "" in
  still_host
    [("/proc/1/stat", "1 (systemd) S 0 1 1 0 -1 0 0 0 0 0 7 8 0 0 20 0 1 0 1 4096 12");
     ("/proc/1/cmdline", "/sbin/init" +:+ nul);
     ("/proc/1/status", "Name: systemd" +:+ String newline "Uid: 0 0 0 0");
     ("/proc/20/stat", "20 (kworker) S 2 0 0 0 -1 0 0 0 0 0 0 0 0 0 20 0 1 0 5 0 0");
     ("/proc/20/cmdline", "");
     ("/proc/31/stat", "31 (my (job)) R 1 31 31 34816 -1 0 0 0 0 0 150 50 0 0 20 0 1 0 99 4096 256");
     ("/proc/31/cmdline", "/home/u/my (job)" +:+ nul +:+ "-x" +:+ nul);
     ("/proc/31/status", "Uid: 1001 1001 1001 1001" +:+ String newline "Threads: 3")]
    [("/proc/31/exe", "/home/u/my (job)")]
    [("/proc", ["1"; "20"; "31"; "40"; "self"])]
    [(0, "root")].

Definition small_scan := scan_processes (H := small_node) (U := ascii_only) (Roots "/proc" "/sys" None) (Scan (W := Z) 0 [] []).
Definition small_rows : list (proc_row * parent_info) := match small_scan.1 with Ok rows => rows | Raise _ => [] end.

Lemma scan_accounts_witness :
  small_scan = (Ok small_rows, small_scan.2) /\
  let c key := count key (coverage small_scan.2) in
  c "pids_seen" = 4 /\ length small_rows = 2%nat /\
  c "pids_seen" = 2 + c "stat_unreadable" + c "stat_unparseable" + c "kernel_thread" + c "vanished" /\
  c "owner_unresolved" = 1 /\ c "exe_unreadable" = 1 /\ c "parent_unresolved" = 1.
Proof.
  assert (E : scan_processes (H := small_node) (U := ascii_only) (Roots "/proc" "/sys" None) (Scan (W := Z) 0 [] [])
    = (Ok small_rows, small_scan.2)) by (vm_compute; reflexivity).
  split; [exact E|].
  pose proof (scan_accounts (H := small_node) (U := ascii_only) (Roots "/proc" "/sys" None)
    (Scan (W := Z) 0 [] []) small_rows small_scan.2 E) as (A & B & C & D & F).
  refine (conj (eq_trans A _) (conj _ (conj (eq_trans B _) (conj (eq_trans C _) (conj (eq_trans D _) (eq_trans F _))))));
    vm_compute; reflexivity.
Defined.
