(* ===== verification/ProbeGpu.v ===== *)
(** * nvidia-smi

    [node_monitor/probe/probe.py]: running one query as a child process against a deadline
    ([_run_nvidia_smi], with the children abandoned when even SIGKILL does not end them),
    [query_gpus], the hardware inventory's GPU list and, since it needs that list,
    [collect_hardware]. *)

From Stdlib Require Import ZArith Lia.
From stdpp Require Import pretty.
From S2P Require Import Prelude PyFloat PyTime PyVal Regex Text ProbeHost ProbeNode.

#[local] Open Scope string_scope.
#[local] Open Scope list_scope.
#[local] Open Scope Z_scope.

Definition HARDWARE_GPU_TIMEOUT_SEC : float := float_of_Z 5.
Definition GPU_TIMEOUT_ERROR : string := "nvidia-smi timeout".
Definition GPU_ERROR_DETAIL_MAX : nat := 200.

(** The host and [_ABANDONED_GPU_QUERIES]. *)
Record children_state (W P : Type) := Children {
  c_world : W;
  abandoned : list P;
}.
Arguments Children {W P}.
Arguments c_world {W P}.
Arguments abandoned {W P}.

Fixpoint _first_line_of (ls : list string) : option string :=
  match ls with
  | [] => None
  | line :: ls => if bool_decide (strip line = "") then _first_line_of ls else Some (strip line)
  end.
Definition _first_line (text : string) : option string := _first_line_of (lines text).

Definition smi_rows (out : string) : list (list string) :=
  map (fun line => map strip (split_on "," line)) (filter (fun line => strip line <> "") (lines out)).

Section Gpu.
Context {H : Host} {U : Unicode}.
Abbreviation children := (children_state world proc).
#[local] Open Scope py_scope.
#[local] Open Scope string_scope.
#[local] Open Scope list_scope.
#[local] Open Scope Z_scope.

Definition set_c_world (w : world) (s : children) : children := Children w (abandoned s).
Definition set_abandoned (l : list proc) (s : children) : children := Children (c_world s) l.
Definition on_world {A} : M world A -> M children A := zoom c_world set_c_world.

(** [except Exception: pass], giving [d]. *)
Definition or_else {S A} (c : M S A) (d : A) : M S A :=
  try_except c (fun e => if is_exception e then Some (ret d) else None).

Definition reap_abandoned_gpu_queries : M children unit :=
  let* procs := gets abandoned in
  let* still_running := foldM (fun still p =>
      or_else (let* code := on_world (ask_or_raise (poll p)) in
               ret (match code with None => still ++ [p] | Some _ => still end)) still) [] procs in
  modify (set_abandoned still_running).

(** What follows a query that outlived its deadline. *)
Definition abandon {A} (p : proc) : M children A :=
  on_world (modify (killpg p)) ;;;
  or_else (on_world (ask_or_raise (communicate p (float_of_Z 1))) ;;; ret tt) tt ;;;
  let* code := on_world (ask_or_raise (poll p)) in
  when (bool_decide (code = None)) (modify (fun s => set_abandoned (abandoned s ++ [p]) s)) ;;;
  raise TimeoutExpired.

Definition smi_failure (code : Z) (out err : string) : string :=
  "nvidia-smi exit " +:+ pretty code +:+
  match (match _first_line err with Some l => Some l | None => _first_line out end) with
  | Some detail => ": " +:+ take_chars GPU_ERROR_DETAIL_MAX detail
  | None => ""
  end.

Definition _run_nvidia_smi (binary query_flag : string) (deadline : float) : M children (list (list string)) :=
  let* now := on_world (ask monotonic) in
  let remaining := fsub deadline now in
  if fleb remaining fzero then raise TimeoutExpired
  else
    let* started := on_world (ask (popen [binary; query_flag; "--format=csv,noheader,nounits"])) in
    match started with
    | inl f => raise (os_exn f)
    | inr p =>
        let* ' (out, err) :=
          try_except (on_world (ask_or_raise (communicate p remaining)))
            (fun e => match e with TimeoutExpired => Some (abandon p) | _ => None end) in
        if negb (returncode p =? 0) then raise (RuntimeError (smi_failure (returncode p) out err))
        else ret (smi_rows out)
    end.

Definition gpu_row (cells : list string) : res dict :=
  match cells with
  | [index; util; used; total] =>
      i ← py_int index; u ← py_int util; m ← py_int used; t ← py_int total;
      Ok [("index", VInt i); ("util_pct", VInt u); ("mem_used_mb", VInt m); ("mem_total_mb", VInt t)]
  | _ => Raise (ValueError "unpack")
  end.

Definition app_row (by_pid : list (Z * Z)) (cells : list string) : res (list (Z * Z)) :=
  match cells with
  | [pid; used] =>
      p ← py_int pid; u ← py_int used; Ok (dset p (default 0 (dget p by_pid) + u) by_pid)
  | _ => Raise (ValueError "unpack")
  end.

Definition gpu_answer : Type := list dict * list (Z * Z) * option string.

Definition gpu_error (e : exn) : option gpu_answer :=
  match e with
  | TimeoutExpired => Some ([], [], Some GPU_TIMEOUT_ERROR)
  | RuntimeError m => Some ([], [], Some m)
  | ValueError _ => Some ([], [], Some "nvidia-smi output unparseable")
  | e => if is_oserror e then Some ([], [], Some "nvidia-smi output unparseable") else None
  end.

Definition query_gpus (timeout : float) : M children gpu_answer :=
  let* binary := on_world (ask (which "nvidia-smi")) in
  match binary with
  | None => ret ([], [], None)
  | Some binary =>
      let* now := on_world (ask monotonic) in
      let deadline := fadd now timeout in
      try_except
        (let* rows := _run_nvidia_smi binary "--query-gpu=index,utilization.gpu,memory.used,memory.total" deadline in
         let* gpus := lift (fold_res (fun l cells => d ← gpu_row cells; Ok (l ++ [d])) [] rows) in
         let* apps := _run_nvidia_smi binary "--query-compute-apps=pid,used_memory" deadline in
         let* by_pid := lift (fold_res app_row [] apps) in
         ret (gpus, by_pid, None))
        (fun e => option_map ret (gpu_error e))
  end.

(** ** The hardware inventory *)

Definition _collect_gpus_nvidia_smi : M children (list string) :=
  let* binary := on_world (ask (which "nvidia-smi")) in
  match binary with
  | None => ret []
  | Some binary =>
      let* now := on_world (ask monotonic) in
      let deadline := fadd now HARDWARE_GPU_TIMEOUT_SEC in
      let* rows := try_except (_run_nvidia_smi binary "--query-gpu=name" deadline)
        (fun e => match e with
                  | TimeoutExpired | RuntimeError _ => Some (ret [])
                  | e => if is_oserror e then Some (ret []) else None
                  end) in
      ret (omap (fun cells => match cells with
                              | c :: _ => if bool_decide (c = "") then None else Some c
                              | [] => None
                              end) rows)
  end.

Definition _collect_gpus (r : roots) (gpu : bool) : M children (list string) :=
  let* entries := on_world (ask (listdir (_proc r ["driver"; "nvidia"; "gpus"]))) in
  let entries := merge_sort String.le (default [] entries) in
  match entries with
  | [] => if gpu then _collect_gpus_nvidia_smi else ret []
  | _ => ret entries
  end.

Definition HARDWARE_MEMORY : list (string * string) :=
  [("MemTotal", "mem_total_kb"); ("SwapTotal", "swap_total_kb"); ("Hugepagesize", "hugepage_size_kb")].

Definition collect_hardware (r : roots) (gpu : bool) : M children dict :=
  let* cpu := on_world (_collect_cpuinfo r) in
  let* mem := on_world (_meminfo_fields r HARDWARE_MEMORY) in
  let* freq := on_world (_collect_cpu_max_freq_khz r) in
  let* numa := on_world (_collect_numa_nodes r) in
  let* kernel := on_world (read_first_line (_proc r ["sys"; "kernel"; "osrelease"])) in
  let* os := on_world (_collect_os_pretty_name r) in
  let* mounts := on_world (_collect_net_fs_mounts r) in
  let* ifaces := on_world (_collect_net_ifaces r) in
  let* gpus := _collect_gpus r gpu in
  ret [("cpu_model", val_opt VStr (cpu_model cpu));
       ("cpu_logical", VInt (cpu_logical cpu));
       ("sockets", val_opt VInt (sockets_of cpu));
       ("cores_per_socket", val_opt VInt (cores_per_socket cpu));
       ("cpu_max_freq_khz", val_opt VInt freq);
       ("numa_nodes", VInt numa);
       ("mem_total_kb", dget_or_none "mem_total_kb" mem);
       ("swap_total_kb", dget_or_none "swap_total_kb" mem);
       ("hugepage_size_kb", dget_or_none "hugepage_size_kb" mem);
       ("kernel_release", val_opt VStr kernel);
       ("os_pretty_name", val_opt VStr os);
       ("net_fs_mounts", VInt mounts);
       ("net_ifaces", VDict ifaces);
       ("gpus", VList (map VStr gpus))].
End Gpu.
