(* ===== verification/ProbeTracker.v ===== *)
(** * CPU use and dormancy of processes across censuses

    [ProcessTracker] of [node_monitor/probe/probe.py].  An entry of [_state] is an object the
    loop also puts into [seen]; while the loop runs, a key of [_state] met again changes it in
    both places, so the model writes both. *)

From Stdlib Require Import ZArith Lia.
From S2P Require Import Prelude PyFloat PyTime PyVal Text ProbeHost ProbeProc.

#[local] Open Scope string_scope.
#[local] Open Scope list_scope.
#[local] Open Scope Z_scope.

Record entry := Entry {
  ticks : Z;
  first_seen : float;
  last_active : option float;
  existed_at_start : bool;
}.

Definition key : Type := Z * Z.
Definition key_of (row : proc_row) : key := (pid row, start_time row).
Definition ticks_of (row : proc_row) : Z := utime row + stime row.

Record tracker := Tracker {
  _state : list (key * entry);
  _updates : Z;
}.

(** The fields a row gains in place of [utime] and [stime]. *)
Record cpu_info := CpuUse {
  cpu_seconds : option float;
  cpu_state : option string;
  idle_for_sec : value;
  idle_for_is_lower_bound : bool;
}.

Definition first_sight : cpu_info := CpuUse None None VNone false.

Section Tracker.
Context (active_per_min : num) (clk_tck : Z).
#[local] Open Scope py_scope.
#[local] Open Scope string_scope.
#[local] Open Scope list_scope.
#[local] Open Scope Z_scope.

(** [interval_sec or 0] *)
Definition interval_or_zero (interval : option float) : num :=
  match interval with
  | Some (S754_zero _) | None => NInt 0
  | Some f => NFloat f
  end.

Definition threshold (interval : option float) : res float :=
  n ← num_mul active_per_min (interval_or_zero interval); true_div n (NFloat (float_of_Z 60)).

(** [(ticks - state["ticks"]) / float(self._clk_tck)] *)
Definition cpu_since (old new : Z) : res float :=
  c ← to_float (NInt clk_tck); true_div (NInt (new - old)) (NFloat c).

(** A process seen before: its entry and fields after this census. *)
Definition seen_again (e : entry) (t : Z) (now : float) (interval : option float) : res (entry * cpu_info) :=
  c ← cpu_since (ticks e) t;
  limit ← threshold interval;
  let active := fleb limit c in
  let last := if active then Some now else last_active e in
  let idle := if active then VInt 0
              else VFloat (fsub now (match last_active e with None => first_seen e | Some a => a end)) in
  Ok (Entry t (first_seen e) last (existed_at_start e),
      CpuUse (Some c) (Some (if active then "active" else "idle")) idle
             (bool_decide (last = None) && existed_at_start e)).

(** The body of the loop, over [seen] and the rows done so far. *)
Definition update_row {R} (row_of : R -> proc_row) (now : float) (interval : option float) (first_update : bool)
    (acc : list (key * entry) * list (R * cpu_info)) (r : R) : M tracker (list (key * entry) * list (R * cpu_info)) :=
  let '(seen, done) := acc in
  let k := key_of (row_of r) in
  let t := ticks_of (row_of r) in
  let* known := gets (fun s => dget k (_state s)) in
  match known with
  | None => ret (dset k (Entry t now None first_update) seen, done ++ [(r, first_sight)])
  | Some e =>
      let* ' (e', cpu) := lift (seen_again e t now interval) in
      modify (fun s => Tracker (dset k e' (_state s)) (_updates s)) ;;;
      ret (dset k e' seen, done ++ [(r, cpu)])
  end.

Definition update {R} (row_of : R -> proc_row) (rows : list R) (now : float) (interval : option float)
    : M tracker (list (R * cpu_info)) :=
  let* first_update := gets (fun s => _updates s =? 0) in
  modify (fun s => Tracker (_state s) (_updates s + 1)) ;;;
  let* ' (seen, done) := foldM (update_row row_of now interval first_update) ([], []) rows in
  modify (fun s => Tracker seen (_updates s)) ;;;
  ret done.
End Tracker.

(** ** What an update does *)

Section Updates.
Context (active_per_min : num) (clk_tck : Z).

(** What [update] makes of a row, given the entry its process had before. *)
Definition row_outcome (now : float) (interval : option float) (first : bool) (before : option entry) (row : proc_row)
    (e : entry) (cpu : cpu_info) : Prop :=
  match before with
  | None => e = Entry (ticks_of row) now None first /\ cpu = first_sight
  | Some old => seen_again active_per_min clk_tck old (ticks_of row) now interval = Ok (e, cpu)
  end.

Lemma update_rows {R} (row_of : R -> proc_row) now interval first rows t0 seen done :
  let old := _state t0 in
  forall t, (forall r, r ∈ rows -> dget (key_of (row_of r)) (_state t) = dget (key_of (row_of r)) old) ->
  NoDup (map (fun r => key_of (row_of r)) rows) ->
  (forall r, r ∈ rows -> key_of (row_of r) ∉ dkeys seen) ->
  match foldM (update_row active_per_min clk_tck row_of now interval first) (seen, done) rows t with
  | (Ok (seen', done'), t') =>
      _updates t' = _updates t /\ map fst done' = map fst done ++ rows /\
      (forall k, k ∉ map (fun r => key_of (row_of r)) rows -> dget k seen' = dget k seen) /\
      exists cpus, done' = done ++ zip rows cpus /\ length cpus = length rows /\
        Forall2 (fun r cpu => exists e, dget (key_of (row_of r)) seen' = Some e /\
                   row_outcome now interval first (dget (key_of (row_of r)) old) (row_of r) e cpu) rows cpus /\
        (forall k, k ∈ dkeys seen' <-> k ∈ dkeys seen \/ k ∈ map (fun r => key_of (row_of r)) rows)
  | (Raise _, _) => True
  end.
Proof.
  intros old. revert seen done. induction rows as [|r rows IH]; intros seen done t Hst Hnd Hfresh; cbn [foldM].
  { cbn. split_and!; try done; [by rewrite app_nil_r|]. exists []. cbn. rewrite app_nil_r. split_and!; try done.
    intros k. set_solver. }
  cbn [map] in Hnd. apply NoDup_cons in Hnd as [Hni Hnd].
  set (k := key_of (row_of r)). unfold bind at 1, update_row at 1. fold k.
  assert (Hk : dget k (_state t) = dget k old) by (apply Hst; set_solver).
  unfold bind at 1, gets at 1.
  assert (Hrest : forall t1 e cpu, (forall r', r' ∈ rows -> dget (key_of (row_of r')) (_state t1) = dget (key_of (row_of r')) old) ->
     _updates t1 = _updates t -> row_outcome now interval first (dget k old) (row_of r) e cpu ->
     match foldM (update_row active_per_min clk_tck row_of now interval first) (dset k e seen, done ++ [(r, cpu)]) rows t1 with
     | (Ok (seen', done'), t') =>
         _updates t' = _updates t /\ map fst done' = map fst done ++ r :: rows /\
         (forall k', k' ∉ k :: map (fun r => key_of (row_of r)) rows -> dget k' seen' = dget k' seen) /\
         exists cpus, done' = done ++ zip (r :: rows) cpus /\ length cpus = length (r :: rows) /\
           Forall2 (fun r cpu => exists e, dget (key_of (row_of r)) seen' = Some e /\
                      row_outcome now interval first (dget (key_of (row_of r)) old) (row_of r) e cpu) (r :: rows) cpus /\
           (forall k', k' ∈ dkeys seen' <-> k' ∈ dkeys seen \/ k' ∈ k :: map (fun r => key_of (row_of r)) rows)
     | (Raise _, _) => True
     end).
  { intros t1 e cpu Ht1 Hu Ho. specialize (IH (dset k e seen) (done ++ [(r, cpu)]) t1 Ht1 Hnd).
    assert (Hf1 : forall r', r' ∈ rows -> key_of (row_of r') ∉ dkeys (dset k e seen)).
    { intros r' Hr'. rewrite dkeys_dset. assert (Hne : key_of (row_of r') <> k).
      { intros Heq. apply Hni. fold k. rewrite <- Heq. apply list_elem_of_fmap. by exists r'. }
      case_decide; [apply Hfresh; set_solver|]. rewrite elem_of_app. intros [Hin|Hin]; [|set_solver].
      revert Hin. apply Hfresh. set_solver. }
    specialize (IH Hf1).
    destruct (foldM _ _ rows t1) as [[[seen' done']|x] t']; [|done].
    destruct IH as (I1 & I2 & I3 & cpus & I4 & I5 & I6 & I7). split_and!.
    - congruence.
    - rewrite I2, map_app. cbn. by rewrite <- app_assoc.
    - intros k' Hk'. apply not_elem_of_cons in Hk' as [Hk1 Hk2]. rewrite (I3 k' Hk2). by rewrite dget_dset_ne.
    - exists (cpu :: cpus). cbn [zip zip_with length]. rewrite I4, <- app_assoc. split_and!; [done | by rewrite I5 | |].
      + constructor; [|done]. exists e. split; [|done]. fold k. rewrite (I3 k Hni). apply dget_dset_eq.
      + intros k'. rewrite (I7 k'), dkeys_dset. rewrite elem_of_cons.
        assert (Hkf : k ∉ dkeys seen) by (apply Hfresh; set_solver).
        rewrite decide_False by done. rewrite elem_of_app, list_elem_of_singleton. naive_solver. }
  rewrite Hk. destruct (dget k old) as [e|] eqn:Eo.
  - unfold bind at 1, lift at 1. destruct (seen_again _ _ e (ticks_of (row_of r)) now interval) as [[e' cpu]|x] eqn:Es; [|done].
    unfold bind at 1, modify at 1, ret at 1. apply Hrest; [|done|done].
    intros r' Hr'. cbn. rewrite dget_dset_ne; [apply Hst; set_solver|].
    intros Heq. apply Hni. fold k. rewrite Heq. apply list_elem_of_fmap. by exists r'.
  - apply Hrest; [|done|done]. intros r' Hr'. apply Hst. set_solver.
Qed.

Definition keys_of {R} (row_of : R -> proc_row) (rows : list R) : list key := map (fun r => key_of (row_of r)) rows.

(** An update of distinct processes: every row with what it gained, and exactly these
    processes remembered with the ticks they have now. *)
Lemma update_spec {R} (row_of : R -> proc_row) rows now interval t out t' :
  NoDup (keys_of row_of rows) ->
  update active_per_min clk_tck row_of rows now interval t = (Ok out, t') ->
  map fst out = rows /\
  (forall k, k ∈ dkeys (_state t') <-> k ∈ keys_of row_of rows) /\
  Forall (fun rc => exists e, dget (key_of (row_of rc.1)) (_state t') = Some e /\
            row_outcome now interval (_updates t =? 0) (dget (key_of (row_of rc.1)) (_state t)) (row_of rc.1) e rc.2) out.
Proof.
  intros Hnd. unfold update, bind at 1, gets at 1, bind at 1, modify at 1.
  set (t0 := Tracker (_state t) (_updates t + 1)).
  pose proof (update_rows row_of now interval (_updates t =? 0) rows t0 [] [] t0) as Hu. cbn zeta in Hu.
  specialize (Hu ltac:(done) Hnd ltac:(cbn; set_solver)).
  unfold bind at 1. destruct (foldM _ ([], []) rows t0) as [[[seen dn]|e] t1]; [|done].
  cbn. intros [= <- <-]. destruct Hu as (_ & I2 & _ & cpus & I4 & I5 & I6 & I7). cbn in I2, I4.
  split; [done|]. split; [intros k; rewrite I7; cbn; set_solver|].
  cbn. rewrite I4. clear -I6. induction I6; cbn; constructor; auto.
Qed.

Lemma ticks_after now interval first before row e cpu : row_outcome now interval first before row e cpu -> ticks e = ticks_of row.
Proof.
  unfold row_outcome. destruct before as [old|]; [|by intros [-> _]].
  unfold seen_again. intros Hs. apply res_bind_ok in Hs as (c & _ & Hs). apply res_bind_ok in Hs as (l & _ & Hs).
  by injection Hs as <- _.
Qed.

(** C21. Over two successive censuses, whatever came before them: the second one's rows come out
    in order, a process of both is charged exactly the ticks it used between the two (as
    seconds), every other process of the second has no CPU figure - in particular one that took
    over a pid, whose start time differs -, and the tracker remembers exactly the processes of
    the last census. *)
Theorem consecutive_deltas {R} (row_of : R -> proc_row) rows1 now1 interval1 rows2 now2 interval2 t out1 t1 out2 t2 :
  NoDup (keys_of row_of rows1) -> NoDup (keys_of row_of rows2) ->
  update active_per_min clk_tck row_of rows1 now1 interval1 t = (Ok out1, t1) ->
  update active_per_min clk_tck row_of rows2 now2 interval2 t1 = (Ok out2, t2) ->
  map fst out2 = rows2 /\
  Forall (fun rc =>
    (forall r1, r1 ∈ rows1 -> key_of (row_of r1) = key_of (row_of rc.1) ->
       exists c, cpu_since clk_tck (ticks_of (row_of r1)) (ticks_of (row_of rc.1)) = Ok c /\ cpu_seconds rc.2 = Some c) /\
    (key_of (row_of rc.1) ∉ keys_of row_of rows1 -> rc.2 = first_sight)) out2 /\
  (forall k, k ∈ dkeys (_state t2) <-> k ∈ keys_of row_of rows2).
Proof.
  intros N1 N2 E1 E2. apply update_spec in E1 as (M1 & K1 & F1); [|done]. apply update_spec in E2 as (M2 & K2 & F2); [|done].
  split; [done|]. split; [|done]. eapply Forall_impl; [exact F2|]. intros [r cpu] (e & He & Ho). cbn [fst snd] in *. split.
  - intros r1 Hr1 Hk. rewrite <- M1 in Hr1. apply list_elem_of_fmap in Hr1 as ([r1' cpu1] & -> & Hr1).
    rewrite Forall_forall in F1. destruct (F1 _ Hr1) as (e1 & He1 & Ho1). cbn [fst snd] in *.
    rewrite Hk in He1. rewrite He1 in Ho. apply ticks_after in Ho1. unfold row_outcome, seen_again in Ho.
    apply res_bind_ok in Ho as (c & Ec & Ho). apply res_bind_ok in Ho as (l & _ & Ho). injection Ho as _ <-.
    exists c. by rewrite <- Ho1.
  - intros Hn. destruct (dget (key_of (row_of r)) (_state t1)) eqn:Eg.
    + exfalso. apply Hn, K1, elem_of_dkeys. by eexists.
    + by destruct Ho.
Qed.
End Updates.

(** A process, its successor under the same pid, and one that stays. *)
Definition demo_row (p start u s : Z) : proc_row :=
  ProcRow p 1 start 1000 None "job" None "job" "job" "R" None 0 u s 0 false false.
Definition census1 : list proc_row := [demo_row 10 5 100 20; demo_row 11 6 7 0].
Definition census2 : list proc_row := [demo_row 11 6 157 50; demo_row 10 900 3 0].
Definition demo_update rows now t := update (NFloat (flit 1 1)) 100 (fun r => r) rows now (Some (float_of_Z 60)) t.
Definition demo1 := demo_update census1 (float_of_Z 60) (Tracker [] 0).
Definition demo2 := demo_update census2 (float_of_Z 120) demo1.2.
Definition rows_of {R} (o : res (list (R * cpu_info))) : list (R * cpu_info) := match o with Ok l => l | Raise _ => [] end.

Lemma consecutive_deltas_witness :
  demo1 = (Ok (rows_of demo1.1), demo1.2) /\ demo2 = (Ok (rows_of demo2.1), demo2.2) /\
  map fst (rows_of demo2.1) = census2 /\
  map (fun rc => cpu_seconds rc.2) (rows_of demo2.1) = [Some (float_of_Z 2); None].
Proof.
  assert (E1 : update (NFloat (flit 1 1)) 100 (fun r => r) census1 (float_of_Z 60) (Some (float_of_Z 60)) (Tracker [] 0)
    = (Ok (rows_of demo1.1), demo1.2)) by (vm_compute; reflexivity).
  assert (E2 : update (NFloat (flit 1 1)) 100 (fun r => r) census2 (float_of_Z 120) (Some (float_of_Z 60)) demo1.2
    = (Ok (rows_of demo2.1), demo2.2)) by (vm_compute; reflexivity).
  assert (N1 : NoDup (keys_of (fun r => r) census1)) by (apply (bool_decide_unpack _); vm_compute; exact I).
  assert (N2 : NoDup (keys_of (fun r => r) census2)) by (apply (bool_decide_unpack _); vm_compute; exact I).
  pose proof (consecutive_deltas (NFloat (flit 1 1)) 100 (fun r => r) census1 (float_of_Z 60) (Some (float_of_Z 60))
    census2 (float_of_Z 120) (Some (float_of_Z 60)) (Tracker [] 0) (rows_of demo1.1) demo1.2 (rows_of demo2.1) demo2.2 N1 N2 E1 E2) as [A _].
  split; [exact E1|]. split; [exact E2|]. split; [exact A | vm_compute; reflexivity].
Defined.
