(* ===== verification/ProbeEmit.v ===== *)
(** * The probe's output

    [_encoded_chunks], [_write_all] and [_Emitter] of [node_monitor/probe/probe.py]: one JSON
    object per line on a file descriptor, each with the next [seq].  The JSON encoder gives a
    line in pieces, the class [Encoder].  The lock and the watchdog that also takes it are not
    modelled: the code here is what the main thread does while it holds the lock.  A
    terminating signal is what the host reports at the points where the flag is read. *)

From Stdlib Require Import ZArith Lia.
From stdpp Require Import pretty.
From S2P Require Import Prelude PyFloat PyTime PyVal Text ProbeHost.

#[local] Open Scope string_scope.
#[local] Open Scope list_scope.
#[local] Open Scope Z_scope.

(** The pieces [iterencode] yields for a value, and the exception that ends them early. *)
Class Encoder := { iterencode : value -> list string * option exn }.

(** What one [os.write] does: bytes taken, [BlockingIOError], another [OSError]. *)
Inductive written := Took (n : nat) | Blocked | Broken.

Class Output {H : Host} := {
  os_write : string -> world -> written * world;
  (** [select.select([], [fd], [])]: until the reader takes more *)
  writable : world -> world;
  (** the terminating signals Python has run the handler for by now, in order *)
  signals : world -> list Z * world;
}.

Definition eol : string := String newline "".

Definition EMIT_CHUNK_BYTES : nat := N.to_nat 65536.
Definition ERROR_MESSAGE_MAX : nat := 500.

(** ** [_encoded_chunks]

    The pieces in order, joined into chunks: [pending] is what is held, [size] its length. *)
Fixpoint chunked (limit : nat) (pending : string) (size : nat) (some : bool) (pieces : list string) : list string * string :=
  match pieces with
  | [] => ([], pending)
  | p :: ps =>
      if some && (limit <? size + String.length p)%nat then
        let '(chunks, rest) := chunked limit p (String.length p) true ps in (pending :: chunks, rest)
      else chunked limit (pending +:+ p) (size + String.length p) true ps
  end.

(** What the generator yields before it ends, or before the encoder raises. *)
Definition _encoded_chunks {E : Encoder} (msg : value) : list string * option exn :=
  let '(pieces, failed) := iterencode msg in
  match failed with
  | None => let '(chunks, rest) := chunked EMIT_CHUNK_BYTES "" 0 false (pieces ++ [eol]) in (chunks ++ [rest], None)
  | Some e => ((chunked EMIT_CHUNK_BYTES "" 0 false pieces).1, Some e)
  end.

(** [_utc_timestamp]: milliseconds, truncated. *)
Definition _utc_timestamp (now : float) : res string :=
  ms ← py_trunc (fmul now (float_of_Z 1000));
  let t := utc (ms / 1000 * second_us) in
  Ok (date_text "-" (date_of t) +:+ "T" +:+ time_text ":" (dt_us t mod day_us) +:+ "." +:+ pad 3 (ms mod 1000) +:+ "Z").

Definition _error_fields (where_ message : string) : dict :=
  [("where", VStr where_); ("message", VStr (take_chars ERROR_MESSAGE_MAX message))].

Definition _describe (e : exn) : string := exn_class e +:+ ": " +:+ exn_text e.

Definition _TERMINATING_SIGNALS : list (Z * string) := [(15, "SIGTERM"); (1, "SIGHUP"); (2, "SIGINT")].

(** The emitter with the host; [out] is everything the descriptor took. *)
Record emitter (W : Type) := Emitter {
  e_world : W;
  _seq : Z;
  _signum : option Z;
  out : string;
}.
Arguments Emitter {W}.
Arguments e_world {W}.
Arguments _seq {W}.
Arguments _signum {W}.
Arguments out {W}.

Section Emit.
Context {H : Host} {OUT : Output} {E : Encoder}.
Abbreviation em := (emitter world).
#[local] Open Scope py_scope.
#[local] Open Scope string_scope.
#[local] Open Scope list_scope.
#[local] Open Scope Z_scope.

Definition set_e_world (w : world) (s : em) : em := Emitter w (_seq s) (_signum s) (out s).
Definition set_seq (n : Z) (s : em) : em := Emitter (e_world s) n (_signum s) (out s).
Definition set_signum (n : option Z) (s : em) : em := Emitter (e_world s) (_seq s) n (out s).
Definition add_out (t : string) (s : em) : em := Emitter (e_world s) (_seq s) (_signum s) (out s +:+ t).
Definition on_out {A} : M world A -> M em A := zoom e_world set_e_world.

(** [_write_all]; [fuel] bounds the calls of [os.write], the code goes on as long as it must. *)
Fixpoint _write_all (fuel : nat) (data : string) : M em bool :=
  match data, fuel with
  | EmptyString, _ => ret true
  | _, O => raise Hang
  | _, S fuel =>
      let* w := on_out (ask (os_write data)) in
      match w with
      | Took n => modify (add_out (prefix_of n data)) ;;; _write_all fuel (drop_chars n data)
      | Blocked => on_out (modify writable) ;;; _write_all fuel data
      | Broken => raise (OSErr "write")
      end
  end.

Definition _put (fuel : nat) (text : string) : M em unit := _write_all fuel text ;;; ret tt.

(** The handler, for every signal it ran for: only the first is kept. *)
Definition _on_signal (signum : Z) (s : em) : em :=
  match _signum s with None => set_signum (Some signum) s | Some _ => s end.
Definition see_signals : M em (option Z) :=
  let* seen := on_out (ask signals) in
  modify (fun s => foldl (fun s n => _on_signal n s) s seen) ;;;
  gets _signum.

(** [for chunk in _encoded_chunks(msg): self._put(chunk); started = True]: what is left to
    raise, and whether something was written. *)
Definition put_chunks (fuel : nat) (chunks : list string) : M em bool :=
  foldM (fun _ chunk => _put fuel chunk ;;; ret true) false chunks.

Definition broken_pipe (e : exn) : option (M em bool) := if is_oserror e then Some (ret false) else None.

(** Ending the fragment of a message the encoder could not finish, and raising on. *)
Definition end_fragment (fuel : nat) (started : bool) (e : exn) : M em bool :=
  let* ok := (if started then try_except (_put fuel eol ;;; ret true) broken_pipe else ret true) in
  if ok : bool then raise e else ret false.

(** The try statement of [_write]: [false] when the reader is gone. *)
Definition write_body (fuel : nat) (chunks : list string) (failed : option exn) : M em bool :=
  try_except
    (let* started := put_chunks fuel chunks in
     match failed with None => ret true | Some e => end_fragment fuel started e end) broken_pipe.

(** [_write]: [false] when the reader is gone; an encoding error raises after the fragment it
    left has been ended. *)
Definition _write (fuel : nat) (kind : string) (fields : dict) : M em bool :=
  let* now := on_out (ask time_time) in
  let* ts := lift (_utc_timestamp now) in
  let* seq := gets _seq in
  let msg := dmerge [("type", VStr kind); ("seq", VInt seq); ("ts", VStr ts)] fields in
  let '(chunks, failed) := _encoded_chunks (VDict msg) in
  let* wrote := write_body fuel chunks failed in
  when wrote (modify (fun s => set_seq (_seq s + 1) s)) ;;;
  ret wrote.

Definition signal_name (n : Z) : string := default "signal" (dget n _TERMINATING_SIGNALS).

Definition _report_signal_and_exit {A} (fuel : nat) (n : Z) : M em A :=
  _write fuel "error"
    (_error_fields "signal" ("terminated by " +:+ signal_name n +:+ " (" +:+ pretty n +:+ ")")) ;;;
  raise (Exit (128 + n)).

Definition emit (fuel : nat) (kind : string) (fields : dict) : M em unit :=
  let* signum := see_signals in
  match signum with
  | Some n => _report_signal_and_exit fuel n
  | None =>
      let* ok := _write fuel kind fields in
      if ok : bool then ret tt else raise (Exit 0)
  end.

Definition error (fuel : nat) (where_ message : string) : M em unit := emit fuel "error" (_error_fields where_ message).

Definition check_signal (fuel : nat) : M em unit :=
  let* signum := see_signals in
  match signum with Some n => _report_signal_and_exit fuel n | None => ret tt end.
End Emit.

(** ** Chunks *)

Fixpoint text_of (l : list string) : string := match l with [] => "" | x :: l => x +:+ text_of l end.

Lemma text_of_app l1 l2 : text_of (l1 ++ l2) = text_of l1 +:+ text_of l2.
Proof. induction l1 as [|x l1 IH]; [done|]. cbn [text_of app]. by rewrite IH, string_app_assoc. Qed.

Lemma chunked_spec limit pending size some pieces chunks rest :
  size = String.length pending -> (some = false -> pending = "") ->
  chunked limit pending size some pieces = (chunks, rest) ->
  text_of (chunks ++ [rest]) = pending +:+ text_of pieces /\
  forall whole, pieces ⊆ whole -> (String.length pending <= limit \/ pending ∈ whole)%nat ->
    Forall (fun c => (String.length c <= limit)%nat \/ c ∈ whole) (chunks ++ [rest]).
Proof.
  revert pending size some chunks rest.
  induction pieces as [|p ps IH]; intros pending size some chunks rest -> Hs; cbn [chunked].
  - intros [= <- <-]. cbn [app text_of]. split; [done|]. intros whole _ Hp. by apply Forall_singleton.
  - destruct some.
    + cbn [andb]. destruct (Nat.ltb_spec limit (String.length pending + String.length p)) as [Hl|Hl].
      * destruct (chunked limit p _ true ps) as [cs r] eqn:E. intros [= <- <-].
        apply IH in E as [E1 E2]; [|done|done]. split.
        -- cbn [app text_of]. by rewrite E1.
        -- intros whole Hw Hp. constructor; [done|]. apply E2; [set_solver|]. right. set_solver.
      * intros E. apply IH in E as [E1 E2]; [|by rewrite length_app_str|done]. split.
        -- rewrite E1. cbn [text_of]. by rewrite string_app_assoc.
        -- intros whole Hw Hp. apply E2; [set_solver|]. left. rewrite length_app_str. lia.
    + cbn [andb]. rewrite Hs by done. intros E. apply IH in E as [E1 E2]; [|by rewrite length_app_str|done]. split.
      * rewrite E1. cbn [text_of]. by rewrite !string_app_nil_l.
      * intros whole Hw Hp. apply E2; [set_solver|]. right. rewrite string_app_nil_l. set_solver.
Qed.

(** A message leaves the probe in chunks that put together are its encoding and a line
    end, each of at most 65536 bytes unless it is one piece of the encoder; when the encoder
    fails, what was yielded is a prefix of the pieces. *)
Theorem encoded_chunks_whole {E : Encoder} msg :
  let '(pieces, failed) := iterencode msg in
  let '(chunks, failed') := _encoded_chunks msg in
  failed' = failed /\
  Forall (fun c => (String.length c <= EMIT_CHUNK_BYTES)%nat \/ c ∈ pieces ++ [eol]) chunks /\
  match failed with
  | None => text_of chunks = text_of pieces +:+ eol
  | Some _ => exists rest, text_of chunks +:+ rest = text_of pieces
  end.
Proof.
  unfold _encoded_chunks. destruct (iterencode msg) as [pieces [e|]].
  - destruct (chunked EMIT_CHUNK_BYTES "" 0 false pieces) as [cs r] eqn:Ec.
    apply chunked_spec in Ec as [E1 E2]; [|done|done]. cbn [fst].
    specialize (E2 (pieces ++ [eol])). split; [done|]. split.
    + apply Forall_app in E2 as [E2 _]; [exact E2 | set_solver | left; cbn; lia].
    + exists r. rewrite text_of_app in E1. cbn [text_of] in E1. rewrite string_app_nil_r, string_app_nil_l in E1. done.
  - destruct (chunked EMIT_CHUNK_BYTES "" 0 false (pieces ++ [eol])) as [cs r] eqn:Ec.
    apply chunked_spec in Ec as [E1 E2]; [|done|done]. split; [done|]. split.
    + apply E2; [done | left; cbn; lia].
    + rewrite E1, text_of_app, string_app_nil_l. cbn [text_of]. by rewrite string_app_nil_r.
Qed.

(** ** The text the descriptor takes *)

Section Tidy.
Context {H : Host} {OUT : Output} {E : Encoder}.
Abbreviation em := (emitter world).

(** Whole lines, numbered from 0 to [n - 1]; between them there may be fragments of messages
    the encoder could not finish, each ended by a line end. *)
Inductive numbered : Z -> string -> Prop :=
| num_none : numbered 0 ""
| num_line n t msg pieces :
    numbered n t -> dget "seq" msg = Some (VInt n) -> iterencode (VDict msg) = (pieces, None) ->
    numbered (n + 1) (t +:+ text_of pieces +:+ eol)
| num_fragment n t msg pieces e frag rest :
    numbered n t -> iterencode (VDict msg) = (pieces, Some e) -> frag +:+ rest = text_of pieces ->
    numbered n (t +:+ frag +:+ eol).

(** A beginning of the line numbered [n]. *)
Definition begun (n : Z) (part : string) : Prop :=
  exists msg pieces failed rest,
    dget "seq" msg = Some (VInt n) /\ iterencode (VDict msg) = (pieces, failed) /\ part +:+ rest = text_of pieces +:+ eol.

Definition good (s : em) : Prop := numbered (_seq s) (out s).
Definition cut_off (s : em) : Prop :=
  exists t part, numbered (_seq s) t /\ begun (_seq s) part /\ out s = t +:+ part.

(** What holds at an outcome: only the process's end, or a write that never returns, leaves a
    line unfinished. *)
Definition at_end {A} (r : res A) (s : em) : Prop :=
  match r with
  | Raise (Exit _) | Raise Hang => good s \/ cut_off s
  | _ => good s
  end.

(** How far a write went, and what it leaves alone. *)
Record wrote (s s' : em) (data : string) (r : res bool) : Prop := {
  w_seq : _seq s' = _seq s;
  w_text : exists part rest, data = part +:+ rest /\ out s' = out s +:+ part /\
             match r with
             | Ok b => rest = "" /\ b = true
             | Raise e => rest <> "" /\ (e = Hang \/ e = OSErr "write")
             end;
}.

Lemma write_all_wrote fuel data s : wrote s (_write_all fuel data s).2 data (_write_all fuel data s).1.
Proof.
  revert data s. induction fuel as [|fuel IH]; intros data s.
  { destruct data; cbn; split; try done.
    - exists "", "". by rewrite !string_app_nil_r.
    - eexists "", _. rewrite string_app_nil_l, string_app_nil_r. split_and!; [done|done|done|by left]. }
  destruct data as [|a data].
  { cbn. split; [done|]. exists "", "". by rewrite !string_app_nil_r. }
  cbn [_write_all]. unfold bind, on_out, zoom, ask, modify.
  destruct (os_write (String a data) (e_world s)) as [[n| |] w].
  - cbn [add_out]. set (s1 := add_out _ _). destruct (IH (drop_chars n (String a data)) s1) as [Hseq (p & q & E1 & E2 & E3)].
    split; [done|]. exists (prefix_of n (String a data) +:+ p), q. split_and!.
    + rewrite string_app_assoc, <- E1. by rewrite prefix_drop.
    + rewrite E2. subst s1. cbn. by rewrite string_app_assoc.
    + exact E3.
  - set (s1 := set_e_world _ _). destruct (IH (String a data) s1) as [Hseq (p & q & E1 & E2 & E3)].
    split; [done|]. exists p, q. split_and!; [done | by rewrite E2 | done].
  - cbn. split; [done|]. eexists "", _. rewrite string_app_nil_l, string_app_nil_r. split_and!; [done|done|done|by right].
Qed.
(** The same for a sequence of writes. *)
Record putting {A} (s s' : em) (data : string) (r : res A) : Prop := {
  p_seq : _seq s' = _seq s;
  p_text : exists part rest, data = part +:+ rest /\ out s' = out s +:+ part /\
             match r with Ok _ => rest = "" | Raise e => rest <> "" /\ (e = Hang \/ e = OSErr "write") end;
}.

Lemma put_putting fuel data s : putting s (_put fuel data s).2 data (_put fuel data s).1.
Proof.
  destruct (write_all_wrote fuel data s) as [Hs (p & q & E1 & E2 & E3)].
  unfold _put, bind. destruct (_write_all fuel data s) as [[b|e] s'].
  - destruct E3 as [-> _]. split; [done|]. by exists p, "".
  - split; [done|]. by exists p, q.
Qed.

Lemma put_chunks_putting fuel chunks s b0 :
  let '(r, s') := foldM (fun _ chunk => bind (_put fuel chunk) (fun _ => ret true)) b0 chunks s in
  putting s s' (text_of chunks) r /\ (r = Ok false -> text_of chunks = "").
Proof.
  revert s b0. induction chunks as [|c cs IH]; intros s b0; cbn [foldM text_of].
  { split; [split; [done|]; exists "", ""; by rewrite !string_app_nil_r | done]. }
  pose proof (put_putting fuel c s) as [Hs (p & q & E1 & E2 & E3)].
  unfold bind. destruct (_put fuel c s) as [[u|e] s1] eqn:Ep; cbn [ret]; cbn [fst snd] in *.
  - subst q. rewrite string_app_nil_r in E1. subst p. specialize (IH s1 true).
    destruct (foldM _ true cs s1) as [r s2] eqn:Ef.
    destruct IH as [[Hs2 (p2 & q2 & F1 & F2 & F3)] Hf]. cbn in Hs, E2. split.
    + split; [congruence|]. exists (c +:+ p2), q2. rewrite F1, string_app_assoc. split_and!; [done | | done].
      by rewrite F2, E2, string_app_assoc.
    + intros ->. assert (b0 = b0) by done. exfalso.
      clear -Ef. revert s1 Ef. induction cs as [|c cs IH]; intros s1; cbn [foldM]; [done|].
      unfold bind at 1. unfold bind at 1. destruct (_put fuel c s1) as [[u|e] s3]; cbn [ret]; [apply IH | done].
  - cbn in *. split; [|done]. split; [done|]. destruct E3 as [Hq E3]. exists p, (q +:+ text_of cs).
    rewrite E1, string_app_assoc. split_and!; [done | done | by destruct q | done].
Qed.

Lemma begun_prefix n msg pieces failed part rest :
  dget "seq" msg = Some (VInt n) -> iterencode (VDict msg) = (pieces, failed) ->
  part +:+ rest = text_of pieces -> begun n part.
Proof. intros Hn Hi Hp. exists msg, pieces, failed, (rest +:+ eol). split_and!; [done|done|]. by rewrite <- string_app_assoc, Hp. Qed.

Lemma seq_of_message kind n ts fields :
  "seq" ∉ dkeys fields -> dget "seq" (dmerge [("type", VStr kind); ("seq", VInt n); ("ts", VStr ts)] fields) = Some (VInt n).
Proof.
  intros Hf. rewrite dget_dmerge.
  destruct (dget "seq" (rev fields)) as [v|] eqn:Ev; [|reflexivity].
  exfalso. apply Hf. apply dget_elem in Ev. apply list_elem_of_In in Ev. rewrite <- in_rev in Ev. apply list_elem_of_In in Ev. unfold dkeys. apply list_elem_of_fmap. by exists ("seq", v).
Qed.

Definition write_outcome (r : res bool) (s : em) : Prop :=
  match r with
  | Ok true => good s
  | Ok false | Raise Hang => cut_off s
  | Raise _ => good s
  end.

(** Encoding errors are exceptions that no write raises. *)
Lemma chunks_text msg : let '(pieces, failed) := iterencode msg in
  (_encoded_chunks msg).2 = failed /\
  match failed with
  | None => text_of (_encoded_chunks msg).1 = text_of pieces +:+ eol
  | Some _ => exists rest, text_of (_encoded_chunks msg).1 +:+ rest = text_of pieces
  end.
Proof.
  pose proof (encoded_chunks_whole msg) as W. destruct (iterencode msg) as [pieces failed].
  destruct (_encoded_chunks msg) as [cs f]. naive_solver.
Qed.

Lemma cut_at (s s' : em) t part :
  numbered (_seq s) t -> _seq s' = _seq s -> out s' = t +:+ part -> begun (_seq s) part -> cut_off s'.
Proof. intros Hn Hs Ho Hb. exists t, part. rewrite Hs. done. Qed.

Lemma good_at (s s' : em) : good s -> _seq s' = _seq s -> out s' = out s -> good s'.
Proof. unfold good. by intros Hg -> ->. Qed.

Lemma good_cut (s : em) msg : good s -> dget "seq" msg = Some (VInt (_seq s)) -> cut_off s.
Proof.
  intros Hg Hm. exists (out s), "". rewrite string_app_nil_r. split; [done|]. split; [|done].
  destruct (iterencode (VDict msg)) as [pieces failed] eqn:Hi. by eapply (begun_prefix _ msg pieces failed "" _).
Qed.

Lemma one_char_cut p q : eol = p +:+ q -> q <> "" -> p = "".
Proof.
  destruct p as [|a p]; [done|]. rewrite string_app_cons. intros [= _ Hp] Hq. by destruct p, q.
Qed.

(** The outcome of one message's text, before [_seq] is counted up. *)
Definition body_outcome (msg : dict) (s : em) (r : res bool) (s' : em) : Prop :=
  _seq s' = _seq s /\
  match r with
  | Ok true => exists pieces, iterencode (VDict msg) = (pieces, None) /\ out s' = out s +:+ text_of pieces +:+ eol
  | Ok false | Raise Hang => cut_off s'
  | Raise _ => good s'
  end.

Lemma body_good_raise msg s s' e : _seq s' = _seq s -> good s' -> dget "seq" msg = Some (VInt (_seq s)) ->
  body_outcome msg s (Raise e) s' /\ body_outcome msg s (Ok false) s'.
Proof.
  intros Hs Hg Hm. assert (Hc : cut_off s') by (eapply good_cut; [done|]; by rewrite Hs).
  split; split; try done. by destruct e.
Qed.

Lemma end_fragment_tidy fuel started e msg pieces rest s s1 :
  good s -> dget "seq" msg = Some (VInt (_seq s)) -> iterencode (VDict msg) = (pieces, Some e) ->
  _seq s1 = _seq s -> (started = false -> out s1 = out s) ->
  (exists frag, out s1 = out s +:+ frag /\ frag +:+ rest = text_of pieces) ->
  body_outcome msg s (end_fragment fuel started e s1).1 (end_fragment fuel started e s1).2 /\
  (good (end_fragment fuel started e s1).2 \/ (end_fragment fuel started e s1).1 = Ok false \/ (end_fragment fuel started e s1).1 = Raise Hang).
Proof.
  intros Hg Hm Hi Hs1 Hns (frag & Ho & Hf). unfold end_fragment, try_except.
  destruct started; cbn.
  - pose proof (put_putting fuel eol s1) as [Hs2 (p & q & F1 & F2 & F3)]. unfold bind.
    destruct (_put fuel eol s1) as [[u|x] s2]; cbn [ret fst snd] in *.
    + subst q. rewrite string_app_nil_r in F1. subst p.
      assert (G2 : good s2).
      { unfold good. rewrite Hs2, Hs1, F2, Ho, string_app_assoc. by eapply num_fragment. }
      split; [apply (body_good_raise msg s s2 e); [congruence|done..] | by left].
    + destruct F3 as [Hq Hx]. rewrite (one_char_cut p q F1 Hq), string_app_nil_r in F2.
      assert (Hc : cut_off s2).
      { eapply cut_at; [exact Hg | congruence | by rewrite F2, Ho |]. by eapply begun_prefix. }
      destruct Hx as [-> | ->]; cbn; (split; [split; [congruence | done] | by (right; (left + right))]).
  - assert (G1 : good s1) by (eapply good_at; [exact Hg | done | auto]).
    split; [apply (body_good_raise msg s s1 e); done | by left].
Qed.

Lemma broken_pipe_outcome msg s c r s1 :
  c s = (r, s1) ->
  match r with
  | Raise x => if is_oserror x then body_outcome msg s (Ok false) s1 else body_outcome msg s r s1
  | Ok _ => body_outcome msg s r s1
  end ->
  body_outcome msg s (try_except c broken_pipe s).1 (try_except c broken_pipe s).2.
Proof.
  intros Ec Hb. unfold try_except, broken_pipe. rewrite Ec. destruct r as [b|x]; [done|].
  by destruct (is_oserror x).
Qed.

Lemma write_body_tidy fuel msg s :
  good s -> dget "seq" msg = Some (VInt (_seq s)) ->
  let '(chunks, failed) := _encoded_chunks (VDict msg) in
  body_outcome msg s (write_body fuel chunks failed s).1 (write_body fuel chunks failed s).2.
Proof.
  intros Hg Hm. pose proof (chunks_text (VDict msg)) as Ht.
  destruct (_encoded_chunks (VDict msg)) as [chunks failed']. destruct (iterencode (VDict msg)) as [pieces failed] eqn:Hi.
  cbn [fst snd] in Ht. destruct Ht as [-> Ht].
  pose proof (put_chunks_putting fuel chunks s false) as Hp. unfold write_body. fold (put_chunks fuel chunks) in Hp.
  destruct (put_chunks fuel chunks s) as [[started|e] s1] eqn:Ep; destruct Hp as [[Hs (p & q & E1 & E2 & E3)] Hst].
  - subst q. rewrite string_app_nil_r in E1. subst p. destruct failed as [e|].
    + destruct Ht as [rest Ht].
      pose proof (end_fragment_tidy fuel started e msg pieces rest s s1 Hg Hm Hi Hs) as [Hb Hc].
      { intros ->. by rewrite E2, Hst, string_app_nil_r. }
      { by exists (text_of chunks). }
      destruct (end_fragment fuel started e s1) as [r s2] eqn:Ee. cbn [fst snd] in *.
      eapply broken_pipe_outcome; [by erewrite run_bind by exact Ep|]. destruct r as [b|x]; [done|].
      destruct (is_oserror x) eqn:Hx; [|done]. destruct Hc as [Hc|[Hc|Hc]]; [|done|by injection Hc as ->].
      eapply (body_good_raise msg s s2 x); [apply Hb | done | done].
    + eapply broken_pipe_outcome; [by erewrite run_bind by exact Ep|].
      split; [done|]. exists pieces. split; [done|]. by rewrite E2, Ht.
  - assert (Hc : cut_off s1).
    { eapply cut_at; [exact Hg | exact Hs | exact E2 |]. destruct failed as [x|].
      - destruct Ht as [rest Ht]. eapply begun_prefix; [done|exact Hi|]. rewrite <- Ht, E1. by rewrite <- string_app_assoc.
      - exists msg, pieces, None, q. by rewrite <- E1, Ht. }
    eapply broken_pipe_outcome; [by erewrite run_bind by exact Ep|].
    by destruct E3 as [_ [-> | ->]].
Qed.

Lemma timestamp_raises now e : _utc_timestamp now = Raise e -> e <> Hang.
Proof.
  unfold _utc_timestamp, py_trunc. destruct (fmul now (float_of_Z 1000)); cbn [mbind res_bind]; congruence.
Qed.

Lemma write_tidy fuel kind fields : "seq" ∉ dkeys fields -> hoare good (_write fuel kind fields) write_outcome.
Proof.
  intros Hf. apply hoare_run. intros s Hg. unfold _write. unfold bind at 1, on_out at 1, zoom, ask.
  destruct (time_time (e_world s)) as [now w]. cbn [fst snd].
  unfold bind at 1, lift. destruct (_utc_timestamp now) as [ts|e] eqn:Et; last first.
  { apply timestamp_raises in Et. cbn. destruct e; try exact Hg. by destruct Et. }
  unfold bind at 1, gets. cbv zeta beta. cbn [_seq set_e_world].
  set (s0 := set_e_world w s). set (msg := dmerge _ fields).
  assert (Hm : dget "seq" msg = Some (VInt (_seq s0))) by by apply seq_of_message.
  pose proof (write_body_tidy fuel msg s0 Hg Hm) as Hb.
  destruct (_encoded_chunks (VDict msg)) as [chunks failed]. unfold bind at 1.
  destruct (write_body fuel chunks failed s0) as [[[|]|e] s1]; cbn in Hb |- *; destruct Hb as [Hs Hb]; [|done|done].
  destruct Hb as (pieces & Hi & Ho). unfold good. cbn. rewrite Ho, Hs.
  eapply num_line; [exact Hg | exact Hm | exact Hi].
Qed.

Lemma good_quiet (s : em) w : good s -> good (set_e_world w s).
Proof. done. Qed.

Lemma see_signals_tidy : hoare good see_signals (fun r s => good s /\ exists n, r = Ok n).
Proof.
  intros s Hg. unfold see_signals, bind, on_out, zoom, ask, modify, gets. cbn.
  destruct (signals (e_world s)) as [l w]. cbn. split; [|by eexists].
  assert (Hl : forall s : em, good s -> good (foldl (fun s n => _on_signal n s) s l)).
  { clear. induction l as [|n l IH]; intros s Hg; cbn; [done|]. apply IH.
    unfold _on_signal. by destruct (_signum s). }
  apply Hl. by apply good_quiet.
Qed.

Lemma report_tidy {A} fuel n : hoare good (_report_signal_and_exit (A := A) fuel n) at_end.
Proof.
  unfold _report_signal_and_exit. intros s Hg.
  pose proof (write_tidy fuel "error" (_error_fields "signal" ("terminated by " +:+ signal_name n +:+ " (" +:+ pretty n +:+ ")"))) as W.
  specialize (W ltac:(cbn; set_solver) s Hg). unfold bind.
  destruct (_write _ _ _ s) as [[[|]|e] s1]; cbn in *; [by left | by right |].
  destruct e; try done; [by left | by right].
Qed.

Lemma emit_tidy fuel kind fields : "seq" ∉ dkeys fields -> hoare good (emit fuel kind fields) at_end.
Proof.
  intros Hf. unfold emit. eapply hoare_bind with (R := fun _ s => good s).
  { eapply hoare_post; [apply see_signals_tidy|]. by intros r s [? [n ->]]. }
  intros [n|]; [apply report_tidy|].
  intros s Hg. pose proof (write_tidy fuel kind fields Hf s Hg) as W. unfold bind.
  destruct (_write _ _ _ s) as [[[|]|e] s1]; cbn in *; [done | by right |].
  destruct e; try done; [by left | by right].
Qed.

Lemma error_tidy fuel where_ message : hoare good (error fuel where_ message) at_end.
Proof. apply emit_tidy. cbn. set_solver. Qed.

Lemma check_signal_tidy fuel : hoare good (check_signal fuel) at_end.
Proof.
  unfold check_signal. eapply hoare_bind with (R := fun _ s => good s).
  { eapply hoare_post; [apply see_signals_tidy|]. by intros r s [? [n ->]]. }
  intros [n|]; [apply report_tidy | by apply hoare_ret].
Qed.
End Tidy.

(** ** A write ends *)

Section Ends.
Context {H : Host} {OUT : Output} (stall : world -> nat) (most : nat).

(** What the reader does: a write takes something or fails, and a blocked one is followed by
    at most [stall] more, never more than [most] in a row. *)
Definition reads_on : Prop :=
  forall d w, d <> "" ->
    match os_write d w with
    | (Took n, w') => (0 < n)%nat /\ (stall w' <= most)%nat
    | (Blocked, w') => (stall (writable w') < stall w)%nat
    | (Broken, _) => True
    end.

Lemma length_drop_some n s : s <> "" -> (0 < n)%nat -> (String.length (drop_chars n s) < String.length s)%nat.
Proof.
  intros Hs Hn. rewrite length_drop_chars. destruct s as [|a s]; [done|]. cbn [String.length]. lia.
Qed.

Lemma write_all_ends fuel data (s : emitter world) : reads_on ->
  (String.length data * S most + stall (e_world s) <= fuel)%nat ->
  match _write_all fuel data s with
  | (Ok _, s') => out s' = out s +:+ data
  | (Raise e, s') => e = OSErr "write" /\ exists part rest, data = part +:+ rest /\ out s' = out s +:+ part
  end.
Proof.
  intros Hr. revert data s. induction fuel as [|fuel IH]; intros data s Hf.
  { destruct data; [by rewrite string_app_nil_r | cbn in Hf; lia]. }
  destruct data as [|a d]; [by rewrite string_app_nil_r|]. set (data := String a d) in *.
  assert (Hne : data <> "") by done.
  change (_write_all (S fuel) data s) with
    ((bind (on_out (ask (os_write data))) (fun w =>
      match w with
      | Took n => bind (modify (add_out (prefix_of n data))) (fun _ => _write_all fuel (drop_chars n data))
      | Blocked => bind (on_out (modify writable)) (fun _ => _write_all fuel data)
      | Broken => raise (OSErr "write")
      end)) s).
  unfold bind at 1, on_out at 1, zoom at 1, ask. specialize (Hr data (e_world s) Hne).
  destruct (os_write data (e_world s)) as [[n| |] w'].
  - destruct Hr as [Hn Hm]. unfold bind, modify.
    set (s1 := add_out (prefix_of n data) (set_e_world w' s)).
    assert (Hlen := length_drop_some n data Hne Hn).
    specialize (IH (drop_chars n data) s1). change (e_world s1) with w' in IH.
    assert (Hf1 : (String.length (drop_chars n data) * S most + stall w' <= fuel)%nat) by nia.
    specialize (IH Hf1). destruct (_write_all fuel (drop_chars n data) s1) as [[b|e] s2].
    + rewrite IH. subst s1. cbn [out add_out set_e_world]. by rewrite string_app_assoc, prefix_drop.
    + destruct IH as (-> & part & rest & Hd & Ho). split; [done|]. exists (prefix_of n data +:+ part), rest.
      rewrite string_app_assoc, <- Hd, prefix_drop. split; [done|]. rewrite Ho. subst s1. cbn [out add_out set_e_world].
      by rewrite string_app_assoc.
  - unfold bind, on_out, zoom, modify. set (s1 := set_e_world (writable w') (set_e_world w' s)).
    specialize (IH data s1). change (e_world s1) with (writable w') in IH. change (out s1) with (out s) in IH.
    apply IH. lia.
  - split; [done|]. exists "", data. split; [by rewrite string_app_nil_l | by rewrite string_app_nil_r].
Qed.
End Ends.

(** C33. Writing a line to a slow reader ends, whatever is blocked in between: as long as a
    write takes something or fails and is blocked at most [most] times in a row, [_write_all]
    makes at most (most + 1) calls for a byte and then has written every byte, in order and
    once, or failed after some of them. *)
Theorem write_all_terminates {H : Host} {OUT : Output} stall most data (s : emitter world) fuel :
  reads_on stall most -> (stall (e_world s) <= most)%nat ->
  (S (String.length data) * S most <= fuel)%nat ->
  match _write_all fuel data s with
  | (Ok _, s') => out s' = out s +:+ data
  | (Raise e, s') => e = OSErr "write" /\ exists part rest, data = part +:+ rest /\ out s' = out s +:+ part
  end.
Proof. intros Hr Hs Hf. apply (write_all_ends stall most); [done | lia]. Qed.

(** A pipe that takes two bytes at a time and is blocked before each. *)
Definition pipe_host : Host := still_host [] [] [] [].
Definition pipe : Output (H := pipe_host) := @Build_Output pipe_host
  (fun _ (w : Z) => if Z.even w then (Blocked, w) else (Took 2, w + 1))
  (fun w : Z => w + 1) (fun w => ([], w)).
Definition pipe_stall (w : Z) : nat := if Z.even w then 1 else 0.

Lemma pipe_reads_on : reads_on (H := pipe_host) (OUT := pipe) pipe_stall 1.
Proof.
  intros d w _. cbn. destruct (Z.even w) eqn:E; unfold pipe_stall.
  - rewrite E, Z.even_add, E. cbn. lia.
  - split; [lia|]. destruct (Z.even (w + 1)); lia.
Qed.

Lemma write_all_terminates_witness :
  match _write_all (H := pipe_host) (OUT := pipe) 18 "a line.." (Emitter (W := Z) 0 0 None "") with
  | (Ok _, s') => out s' = "" +:+ "a line.."
  | (Raise e, s') => e = OSErr "write" /\ exists part rest, "a line.." = part +:+ rest /\ out s' = "" +:+ part
  end.
Proof.
  apply (write_all_terminates (H := pipe_host) (OUT := pipe) pipe_stall 1 "a line.." (Emitter (W := Z) 0 0 None "") 18).
  - exact pipe_reads_on.
  - vm_compute. lia.
  - vm_compute. lia.
Defined.

(** With less fuel than that the pipe may still be blocked. *)
Example pipe_written :
  let '(r, s) := _write_all (H := pipe_host) (OUT := pipe) 18 "a line.." (Emitter (W := Z) 0 0 None "") in
  r = Ok true /\ out s = "a line.." /\ (_write_all (H := pipe_host) (OUT := pipe) 7 "a line.." (Emitter (W := Z) 0 0 None "")).1 = Raise Hang.
Proof. vm_compute. auto. Qed.
