(* ===== verification/ProbeLock.v ===== *)
(** * One probe per user and node

    [ProbeLock] of [node_monitor/probe/probe.py]: an flock on a file that holds the holder's
    pid.  A live holder is signalled, with SIGTERM and then SIGKILL, only when its command
    line carries the marker.  The two waiting loops are bounded by the clock; [fuel] bounds
    them in the model. *)

From Stdlib Require Import ZArith Lia.
From stdpp Require Import pretty.
From S2P Require Import Prelude PyFloat PyTime PyVal Codec Text ProbeHost.

#[local] Open Scope string_scope.
#[local] Open Scope list_scope.
#[local] Open Scope Z_scope.

Definition MARKER : string := "node-monitor-probe".
Definition LOCK_TAKEOVER_WAIT_SEC : float := float_of_Z 5.
Definition LOCK_POLL_SEC : float := flit 1 1.
Definition LOCK_PID_WAIT_SEC : float := float_of_Z 1.
Definition SIGTERM : Z := 15.
Definition SIGKILL : Z := 9.

Class LockFile {H : Host} := {
  (** [os.open(path, O_RDWR | O_CREAT, 0o600)] *)
  open_lock : string -> world -> option os_failure * world;
  (** [fcntl.flock(fd, LOCK_EX | LOCK_NB)]: [None] when it is taken *)
  flock : world -> option os_failure * world;
  (** [os.ftruncate(fd, 0)], [os.write(fd, data)], [os.close(fd)] *)
  truncate : world -> option os_failure * world;
  write_lock : string -> world -> option os_failure * world;
  close_lock : world -> world;
  (** the first 64 bytes of the lock file; [None] on an [OSError] *)
  read_lock : string -> world -> option string * world;
  kill : Z -> Z -> world -> world;
}.

Definition lock_held_by_other (pid : option Z) (reason : string) : exn :=
  LockHeldByOther (reason +:+ " (holder pid " +:+ match pid with Some p => pretty p | None => "None" end +:+ ")").

(** EAGAIN (which is EWOULDBLOCK) and EACCES *)
Definition LOCK_BUSY : list Z := [11; 13].

(** [bytes.decode("ascii", "replace")] *)
Fixpoint decode_ascii (s : string) : string :=
  match s with
  | EmptyString => EmptyString
  | String a s => if is_ascii_char a then String a (decode_ascii s) else bytes_string replacement +:+ decode_ascii s
  end.

Section Lock.
Context {H : Host} {U : Unicode} {L : LockFile} (lock_path : string) (fuel : nat).
#[local] Open Scope py_scope.
#[local] Open Scope string_scope.
#[local] Open Scope list_scope.
#[local] Open Scope Z_scope.

(** A call that raises the [OSError] it meets. *)
Definition try_call (f : world -> option os_failure * world) : M world unit :=
  fun w => match f w with (None, w) => (Ok tt, w) | (Some e, w) => (Raise (os_exn e), w) end.

Definition _read_lock_pid : M world (option Z) :=
  let* bytes := ask (read_lock lock_path) in
  match bytes with
  | None => ret None
  | Some b => let text := strip (decode_ascii b) in
              if isdigit text then let* z := lift (py_int text) in ret (Some z) else ret None
  end.

Definition _cmdline_of (pid : Z) : M world (option string) :=
  try_except (read_text ("/proc/" +:+ pretty pid +:+ "/cmdline"))
    (fun e => if is_oserror e then Some (ret None) else None).

Definition _try_lock : M world bool :=
  fun w => match flock w with
           | (None, w) => (Ok true, w)
           | (Some f, w) => if decide (errno f ∈ LOCK_BUSY) then (Ok false, w) else (Raise (os_exn f), w)
           end.

Fixpoint wait_until (n : nat) (deadline : float) : M world bool :=
  match n with
  | O => raise Hang
  | S n =>
      let* got := _try_lock in
      if got : bool then ret true
      else
        let* now := ask monotonic in
        if fleb deadline now then ret false
        else modify (sleep LOCK_POLL_SEC) ;;; wait_until n deadline
  end.

Definition _wait_for_lock (timeout : float) : M world bool :=
  let* now := ask monotonic in wait_until fuel (fadd now timeout).

(** The first loop of [_acquire]: [None] when the lock was taken, or the holder's pid. *)
Fixpoint find_holder (n : nat) (deadline : float) : M world (option Z) :=
  match n with
  | O => raise Hang
  | S n =>
      let* got := _try_lock in
      if got : bool then ret None
      else
        let* pid := _read_lock_pid in
        match pid with
        | Some p => ret (Some p)
        | None =>
            let* now := ask monotonic in
            if fleb deadline now then raise (lock_held_by_other None "lock file names no pid")
            else modify (sleep LOCK_POLL_SEC) ;;; find_holder n deadline
        end
  end.

Definition _signal_probe (pid sig : Z) : M world unit :=
  if (pid <=? 1) || (pid =? getpid) then raise (lock_held_by_other (Some pid) "refusing to signal this pid")
  else
    let* cmdline := _cmdline_of pid in
    match cmdline with
    | None => ret tt
    | Some c =>
        if contains MARKER c then modify (kill pid sig)
        else raise (lock_held_by_other (Some pid) "lock holder is not a node-monitor probe")
    end.

(** [for sig in (SIGTERM, SIGKILL)] *)
Fixpoint take_over (pid : Z) (sigs : list Z) : M world unit :=
  match sigs with
  | [] => raise (lock_held_by_other (Some pid) "previous probe did not release the lock")
  | sig :: sigs =>
      _signal_probe pid sig ;;;
      let* got := _wait_for_lock LOCK_TAKEOVER_WAIT_SEC in
      if got : bool then ret tt else take_over pid sigs
  end.

Definition _acquire : M world unit :=
  let* now := ask monotonic in
  let* holder := find_holder fuel (fadd now LOCK_PID_WAIT_SEC) in
  match holder with
  | None => ret tt
  | Some pid => take_over pid [SIGTERM; SIGKILL]
  end.

(** [ProbeLock.acquire]; an exception closes the descriptor. *)
Definition acquire : M world unit :=
  try_call (open_lock lock_path) ;;;
  try_except
    (_acquire ;;; try_call truncate ;;; try_call (write_lock (pretty getpid +:+ String newline "")))
    (fun e => match e with Hang => None | e => Some (modify close_lock ;;; raise e) end).
End Lock.

(** ** Whom the lock signals *)

Section Signals.
Context {H : Host} {U : Unicode} {L : LockFile}.

Definition cmdline_path (pid : Z) : string := "/proc/" +:+ pretty pid +:+ "/cmdline".

(** Every call keeps [I], a signal only when it goes to another process than init and the
    caller, right after its command line was read and carried the marker. *)
Record only_marked (I : world -> Prop) : Prop := {
  om_slurp : forall p w, I w -> I (slurp p w).2;
  om_flock : forall w, I w -> I (flock w).2;
  om_read : forall p w, I w -> I (read_lock p w).2;
  om_open : forall p w, I w -> I (open_lock p w).2;
  om_truncate : forall w, I w -> I (truncate w).2;
  om_write : forall t w, I w -> I (write_lock t w).2;
  om_close : forall w, I w -> I (close_lock w);
  om_clock : forall w, I w -> I (monotonic w).2;
  om_sleep : forall f w, I w -> I (sleep f w);
  om_kill : forall pid sig w bytes w', I w -> slurp (cmdline_path pid) w = (inr bytes, w') ->
    contains MARKER (decoded bytes) = true -> 1 < pid -> pid <> getpid -> sig ∈ [SIGTERM; SIGKILL] ->
    I (kill pid sig w');
}.

Context (I : world -> Prop) (HI : only_marked I).

Lemma keeps_ask {A} (f : world -> A * world) : (forall w, I w -> I (f w).2) -> keeps I (ask f).
Proof. intros Hf w Hw. specialize (Hf w Hw). unfold ask. by destruct (f w). Qed.

Lemma keeps_call f : (forall w, I w -> I (f w).2) -> keeps I (try_call f).
Proof. intros Hf w Hw. specialize (Hf w Hw). unfold try_call. by destruct (f w) as [[]]. Qed.

Lemma keeps_try_lock : keeps I _try_lock.
Proof.
  intros w Hw. pose proof (om_flock I HI w Hw) as Hf. unfold _try_lock.
  destruct (flock w) as [[f|] w']; [by case_match | done].
Qed.

Lemma keeps_wait n deadline : keeps I (wait_until n deadline).
Proof.
  induction n as [|n IH]; cbn [wait_until]; [apply keeps_raise|].
  apply keeps_bind; [apply keeps_try_lock|]. intros [|]; [apply keeps_ret|].
  apply keeps_bind; [apply keeps_ask, HI|]. intros now. apply keeps_if; [apply keeps_ret|].
  apply keeps_bind; [apply keeps_modify, HI | done].
Qed.

Lemma keeps_read_pid path : keeps I (_read_lock_pid path).
Proof.
  apply keeps_bind; [apply keeps_ask, HI|]. intros [b|]; [|apply keeps_ret]. cbv zeta.
  apply keeps_if; [|apply keeps_ret]. apply keeps_bind; [apply keeps_lift | intros; apply keeps_ret].
Qed.

Lemma keeps_find_holder path n deadline : keeps I (find_holder path n deadline).
Proof.
  induction n as [|n IH]; cbn [find_holder]; [apply keeps_raise|].
  apply keeps_bind; [apply keeps_try_lock|]. intros [|]; [apply keeps_ret|].
  apply keeps_bind; [apply keeps_read_pid|]. intros [p|]; [apply keeps_ret|].
  apply keeps_bind; [apply keeps_ask, HI|]. intros now. apply keeps_if; [apply keeps_raise|].
  apply keeps_bind; [apply keeps_modify, HI | done].
Qed.

Lemma keeps_signal pid sig : sig ∈ [SIGTERM; SIGKILL] -> keeps I (_signal_probe pid sig).
Proof.
  intros Hsig. unfold _signal_probe. destruct ((pid <=? 1) || (pid =? getpid)) eqn:Ep; [apply keeps_raise|].
  apply orb_false_iff in Ep as [E1 E2]. apply Z.leb_gt in E1. apply Z.eqb_neq in E2.
  intros w Hw. unfold bind, _cmdline_of, try_except, read_text. fold (cmdline_path pid).
  pose proof (om_slurp I HI (cmdline_path pid) w Hw) as Hs.
  destruct (slurp (cmdline_path pid) w) as [[f|bytes] w'] eqn:Er; cbn in Hs.
  - case_decide; exact Hs.
  - destruct (contains MARKER (decoded bytes)) eqn:Em; cbn; [|done].
    eapply om_kill; [exact HI | exact Hw | exact Er | done | done | done | done].
Qed.

Lemma keeps_take_over fuel pid sigs : Forall (fun s => s ∈ [SIGTERM; SIGKILL]) sigs -> keeps I (take_over fuel pid sigs).
Proof.
  induction 1 as [|sig sigs Hsig Hs IH]; cbn [take_over]; [apply keeps_raise|].
  apply keeps_bind; [by apply keeps_signal|]. intros _.
  apply keeps_bind; [apply keeps_bind; [apply keeps_ask, HI | intros; apply keeps_wait]|].
  intros [|]; [apply keeps_ret | done].
Qed.

(** C24. Taking the probe's lock signals nobody but a live probe: whatever holds of the host and
    is kept by every call [acquire] makes, with SIGTERM or SIGKILL to a process counted as such
    a call only when it is neither init nor the caller and its command line, read just before,
    carries the probe's marker, holds after [acquire] at every outcome. *)
Theorem signals_marked lock_path fuel w : I w -> I (acquire lock_path fuel w).2.
Proof.
  intros Hw. enough (K : keeps I (acquire lock_path fuel)) by exact (K w Hw). unfold acquire.
  apply keeps_bind; [apply keeps_call, HI|]. intros _. apply keeps_try.
  - apply keeps_bind; [|intros _; apply keeps_bind; intros; apply keeps_call, HI].
    apply keeps_bind; [apply keeps_ask, HI|]. intros now. apply keeps_bind; [apply keeps_find_holder|].
    intros [pid|]; [apply keeps_take_over; repeat constructor | apply keeps_ret].
  - intros e k Hk. assert (k = bind (modify close_lock) (fun _ => raise e)) as -> by (destruct e; first [discriminate Hk | by injection Hk as <-]).
    apply keeps_bind; [apply keeps_modify, HI | intros; apply keeps_raise].
Qed.
End Signals.

(** A host where pid 900 holds the lock until it gets SIGKILL; the world is a clock and the
    signals sent. *)
Definition held_world : Type := Z * list (Z * Z).
Definition with_log (p : Z) (cmdline : string) : Host := {|
  world := held_world;
  slurp path w := (if decide (path = cmdline_path p) then inr cmdline else inl no_entry, w);
  readlink _ w := (None, w);
  listdir _ w := (None, w);
  isdir _ w := (false, w);
  clk_tck := 100;
  page_size := 4096;
  getpid := 4242;
  getpwuid _ w := (None, w);
  getppid w := (77, w);
  monotonic w := (float_of_Z w.1, (w.1 + 1, w.2));
  time_time w := (float_of_Z w.1, w);
  sleep _ w := (w.1 + 1, w.2);
  which _ w := (None, w);
  proc := unit;
  popen _ w := (inl no_entry, w);
  communicate _ _ w := (inl TimeoutExpired, w);
  killpg _ w := w;
  poll _ w := (inr None, w);
  returncode _ := 0;
|}.
Definition held_host : Host := with_log 900 ("python3" +:+ String "000" MARKER).
(** [open], [flock], [ftruncate], [write], [close], [read] and [kill], in this order. *)
Definition held_lock : LockFile (H := held_host) := @Build_LockFile held_host
  (fun _ w => (None, w))
  (fun w : held_world => (if decide ((900, SIGKILL) ∈ w.2) then None else Some (Failure 11 "BlockingIOError" "busy"), w))
  (fun w => (None, w))
  (fun _ w => (None, w))
  (fun w => w)
  (fun _ w => (Some ("900" +:+ String newline ""), w))
  (fun p sig (w : held_world) => (w.1, w.2 ++ [(p, sig)])).

(** Only pid 900 was ever signalled. *)
Definition only_900 (w : held_world) : Prop := Forall (fun k => k.1 = 900) w.2.

Lemma pretty_then_slash (a b : Z) (t : string) : pretty a +:+ t = pretty b +:+ t -> a = b.
Proof.
  intros Hp. apply (inj pretty). revert Hp. generalize (pretty a), (pretty b). clear.
  intros s1 s2 E. apply (f_equal String.list_ascii_of_string) in E.
  assert (Happ : forall x y, String.list_ascii_of_string (x +:+ y) = String.list_ascii_of_string x ++ String.list_ascii_of_string y).
  { clear. induction x as [|c x IH]; intros y; [done|]. rewrite string_app_cons. cbn. by rewrite IH. }
  rewrite !Happ in E. apply app_inv_tail in E.
  by rewrite <- (String.string_of_list_ascii_of_string s1), E, String.string_of_list_ascii_of_string.
Qed.

Lemma signals_marked_witness :
  only_marked (H := held_host) (L := held_lock) only_900 /\
  only_900 (acquire (H := held_host) (U := ascii_only) (L := held_lock) "/dev/shm/l" 20 (0, [])).2 /\
  acquire (H := held_host) (U := ascii_only) (L := held_lock) "/dev/shm/l" 20 (0, []) = (Ok tt, (8, [(900, SIGTERM); (900, SIGKILL)])).
Proof.
  assert (Hm : only_marked (H := held_host) (L := held_lock) only_900).
  { split; try (intros; assumption).
    intros pid sig w bytes w' Hw Hs Hc _ _ _. cbn in Hs, Hw |- *. unfold only_900 in *. cbn.
    case_decide as Hp; [|discriminate Hs]. injection Hs as _ <-. apply Forall_app. split; [exact Hw|].
    apply Forall_singleton. cbn. unfold cmdline_path in Hp. apply (inj (String.append "/proc/")) in Hp.
    by apply pretty_then_slash in Hp. }
  split; [exact Hm|]. split.
  - apply (signals_marked (H := held_host) (U := ascii_only) (L := held_lock) only_900 Hm). constructor.
  - vm_compute. reflexivity.
Defined.
