(* ===== verification/ProbeStream.v ===== *)
(** * The probe's census, its stream and its main loop

    The rest of [node_monitor/probe/probe.py]: [_Census] with the suspension of GPU queries,
    the hello and counters messages, [_next_due], [stream] and [once].  The watchdog thread is
    not modelled; what it does is end the process. *)

From Stdlib Require Import ZArith Lia.
From stdpp Require Import pretty.
From S2P Require Import Prelude PyFloat PyTime PyVal Text ProbeHost ProbeNode ProbeProc ProbeGpu ProbeTracker ProbeEmit ProbeLock.

#[local] Open Scope string_scope.
#[local] Open Scope list_scope.
#[local] Open Scope Z_scope.

Class Process {H : Host} := {
  getuid : Z;
  python_version : string;
  getfqdn : world -> string * world;
  (** user time, system time and peak resident size: of the process, or of its children *)
  getrusage : bool -> world -> (float * float * Z) * world;
  set_core_limit : world -> world;
  (** ["%g" % x] *)
  format_g : float -> string;
}.

Definition PROBE_VERSION : Z := 1.
Definition GPU_SUSPEND_SEC : Z := 600.
Definition GPU_IDENTICAL_FAILURES_TO_SUSPEND : Z := 3.
Definition PARENT_POLL_SEC : float := float_of_Z 1.
Definition SELF_SMAPS_ROLLUP : string := "/proc/self/smaps_rollup".
Definition SELF_STATUS : string := "/proc/self/status".

(** The process: the emitter (which holds the host), the abandoned children and the census
    object. *)
Record probe_state (W P : Type) := Probe {
  p_em : emitter W;
  p_abandoned : list P;
  p_uid_names : list (Z * option string);
  p_tracker : tracker;
  _last_start : option float;
  _gpu_resume_at : option float;
  _gpu_failure : option string;
  _gpu_failure_streak : Z;
}.
Arguments Probe {W P}.
Arguments p_em {W P}.
Arguments p_abandoned {W P}.
Arguments p_uid_names {W P}.
Arguments p_tracker {W P}.
Arguments _last_start {W P}.
Arguments _gpu_resume_at {W P}.
Arguments _gpu_failure {W P}.
Arguments _gpu_failure_streak {W P}.

(** What the census object is made with. *)
Record census_config := CensusConfig {
  cc_roots : roots;
  cc_active : num;
  cc_gpu : bool;
  cc_gpu_timeout : float;
  cc_gpu_suspend : float;
}.

(** [float(v)] of a configured value *)
Definition as_float {U : Unicode} (v : value) : res float :=
  match v with
  | VStr s => py_float s
  | v => match num_of v with Some n => to_float n | None => Raise TypeError end
  end.

(** [_next_due] *)
Definition _next_due (due interval now : float) : res float :=
  let next := fadd due interval in
  if fleb next now then
    if fltb fzero interval then
      k ← py_trunc (fdiv (fsub now next) interval);
      n ← to_float (NInt (k + 1));
      Ok (fadd next (fmul interval n))
    else Ok (fadd next (fsub now next))
  else Ok next.

(** The fields a row is sent with, in order. *)
Definition row_value (r : proc_row) (p : parent_info) (c : cpu_info) (gpu_mem_mb : option Z) : value :=
  VDict
    [("pid", VInt (pid r)); ("ppid", VInt (ppid r)); ("start_time", VInt (start_time r)); ("uid", VInt (uid r));
     ("username", val_opt VStr (username r)); ("comm", VStr (comm r)); ("exe", val_opt VStr (exe r));
     ("argv0", VStr (argv0 r)); ("cmdline", VStr (cmdline r)); ("state", VStr (state r));
     ("threads", val_opt VInt (threads r)); ("rss_kb", VInt (rss_kb r)); ("tty_nr", VInt (tty_nr r));
     ("interactive", VBool (interactive r)); ("session_leader", VBool (session_leader r));
     ("parent_comm", val_opt VStr (parent_comm p)); ("parent_exe", val_opt VStr (parent_exe p));
     ("under_screen_or_tmux", VBool (under_screen_or_tmux p)); ("parent_kind", VStr (parent_kind p));
     ("cpu_seconds", val_opt VFloat (cpu_seconds c)); ("cpu_state", val_opt VStr (cpu_state c));
     ("idle_for_sec", idle_for_sec c); ("idle_for_is_lower_bound", VBool (idle_for_is_lower_bound c));
     ("gpu_mem_mb", val_opt VInt gpu_mem_mb)].

Section Probe.
Context {H : Host} {U : Unicode} {OUT : Output} {E : Encoder} {L : LockFile} {PR : Process}.
(** The bound on the calls of one [_write_all] and on the rounds of a wait for the lock. *)
Context (fuel : nat).
Abbreviation probe := (probe_state world proc).
#[local] Open Scope py_scope.
#[local] Open Scope string_scope.
#[local] Open Scope list_scope.
#[local] Open Scope Z_scope.

Definition set_em (e : emitter world) (s : probe) : probe :=
  Probe e (p_abandoned s) (p_uid_names s) (p_tracker s) (_last_start s) (_gpu_resume_at s) (_gpu_failure s) (_gpu_failure_streak s).
Definition set_last_start (f : float) (s : probe) : probe :=
  Probe (p_em s) (p_abandoned s) (p_uid_names s) (p_tracker s) (Some f) (_gpu_resume_at s) (_gpu_failure s) (_gpu_failure_streak s).
Definition set_gpu_resume_at (f : option float) (s : probe) : probe :=
  Probe (p_em s) (p_abandoned s) (p_uid_names s) (p_tracker s) (_last_start s) f (_gpu_failure s) (_gpu_failure_streak s).
Definition set_gpu_failure (f : option string) (n : Z) (s : probe) : probe :=
  Probe (p_em s) (p_abandoned s) (p_uid_names s) (p_tracker s) (_last_start s) (_gpu_resume_at s) f n.

Definition p_world (s : probe) : world := e_world (p_em s).
Definition set_p_world (w : world) (s : probe) : probe := set_em (set_e_world w (p_em s)) s.
Definition in_world {A} : M world A -> M probe A := zoom p_world set_p_world.
Definition in_em {A} : M (emitter world) A -> M probe A := zoom p_em set_em.
Definition in_children {A} : M (children_state world proc) A -> M probe A :=
  zoom (fun s : probe => Children (p_world s) (p_abandoned s))
       (fun c s => let s := set_p_world (c_world c) s in
                   Probe (p_em s) (abandoned c) (p_uid_names s) (p_tracker s) (_last_start s) (_gpu_resume_at s) (_gpu_failure s) (_gpu_failure_streak s)).
Definition in_scan {A} (c : M (scan_state world) A) : M probe (A * list (string * Z)) :=
  fun s => let '(r, sc) := c (Scan (p_world s) (p_uid_names s) []) in
           let s := set_p_world (host sc) s in
           (match r with Ok a => Ok (a, coverage sc) | Raise e => Raise e end,
            Probe (p_em s) (p_abandoned s) (uid_names sc) (p_tracker s) (_last_start s) (_gpu_resume_at s) (_gpu_failure s) (_gpu_failure_streak s)).
Definition in_tracker {A} : M tracker A -> M probe A :=
  zoom p_tracker (fun t s => Probe (p_em s) (p_abandoned s) (p_uid_names s) t (_last_start s) (_gpu_resume_at s) (_gpu_failure s) (_gpu_failure_streak s)).

Definition send (kind : string) (fields : dict) : M probe unit := in_em (emit fuel kind fields).
Definition send_error (where_ message : string) : M probe unit := in_em (error fuel where_ message).

(** [except Exception as exc: self._emitter.error(where, _describe(exc))] *)
Definition reporting (where_ : string) (c : M probe unit) : M probe unit :=
  try_except c (fun e => if is_exception e then Some (send_error where_ (_describe e)) else None).

(** ** The process's own size *)

Fixpoint kb_line (name : string) (ls : list string) : res (option Z) :=
  match ls with
  | [] => Ok None
  | line :: ls =>
      if String.prefix (name +:+ ":") line then
        match words line with
        | _ :: v :: _ => if isdigit v then z ← py_int v; Ok (Some z) else kb_line name ls
        | _ => kb_line name ls
        end
      else kb_line name ls
  end.

Definition _kb_field (path name : string) : M world (option Z) :=
  let* text := try_except (let* t := read_text path in ret (Some t))
                 (fun e => if is_oserror e then Some (ret None) else None) in
  match text with
  | None => ret None
  | Some t => lift (kb_line name (lines (default "" t)))
  end.

Definition own_rss_kb (smaps_rollup_path status_path : string) : M world (option Z) :=
  let* rss := _kb_field smaps_rollup_path "Rss" in
  match rss with Some r => ret (Some r) | None => _kb_field status_path "VmRSS" end.

(** ** hello and counters *)

Definition _emit_hello (gpu : bool) (r : roots) : M probe unit :=
  let* ' (identity, problems) :=
    try_except (let* i := in_world (boot_identity r) in ret (i, []))
      (fun e => if is_exception e then Some (ret ((None, None), [_describe e])) else None) in
  let* ' (hardware, problems) :=
    try_except (let* h := in_children (collect_hardware r gpu) in ret (Some h, problems))
      (fun e => if is_exception e then Some (ret (None, problems ++ [_describe e])) else None) in
  let* fqdn := in_world (ask getfqdn) in
  send "hello"
    [("probe_version", VInt PROBE_VERSION); ("python_version", VStr python_version); ("hostname_fqdn", VStr fqdn);
     ("pid", VInt getpid); ("boot_id", val_opt VStr identity.1); ("btime", val_opt VInt identity.2);
     ("hardware", val_opt VDict hardware)] ;;;
  foldM (fun _ problem => send_error "hello" problem) tt problems.

Definition cpu_time (u : float * float * Z) : value := VFloat (round_digits 3 (fadd u.1.1 u.1.2)).

Definition _emit_counters (r : roots) (rss_sources : string * string) : M probe unit :=
  reporting "counters"
    (let* fields := in_world (collect_counters r) in
     let* own := in_world (ask (getrusage true)) in
     let* kids := in_world (ask (getrusage false)) in
     let* rss := in_world (own_rss_kb rss_sources.1 rss_sources.2) in
     send "counters"
       (dset "probe_self"
          (VDict [("cpu_seconds", cpu_time own); ("children_cpu_seconds", cpu_time kids);
                  ("maxrss_kb", VInt own.2); ("rss_kb", val_opt VInt rss)]) fields)).

(** ** The census *)

Section Census.
Context (cfg : census_config).

Definition _suspend_gpu (reason : string) : M probe unit :=
  let* now := in_world (ask monotonic) in
  modify (set_gpu_resume_at (Some (fadd now (cc_gpu_suspend cfg)))) ;;;
  send_error "gpu" (reason +:+ "; GPU queries suspended for " +:+ format_g (cc_gpu_suspend cfg) +:+ " s").

(** Whether queries are suspended now. *)
Definition suspended : M probe bool :=
  let* resume := gets _gpu_resume_at in
  match resume with
  | None => ret false
  | Some at_ => let* now := in_world (ask monotonic) in ret (fltb now at_)
  end.

(** The answer with its status: "ok", "absent", "error" or "suspended". *)
Definition gpu_report : Type := list dict * list (Z * Z) * string.
Definition failed_report : gpu_report := ([], [], "error").

(** What a failure other than a timeout does. *)
Definition gpu_failed (error : string) : M probe unit :=
  let* ' (failure, streak) := gets (fun s => (_gpu_failure s, _gpu_failure_streak s)) in
  let streak := if bool_decide (failure = Some error) then streak + 1 else 1 in
  modify (set_gpu_failure (Some error) streak) ;;;
  if GPU_IDENTICAL_FAILURES_TO_SUSPEND <=? streak
  then _suspend_gpu (error +:+ "; " +:+ pretty streak +:+ " identical failures")
  else send_error "gpu" error.

Definition _query_gpus : M probe gpu_report :=
  if negb (cc_gpu cfg) then ret ([], [], "absent")
  else
    let* wait := suspended in
    if wait : bool then ret ([], [], "suspended")
    else
      modify (set_gpu_resume_at None) ;;;
      let* binary := in_world (ask (which "nvidia-smi")) in
      match binary with
      | None => ret ([], [], "absent")
      | Some _ =>
          let* ' (gpus, by_pid, error) := in_children (query_gpus (cc_gpu_timeout cfg)) in
          match error with
          | None => modify (set_gpu_failure None 0) ;;; ret (gpus, by_pid, "ok")
          | Some err =>
              (if bool_decide (err = GPU_TIMEOUT_ERROR)
               then modify (set_gpu_failure None 0) ;;; _suspend_gpu err
               else gpu_failed err) ;;;
              ret failed_report
          end
      end.

Definition _take : M probe dict :=
  let* start := in_world (ask monotonic) in
  in_children reap_abandoned_gpu_queries ;;;
  let* ' (rows, cov) := in_scan (scan_processes (cc_roots cfg)) in
  let* ' (gpus, gpu_mem_by_pid, gpu_status) := _query_gpus in
  let* last := gets _last_start in
  let interval := option_map (fun l => round_digits 3 (fsub start l)) last in
  let* done := in_tracker (update (cc_active cfg) clk_tck fst rows start interval) in
  modify (set_last_start start) ;;;
  let* now := in_world (ask monotonic) in
  ret [("interval_sec", val_opt VFloat interval);
       ("scan_seconds", VFloat (round_digits 3 (fsub now start)));
       ("coverage", VDict (map (fun kv => (kv.1, VInt kv.2)) cov));
       ("gpus", VList (map VDict gpus));
       ("gpu_status", VStr gpu_status);
       ("processes", VList (map (fun rc => row_value rc.1.1 rc.1.2 rc.2 (dget (pid rc.1.1) gpu_mem_by_pid)) done))].

Definition census_emit : M probe unit :=
  reporting "census" (let* fields := _take in send "census" fields).
End Census.

(** ** stream *)

Definition default_config : dict :=
  [("counter_interval_sec", VInt 10); ("census_interval_sec", VInt 60); ("active_cpu_seconds_per_min", VFloat (flit 1 1));
   ("lock_path", VStr ("/dev/shm/node-monitor-" +:+ pretty getuid +:+ ".lock")); ("proc_root", VStr "/proc");
   ("sys_root", VStr "/sys"); ("gpu", VBool true); ("probe_rss_limit_mb", VInt 128); ("gpu_timeout_sec", VFloat (float_of_Z 5));
   ("gpu_suspend_sec", VInt GPU_SUSPEND_SEC); ("self_smaps_rollup_path", VStr SELF_SMAPS_ROLLUP);
   ("self_status_path", VStr SELF_STATUS)].

Definition _resolve_config (config : dict) : dict :=
  foldl (fun d kv => match kv.2 with VNone => d | v => dset kv.1 v d end) default_config config.

(** What the loop runs with. *)
Record settings := Settings {
  s_census : census_config;
  s_counter_interval : float;
  s_census_interval : float;
  s_rss_limit_kb : float;
  s_rss_sources : string * string;
}.

(** [_roots], [_rss_sources] *)
Definition _roots (cfg : dict) : res roots :=
  p ← as_str (dget_or_none "proc_root" cfg); y ← as_str (dget_or_none "sys_root" cfg); Ok (Roots p y None).
Definition _rss_sources (cfg : dict) : res (string * string) :=
  smaps ← as_str (dget_or_none "self_smaps_rollup_path" cfg);
  status ← as_str (dget_or_none "self_status_path" cfg); Ok (smaps, status).

(** [_Census.__init__] *)
Definition new_census (cfg : dict) (r : roots) : res census_config :=
  active ← match num_of (dget_or_none "active_cpu_seconds_per_min" cfg) with Some n => Ok n | None => Raise TypeError end;
  timeout ← as_float (dget_or_none "gpu_timeout_sec" cfg);
  suspend ← as_float (dget_or_none "gpu_suspend_sec" cfg);
  Ok (CensusConfig r active (truthy (dget_or_none "gpu" cfg)) timeout suspend).

Definition read_settings (cfg : dict) (r : roots) : res settings :=
  c ← new_census cfg r;
  counter ← as_float (dget_or_none "counter_interval_sec" cfg);
  census ← as_float (dget_or_none "census_interval_sec" cfg);
  limit ← as_float (dget_or_none "probe_rss_limit_mb" cfg);
  sources ← _rss_sources cfg;
  Ok (Settings c counter census (fmul limit (float_of_Z 1024)) sources).

Definition float_min (a b : float) : float := if fltb b a then b else a.

(** One turn of the loop: the next due times, or the value [stream] returns. *)
Definition due_times : Type := float * float.

Definition turn (s : settings) (parent : Z) (due : due_times) : M probe (Z + due_times) :=
  let '(next_counters, next_census) := due in
  in_em (check_signal fuel) ;;;
  let* p := in_world (ask getppid) in
  if negb (p =? parent) then ret (inl 0)
  else
    let* now := in_world (ask monotonic) in
    let* next_counters :=
      (if fleb next_counters now then
         _emit_counters (cc_roots (s_census s)) (s_rss_sources s) ;;;
         let* now := in_world (ask monotonic) in
         lift (_next_due next_counters (s_counter_interval s) now)
       else ret next_counters) in
    let* now := in_world (ask monotonic) in
    let* next :=
      (if fleb next_census now then
         census_emit (s_census s) ;;;
         let* rss := in_world (own_rss_kb (s_rss_sources s).1 (s_rss_sources s).2) in
         match rss with
         | Some kb =>
             if num_ltb (NFloat (s_rss_limit_kb s)) (NInt kb)
             then send "bye" [("reason", VStr "rss_limit"); ("rss_kb", VInt kb)] ;;; ret None
             else let* now := in_world (ask monotonic) in
                  let* n := lift (_next_due next_census (s_census_interval s) now) in ret (Some n)
         | None => let* now := in_world (ask monotonic) in
                   let* n := lift (_next_due next_census (s_census_interval s) now) in ret (Some n)
         end
       else ret (Some next_census)) in
    match next with
    | None => ret (inl 0)
    | Some next_census =>
        let* now := in_world (ask monotonic) in
        let wait := fsub (float_min next_counters next_census) now in
        (if fltb fzero wait then in_world (modify (sleep (float_min wait PARENT_POLL_SEC))) else ret tt) ;;;
        ret (inr (next_counters, next_census))
    end.

(** The loop: [None] when it is still going after [n] turns. *)
Fixpoint loop (n : nat) (s : settings) (parent : Z) (due : due_times) : M probe (option Z) :=
  match n with
  | O => ret None
  | S n =>
      let* next := turn s parent due in
      match next with inl code => ret (Some code) | inr due => loop n s parent due end
  end.

(** Taking the lock; [Some 3] when it cannot be had. *)
Definition lock_or_give_up (lock_path : string) : M probe (option Z) :=
  try_except (in_world (acquire lock_path fuel) ;;; ret None)
    (fun e => match e with
              | LockHeldByOther _ => Some (send_error "lock" (exn_text e) ;;; ret (Some 3))
              | e => if is_oserror e then Some (send_error "lock" (lock_path +:+ ": " +:+ _describe e) ;;; ret (Some 3)) else None
              end).

Definition stream (n : nat) (config : dict) : M probe (option Z) :=
  let cfg := _resolve_config config in
  in_world (modify set_core_limit) ;;;
  let* parent := in_world (ask getppid) in
  let* lock_path := lift (as_str (dget_or_none "lock_path" cfg)) in
  let* refused := lock_or_give_up lock_path in
  match refused with
  | Some code => ret (Some code)
  | None =>
      let* r := lift (_roots cfg) in
      _emit_hello (truthy (dget_or_none "gpu" cfg)) r ;;;
      let* s := lift (read_settings cfg r) in
      let* now := in_world (ask monotonic) in
      loop n s parent (now, now)
  end.

Definition once (config : dict) : M probe Z :=
  let cfg := _resolve_config config in
  let* r := lift (_roots cfg) in
  _emit_hello (truthy (dget_or_none "gpu" cfg)) r ;;;
  let* sources := lift (_rss_sources cfg) in
  _emit_counters r sources ;;;
  let* c := lift (new_census cfg r) in
  census_emit c ;;;
  ret 0.

(** The process as it starts. *)
Definition started (w : world) : probe := Probe (Emitter w 0 None "") [] [] (Tracker [] 0) None None None 0.
End Probe.

(** ** The counters carry no [seq] of their own *)

Lemma not_in_dset {V} (k k' : string) (v : V) d : k' <> k -> k ∉ dkeys d -> k ∉ dkeys (dset k' v d).
Proof. intros Hk Hd. rewrite dkeys_dset. case_decide; [done|]. rewrite elem_of_app. set_solver. Qed.

Lemma not_in_dmerge {V} k (d1 d2 : list (string * V)) : k ∉ dkeys d1 -> k ∉ dkeys d2 -> k ∉ dkeys (dmerge d1 d2).
Proof.
  unfold dmerge. revert d1. induction d2 as [|[k2 v2] d2 IH]; intros d1 H1 H2; cbn; [done|].
  cbn in H2. apply not_elem_of_cons in H2 as [Hk H2]. apply IH; [|done]. by apply not_in_dset.
Qed.

Section Tidiness.
Context {H : Host} {U : Unicode} {OUT : Output} {E : Encoder} {L : LockFile} {PR : Process}.
Context (fuel : nat).
Abbreviation probe := (probe_state world proc).

Definition gives {A} (φ : A -> Prop) (c : M world A) : Prop :=
  forall w, match (c w).1 with Ok a => φ a | Raise _ => True end.

Lemma gives_any {A} (c : M world A) : gives (fun _ => True) c.
Proof. intros w. by destruct (c w).1. Qed.
Lemma gives_ret {A} (φ : A -> Prop) a : φ a -> gives φ (ret a).
Proof. intros Ha w. exact Ha. Qed.
Lemma gives_lift {A} (φ : A -> Prop) (r : res A) : (forall a, r = Ok a -> φ a) -> gives φ (lift r).
Proof. intros Hr w. cbn. destruct r; auto. Qed.
Lemma gives_bind {A B} (φ : A -> Prop) (ψ : B -> Prop) (c : M world A) (k : A -> M world B) :
  gives φ c -> (forall a, φ a -> gives ψ (k a)) -> gives ψ (bind c k).
Proof.
  intros Hc Hk w. unfold bind. specialize (Hc w). destruct (c w) as [[a|e] w']; cbn in *; [by apply Hk | done].
Qed.

Lemma loadavg_keys line d t : loadavg_of line = Ok (d, t) -> "seq" ∉ dkeys d.
Proof.
  assert (Hn : "seq" ∉ dkeys (@nil (string * value))) by set_solver.
  unfold loadavg_of. destruct (words line) as [|p0 [|p1 [|p2 [|p3 ?]]]]; try by intros [= <- _].
  destruct (partition_at "/" p3) as [running total]. cbv zeta. intros Ho.
  apply res_bind_ok in Ho as (o & Eo & Ho). destruct o as [o|]; [|by injection Ho as <- _].
  assert (Hk : "seq" ∉ dkeys o).
  { unfold loadavg_numbers, on_value_error in Eo.
    destruct (py_float p0); cbn in Eo; [|by destruct e]. destruct (py_float p1); cbn in Eo; [|by destruct e].
    destruct (py_float p2); cbn in Eo; [|by destruct e]. destruct (py_int running); cbn in Eo; [|by destruct e].
    injection Eo as <-. cbn. set_solver. }
  destruct (isdigit _); [|by injection Ho as <- _].
  apply res_bind_ok in Ho as (z & _ & Ho). by injection Ho as <- _.
Qed.

Lemma counters_keys r : gives (fun d => "seq" ∉ dkeys d) (collect_counters r).
Proof.
  unfold collect_counters.
  eapply gives_bind; [apply gives_any|]. intros up _. cbv zeta.
  apply gives_bind with (φ := fun p => "seq" ∉ dkeys p.1).
  { unfold _collect_loadavg. eapply gives_bind; [apply gives_any|]. intros [line|] _.
    - apply gives_lift. intros [d t] Hd. by eapply loadavg_keys.
    - apply gives_ret. cbn. set_solver. }
  intros [load procs] Hl. cbn in Hl.
  eapply gives_bind; [apply gives_any|]. intros a _. do 4 (eapply gives_bind; [apply gives_any|]; intros ? _).
  apply gives_ret. repeat (apply not_in_dset; [discriminate|]).
  assert (Hb : "seq" ∉ dkeys (dmerge match up with Some f => [("uptime_sec", VFloat f)] | None => [] end load)).
  { apply not_in_dmerge; [|done]. destruct up; cbn; set_solver. }
  destruct procs, a; cbv iota; repeat (apply not_in_dset; [discriminate|]); exact Hb.
Qed.
(** ** The stream stays whole *)

Definition good_p (s : probe) : Prop := good (p_em s).
(** [c] leaves whole numbered lines at every outcome but the end of the process. *)
Definition tidy {A} (c : M probe A) : Prop := hoare good_p c (fun r s => at_end r (p_em s)).

Lemma tidy_quiet {A} (c : M probe A) :
  (forall s, _seq (p_em (c s).2) = _seq (p_em s) /\ out (p_em (c s).2) = out (p_em s)) -> tidy c.
Proof.
  intros Hc s Hg. destruct (Hc s) as [Hs Ho].
  assert (Hg' : good (p_em (c s).2)) by by eapply good_at.
  destruct (c s).1 as [a|e]; cbn; [done|]. destruct e; try done; by left.
Qed.
Lemma tidy_ret {A} (a : A) : tidy (ret a).
Proof. by apply tidy_quiet. Qed.
Lemma tidy_raise {A} e : tidy (A := A) (raise e).
Proof. by apply tidy_quiet. Qed.
Lemma tidy_lift {A} (r : res A) : tidy (lift r).
Proof. by apply tidy_quiet. Qed.
Lemma tidy_gets {A} (f : probe -> A) : tidy (gets f).
Proof. by apply tidy_quiet. Qed.
Lemma tidy_in_world {A} (c : M world A) : tidy (in_world c).
Proof. apply tidy_quiet. intros s. unfold in_world, zoom. by destruct (c _). Qed.
Lemma tidy_in_children {A} (c : M (children_state world proc) A) : tidy (in_children c).
Proof. apply tidy_quiet. intros s. unfold in_children, zoom. by destruct (c _). Qed.
Lemma tidy_in_scan {A} (c : M (scan_state world) A) : tidy (in_scan c).
Proof. apply tidy_quiet. intros s. unfold in_scan. by destruct (c _). Qed.
Lemma tidy_in_tracker {A} (c : M tracker A) : tidy (in_tracker c).
Proof. apply tidy_quiet. intros s. unfold in_tracker, zoom. by destruct (c _). Qed.
Lemma tidy_modify f : (forall s, p_em (f s) = p_em s) -> tidy (modify f).
Proof. intros Hf. apply tidy_quiet. intros s. cbn. by rewrite Hf. Qed.
Lemma tidy_in_em {A} (c : M (emitter world) A) : hoare good c at_end -> tidy (in_em c).
Proof. intros Hc s Hg. specialize (Hc _ Hg). unfold in_em, zoom. by destruct (c (p_em s)). Qed.

Lemma tidy_bind {A B} (c : M probe A) (k : A -> M probe B) : tidy c -> (forall a, tidy (k a)) -> tidy (bind c k).
Proof.
  intros Hc Hk. eapply hoare_bind with (R := fun _ => good_p); [|done].
  eapply hoare_post; [exact Hc|]. by intros [a|e] s Hs.
Qed.
Lemma tidy_bind_gives {A B} (φ : A -> Prop) (c : M world A) (k : A -> M probe B) :
  gives φ c -> (forall a, φ a -> tidy (k a)) -> tidy (bind (in_world c) k).
Proof.
  intros Hc Hk s Hg. pose proof (tidy_in_world c s Hg) as Ht. specialize (Hc (p_world s)).
  unfold bind. unfold in_world, zoom in *. destruct (c (p_world s)) as [[a|e] w]; cbn in *; [|exact Ht].
  by apply Hk.
Qed.
Lemma tidy_try {A} (c : M probe A) h :
  tidy c -> (forall e k, h e = Some k -> is_exception e = true /\ tidy k) -> tidy (try_except c h).
Proof.
  intros Hc Hh. eapply hoare_try with (R := fun e s => at_end (A := A) (Raise e) (p_em s)).
  - eapply hoare_post; [exact Hc|]. by intros [a|e] s Hs.
  - intros e k He. destruct (Hh e k He) as [Hx Hk]. eapply hoare_pre; [exact Hk|]. intros s Hs. by destruct e.
  - by intros e s _ Hs.
Qed.
Lemma tidy_if {A} (b : bool) (c1 c2 : M probe A) : tidy c1 -> tidy c2 -> tidy (if b then c1 else c2).
Proof. by destruct b. Qed.
Lemma tidy_foldM {A B} (f : B -> A -> M probe B) l b : (forall b x, tidy (f b x)) -> tidy (foldM f b l).
Proof. intros Hf. revert b. induction l as [|x l IH]; intros b; cbn; [apply tidy_ret | apply tidy_bind; auto]. Qed.

Lemma tidy_send kind fields : "seq" ∉ dkeys fields -> tidy (send fuel kind fields).
Proof. intros Hf. by apply tidy_in_em, emit_tidy. Qed.
Lemma tidy_send_error where_ message : tidy (send_error fuel where_ message).
Proof. apply tidy_in_em, error_tidy. Qed.
Lemma tidy_check : tidy (in_em (check_signal fuel)).
Proof. apply tidy_in_em, check_signal_tidy. Qed.

Lemma tidy_reporting where_ c : tidy c -> tidy (reporting fuel where_ c).
Proof.
  intros Hc. apply tidy_try; [done|]. intros e k. destruct (is_exception e) eqn:He; [|done].
  intros [= <-]. split; [done | apply tidy_send_error].
Qed.

Create HintDb tidy discriminated.
#[local] Hint Resolve tidy_ret tidy_raise tidy_lift tidy_gets tidy_in_world tidy_in_children tidy_in_scan tidy_in_tracker
  tidy_bind tidy_if tidy_foldM tidy_send_error tidy_check tidy_reporting : tidy.
Ltac tidy := repeat first
  [ progress intros | simple apply tidy_ret | match goal with Hx : _ |- _ => simple apply Hx end | simple apply tidy_bind | apply tidy_if | apply tidy_reporting | case_match
  | solve [auto with tidy] | apply tidy_modify; done | apply tidy_send; cbn; set_solver ].

Lemma hello_tidy gpu r : tidy (_emit_hello fuel gpu r).
Proof.
  unfold _emit_hello. apply tidy_bind.
  { apply tidy_try; [tidy|]. intros e k. destruct (is_exception e) eqn:He; [|done]. intros [= <-]. split; [done | tidy]. }
  intros [identity problems]. apply tidy_bind.
  { apply tidy_try; [tidy|]. intros e k. destruct (is_exception e) eqn:He; [|done]. intros [= <-]. split; [done | tidy]. }
  intros [hardware problems']. tidy.
Qed.

Lemma counters_tidy r sources : tidy (_emit_counters fuel r sources).
Proof.
  unfold _emit_counters. apply tidy_reporting. eapply tidy_bind_gives; [apply counters_keys|].
  intros fields Hf. do 3 (apply tidy_bind; [tidy|]; intros ?). apply tidy_send. by apply not_in_dset.
Qed.

Lemma suspend_tidy cfg reason : tidy (_suspend_gpu fuel cfg reason).
Proof. unfold _suspend_gpu. tidy. Qed.
Lemma query_gpus_tidy cfg : tidy (_query_gpus fuel cfg).
Proof.
  unfold _query_gpus, suspended, gpu_failed. pose proof (suspend_tidy cfg). tidy.
Qed.

Lemma take_tidy cfg : tidy (_take fuel cfg).
Proof. unfold _take. pose proof (query_gpus_tidy cfg). tidy. Qed.

Lemma take_keys cfg s d s' : _take fuel cfg s = (Ok d, s') -> "seq" ∉ dkeys d.
Proof.
  unfold _take. intros Ht.
  repeat match type of Ht with
  | bind ?c _ ?s = _ => let r := fresh "r" in let t := fresh "s" in
      unfold bind at 1 in Ht; destruct (c s) as [[r|] t]; [|discriminate Ht]
  | (match ?p with _ => _ end) _ = _ => destruct p
  end.
  injection Ht as <- _. cbn. set_solver.
Qed.

Lemma census_tidy cfg : tidy (census_emit fuel cfg).
Proof.
  apply tidy_reporting. intros s Hg. pose proof (take_tidy cfg s Hg) as Ht. pose proof (take_keys cfg s) as Hk.
  unfold bind. destruct (_take fuel cfg s) as [[d|e] s']; cbn in *; [|exact Ht].
  apply tidy_send; [by eapply Hk | exact Ht].
Qed.

Lemma turn_tidy s parent due : tidy (turn fuel s parent due).
Proof.
  unfold turn. pose proof counters_tidy. pose proof census_tidy. destruct due as [nc ns]. tidy.
Qed.

Lemma loop_tidy n s parent due : tidy (loop fuel n s parent due).
Proof.
  revert due. induction n as [|n IH]; intros due; cbn [loop]; [apply tidy_ret|].
  apply tidy_bind; [apply turn_tidy|]. intros [code|due']; [apply tidy_ret | apply IH].
Qed.

Lemma lock_tidy lock_path : tidy (lock_or_give_up fuel lock_path).
Proof.
  unfold lock_or_give_up. apply tidy_try; [tidy|]. intros e k.
  destruct e; cbn; try discriminate; intros [= <-]; (split; [done | tidy]).
Qed.

(** C10. At every outcome of the probe's stream but the end of the process, everything it wrote
    is whole lines numbered from 0 without a gap, the messages in the order of their numbers
    (an encoding error leaves a fragment with a line end of its own and takes no number); when
    the process ends, or hangs, in a write, at most the line under way is unfinished. *)
Theorem stream_numbered n config w :
  at_end (stream fuel n config (started w)).1 (p_em (stream fuel n config (started w)).2).
Proof.
  assert (Ht : tidy (stream fuel n config)).
  { unfold stream. pose proof lock_tidy. pose proof hello_tidy. pose proof loop_tidy. tidy. }
  apply Ht. unfold good_p. cbn. constructor.
Qed.
End Tidiness.
