(* ===== verification/Recorder.v ===== *)
(** * The soak recorder

    [SoakRecorder] of [node_monitor/collector/soak.py]: a line of JSON for every message and
    event of a node, in a file a node and UTC day.  The state holds the directory, the open
    files (with what their buffers have not got to the disk), the count of errors and the
    clock; [io n] says what the [n]-th operation on a file does: all of it ([None]), or an
    [OSError] after so many bytes.  The modes of the files and the report on stderr are left
    out; labels are file names. *)

From Stdlib Require Import ZArith Lia.
From S2P Require Import Prelude PyFloat PyTime PyVal Text.

#[local] Open Scope string_scope.
#[local] Open Scope list_scope.
#[local] Open Scope Z_scope.
#[local] Open Scope py_scope.

(** [json.dumps] with its default separators, which keep to ASCII *)
Class LineText {JT : JsonText} := { line_dumps : value -> res string }.

(** A file opened for appending: its name, and what was written but is not on disk yet. *)
Record handle := Handle { h_name : string; h_pending : string; h_closed : bool }.

Record recorder := Recorder {
  disk : gmap string string;
  _files : list (string * (string * handle));
  write_errors : Z;
  io : nat -> option nat;
  ios : nat;
  clock_of : nat -> datetime;
  ticks : nat;
}.

Definition set_disk d r := Recorder d (_files r) (write_errors r) (io r) (ios r) (clock_of r) (ticks r).
Definition set_files fs r := Recorder (disk r) fs (write_errors r) (io r) (ios r) (clock_of r) (ticks r).
Definition set_errors n r := Recorder (disk r) (_files r) n (io r) (ios r) (clock_of r) (ticks r).
Definition set_ios n r := Recorder (disk r) (_files r) (write_errors r) (io r) n (clock_of r) (ticks r).
Definition set_ticks n r := Recorder (disk r) (_files r) (write_errors r) (io r) (ios r) (clock_of r) n.

(** ** What is recorded of a message *)

(** [a < b]: numbers by value, texts and lists in dictionary order. *)
Definition py_text_lt (a b : string) : bool := negb (bool_decide (a = b)) && bool_decide (String.le a b).
Fixpoint py_lt (a b : value) : res bool :=
  match num_of a, num_of b with
  | Some m, Some n => Ok (num_ltb m n)
  | _, _ =>
      match a, b with
      | VStr s, VStr t => Ok (py_text_lt s t)
      | VList l, VList m =>
          (fix lt (l m : list value) : res bool :=
             match l, m with
             | _, [] => Ok false
             | [], _ :: _ => Ok true
             | x :: l, y :: m => if py_eq x y then lt l m else py_lt x y
             end) l m
      | _, _ => Raise TypeError
      end
  end.

(** [min(l)] and [max(l)] of a list that is not empty: the first of the least, of the greatest *)
Definition py_least (x : value) (l : list value) : res value :=
  foldl (fun m y => m ← m; lt ← py_lt y m; Ok (if lt : bool then y else m)) (Ok x) l.
Definition py_greatest (x : value) (l : list value) : res value :=
  foldl (fun m y => m ← m; lt ← py_lt m y; Ok (if lt : bool then y else m)) (Ok x) l.
Definition or_none (f : value -> list value -> res value) (l : list value) : res value :=
  match l with [] => Ok VNone | x :: l => f x l end.

(** A set of values: lists and dictionaries have no hash. *)
Definition hashable (v : value) : bool := match v with VList _ | VDict _ => false | _ => true end.
Fixpoint distinct (seen : list value) (l : list value) : res (list value) :=
  match l with
  | [] => Ok seen
  | v :: l =>
      if hashable v then distinct (if existsb (py_eq v) seen then seen else seen ++ [v]) l
      else Raise TypeError
  end.

(** [msg.get("processes") or []], a list of objects if it is used *)
Fixpoint as_objects (l : list value) : res (list dict) :=
  match l with
  | [] => Ok []
  | VDict d :: l => ds ← as_objects l; Ok (d :: ds)
  | _ => Raise AttributeError
  end.
Definition processes_of (msg : dict) : res (list dict) :=
  let v := dget_or_none "processes" msg in
  if truthy v then
    match v with VList l => as_objects l | VStr _ | VDict _ => Raise AttributeError | _ => Raise TypeError end
  else Ok [].

Definition is_null (v : value) : bool := match v with VNone => true | _ => false end.

(** [[p[k] for p in procs if p.get(k) is not None]] *)
Definition present (k : string) (procs : list dict) : list value :=
  filter (fun v => is_null v = false) (map (dget_or_none k) procs).

Definition state_key (p : dict) : string :=
  match dget_or_none "cpu_state" p with
  | VStr s => if decide (s ∈ ["active"; "idle"]) then s else "null"
  | _ => "null"
  end.
Definition states_of (procs : list dict) : list (string * Z) :=
  foldl (fun d p => dset (state_key p) (default 0 (dget (state_key p) d) + 1) d)
    [("active", 0); ("idle", 0); ("null", 0)] procs.

Section Recorder.
Context {JT : JsonText} {LT : LineText} (full_census : bool).

Definition is_census (msg : dict) : bool :=
  match dget_or_none "type" msg with VStr t => bool_decide (t = "census") | _ => false end.

Definition _shape (msg : dict) : res dict :=
  if full_census || negb (is_census msg) then Ok msg
  else
    let get k := dget_or_none k msg in
    procs ← processes_of msg;
    let cpu := present "cpu_seconds" procs in
    let idle := present "idle_for_sec" procs in
    users ← distinct [] (map (dget_or_none "username") procs);
    idle_max ← or_none py_greatest idle;
    cpu_min ← or_none py_least cpu;
    cpu_max ← or_none py_greatest cpu;
    Ok [("type", VStr "census"); ("seq", get "seq"); ("ts", get "ts"); ("interval_sec", get "interval_sec");
        ("scan_seconds", get "scan_seconds"); ("coverage", get "coverage"); ("gpus", get "gpus");
        ("gpu_status", get "gpu_status"); ("process_count", VInt (Z.of_nat (length procs)));
        ("user_count", VInt (Z.of_nat (length users)));
        ("cpu_state_counts", VDict (map (fun kn => (kn.1, VInt kn.2)) (states_of procs)));
        ("idle_lower_bound_count",
         VInt (Z.of_nat (length (filter (fun p => truthy (dget_or_none "idle_for_is_lower_bound" p) = true) procs))));
        ("idle_for_max_sec", idle_max); ("cpu_seconds_min", cpu_min); ("cpu_seconds_max", cpu_max);
        ("bytes", VInt (Z.of_nat (String.length (dumps (VDict msg)))))].

(** ** Files *)

Abbreviation RM := (M recorder).

Definition now : RM datetime := fun r => (Ok (clock_of r (ticks r)), set_ticks (S (ticks r)) r).
Definition next_io : RM (option nat) := fun r => (Ok (io r (ios r)), set_ios (S (ios r)) r).

Definition day_text (t : datetime) : string := date_text "" (date_of t).
Definition file_name (label day : string) : string := label +:+ "-" +:+ day +:+ ".jsonl".

Definition put_handle (label day : string) (h : handle) : RM unit :=
  modify (fun r => set_files (dset label (day, h) (_files r)) r).
Definition to_disk (name text : string) : RM unit :=
  modify (fun r => set_disk (<[name := default "" (disk r !! name) +:+ text]> (disk r)) r).

(** [handle.flush()], with the state of the file it leaves *)
Definition flush (h : handle) : RM (handle * option exn) :=
  let* fate := next_io in
  match fate with
  | None => to_disk (h_name h) (h_pending h) ;;; ret (Handle (h_name h) "" (h_closed h), None)
  | Some k =>
      to_disk (h_name h) (prefix_of k (h_pending h)) ;;;
      ret (Handle (h_name h) (drop_chars k (h_pending h)) (h_closed h), Some (OSErr "flush"))
  end.

(** [handle.close()]: what cannot be flushed is gone; a second close does nothing *)
Definition close_handle (label day : string) (h : handle) : RM unit :=
  if h_closed h then ret tt
  else
    let* ' (_, e) := flush h in
    put_handle label day (Handle (h_name h) "" true) ;;;
    match e with None => ret tt | Some e => raise e end.

(** [_open_private(path, "a")], stored *)
Definition open_file (label day : string) : RM handle :=
  let name := file_name label day in
  let* fate := next_io in
  match fate with
  | Some _ => raise (OSErr "open")
  | None =>
      to_disk name "" ;;;
      let h := Handle name "" false in
      put_handle label day h ;;; ret h
  end.

(** [handle.write(text); handle.flush()] *)
Definition write_flush (label day : string) (h : handle) (text : string) : RM unit :=
  if h_closed h then raise (ValueError "I/O operation on closed file.")
  else
    let* ' (h, e) := flush (Handle (h_name h) (h_pending h +:+ text) false) in
    put_handle label day h ;;;
    match e with None => ret tt | Some e => raise e end.

(** The file of the day, opened if it is not. *)
Definition file_for (label day : string) : RM handle :=
  let* entry := gets (fun r => dget label (_files r)) in
  match entry with
  | None => open_file label day
  | Some (d, h) => if bool_decide (d = day) then ret h else close_handle label d h ;;; open_file label day
  end.

Definition _write (label : string) (body : res dict) : RM unit :=
  let* t := now in
  try_except
    (let* b := lift body in
     let line := VDict (dmerge [("recv", VStr (isoformat t))] b) in
     let* h := file_for label (day_text t) in
     let* text := lift (line_dumps line) in
     write_flush label (day_text t) h (text +:+ String newline ""))
    (fun e => if is_exception e then Some (modify (fun r => set_errors (write_errors r + 1) r)) else None).

Definition on_message (label : string) (msg : dict) : RM unit :=
  _write label (m ← _shape msg; Ok [("kind", VStr "msg"); ("msg", VDict m)]).
Definition on_event (label kind : string) (detail : dict) : RM unit :=
  _write label (Ok [("kind", VStr "event"); ("event", VStr kind); ("detail", VDict detail)]).

(** [close] *)
Definition close : RM unit :=
  let* entries := gets _files in
  foldM (fun _ e => try_except (close_handle e.1 e.2.1 e.2.2) (fun x => if is_oserror x then Some (ret tt) else None)) tt entries ;;;
  modify (set_files []).
End Recorder.

Definition new_recorder (d : gmap string string) (io : nat -> option nat) (ck : nat -> datetime) : recorder :=
  Recorder d [] 0 io 0 ck 0.

(** ** Nothing escapes the recorder *)

(** What a file holds. *)
Definition content (r : recorder) (name : string) : string := default "" (disk r !! name).

(** Files only grow. *)
Definition grows (r r' : recorder) : Prop := forall name, exists more, content r' name = content r name +:+ more.

#[export] Instance grows_preorder : PreOrder grows.
Proof.
  split; [intros r n; exists ""; by rewrite string_app_nil_r|].
  intros r1 r2 r3 H1 H2 n. destruct (H1 n) as [a Ha], (H2 n) as [b Hb]. exists (a +:+ b).
  by rewrite Hb, Ha, string_app_assoc.
Qed.

Definition grown {A} (r : recorder) (out : res A * recorder) : Prop :=
  grows r out.2 /\ write_errors out.2 = write_errors r.

Lemma grown_bind {A B} (c : M recorder A) (k : A -> M recorder B) r :
  grown r (c r) -> (forall a r', c r = (Ok a, r') -> grown r' (k a r')) -> grown r (bind c k r).
Proof.
  intros [H1 H2] Hk. unfold bind. destruct (c r) as [[a|e] r'] eqn:E; cbn in *; [|done].
  destruct (Hk a r' eq_refl) as [H3 H4]. split; [by etrans | congruence].
Qed.

Lemma content_to_disk name text r n :
  content (to_disk name text r).2 n = content r n +:+ (if decide (n = name) then text else "").
Proof.
  unfold content. cbn. destruct (decide (n = name)) as [->|Hn].
  - by rewrite lookup_insert_eq.
  - by rewrite lookup_insert_ne, string_app_nil_r by done.
Qed.

Lemma to_disk_grown name text r : grown r (to_disk name text r).
Proof. split; [|done]. intros n. eexists. apply content_to_disk. Qed.

Lemma still_grown {A} (c : M recorder A) r :
  disk (c r).2 = disk r -> write_errors (c r).2 = write_errors r -> grown r (c r).
Proof. intros H ?. split; [|done]. intros n. exists "". by rewrite string_app_nil_r; unfold content; rewrite H. Qed.

Lemma flush_grown h r : grown r (flush h r).
Proof.
  apply grown_bind; [by apply still_grown|]. intros [k|] r' _; (apply grown_bind; [apply to_disk_grown|]);
    intros _ r2 _; by apply still_grown.
Qed.

Lemma close_handle_grown label d h r : grown r (close_handle label d h r).
Proof.
  unfold close_handle. destruct (h_closed h); [by apply still_grown|].
  apply grown_bind; [apply flush_grown|]. intros [h' e] r1 _.
  apply grown_bind; [by apply still_grown|]. intros _ r2 _. by destruct e; apply still_grown.
Qed.

Lemma open_file_grown label d r : grown r (open_file label d r).
Proof.
  apply grown_bind; [by apply still_grown|]. intros [k|] r1 _; [by apply still_grown|].
  apply grown_bind; [apply to_disk_grown|]. intros _ r2 _. by apply still_grown.
Qed.

Lemma file_for_grown label d r : grown r (file_for label d r).
Proof.
  apply grown_bind; [by apply still_grown|]. intros [[d' h]|] r1 _; [|apply open_file_grown].
  case_bool_decide; [by apply still_grown|].
  apply grown_bind; [apply close_handle_grown|]. intros _ r2 _. apply open_file_grown.
Qed.

Lemma write_flush_grown label d h text r : grown r (write_flush label d h text r).
Proof.
  unfold write_flush. destruct (h_closed h); [by apply still_grown|].
  apply grown_bind; [apply flush_grown|]. intros [h' e] r1 _.
  apply grown_bind; [by apply still_grown|]. intros _ r2 _. by destruct e; apply still_grown.
Qed.

(** The open files are those of their labels and days. *)
Definition filed (r : recorder) : Prop := Forall (fun e => h_name e.2.2 = file_name e.1 e.2.1) (_files r).

Definition only_exceptions {A} (P : A -> recorder -> Prop) (out : res A) (r : recorder) : Prop :=
  filed r /\ match out with Ok a => P a r | Raise e => is_exception e = true end.

Lemma oe_bind {A B} (c : M recorder A) (k : A -> M recorder B) P R Q :
  hoare P c (only_exceptions R) -> (forall a, hoare (fun r => filed r /\ R a r) (k a) (only_exceptions Q)) ->
  hoare P (bind c k) (only_exceptions Q).
Proof.
  intros Hc Hk. eapply hoare_bind; [|exact Hk]. eapply hoare_post; [exact Hc|].
  by intros [a|e] r [H1 H2].
Qed.

Lemma put_handle_filed label d h P : h_name h = file_name label d ->
  hoare (fun r => filed r /\ P) (put_handle label d h) (only_exceptions (fun _ _ => P)).
Proof. intros Hh r [Hr Hp]. split; [|done]. by apply Forall_dset. Qed.

Lemma to_disk_filed name text P :
  hoare (fun r => filed r /\ P) (to_disk name text) (only_exceptions (fun _ _ => P)).
Proof. by intros r [Hr Hp]. Qed.

Lemma next_io_filed P : hoare (fun r => filed r /\ P) next_io (only_exceptions (fun _ _ => P)).
Proof. by intros r [Hr Hp]. Qed.

Definition failure (e : option exn) : Prop := match e with Some e => is_exception e = true | None => True end.

Lemma flush_filed h P :
  hoare (fun r => filed r /\ P) (flush h) (only_exceptions (fun he _ => (h_name he.1 = h_name h /\ failure he.2) /\ P)).
Proof.
  eapply oe_bind; [apply next_io_filed|]. intros [k|].
  all: eapply oe_bind; [apply to_disk_filed|]; intros _ r [Hr Hp]; done.
Qed.

Lemma close_handle_filed label d h P : h_name h = file_name label d ->
  hoare (fun r => filed r /\ P) (close_handle label d h) (only_exceptions (fun _ _ => P)).
Proof.
  intros Hh. unfold close_handle. destruct (h_closed h); [by intros r [Hr ?]|].
  eapply oe_bind; [apply flush_filed|]. intros [h' e].
  eapply oe_bind; [eapply hoare_pre; [by apply put_handle_filed|]|]; [intros r [Hr H]; split; [done|exact H]|].
  intros _ r [Hr [[_ He] Hp]]. by destruct e.
Qed.

Lemma open_file_filed label d P :
  hoare (fun r => filed r /\ P) (open_file label d) (only_exceptions (fun h _ => h_name h = file_name label d /\ P)).
Proof.
  eapply oe_bind; [apply next_io_filed|]. intros [k|]; [by intros r [Hr ?]|].
  eapply oe_bind; [apply to_disk_filed|]. intros []. cbv zeta. eapply oe_bind; [apply (put_handle_filed label d (Handle _ "" false)); done|]. by intros _ r [Hr ?].
Qed.

Lemma file_for_filed label d :
  hoare filed (file_for label d) (only_exceptions (fun h _ => h_name h = file_name label d /\ True)).
Proof.
  eapply oe_bind with (R := fun e r => match e with Some (d', h) => h_name h = file_name label d' | None => True end).
  { intros r Hr. split; [done|]. cbn [gets fst snd]. destruct (dget label (_files r)) as [[d' h]|] eqn:E; [|done].
    apply dget_elem in E. unfold filed in Hr. rewrite Forall_forall in Hr. exact (Hr _ E). }
  intros [[d' h]|]; [|eapply hoare_pre; [apply (open_file_filed label d True)|]; intros r [Hr _]; done].
  case_bool_decide as Hd; [subst; intros r [Hr Hh]; split; [exact Hr|split; [exact Hh|exact I]]|].
  intros r [Hr Hh]. revert r Hr.
  eapply oe_bind with (R := fun _ _ => True); [|intros _; apply open_file_filed].
  eapply hoare_pre; [by apply close_handle_filed|]. by intros r Hr.
Qed.

Lemma write_flush_filed label d h text : h_name h = file_name label d ->
  hoare filed (write_flush label d h text)
    (only_exceptions (fun _ r => exists before, content r (file_name label d) = before +:+ text)).
Proof.
  intros Hh r Hr. unfold write_flush. destruct (h_closed h); [by split|].
  unfold flush, next_io, bind. destruct (io r (ios r)) as [k|]; cbn.
  - split; [by apply Forall_dset|]. done.
  - split; [by apply Forall_dset|]. unfold content, put_handle, modify. cbn.
    rewrite Hh, lookup_insert_eq. cbn. eexists. by rewrite <- string_app_assoc.
Qed.

Section Contained.
Context {JT : JsonText} {LT : LineText}.

(** [json.dumps] raises exceptions only. *)
Context (Hdumps : forall v e, line_dumps v = Raise e -> is_exception e = true).

(** What a try at one line leaves. *)
Definition line_text (t : datetime) (b : dict) : res string := line_dumps (VDict (dmerge [("recv", VStr (isoformat t))] b)).
Definition ended_by (label : string) (t : datetime) (body : res dict) (r : recorder) : Prop :=
  exists b text before, body = Ok b /\ line_text t b = Ok text /\
    content r (file_name label (day_text t)) = before +:+ (text +:+ String newline "").

Lemma line_attempt label t body : (forall e, body = Raise e -> is_exception e = true) ->
  hoare filed
    (let* b := lift body in
     let* h := file_for label (day_text t) in
     let* text := lift (line_text t b) in
     write_flush label (day_text t) h (text +:+ String newline ""))
    (only_exceptions (fun _ => ended_by label t body)).
Proof.
  intros Hb. eapply oe_bind with (R := fun b _ => body = Ok b); [intros r Hr; split; [exact Hr|]; cbn; destruct body; auto|].
  intros b. apply hoare_pure. intros ->.
  eapply oe_bind; [apply file_for_filed|]. intros h.
  eapply hoare_pre with (P' := fun r => filed r /\ h_name h = file_name label (day_text t)); [|intros r (Hr & Hh & _); split; [exact Hr|exact Hh]].
  apply hoare_pure. intros Hh.
  eapply oe_bind with (R := fun text _ => line_text t b = Ok text).
  { intros r Hr. split; [done|]. cbn. destruct (line_text t b) eqn:El; [done | by eapply Hdumps]. }
  intros text. apply hoare_pure. intros El.
  eapply hoare_post; [by apply write_flush_filed|]. intros [[]|e] r [H1 H2]; split; try done.
  destruct H2 as [before H2]. by exists b, text, before.
Qed.

Lemma attempt_grown label t body r :
  grown r ((let* b := lift body in
     let* h := file_for label (day_text t) in
     let* text := lift (line_text t b) in
     write_flush label (day_text t) h (text +:+ String newline "")) r).
Proof.
  apply grown_bind; [by apply still_grown|]. intros b r1 _. apply grown_bind; [apply file_for_grown|].
  intros h r2 _. apply grown_bind; [by apply still_grown|]. intros text r3 _. apply write_flush_grown.
Qed.

(** What came of one line: all of it ends the file of its day, or it is counted. *)
Definition recorded_or_counted (label : string) (body : res dict) (r r' : recorder) : Prop :=
  filed r' /\ grows r r' /\
  (write_errors r' = write_errors r + 1 \/
   write_errors r' = write_errors r /\ ended_by label (clock_of r (ticks r)) body r').

Lemma write_contained label body r :
  filed r -> (forall e, body = Raise e -> is_exception e = true) ->
  exists r', _write label body r = (Ok tt, r') /\ recorded_or_counted label body r r'.
Proof.
  intros Hr Hb. unfold _write, now. unfold bind at 1. set (t := clock_of r (ticks r)). set (r1 := set_ticks _ r).
  pose proof (line_attempt label t body Hb r1 Hr) as [H1 H2].
  destruct (attempt_grown label t body r1) as [H3 H4]. unfold line_text in H1, H2, H3, H4. unfold try_except. cbv zeta.
  destruct (bind (lift body) _ r1) as [[[]|e] r2]; cbn [fst snd] in *.
  - exists r2. split; [done|]. split; [exact H1|]. split; [exact H3|]. right. split; [exact H4 | exact H2].
  - rewrite H2. eexists. split; [reflexivity|]. split; [exact H1|]. split; [exact H3|]. left. cbn. by rewrite H4.
Qed.

(** The shape of a message raises exceptions only. *)
Definition fine {A} (c : res A) : Prop := forall e, c = Raise e -> is_exception e = true.

Lemma fine_bind {A B} (c : res A) (k : A -> res B) : fine c -> (forall a, fine (k a)) -> fine (c ≫= k).
Proof. intros Hc Hk e. destruct c; cbn; intros E; [by eapply Hk | injection E as <-; by apply Hc]. Qed.
Lemma fine_ok {A} (a : A) : fine (Ok a). Proof. done. Qed.

Lemma py_lt_fine a b : fine (py_lt a b).
Proof.
  revert b. induction a using value_ind'; intros w e E; destruct w; cbn in E; try discriminate; try by injection E as <-.
  match goal with F : Forall _ ?l, E : _ ?l ?m = _ |- _ => revert m E; induction F as [|x l Hx Hl IH] end;
    intros [|y m] E; try discriminate.
  destruct (py_eq x y); [by eapply IH | by eapply Hx].
Qed.

Lemma pick_fine (f : value -> value -> res bool) x l :
  (forall a b, fine (f a b)) ->
  fine (foldl (fun m y => m ← m; lt ← f y m; Ok (if lt : bool then y else m)) (Ok x) l).
Proof.
  intros Hf. assert (Hm : fine (Ok x)) by apply fine_ok. revert Hm. generalize (Ok x).
  induction l as [|y l IH]; intros m Hm; [done|]. cbn [foldl]. apply IH.
  apply fine_bind; [done|]. intros a. apply fine_bind; [apply Hf | intros; apply fine_ok].
Qed.

Lemma distinct_fine seen l : fine (distinct seen l).
Proof. revert seen. induction l as [|v l IH]; intros seen e E; cbn in E; [done|]. destruct (hashable v); [by eapply IH | by injection E as <-]. Qed.

Lemma processes_fine msg : fine (processes_of msg).
Proof.
  unfold processes_of. cbv zeta. destruct (truthy _); [|apply fine_ok]. destruct (dget_or_none _ _); try by intros e [= <-].
  induction l as [|v l IH]; cbn; [apply fine_ok|]. destruct v; try by intros e [= <-].
  apply fine_bind; [done | intros; apply fine_ok].
Qed.

Lemma shape_fine full msg : fine (_shape full msg).
Proof.
  unfold _shape. destruct (_ || _); [apply fine_ok|]. cbv zeta.
  apply fine_bind; [apply processes_fine|]. intros procs. apply fine_bind; [apply distinct_fine|]. intros users.
  assert (Hl : forall l, fine (or_none py_least l))
    by (intros [|x l]; [apply fine_ok | apply pick_fine, py_lt_fine]).
  assert (Hg : forall l, fine (or_none py_greatest l)).
  { intros [|x l]; [apply fine_ok|]. apply (pick_fine (fun y m => py_lt m y)). intros; apply py_lt_fine. }
  apply fine_bind; [apply Hg|]. intros imax. apply fine_bind; [apply Hl|]. intros cmin.
  apply fine_bind; [apply Hg|]. intros cmax. apply fine_ok.
Qed.
End Contained.

(** ** A day on a disk that fills up *)

#[local] Instance demo_text : JsonText := {| dumps _ := "{}"; loads _ := None; json_safe _ := False |}.
#[local] Instance demo_lines : LineText :=
  {| line_dumps v := match v with VDict (("recv", VStr t) :: _) => Ok t | _ => Raise TypeError end |}.

(** The second write gets three bytes to the disk and fails; the third brings the rest of it
    and its own line. *)
Definition demo_recorder : recorder :=
  new_recorder ∅ (fun n => if decide (n = 2)%nat then Some 3%nat else None)
    (fun n => utc (1700000000000000 + Z.of_nat n * 1000000)).
Definition demo_hello : dict := [("type", VStr "hello")].

Example recorder_demo :
  let r := (foldM (fun _ _ => on_message false "n1" demo_hello) tt [1; 2; 3] demo_recorder).2 in
  (write_errors r, content r (file_name "n1" "20231114"))
  = (1, joined (String newline "") ["2023-11-14T22:13:20+00:00"; "2023-11-14T22:13:21+00:00"; "2023-11-14T22:13:22+00:00"; ""]).
Proof. vm_compute. reflexivity. Qed.

(** The recorder never raises into a session: whatever the message or the event, and
    whatever the disk does, a call returns; no file loses what it held; and either the whole
    line, with the time it was received, ends the file of its node and day, or exactly one
    error is counted. *)
Theorem recorder_contained {JT : JsonText} {LT : LineText} full label r :
  (forall v e, line_dumps v = Raise e -> is_exception e = true) -> filed r ->
  (forall msg, exists r', on_message full label msg r = (Ok tt, r') /\
     recorded_or_counted label (m ← _shape full msg; Ok [("kind", VStr "msg"); ("msg", VDict m)]) r r') /\
  (forall kind detail, exists r', on_event label kind detail r = (Ok tt, r') /\
     recorded_or_counted label (Ok [("kind", VStr "event"); ("event", VStr kind); ("detail", VDict detail)]) r r').
Proof.
  intros Hd Hr. split; intros.
  - apply (write_contained Hd); [done|]. apply fine_bind; [apply shape_fine | intros; apply fine_ok].
  - by apply (write_contained Hd).
Qed.

Lemma recorder_contained_witness :
  exists r', on_message false "n1" demo_hello demo_recorder = (Ok tt, r') /\
    recorded_or_counted "n1" (m ← _shape false demo_hello; Ok [("kind", VStr "msg"); ("msg", VDict m)]) demo_recorder r'.
Proof.
  apply (recorder_contained false "n1" demo_recorder).
  - intros v e E. cbn in E. repeat case_match; try discriminate E; injection E as <-; reflexivity.
  - apply Forall_nil_2.
Defined.
