(* ===== verification/Replay.v ===== *)
(** * Replaying a capture

    [node_monitor/pipeline/replay.py]: the files [SoakRecorder] wrote, fed through the per-node
    pipeline.  [files] is the capture's directory, whose files can be read; what [on_record] and
    [on_skip] are called with is kept in the state.  A label is a file name in which [glob] finds
    no pattern, and a detail that is not an object ([dict] of a list of pairs) is refused. *)

From Stdlib Require Import ZArith Lia.
From S2P Require Import Prelude PyFloat PyTime PyVal Text Codec ProbeHost NodePipeline Recorder.

#[local] Open Scope string_scope.
#[local] Open Scope list_scope.
#[local] Open Scope Z_scope.
#[local] Open Scope py_scope.

(** ** Reading a file *)

(** [text.replace("Z", "+00:00")] *)
Fixpoint replace_z (s : string) : string :=
  match s with
  | "" => ""
  | String c s => if decide (c = "Z"%char) then "+00:00" +:+ replace_z s else String c (replace_z s)
  end.

Definition _parse_recv (text : string) : option datetime :=
  option_map (fun t => match dt_off t with Some _ => t | None => utc (dt_us t) end) (fromisoformat (replace_z text)).

(** Reading text: the ends of lines become newlines, and a line keeps its own. *)
Definition return_char : ascii := "013"%char.
Fixpoint universal (returned : bool) (s : string) : string :=
  match s with
  | "" => ""
  | String c s =>
      if decide (c = return_char) then String newline (universal true s)
      else if decide (c = newline) then (if returned then universal false s else String newline (universal false s))
      else String c (universal false s)
  end.
Fixpoint kept_lines (s : string) : list string :=
  match s with
  | "" => []
  | String c s =>
      if decide (c = newline) then String newline "" :: kept_lines s
      else match kept_lines s with [] => [String c ""] | l :: ls => String c l :: ls end
  end.
Definition text_lines (bytes : string) : list string := kept_lines (universal false (decoded bytes)).

Section Replay.
Context {JT : JsonText}.

Definition is_str (s : string) (v : value) : bool :=
  match v with VStr t => bool_decide (t = s) | _ => false end.

(** [_lines], a line at a time: [None] if it is passed over. *)
Definition parse_line (raw : string) : res (option (datetime * dict)) :=
  match loads raw with
  | Some (VDict item) =>
      match dget "recv" item with
      | Some (VStr text) =>
          Ok (recv ← _parse_recv text;
              k ← dget "kind" item;
              if is_str "msg" k || is_str "event" k then Some (recv, item) else None)
      | Some _ => Raise AttributeError
      | None => Ok None
      end
  | _ => Ok None
  end.

(** ** Replaying *)

Record replaying := Replaying {
  rp_pipeline : pipeline;
  rp_result : list (string * list (string * Z));
  rp_records : list record;
  rp_skipped : list value;
}.

Definition set_pipeline p s := Replaying p (rp_result s) (rp_records s) (rp_skipped s).
Definition set_result c s := Replaying (rp_pipeline s) c (rp_records s) (rp_skipped s).
Definition on_record (r : record) s := Replaying (rp_pipeline s) (rp_result s) (rp_records s ++ [r]) (rp_skipped s).
Definition on_skip (v : value) s := Replaying (rp_pipeline s) (rp_result s) (rp_records s) (rp_skipped s ++ [v]).

Definition on_pipe {A} (c : M pipeline A) : M replaying A := zoom rp_pipeline set_pipeline c.

(** [take]: [counts] is [result[label]] *)
Definition count (label : string) (r : record) (s : replaying) : replaying :=
  let counts := default [] (dget label (rp_result s)) in
  set_result (dset label (dset (kind r) (default 0 (dget (kind r) counts) + 1) counts) (rp_result s)) s.
Definition take (label : string) (records : list record) : M replaying unit :=
  foldM (fun _ r => modify (fun s => on_record r (count label r s))) tt records.

(** [v or {}], an object if it is used *)
Definition object_or_empty (e : exn) (v : value) : res dict :=
  if truthy v then match v with VDict d => Ok d | _ => Raise e end else Ok [].

Section Node.
Context (cf : NodePipeline.config).

(** [pipeline.on_event] of what a file holds: the kind need not be text. *)
Definition event_of (ev : value) (detail : dict) (recv : datetime) : M pipeline (list record) :=
  match ev with
  | VStr s => NodePipeline.on_event cf s detail recv
  | _ => ret [Record_ COLLECTION_EVENT
                (_row cf [("ts", VTime recv); ("event_type", ev); ("detail", VDict detail)])]
  end.

Definition replay_item (ri : datetime * dict) : M replaying unit :=
  let '(recv, item) := ri in
  let* records :=
    (if is_str "msg" (dget_or_none "kind" item) then
       let* msg := lift (object_or_empty AttributeError (dget_or_none "msg" item)) in
       on_pipe (NodePipeline.on_message cf msg recv)
     else
       let* detail := lift (object_or_empty TypeError (dget_or_none "detail" item)) in
       on_pipe (event_of (dget_or_none "event" item) detail recv)) in
  take (cf_label cf) records.

Definition replay_line (raw : string) : M replaying unit :=
  let* item := lift (parse_line raw) in
  match item with Some ri => replay_item ri | None => ret tt end.

(** [sorted(out_dir.glob(f"{label}-*.jsonl"))] *)
Definition ends_with (suffix s : string) : bool :=
  bool_decide (drop_chars (String.length s - String.length suffix) s = suffix).
Definition globbed (label name : string) : bool :=
  String.prefix (label +:+ "-") name && ends_with ".jsonl" (drop_chars (S (String.length label)) name).
Definition captured (label : string) (files : gmap string string) : list string :=
  merge_sort String.le (filter (fun n => globbed label n = true) (map fst (map_to_list files))).

(** The body of the loop over the nodes. *)
Definition replay_node (files : gmap string string) : M replaying unit :=
  modify (set_pipeline (new_pipeline cf)) ;;;
  modify (fun s => set_result (dset (cf_label cf) [] (rp_result s)) s) ;;;
  foldM (fun _ name => foldM (fun _ => replay_line) tt (text_lines (default "" (files !! name)))) tt
    (captured (cf_label cf) files) ;;;
  let* records := on_pipe (NodePipeline.flush cf) in
  take (cf_label cf) records.
End Node.

(** The intervals of the capture replace the configuration's. *)
Definition override (manifest : dict) (k : string) (n : num) : num := default n (num_of (dget_or_none k manifest)).
Definition with_intervals (manifest : dict) (cf : NodePipeline.config) : NodePipeline.config :=
  Config (cf_system cf) (cf_host cf) (cf_label cf) (cf_min_user_uid cf) (cf_redactor cf)
    (override manifest "counter_interval_sec" (cf_counter_interval cf))
    (override manifest "census_interval_sec" (cf_census_interval cf)) (cf_summary_interval cf).

(** [for entry in manifest.get("nodes", [])] and [entry["label"]] *)
Definition manifest_nodes (manifest : dict) : res (list value) :=
  match dget "nodes" manifest with
  | None => Ok []
  | Some (VList l) => Ok l
  | Some (VDict d) => Ok (map (fun kv => VStr kv.1) d)
  | Some (VStr s) => Ok (if bool_decide (s = "") then [] else [VStr s])
  | Some _ => Raise TypeError
  end.
Definition entry_label (entry : value) : res value :=
  match entry with VDict d => item "label" d | _ => Raise TypeError end.

(** [nodes.get(label)], of the last node with the label *)
Definition node_of (configs : list NodePipeline.config) (label : value) : res (option NodePipeline.config) :=
  match label with
  | VStr l => Ok (last (filter (fun cf => cf_label cf = l) configs))
  | VList _ | VDict _ => Raise TypeError
  | _ => Ok None
  end.

Definition replay (files : gmap string string) (configs : list NodePipeline.config) : M replaying unit :=
  let* manifest :=
    lift (match files !! "manifest.json" with
          | None => Raise FileNotFound
          | Some text =>
              match loads text with
              | Some (VDict m) => Ok m
              | Some _ => Raise AttributeError
              | None => Raise (ValueError "manifest.json")
              end
          end) in
  let* entries := lift (manifest_nodes manifest) in
  foldM (fun _ entry =>
           let* label := lift (entry_label entry) in
           let* cf := lift (node_of configs label) in
           match cf with
           | None => modify (on_skip label)
           | Some cf => replay_node (with_intervals manifest cf) files
           end) tt entries.
End Replay.

(** ** What a recorder on a sound disk leaves *)

Definition sound_handle (d : gmap string string) (e : string * (string * handle)) : Prop :=
  e.2.2 = Handle (file_name e.1 e.2.1) "" false /\ is_Some (d !! file_name e.1 e.2.1).

Record calm (r : recorder) : Prop := Calm {
  cm_io : forall n, io r n = None;
  cm_files : Forall (sound_handle (disk r)) (_files r);
}.

(** [text] was added to the file [name]. *)
Record added (name text : string) (r r' : recorder) : Prop := Added {
  ad_calm : calm r';
  ad_clock : clock_of r' = clock_of r;
  ad_ticks : ticks r' = ticks r;
  ad_content : forall n, content r' n = content r n +:+ (if decide (n = name) then text else "");
  ad_names : forall n, is_Some (disk r' !! n) <-> is_Some (disk r !! n) \/ n = name;
}.

Lemma added_app name s t r1 r2 r3 : added name s r1 r2 -> added name t r2 r3 -> added name (s +:+ t) r1 r3.
Proof.
  intros [H1 H2 H3 H4 H5] [G1 G2 G3 G4 G5]. split; [done | congruence | congruence | |].
  - intros n. rewrite G4, H4, string_app_assoc. by case_decide.
  - intros n. rewrite G5, H5. tauto.
Qed.

Lemma append_insert (d : gmap string string) name s t :
  <[name := default "" (<[name := s]> d !! name) +:+ t]> (<[name := s]> d) = <[name := s +:+ t]> d.
Proof. by rewrite lookup_insert_eq, insert_insert_eq. Qed.

(** The disk with [text] at the end of [name]. *)
Definition appended (name text : string) (d : gmap string string) : gmap string string :=
  <[name := default "" (d !! name) +:+ text]> d.

Lemma appended_names name text d n : is_Some (appended name text d !! n) <-> is_Some (d !! n) \/ n = name.
Proof. unfold appended. rewrite lookup_insert_is_Some'. naive_solver. Qed.

Lemma sound_more name text d e : sound_handle d e -> sound_handle (appended name text d) e.
Proof. intros [H1 H2]. split; [done|]. apply appended_names. by left. Qed.

Lemma appended_added label day text i r r' :
  calm r -> r' = Recorder (appended (file_name label day) text (disk r))
                   (dset label (day, Handle (file_name label day) "" false) (_files r))
                   (write_errors r) (io r) i (clock_of r) (ticks r) ->
  added (file_name label day) text r r'.
Proof.
  intros [Hi Hf] ->. split; [|done|done| |].
  - split; [done|]. cbn [_files disk]. apply Forall_dset.
    + split; [done|]. apply appended_names. by right.
    + eapply Forall_impl; [exact Hf|]. intros e. apply sound_more.
  - intros n. unfold content, appended. cbn [disk]. destruct (decide (n = file_name label day)) as [->|Hn].
    + by rewrite lookup_insert_eq.
    + by rewrite lookup_insert_ne, string_app_nil_r by done.
  - intros n. apply appended_names.
Qed.

Lemma appended_nil name d : is_Some (d !! name) -> appended name "" d = d.
Proof. intros [s Hs]. unfold appended. rewrite Hs. cbn [default]. by rewrite string_app_nil_r, insert_id. Qed.

Lemma open_file_calm label day r :
  (forall n, io r n = None) ->
  open_file label day r
  = (Ok (Handle (file_name label day) "" false),
     Recorder (appended (file_name label day) "" (disk r))
       (dset label (day, Handle (file_name label day) "" false) (_files r)) (write_errors r) (io r) (S (ios r))
       (clock_of r) (ticks r)).
Proof. intros Hi. unfold open_file, next_io, bind. rewrite Hi. reflexivity. Qed.

Lemma close_handle_calm label d r :
  (forall n, io r n = None) -> is_Some (disk r !! file_name label d) ->
  close_handle label d (Handle (file_name label d) "" false) r
  = (Ok tt, Recorder (disk r) (dset label (d, Handle (file_name label d) "" true) (_files r)) (write_errors r) (io r)
              (S (ios r)) (clock_of r) (ticks r)).
Proof.
  intros Hi Hs. unfold close_handle, flush, next_io, bind. cbn [h_closed]. rewrite Hi.
  transitivity (Ok tt, Recorder (appended (file_name label d) "" (disk r)) (dset label (d, Handle (file_name label d) "" true) (_files r))
            (write_errors r) (io r) (S (ios r)) (clock_of r) (ticks r)); [reflexivity | by rewrite appended_nil].
Qed.

Lemma file_for_calm label day r :
  calm r -> exists r', file_for label day r = (Ok (Handle (file_name label day) "" false), r') /\
    added (file_name label day) "" r r'.
Proof.
  intros Hc. unfold file_for, bind at 1, gets. destruct (dget label (_files r)) as [[d h]|] eqn:E.
  - pose proof (proj1 (Forall_forall _ _) (cm_files _ Hc) _ (dget_elem _ _ _ E)) as [Hh Hs]. cbn [fst snd] in Hh, Hs.
    subst h. destruct (bool_decide_reflect (d = day)) as [->|Hd].
    + exists r. split; [done|]. apply (appended_added label day "" (ios r) r r Hc).
      rewrite appended_nil, dset_same by done. by destruct r.
    + unfold bind. rewrite (close_handle_calm label d r (cm_io _ Hc) Hs), open_file_calm by exact (cm_io _ Hc).
      eexists. split; [reflexivity|]. eapply appended_added; [exact Hc|]. cbn. by rewrite dset_dset.
  - rewrite open_file_calm by exact (cm_io _ Hc). eexists. split; [reflexivity|]. by eapply appended_added.
Qed.

Lemma write_flush_calm label day text r :
  calm r -> exists r', write_flush label day (Handle (file_name label day) "" false) text r = (Ok tt, r') /\
    added (file_name label day) text r r'.
Proof.
  intros Hc. unfold write_flush, flush, next_io, bind. cbn [h_closed]. rewrite (cm_io _ Hc).
  eexists. split; [reflexivity|]. by eapply appended_added.
Qed.

Lemma write_calm {JT : JsonText} {LT : LineText} label b text r :
  let t := clock_of r (ticks r) in
  calm r -> line_dumps (VDict (dmerge [("recv", VStr (isoformat t))] b)) = Ok text ->
  exists r', _write label (Ok b) r = (Ok tt, r') /\
    added (file_name label (day_text t)) (text +:+ String newline "") (set_ticks (S (ticks r)) r) r'.
Proof.
  intros t Hc El. unfold _write, now. unfold bind at 1. fold t. set (r1 := set_ticks _ r).
  assert (Hc1 : calm r1) by (destruct Hc; done).
  destruct (file_for_calm label (day_text t) r1 Hc1) as (r2 & E2 & H2).
  destruct (write_flush_calm label (day_text t) (text +:+ String newline "") r2 (ad_calm _ _ _ _ H2)) as (r3 & E3 & H3).
  exists r3. split; [|exact (added_app _ "" _ _ _ _ H2 H3)].
  apply run_try_ok. eapply run_bind_ok; [reflexivity|]. cbv zeta.
  eapply run_bind_ok; [exact E2|]. eapply run_bind_ok; [unfold lift; by rewrite El|]. exact E3.
Qed.

(** ** Reading text back *)

Definition plain_char (c : ascii) : bool := let n := N_of_ascii c in ((32 <=? n) && (n <? 128))%N.
Definition plain : string -> bool := forall_chars plain_char.

Definition texts (l : list string) : string := foldr (fun s t => s +:+ t) "" l.

Lemma texts_app l1 l2 : texts (l1 ++ l2) = texts l1 +:+ texts l2.
Proof. induction l1 as [|s l1 IH]; [done|]. cbn. unfold texts in *. by rewrite IH, string_app_assoc. Qed.

Lemma plain_not c d : plain_char c = true -> plain_char d = false -> c <> d.
Proof. congruence. Qed.

Lemma kept_lines_line s rest :
  plain s = true -> kept_lines (s +:+ String newline rest) = (s +:+ String newline "") :: kept_lines rest.
Proof.
  induction s as [|c s IH]; cbn [plain forall_chars]; [intros _|intros [Hc Hs]%andb_prop].
  - rewrite !string_app_nil_l. cbn. by rewrite decide_True.
  - rewrite !string_app_cons. cbn [kept_lines]. rewrite decide_False by by apply plain_not. by rewrite IH.
Qed.

Lemma kept_lines_texts (l : list string) :
  Forall (fun s => plain s = true) l ->
  kept_lines (texts (map (fun s => s +:+ String newline "") l)) = map (fun s => s +:+ String newline "") l.
Proof.
  induction 1 as [|s l Hs Hl IH]; [done|]. cbn [map texts foldr]. rewrite string_app_assoc, string_app_cons, string_app_nil_l.
  rewrite kept_lines_line by done. unfold texts in IH. by rewrite IH.
Qed.

Lemma universal_same s : forall_chars (fun c => negb (bool_decide (c = return_char))) s = true -> universal false s = s.
Proof.
  induction s as [|c s IH]; cbn [forall_chars]; [done|]. intros [Hc Hs]%andb_prop.
  apply negb_true_iff, bool_decide_eq_false in Hc. cbn [universal]. rewrite decide_False by done. case_decide; [subst|]; by rewrite IH.
Qed.

Lemma chunks_ascii fuel l :
  Forall (fun c => is_ascii_char c = true) l -> (length l <= fuel)%nat -> chunks fuel l = map (fun c => Good [c]) l.
Proof.
  intros H. revert fuel. induction H as [|c l Hc Hl IH]; intros [|fuel] Hf; cbn in *; try done; [lia|].
  unfold next_char, lead. unfold is_ascii_char in Hc. cbv zeta. rewrite Hc. by rewrite IH by lia.
Qed.

Lemma forall_chars_Forall p s : forall_chars p s = true <-> Forall (fun c => p c = true) (string_bytes s).
Proof.
  induction s as [|c s IH]; cbn; [done|]. rewrite andb_true_iff, IH, Forall_cons. done.
Qed.

Lemma decoded_ascii s : is_ascii s = true -> decoded s = s.
Proof.
  intros H%forall_chars_Forall. unfold decoded, decode_replace, utf8_chunks. rewrite chunks_ascii by done.
  assert (E : forall l, map (fun c => Good [c]) l ≫= chunk_bytes = l).
  { induction l as [|c l IH]; [done|]. cbn [map]. rewrite bind_cons, IH. done. }
  rewrite E. unfold bytes_string, string_bytes. apply String.string_of_list_ascii_of_string.
Qed.

Lemma forall_chars_impl (p q : ascii -> bool) s :
  (forall c, p c = true -> q c = true) -> forall_chars p s = true -> forall_chars q s = true.
Proof. intros H. rewrite !forall_chars_Forall. intros Hs. eapply Forall_impl; [exact Hs | exact H]. Qed.

Lemma text_lines_texts l :
  Forall (fun s => plain s = true) l ->
  text_lines (texts (map (fun s => s +:+ String newline "") l)) = map (fun s => s +:+ String newline "") l.
Proof.
  intros H. unfold text_lines.
  assert (Hall : forall p, (forall c, plain_char c = true -> p c = true) -> p newline = true ->
            forall_chars p (texts (map (fun s => s +:+ String newline "") l)) = true).
  { intros p Hp Hn. induction H as [|s l Hs Hl IH]; [done|]. cbn [map texts foldr].
    rewrite !forall_chars_app. cbn. unfold texts in IH. rewrite Hn, IH, !andb_true_r. by eapply forall_chars_impl. }
  rewrite decoded_ascii.
  - rewrite universal_same by (apply Hall; [|done]; intros c Hc; apply negb_true_iff, bool_decide_eq_false; by apply plain_not).
    by apply kept_lines_texts.
  - apply Hall; [|done]. intros c Hc. unfold plain_char in Hc. cbv zeta in Hc. by apply andb_prop in Hc as [_ Hc].
Qed.

(** ** The time of a line *)

Lemma digit_plain_z n : 0 <= n < 10 -> digit n <> "Z"%char.
Proof.
  intros H E. apply (f_equal digit_val) in E. rewrite digit_val_digit in E by done. discriminate.
Qed.

Definition no_z : string -> bool := not_char "Z".

Lemma no_z_pad w z : no_z (pad w z) = true.
Proof.
  unfold no_z, not_char. induction w as [|w IH]; [done|].
  change (pad (S w) z) with (String (digit (z / 10 ^ Z.of_nat w mod 10)) (pad w z)). cbn [forall_chars]. rewrite IH, andb_true_r.
  apply negb_true_iff, bool_decide_eq_false, digit_plain_z. apply Z.mod_pos_bound. lia.
Qed.

Lemma no_z_app s t : no_z (s +:+ t) = no_z s && no_z t.
Proof. apply forall_chars_app. Qed.

Lemma replace_z_same s : no_z s = true -> replace_z s = s.
Proof.
  unfold no_z, not_char. induction s as [|c s IH]; [done|]. cbn. intros [Hc Hs]%andb_prop.
  apply negb_true_iff, bool_decide_eq_false in Hc. by rewrite decide_False, IH.
Qed.

Lemma no_z_isoformat us : no_z (isoformat (utc us)) = true.
Proof.
  unfold isoformat, date_text, time_text, offset_text, utc. cbn [dt_us dt_off].
  rewrite !no_z_app, !no_z_pad. cbn. destruct (_ =? 0); [done|]. by rewrite no_z_app, no_z_pad.
Qed.

Lemma parse_recv_isoformat us : representable (utc us) -> _parse_recv (isoformat (utc us)) = Some (utc us).
Proof.
  intros H. unfold _parse_recv. rewrite replace_z_same by apply no_z_isoformat. by rewrite fromisoformat_isoformat.
Qed.

(** ** A recording *)

Inductive happening :=
| Msg (label : string) (msg : dict)
| Evt (label event : string) (detail : dict).

Definition hap_label (h : happening) : string := match h with Msg l _ | Evt l _ _ => l end.
Definition hap_body (h : happening) : dict :=
  match h with
  | Msg _ m => [("kind", VStr "msg"); ("msg", VDict m)]
  | Evt _ k d => [("kind", VStr "event"); ("event", VStr k); ("detail", VDict d)]
  end.
Definition hap_call (ht : happening * datetime) : call :=
  match ht.1 with Msg _ m => OnMessage m ht.2 | Evt _ k d => OnEvent k d ht.2 end.
Definition hap_line (ht : happening * datetime) : value :=
  VDict (("recv", VStr (isoformat ht.2)) :: hap_body ht.1).
Definition hap_file (ht : happening * datetime) : string := file_name (hap_label ht.1) (day_text ht.2).

(** The calls of a session on its recorder, and when they came. *)
Definition record_hap {JT : JsonText} {LT : LineText} (h : happening) : M recorder unit :=
  match h with Msg l m => Recorder.on_message true l m | Evt l k d => Recorder.on_event l k d end.
Definition recording {JT : JsonText} {LT : LineText} (hs : list happening) : M recorder unit :=
  foldM (fun _ => record_hap) tt hs ;;; close.
Fixpoint timed (ck : nat -> datetime) (i : nat) (hs : list happening) : list (happening * datetime) :=
  match hs with [] => [] | h :: hs => (h, ck i) :: timed ck (S i) hs end.

(** A node's part of it. *)
Definition of_label (l : string) (hts : list (happening * datetime)) : list (happening * datetime) :=
  filter (fun ht => hap_label ht.1 = l) hts.

Section Faithful.
Context {JT : JsonText} {LT : LineText}.

(** A line that JSON can write, in ASCII, and read back, and a time it can hold. *)
Definition written (ht : happening * datetime) (s : string) : Prop :=
  line_dumps (hap_line ht) = Ok s /\ plain s = true /\ loads (s +:+ String newline "") = Some (hap_line ht).
Definition readable (ht : happening * datetime) : Prop :=
  (exists s, written ht s) /\ exists us, ht.2 = utc us /\ representable (utc us).

Definition hap_text (ht : happening * datetime) : string := match line_dumps (hap_line ht) with Ok s => s | Raise _ => "" end.
Definition with_end (s : string) : string := s +:+ String newline "".

Lemma readable_text ht : readable ht -> written ht (hap_text ht).
Proof. intros [(t & Ht) _]. unfold hap_text. pose proof (proj1 Ht) as El. by rewrite El. Qed.

Lemma record_hap_calm h r :
  calm r -> readable (h, clock_of r (ticks r)) ->
  let ht := (h, clock_of r (ticks r)) in
  exists r', record_hap h r = (Ok tt, r') /\ added (hap_file ht) (with_end (hap_text ht)) (set_ticks (S (ticks r)) r) r'.
Proof.
  intros Hc [(s & El & _) _] ht. unfold hap_text. fold ht in El. rewrite El.
  destruct h; cbn [record_hap]; unfold Recorder.on_message, Recorder.on_event; [cbn [_shape orb mbind res_bind]|];
    eapply write_calm; try exact Hc; exact El.
Qed.

Lemma record_calm hs r :
  calm r -> Forall readable (timed (clock_of r) (ticks r) hs) ->
  exists r', foldM (fun _ => record_hap) tt hs r = (Ok tt, r') /\ calm r' /\
    let hts := timed (clock_of r) (ticks r) hs in
    (forall n, content r' n = content r n +:+ texts (map (fun ht => with_end (hap_text ht)) (filter (fun ht => hap_file ht = n) hts))) /\
    (forall n, is_Some (disk r' !! n) <-> is_Some (disk r !! n) \/ n ∈ map hap_file hts).
Proof.
  revert r. induction hs as [|h hs IH]; intros r Hc Hr; cbn [timed foldM].
  - exists r. split_and!; [done | done | |].
    + intros n. cbn. by rewrite string_app_nil_r.
    + intros n. cbn. rewrite elem_of_nil. tauto.
  - cbn [timed] in Hr. apply Forall_cons in Hr as [Hh Hr].
    destruct (record_hap_calm h r Hc Hh) as (r1 & E1 & H1).
    destruct (IH r1 (ad_calm _ _ _ _ H1)) as (r2 & E2 & Hc2 & Ht & Hn).
    { by rewrite (ad_clock _ _ _ _ H1), (ad_ticks _ _ _ _ H1). }
    rewrite (ad_clock _ _ _ _ H1), (ad_ticks _ _ _ _ H1) in Ht, Hn.
    exists r2. split_and!; [by eapply run_bind_ok | done | |].
    + intros n. rewrite Ht, (ad_content _ _ _ _ H1), filter_cons. cbn [clock_of ticks set_ticks].
      destruct (decide (n = hap_file (h, clock_of r (ticks r)))) as [->|Hd].
      * rewrite decide_True by done. cbn [map texts foldr]. by rewrite string_app_assoc.
      * rewrite decide_False by done. by rewrite string_app_nil_r.
    + intros n. rewrite Hn, (ad_names _ _ _ _ H1). cbn [map]. rewrite elem_of_cons. cbn [disk set_ticks clock_of ticks]. tauto.
Qed.

Lemma close_all es r :
  (forall n, io r n = None) -> Forall (sound_handle (disk r)) es ->
  exists r', foldM (fun _ e => try_except (close_handle e.1 e.2.1 e.2.2) (fun x => if is_oserror x then Some (ret tt) else None)) tt es r
    = (Ok tt, r') /\ disk r' = disk r.
Proof.
  revert r. induction es as [|[l [d h]] es IH]; intros r Hi Hs; cbn [foldM]; [by eexists|].
  apply Forall_cons in Hs as [[Hh He] Hs]. cbn [fst snd] in *. subst h.
  unfold bind at 1, try_except at 1. rewrite close_handle_calm by done. by apply (IH (Recorder _ _ _ _ _ _ _)).
Qed.

Lemma recording_leaves hs ck files :
  let hts := timed ck 0 hs in let r' := (recording hs (new_recorder files (fun _ => None) ck)).2 in
  Forall readable hts ->
  (forall n, default "" (disk r' !! n) = default "" (files !! n) +:+
     texts (map (fun ht => with_end (hap_text ht)) (filter (fun ht => hap_file ht = n) hts))) /\
  (forall n, is_Some (disk r' !! n) <-> is_Some (files !! n) \/ n ∈ map hap_file hts).
Proof.
  intros hts r' Hr. destruct (record_calm hs (new_recorder files (fun _ => None) ck)) as (r1 & E1 & Hc1 & Ht & Hn);
    [split; [done | apply Forall_nil_2] | done |].
  assert (Hd : disk r' = disk r1).
  { subst r'. unfold recording, bind at 1. rewrite E1. unfold close, bind at 1, gets.
    destruct (close_all (_files r1) r1 (cm_io _ Hc1) (cm_files _ Hc1)) as (r2 & E2 & H2).
    unfold bind. rewrite E2. exact H2. }
  rewrite Hd. split; [exact Ht | exact Hn].
Qed.

(** ** Reading it back *)

(** One call on a node's pipeline, its records counted and handed over. *)
Definition feed (cf : NodePipeline.config) (c : call) : M replaying unit :=
  let* records := on_pipe (perform cf c) in take (cf_label cf) records.

Lemma object_or_empty_dict e d : object_or_empty e (VDict d) = Ok d.
Proof. by destruct d. Qed.

Lemma parse_line_written h us s :
  representable (utc us) -> written (h, utc us) s ->
  parse_line (with_end s) = Ok (Some (utc us, ("recv", VStr (isoformat (utc us))) :: hap_body h)).
Proof.
  intros Hrep (_ & _ & El). unfold parse_line, with_end. rewrite El. unfold hap_line. cbn [fst snd].
  change (dget "recv" _) with (Some (VStr (isoformat (utc us)))). cbv iota. rewrite parse_recv_isoformat by done.
  by destruct h.
Qed.

Lemma replay_line_written cf ht s st :
  readable ht -> written ht s -> replay_line cf (with_end s) st = feed cf (hap_call ht) st.
Proof.
  intros [_ (us & Et & Hrep)] Hw. destruct ht as [h t]. cbn [snd] in Et. subst t.
  unfold replay_line, bind at 1, lift. rewrite (parse_line_written h us s) by done.
  unfold replay_item, feed. destruct h as [l m|l k d].
  - change (is_str "msg" _) with true. cbn iota. change (dget_or_none "msg" _) with (VDict m).
    rewrite object_or_empty_dict. reflexivity.
  - change (is_str "msg" _) with false. cbn iota.
    change (dget_or_none "detail" _) with (VDict d). change (dget_or_none "event" _) with (VStr k).
    rewrite object_or_empty_dict. reflexivity.
Qed.

Lemma replay_text cf hts st :
  Forall readable hts ->
  foldM (fun _ => replay_line cf) tt (text_lines (texts (map (fun ht => with_end (hap_text ht)) hts))) st
  = foldM (fun _ c => feed cf c) tt (map hap_call hts) st.
Proof.
  intros Hr. rewrite <- (map_map hap_text with_end), text_lines_texts.
  - rewrite map_map, !foldM_map. apply foldM_ext. intros ht [] s Hin.
    rewrite Forall_forall in Hr. specialize (Hr ht Hin). apply replay_line_written; [done|].
    by apply readable_text.
  - apply Forall_forall. intros s (ht & -> & Hin)%list_elem_of_fmap. rewrite Forall_forall in Hr.
    apply (readable_text _ (Hr ht Hin)).
Qed.
End Faithful.

(** ** Files in order *)

Definition by_key {A} (f : A -> string) (x y : A) : Prop := String.le (f x) (f y).

Lemma first_group {A} (f : A -> string) n (l : list A) :
  StronglySorted (by_key f) l -> (forall x, x ∈ l -> String.le n (f x)) ->
  filter (fun x => f x = n) l ++ filter (fun x => f x <> n) l = l.
Proof.
  induction l as [|x l IH]; intros Hs Hn; [done|]. apply StronglySorted_inv in Hs as [Hs Hx].
  rewrite !filter_cons. destruct (decide (f x = n)) as [E|E].
  - rewrite decide_False by (intros H; by apply H). cbn [app]. f_equal. apply IH; [done | set_solver].
  - rewrite decide_True by done. rewrite Forall_forall in Hx.
    assert (Hno : forall y, y ∈ l -> f y <> n).
    { intros y Hy Ey. apply E. apply (anti_symm String.le); [|apply Hn; set_solver].
      rewrite <- Ey. by apply Hx. }
    rewrite filter_none by done. cbn [app]. f_equal. by apply filter_all.
Qed.

(** Grouping by a key along which the list is sorted, and going through the keys in order. *)
Lemma grouped {A} (f : A -> string) (l : list A) names :
  StronglySorted (by_key f) l -> StronglySorted String.le names -> NoDup names ->
  (forall x, x ∈ l -> f x ∈ names) ->
  concat (map (fun n => filter (fun x => f x = n) l) names) = l.
Proof.
  revert l. induction names as [|n names IH]; intros l Hl Hs Hd Hin.
  - destruct l as [|x l]; [done|]. exfalso. by apply (not_elem_of_nil (f x)), Hin, list_elem_of_here.
  - apply StronglySorted_inv in Hs as [Hs Hn]. apply NoDup_cons in Hd as [Hni Hd]. rewrite Forall_forall in Hn.
    cbn [map concat]. trans (filter (fun x => f x = n) l ++ filter (fun x => f x <> n) l).
    + f_equal. rewrite <- (IH (filter (fun x => f x <> n) l)); [|by apply StronglySorted_filter | done | done |].
      * f_equal. apply map_ext_in. intros m Hm%list_elem_of_In. rewrite list_filter_filter. apply list_filter_iff.
        intros x. split; [|tauto]. intros Ex. split; [done|]. intros Ex'. apply Hni. congruence.
      * intros x [Hx Hx']%list_elem_of_filter. specialize (Hin x Hx'). set_solver.
    + apply first_group; [done|]. intros x Hx. destruct (proj1 (elem_of_cons names (f x) n) (Hin x Hx)) as [->|H']; [done | by apply Hn].
Qed.

Lemma captured_ok label files :
  StronglySorted String.le (captured label files) /\ NoDup (captured label files) /\
  forall n, n ∈ captured label files <-> globbed label n = true /\ is_Some (files !! n).
Proof.
  unfold captured. split_and!.
  - apply (StronglySorted_merge_sort String.le).
  - rewrite merge_sort_Permutation. apply NoDup_filter, NoDup_fst_map_to_list.
  - intros n. rewrite merge_sort_Permutation, list_elem_of_filter, list_elem_of_fmap. split.
    + intros [Hg ([m v] & -> & Hv%elem_of_map_to_list)]. split; [done | by eexists].
    + intros [Hg [v Hv]]. split; [done|]. exists (n, v). split; [done | by apply elem_of_map_to_list].
Qed.

(** The file of a happening is one of its label's. *)
Lemma prefix_app s t : String.prefix s (s +:+ t) = true.
Proof. induction s as [|c s IH]; [by destruct t|]. rewrite string_app_cons. cbn. by destruct (Ascii.ascii_dec c c). Qed.

Lemma globbed_file l day : globbed l (file_name l day) = true.
Proof.
  unfold globbed, file_name. rewrite <- (string_app_assoc l "-"), prefix_app. cbn [andb].
  assert (E : drop_chars (S (String.length l)) ((l +:+ "-") +:+ (day +:+ ".jsonl")) = day +:+ ".jsonl").
  { replace (S (String.length l)) with (String.length (l +:+ "-")) by (rewrite length_app_str; cbn; lia).
    apply drop_chars_app. }
  rewrite E. unfold ends_with. apply bool_decide_true. rewrite length_app_str.
  replace (_ + _ - _)%nat with (String.length day) by (cbn; lia). apply drop_chars_app.
Qed.

Section Round.
Context {JT : JsonText} {LT : LineText}.

(** C13. A capture replays as it was recorded: when a session's calls were recorded with every
    process row, on a disk that took them, in lines JSON reads back, replaying a node feeds its
    pipeline exactly that node's calls, in their order and with the times they were received,
    and then a flush: whatever the pipeline does with them, records, counts and errors.  The
    clock may not have stepped back to an earlier day, and no other label may begin with the
    label and a dash. *)
Theorem replay_faithful cf hs ck files st :
  let label := cf_label cf in let hts := timed ck 0 hs in
  Forall readable hts -> StronglySorted (by_key hap_file) (of_label label hts) ->
  (forall n, globbed label n = true -> files !! n = None) ->
  (forall ht, ht ∈ hts -> globbed label (hap_file ht) = true -> hap_label ht.1 = label) ->
  replay_node cf (disk (recording hs (new_recorder files (fun _ => None) ck)).2) st =
  (modify (set_pipeline (new_pipeline cf)) ;;;
   modify (fun s => set_result (dset label [] (rp_result s)) s) ;;;
   foldM (fun _ c => feed cf c) tt (map hap_call (of_label label hts)) ;;; feed cf Flush) st.
Proof.
  intros label hts Hr Hs Hf Hl. destruct (recording_leaves hs ck files Hr) as [Ht Hn].
  set (d := disk _) in *. unfold replay_node. fold label.
  rewrite !bind_modify.
  set (s2 := set_result _ _). destruct (captured_ok label d) as (C1 & C2 & C3).
  enough (E : foldM (fun _ name => foldM (fun _ => replay_line cf) tt (text_lines (default "" (d !! name)))) tt (captured label d) s2
    = foldM (fun _ c => feed cf c) tt (map hap_call (of_label label hts)) s2) by (unfold bind at 1; rewrite E; done).
  rewrite <- (grouped hap_file (of_label label hts) (captured label d)) at 1; [|done..|].
  - rewrite concat_map, map_map, <- foldM_groups. apply foldM_ext. intros n [] s [Hg _]%C3.
    rewrite Ht, Hf, string_app_nil_l by done. etrans; [apply replay_text|].
    + apply Forall_forall. intros ht [_ Hin]%list_elem_of_filter. rewrite Forall_forall in Hr. by apply Hr.
    + do 2 f_equal. unfold of_label. rewrite list_filter_filter. apply filter_same. intros ht Hin.
      split; [|tauto]. intros Ef. split; [done|]. apply Hl; [done | by rewrite Ef].
  - intros ht [El Hin]%list_elem_of_filter. apply C3. split; [rewrite <- El; apply globbed_file|].
    apply Hn. right. by apply list_elem_of_fmap_2.
Qed.
End Round.

(** The pattern of a label also finds the files of every label that goes on with a dash. *)
Lemma longer_label_globbed l x day : globbed l (file_name (l +:+ "-" +:+ x) day) = true.
Proof.
  pose proof (globbed_file l (x +:+ "-" +:+ day)) as H. unfold file_name in *.
  by rewrite !string_app_assoc in *.
Qed.

(** ** A capture of two nodes over midnight *)

Definition demo_midnight : Z := 1700006400000000.
Definition demo_ck (n : nat) : datetime := utc (demo_midnight + (Z.of_nat n - 3) * 1000000).
Definition demo_hs : list happening :=
  [Evt "login1" "session_started" []; Evt "login2" "session_started" []; Msg "login1" (counters_msg 1);
   Msg "login1" (counters_msg 2); Evt "login1" "session_lost" [("error", VStr "eof")]].
Definition demo_hts : list (happening * datetime) := timed demo_ck 0 demo_hs.

(** JSON for the five lines of it, each standing as its time. *)
#[local] Instance demo_json : JsonText :=
  {| dumps _ := ""; json_safe _ := False;
     loads s := hap_line <$> find (fun ht => bool_decide (isoformat ht.2 +:+ String newline "" = s)) demo_hts |}.
#[local] Instance demo_lines : LineText :=
  {| line_dumps v := match v with VDict (("recv", VStr t) :: _) => Ok t | _ => Raise TypeError end |}.

Definition demo_capture : gmap string string := disk (recording demo_hs (new_recorder ∅ (fun _ => None) demo_ck)).2.
Definition demo_start : replaying := Replaying (new_pipeline demo_config) [] [] [].

Example capture_demo :
  captured "login1" demo_capture = ["login1-20231114.jsonl"; "login1-20231115.jsonl"] /\
  let s := (replay_node demo_config demo_capture demo_start).2 in
  rp_result s = [("login1", [(COLLECTION_EVENT, 2); (LIVE_NODE, 3); (NODE_METRICS_1M, 2)])].
Proof. split; vm_compute; reflexivity. Qed.

Lemma replay_faithful_witness :
  replay_node demo_config demo_capture demo_start =
  (modify (set_pipeline (new_pipeline demo_config)) ;;;
   modify (fun s => set_result (dset "login1" [] (rp_result s)) s) ;;;
   foldM (fun _ c => feed demo_config c) tt (map hap_call (of_label "login1" demo_hts)) ;;; feed demo_config Flush) demo_start.
Proof.
  apply (replay_faithful demo_config demo_hs demo_ck ∅ demo_start).
  - repeat (apply Forall_cons_2;
      [split; [eexists; split; [reflexivity | split; vm_compute; reflexivity] |
               eexists; split; [reflexivity | repeat split; vm_compute; congruence]] |]). apply Forall_nil_2.
  - apply (bool_decide_unpack _). vm_compute. exact I.
  - intros n _. apply lookup_empty.
  - intros ht Hin. cbn [timed demo_hs] in Hin.
    repeat (apply elem_of_cons in Hin as [->|Hin]; [vm_compute; congruence|]). by apply elem_of_nil in Hin.
Defined.
