(* ===== verification/Interleave.v ===== *)
(** * Interleaved programs

    A process, or a thread, is a program of calls to what it shares with the others, each call
    with the type of its answer; the programs interleave call by call.  [ok] is what a program
    may ask in the light of a status that its calls change: a weakest precondition over the
    answers that are possible.  Instance.v and ProbeWatch.v are its clients. *)

From S2P Require Import Prelude.

(** ** Programs *)

Inductive prog {call : Type} {answer : call -> Type} (A : Type) :=
| Done (r : res A)
| Ask (c : call) (k : answer c -> prog A).
Arguments prog {call} answer A.
Arguments Done {call answer A} r.
Arguments Ask {call answer A} c k.

Section Programs.
Context {call : Type} {answer : call -> Type}.
#[local] Abbreviation prog := (prog answer).

Fixpoint pbind {A B} (p : prog A) (k : A -> prog B) : prog B :=
  match p with
  | Done (Ok a) => k a
  | Done (Raise e) => Done (Raise e)
  | Ask c k' => Ask c (fun a => pbind (k' a) k)
  end.
(** [try: p finally: q]: an exception of [q] is what is raised. *)
Fixpoint pfinally {A} (p : prog A) (q : prog unit) : prog A :=
  match p with
  | Done r => pbind q (fun _ => Done r)
  | Ask c k => Ask c (fun a => pfinally (k a) q)
  end.
(** [try: p except Exception: h] *)
Fixpoint pcatch {A} (p : prog A) (h : exn -> prog A) : prog A :=
  match p with
  | Done (Raise e) => if is_exception e then h e else Done (Raise e)
  | Done (Ok a) => Done (Ok a)
  | Ask c k => Ask c (fun a => pcatch (k a) h)
  end.
Definition sys (c : call) : prog (answer c) := Ask c (fun a => Done (Ok a)).
Definition pret {A} (a : A) : prog A := Done (Ok a).
Definition praise {A} (e : exn) : prog A := Done (Raise e).
(** A call that raises [OSError] when it fails. *)
Definition must (b : bool) : prog unit := if b then pret tt else praise (OSErr "").

(** ** What a program may ask *)

Context {status : Type} (allowed : status -> call -> Prop) (next : status -> forall c, answer c -> status)
  (possible : status -> forall c, answer c -> Prop).

Fixpoint ok {A} (st : status) (pr : prog A) (Q : status -> res A -> Prop) : Prop :=
  match pr with
  | Done r => Q st r
  | Ask c k => allowed st c /\ forall a, possible st c a -> ok (next st c a) (k a) Q
  end.

Lemma ok_mono {A} st (pr : prog A) (Q Q' : status -> res A -> Prop) :
  (forall st r, Q st r -> Q' st r) -> ok st pr Q -> ok st pr Q'.
Proof.
  intros H. revert st. induction pr as [r|c k IH]; intros st; cbn; [apply H|].
  intros [Ha Hk]. split; [done|]. intros a Hp. by apply IH, Hk.
Qed.

Lemma ok_bind {A B} st (pr : prog A) (k : A -> prog B) Q :
  ok st pr (fun st r => match r with Ok a => ok st (k a) Q | Raise e => Q st (Raise e) end) -> ok st (pbind pr k) Q.
Proof.
  revert st. induction pr as [[a|e]|c k' IH]; intros st; cbn; [done | done |].
  intros [Ha Hk]. split; [done|]. intros a Hp. by apply IH, Hk.
Qed.

Lemma ok_finally {A} st (pr : prog A) q Q :
  ok st pr (fun st r => ok st (pbind q (fun _ => Done r)) Q) -> ok st (pfinally pr q) Q.
Proof.
  revert st. induction pr as [r|c k' IH]; intros st; cbn; [done|].
  intros [Ha Hk]. split; [done|]. intros a Hp. by apply IH, Hk.
Qed.

Lemma ok_catch {A} st (pr : prog A) h Q :
  ok st pr (fun st r => match r with
                        | Raise e => if is_exception e then ok st (h e) Q else Q st (Raise e)
                        | Ok a => Q st (Ok a)
                        end) -> ok st (pcatch pr h) Q.
Proof.
  revert st. induction pr as [[a|e]|c k' IH]; intros st; cbn; [done | by destruct (is_exception e) |].
  intros [Ha Hk]. split; [done|]. intros a Hp. by apply IH, Hk.
Qed.
End Programs.

Declare Scope prog_scope.
Delimit Scope prog_scope with prog.
Notation "'do' x <- p ; k" := (pbind p (fun x => k)) (at level 60, x name, p at level 59, right associativity) : prog_scope.
