(* ===== verification/Instance.v ===== *)
(** * The single-instance guard

    [node_monitor/collector/instance.py], and what [cli/main.py] does with it: a process is a
    program of system calls, and the calls of the processes interleave as the kernel takes
    them.  A call may fail, a process may be killed between any two of its calls (its lock is
    dropped then), and a pid may be used again once its process is gone.  The directory and the
    modes of the files are left out. *)

From Stdlib Require Import ZArith Lia.
From S2P Require Import Prelude PyFloat PyTime PyVal Interleave.

#[local] Open Scope string_scope.
#[local] Open Scope list_scope.
#[local] Open Scope Z_scope.

(** ** System calls

    On [state/daemon.lock], [state/daemon.json] and [state/daemon.json.tmp]; what a file of
    JSON holds is [None] when it cannot be read as an object.  [Work] is the daemon's run
    between [acquire] and [release]. *)
Inductive call :=
| OpenLock (create : bool)
| Flock
| Unlock
| Close
| ReadInfo
| UnlinkInfo
| OpenTmp
| WriteTmp (info : dict)
| ReplaceInfo
| Kill (pid : Z)
| Work.

Inductive opened := Opened | NotFound | OpenFailed.
Inductive flocked := Taken | Busy | FlockFailed.

Definition answer (c : call) : Type :=
  match c with
  | OpenLock _ => opened
  | Flock => flocked
  | ReadInfo => option dict
  | Close | Work => unit
  | _ => bool
  end.

Abbreviation prog := (Interleave.prog answer).

#[local] Open Scope prog_scope.

(** ** The operations *)

(** [read_info] *)
Definition read_info : prog (option dict) := sys ReadInfo.

(** [_probe]: whether another process holds the lock, and what [on_free], which runs while we
    hold it, finds. *)
Definition _probe {X} (on_free : prog X) (none : X) : prog (bool * X) :=
  do o <- sys (OpenLock false);
  match o with
  | NotFound => do x <- on_free; pret (false, x)
  | OpenFailed => pret (false, none)
  | Opened =>
      pfinally
        (do f <- sys Flock;
         match f with
         | Busy => pret (true, none)
         | FlockFailed => praise (OSErr "flock")
         | Taken => do x <- on_free; pret (false, x)
         end) (sys Close)
  end.

Definition lock_held : prog bool := do r <- _probe (pret tt) tt; pret r.1.

Definition running_info : prog (option dict) :=
  do held <- lock_held; if held : bool then read_info else pret None.

(** [remove] of [clear_stale], and [clear_stale] *)
Definition remove : prog (option dict) :=
  do info <- read_info; do ok <- sys UnlinkInfo; do u <- must ok; pret info.
Definition clear_stale : prog (option dict) := do r <- _probe remove None; pret r.2.

(** [InstanceLock.acquire]: [inr info] is [AlreadyRunning(info)]. *)
Definition acquire (me : dict) : prog (unit + dict) :=
  do o <- sys (OpenLock true);
  match o with
  | Opened =>
      do f <- sys Flock;
      match f with
      | Busy => do u <- sys Close; do info <- read_info; pret (inr (default [] info))
      | FlockFailed => praise (OSErr "flock")
      | Taken =>
          do ok <- sys OpenTmp; do u <- must ok;
          do ok <- sys (WriteTmp me); do u <- must ok;
          do ok <- sys ReplaceInfo; do u <- must ok;
          pret (inl tt)
      end
  | _ => praise (OSErr "open")
  end.

(** [InstanceLock.release] of a lock that was acquired *)
Definition release : prog unit :=
  do ok <- sys UnlinkInfo; do u <- must ok;
  do ok <- sys Unlock; do u <- must ok;
  sys Close.

(** ** The commands *)

Definition host_of (info : dict) : value := dget_or_none "host" info.
Definition local (host : string) (info : dict) : bool :=
  match host_of info with VStr h => bool_decide (h = host) | _ => false end.
(** [if not info] *)
Definition present (info : option dict) : option dict := match info with Some [] => None | _ => info end.

(** [daemon start --foreground] *)
Definition daemon_foreground (me : dict) : prog unit :=
  do r <- acquire me;
  match r with
  | inr info => praise (RuntimeError "already running")
  | inl _ => pfinally (sys Work) release
  end.

(** [daemon start], up to the start of the child, which is a process of its own *)
Definition daemon_start : prog unit :=
  do info <- running_info;
  match present info with
  | Some info => praise (RuntimeError "already running")
  | None => do stale <- clear_stale; pret tt
  end.

(** [daemon stop], looking at most [polls] times whether the lock is free *)
Fixpoint wait_free (polls : nat) : prog unit :=
  do held <- lock_held;
  if held : bool then
    match polls with O => praise (RuntimeError "still running") | S polls => wait_free polls end
  else pret tt.
Definition daemon_stop (host : string) (polls : nat) : prog unit :=
  do info <- running_info;
  match present info with
  | None => do stale <- clear_stale; pret tt
  | Some info =>
      if local host info then
        match dget "pid" info with
        | Some (VInt pid) => do ok <- sys (Kill pid); if ok : bool then wait_free polls else pret tt
        | _ => praise (KeyError "pid")
        end
      else praise (RuntimeError "stop it there")
  end.

(** [daemon status], its look at the local process *)
Definition daemon_status : prog unit :=
  do info <- running_info;
  match present info with
  | Some _ => pret tt
  | None => do stale <- clear_stale; pret tt
  end.

(** [is_alive] of this host's [info], from what [os.kill(pid, 0)] and [/proc/<pid>/stat] say *)
Inductive kill_zero := Delivered | NoProcess | NotPermitted.
Definition is_alive (host : string) (kill0 : Z -> kill_zero) (stat_state : Z -> option string) (info : dict) : bool :=
  local host info &&
  match as_int (dget_or_none "pid" info) with
  | Ok pid =>
      (0 <? pid) &&
      match kill0 pid with
      | NoProcess => false
      | NotPermitted => true
      | Delivered => match stat_state pid with Some s => negb (bool_decide (s = "Z")) | None => true end
      end
  | Raise _ => false
  end.

(** ** The kernel *)

Record machine := Machine {
  lock_file : bool;
  holder : option Z;
  info_file : option (option dict);
  tmp_file : option (option dict);
}.
Definition set_lock_file b w := Machine b (holder w) (info_file w) (tmp_file w).
Definition set_holder h w := Machine (lock_file w) h (info_file w) (tmp_file w).
Definition set_info i w := Machine (lock_file w) (holder w) i (tmp_file w).
Definition set_tmp t w := Machine (lock_file w) (holder w) (info_file w) t.

(** A process that closes its file, or ends, holds no lock. *)
Definition drop (p : Z) (w : machine) : machine := if decide (holder w = Some p) then set_holder None w else w.

(** What a call of process [p] may answer, and what it leaves. *)
Definition does (p : Z) (c : call) : machine -> answer c -> machine -> Prop :=
  match c return machine -> answer c -> machine -> Prop with
  | OpenLock create => fun w a w' =>
      match a with
      | Opened => (create || lock_file w = true) /\ w' = set_lock_file true w
      | NotFound => create || lock_file w = false /\ w' = w
      | OpenFailed => w' = w
      end
  | Flock => fun w a w' =>
      match a with
      | Taken => holder w = None /\ w' = set_holder (Some p) w
      | Busy => is_Some (holder w) /\ w' = w
      | FlockFailed => w' = w
      end
  | Unlock => fun w a w' => w' = if a then drop p w else w
  | Close => fun w _ w' => w' = drop p w
  | ReadInfo => fun w a w' => (a = None \/ info_file w = Some a) /\ w' = w
  | UnlinkInfo => fun w a w' => w' = if a then set_info None w else w
  | OpenTmp => fun w a w' => w' = if a then set_tmp (Some None) w else w
  | WriteTmp i => fun w a w' => w' = set_tmp (Some (if a then Some i else None)) w
  | ReplaceInfo => fun w a w' =>
      if a then is_Some (tmp_file w) /\ w' = set_tmp None (set_info (tmp_file w) w) else w' = w
  | Kill _ => fun w _ w' => w' = w
  | Work => fun w _ w' => w' = w
  end.

(** What a process may run: a daemon whose [daemon.json] names its pid, or a command. *)
Inductive program (p : Z) : prog unit -> Prop :=
| run_foreground me : dget "pid" me = Some (VInt p) -> program p (daemon_foreground me)
| run_start : program p daemon_start
| run_stop host polls : program p (daemon_stop host polls)
| run_status : program p daemon_status.

Definition sstate : Type := machine * gmap Z (prog unit).

Inductive sstep : sstate -> sstate -> Prop :=
| step_call p c k a w w' ps :
    ps !! p = Some (Ask c k) -> does p c w a w' -> sstep (w, ps) (w', <[p := k a]> ps)
| step_end p pr w ps : ps !! p = Some pr -> sstep (w, ps) (drop p w, delete p ps)
| step_spawn p pr w ps : ps !! p = None -> program p pr -> sstep (w, ps) (w, <[p := pr]> ps).

Definition booted (w : machine) : Prop := holder w = None.
Definition sreachable (w : machine) (s : sstate) : Prop := rtc sstep (w, ∅) s.

(** ** What a process may do with the lock *)

Inductive fd_state := NoFd | HasFd | Holding | Staged (i : dict) | Published (i : dict).
Definition holding (st : fd_state) : bool := match st with NoFd | HasFd => false | _ => true end.

(** The files of the daemon are changed under the lock only, and the daemon works only once
    [daemon.json] is its own. *)
Definition allowed (p : Z) (st : fd_state) (c : call) : Prop :=
  match c with
  | OpenLock _ => st = NoFd
  | Flock => st = HasFd
  | UnlinkInfo | OpenTmp | WriteTmp _ => holding st = true
  | ReplaceInfo => exists i, st = Staged i
  | Work => exists i, st = Published i /\ dget "pid" i = Some (VInt p)
  | _ => True
  end.

Definition next (st : fd_state) (c : call) : answer c -> fd_state :=
  match c return answer c -> fd_state with
  | OpenLock _ => fun a => match a with Opened => HasFd | _ => NoFd end
  | Flock => fun a => match a with Taken => Holding | _ => st end
  | Unlock => fun a => if a then HasFd else st
  | Close => fun _ => NoFd
  | UnlinkInfo | OpenTmp => fun a => if a then Holding else st
  | WriteTmp i => fun a => if a then Staged i else Holding
  | ReplaceInfo => fun a => if a then (match st with Staged i => Published i | _ => st end) else st
  | _ => fun _ => st
  end.

(** With a lock file in place, opening it never finds it missing. *)
Definition possible (c : call) : answer c -> Prop :=
  match c return answer c -> Prop with
  | OpenLock _ => fun a => a <> NotFound
  | _ => fun _ => True
  end.

Abbreviation safe p := (ok (allowed p) next (fun _ => possible)).

(** Nothing asked of the lock, nothing left open. *)
Definition lets_go {A} (st : fd_state) (r : res A) : Prop := st = NoFd.

Lemma ok_probe {X} p (f : prog X) none :
  safe p Holding f (fun st _ => st = Holding) -> safe p NoFd (_probe f none) lets_go.
Proof.
  intros Hf. unfold _probe. apply ok_bind. split; [done|]. intros [| |] Hp; [| by destruct Hp | done].
  apply ok_finally, ok_bind. split; [done|]. intros [| |] _; cbn; [| split; done | split; done].
  apply ok_bind. eapply ok_mono; [|exact Hf]. intros st [x|e] ->; split; done.
Qed.

Lemma ok_lock_held p : safe p NoFd lock_held lets_go.
Proof.
  unfold lock_held. apply ok_bind. eapply ok_mono; [|by apply ok_probe]. by intros st [x|e] ->.
Qed.

Lemma ok_running_info p : safe p NoFd running_info lets_go.
Proof.
  apply ok_bind. eapply ok_mono; [|apply ok_lock_held]. by intros st [[]|e] ->.
Qed.

Lemma ok_clear_stale p : safe p NoFd clear_stale lets_go.
Proof.
  apply ok_bind. eapply ok_mono; [|apply ok_probe].
  - by intros st [x|e] ->.
  - split; [done|]. intros a _. split; [done|]. by intros [] _.
Qed.

Lemma ok_foreground p me : dget "pid" me = Some (VInt p) -> safe p NoFd (daemon_foreground me) (fun _ _ => True).
Proof.
  intros Hme. unfold daemon_foreground, acquire. cbn.
  split; [done|]. intros [| |] _; cbn; try done.
  split; [done|]. intros [| |] _; cbn; try done.
  split; [done|]. intros [] _; cbn; [|done].
  split; [done|]. intros [] _; cbn; [|done].
  split; [by eexists|]. intros [] _; cbn; [|done].
  split; [by eexists|]. intros [] _; cbn.
  split; [done|]. intros [] _; cbn; [|done].
  split; [done|]. intros [] _; cbn; done.
Qed.

Lemma ok_wait_free p polls : safe p NoFd (wait_free polls) lets_go.
Proof.
  induction polls as [|polls IH]; cbn [wait_free]; apply ok_bind;
    (eapply ok_mono; [|apply ok_lock_held]); by intros st [[]|e] ->.
Qed.

Lemma ok_then_clear p (f : option dict -> prog unit) :
  (forall info, safe p NoFd (f info) lets_go) -> safe p NoFd (pbind running_info f) (fun _ _ => True).
Proof.
  intros Hf. apply ok_bind. eapply ok_mono; [|apply ok_running_info].
  intros st [info|e] ->; [|done]. by eapply ok_mono; [|apply Hf].
Qed.

Lemma ok_cleared p : safe p NoFd (do stale <- clear_stale; pret tt) lets_go.
Proof. apply ok_bind. eapply ok_mono; [|apply ok_clear_stale]. by intros st [x|e] ->. Qed.

Lemma ok_program p pr : program p pr -> safe p NoFd pr (fun _ _ => True).
Proof.
  intros []; [by apply ok_foreground | apply ok_then_clear; intros info; destruct (present info) eqn:E..];
    try exact (ok_cleared p); try done.
  match goal with |- context [local host ?d] => destruct (local host d); [destruct (dget "pid" d) as [[]|]|]; try done end.
  split; [done|]. intros [] _; [apply ok_wait_free | done].
Qed.

(** ** The invariant of the interleaving *)

Definition fits (p : Z) (st : fd_state) (w : machine) : Prop :=
  (holding st = true <-> holder w = Some p) /\
  match st with
  | Staged i => tmp_file w = Some (Some i)
  | Published i => info_file w = Some (Some i)
  | _ => True
  end.

Record guarded (s : sstate) : Prop := Guarded {
  gd_lock : lock_file s.1 = true;
  gd_alive : forall p, holder s.1 = Some p -> is_Some (s.2 !! p);
  gd_procs : forall p pr, s.2 !! p = Some pr -> exists st, safe p st pr (fun _ _ => True) /\ fits p st s.1;
}.

Lemma holder_drop p w : holder (drop p w) = if decide (holder w = Some p) then None else holder w.
Proof. unfold drop. by case_decide. Qed.
Lemma lock_file_drop p w : lock_file (drop p w) = lock_file w.
Proof. unfold drop. by case_decide. Qed.
Lemma files_drop p w : info_file (drop p w) = info_file w /\ tmp_file (drop p w) = tmp_file w.
Proof. unfold drop. by case_decide. Qed.

(** The end of [p] changes nothing for another. *)
Lemma fits_drop p q st w : p <> q -> fits q st w -> fits q st (drop p w).
Proof.
  intros Hne [H1 H2]. unfold fits. rewrite holder_drop. destruct (files_drop p w) as [-> ->].
  split; [|done]. rewrite H1. case_decide as Hd; [|done]. rewrite Hd. split; congruence.
Qed.

(** A call of [p] leaves [p] where [next] says, and changes nothing for another. *)
Lemma does_own p st c w a w' :
  lock_file w = true -> allowed p st c -> fits p st w -> does p c w a w' -> possible c a /\ fits p (next st c a) w'.
Proof.
  intros Hl Ha [H1 H2] Hd. unfold fits in *. destruct c; cbn in Ha, Hd, a |- *.
  - subst st. cbn in *. destruct a as [| |]; [destruct Hd as [_ ->]|destruct Hd as [Hd _]|subst w']; cbn; try done.
    rewrite Hl in Hd. by destruct create.
  - subst st. destruct a as [| |]; [destruct Hd as [_ ->]|destruct Hd as [_ ->]|subst w']; cbn; try done.
  - subst w'. split; [done|]. destruct a; cbn; [|done]. (split; [|done]); rewrite holder_drop; case_decide; split; congruence.
  - subst w'. split; [done|]. cbn. (split; [|done]); rewrite holder_drop; case_decide; split; congruence.
  - destruct Hd as [_ ->]. done.
  - subst w'. destruct a; cbn; [|done]. rewrite <- H1. done.
  - subst w'. destruct a; cbn; [|done]. rewrite <- H1. done.
  - subst w'. destruct a; cbn; rewrite <- H1; done.
  - destruct Ha as [i ->]. destruct a; [|by subst w']. destruct Hd as [_ ->]. cbn in *. by rewrite H2.
  - by subst w'.
  - by subst w'.
Qed.

Lemma does_other p q stp stq c w a w' :
  p <> q -> allowed p stp c -> fits p stp w -> fits q stq w -> does p c w a w' -> fits q stq w'.
Proof.
  intros Hne Ha [P1 P2] [Q1 Q2] Hd.
  assert (Hq : holding stp = true -> holding stq = false).
  { intros Hp. apply P1 in Hp. destruct (holding stq); [|done]. rewrite (proj1 Q1 eq_refl) in Hp. congruence. }
  unfold fits. destruct c; cbn in Ha, Hd, a |- *.
  - destruct a as [| |]; [destruct Hd as [_ ->]|destruct Hd as [_ ->]|subst w']; done.
  - destruct a as [| |]; [destruct Hd as [Hn ->]|destruct Hd as [_ ->]|by subst w']; [|done].
    split; [|done]. cbn. rewrite Q1, Hn. split; congruence.
  - subst w'. destruct a; [by apply fits_drop|done].
  - subst w'. by apply fits_drop.
  - by destruct Hd as [_ ->].
  - subst w'. specialize (Hq Ha). destruct a; [|done]. split; [done|]. by destruct stq.
  - subst w'. specialize (Hq Ha). destruct a; [|done]. split; [done|]. by destruct stq.
  - subst w'. specialize (Hq Ha). split; [done|]. by destruct stq.
  - destruct Ha as [i ->]. specialize (Hq eq_refl). destruct a; [|by subst w'].
    destruct Hd as [_ ->]. split; [done|]. by destruct stq.
  - by subst w'.
  - by subst w'.
Qed.

Lemma does_alive p c w a w' : does p c w a w' -> lock_file w = true ->
  lock_file w' = true /\ forall q, holder w' = Some q -> holder w = Some q \/ q = p.
Proof.
  intros Hd Hl. destruct c; cbn in Hd, a;
    repeat match goal with
    | H : match ?a with _ => _ end |- _ => destruct a
    | H : _ = (if ?a then _ else _) |- _ => destruct a
    | H : if ?a then _ else _ |- _ => destruct a
    | H : _ /\ _ |- _ => destruct H
    end; subst; cbn; rewrite ?lock_file_drop; (split; [done|]); intros q; rewrite ?holder_drop; try case_decide;
    intros Hh; try discriminate; try (by left); right; congruence.
Qed.

Lemma guarded_step s s' : sstep s s' -> guarded s -> guarded s'.
Proof.
  intros Hs [G1 G2 G3]. destruct Hs as [p c k a w w' ps Hp Hd|p pr w ps Hp|p pr w ps Hp Hprog]; cbn [fst snd] in *.
  - destruct (G3 p _ Hp) as (st & Hok & Hf). cbn [ok] in Hok. destruct Hok as [Ha Hk].
    destruct (does_own p st c w a w' G1 Ha Hf Hd) as [Hpos Hown]. destruct (does_alive p c w a w' Hd G1) as [Hl Hh].
    split; cbn [fst snd]; [done | |].
    + intros q Hq. apply lookup_insert_is_Some'. destruct (Hh q Hq) as [Hq' | ->]; [right; by apply G2 | by left].
    + intros q pr Hq. destruct (decide (p = q)) as [<-|Hne].
      * rewrite lookup_insert_eq in Hq. injection Hq as <-. eexists. split; [by apply Hk | done].
      * rewrite lookup_insert_ne in Hq by done. destruct (G3 q pr Hq) as (stq & Hokq & Hfq).
        exists stq. split; [done|]. by eapply does_other.
  - split; cbn [fst snd]; [by rewrite lock_file_drop | |].
    + intros q. rewrite holder_drop. case_decide as Hd; [done|]. intros Hq.
      rewrite lookup_delete_ne by congruence. by apply G2.
    + intros q pr' [Hne Hq]%lookup_delete_Some. destruct (G3 q pr' Hq) as (stq & Hokq & Hfq).
      exists stq. split; [done|]. by apply fits_drop.
  - split; cbn [fst snd]; [done | |].
    + intros q Hq. apply lookup_insert_is_Some'. right. by apply G2.
    + intros q pr' Hq. destruct (decide (p = q)) as [<-|Hne].
      * rewrite lookup_insert_eq in Hq. injection Hq as <-. exists NoFd. split; [by apply ok_program|].
        split; [|done]. split; [done|]. cbn. intros Hh. destruct (G2 p Hh) as [x Hx]. congruence.
      * rewrite lookup_insert_ne in Hq by done. by apply G3.
Qed.

Lemma guarded_reachable w s : lock_file w = true -> booted w -> sreachable w s -> guarded s.
Proof.
  intros Hl Hb. unfold sreachable. intros H. remember (w, ∅) as s0 eqn:E0. assert (G : guarded s0).
  { subst s0. split; cbn [fst snd]; [done | rewrite Hb; done | intros p pr; by rewrite lookup_empty]. }
  clear E0. induction H as [|x y z Hxy Hyz IH]; [done|]. apply IH. by eapply guarded_step.
Qed.

(** ** Properties *)

(** Process [p] is a daemon at work. *)
Definition at_work (s : sstate) (p : Z) : Prop := exists k, s.2 !! p = Some (Ask Work k).

(** C5. One daemon: however the calls of any number of daemons and commands interleave,
    whichever of them fail, and whenever processes are killed, once [daemon.lock] exists at
    most one daemon is at work; it holds the lock, and [daemon.json] is its own record, naming
    its pid: no command has removed it and no other daemon has replaced it. *)
Theorem instance_exclusive w s p :
  lock_file w = true -> booted w -> sreachable w s -> at_work s p ->
  holder s.1 = Some p /\ (forall q, at_work s q -> q = p) /\
  exists me, info_file s.1 = Some (Some me) /\ dget "pid" me = Some (VInt p).
Proof.
  intros Hl Hb Hs [k Hk]. destruct (guarded_reachable w s Hl Hb Hs) as [_ _ G].
  assert (H : forall q k, s.2 !! q = Some (Ask Work k) -> holder s.1 = Some q /\
            exists me, info_file s.1 = Some (Some me) /\ dget "pid" me = Some (VInt q)).
  { intros q k' Hq. destruct (G q _ Hq) as (st & Hok & Hf). cbn [ok] in Hok. destruct Hok as [(i & -> & Hi) _].
    destruct Hf as [F1 F2]. split; [by apply F1 | by exists i]. }
  destruct (H p k Hk) as [Hh Hme]. split_and!; [done | | done].
  intros q [k' Hq]. destruct (H q k' Hq) as [Hh' _]. congruence.
Qed.

(** ** Runs in which no call fails *)

Definition succeed (p : Z) (c : call) (w : machine) : answer c * machine :=
  match c return answer c * machine with
  | OpenLock create => if create || lock_file w then (Opened, set_lock_file true w) else (NotFound, w)
  | Flock => match holder w with None => (Taken, set_holder (Some p) w) | Some _ => (Busy, w) end
  | Unlock => (true, drop p w)
  | Close => (tt, drop p w)
  | ReadInfo => (default None (info_file w), w)
  | UnlinkInfo => (true, set_info None w)
  | OpenTmp => (true, set_tmp (Some None) w)
  | WriteTmp i => (true, set_tmp (Some (Some i)) w)
  | ReplaceInfo => match tmp_file w with None => (false, w) | Some t => (true, set_tmp None (set_info (Some t) w)) end
  | Kill _ => (true, w)
  | Work => (tt, w)
  end.

Lemma succeed_does p c w : does p c w (succeed p c w).1 (succeed p c w).2.
Proof.
  destruct c; cbn; try done.
  - destruct (create || lock_file w) eqn:E; done.
  - destruct (holder w) eqn:E; [split; [by eexists|done] | done].
  - split; [|done]. destruct (info_file w); [by right | by left].
  - destruct (tmp_file w) eqn:E; [split; [by eexists | done] | done].
Qed.

(** A process that runs with no other interfering. *)
Fixpoint alone {A} (p : Z) (pr : prog A) (w : machine) : res A * machine :=
  match pr with
  | Done r => (r, w)
  | Ask c k => let '(a, w) := succeed p c w in alone p (k a) w
  end.

Lemma drop_held p b i t : drop p (Machine b (Some p) i t) = Machine b None i t.
Proof. unfold drop. cbn. by rewrite decide_True. Qed.
Lemma drop_other p q b i t : p <> q -> drop p (Machine b (Some q) i t) = Machine b (Some q) i t.
Proof. intros H. unfold drop. cbn. rewrite decide_False; [done | congruence]. Qed.
Lemma drop_free p b i t : drop p (Machine b None i t) = Machine b None i t.
Proof. done. Qed.

(** The guard tells the truth: where nobody holds the lock a daemon acquires it, whatever
    a dead one left behind; from then on every other process finds it running, with its
    record, is refused with that record, and clears nothing; and when it has released the
    lock, or died, nobody finds it running, and what a dead one left is found and removed. *)
Theorem guard_tells p q me me' b i t :
  p <> q ->
  let running := Machine true (Some p) (Some (Some me)) None in
  alone p (acquire me) (Machine b None i t) = (Ok (inl tt), running) /\
  alone q running_info running = (Ok (Some me), running) /\
  alone q (acquire me') running = (Ok (inr me), running) /\
  alone q clear_stale running = (Ok None, running) /\
  alone p release running = (Ok tt, Machine true None None None) /\
  alone q running_info (drop p running) = (Ok None, drop p running) /\
  alone q clear_stale (drop p running) = (Ok (Some me), Machine true None None None) /\
  alone q clear_stale (Machine true None None None) = (Ok None, Machine true None None None).
Proof.
  intros Hne running. subst running. rewrite drop_held.
  split_and!; repeat first [rewrite drop_held | rewrite drop_other by congruence | progress cbv -[drop]]; reflexivity.
Qed.

Definition me_of (pid : Z) : dict := [("pid", VInt pid); ("host", VStr "n1"); ("started_at", VStr "2024-01-01T00:00:00+00:00")].

Lemma guard_tells_witness :
  let running := Machine true (Some 7) (Some (Some (me_of 7))) None in
  alone 7 (acquire (me_of 7)) (Machine false None (Some None) None) = (Ok (inl tt), running) /\
  alone 8 running_info running = (Ok (Some (me_of 7)), running) /\
  alone 8 (acquire (me_of 8)) running = (Ok (inr (me_of 7)), running) /\
  alone 8 clear_stale running = (Ok None, running) /\
  alone 7 release running = (Ok tt, Machine true None None None) /\
  alone 8 running_info (drop 7 running) = (Ok None, drop 7 running) /\
  alone 8 clear_stale (drop 7 running) = (Ok (Some (me_of 7)), Machine true None None None) /\
  alone 8 clear_stale (Machine true None None None) = (Ok None, Machine true None None None).
Proof. apply (guard_tells 7 8 (me_of 7) (me_of 8) false (Some None) None). discriminate. Defined.

(** ** Scripts of an interleaving *)

Inductive event := Spawn (p : Z) (pr : prog unit) | Go (p : Z) | End_ (p : Z).

Definition happens (e : event) (s : sstate) : option sstate :=
  match e with
  | Spawn p pr => match s.2 !! p with None => Some (s.1, <[p := pr]> s.2) | Some _ => None end
  | Go p =>
      match s.2 !! p with
      | Some (Ask c k) => Some ((succeed p c s.1).2, <[p := k (succeed p c s.1).1]> s.2)
      | _ => None
      end
  | End_ p => match s.2 !! p with Some _ => Some (drop p s.1, delete p s.2) | None => None end
  end.
Definition script (es : list event) (s : sstate) : option sstate := foldl (fun s e => s ≫= happens e) (Some s) es.
Definition genuine (e : event) : Prop := match e with Spawn p pr => program p pr | _ => True end.

Lemma happens_step e s s' : genuine e -> happens e s = Some s' -> sstep s s'.
Proof.
  intros Hg. destruct s as [w ps]. destruct e as [p pr|p|p]; cbn in *; destruct (ps !! p) as [pr'|] eqn:E; try done.
  - intros [= <-]. by constructor.
  - destruct pr' as [r|c k]; [done|]. intros [= <-]. eapply step_call; [exact E | apply succeed_does].
  - intros [= <-]. by eapply step_end.
Qed.

Lemma script_reaches w es s' : Forall genuine es -> script es (w, ∅) = Some s' -> sreachable w s'.
Proof.
  unfold sreachable, script. generalize (w, ∅ : gmap Z (prog unit)). induction es as [|e es IH]; intros s Hg H.
  - injection H as ->. apply rtc_refl.
  - apply Forall_cons in Hg as [He Hg]. cbn [foldl] in H. change (Some s ≫= happens e) with (happens e s) in H.
    destruct (happens e s) as [s1|] eqn:E.
    + eapply rtc_l; [by eapply happens_step | by apply IH].
    + exfalso. clear -H. induction es as [|e es IH]; [discriminate | by apply IH].
Qed.

Definition goes (p : Z) (n : nat) : list event := replicate n (Go p).

Lemma instance_exclusive_witness :
  exists s, at_work s 7 /\ holder s.1 = Some 7 /\ (forall q, at_work s q -> q = 7) /\
    exists me, info_file s.1 = Some (Some me) /\ dget "pid" me = Some (VInt 7).
Proof.
  pose (es := [Spawn 3 (daemon_foreground (me_of 3))] ++ goes 3 5 ++ [End_ 3; Spawn 9 daemon_status] ++ goes 9 2 ++
              [Spawn 7 (daemon_foreground (me_of 7))] ++ goes 9 6 ++ goes 7 5).
  destruct (script es (Machine true None None None, ∅)) as [s|] eqn:E; [|exfalso; subst es; by vm_compute in E].
  assert (Hw : at_work s 7) by (subst es; vm_compute in E; injection E as <-; by eexists).
  exists s. split; [exact Hw|]. apply (instance_exclusive (Machine true None None None) s 7); [reflexivity | reflexivity | | exact Hw].
  apply (script_reaches _ es); [|exact E]. subst es. repeat constructor.
Defined.

(** The first start of all: while there is no [daemon.lock], [clear_stale] clears without it,
    and removes the record of a daemon that has started since it looked. *)
Theorem first_start_clobbered :
  exists s, sreachable (Machine false None None None) s /\ at_work s 7 /\ info_file s.1 = None.
Proof.
  pose (es := [Spawn 9 daemon_status] ++ goes 9 2 ++ [Spawn 7 (daemon_foreground (me_of 7))] ++ goes 7 5 ++ goes 9 2).
  destruct (script es (Machine false None None None, ∅)) as [s|] eqn:E; [|exfalso; subst es; by vm_compute in E].
  exists s. split.
  - apply (script_reaches _ es); [|exact E]. subst es. repeat constructor.
  - subst es. vm_compute in E. injection E as <-. split; [by eexists | done].
Qed.

(** A command that looks whether the lock is free holds it while it looks: [daemon stop] takes
    it for the daemon, and signals the pid a dead daemon left in [daemon.json], now nobody's or
    a stranger's. *)
Theorem stop_hits_stranger :
  exists s k, sreachable (Machine true None (Some (Some (me_of 7))) None) s /\
    s.2 !! 2 = Some (Ask (Kill 7) k) /\ s.2 !! 7 = None.
Proof.
  pose (es := [Spawn 1 daemon_status] ++ goes 1 2 ++ [Spawn 2 (daemon_stop "n1" 5)] ++ goes 2 4).
  destruct (script es (Machine true None (Some (Some (me_of 7))) None, ∅)) as [s|] eqn:E; [|exfalso; subst es; by vm_compute in E].
  assert (Hs : sreachable (Machine true None (Some (Some (me_of 7))) None) s).
  { apply (script_reaches _ es); [|exact E]. subst es. repeat constructor. }
  subst es. vm_compute in E. injection E as <-. eexists _, _. split; [exact Hs|]. split; reflexivity.
Qed.
