(* ===== verification/Summary.v ===== *)
(** * The summary of a recording

    [_NodeSummary] and [summarize] of [node_monitor/collector/soak.py], over the files Recorder.v
    leaves.  No handler stands between a malformed line and the caller of [summarize], so that
    [add] is a function to a summary or an exception.  The fields of the class are grouped in
    records: counts, counts by key, the CPU and the memory of the sessions, the censuses.  Texts of
    time are those [isoformat] writes; sorting assumes that the numbers are no NaN. *)

From Stdlib Require Import ZArith Lia.
From S2P Require Import Prelude PyFloat PyTime PyVal Text ProbeHost Recorder Replay.

#[local] Open Scope string_scope.
#[local] Open Scope list_scope.
#[local] Open Scope Z_scope.
#[local] Open Scope py_scope.

(** ** Arithmetic and comparisons on the values of a recording *)

Definition arith (on_int : Z -> Z -> Z) (on_float : float -> float -> float) (a b : num) : res num :=
  match a, b with
  | NInt x, NInt y => Ok (NInt (on_int x y))
  | _, _ => x ← to_float a; y ← to_float b; Ok (NFloat (on_float x y))
  end.
Definition add_nums : num -> num -> res num := arith Z.add fadd.
Definition sub_nums : num -> num -> res num := arith Z.sub fsub.

(** [a + b] and [a - b] *)
Definition py_add (a b : value) : res value :=
  match num_of a, num_of b with
  | Some m, Some n => s ← add_nums m n; Ok (val_of s)
  | _, _ =>
      match a, b with
      | VStr s, VStr t => Ok (VStr (s +:+ t))
      | VList l, VList m => Ok (VList (l ++ m))
      | _, _ => Raise TypeError
      end
  end.
Definition py_sub (a b : value) : res num :=
  match num_of a, num_of b with Some m, Some n => sub_nums m n | _, _ => Raise TypeError end.

(** [_min] and [_max], and [max(a, b)] *)
Definition _min (current v : value) : res value :=
  if is_null current then Ok v
  else if is_null v then Ok current
  else lt ← py_lt v current; Ok (if lt : bool then v else current).
Definition _max (current v : value) : res value :=
  if is_null current then Ok v
  else if is_null v then Ok current
  else gt ← py_lt current v; Ok (if gt : bool then v else current).
Definition py_max (a b : value) : res value := gt ← py_lt a b; Ok (if gt : bool then b else a).

(** [d[k] += 1] of a [defaultdict(int)], whose keys are values; a list or an object is no key. *)
Definition tally := list (value * Z).
Fixpoint counted (k : value) (d : tally) : tally :=
  match d with
  | [] => [(k, 1)]
  | (k', n) :: d => if py_eq k k' then (k', n + 1) :: d else (k', n) :: counted k d
  end.
Definition count_key (k : value) (d : tally) : res tally := if hashable k then Ok (counted k d) else Raise TypeError.

(** [v[:n]] of text or a list *)
Definition cut (n : nat) (v : value) : res value :=
  match v with
  | VStr s => Ok (VStr (take_chars n s))
  | VList l => Ok (VList (firstn n l))
  | _ => Raise TypeError
  end.

(** [v.get(..)] of what may be no object; [v or {}] *)
Definition as_object (v : value) : res dict := match v with VDict d => Ok d | _ => Raise AttributeError end.
Definition or_empty (v : value) : value := if truthy v then v else VDict [].

Definition _parse_ts (v : value) : res datetime :=
  match v with
  | VStr s => match fromisoformat s with Some t => Ok t | None => Raise (ValueError "Invalid isoformat string") end
  | _ => Raise TypeError
  end.
(** [(a - b).total_seconds()] *)
Definition seconds_since (b a : datetime) : res float :=
  if Bool.eqb (is_aware a) (is_aware b) then Ok (int_truediv (instant a - instant b) second_us) else Raise TypeError.
Definition hour_sec : float := float_of_Z 3600.

(** [sorted(values)]: each value after the ones that are not greater *)
Fixpoint insert_value (v : value) (l : list value) : res (list value) :=
  match l with
  | [] => Ok [v]
  | w :: l => lt ← py_lt v w; if lt : bool then Ok (v :: w :: l) else r ← insert_value v l; Ok (w :: r)
  end.
Definition sorted_values (l : list value) : res (list value) :=
  foldl (fun r v => r ← r; insert_value v r) (Ok []) l.

Definition _percentile (values : list value) (pct : Z) : res value :=
  match values with
  | [] => Ok VNone
  | _ =>
      ordered ← sorted_values values;
      let rank := Z.max 1 (- (- (Z.of_nat (length ordered) * pct) / 100)) in
      Ok (nth (Z.to_nat (rank - 1)) ordered VNone)
  end.

(** ** [_NodeSummary] *)

Definition point := (float * value)%type.

Record counts := Counts {
  c_counters : Z; c_started : Z; c_rotations : Z; c_reboots : Z; c_crashed : Z; c_malformed : Z;
  c_stderr : Z; c_byes : Z; c_census : Z;
}.
Record keyed := Keyed { losses : tally; errors_by_where : tally; rotation_reasons : tally; gpu_status : tally }.
Record cpu_use := CpuUse { cpu_total : num; cpu_first : option value; cpu_last : option value; maxrss : value }.
Record rss_use := RssUse {
  rss_max : value;
  rss_series : list (list point);
  session_start : option datetime;
  rss_points : list point;
  rss_next_hour : Z;
  rss_unsampled : option point;
}.
Record census_sizes := CensusSizes {
  scans : list value; proc_total : value; size_total : value;
  cpu_seconds_min : value; cpu_seconds_max : value; idle_for_max : value;
}.
Record node_summary := NodeSummary {
  span : option (value * value);
  cts : counts;
  kys : keyed;
  last_counter_at : option datetime;
  max_gap : option float;
  loss_timeline : list dict;
  cpu : cpu_use;
  rss : rss_use;
  sizes : census_sizes;
}.

Definition new_summary : node_summary :=
  NodeSummary None (Counts 0 0 0 0 0 0 0 0 0) (Keyed [] [] [] []) None None []
    (CpuUse (NFloat fzero) None None (VInt 0)) (RssUse VNone [] None [] 0 None)
    (CensusSizes [] (VInt 0) (VInt 0) VNone VNone VNone).

Definition set_span x s := NodeSummary x (cts s) (kys s) (last_counter_at s) (max_gap s) (loss_timeline s) (cpu s) (rss s) (sizes s).
Definition set_cts x s := NodeSummary (span s) x (kys s) (last_counter_at s) (max_gap s) (loss_timeline s) (cpu s) (rss s) (sizes s).
Definition set_kys x s := NodeSummary (span s) (cts s) x (last_counter_at s) (max_gap s) (loss_timeline s) (cpu s) (rss s) (sizes s).
Definition set_gap t g s := NodeSummary (span s) (cts s) (kys s) t g (loss_timeline s) (cpu s) (rss s) (sizes s).
Definition add_loss x s := NodeSummary (span s) (cts s) (kys s) (last_counter_at s) (max_gap s) (loss_timeline s ++ [x]) (cpu s) (rss s) (sizes s).
Definition set_cpu x s := NodeSummary (span s) (cts s) (kys s) (last_counter_at s) (max_gap s) (loss_timeline s) x (rss s) (sizes s).
Definition set_rss x s := NodeSummary (span s) (cts s) (kys s) (last_counter_at s) (max_gap s) (loss_timeline s) (cpu s) x (sizes s).
Definition set_sizes x s := NodeSummary (span s) (cts s) (kys s) (last_counter_at s) (max_gap s) (loss_timeline s) (cpu s) (rss s) x.

Inductive counter := NCounters | NStarted | NRotations | NReboots | NCrashed | NMalformed | NStderr | NByes | NCensus.
Definition plus_one (which : counter) (c : counts) : counts :=
  let '(Counts a b d e f g h i j) := c in
  match which with
  | NCounters => Counts (a + 1) b d e f g h i j
  | NStarted => Counts a (b + 1) d e f g h i j
  | NRotations => Counts a b (d + 1) e f g h i j
  | NReboots => Counts a b d (e + 1) f g h i j
  | NCrashed => Counts a b d e (f + 1) g h i j
  | NMalformed => Counts a b d e f (g + 1) h i j
  | NStderr => Counts a b d e f g (h + 1) i j
  | NByes => Counts a b d e f g h (i + 1) j
  | NCensus => Counts a b d e f g h i (j + 1)
  end.
Definition bump_count (which : counter) (s : node_summary) : node_summary := set_cts (plus_one which (cts s)) s.

(** [_close_session], its CPU and its memory *)
Definition close_cpu (c : cpu_use) : res cpu_use :=
  match cpu_first c, cpu_last c with
  | Some first, Some last =>
      d ← py_sub last first; t ← add_nums (cpu_total c) d; Ok (CpuUse t None None (maxrss c))
  | _, _ => Ok (CpuUse (cpu_total c) None None (maxrss c))
  end.
Definition close_rss (r : rss_use) : rss_use :=
  let points := rss_points r ++ option_list (rss_unsampled r) in
  RssUse (rss_max r) (match points with [] => rss_series r | _ => rss_series r ++ [points] end) None [] 0 None.
Definition _close_session (s : node_summary) : res node_summary :=
  c ← close_cpu (cpu s); Ok (set_rss (close_rss (rss s)) (set_cpu c s)).

Definition _add_rss (at_ : datetime) (rss_kb : value) (r : rss_use) : res rss_use :=
  m ← _max (rss_max r) rss_kb;
  let start := default at_ (session_start r) in
  sec ← seconds_since start at_;
  let hours := fdiv sec hour_sec in
  let p := (round_digits 1 hours, rss_kb) in
  if bool_decide (rss_points r = []) || num_leb (NInt (rss_next_hour r)) (NFloat hours) then
    Ok (RssUse m (rss_series r) (Some start) (rss_points r ++ [p]) (trunc_int hours + 1) None)
  else Ok (RssUse m (rss_series r) (Some start) (rss_points r) (rss_next_hour r) (Some p)).

Definition STDERR_TAIL_REPORT_CHARS : nat := 200.

Definition add_lost (ln detail : dict) (s : node_summary) : res node_summary :=
  l ← count_key (default (VStr "unknown") (dget "reason" detail)) (losses (kys s));
  let tail := dget_or_none "stderr_tail" detail in
  tail ← cut STDERR_TAIL_REPORT_CHARS (if truthy tail then tail else VStr "");
  recv ← item "recv" ln;
  Ok (add_loss [("recv", recv); ("reason", dget_or_none "reason" detail); ("exit_code", dget_or_none "exit_code" detail);
                ("stderr_tail", tail)]
        (set_kys (Keyed l (errors_by_where (kys s)) (rotation_reasons (kys s)) (gpu_status (kys s))) s)).

Definition add_rotated (detail : dict) (s : node_summary) : res node_summary :=
  let reason := dget_or_none "reason" detail in
  r ← count_key (if truthy reason then reason else VStr "max_lifetime") (rotation_reasons (kys s));
  Ok (bump_count NRotations (set_kys (Keyed (losses (kys s)) (errors_by_where (kys s)) r (gpu_status (kys s))) s)).

Definition start_session (at_ : datetime) (s : node_summary) : node_summary :=
  let r := rss s in
  set_rss (RssUse (rss_max r) (rss_series r) (Some at_) (rss_points r) (rss_next_hour r) (rss_unsampled r)) s.

Definition _add_event (ln : dict) (s : node_summary) : res node_summary :=
  let ev := dget_or_none "event" ln in
  let detail := or_empty (dget_or_none "detail" ln) in
  if is_str "session_started" ev then
    s ← _close_session (bump_count NStarted s); recv ← item "recv" ln; at_ ← _parse_ts recv; Ok (start_session at_ s)
  else if is_str "session_lost" ev then d ← as_object detail; add_lost ln d s
  else if is_str "session_rotated" ev then d ← as_object detail; add_rotated d s
  else if is_str "node_rebooted" ev then Ok (bump_count NReboots s)
  else if is_str "session_crashed" ev then Ok (bump_count NCrashed s)
  else if is_str "malformed_line" ev then Ok (bump_count NMalformed s)
  else if is_str "probe_stderr" ev then Ok (bump_count NStderr s)
  else Ok s.

(** [self.max_gap = _max(self.max_gap, ..)] *)
Definition wider (g : option float) (x : float) : float :=
  match g with Some g => if fltb g x then x else g | None => x end.
Definition add_gap (at_ : datetime) (s : node_summary) : res node_summary :=
  match last_counter_at s with
  | None => Ok (set_gap (Some at_) (max_gap s) s)
  | Some before => sec ← seconds_since before at_; Ok (set_gap (Some at_) (Some (wider (max_gap s) sec)) s)
  end.

(** The [probe_self] of a counters message. *)
Definition cpu_of (ps : dict) : res value :=
  py_add (default (VInt 0) (dget "cpu_seconds" ps)) (default (VInt 0) (dget "children_cpu_seconds" ps)).
Definition add_probe_self (at_ : datetime) (ps : dict) (s : node_summary) : res node_summary :=
  used ← cpu_of ps;
  let c := cpu s in
  m ← py_max (maxrss c) (default (VInt 0) (dget "maxrss_kb" ps));
  let s := set_cpu (CpuUse (cpu_total c) (Some (default used (cpu_first c))) (Some used) m) s in
  if is_null (dget_or_none "rss_kb" ps) then Ok s
  else r ← _add_rss at_ (dget_or_none "rss_kb" ps) (rss s); Ok (set_rss r s).

Definition _add_counters (at_ : datetime) (msg : dict) (s : node_summary) : res node_summary :=
  s ← add_gap at_ (bump_count NCounters s);
  let ps := dget_or_none "probe_self" msg in
  if truthy ps then ps ← as_object ps; add_probe_self at_ ps s else Ok s.

Section Summary.
Context {JT : JsonText}.

(** What a census, shaped by the recorder or whole, adds to the sums, and its extremes *)
Definition census_figures (msg : dict) : res (value * value * (value * value * value)) :=
  match dget "process_count" msg with
  | Some n =>
      Ok (n, default (VInt 0) (dget "bytes" msg),
          (dget_or_none "cpu_seconds_min" msg, dget_or_none "cpu_seconds_max" msg, dget_or_none "idle_for_max_sec" msg))
  | None =>
      procs ← processes_of msg;
      let cpu := present "cpu_seconds" procs in
      let idle := present "idle_for_sec" procs in
      lo ← or_none py_least cpu; hi ← or_none py_greatest cpu; longest ← or_none py_greatest idle;
      Ok (VInt (Z.of_nat (length procs)), VInt (Z.of_nat (String.length (dumps (VDict msg)))), (lo, hi, longest))
  end.

Definition add_sizes (msg : dict) (z : census_sizes) : res census_sizes :=
  let scan := dget_or_none "scan_seconds" msg in
  f ← census_figures msg;
  let '(n, bytes, (lo, hi, longest)) := f in
  n ← py_add (proc_total z) n; bytes ← py_add (size_total z) bytes;
  lo ← _min (cpu_seconds_min z) lo; hi ← _max (cpu_seconds_max z) hi; longest ← _max (idle_for_max z) longest;
  Ok (CensusSizes (if is_null scan then scans z else scans z ++ [scan]) n bytes lo hi longest).

Definition _add_census (msg : dict) (s : node_summary) : res node_summary :=
  let s := bump_count NCensus s in
  let status := dget_or_none "gpu_status" msg in
  g ← (if is_null status then Ok (gpu_status (kys s)) else count_key status (gpu_status (kys s)));
  z ← add_sizes msg (sizes s);
  Ok (set_sizes z (set_kys (Keyed (losses (kys s)) (errors_by_where (kys s)) (rotation_reasons (kys s)) g) s)).

Definition add_error (msg : dict) (s : node_summary) : res node_summary :=
  e ← count_key (default (VStr "unknown") (dget "where" msg)) (errors_by_where (kys s));
  Ok (set_kys (Keyed (losses (kys s)) e (rotation_reasons (kys s)) (gpu_status (kys s))) s).

Definition _add_message (ln : dict) (s : node_summary) : res node_summary :=
  msg ← as_object (or_empty (dget_or_none "msg" ln));
  let kind := dget_or_none "type" msg in
  if is_str "counters" kind then recv ← item "recv" ln; at_ ← _parse_ts recv; _add_counters at_ msg s
  else if is_str "census" kind then _add_census msg s
  else if is_str "error" kind then add_error msg s
  else if is_str "bye" kind then Ok (bump_count NByes s)
  else Ok s.

Definition add (ln : dict) (s : node_summary) : res node_summary :=
  recv ← item "recv" ln;
  let s := set_span (Some (match span s with Some (first, _) => first | None => recv end, recv)) s in
  if is_str "event" (dget_or_none "kind" ln) then _add_event ln s else _add_message ln s.

Fixpoint add_all (lines : list dict) (s : node_summary) : res node_summary :=
  match lines with [] => Ok s | ln :: lines => s ← add ln s; add_all lines s end.

(** ** [result] *)

Record report := Report {
  r_first : value; r_last : value; hours : float;
  counters_received : Z; counters_expected : float; coverage_pct : option float;
  census_received : Z; census_expected : option float; census_coverage_pct : option float;
  max_gap_sec : option float;
  sessions_started : Z; losses_by_reason : tally; r_loss_timeline : list dict;
  rotations : Z; rotations_by_reason : tally; bye_count : Z; reboots : Z; r_errors_by_where : tally;
  session_crashed_count : Z; malformed_line_count : Z; probe_stderr_count : Z;
  probe_cpu_sec_per_hour : option float; probe_maxrss_kb : value; probe_rss_kb_max : value;
  probe_rss_series : list (list point);
  census_scan_p50 : value; census_scan_p95 : value; census_scan_max : value;
  census_bytes_avg : option float; process_count_avg : option float; gpu_status_counts : tally;
  r_cpu_seconds_min : value; r_cpu_seconds_max : value; idle_for_max_sec : value;
}.

Definition as_num (v : value) : res num := match num_of v with Some n => Ok n | None => Raise TypeError end.
Definition positive (x : float) : bool := fltb fzero x.
(** [a / b if b > 0 else None] *)
Definition per (a : num) (b : float) : res (option float) :=
  if positive b then x ← true_div a (NFloat b); Ok (Some x) else Ok None.
Definition average (total : value) (n : Z) : res (option float) :=
  if n =? 0 then Ok None else t ← as_num total; x ← true_div t (NInt n); Ok (Some x).
(** [hours * 3600 / interval] *)
Definition expected_in (hours : float) (interval : value) : res float :=
  n ← as_num interval; true_div (NFloat (fmul hours hour_sec)) n.

Section Node.
Context (counter_interval census_interval : value).

Definition result (s : node_summary) : res report :=
  s ← _close_session s;
  match span s with
  | None => Raise TypeError
  | Some (first, last) =>
      from_ ← _parse_ts first; to_ ← _parse_ts last;
      sec ← seconds_since from_ to_;
      let hours := fdiv sec hour_sec in
      let c := cts s in
      expected ← expected_in hours counter_interval;
      census_exp ← (if truthy census_interval then x ← expected_in hours census_interval; Ok (Some x) else Ok None);
      coverage ← per (NInt (100 * c_counters c)) expected;
      census_cov ← match census_exp with
                   | Some x => if truthy (VFloat x) then y ← true_div (NInt (100 * c_census c)) (NFloat x); Ok (Some y) else Ok None
                   | None => Ok None
                   end;
      cpu_rate ← per (cpu_total (cpu s)) hours;
      p50 ← _percentile (scans (sizes s)) 50; p95 ← _percentile (scans (sizes s)) 95;
      longest ← or_none py_greatest (scans (sizes s));
      bytes ← average (size_total (sizes s)) (c_census c); procs ← average (proc_total (sizes s)) (c_census c);
      Ok (Report first last hours (c_counters c) expected coverage (c_census c) census_exp census_cov (max_gap s)
            (c_started c) (losses (kys s)) (loss_timeline s) (c_rotations c) (rotation_reasons (kys s)) (c_byes c)
            (c_reboots c) (errors_by_where (kys s)) (c_crashed c) (c_malformed c) (c_stderr c)
            cpu_rate (maxrss (cpu s)) (rss_max (rss s)) (rss_series (rss s)) p50 p95 longest bytes procs
            (gpu_status (kys s)) (cpu_seconds_min (sizes s)) (cpu_seconds_max (sizes s)) (idle_for_max (sizes s)))
  end.
End Node.

(** ** [summarize], of the files of a directory *)

(** [_FILE_RE]: the label and the day *)
Definition day_of_name (name : string) : option (string * string) :=
  if ends_with ".jsonl" name then
    let stem := prefix_of (String.length name - 6) name in
    let n := (String.length stem - 8)%nat in
    let day := drop_chars n stem in
    let label := prefix_of (n - 1) stem in
    if bool_decide (stem = label +:+ "-" +:+ day) && bool_decide (String.length day = 8%nat)
       && forall_chars (fun c => bool_decide (is_Some (digit_val c))) day
       && negb (bool_decide (label = "")) && forall_chars (fun c => negb (bool_decide (c = newline))) label
    then Some (label, day) else None
  else None.

(** [_recorded_lines] of one file: its lines that are an object with a [recv] *)
Definition recorded_line (raw : string) : option dict :=
  match loads raw with
  | Some (VDict line) => match dget "recv" line with Some (VStr _) => Some line | _ => None end
  | _ => None
  end.
Definition file_lines (bytes : string) : res (list dict) :=
  if bool_decide (decoded bytes = bytes) then Ok (omap recorded_line (text_lines bytes))
  else Raise (ValueError "invalid utf-8").
Fixpoint _recorded_lines (contents : list string) : res (list dict) :=
  match contents with [] => Ok [] | b :: bs => l ← file_lines b; ls ← _recorded_lines bs; Ok (l ++ ls) end.

(** [by_label], and the days of a label in order *)
Definition dated := (string * string)%type.
Definition by_day (a b : dated) : Prop := String.le a.1 b.1.
#[export] Instance by_day_dec : RelDecision by_day.
Proof. intros a b. unfold by_day. apply _. Defined.
Definition add_name (d : list (string * list dated)) (name : string) : list (string * list dated) :=
  match day_of_name name with
  | Some (label, day) => dset label (default [] (dget label d) ++ [(day, name)]) d
  | None => d
  end.
Definition by_label (names : list string) : list (string * list dated) := foldl add_name [] names.

(** The lines of a node folded, and its [result] if there was any line *)
Definition node_report (manifest : dict) (lines : res (list dict)) : res (option report) :=
  interval ← item "counter_interval_sec" manifest;
  lines ← lines;
  s ← add_all lines new_summary;
  match span s with
  | None => Ok None
  | Some _ => r ← result interval (dget_or_none "census_interval_sec" manifest) s; Ok (Some r)
  end.
Definition lines_of (files : gmap string string) (days : list dated) : res (list dict) :=
  _recorded_lines (map (fun dn => default "" (files !! dn.2)) (merge_sort by_day days)).
Definition with_report (label : string) (r : option report) (out : list (string * report)) : list (string * report) :=
  match r with Some r => dset label r out | None => out end.

Fixpoint summarize_labels (manifest : dict) (files : gmap string string) (labels : list (string * list dated))
    (out : list (string * report)) : res (list (string * report)) :=
  match labels with
  | [] => Ok out
  | (label, days) :: labels =>
      r ← node_report manifest (lines_of files days);
      summarize_labels manifest files labels (with_report label r out)
  end.
Definition summarize (manifest : dict) (files : gmap string string) : res (list (string * report)) :=
  summarize_labels manifest files (sorted_items (by_label (map fst (map_to_list files)))) [].
End Summary.

(** ** What a line is, by its kind *)

Definition is_event (ln : dict) : bool := is_str "event" (dget_or_none "kind" ln).
Definition recv_of (ln : dict) : option datetime :=
  match _parse_ts (dget_or_none "recv" ln) with Ok t => Some t | Raise _ => None end.
(** The start of a session, at its time *)
Definition start_at (ln : dict) : option datetime :=
  if is_event ln && is_str "session_started" (dget_or_none "event" ln) then recv_of ln else None.
(** A message of the probe; its [probe_self] with the time, if it is counters that have one *)
Definition message_of (ln : dict) : option dict :=
  if is_event ln then None else match or_empty (dget_or_none "msg" ln) with VDict m => Some m | _ => None end.
Definition probe_self (ln : dict) : option (datetime * dict) :=
  m ← message_of ln;
  if is_str "counters" (dget_or_none "type" m) then
    t ← recv_of ln;
    match dget_or_none "probe_self" m with
    | VDict ps => if truthy (VDict ps) then Some (t, ps) else None
    | _ => None
    end
  else None.
Definition cpu_point (ln : dict) : option value :=
  '(_, ps) ← probe_self ln; match cpu_of ps with Ok v => Some v | Raise _ => None end.
Definition rss_point (ln : dict) : option (datetime * value) :=
  '(t, ps) ← probe_self ln; let kb := dget_or_none "rss_kb" ps in if is_null kb then None else Some (t, kb).

(** The counter a line is for. *)
Definition event_counts : list (string * counter) :=
  [("session_started", NStarted); ("session_rotated", NRotations); ("node_rebooted", NReboots);
   ("session_crashed", NCrashed); ("malformed_line", NMalformed); ("probe_stderr", NStderr)].
Definition message_counts : list (string * counter) :=
  [("counters", NCounters); ("census", NCensus); ("bye", NByes)].
Definition named (names : list (string * counter)) (v : value) : option counter :=
  match v with VStr s => dget s names | _ => None end.
Definition counter_of (ln : dict) : option counter :=
  if is_event ln then named event_counts (dget_or_none "event" ln)
  else m ← message_of ln; named message_counts (dget_or_none "type" m).

Section Lines.
Context {JT : JsonText}.

(** What [add] does to the sessions' CPU and memory, by the kind of the line *)
Definition moves (ln : dict) (s s' : node_summary) : Prop :=
  match start_at ln with
  | Some t => close_cpu (cpu s) = Ok (cpu s') /\ rss s' = rss (start_session t (set_rss (close_rss (rss s)) s))
  | None =>
      match probe_self ln with
      | Some (t, ps) =>
          (exists used, cpu_of ps = Ok used /\ cpu_total (cpu s') = cpu_total (cpu s) /\
             cpu_first (cpu s') = Some (default used (cpu_first (cpu s))) /\ cpu_last (cpu s') = Some used) /\
          (if is_null (dget_or_none "rss_kb" ps) then rss s' = rss s
           else _add_rss t (dget_or_none "rss_kb" ps) (rss s) = Ok (rss s'))
      | None => cpu s' = cpu s /\ rss s' = rss s
      end
  end.

Lemma is_str_eq s v : is_str s v = true -> v = VStr s.
Proof. destruct v; cbn; try done. intros H%bool_decide_eq_true. by subst. Qed.

Lemma recv_parsed ln v t : item "recv" ln = Ok v -> _parse_ts v = Ok t -> recv_of ln = Some t.
Proof.
  unfold item, recv_of, dget_or_none. destruct (dget "recv" ln) as [w|]; [|done]. intros [= ->] Ht. cbn. by rewrite Ht.
Qed.

Definition counts_by (o : option counter) (c : counts) : counts := match o with Some w => plus_one w c | None => c end.
Definition quiet (o : option counter) (s s' : node_summary) : Prop :=
  cpu s' = cpu s /\ rss s' = rss s /\ cts s' = counts_by o (cts s).

(** Takes a computation apart whose result touches neither. *)
Ltac quietly H := repeat (let x := fresh in let Hx := fresh in apply res_bind_ok in H as (x & Hx & H)); injection H as <-; done.

Lemma add_lost_quiet ln d s s' : add_lost ln d s = Ok s' -> quiet None s s'.
Proof. unfold add_lost. intros H. quietly H. Qed.
Lemma add_rotated_quiet d s s' : add_rotated d s = Ok s' -> quiet (Some NRotations) s s'.
Proof. unfold add_rotated. intros H. quietly H. Qed.
Lemma add_error_quiet m s s' : add_error m s = Ok s' -> quiet None s s'.
Proof. unfold add_error. intros H. quietly H. Qed.
Lemma add_census_quiet m s s' : _add_census m s = Ok s' -> quiet (Some NCensus) s s'.
Proof. unfold _add_census. intros H. quietly H. Qed.

Lemma quiet_event ln s s' :
  is_event ln = true -> start_at ln = None -> quiet (counter_of ln) s s' ->
  moves ln s s' /\ cts s' = counts_by (counter_of ln) (cts s).
Proof.
  intros He Hs (Hc & Hr & Ht). split; [|done]. unfold moves, probe_self, message_of. by rewrite Hs, He.
Qed.

Lemma others (ev : string) k {A} (x y : A) :
  bool_decide (ev = k) = false -> (if decide (k = ev) then x else y) = y.
Proof. intros H%bool_decide_eq_false. by rewrite decide_False by congruence. Qed.

Lemma add_event_moves ln s s' : is_event ln = true -> _add_event ln s = Ok s' ->
  moves ln s s' /\ cts s' = counts_by (counter_of ln) (cts s).
Proof.
  intros He H. unfold _add_event in H.
  assert (Hn : counter_of ln = named event_counts (dget_or_none "event" ln)) by (unfold counter_of; by rewrite He).
  destruct (is_str "session_started" _) eqn:E1.
  - apply is_str_eq in E1. ok_step H as (s1 & H1 & H). ok_step H as (v & H2 & H). ok_step H as (t & H3 & H). injection H as <-.
    unfold _close_session in H1. ok_step H1 as (c & H4 & H1). injection H1 as <-. rewrite Hn, E1.
    unfold moves, start_at. rewrite He, E1, (recv_parsed ln v t) by done. done.
  - assert (Hs : start_at ln = None) by (unfold start_at; by rewrite E1, andb_false_r).
    apply quiet_event; [done..|]. rewrite Hn.
    repeat match type of H with
    | (if ?b then _ else _) = _ => let E := fresh "E" in destruct b eqn:E;
        [apply is_str_eq in E; rewrite E; cbn;
         first [ok_step H as (d & Hd & H); first [by eapply add_lost_quiet | by eapply add_rotated_quiet] | injection H as <-; done] |]
    end.
    injection H as <-. destruct (dget_or_none "event" ln) as [| | | |ev| | | |] eqn:Ev; try done. cbn in *.
    by rewrite !(others ev) by done.
Qed.

Lemma add_gap_quiet t s s' : add_gap t s = Ok s' -> quiet None s s'.
Proof. unfold add_gap. destruct (last_counter_at s); intros H; quietly H. Qed.

Lemma add_message_moves ln s s' : is_event ln = false -> _add_message ln s = Ok s' ->
  moves ln s s' /\ cts s' = counts_by (counter_of ln) (cts s).
Proof.
  intros He H. unfold _add_message in H. ok_step H as (m & Hm & H).
  assert (Hmsg : message_of ln = Some m).
  { unfold message_of. rewrite He. unfold as_object in Hm. destruct (or_empty _); try done. by injection Hm as ->. }
  assert (Hs : start_at ln = None) by (unfold start_at; by rewrite He).
  assert (Hn : counter_of ln = named message_counts (dget_or_none "type" m)) by (unfold counter_of; by rewrite He, Hmsg).
  rewrite Hn. unfold moves. rewrite Hs. unfold probe_self. rewrite Hmsg. cbn [mbind option_bind].
  destruct (is_str "counters" _) eqn:E1.
  - apply is_str_eq in E1. rewrite E1. cbn. ok_step H as (v & Hv & H). ok_step H as (t & Ht & H).
    rewrite (recv_parsed ln v t) by done. cbn [mbind option_bind]. unfold _add_counters in H. ok_step H as (s1 & H1 & H). apply add_gap_quiet in H1 as (Hc & Hr & Hk).
    destruct (truthy _) eqn:Et.
    + ok_step H as (ps & Hps & H). unfold as_object in Hps. unfold dget_or_none in Et, Hps |- *.
      destruct (default VNone (dget "probe_self" m)) as [| | | | | | | |d]; try done. injection Hps as ->. cbn in Et. rewrite Et.
      unfold add_probe_self in H. ok_step H as (used & Hu & H). ok_step H as (mx & Hmx & H).
      change (is_null (default VNone (dget "rss_kb" ps))) with (is_null (dget_or_none "rss_kb" ps)).
      destruct (is_null (dget_or_none "rss_kb" ps)).
      * injection H as <-. cbn. rewrite Hc, Hr, Hk. split; [|done]. split; [by exists used | done].
      * ok_step H as (r & Hrr & H). injection H as <-. cbn in *. rewrite Hc, Hr, Hk in *. split; [|done]. split; [by exists used | done].
    + injection H as <-. rewrite Hc, Hr, Hk. unfold dget_or_none in Et |- *.
      destruct (default VNone (dget "probe_self" m)) as [| | | | | | | |d]; try done. cbn in Et. by rewrite Et.
  - destruct (is_str "census" _) eqn:E2; [|destruct (is_str "error" _) eqn:E3; [|destruct (is_str "bye" _) eqn:E4]].
    + apply is_str_eq in E2. rewrite E2. by apply add_census_quiet in H as (-> & -> & ->).
    + apply is_str_eq in E3. rewrite E3. by apply add_error_quiet in H as (-> & -> & ->).
    + apply is_str_eq in E4. rewrite E4. by injection H as <-.
    + injection H as <-. destruct (dget_or_none "type" m) as [| | | |ty| | | |]; try done. cbn in *. by rewrite !(others ty) by done.
Qed.

Lemma add_moves ln s s' : add ln s = Ok s' ->
  moves ln s s' /\ cts s' = counts_by (counter_of ln) (cts s).
Proof.
  unfold add. intros H. ok_step H as (recv & _ & H). fold (is_event ln) in H.
  destruct (is_event ln) eqn:He; [apply add_event_moves in H | apply add_message_moves in H]; done.
Qed.
End Lines.

(** ** The recording by sessions *)

Record session := Session_ { began : option datetime; body : list dict }.
(** A session lasts to the next [session_started]; [cur] is what was read of the present one. *)
Fixpoint sessions (began : option datetime) (cur lines : list dict) : list session :=
  match lines with
  | [] => [Session_ began cur]
  | ln :: lines =>
      match start_at ln with
      | Some t => Session_ began cur :: sessions (Some t) [] lines
      | None => sessions began (cur ++ [ln]) lines
      end
  end.

(** The CPU of a session: the last count less the first *)
Definition session_cpu (s : session) (total : num) : res num :=
  match omap cpu_point (body s) with
  | [] => Ok total
  | v :: vs => d ← py_sub (List.last vs v) v; add_nums total d
  end.
Fixpoint cpu_of_sessions (ss : list session) (total : num) : res num :=
  match ss with [] => Ok total | s :: ss => t ← session_cpu s total; cpu_of_sessions ss t end.

(** The memory of a session: the samples with their hours since it began, of which are kept the
    first, the last, and those in a later whole hour than the one before *)
Definition hours_since (start t : datetime) : float := fdiv (int_truediv (instant t - instant start) second_us) hour_sec.
Definition samples (s : session) : list point :=
  match omap rss_point (body s) with
  | [] => []
  | ((t0, _) :: _) as l => map (fun tk => (hours_since (default t0 (began s)) tk.1, tk.2)) l
  end.
Fixpoint hourly (prev : Z) (l : list point) : list point :=
  match l with
  | [] => []
  | [p] => [p]
  | p :: l => (if prev <? trunc_int p.1 then [p] else []) ++ hourly (trunc_int p.1) l
  end.
Definition rounded (p : point) : point := (round_digits 1 p.1, p.2).
Definition series (ss : list session) : list (list point) :=
  filter (fun l => l <> []) (map (fun s => map rounded (hourly (-1) (samples s))) ss).

(** The clock of a session does not go back. *)
Fixpoint orderly (prev : Z) (l : list point) : Prop :=
  match l with
  | [] => True
  | p :: l => isfinite p.1 = true /\ prev <= trunc_int p.1 /\ orderly (trunc_int p.1) l
  end.

(** ** The memory that is kept *)

Fixpoint hour_starts (prev : Z) (l : list point) : list point :=
  match l with
  | [] => []
  | p :: l => (if prev <? trunc_int p.1 then [p] else []) ++ hour_starts (trunc_int p.1) l
  end.
Definition last_hour (prev : Z) (l : list point) : Z := List.last (map (fun p => trunc_int p.1) l) prev.

Lemma last_hour_cons prev p l : last_hour prev (p :: l) = last_hour (trunc_int p.1) l.
Proof. unfold last_hour. destruct l as [|q l]; [done|]. cbn [map List.last]. revert q. induction l as [|r l IH]; intros q; [done|]. apply IH. Qed.
Lemma last_hour_snoc prev l p : last_hour prev (l ++ [p]) = trunc_int p.1.
Proof. revert prev. induction l as [|q l IH]; intros prev; [done|]. rewrite <- app_comm_cons, last_hour_cons. apply IH. Qed.

Lemma hour_starts_snoc prev l p :
  hour_starts prev (l ++ [p]) = hour_starts prev l ++ (if last_hour prev l <? trunc_int p.1 then [p] else []).
Proof.
  revert prev. induction l as [|q l IH]; intros prev; [cbn; by rewrite app_nil_r|].
  rewrite <- app_comm_cons, last_hour_cons. cbn [hour_starts]. by rewrite IH, app_assoc.
Qed.

Lemma hourly_snoc prev l p : hourly prev (l ++ [p]) = hour_starts prev l ++ [p].
Proof.
  revert prev. induction l as [|q l IH]; intros prev; [done|]. cbn [hour_starts]. rewrite <- app_assoc, <- IH.
  destruct l; done.
Qed.

Lemma orderly_snoc prev l p :
  orderly prev (l ++ [p]) <-> orderly prev l /\ isfinite p.1 = true /\ last_hour prev l <= trunc_int p.1.
Proof.
  revert prev. induction l as [|q l IH]; intros prev; [cbn; tauto|].
  rewrite <- app_comm_cons, last_hour_cons. cbn [orderly]. rewrite IH. tauto.
Qed.

Lemma orderly_last prev l : orderly prev l -> prev <= last_hour prev l.
Proof.
  revert prev. induction l as [|q l IH]; intros prev; [cbn; unfold last_hour; cbn; lia|]. rewrite last_hour_cons.
  intros (_ & Hp & Hl). specialize (IH _ Hl). lia.
Qed.

Lemma whole_hours n h : isfinite h = true -> 1 <= n -> num_leb (NInt n) (NFloat h) = (n <=? trunc_int h).
Proof.
  intros Hf Hn. unfold num_leb, num_cmp, cmp_int_float, trunc_int.
  destruct h as [b|b| |b m e]; try done.
  - cbn. destruct (Z.compare_spec (n * 1) 0), (Z.leb_spec n 0); try lia; done.
  - destruct (fraction _) as [x d] eqn:E. assert (Hd : 0 < d).
    { unfold fraction in E. destruct (Z.leb_spec 0 e); injection E as <- <-; [lia | apply Z.pow_pos_nonneg; lia]. }
    assert (Hq : n <= Z.quot x d <-> n * d <= x).
    { destruct (Z.le_gt_cases 0 x) as [Hx|Hx].
      - rewrite Z.quot_div_nonneg by lia. split; intros H; [|apply Z.div_le_lower_bound; lia].
        pose proof (Z.mul_div_le x d). nia.
      - assert (Z.quot x d <= 0) by (pose proof (Z.quot_opp_l x d ltac:(lia)); pose proof (Z.quot_pos (- x) d ltac:(lia) ltac:(lia)); lia). nia. }
    destruct (Z.compare_spec (n * d) x), (Z.leb_spec n (Z.quot x d)); try done; lia.
Qed.

(** [r] is what is kept of the samples [l] of a session. *)
Record keeps_of (l : list point) (r : rss_use) : Prop := KeepsOf {
  ko_points : rss_points r = map rounded (hour_starts (-1) l);
  ko_all : rss_points r ++ option_list (rss_unsampled r) = map rounded (hourly (-1) l);
  ko_next : l <> [] -> rss_next_hour r = last_hour (-1) l + 1;
}.

Lemma hour_starts_some prev l : l <> [] -> orderly 0 l -> prev < 0 -> hour_starts prev l <> [].
Proof.
  destruct l as [|p l]; [done|]. intros _ (_ & Hp & _) Hprev. cbn [hour_starts].
  by rewrite (proj2 (Z.ltb_lt prev _)) by lia.
Qed.

Lemma add_rss_keeps at_ kb l r r' start :
  _add_rss at_ kb r = Ok r' -> keeps_of l r -> default at_ (session_start r) = start ->
  orderly 0 (l ++ [(hours_since start at_, kb)]) ->
  keeps_of (l ++ [(hours_since start at_, kb)]) r' /\ session_start r' = Some start /\ rss_series r' = rss_series r.
Proof.
  intros H [Hp Ha Hn] Hs Ho. unfold _add_rss in H. ok_step H as (m & _ & H). ok_step H as (sec & Hsec & H).
  rewrite Hs in *. unfold seconds_since in Hsec. destruct (Bool.eqb _ _); [|done]. injection Hsec as <-.
  change (fdiv (int_truediv (instant at_ - instant start) second_us) hour_sec) with (hours_since start at_) in H.
  set (h := hours_since start at_) in *. apply orderly_snoc in Ho as (Ho & Hf & Hl). cbn [fst] in Hf, Hl.
  assert (Hk : bool_decide (rss_points r = []) || num_leb (NInt (rss_next_hour r)) (NFloat h) = (last_hour (-1) l <? trunc_int h)).
  { destruct l as [|q l].
    - rewrite Hp. cbn in Hl |- *. symmetry. apply Z.ltb_lt. unfold last_hour. cbn. lia.
    - rewrite bool_decide_eq_false_2 by (rewrite Hp; intros Hx; apply map_eq_nil in Hx; by apply hour_starts_some in Hx).
      cbn [orb]. rewrite Hn by done. pose proof (orderly_last _ _ Ho) as H0. rewrite last_hour_cons in *.
      rewrite whole_hours by (done || lia). destruct (Z.leb_spec (last_hour (trunc_int q.1) l + 1) (trunc_int h)), (Z.ltb_spec (last_hour (trunc_int q.1) l) (trunc_int h)); try done; lia. }
  rewrite Hk in H. destruct (Z.ltb_spec (last_hour (-1) l) (trunc_int h)) as [Hlt|Hge]; injection H as <-; (split; [|done]).
  - split; cbn [rss_points rss_unsampled rss_next_hour option_list].
    + rewrite hour_starts_snoc, map_app, Hp. cbn [fst]. by rewrite (proj2 (Z.ltb_lt _ _) Hlt).
    + by rewrite app_nil_r, hourly_snoc, map_app, Hp.
    + intros _. by rewrite last_hour_snoc.
  - split; cbn [rss_points rss_unsampled rss_next_hour option_list].
    + rewrite hour_starts_snoc, map_app, Hp. cbn [fst]. rewrite (proj2 (Z.ltb_ge _ _) Hge). by rewrite app_nil_r.
    + by rewrite hourly_snoc, map_app, Hp.
    + intros _. rewrite last_hour_snoc. cbn [fst]. destruct l as [|q l]; [cbn in *; unfold last_hour in *; cbn in *; lia|].
      rewrite Hn by done. rewrite last_hour_cons in *. lia.
Qed.

(** ** Line by line, and session by session *)

Section Fold.
Context {JT : JsonText}.

(** The counts of a session so far. *)
Definition cpu_so_far (cur : list dict) (c : cpu_use) : Prop :=
  match omap cpu_point cur with
  | [] => cpu_first c = None /\ cpu_last c = None
  | v :: vs => cpu_first c = Some v /\ cpu_last c = Some (List.last vs v)
  end.

Lemma last_snoc {A} (l : list A) x d : List.last (l ++ [x]) d = x.
Proof. induction l as [|y l IH]; [done|]. rewrite <- app_comm_cons. destruct l; [done | exact IH]. Qed.

Lemma close_cpu_session b cur c c' : cpu_so_far cur c -> close_cpu c = Ok c' ->
  session_cpu (Session_ b cur) (cpu_total c) = Ok (cpu_total c') /\ cpu_so_far [] c'.
Proof.
  unfold cpu_so_far, close_cpu, session_cpu. cbn [body]. destruct (omap cpu_point cur) as [|v vs]; intros [-> Hl] H.
  - by injection H as <-.
  - rewrite Hl in H. ok_step H as (d & Hd & H). ok_step H as (t & Ht & H). injection H as <-. rewrite Hd. cbn. by rewrite Ht.
Qed.

Lemma cpu_point_moves ln s s' : moves ln s s' -> start_at ln = None -> 
  cpu_total (cpu s') = cpu_total (cpu s) /\ forall cur, cpu_so_far cur (cpu s) -> cpu_so_far (cur ++ [ln]) (cpu s').
Proof.
  unfold moves. intros Hm Hs. rewrite Hs in Hm.
  assert (Hc : cpu_point ln = ('(_, ps) ← probe_self ln; match cpu_of ps with Ok v => Some v | Raise _ => None end)) by done.
  destruct (probe_self ln) as [[t ps]|].
  - destruct Hm as [(used & Hu & Ht & Hf & Hl) _]. split; [done|]. intros cur H. unfold cpu_so_far in *.
    rewrite omap_app. cbn [omap list_omap]. cbn in Hc. rewrite Hu in Hc. rewrite Hc.
    destruct (omap cpu_point cur) as [|v vs]; destruct H as [H1 H2]; rewrite H1 in Hf; cbn; [done|].
    split; [done|]. by rewrite last_snoc.
  - destruct Hm as [Hm _]. rewrite Hm. split; [done|]. intros cur H. unfold cpu_so_far in *. rewrite omap_app. cbn [omap list_omap].
    cbn in Hc. rewrite Hc. by rewrite app_nil_r.
Qed.

Lemma add_all_cpu lines b cur s s' :
  (s1 ← add_all lines s; _close_session s1) = Ok s' -> cpu_so_far cur (cpu s) ->
  cpu_of_sessions (sessions b cur lines) (cpu_total (cpu s)) = Ok (cpu_total (cpu s')).
Proof.
  revert b cur s. induction lines as [|ln lines IH]; intros b cur s H Hc; cbn [add_all sessions] in *.
  - cbn in H. unfold _close_session in H. ok_step H as (c & H1 & H). injection H as <-. cbn [cpu_of_sessions].
    by destruct (close_cpu_session b cur _ _ Hc H1) as [-> _].
  - ok_step H as (s2 & H1 & H). ok_step H1 as (s1 & H0 & H1). apply add_moves in H0 as [Hm _].
    assert (H' : (s3 ← add_all lines s1; _close_session s3) = Ok s') by by rewrite H1.
    destruct (start_at ln) as [t|] eqn:Es.
    + pose proof Hm as Hm'. unfold moves in Hm'. rewrite Es in Hm'. destruct Hm' as [Hcl _].
      destruct (close_cpu_session b cur _ _ Hc Hcl) as [Hx Hc']. cbn [cpu_of_sessions]. rewrite Hx. cbn [mbind res_bind]. by apply IH.
    + destruct (cpu_point_moves ln s s1 Hm Es) as [Ht Hc']. rewrite <- Ht. apply IH; [done | by apply Hc'].
Qed.

(** What is kept of a session so far. *)
Definition rss_so_far (b : option datetime) (cur : list dict) (r : rss_use) : Prop :=
  orderly 0 (samples (Session_ b cur)) ->
  keeps_of (samples (Session_ b cur)) r /\
  session_start r = match b with Some t => Some t | None => fst <$> head (omap rss_point cur) end.

Lemma samples_snoc b cur ln t kb :
  rss_point ln = Some (t, kb) ->
  samples (Session_ b (cur ++ [ln]))
  = samples (Session_ b cur)
    ++ [(hours_since (default t match b with Some t => Some t | None => fst <$> head (omap rss_point cur) end) t, kb)].
Proof.
  intros H. unfold samples. cbn [body began]. rewrite omap_app. cbn [omap list_omap]. rewrite H.
  destruct (omap rss_point cur) as [|[t0 k0] l]; [by destruct b|]. cbn [app head fmap option_fmap option_map fst map].
  rewrite map_app. by destruct b.
Qed.

Lemma samples_grow b cur ln : exists more, samples (Session_ b (cur ++ [ln])) = samples (Session_ b cur) ++ more /\ (length more <= 1)%nat.
Proof.
  destruct (rss_point ln) as [[t kb]|] eqn:Ep; [rewrite (samples_snoc b cur ln t kb Ep); by eexists [_]|].
  exists []. split; [|cbn; lia]. unfold samples. cbn [body began]. rewrite omap_app. cbn [omap list_omap]. by rewrite Ep, !app_nil_r.
Qed.

Lemma sessions_orderly lines b cur : Forall (fun se => orderly 0 (samples se)) (sessions b cur lines) -> orderly 0 (samples (Session_ b cur)).
Proof.
  revert b cur. induction lines as [|ln lines IH]; intros b cur; cbn [sessions]; [intros H; exact (Forall_inv H)|].
  destruct (start_at ln) as [t|]; [intros H; exact (Forall_inv H)|]. intros H%IH.
  destruct (samples_grow b cur ln) as ([|p [|q l]] & E & Hl); rewrite E in H; cbn in Hl; [rewrite app_nil_r in H; exact H | apply orderly_snoc in H as [H _]; exact H | lia].
Qed.

Lemma rss_point_moves ln s s' b cur : moves ln s s' -> start_at ln = None -> rss_so_far b cur (rss s) ->
  rss_so_far b (cur ++ [ln]) (rss s') /\
  (orderly 0 (samples (Session_ b (cur ++ [ln]))) -> rss_series (rss s') = rss_series (rss s)).
Proof.
  unfold moves. intros Hm Hs Hr. rewrite Hs in Hm.
  assert (Hp : match rss_point ln with
               | Some (t, kb) => _add_rss t kb (rss s) = Ok (rss s')
               | None => rss s' = rss s
               end).
  { unfold rss_point. destruct (probe_self ln) as [[t ps]|]; cbn; [|by destruct Hm]. destruct Hm as [_ Hm]. by destruct (is_null _). }
  destruct (rss_point ln) as [[t kb]|] eqn:Ep.
  - assert (Hall : orderly 0 (samples (Session_ b (cur ++ [ln]))) ->
      (keeps_of (samples (Session_ b (cur ++ [ln]))) (rss s') /\
       session_start (rss s') = Some (default t match b with Some t => Some t | None => fst <$> head (omap rss_point cur) end)) /\
      rss_series (rss s') = rss_series (rss s)).
    { rewrite (samples_snoc b cur ln t kb Ep). intros Ho. pose proof Ho as [Ho' _]%orderly_snoc. destruct (Hr Ho') as [Hk Hst].
      destruct (add_rss_keeps t kb _ _ _ _ Hp Hk (f_equal (default t) Hst) Ho) as (H1 & H2 & H3). done. }
    split; [|intros Ho; by apply Hall]. intros Ho. destruct (Hall Ho) as [[H1 H2] _]. split; [done|]. rewrite H2.
    destruct b; [done|]. rewrite omap_app. cbn [omap list_omap]. rewrite Ep. by destruct (omap rss_point cur) as [|[]].
  - rewrite Hp. split; [|done]. unfold rss_so_far, samples in *. cbn [body began] in *. rewrite omap_app. cbn [omap list_omap].
    rewrite Ep, app_nil_r. exact Hr.
Qed.

Lemma close_rss_series l r : keeps_of l r -> 
  rss_series (close_rss r) = rss_series r ++ filter (fun l => l <> []) [map rounded (hourly (-1) l)].
Proof.
  intros [_ Ha _]. unfold close_rss. cbn [rss_series]. rewrite Ha, filter_cons, filter_nil.
  destruct (map rounded _) eqn:E; [by rewrite decide_False, app_nil_r by auto | by rewrite decide_True].
Qed.

Lemma keeps_nothing m sr st : keeps_of [] (RssUse m sr st [] 0 None).
Proof. by split. Qed.

Lemma add_all_rss lines b cur s s' :
  (s1 ← add_all lines s; _close_session s1) = Ok s' -> rss_so_far b cur (rss s) ->
  Forall (fun se => orderly 0 (samples se)) (sessions b cur lines) ->
  rss_series (rss s') = rss_series (rss s) ++ series (sessions b cur lines).
Proof.
  revert b cur s. induction lines as [|ln lines IH]; intros b cur s H Hr Ho; cbn [add_all sessions] in *.
  - cbn in H. unfold _close_session in H. ok_step H as (c & _ & H). injection H as <-.
    apply Forall_inv in Ho. destruct (Hr Ho) as [Hk _]. cbn [rss set_rss]. unfold series. cbn [map]. by apply close_rss_series.
  - ok_step H as (s2 & H1 & H). ok_step H1 as (s1 & H0 & H1). apply add_moves in H0 as [Hm _].
    assert (H' : (s3 ← add_all lines s1; _close_session s3) = Ok s') by by rewrite H1.
    destruct (start_at ln) as [t|] eqn:Es.
    + unfold moves in Hm. rewrite Es in Hm. destruct Hm as [_ Hm]. pose proof (Forall_inv Ho) as Ho1. apply Forall_inv_tail in Ho.
      rewrite (IH (Some t) [] s1 H'); [|rewrite Hm; intros _; split; [apply keeps_nothing | done]|done]. rewrite Hm.
      cbn [rss start_session set_rss rss_series]. change (rss_series (close_rss (rss s))) with (rss_series (close_rss (rss s))).
      destruct (Hr Ho1) as [Hk _]. rewrite (close_rss_series _ _ Hk). unfold series. cbn [map]. by rewrite <- app_assoc, <- filter_app.
    + destruct (rss_point_moves ln s s1 b cur Hm Es Hr) as [Hr' Hsr]. rewrite (IH b (cur ++ [ln]) s1 H' Hr' Ho).
      f_equal. apply Hsr, (sessions_orderly lines), Ho.
Qed.
End Fold.

(** ** Counts *)

#[export] Instance counter_eq_dec : EqDecision counter.
Proof. solve_decision. Defined.

Definition count_of (w : counter) (c : counts) : Z :=
  match w with
  | NCounters => c_counters c | NStarted => c_started c | NRotations => c_rotations c | NReboots => c_reboots c
  | NCrashed => c_crashed c | NMalformed => c_malformed c | NStderr => c_stderr c | NByes => c_byes c | NCensus => c_census c
  end.

Lemma count_plus_one w w' c : count_of w (plus_one w' c) = count_of w c + (if decide (w' = w) then 1 else 0).
Proof. destruct (decide (w' = w)) as [->|Hn]; destruct c; [destruct w; cbn; lia | destruct w, w'; cbn; try done; lia]. Qed.

Section Counts.
Context {JT : JsonText}.

Lemma add_all_counts w lines s s' : add_all lines s = Ok s' ->
  count_of w (cts s') = count_of w (cts s) + Z.of_nat (length (filter (fun ln => counter_of ln = Some w) lines)).
Proof.
  revert s. induction lines as [|ln lines IH]; intros s H; cbn [add_all] in H; [injection H as <-; cbn; lia|].
  ok_step H as (s1 & H0 & H). apply add_moves in H0 as [_ Hc]. rewrite (IH s1 H), Hc, filter_cons.
  destruct (counter_of ln) as [w'|]; cbn [counts_by]; [rewrite count_plus_one|]; repeat case_decide; cbn [length]; try congruence; lia.
Qed.

(** ** Lines a collector and a probe write are added without an exception *)

Definition number (v : value) : Prop := is_Some (num_of v).
Definition maybe_number (v : value) : Prop := v = VNone \/ number v.
Definition is_float (v : value) : Prop := match v with VFloat _ => True | _ => False end.
Definition is_int (v : value) : Prop := match v with VInt _ => True | _ => False end.

Definition sound_counters (m : dict) : Prop :=
  let ps := dget_or_none "probe_self" m in
  truthy ps = true -> exists d, ps = VDict d /\ (exists x, cpu_of d = Ok (VFloat x)) /\
    number (default (VInt 0) (dget "maxrss_kb" d)) /\ maybe_number (dget_or_none "rss_kb" d).
Definition sound_census (m : dict) : Prop :=
  hashable (dget_or_none "gpu_status" m) = true /\
  exists n b lo hi longest, census_figures m = Ok (VInt n, VInt b, (lo, hi, longest)) /\
    maybe_number lo /\ maybe_number hi /\ maybe_number longest.
Definition sound_message (ln : dict) : Prop :=
  exists m, message_of ln = Some m /\
    (dget_or_none "type" m = VStr "counters" -> sound_counters m) /\
    (dget_or_none "type" m = VStr "census" -> sound_census m) /\
    hashable (default (VStr "unknown") (dget "where" m)) = true.
Definition sound_event (ln : dict) : Prop :=
  exists d, or_empty (dget_or_none "detail" ln) = VDict d /\
    hashable (default (VStr "unknown") (dget "reason" d)) = true /\
    (truthy (dget_or_none "stderr_tail" d) = true -> exists s, dget_or_none "stderr_tail" d = VStr s).
Definition sound_line (ln : dict) : Prop :=
  (exists v t, item "recv" ln = Ok v /\ _parse_ts v = Ok t /\ is_aware t = true) /\
  if is_event ln then sound_event ln else sound_message ln.

(** What those lines keep of a summary. *)
Record sound (s : node_summary) : Prop := Sound {
  so_clock : match last_counter_at s with Some t => is_aware t = true | None => True end;
  so_start : match session_start (rss s) with Some t => is_aware t = true | None => True end;
  so_total : exists x, cpu_total (cpu s) = NFloat x;
  so_first : match cpu_first (cpu s) with Some v => is_float v | None => True end;
  so_last : match cpu_last (cpu s) with Some v => is_float v | None => True end;
  so_maxrss : number (maxrss (cpu s));
  so_rss : maybe_number (rss_max (rss s));
  so_procs : is_int (proc_total (sizes s));
  so_bytes : is_int (size_total (sizes s));
  so_min : maybe_number (cpu_seconds_min (sizes s));
  so_max : maybe_number (cpu_seconds_max (sizes s));
  so_idle : maybe_number (idle_for_max (sizes s));
}.

Lemma py_lt_numbers a b : number a -> number b -> exists r, py_lt a b = Ok r.
Proof. intros [m Ha] [n Hb]. destruct a; try done; destruct b; try done; by eexists. Qed.

Lemma null_number v : maybe_number v -> is_null v = false -> number v.
Proof. by intros [->|H]. Qed.
Lemma number_not_null v : number v -> is_null v = false.
Proof. intros [n H]. by destruct v. Qed.

Lemma max_numbers a b : maybe_number a -> maybe_number b -> exists v, _max a b = Ok v /\ maybe_number v.
Proof.
  intros Ha Hb. unfold _max. destruct (is_null a) eqn:Ea; [by exists b|]. destruct (is_null b) eqn:Eb; [by exists a|].
  destruct (py_lt_numbers a b) as [r ->]; [by apply null_number..|]. cbn. destruct r; by eexists.
Qed.
Lemma min_numbers a b : maybe_number a -> maybe_number b -> exists v, _min a b = Ok v /\ maybe_number v.
Proof.
  intros Ha Hb. unfold _min. destruct (is_null a) eqn:Ea; [by exists b|]. destruct (is_null b) eqn:Eb; [by exists a|].
  destruct (py_lt_numbers b a) as [r ->]; [by apply null_number..|]. cbn. destruct r; by eexists.
Qed.

Lemma seconds_aware a b : is_aware a = true -> is_aware b = true -> exists x, seconds_since a b = Ok x.
Proof. intros Ha Hb. unfold seconds_since. rewrite Ha, Hb. by eexists. Qed.

Lemma close_total s : sound s -> exists c, close_cpu (cpu s) = Ok c /\ (exists x, cpu_total c = NFloat x) /\
  cpu_first c = None /\ cpu_last c = None /\ number (maxrss c).
Proof.
  intros []. unfold close_cpu. destruct so_total0 as [x Hx].
  destruct (cpu_first (cpu s)) as [v|]; [destruct (cpu_last (cpu s)) as [w|]|]; try (eexists; split; [done|]; by eauto).
  destruct v; try done. destruct w; try done. cbn. rewrite Hx. cbn. eexists. split; [done|]. by eauto.
Qed.

Ltac still Hs := destruct Hs; by split.

Lemma add_event_total ln s v t :
  item "recv" ln = Ok v -> _parse_ts v = Ok t -> is_aware t = true -> sound_event ln -> sound s ->
  exists s', _add_event ln s = Ok s' /\ sound s'.
Proof.
  intros Hv Ht Ha (d & Hd & Hr & Htail) Hs. unfold _add_event. rewrite Hd. cbn [as_object mbind res_bind].
  destruct (is_str "session_started" _).
  { unfold _close_session. cbn [cpu bump_count set_cts]. destruct (close_total s Hs) as (c & -> & Hc1 & Hc2 & Hc3 & Hc4).
    cbn. rewrite Hv. cbn. rewrite Ht. cbn. eexists. split; [done|]. destruct Hs. split; cbn; try done; by rewrite ?Hc2, ?Hc3. }
  destruct (is_str "session_lost" _).
  { unfold add_lost, count_key. rewrite Hr. cbn [mbind res_bind].
    assert (Hc : exists tail, cut STDERR_TAIL_REPORT_CHARS (if truthy (dget_or_none "stderr_tail" d) then dget_or_none "stderr_tail" d else VStr "") = Ok tail).
    { destruct (truthy _); [|by eexists]. destruct (Htail eq_refl) as [x ->]. by eexists. }
    destruct Hc as [tail Hc]. rewrite Hc. cbn [mbind res_bind]. rewrite Hv. eexists. split; [done|]. still Hs. }
  destruct (is_str "session_rotated" _).
  { unfold add_rotated, count_key.
    assert (Hk : hashable (if truthy (dget_or_none "reason" d) then dget_or_none "reason" d else VStr "max_lifetime") = true).
    { unfold dget_or_none. destruct (truthy (default VNone (dget "reason" d))) eqn:Et; [|done]. revert Hr Et. by destruct (dget "reason" d). }
    rewrite Hk. cbn [mbind res_bind]. eexists. split; [reflexivity|]. still Hs. }
  repeat case_match; (eexists; split; [reflexivity|]); still Hs.
Qed.

Lemma add_rss_total t kb r :
  is_aware t = true -> match session_start r with Some t => is_aware t = true | None => True end ->
  maybe_number (rss_max r) -> maybe_number kb ->
  exists r', _add_rss t kb r = Ok r' /\ maybe_number (rss_max r') /\
    match session_start r' with Some t => is_aware t = true | None => True end.
Proof.
  intros Ha Hst Hm Hk. unfold _add_rss. destruct (max_numbers _ _ Hm Hk) as (m & -> & Hm'). cbn [mbind res_bind].
  assert (Hd : is_aware (default t (session_start r)) = true) by by destruct (session_start r).
  destruct (seconds_aware _ _ Hd Ha) as [x ->]. cbn [mbind res_bind]. destruct (_ || _); by eexists.
Qed.

Lemma add_counters_total t m s : is_aware t = true -> sound_counters m -> sound s ->
  exists s', _add_counters t m s = Ok s' /\ sound s'.
Proof.
  intros Ha Hm Hs. unfold _add_counters.
  assert (Hg : exists s1, add_gap t (bump_count NCounters s) = Ok s1 /\ sound s1 /\ cpu s1 = cpu s /\ rss s1 = rss s).
  { unfold add_gap. cbn [last_counter_at bump_count set_cts]. destruct (last_counter_at s) as [b|] eqn:Eb.
    - assert (Hb : is_aware b = true) by (destruct Hs; by rewrite Eb in so_clock0).
      destruct (seconds_aware b t Hb Ha) as [x ->]. eexists. split; [done|]. split; [|done]. still Hs.
    - eexists. split; [done|]. split; [|done]. still Hs. }
  destruct Hg as (s1 & -> & Hs1 & _ & _). cbn [mbind res_bind].
  destruct (truthy _) eqn:Et; [|by exists s1]. destruct (Hm Et) as (d & -> & [x Hx] & Hmx & Hk). cbn [as_object mbind res_bind].
  unfold add_probe_self. rewrite Hx. cbn [mbind res_bind].
  destruct (py_lt_numbers (maxrss (cpu s1)) (default (VInt 0) (dget "maxrss_kb" d))) as [b Hb]; [by destruct Hs1 | done |].
  unfold py_max. rewrite Hb. cbn [mbind res_bind].
  assert (Hs2 : forall mx, number mx -> sound (set_cpu (CpuUse (cpu_total (cpu s1)) (Some (default (VFloat x) (cpu_first (cpu s1)))) (Some (VFloat x)) mx) s1)).
  { intros mx Hn. destruct Hs1. split; cbn; try done. by destruct (cpu_first (cpu s1)). }
  specialize (Hs2 (if b then default (VInt 0) (dget "maxrss_kb" d) else maxrss (cpu s1))).
  destruct (is_null _) eqn:En.
  - eexists. split; [done|]. apply Hs2. destruct b; [done | by destruct Hs1].
  - destruct (add_rss_total t (dget_or_none "rss_kb" d) (rss s1)) as (r & Hr & Hr1 & Hr2); [done | by destruct Hs1 | by destruct Hs1 | done |].
    cbn [rss set_cpu]. rewrite Hr. eexists. split; [done|].
    destruct Hs2; [destruct b; [done | by destruct Hs1] |]. by split.
Qed.

Lemma add_census_total m s : sound_census m -> sound s -> exists s', _add_census m s = Ok s' /\ sound s'.
Proof.
  intros (Hh & n & b & lo & hi & longest & Hf & Hlo & Hhi & Hlong) Hs. unfold _add_census.
  assert (Hg : exists g, (if is_null (dget_or_none "gpu_status" m) then Ok (gpu_status (kys (bump_count NCensus s)))
              else count_key (dget_or_none "gpu_status" m) (gpu_status (kys (bump_count NCensus s)))) = Ok g).
  { unfold count_key. rewrite Hh. destruct (is_null _); by eexists. }
  destruct Hg as [g ->]. cbn [mbind res_bind]. unfold add_sizes. rewrite Hf. cbn [mbind res_bind sizes bump_count set_cts].
  destruct Hs. destruct (proc_total (sizes s)); try done. destruct (size_total (sizes s)); try done. cbn.
  destruct (min_numbers _ _ so_min0 Hlo) as (lo' & -> & ?). destruct (max_numbers _ _ so_max0 Hhi) as (hi' & -> & ?).
  destruct (max_numbers _ _ so_idle0 Hlong) as (l' & -> & ?). cbn. eexists. split; [done|]. by split.
Qed.

(** Every line of a recording that a collector wrote is added. *)
Lemma add_total ln s : sound_line ln -> sound s -> exists s', add ln s = Ok s' /\ sound s'.
Proof.
  intros [(v & t & Hv & Ht & Ha) Hl] Hs. unfold add. rewrite Hv. cbn [mbind res_bind]. fold (is_event ln).
  set (s1 := set_span _ s). assert (Hs1 : sound s1) by still Hs.
  destruct (is_event ln) eqn:He; [by eapply add_event_total|]. destruct Hl as (m & Hm & Hcn & Hce & Her).
  unfold _add_message. unfold message_of in Hm. rewrite He in Hm. destruct (or_empty _) as [| | | | | | | |d]; try done.
  injection Hm as ->. cbn [as_object mbind res_bind].
  destruct (is_str "counters" _) eqn:E1.
  { apply is_str_eq in E1. rewrite Hv. cbn [mbind res_bind]. rewrite Ht. by apply add_counters_total; [|apply Hcn|]. }
  destruct (is_str "census" _) eqn:E2; [apply is_str_eq in E2; by apply add_census_total; [apply Hce|]|].
  destruct (is_str "error" _).
  { unfold add_error, count_key. rewrite Her. eexists. split; [done|]. still Hs1. }
  destruct (is_str "bye" _); (eexists; split; [done|]); [still Hs1 | done].
Qed.

Lemma add_all_total lines s : Forall sound_line lines -> sound s -> exists s', add_all lines s = Ok s' /\ sound s'.
Proof.
  intros Hl. revert s. induction Hl as [|ln lines Hln _ IH]; intros s Hs; cbn [add_all]; [by exists s|].
  destruct (add_total ln s Hln Hs) as (s1 & -> & Hs1). by apply IH.
Qed.
End Counts.

(** ** Properties *)

Section Properties.
Context {JT : JsonText}.

Lemma new_sound : sound new_summary.
Proof. split; cbn; try done; [by eexists | by eexists | by left..]. Qed.

(** What a report says of the lines it was made of: the counts, the memory by sessions, and the
    CPU by sessions over the hours. *)
Definition reports (lines : list dict) (total : num) (r : report) : Prop :=
  let n w := Z.of_nat (length (filter (fun ln => counter_of ln = Some w) lines)) in
  counters_received r = n NCounters /\ census_received r = n NCensus /\ sessions_started r = n NStarted /\
  rotations r = n NRotations /\ reboots r = n NReboots /\ bye_count r = n NByes /\
  session_crashed_count r = n NCrashed /\ malformed_line_count r = n NMalformed /\ probe_stderr_count r = n NStderr /\
  per total (hours r) = Ok (probe_cpu_sec_per_hour r) /\
  (Forall (fun se => orderly 0 (samples se)) (sessions None [] lines) ->
   probe_rss_series r = series (sessions None [] lines)).

Lemma result_reports ci ei lines s s' r :
  add_all lines new_summary = Ok s -> _close_session s = Ok s' -> result ci ei s = Ok r -> reports lines (cpu_total (cpu s')) r.
Proof.
  intros Ha Hc H. unfold result in H. rewrite Hc in H. cbn [mbind res_bind] in H.
  assert (Hn : forall w, count_of w (cts s') = Z.of_nat (length (filter (fun ln => counter_of ln = Some w) lines))).
  { intros w. unfold _close_session in Hc. ok_step Hc as (c & _ & Hc). injection Hc as <-. pose proof (add_all_counts w lines _ _ Ha) as E. by destruct w. }
  assert (Hr : Forall (fun se => orderly 0 (samples se)) (sessions None [] lines) -> rss_series (rss s') = series (sessions None [] lines)).
  { intros Ho. apply (add_all_rss lines None [] new_summary s'); [by rewrite Ha | by split | done]. }
  destruct (span s') as [[f l]|]; [|done].
  ok_step H as (a & Hfa & H). ok_step H as (b & Hfb & H). ok_step H as (sec & Hsec & H). ok_step H as (ex & Hex & H).
  ok_step H as (cex & Hcex & H). ok_step H as (cov & Hcov & H). ok_step H as (ccov & Hccov & H). ok_step H as (rate & Hrate & H).
  repeat (let x := fresh in let Hx := fresh in apply res_bind_ok in H as (x & Hx & H)). injection H as <-.
  unfold reports. cbn. split_and!; try done; [exact (Hn NCounters) | exact (Hn NCensus) | exact (Hn NStarted) | exact (Hn NRotations) | exact (Hn NReboots)
    | exact (Hn NByes) | exact (Hn NCrashed) | exact (Hn NMalformed) | exact (Hn NStderr)].
Qed.

(** C27. The summary keeps a few numbers a node, yet says of a recording what going through it
    session by session would: every line a collector and its probes write is added, the CPU is
    the sum over the sessions of the last count less the first, the counts are the numbers of
    the lines of each kind, and, where the clock of a session does not go back, its memory series
    has its first sample, its last and the first in every later whole hour. *)
Theorem summary_by_sessions lines ci ei :
  Forall sound_line lines ->
  exists s total, add_all lines new_summary = Ok s /\ cpu_of_sessions (sessions None [] lines) (NFloat fzero) = Ok total /\
    forall r, result ci ei s = Ok r -> reports lines total r.
Proof.
  intros Hl. destruct (add_all_total lines new_summary Hl new_sound) as (s & Ha & Hs).
  destruct (close_total s Hs) as (c & Hc & _). set (s' := set_rss (close_rss (rss s)) (set_cpu c s)).
  assert (Hcl : _close_session s = Ok s') by (unfold _close_session; by rewrite Hc).
  exists s, (cpu_total (cpu s')). split; [done|]. split.
  - apply (add_all_cpu lines None [] new_summary s'); [by rewrite Ha | done].
  - intros r. by apply result_reports.
Qed.
End Properties.

(** ** The summary of what the recorder wrote *)

Definition day_of (ht : happening * datetime) : string := day_text ht.2.
(** A label that is the name of a file, in one line. *)
Definition sound_label (l : string) : Prop := l <> "" /\ not_char newline l = true.
Definition hap_dict (ht : happening * datetime) : dict := ("recv", VStr (isoformat ht.2)) :: hap_body ht.1.

Lemma length_day t : String.length (day_text t) = 8%nat.
Proof. unfold day_text, date_text. rewrite !length_app_str, !length_pad. done. Qed.

Definition is_digit_of (c : ascii) : bool := bool_decide (is_Some (digit_val c)).
Lemma digits_pad w z : forall_chars is_digit_of (pad w z) = true.
Proof.
  revert z. induction w as [|w IH]; intros z; [done|].
  change (is_digit_of (digit ((z / 10 ^ Z.of_nat w) mod 10)) && forall_chars is_digit_of (pad w z) = true). rewrite IH, andb_true_r.
  apply bool_decide_true. rewrite digit_val_digit by (apply Z.mod_pos_bound; lia). by eexists.
Qed.
Lemma digits_day t : forall_chars is_digit_of (day_text t) = true.
Proof. unfold day_text, date_text. rewrite !forall_chars_app, !digits_pad. done. Qed.

Lemma prefix_of_exact s t : prefix_of (String.length s) (s +:+ t) = s.
Proof. by rewrite prefix_of_app, prefix_of_all, Nat.sub_diag, string_app_nil_r. Qed.

Lemma day_of_name_file l t : sound_label l -> day_of_name (file_name l (day_text t)) = Some (l, day_text t).
Proof.
  intros [Hl Hn]. unfold day_of_name, file_name. pose proof (length_day t) as Hd.
  replace (l +:+ "-" +:+ day_text t +:+ ".jsonl") with ((l +:+ "-" +:+ day_text t) +:+ ".jsonl") by by rewrite !string_app_assoc.
  unfold ends_with. rewrite (length_app_str (_ +:+ _)). change (String.length ".jsonl") with 6%nat.
  rewrite !Nat.add_sub, drop_chars_app, bool_decide_true by done. cbv zeta. rewrite prefix_of_exact.
  rewrite (length_app_str l), (length_app_str "-"), Hd. change (String.length "-") with 1%nat.
  replace (String.length l + (1 + 8) - 8)%nat with (String.length l + 1)%nat by lia. rewrite Nat.add_sub.
  rewrite drop_chars_past, prefix_of_exact. change (drop_chars 1 ("-" +:+ day_text t)) with (day_text t).
  rewrite !bool_decide_true by done. fold is_digit_of. rewrite digits_day. rewrite bool_decide_false by done.
  cbn [negb andb]. unfold not_char in Hn. by rewrite Hn.
Qed.

(** The days of a label among some names *)
Definition days_of (l : string) (names : list string) : list dated :=
  omap (fun n => match day_of_name n with Some (l', day) => if decide (l' = l) then Some (day, n) else None | None => None end) names.

Lemma by_label_from l names d :
  default [] (dget l (foldl add_name d names)) = default [] (dget l d) ++ days_of l names.
Proof.
  revert d. induction names as [|n names IH]; intros d; [unfold days_of; cbn; by rewrite app_nil_r|].
  cbn [foldl]. rewrite IH. unfold add_name, days_of. cbn [omap list_omap]. destruct (day_of_name n) as [[l' day]|]; [|done].
  rewrite dget_dset. destruct (decide (l' = l)) as [->|Hd]; [|done]. cbn. by rewrite <- app_assoc.
Qed.
Lemma by_label_days l names : default [] (dget l (by_label names)) = days_of l names.
Proof. apply (by_label_from l names []). Qed.

#[export] Instance by_day_trans : Transitive by_day.
Proof. intros a b c. apply (transitivity (R := String.le)). Qed.
#[export] Instance by_day_total : Total by_day.
Proof. intros a b. apply (total String.le). Qed.
#[export] Instance key_le_trans {V} : Transitive (@key_le V).
Proof. intros a b c. apply (transitivity (R := String.le)). Qed.
#[export] Instance key_le_total {V} : Total (@key_le V).
Proof. intros a b. apply (total String.le). Qed.

Lemma labels_from l names d :
  l ∈ dkeys (foldl add_name d names) <-> l ∈ dkeys d \/ exists n day, n ∈ names /\ day_of_name n = Some (l, day).
Proof.
  revert d. induction names as [|n names IH]; intros d; cbn [foldl]; [set_solver|]. rewrite IH. unfold add_name at 1.
  destruct (day_of_name n) as [[l' day]|] eqn:E.
  - assert (Hk : l ∈ dkeys (dset l' (default [] (dget l' d) ++ [(day, n)]) d) <-> l ∈ dkeys d \/ l = l').
    { rewrite dkeys_dset. case_decide; set_solver. }
    rewrite Hk. split.
    + intros [[H| ->]|(m & x & Hm & Hx)]; [by left | right; exists n, day; set_solver | right; exists m, x; set_solver].
    + intros [H|(m & x & [->|Hm]%elem_of_cons & Hx)]; [by left; left | left; right; congruence | right; by exists m, x].
  - split; [intros [H|(m & x & Hm & Hx)]; [by left | right; exists m, x; set_solver]|].
    intros [H|(m & x & [->|Hm]%elem_of_cons & Hx)]; [by left | congruence | right; by exists m, x].
Qed.

Lemma NoDup_labels names d : NoDup (dkeys d) -> NoDup (dkeys (foldl add_name d names)).
Proof.
  revert d. induction names as [|n names IH]; intros d Hd; [done|]. apply IH. unfold add_name.
  destruct (day_of_name n) as [[l day]|]; [by apply NoDup_dkeys_dset | done].
Qed.

Lemma sorted_fst {V} (l : list (string * V)) : StronglySorted (fun a b => String.le a.1 b.1) l -> StronglySorted String.le (map fst l).
Proof. induction 1 as [|x l Hl IH Hx]; [constructor|]. cbn. constructor; [done|]. apply Forall_map. exact Hx. Qed.

Lemma sorted_keys {V} (d : list (string * V)) : NoDup (dkeys d) ->
  StronglySorted String.le (dkeys (sorted_items d)) /\ NoDup (dkeys (sorted_items d)) /\
  (forall k, k ∈ dkeys (sorted_items d) <-> k ∈ dkeys d) /\ forall kv, kv ∈ sorted_items d -> dget kv.1 d = Some kv.2.
Proof.
  intros Hd. unfold sorted_items, dkeys. pose proof (merge_sort_Permutation key_le d) as Hp. split_and!.
  - apply sorted_fst, (StronglySorted_merge_sort key_le d).
  - by rewrite Hp.
  - intros k. by rewrite Hp.
  - intros [k v] H. rewrite Hp in H. by apply elem_of_dict.
Qed.

Section Files.
Context {JT : JsonText} {LT : LineText}.

Lemma hap_line_dict ht : hap_line ht = VDict (hap_dict ht).
Proof. done. Qed.

Lemma is_ascii_texts l : Forall (fun s => plain s = true) l -> is_ascii (texts (map with_end l)) = true.
Proof.
  intros H. induction H as [|s l Hs _ IH]; [done|]. cbn [map texts foldr]. unfold is_ascii in *. rewrite forall_chars_app. unfold texts in IH.
  rewrite IH, andb_true_r. unfold with_end. rewrite forall_chars_app. cbn. rewrite andb_true_r.
  eapply forall_chars_impl; [|exact Hs]. intros c Hc. unfold plain_char in Hc. cbv zeta in Hc. by apply andb_prop in Hc as [_ Hc].
Qed.

(** A file reads as the happenings that were written to it. *)
Lemma file_lines_written hts : Forall readable hts ->
  file_lines (texts (map (fun ht => with_end (hap_text ht)) hts)) = Ok (map hap_dict hts).
Proof.
  intros Hr. rewrite <- (map_map hap_text with_end).
  assert (Hp : Forall (fun s => plain s = true) (map hap_text hts)).
  { apply Forall_map. eapply Forall_impl; [exact Hr|]. intros ht H. by apply readable_text. }
  unfold file_lines. rewrite bool_decide_true by (apply decoded_ascii, is_ascii_texts; done). rewrite text_lines_texts by done.
  f_equal. clear Hp. induction Hr as [|ht hts Hht _ IH]; [done|]. cbn [map omap list_omap]. unfold recorded_line at 1.
  destruct (readable_text ht Hht) as (_ & _ & El). rewrite El. cbn. by rewrite IH.
Qed.

Lemma recorded_lines_ok {A} (f : A -> list dict) (g : A -> string) names :
  (forall n, n ∈ names -> file_lines (g n) = Ok (f n)) ->
  _recorded_lines (map g names) = Ok (concat (map f names)).
Proof.
  induction names as [|n names IH]; intros H; [done|]. cbn [map concat _recorded_lines]. rewrite H by set_solver. cbn.
  rewrite IH; [done|]. set_solver.
Qed.

(** ** A recording, label by label *)

Context (hs : list happening) (ck : nat -> datetime).
#[local] Abbreviation hts := (timed ck 0 hs).
#[local] Abbreviation left := (disk (recording hs (new_recorder ∅ (fun _ => None) ck)).2).
#[local] Abbreviation names := (map fst (map_to_list left)).
Context (Hread : Forall readable hts) (Hlabels : Forall (fun ht => sound_label (hap_label ht.1)) hts).

Lemma name_of_hap ht : ht ∈ hts -> day_of_name (hap_file ht) = Some (hap_label ht.1, day_of ht).
Proof. intros H. apply day_of_name_file. rewrite Forall_forall in Hlabels. by apply Hlabels. Qed.

Lemma names_left n : n ∈ names <-> exists ht, ht ∈ hts /\ n = hap_file ht.
Proof.
  destruct (recording_leaves hs ck ∅ Hread) as [_ Hn]. specialize (Hn n). rewrite lookup_empty in Hn.
  rewrite list_elem_of_fmap. split.
  - intros ([m v] & -> & Hv%elem_of_map_to_list). cbn. destruct (proj1 Hn) as [[]|H]; [by eexists | done |].
    apply list_elem_of_fmap in H as (ht & E & Hin). by exists ht.
  - intros (ht & Hin & ->). destruct (proj2 Hn) as [v Hv]; [right; by apply list_elem_of_fmap_2|].
    exists (hap_file ht, v). split; [done|]. by apply elem_of_map_to_list.
Qed.

Lemma named_exactly l day n : n ∈ names -> day_of_name n = Some (l, day) -> n = file_name l day.
Proof. intros (ht & Hin & ->)%names_left Hd. rewrite name_of_hap in Hd by done. by injection Hd as <- <-. Qed.

Lemma filter_file l day n : n ∈ names -> day_of_name n = Some (l, day) ->
  filter (fun ht => hap_file ht = n) hts = filter (fun ht => day_of ht = day) (of_label l hts).
Proof.
  intros Hn Hd. unfold of_label. rewrite list_filter_filter. apply filter_same. intros ht Hin. split.
  - intros <-. rewrite name_of_hap in Hd by done. by injection Hd as <- <-.
  - intros [E1 E2]. rewrite (named_exactly l day n Hn Hd). unfold hap_file, day_of in *. by rewrite E1, E2.
Qed.

Lemma elem_days_of l day n ns : (day, n) ∈ days_of l ns <-> n ∈ ns /\ day_of_name n = Some (l, day).
Proof.
  unfold days_of. rewrite list_elem_of_omap. split.
  - intros (m & Hm & E). destruct (day_of_name m) as [[l' d]|] eqn:Em; [|done]. case_decide; [|done]. by injection E as <- <-; subst l'.
  - intros [Hn E]. exists n. split; [done|]. rewrite E. by rewrite decide_True.
Qed.

Lemma NoDup_days l ns : (forall n, n ∈ ns -> n ∈ names) -> NoDup ns -> NoDup (map fst (days_of l ns)).
Proof.
  intros Hin Hd. induction Hd as [|n ns Hni Hd IH]; [apply NoDup_nil_2|]. unfold days_of. cbn [omap list_omap].
  destruct (day_of_name n) as [[l' day]|] eqn:E; [|apply IH; set_solver]. case_decide as Hl; [subst l'|apply IH; set_solver].
  cbn [map]. apply NoDup_cons. split; [|apply IH; set_solver]. intros ([day' m] & E' & Hm)%list_elem_of_fmap. cbn in E'. subst day'.
  apply elem_days_of in Hm as [Hm Em]. apply Hni.
  assert (E1 : n = file_name l day) by (apply named_exactly; [apply Hin; set_solver | done]).
  assert (E2 : m = file_name l day) by (apply named_exactly; [apply Hin; set_solver | done]).
  by rewrite E1, <- E2.
Qed.

Lemma days_sorted l : StronglySorted String.le (map fst (merge_sort by_day (days_of l names))).
Proof.
  apply sorted_fst, (StronglySorted_merge_sort by_day).
Qed.

(** The lines of a label are its happenings, in order, whatever the files were split by. *)
Lemma lines_left l : StronglySorted (by_key day_of) (of_label l hts) ->
  lines_of left (days_of l names) = Ok (map hap_dict (of_label l hts)).
Proof.
  intros Hs. destruct (recording_leaves hs ck ∅ Hread) as [Ht _]. unfold lines_of.
  set (days := merge_sort by_day (days_of l names)).
  assert (Hd : forall dn, dn ∈ days -> dn.2 ∈ names /\ day_of_name dn.2 = Some (l, dn.1)).
  { intros [day n] H. unfold days in H. rewrite merge_sort_Permutation in H. by apply elem_days_of. }
  rewrite (recorded_lines_ok (fun dn => map hap_dict (filter (fun ht => day_of ht = dn.1) (of_label l hts)))).
  - f_equal. trans (map hap_dict (concat (map (fun day => filter (fun ht => day_of ht = day) (of_label l hts)) (map fst days)))).
    + by rewrite concat_map, !map_map.
    + f_equal. apply grouped; [done | apply days_sorted | |].
      * unfold days. rewrite merge_sort_Permutation. apply NoDup_days; [done | apply NoDup_fst_map_to_list].
      * intros ht [El Hin]%list_elem_of_filter. apply list_elem_of_fmap. exists (day_of ht, hap_file ht). split; [done|].
        unfold days. rewrite merge_sort_Permutation. apply elem_days_of. split; [apply names_left; by exists ht|].
        rewrite name_of_hap by done. by rewrite El.
  - intros dn Hin. destruct (Hd dn Hin) as [H1 H2].
    rewrite Ht, lookup_empty. cbn [default]. rewrite string_app_nil_l, (filter_file l dn.1) by done. apply file_lines_written.
    apply Forall_forall. intros ht [_ [_ Hht]%list_elem_of_filter]%list_elem_of_filter. rewrite Forall_forall in Hread. by apply Hread.
Qed.

(** The reports of some labels, from their happenings. *)
Fixpoint reports_of (manifest : dict) (labels : list string) (out : list (string * report)) : res (list (string * report)) :=
  match labels with
  | [] => Ok out
  | label :: labels =>
      r ← node_report manifest (Ok (map hap_dict (of_label label hts)));
      reports_of manifest labels (with_report label r out)
  end.

Lemma summarize_labels_left manifest labels out :
  StronglySorted (by_key day_of) hts -> (forall ld, ld ∈ labels -> ld.2 = days_of ld.1 names) ->
  summarize_labels manifest left labels out = reports_of manifest (map fst labels) out.
Proof.
  intros Hs. revert out. induction labels as [|[l days] labels IH]; intros out Hl; [done|].
  pose proof (Hl (l, days) ltac:(set_solver)) as Hd. cbn in Hd. subst days. cbn [summarize_labels reports_of map fst].
  rewrite lines_left by by apply StronglySorted_filter. destruct (node_report _ _); [|done]. cbn [mbind res_bind]. apply IH. set_solver.
Qed.

End Files.


(** ** A recording of two sessions *)

#[local] Instance demo_json : JsonText := {| dumps _ := ""; loads _ := None; json_safe _ := False |}.

Definition demo_at (sec : Z) : value := VStr (isoformat (utc (1700000000000000 + sec * second_us))).
Definition demo_event (sec : Z) (event : string) (detail : dict) : dict :=
  [("recv", demo_at sec); ("kind", VStr "event"); ("event", VStr event); ("detail", VDict detail)].
Definition demo_counters (sec tenths rss : Z) : dict :=
  [("recv", demo_at sec); ("kind", VStr "msg");
   ("msg", VDict [("type", VStr "counters");
                  ("probe_self", VDict [("cpu_seconds", VFloat (flit tenths 1)); ("rss_kb", VInt rss); ("maxrss_kb", VInt rss)])])].
Definition demo_lines : list dict :=
  [demo_event 0 "session_started" []; demo_counters 60 15 100; demo_counters 1800 25 110; demo_counters 3700 35 120;
   demo_counters 5000 45 130; demo_event 5010 "session_lost" [("reason", VStr "eof")];
   demo_event 9000 "session_started" []; demo_counters 9060 5 90; demo_event 9100 "session_rotated" []].

Definition demo_summary : node_summary := match add_all demo_lines new_summary with Ok s => s | Raise _ => new_summary end.
Example summary_demo :
  match result (VInt 60) (VInt 300) demo_summary with
  | Ok r => (probe_rss_series r, losses_by_reason r, rotations_by_reason r, counters_received r)
            = ([[(fzero, VInt 100); (float_of_Z 1, VInt 120); (flit 14 1, VInt 130)]; [(fzero, VInt 90)]],
               [(VStr "eof", 1)], [(VStr "max_lifetime", 1)], 5)
  | Raise _ => False
  end.
Proof. vm_compute. reflexivity. Qed.

Lemma demo_sound : Forall sound_line demo_lines.
Proof.
  assert (Hr : forall sec, sec ∈ [0; 60; 1800; 3700; 5000; 5010; 9000; 9060; 9100] ->
    exists t, _parse_ts (demo_at sec) = Ok t /\ is_aware t = true).
  { intros sec H. repeat (apply elem_of_cons in H as [->|H]; [eexists; split; [vm_compute; reflexivity | done]|]). by apply elem_of_nil in H. }
  assert (He : forall sec ev d, sec ∈ [0; 60; 1800; 3700; 5000; 5010; 9000; 9060; 9100] ->
    hashable (default (VStr "unknown") (dget "reason" d)) = true -> dget "stderr_tail" d = None -> sound_line (demo_event sec ev d)).
  { intros sec ev d Hs Hd Ht. destruct (Hr sec Hs) as (t & Hp & Ha). split; [by exists (demo_at sec), t|].
    change (is_event _) with true. exists d. split; [by destruct d|]. split; [done|]. unfold dget_or_none. by rewrite Ht. }
  assert (Hc : forall sec x rss, sec ∈ [0; 60; 1800; 3700; 5000; 5010; 9000; 9060; 9100] ->
    x ∈ [15; 25; 35; 45; 5] -> sound_line (demo_counters sec x rss)).
  { intros sec x rss Hs Hx. destruct (Hr sec Hs) as (t & Hp & Ha). split; [by exists (demo_at sec), t|].
    change (is_event _) with false. eexists. split; [reflexivity|]. split_and!; [|done|done].
    intros _ _. eexists. split; [reflexivity|]. split_and!.
    - repeat (apply elem_of_cons in Hx as [->|Hx]; [eexists; vm_compute; reflexivity|]). by apply elem_of_nil in Hx.
    - by eexists.
    - right. by eexists. }
  unfold demo_lines. repeat (apply Forall_cons_2; [first [apply He | apply Hc]; first [reflexivity | apply (bool_decide_unpack _); vm_compute; exact I]|]). apply Forall_nil_2.
Qed.

Lemma summary_by_sessions_witness :
  exists s total, add_all demo_lines new_summary = Ok s /\ cpu_of_sessions (sessions None [] demo_lines) (NFloat fzero) = Ok total /\
    forall r, result (VInt 60) (VInt 300) s = Ok r -> reports demo_lines total r.
Proof. apply (summary_by_sessions demo_lines (VInt 60) (VInt 300)), demo_sound. Defined.
