(* ===== verification/ProbeWatch.v ===== *)
(** * The probe's two threads

    The emitter's lock and the watchdog of [node_monitor/probe/probe.py]: [_watchdog] and the
    methods of [_Emitter] as programs of the main thread and of the watchdog, which interleave
    call by call; [os._exit] in one ends both.  ProbeEmit.v has the same methods as the main
    thread runs them alone, and the encoder.  What the main thread emits, and when it looks at
    the signal, is any list of tasks (ProbeStream.v has the one of [stream]).  Times are
    answers of the clock.  A loop has fuel, and a thread out of fuel is stuck: it makes no
    further call, which only shortens a run. *)

From Stdlib Require Import ZArith Lia.
From stdpp Require Import pretty.
From S2P Require Import Prelude PyFloat PyTime PyVal Text ProbeHost ProbeEmit Interleave.

#[local] Open Scope string_scope.
#[local] Open Scope list_scope.
#[local] Open Scope Z_scope.
#[local] Open Scope prog_scope.

(** ** What the threads share

    A line or a fragment, as it should come out; [g_done] are those that came out whole and
    [g_cur] what came out of the one in progress, both ghost fields, as the calls [Begin] and
    [Finish] are. *)
Record entry := Entry { e_seq : option Z; e_text : string; e_report : bool }.

Inductive thread := Main | Watch.
#[export] Instance thread_eq_dec : EqDecision thread.
Proof. solve_decision. Defined.

Record shared := Shared {
  lk : option thread;
  signum : option Z;
  seq : Z;
  out : string;
  exited : option Z;
  g_done : list entry;
  g_cur : string;
}.

(** Standard input: none, a buffered object without descriptor, or a descriptor to poll; and what
    reading it gives, [WouldBlock] being [BlockingIOError] or [None] *)
Inductive stdin_kind := NoStdin | Buffered | Polled.
Inductive stdin_read := Data | Eof | WouldBlock | ReadFailed.

Inductive call :=
| Acquire
| Release
| GetSignum
| SignalAt
| Monotonic
| Now
| GetSeq
| IncSeq
| Begin (e : entry)
| Finish
| Write (data : string)
| SameParent
| Readable
| ReadStdin
| ExitNow (code : Z)
| Stuck.

Definition answer (c : call) : Type :=
  match c with
  | Acquire | SameParent | Readable => bool
  | GetSignum => option Z
  | SignalAt | Monotonic | GetSeq => Z
  | Now => float
  | Write _ => written
  | ReadStdin => stdin_read
  | ExitNow _ | Stuck => Empty_set
  | _ => unit
  end.

Abbreviation prog := (Interleave.prog answer).

Definition _exit {A} (code : Z) : prog A := Ask (ExitNow code) (fun e : answer (ExitNow code) => match e with end).
Definition stuck {A} : prog A := Ask Stuck (fun e : answer Stuck => match e with end).

(** ** The emitter *)

Fixpoint _write_all (fuel : nat) (data : string) : prog unit :=
  match data, fuel with
  | "", _ => pret tt
  | _, O => stuck
  | _, S fuel =>
      do w <- sys (Write data);
      match w with
      | Took n => _write_all fuel (drop_chars n data)
      | Blocked => _write_all fuel data
      | Broken => praise (OSErr "write")
      end
  end.

Fixpoint put_chunks (fuel : nat) (chunks : list string) : prog unit :=
  match chunks with [] => pret tt | c :: cs => do u <- _write_all fuel c; put_chunks fuel cs end.

Section Emitter.
Context {E : Encoder} (fuel : nat).

Definition message (n : Z) (kind ts : string) (fields : dict) : value :=
  VDict (dmerge [("type", VStr kind); ("seq", VInt n); ("ts", VStr ts)] fields).

(** What is to come out of a message: a line, or what the encoder gave before it failed *)
Definition fragment_end (chunks : list string) : string := match chunks with [] => "" | _ => eol end.
Definition planned (n : Z) (report : bool) (msg : value) : entry :=
  match _encoded_chunks msg with
  | (chunks, None) => Entry (Some n) (text_of chunks) report
  | (chunks, Some _) => Entry None (text_of chunks +:+ fragment_end chunks) false
  end.

(** [except (IOError, OSError): return False] *)
Fixpoint reader_gone (p : prog bool) : prog bool :=
  match p with
  | Done (Raise e) => if is_oserror e then pret false else Done (Raise e)
  | Done (Ok b) => Done (Ok b)
  | Ask c k => Ask c (fun a => reader_gone (k a))
  end.

Definition write_body (chunks : list string) (failed : option exn) : prog bool :=
  reader_gone
    (do u <- put_chunks fuel chunks;
     match failed with
     | None => do u <- sys IncSeq; pret true
     | Some e =>
         if is_oserror e then praise e else
         do u <- match chunks with [] => pret tt | _ => _write_all fuel eol end;
         do u <- sys Finish; praise e
     end).

Definition _write (kind : string) (fields : dict) (report : bool) : prog bool :=
  do n <- sys GetSeq;
  do now <- sys Now;
  match _utc_timestamp now with
  | Raise e => praise e
  | Ok ts =>
      let msg := message n kind ts fields in
      do u <- sys (Begin (planned n report msg));
      write_body (_encoded_chunks msg).1 (_encoded_chunks msg).2
  end.

Definition _report_signal_and_exit {A} : prog A :=
  do s <- sys GetSignum;
  match s with
  | None => praise TypeError
  | Some n =>
      do wrote <- _write "error"
        (_error_fields "signal" ("terminated by " +:+ signal_name n +:+ " (" +:+ pretty n +:+ ")")) true;
      _exit (128 + n)
  end.

(** [SIGNAL_REPORT_GRACE_SEC], in microseconds *)
Definition GRACE : Z := 5 * second_us.

Fixpoint _acquire_or_exit (fuel : nat) : prog unit :=
  match fuel with
  | O => stuck
  | S fuel =>
      do s <- sys GetSignum;
      match s with
      | None => do got <- sys Acquire; if got : bool then pret tt else _acquire_or_exit fuel
      | Some n =>
          do now <- sys Monotonic; do at_ <- sys SignalAt;
          if 0 <? GRACE - (now - at_) then
            do got <- sys Acquire; if got : bool then pret tt else _exit (128 + n)
          else _exit (128 + n)
      end
  end.

Definition emit (kind : string) (fields : dict) : prog unit :=
  do u <- _acquire_or_exit fuel;
  pfinally
    (do s <- sys GetSignum;
     match s with
     | Some _ => _report_signal_and_exit
     | None => do wrote <- _write kind fields false; if wrote : bool then pret tt else _exit 0
     end) (sys Release).

Definition check_signal : prog unit :=
  do s <- sys GetSignum;
  match s with
  | None => pret tt
  | Some n =>
      do got <- sys Acquire;
      if got : bool then _report_signal_and_exit
      else
        do now <- sys Monotonic; do at_ <- sys SignalAt;
        if GRACE <=? now - at_ then
          do s <- sys GetSignum;
          match s with Some n => _exit (128 + n) | None => praise TypeError end
        else pret tt
  end.

(** ** The threads *)

Inductive task := Emit (kind : string) (fields : dict) | CheckSignal.
Definition perform (t : task) : prog unit := match t with Emit k f => emit k f | CheckSignal => check_signal end.
(** The main thread; an exception of a task may be caught by the caller. *)
Fixpoint main (tasks : list task) (code : Z) : prog unit :=
  match tasks with
  | [] => _exit code
  | t :: ts => do u <- pcatch (perform t) (fun _ => pret tt); main ts code
  end.

Fixpoint watch_loop (stdin : stdin_kind) (turns : nat) : prog unit :=
  match turns with
  | O => stuck
  | S turns =>
      do same <- sys SameParent;
      if same : bool then
        do u <- check_signal;
        do ready <- match stdin with NoStdin => pret false | Buffered => pret true | Polled => sys Readable end;
        if ready : bool then
          do d <- sys ReadStdin;
          match d with
          | Data | WouldBlock => watch_loop stdin turns
          | Eof => pret tt
          | ReadFailed => praise (OSErr "read")
          end
        else watch_loop stdin turns
      else pret tt
  end.
Definition _watchdog (stdin : stdin_kind) (turns : nat) : prog unit :=
  do u <- pcatch (watch_loop stdin turns) (fun _ => pret tt); _exit 0.
End Emitter.

(** ** Steps *)

Definition set_lk l w := Shared l (signum w) (seq w) (out w) (exited w) (g_done w) (g_cur w).
Definition set_signum n w := Shared (lk w) n (seq w) (out w) (exited w) (g_done w) (g_cur w).
Definition set_exited c w := Shared (lk w) (signum w) (seq w) (out w) c (g_done w) (g_cur w).
(** [_on_signal]: the first signal is kept. *)
Definition _on_signal (n : Z) w := match signum w with None => set_signum (Some n) w | Some _ => w end.
Definition put_out t w := Shared (lk w) (signum w) (seq w) (out w +:+ t) (exited w) (g_done w) (g_cur w +:+ t).
Definition finish_with e w := Shared (lk w) (signum w) (seq w) (out w) (exited w) (g_done w ++ [e]) "".
Definition count_up w := Shared (lk w) (signum w) (seq w + 1) (out w) (exited w) (g_done w) (g_cur w).

(** [plan] is the entry in progress, by the ghost call that began it. *)
Record state := State { sh : shared; plan : entry; main_thread : prog unit; watchdog : prog unit }.
Definition thread_of (t : thread) (s : state) : prog unit := match t with Main => main_thread s | Watch => watchdog s end.
Definition set_thread (t : thread) (p : prog unit) (s : state) : state :=
  match t with Main => State (sh s) (plan s) p (watchdog s) | Watch => State (sh s) (plan s) (main_thread s) p end.

Definition does (t : thread) (c : call) : shared * entry -> answer c -> shared * entry -> Prop :=
  match c return shared * entry -> answer c -> shared * entry -> Prop with
  | Acquire => fun we a we' => if a then lk we.1 = None /\ we' = (set_lk (Some t) we.1, we.2) else we' = we
  | Release => fun we _ we' => we' = (set_lk None we.1, we.2)
  | GetSignum => fun we a we' => a = signum we.1 /\ we' = we
  | GetSeq => fun we a we' => a = seq we.1 /\ we' = we
  | IncSeq => fun we _ we' => we' = (finish_with we.2 (count_up we.1), we.2)
  | Begin e => fun we _ we' => we' = (we.1, e)
  | Finish => fun we _ we' => we' = ((if bool_decide (g_cur we.1 = "") then we.1 else finish_with we.2 we.1), we.2)
  | Write data => fun we a we' =>
      match a with
      | Took n => (n <= String.length data)%nat /\ we' = (put_out (prefix_of n data) we.1, we.2)
      | _ => we' = we
      end
  | ExitNow _ | Stuck => fun _ _ _ => False
  | _ => fun we _ we' => we' = we
  end.

Inductive wstep : state -> state -> Prop :=
| thread_step t c k a w' e' s :
    exited (sh s) = None -> thread_of t s = Ask c k -> does t c (sh s, plan s) a (w', e') ->
    wstep s (set_thread t (k a) (State w' e' (main_thread s) (watchdog s)))
| exit_step t code k s :
    exited (sh s) = None -> thread_of t s = Ask (ExitNow code) k ->
    wstep s (State (set_exited (Some code) (sh s)) (plan s) (main_thread s) (watchdog s))
| signal_step n s :
    exited (sh s) = None ->
    wstep s (State (_on_signal n (sh s)) (plan s) (main_thread s) (watchdog s)).

Definition start {E : Encoder} (fuel : nat) (tasks : list task) (code : Z) (stdin : stdin_kind) (turns : nat) : state :=
  State (Shared None None 0 "" None [] "") (Entry None "" false) (main fuel tasks code) (_watchdog fuel stdin turns).

(** ** What a thread may do with the output

    A thread without the lock writes nothing; the one that holds it writes the entry it began
    and nothing else; the one that reported the signal writes nothing any more. *)
Inductive held := Held | HeldSeq (n : Z) | Line (e : entry) (rest : string) | Said.
Definition between (st : option held) : Prop := match st with Some Held | Some (HeldSeq _) => True | _ => False end.

(** What a message is to be: a line with a number, or a fragment without one. *)
Definition whole {E : Encoder} (e : entry) : Prop :=
  exists n report kind ts fields, e = planned n report (message n kind ts fields).
Definition numbered (n : Z) (e : entry) : Prop := match e_seq e with Some m => m = n | None => e_report e = false end.

Definition allowed {E : Encoder} (st : option held) (c : call) : Prop :=
  match c with
  | Release => between st
  | Begin e => exists n, st = Some (HeldSeq n) /\ whole e /\ numbered n e
  | Write data => exists e more, st = Some (Line e (data +:+ more))
  | IncSeq => exists e, st = Some (Line e "") /\ e_seq e <> None
  | Finish => exists e, st = Some (Line e "") /\ e_seq e = None /\ e_report e = false
  | _ => True
  end.

Definition next (st : option held) (c : call) : answer c -> option held :=
  match c return answer c -> option held with
  | Acquire => fun a => if a then Some Held else st
  | Release => fun _ => None
  | GetSeq => fun n => match st with Some Held | Some (HeldSeq _) => Some (HeldSeq n) | _ => st end
  | Begin e => fun _ => Some (Line e (e_text e))
  | Write _ => fun a => match a, st with Took n, Some (Line e rest) => Some (Line e (drop_chars n rest)) | _, _ => st end
  | IncSeq => fun _ => match st with Some (Line e _) => Some (if e_report e then Said else Held) | _ => st end
  | Finish => fun _ => Some Held
  | _ => fun _ => st
  end.

Definition possible (st : option held) (c : call) : answer c -> Prop :=
  match c return answer c -> Prop with
  | Acquire => fun a => a = true -> st = None
  | Write data => fun a => match a with Took n => (n <= String.length data)%nat | _ => True end
  | _ => fun _ => True
  end.

Abbreviation may := (ok allowed next possible).

(** [st] once a task is over, where another may begin *)
Definition idle (st : option held) : Prop := st = None \/ between st.
Definition leaves {A} (st : option held) (_ : res A) : Prop := idle st.

Section Threads.
Context {E : Encoder} (fuel : nat).

Lemma drop_chars_prefix n s t : (n <= String.length s)%nat -> drop_chars n (s +:+ t) = drop_chars n s +:+ t.
Proof.
  revert n. induction s as [|a s IH]; intros [|n] H; cbn in *; try done; [lia|]. rewrite string_app_cons. cbn. apply IH. lia.
Qed.

Lemma ok_exit {A} st code (Q : option held -> res A -> Prop) : may st (_exit code) Q.
Proof. split; [done|]. intros []. Qed.
Lemma ok_stuck {A} st (Q : option held -> res A -> Prop) : may st stuck Q.
Proof. split; [done|]. intros []. Qed.

Lemma ok_reader_gone st (p : prog bool) Q :
  may st p (fun st r => match r with
                        | Raise e => if is_oserror e then Q st (Ok false) else Q st (Raise e)
                        | Ok b => Q st (Ok b)
                        end) -> may st (reader_gone p) Q.
Proof.
  revert st. induction p as [[b|e]|c k IH]; intros st; cbn; [done | by destruct (is_oserror e) |].
  intros [Ha Hk]. split; [done|]. intros a Hp. by apply IH, Hk.
Qed.

(** Written whole, or an error in the middle. *)
Definition wrote_to (e : entry) (rest : string) {A} (st : option held) (r : res A) : Prop :=
  match r with Ok _ => st = Some (Line e rest) | Raise x => is_oserror x = true end.

Lemma ok_write_all n e data rest : may (Some (Line e (data +:+ rest))) (_write_all n data) (wrote_to e rest).
Proof.
  revert data. induction n as [|n IH]; intros data.
  - destruct data; [by rewrite string_app_nil_l | apply ok_stuck].
  - destruct data as [|a data]; [by rewrite string_app_nil_l|]. cbn [_write_all]. remember (String a data) as d eqn:Ed. clear Ed.
    split; [by exists e, rest|]. intros [k| |] Hk; cbn in Hk |- *; [| apply IH | done].
    rewrite drop_chars_prefix by done. apply IH.
Qed.

Lemma ok_put_chunks n e chunks rest : may (Some (Line e (text_of chunks +:+ rest))) (put_chunks n chunks) (wrote_to e rest).
Proof.
  induction chunks as [|c cs IH]; cbn [put_chunks text_of]; [by rewrite string_app_nil_l|].
  rewrite string_app_assoc. apply ok_bind. eapply ok_mono; [|apply ok_write_all].
  intros st [u|x]; [|done]. intros ->. exact IH.
Qed.

(** A message written: the line, the reader gone, or an exception with the fragment ended. *)
Definition written_as (report : bool) (st : option held) (r : res bool) : Prop :=
  match r with
  | Ok true => st = Some (if report then Said else Held)
  | Ok false => True
  | Raise _ => between st
  end.

Lemma ok_write_body n report msg :
  may (Some (Line (planned n report msg) (e_text (planned n report msg))))
    (write_body fuel (_encoded_chunks msg).1 (_encoded_chunks msg).2) (written_as report).
Proof.
  unfold write_body, planned. destruct (_encoded_chunks msg) as [chunks [x|]]; cbn [fst snd]; apply ok_reader_gone, ok_bind.
  - eapply ok_mono; [|apply ok_put_chunks]. intros st [u|y]; [|by cbn; intros ->]. intros ->.
    destruct (is_oserror x) eqn:Ex; cbn; [by rewrite Ex|]. apply ok_bind.
    apply (ok_mono _ _ _ _ _ (wrote_to (Entry None (text_of chunks +:+ fragment_end chunks) false) "")).
    + intros st [w|y]; [|by cbn; intros ->]. intros ->. split; [by eexists|]. intros a _. cbn. by rewrite Ex.
    + destruct chunks as [|c cs]; [done|]. cbn [fragment_end]. rewrite <- (string_app_nil_r eol) at 2. apply ok_write_all.
  - eapply ok_mono; [|rewrite <- (string_app_nil_r (text_of chunks)); apply ok_put_chunks]. intros st [u|y]; [|by cbn; intros ->]. intros ->.
    split; [by eexists|]. intros a _. done.
Qed.

Lemma planned_numbered n report msg : numbered n (planned n report msg).
Proof. unfold planned. by destruct (_encoded_chunks msg) as [chunks [x|]]. Qed.

Lemma between_seq st n : between st -> next st GetSeq n = Some (HeldSeq n).
Proof. by destruct st as [[]|]. Qed.

Lemma ok_write st kind fields report : between st -> may st (_write fuel kind fields report) (written_as report).
Proof.
  intros Hst. split; [done|]. intros n _. rewrite between_seq by done. split; [done|]. intros now _. cbn.
  destruct (_utc_timestamp now) as [ts|x]; [|done].
  split; [|intros a _; apply ok_write_body].
  exists n. split_and!; [done | by eexists _, _, _, _, _ | apply planned_numbered].
Qed.

Lemma ok_report {A} st (Q : option held -> res A -> Prop) :
  between st -> (forall st x, between st -> Q st (Raise x)) -> may st (_report_signal_and_exit fuel) Q.
Proof.
  intros Hst HQ. split; [done|]. intros [n|] _; cbn [pbind next]; [|by apply HQ]. apply ok_bind.
  eapply ok_mono; [|by apply ok_write]. intros st' [b|x] Hb; [apply ok_exit | by apply HQ].
Qed.

Lemma ok_acquire n st : idle st ->
  may st (_acquire_or_exit n) (fun st' r => match r with Ok _ => st' = Some Held | Raise _ => False end).
Proof.
  intros Hst. induction n as [|n IH]; [apply ok_stuck|]. split; [done|]. intros [s|] _; cbn.
  - split; [done|]. intros now _. split; [done|]. intros at_ _. cbn. destruct (0 <? _); [|apply ok_exit].
    split; [done|]. intros [] Hp; [done | apply ok_exit].
  - split; [done|]. intros [] Hp; [done | exact IH].
Qed.

Lemma ok_emit kind fields st : idle st -> may st (emit fuel kind fields) leaves.
Proof.
  intros Hst. apply ok_bind. eapply ok_mono; [|by apply ok_acquire]. intros st1 [u|]; [|done]. intros ->.
  apply ok_finally. apply (ok_mono _ _ _ _ _ (fun st _ => between st)).
  - intros st' r Hr. apply ok_bind. split; [done|]. intros a _. by left.
  - split; [done|]. intros [s|] _; cbn [pbind next]; [by apply ok_report|]. apply ok_bind.
    eapply ok_mono; [|by apply ok_write]. intros st' [[]|x] Hr; [by rewrite Hr | apply ok_exit | done].
Qed.

Lemma ok_check_signal st : idle st -> may st (check_signal fuel) leaves.
Proof.
  intros Hst. split; [done|]. intros [n|] _; [|done]. cbn. split; [done|]. intros [] Hp; cbn.
  - apply ok_report; [done|]. intros st' x Hx. by right.
  - split; [done|]. intros now _. split; [done|]. intros at_ _. cbn. destruct (GRACE <=? _); [|done].
    split; [done|]. intros [s|] _; [apply ok_exit | done].
Qed.

Abbreviation any := (fun (_ : option held) (_ : res unit) => True).

Lemma ok_main tasks code st : idle st -> may st (main fuel tasks code) any.
Proof.
  revert st. induction tasks as [|t ts IH]; intros st Hst; cbn [main]; [apply ok_exit|].
  apply ok_bind, ok_catch. apply (ok_mono _ _ _ _ _ leaves).
  - intros st' [u|x] Hx; [by apply IH|]. destruct (is_exception x); [by apply IH | done].
  - destruct t; [by apply ok_emit | by apply ok_check_signal].
Qed.

Lemma ok_watch_loop stdin turns st : idle st -> may st (watch_loop fuel stdin turns) leaves.
Proof.
  revert st. induction turns as [|turns IH]; intros st Hst; cbn [watch_loop]; [apply ok_stuck|].
  split; [done|]. intros [] _; [|done]. cbn [pbind next]. apply ok_bind.
  eapply ok_mono; [|by apply ok_check_signal]. intros st' [u|x] Hx; [|done].
  apply ok_bind. apply (ok_mono _ _ _ _ _ leaves).
  - intros st'' [[]|x] Hx'; [|by apply IH | done]. split; [done|]. intros [] _; try done; by apply IH.
  - destruct stdin; try done; by split.
Qed.

Lemma ok_watchdog stdin turns : may None (_watchdog fuel stdin turns) any.
Proof.
  apply ok_bind, ok_catch. eapply ok_mono; [|apply ok_watch_loop; by left].
  intros st [u|x] _; [apply ok_exit|]. destruct (is_exception x); [apply ok_exit | done].
Qed.
End Threads.

(** ** Every reachable state *)

Fixpoint entries_text (l : list entry) : string := match l with [] => "" | e :: l => e_text e +:+ entries_text l end.
Lemma entries_text_app l1 l2 : entries_text (l1 ++ l2) = entries_text l1 +:+ entries_text l2.
Proof. induction l1 as [|e l1 IH]; [done|]. cbn [entries_text app]. by rewrite IH, string_app_assoc. Qed.

(** No report is out; a report is out, and nothing after it. *)
Definition silent (l : list entry) : Prop := Forall (fun e => e_report e = false) l.
Definition reported (l : list entry) : Prop := exists l' e, l = l' ++ [e] /\ silent l' /\ e_report e = true.

Section Reach.
Context {E : Encoder}.

(** What the status of the lock's holder says of the output. *)
Definition in_progress (h : option held) (w : shared) (e : entry) : Prop :=
  match h with
  | None | Some Held => g_cur w = "" /\ silent (g_done w)
  | Some (HeldSeq n) => g_cur w = "" /\ silent (g_done w) /\ n = seq w
  | Some (Line e' rest) =>
      e = e' /\ g_cur w +:+ rest = e_text e' /\ silent (g_done w) /\ whole e' /\ numbered (seq w) e'
  | Some Said => g_cur w = "" /\ reported (g_done w)
  end.

Record tidy (w : shared) : Prop := Tidy {
  td_out : out w = entries_text (g_done w) +:+ g_cur w;
  td_seq : omap e_seq (g_done w) = seqZ 0 (seq w);
  td_pos : 0 <= seq w;
  td_whole : Forall whole (g_done w);
}.

(** The status of thread [t] when [h] holds the lock. *)
Definition view (t : thread) (h : option (thread * held)) : option held :=
  match h with Some (t', st) => if decide (t = t') then Some st else None | None => None end.

Definition consistent (h : option (thread * held)) (w : shared) (e : entry) : Prop :=
  lk w = fst <$> h /\ tidy w /\ in_progress (snd <$> h) w e.

Definition inv (s : state) : Prop :=
  exists h, consistent h (sh s) (plan s) /\ forall t, may (view t h) (thread_of t s) (fun _ _ => True).

Definition takes (c : call) : answer c -> bool :=
  match c return answer c -> bool with Acquire => fun a => a | _ => fun _ => false end.

(** A call made without the lock, that does not take it, changes nothing. *)
Lemma quiet_call t c a we we' :
  allowed None c -> does t c we a we' -> takes c a = false ->
  we' = we /\ next None c a = None /\ possible None c a.
Proof.
  destruct c; cbn; try done; try (by intros _ -> _); try (by intros _ [_ ->] _); try (by intros (x & Hn & _)).
  - by intros _ Hd ->.
  - by intros (x & more & Hn).
Qed.

Lemma written_so_far n cur d more : (n <= String.length d)%nat ->
  (cur +:+ prefix_of n d) +:+ drop_chars n (d +:+ more) = cur +:+ d +:+ more.
Proof.
  intros Hn. rewrite drop_chars_prefix, string_app_assoc by done. f_equal.
  by rewrite <- (string_app_assoc (prefix_of n d)), prefix_drop.
Qed.

Lemma line_done w e : tidy w -> g_cur w = e_text e -> whole e -> e_seq e = Some (seq w) ->
  tidy (finish_with e (count_up w)).
Proof.
  intros [Ho Hs Hp Hw] Hc He Hn. split; cbn.
  - by rewrite entries_text_app, Ho, Hc, string_app_nil_r; cbn [entries_text]; rewrite string_app_nil_r.
  - rewrite omap_app, Hs. cbn. by rewrite Hn, seqZ_app by lia.
  - lia.
  - by apply Forall_app_2; [|apply Forall_singleton].
Qed.
Lemma fragment_done w e : tidy w -> g_cur w = e_text e -> whole e -> e_seq e = None ->
  tidy (finish_with e w).
Proof.
  intros [Ho Hs Hp Hw] Hc He Hn. split; cbn.
  - by rewrite entries_text_app, Ho, Hc, string_app_nil_r; cbn [entries_text]; rewrite string_app_nil_r.
  - rewrite omap_app, Hs. cbn. by rewrite Hn, app_nil_r.
  - lia.
  - by apply Forall_app_2; [|apply Forall_singleton].
Qed.

(** A call of the thread that holds the lock, or while nobody does. *)
Lemma own_call t c a h w e w' e' :
  lk w = match h with Some _ => Some t | None => None end -> tidy w -> in_progress h w e ->
  allowed h c -> does t c (w, e) a (w', e') ->
  possible h c a /\
  let h' := next h c a in
  lk w' = match h' with Some _ => Some t | None => None end /\ tidy w' /\ in_progress h' w' e'.
Proof.
  intros Hl Ht Hi Ha Hd. destruct c; cbn in Ha, Hd.
  - (* Acquire *) destruct a; [destruct Hd as [Hn [= -> ->]] | injection Hd as -> ->].
    + destruct h; [by rewrite Hl in Hn|]. split; [done|]. cbn. split; [done|]; split; [by destruct Ht | exact Hi].
    + done.
  - (* Release *) injection Hd as -> ->. split; [done|]. cbn. split; [done|]; split; [by destruct Ht|].
    destruct h as [[]|]; try done. by destruct Hi as (? & ? & _).
  - destruct Hd as [_ [= -> ->]]. done.
  - injection Hd as -> ->. done.
  - injection Hd as -> ->. done.
  - injection Hd as -> ->. done.
  - (* GetSeq *) destruct Hd as [-> [= -> ->]]. split; [done|]. cbn.
    destruct h as [[]|]; (split; [done|]); (split; [done|]); first [exact Hi | by destruct Hi as (? & ? & _) | by destruct Hi].
  - (* IncSeq *) destruct Ha as (x & -> & Hx). cbn in Hi. destruct Hi as (-> & Hc & Hs & Hw & Hn).
    rewrite string_app_nil_r in Hc. injection Hd as -> ->. unfold numbered in Hn. destruct (e_seq x) as [m|] eqn:Em; [|done]. subst m.
    split; [done|]. cbn. split; [done|]; split; [by apply line_done|].
    destruct (e_report x) eqn:Er; cbn; (split; [done|]); [by exists (g_done w), x|].
    by apply Forall_app_2; [|apply Forall_singleton].
  - (* Begin *) destruct Ha as (n & -> & Hw & Hn). cbn in Hi. destruct Hi as (Hc & Hs & ->). injection Hd as -> ->.
    split; [done|]. cbn. split_and!; try done. by rewrite Hc, string_app_nil_l.
  - (* Finish *) destruct Ha as (x & -> & Hx & Hr). cbn in Hi. destruct Hi as (-> & Hc & Hs & Hw & Hn).
    rewrite string_app_nil_r in Hc. injection Hd as -> ->. split; [done|]. cbn. case_bool_decide as Hg; [done|].
    split; [done|]; split; [by apply fragment_done|]; split; [done|]. by apply Forall_app_2; [|apply Forall_singleton].
  - (* Write *) destruct Ha as (x & more & ->). cbn in Hi. destruct Hi as (-> & Hc & Hs & Hw & Hn).
    destruct a as [n| |]; [|by injection Hd as -> ->..]. destruct Hd as [Hk [= -> ->]]. split; [done|]. cbn.
    split_and!; try done.
    + destruct Ht. split; cbn; [|done..]. by rewrite td_out0, string_app_assoc.
    + by rewrite written_so_far.
  - injection Hd as -> ->. done.
  - injection Hd as -> ->. done.
  - injection Hd as -> ->. done.
  - done.
  - done.
Qed.

Lemma view_self t (o : option held) : view t (pair t <$> o) = o.
Proof. destruct o; cbn; [by rewrite decide_True|done]. Qed.
Lemma view_other t t' (o : option held) : t' <> t -> view t' (pair t <$> o) = None.
Proof. intros Hn. destruct o; cbn; [by rewrite decide_False|done]. Qed.

(** The lock free or with [t], whose status is [o]. *)
Lemma own_step t c a o w e w' e' :
  consistent (pair t <$> o) w e -> allowed o c -> does t c (w, e) a (w', e') ->
  possible o c a /\ consistent (pair t <$> next o c a) w' e'.
Proof.
  intros (Hl & Ht & Hi) Ha Hd. destruct (own_call t c a o w e w' e') as (Hp & Hl' & Ht' & Hi'); try done.
  - by destruct o.
  - by destruct o.
  - split; [done|]. split_and!; [by destruct (next o c a) | done | by destruct (next o c a)].
Qed.

Lemma step_consistent t c a h w e w' e' :
  consistent h w e -> allowed (view t h) c -> does t c (w, e) a (w', e') ->
  possible (view t h) c a /\
  exists h', consistent h' w' e' /\ view t h' = next (view t h) c a /\ forall t', t' <> t -> view t' h' = view t' h.
Proof.
  intros Hc Ha Hd.
  assert (Hown : forall o, h = pair t <$> o -> possible (view t h) c a /\
    exists h', consistent h' w' e' /\ view t h' = next (view t h) c a /\ forall t', t' <> t -> view t' h' = view t' h).
  { intros o ->. rewrite view_self in Ha |- *. destruct (own_step t c a o w e w' e') as [Hp Hc']; [done..|]. split; [done|].
    exists (pair t <$> next o c a). rewrite view_self. split_and!; [done | done |]. intros t' Hn. by rewrite !view_other. }
  destruct h as [[t' st]|]; [|by apply (Hown None)]. destruct (decide (t = t')) as [->|Hn]; [by apply (Hown (Some st))|].
  assert (Hv : view t (Some (t', st)) = None) by (cbn; by rewrite decide_False). rewrite Hv in *.
  assert (Hq : takes c a = false).
  { destruct c; try done. destruct a; [|done]. destruct Hc as [Hl _], Hd as [Hd _]. cbn in Hl, Hd. by rewrite Hl in Hd. }
  destruct (quiet_call t c a (w, e) (w', e') Ha Hd Hq) as ([= -> ->] & Hne & Hp). split; [done|].
  exists (Some (t', st)). by rewrite Hv, Hne.
Qed.

Lemma thread_of_set t t' p s : thread_of t' (set_thread t p s) = if decide (t' = t) then p else thread_of t' s.
Proof. by destruct t, t'. Qed.
Lemma shared_set t p s : sh (set_thread t p s) = sh s /\ plan (set_thread t p s) = plan s.
Proof. by destruct t. Qed.

Lemma on_signal_consistent h w e n : consistent h w e -> consistent h (_on_signal n w) e.
Proof.
  intros (Hl & [] & Hi). unfold _on_signal. destruct (signum w); [done|]. split; [done|]. split; [done|]. exact Hi.
Qed.

Lemma inv_step s s' : inv s -> wstep s s' -> inv s'.
Proof.
  intros (h & Hc & Hm) Hs. destruct Hs as [t c k a w' e' s Hx Hk Hd | t code k s Hx Hk | n s Hx].
  - pose proof (Hm t) as Ht. rewrite Hk in Ht. destruct Ht as [Ha Ht].
    destruct (step_consistent t c a h _ _ w' e' Hc Ha Hd) as (Hp & h' & Hc' & Hv & Ho).
    exists h'. destruct (shared_set t (k a) (State w' e' (main_thread s) (watchdog s))) as [-> ->]. split; [exact Hc'|].
    intros t'. rewrite thread_of_set. case_decide as Ht'; [subst t'; rewrite Hv; by apply Ht|].
    rewrite Ho by done. specialize (Hm t'). by destruct t'.
  - exists h. split; [|intros t'; destruct t'; [exact (Hm Main) | exact (Hm Watch)]]. destruct Hc as (Hl & [] & Hi). split; [done|]. split; [done|]. exact Hi.
  - exists h. split; [by apply on_signal_consistent|]. intros t'. destruct t'; [exact (Hm Main) | exact (Hm Watch)].
Qed.

Lemma inv_start fuel tasks code stdin turns : inv (start fuel tasks code stdin turns).
Proof.
  exists None. split; [split; [done|]; split; [split|split]; try done; constructor|]. intros [].
  - apply ok_main. by left.
  - apply ok_watchdog.
Qed.

Lemma inv_reachable fuel tasks code stdin turns s : rtc wstep (start fuel tasks code stdin turns) s -> inv s.
Proof.
  intros H. pose proof (inv_start fuel tasks code stdin turns) as Hi. induction H as [|x y z Hxy _ IH]; [done|].
  apply IH. by eapply inv_step.
Qed.

(** ** Properties *)

(** An entry as it is on the descriptor: the encoding of the message of its number and a line
    end, or a fragment of an encoding that failed, with a line end unless it is empty. *)
Definition line_or_fragment (e : entry) : Prop :=
  match e_seq e with
  | Some n => exists kind ts fields pieces,
      iterencode (message n kind ts fields) = (pieces, None) /\ e_text e = text_of pieces +:+ eol
  | None => exists msg pieces x t rest, iterencode msg = (pieces, Some x) /\ text_of pieces = t +:+ rest /\
      (e_text e = t +:+ eol \/ e_text e = "" /\ t = "")
  end.

Lemma whole_line e : whole e -> line_or_fragment e.
Proof.
  intros (n & report & kind & ts & fields & ->). unfold planned, line_or_fragment.
  pose proof (encoded_chunks_whole (message n kind ts fields)) as H.
  destruct (iterencode _) as [pieces failed] eqn:Ei, (_encoded_chunks _) as [chunks failed']. destruct H as (-> & _ & H).
  destruct failed as [x|]; cbn [e_seq e_text].
  - destruct H as [rest H]. exists (message n kind ts fields), pieces, x, (text_of chunks), rest. split_and!; [done | done |].
    destruct chunks; [by right | by left].
  - by exists kind, ts, fields, pieces.
Qed.

(** C12. However the main thread and the watchdog interleave, and whenever a signal lands, the
    output is whole lines: those written so far, numbered 0, 1, 2, ... (or fragments the encoder
    could not finish, which have no number and their own line end), and a beginning of the one in
    progress.  Once the signal's report is out, nothing follows it. *)
Theorem lines_never_split fuel tasks code stdin turns s :
  rtc wstep (start fuel tasks code stdin turns) s ->
  let w := sh s in
  out w = entries_text (g_done w) +:+ g_cur w /\
  Forall line_or_fragment (g_done w) /\ omap e_seq (g_done w) = seqZ 0 (seq w) /\
  (g_cur w = "" \/ exists rest, line_or_fragment (plan s) /\ g_cur w +:+ rest = e_text (plan s)) /\
  (silent (g_done w) \/ reported (g_done w) /\ g_cur w = "").
Proof.
  intros H w. destruct (inv_reachable _ _ _ _ _ _ H) as (h & (Hl & [Ho Hs Hp Hw] & Hi) & _). fold w in Ho, Hs, Hw, Hi.
  split_and!; [done | eapply Forall_impl; [exact Hw | apply whole_line] | done | |].
  - destruct (snd <$> h) as [[| |e rest|]|]; cbn in Hi; [by left; destruct Hi .. | | by left; destruct Hi | by left; destruct Hi].
    destruct Hi as (<- & Hc & _ & He & _). right. exists rest. split; [by apply whole_line | done].
  - destruct (snd <$> h) as [[| |e rest|]|]; cbn in Hi; [left; by destruct Hi | left; by destruct Hi as (_ & ? & _)
      | left; by destruct Hi as (_ & _ & ? & _) | right; by destruct Hi | left; by destruct Hi].
Qed.
End Reach.

(** ** A run: a signal in the middle of a census *)

(** One move: a call of a thread, answered as the state says and, where it leaves a choice, in the
    plain way (a write takes at most [n] bytes); or a signal. *)
Inductive move := Run (t : thread) (n : nat) | Signal (signum : Z).

Definition serve (t : thread) (c : call) (n : nat) (we : shared * entry) : option (answer c * (shared * entry)) :=
  let '(w, e) := we in
  match c return option (answer c * (shared * entry)) with
  | Acquire => Some (match lk w with None => (true, (set_lk (Some t) w, e)) | Some _ => (false, we) end)
  | Release => Some (tt, (set_lk None w, e))
  | GetSignum => Some (signum w, we)
  | SignalAt | Monotonic => Some (0, we)
  | Now => Some (float_of_Z 0, we)
  | GetSeq => Some (seq w, we)
  | IncSeq => Some (tt, (finish_with e (count_up w), e))
  | Begin e => Some (tt, (w, e))
  | Finish => Some (tt, ((if bool_decide (g_cur w = "") then w else finish_with e w), e))
  | Write data => Some (Took (Nat.min n (String.length data)), (put_out (prefix_of (Nat.min n (String.length data)) data) w, e))
  | SameParent => Some (true, we)
  | Readable => Some (false, we)
  | ReadStdin => Some (Data, we)
  | ExitNow _ | Stuck => None
  end.

Lemma serve_sound t c n we a we' : serve t c n we = Some (a, we') -> does t c we a we'.
Proof.
  destruct we as [w e]. destruct c; cbn; try done; try (intros [= <- <-]; done).
  - destruct (lk w) eqn:El; by intros [= <- <-].
  - intros [= <- <-]. split; [lia | done].
Qed.

Definition exits (c : call) : option Z := match c with ExitNow code => Some code | _ => None end.
Definition exec (m : move) (s : state) : option state :=
  match exited (sh s), m with
  | Some _, _ => None
  | None, Signal n => Some (State (_on_signal n (sh s)) (plan s) (main_thread s) (watchdog s))
  | None, Run t n =>
      match thread_of t s with
      | Ask c k =>
          match exits c with
          | Some code => Some (State (set_exited (Some code) (sh s)) (plan s) (main_thread s) (watchdog s))
          | None =>
              match serve t c n (sh s, plan s) with
              | Some (a, (w, e)) => Some (set_thread t (k a) (State w e (main_thread s) (watchdog s)))
              | None => None
              end
          end
      | Done _ => None
      end
  end.
Fixpoint exec_all (l : list move) (s : state) : option state :=
  match l with [] => Some s | m :: l => match exec m s with Some s => exec_all l s | None => None end end.

Lemma exec_sound m s s' : exec m s = Some s' -> wstep s s'.
Proof.
  unfold exec. destruct (exited (sh s)) eqn:Ex; [done|]. destruct m as [t n|n]; [|intros [= <-]; by constructor].
  destruct (thread_of t s) as [r|c k] eqn:Et; [done|].
  destruct (exits c) as [code|] eqn:Ec.
  - destruct c; try done. injection Ec as ->. injection 1 as <-. exact (exit_step t code k s Ex Et).
  - destruct (serve t c n (sh s, plan s)) as [[a [w e]]|] eqn:Es; [|done]. intros [= <-].
    apply serve_sound in Es. exact (thread_step t c k a w e s Ex Et Es).
Qed.

Lemma exec_all_sound l s s' : exec_all l s = Some s' -> rtc wstep s s'.
Proof.
  revert s. induction l as [|m l IH]; intros s; cbn; [injection 1 as ->; apply rtc_refl|].
  destruct (exec m s) as [s1|] eqn:E; [|done]. intros H. eapply rtc_l; [exact (exec_sound _ _ _ E) | by apply IH].
Qed.

Lemma exec_all_runs l s : (if exec_all l s is Some _ then true else false) = true -> rtc wstep s (default s (exec_all l s)).
Proof. destruct (exec_all l s) eqn:H; [|done]. intros _. by apply (exec_all_sound l). Qed.

#[local] Instance demo_encoder : Encoder := {|
  iterencode v := match v with
                  | VDict d => (["{"; match dget "seq" d with Some (VInt n) => pretty n | _ => "" end; "}"], None)
                  | _ => ([], Some TypeError)
                  end |}.

Definition demo_start : state := start 9 [Emit "census" []; Emit "counters" []] 0 Polled 9.
(** The main thread is two bytes into its line when SIGTERM lands; the watchdog finds the lock
    taken; the line is finished, and the watchdog reports the signal before the main thread's next
    message. *)
Definition demo_moves : list move :=
  replicate 6 (Run Main 2) ++ [Signal 15] ++ replicate 6 (Run Watch 9) ++ replicate 4 (Run Main 9) ++ replicate 10 (Run Watch 9).
Definition demo_end : state := default demo_start (exec_all demo_moves demo_start).

Example watch_demo :
  (out (sh demo_end), seq (sh demo_end), exited (sh demo_end))
  = ("{0}" +:+ eol +:+ "{1}" +:+ eol, 2, Some 143) /\ reported (g_done (sh demo_end)).
Proof.
  split; [vm_compute; reflexivity|].
  exists [Entry (Some 0) ("{0}" +:+ eol) false], (Entry (Some 1) ("{1}" +:+ eol) true).
  split; [vm_compute; reflexivity|]. split; [by repeat constructor | done].
Qed.

Lemma lines_never_split_witness :
  let w := sh demo_end in
  out w = entries_text (g_done w) +:+ g_cur w /\
  Forall line_or_fragment (g_done w) /\ omap e_seq (g_done w) = seqZ 0 (seq w) /\
  (g_cur w = "" \/ exists rest, line_or_fragment (plan demo_end) /\ g_cur w +:+ rest = e_text (plan demo_end)) /\
  (silent (g_done w) \/ reported (g_done w) /\ g_cur w = "").
Proof.
  apply (lines_never_split 9 [Emit "census" []; Emit "counters" []] 0 Polled 9).
  apply (exec_all_runs demo_moves). vm_compute. reflexivity.
Defined.
