(* ===== verification/Backfill.v ===== *)
(** * Replaying a capture into the database

    [soak replay --write-db] of [node_monitor/cli/main.py]: [_DatabaseSink] between the records
    of a replay (Replay.v) and the buffered writer with its database writer.  The sink is called
    with each record as it is made; since a replay's pipeline does not look at the sink, its
    records are taken together first, up to its exception if it raised one.  [given] and [told]
    are ghost fields, as in WriterThread.v: the batches of the submits and the events they made.
    The check of the schema and of the partitions before, and the file of [--write-records],
    are left out. *)

From stdpp Require Import pretty.
From S2P Require Import Prelude PyFloat PyTime PyVal Codec Spool Connect Buffered RecordQueue Sql Maintenance DbWriter WriterThread NodePipeline Replay.

#[local] Open Scope string_scope.
#[local] Open Scope list_scope.
#[local] Open Scope Z_scope.
#[local] Open Scope py_scope.

Definition _BATCH_RECORDS : nat := 500.
Definition _MAX_EVENT_ROUNDS : nat := 3.

Record sink := Sink {
  buffered : bworld session;
  pending : list record;
  events : list record;
  beyond : list (string * Z);
  given : list (list record);
  told : list record;
}.
Definition set_buffered b s : sink := Sink b (pending s) (events s) (beyond s) (given s) (told s).
Definition set_pending p s : sink := Sink (buffered s) p (events s) (beyond s) (given s) (told s).
Definition set_events e s : sink := Sink (buffered s) (pending s) e (beyond s) (given s) (told s).
Definition set_beyond c s : sink := Sink (buffered s) (pending s) (events s) c (given s) (told s).
Definition note g t s : sink := Sink (buffered s) (pending s) (events s) (beyond s) (given s ++ [g]) (told s ++ t).

(** [_tally]: the details that are counted are the buffered writer's, whose values are counts. *)
Definition counts_of (d : dict) : list (string * Z) :=
  omap (fun kv => match kv.2 with VInt z => Some (kv.1, z) | _ => None end) d.
Definition tally_event (c : list (string * Z)) (event : record) : list (string * Z) :=
  if is_str "rows_beyond_retention" (event_type_of event) then
    match dget_or_none "detail" (row event) with VDict d => counter_update c (counts_of d) | _ => c end
  else c.
Definition _tally (evs : list record) (c : list (string * Z)) : list (string * Z) := foldl tally_event c evs.

(** [_run_database] *)
Definition is_pg (e : exn) : bool := match e with PgError _ _ _ _ => true | _ => false end.
Definition reported_as (e : exn) : option exn :=
  match e with
  | PgError _ _ _ _ | ValueError _ =>
      Some (ClickException ((if is_pg e && is_unavailable e then "database unavailable: " else "database error: ") +:+ exn_text e))
  | _ => None
  end.
Definition _run_database {S A} (action : M S A) : M S A :=
  try_except action (fun e => option_map raise (reported_as e)).

Section Backfill.
Context {JT : JsonText} (max_bytes : Z) (cfg : settings) (keep : retention) (now : datetime).
#[local] Instance writer_of_sink : Writer session := database_writer keep.

Definition on_sink {A} (c : M (bworld session) A) : M sink A := zoom buffered set_buffered c.

(** [self.buffered.submit(batch, self.now)], noting what it was given and the events it made *)
Definition buffered_submit (batch : list record) : M sink (list record) := fun s =>
  let b := buffered s in
  let '(out, b') := Buffered.submit max_bytes cfg batch now b in
  (out, note batch (reported b out b') (set_buffered b' s)).

Definition submit : M sink unit :=
  modify (fun s => set_beyond (_tally (events s) (beyond s)) s) ;;;
  let* batch := gets (fun s => events s ++ pending s) in
  modify (set_pending []) ;;;
  let* evs := buffered_submit batch in
  modify (set_events evs).

Definition add (r : record) : M sink unit :=
  modify (fun s => set_pending (pending s ++ [r]) s) ;;;
  let* p := gets pending in
  when (_BATCH_RECORDS <=? length p)%nat submit.

Fixpoint event_rounds (n : nat) : M sink unit :=
  match n with
  | O => ret tt
  | S n =>
      let* evs := gets events in
      match evs with [] => ret tt | _ => submit ;;; event_rounds n end
  end.
Definition finish : M sink unit := submit ;;; event_rounds _MAX_EVENT_ROUNDS.

Definition close : M sink unit := on_sink (modify (fun b => set_db (DbWriter.close (db b)).2 b)).

(** The records of a replay, and its end *)
Definition add_all (records : list record) : M sink unit := foldM (fun _ r => _run_database (add r)) tt records.
Definition backfill (records : list record) : M sink unit := add_all records ;;; _run_database finish.

(** What [soak_replay] says when the replay itself fails *)
Definition replay_error (directory : string) (e : exn) : exn :=
  match e with
  | ValueError _ | KeyError _ => ClickException ("cannot replay " +:+ directory +:+ ": " +:+ exn_text e)
  | e => if is_oserror e then ClickException ("cannot replay " +:+ directory +:+ ": " +:+ exn_text e) else e
  end.

(** [soak_replay] with [--write-db]: its exit code *)
Definition soak_replay (directory : string) (files : gmap string string) (configs : list NodePipeline.config)
    (start : replaying) : M sink Z :=
  let '(r, st) := replay files configs start in
  let* _ :=
    (fun s =>
       let '(out, s) :=
         (add_all (rp_records st) ;;;
          match r with Ok _ => _run_database finish | Raise e => raise (replay_error directory e) end) s in
       (out, (close s).2)) in
  let* status := on_sink Buffered.status in
  ret (if truthy (dget_or_none "spooled_batches" status) then 1 else 0).

Definition new_sink (sp : sworld) (d : session) (m : nat -> Z) : sink := Sink (new_buffered sp d m) [] [] [] [] [].
End Backfill.

(** ** The batches of a replay *)

(** Each batch is the events of the submit before it and a chunk of records. *)
Definition rode (chunks evs : list (list record)) : list (list record) := zip_with app ([] :: evs) chunks.

Lemma zip_with_longer {A B C} (f : A -> B -> C) l l' k : (length k <= length l)%nat -> zip_with f (l ++ l') k = zip_with f l k.
Proof. revert k. induction l as [|a l IH]; intros [|b k] H; cbn in *; [by destruct l' | lia | done |]. f_equal. apply IH. lia. Qed.

Lemma rode_events chunks evs e : (length chunks <= S (length evs))%nat -> rode chunks (evs ++ [e]) = rode chunks evs.
Proof. intros H. unfold rode. rewrite app_comm_cons. by apply zip_with_longer. Qed.

Lemma rode_chunk chunks evs c : length evs = length chunks -> rode (chunks ++ [c]) evs = rode chunks evs ++ [default [] (last evs) ++ c].
Proof.
  destruct evs as [|e evs _] using rev_ind; intros H.
  - by destruct chunks.
  - rewrite length_app in H. cbn in H. rewrite (rode_events chunks) by lia. unfold rode. rewrite app_comm_cons, zip_with_app by (cbn; lia).
    cbn [zip_with]. by rewrite last_snoc.
Qed.

Lemma rode_length chunks evs : (length chunks <= S (length evs))%nat -> length (rode chunks evs) = length chunks.
Proof. intros H. unfold rode. rewrite length_zip_with. cbn [length]. lia. Qed.

Lemma rode_told chunks evs : length evs = length chunks -> concat evs ⊆ concat (rode chunks evs) ++ default [] (last evs).
Proof.
  revert chunks. induction evs as [|e evs IH] using rev_ind; intros chunks H; [set_solver|].
  destruct chunks as [|c chunks _] using rev_ind; [rewrite length_app in H; cbn in H; lia|].
  rewrite !length_app in H. cbn in H. specialize (IH chunks ltac:(lia)).
  rewrite rode_events, rode_chunk, last_snoc by (rewrite ?length_app; cbn; lia). rewrite !concat_app. cbn. rewrite !app_nil_r. set_solver.
Qed.

Section Facts.
Context {JT : JsonText} (max_bytes : Z) (cfg : settings) (keep : retention) (now : datetime).
Context (Hnow : is_aware now = true) (Hback : 0 <= fst (backoff cfg) /\ 0 <= snd (backoff cfg)).
(** The sequence number the spool starts from, and the submits there can be. *)
Context (seq0 : Z) (Hseq0 : 0 <= seq0) (limit : nat) (Hlimit : seq0 + 2 * Z.of_nat limit < 10 ^ 6).
#[local] Instance writer_of_facts : Writer session := database_writer keep.
Implicit Types (s : sink).

(** A submit that returns carries nothing to the next one. *)
Lemma finish_carried t : keeps (fun b : bworld session => Buffered.carried b = []) (Buffered._finish cfg t).
Proof.
  assert (Hu : unplugged (fun b : bworld session => Buffered.carried b = [])) by by split.
  unfold _finish. apply keeps_bind; [by apply plumb_on_spool|]. intros q.
  apply keeps_bind; [apply keeps_foldM; by intros ? ? b|]. intros _.
  apply keeps_bind; [by intros b|]. intros b. case_match; [by intros b'|]. apply keeps_bind; [by intros b' | by intros e b'].
Qed.

Lemma submit_carried rs b evs b' : Buffered.submit max_bytes cfg rs now b = (Ok evs, b') -> Buffered.carried b' = [].
Proof using Hnow.
  unfold Buffered.submit, require_aware. rewrite Hnow. erewrite run_bind by done. cbn beta iota.
  assert (Hu : unplugged (fun b : bworld session => Buffered.carried b = [])) by by split.
  pose proof (plumb_submit_body max_bytes cfg _ Hu now ltac:(by intros ? ? ? ?) ltac:(done) rs (entered b) eq_refl) as Hb.
  fold (entered b). destruct (submit_body max_bytes cfg rs now (entered b)) as [[[]|e] b1] eqn:E1; cbn [snd] in Hb.
  - intros E. pose proof (finish_carried now b1 Hb) as H. cbv beta in H. revert E. unfold bind, try_except. rewrite E1. intros E. by rewrite E in H.
  - intros E. exfalso. revert E. unfold bind, try_except. rewrite E1. cbv beta iota.
    by destruct (Buffered._finish cfg now b1) as [[?|?] ?].
Qed.

(** After [k] submits everything given to the buffered writer rests somewhere. *)
Record held (k : nat) s : Prop := Held {
  he_seq : seq_ok (spool (buffered s));
  he_bound : 0 <= seq (spool (buffered s)) <= seq0 + 2 * Z.of_nat k;
  he_link : link_ok cfg (buffered s);
  he_given : Forall (fun g => g <> [] -> rests g (told s) (buffered s)) (given s);
}.

(** Before a submit, and after one that failed. *)
Record running (chunks evs : list (list record)) s : Prop := Running {
  ru_held : held (length chunks) s;
  ru_carried : Buffered.carried (buffered s) = [];
  ru_length : length evs = length chunks;
  ru_given : given s = rode chunks evs;
  ru_told : told s = concat evs;
  ru_events : events s = default [] (last evs);
  ru_beyond : beyond s = _tally (concat (removelast evs)) [];
}.
Definition failed (chunks evs : list (list record)) s : Prop :=
  held (length chunks) s /\ length chunks = S (length evs) /\ given s = rode chunks evs.

Lemma buffered_submit_held k batch s r s' :
  (k < limit)%nat -> held k s -> buffered_submit max_bytes cfg keep now batch s = (r, s') ->
  held (S k) s' /\ given s' = given s ++ [batch] /\ events s' = events s /\ beyond s' = beyond s /\ pending s' = pending s /\
  (Buffered.carried (buffered s) = [] -> forall evs, r = Ok evs -> told s' = told s ++ evs /\ Buffered.carried (buffered s') = []).
Proof using Hnow Hback Hseq0 Hlimit.
  intros Hk [Hok Hb Hl Hg] E. unfold buffered_submit in E.
  destruct (Buffered.submit max_bytes cfg batch now (buffered s)) as [out b'] eqn:Es. injection E as <- <-.
  destruct (submit_dealt max_bytes cfg batch now (buffered s) "x-L.jsonl" "")
    as (out1 & b1 & E1 & _ & Hp & Hl' & Hok' & Hb' & _); auto using known_none, accounted_none; [lia..|].
  assert (E2 : (out, b') = (out1, b1)) by (rewrite <- Es; exact E1). injection E2 as <- <-. split_and!; try done.
  - split; cbn; [done | lia | done |]. apply Forall_app. split.
    + eapply Forall_impl; [exact Hg|]. cbn. intros g Hg' Hne. eapply submit_rests; eauto; lia.
    + apply Forall_singleton. intros Hne. apply rests_mono with (evs := reported (buffered s) out b'); [set_solver|].
      by apply placed_rests, Hp.
  - intros Hc evs ->. cbn. unfold reported. rewrite Hc. split; [done|]. by eapply submit_carried.
Qed.

(** [submit] sends the events of the last one and the pending records. *)
Lemma submit_running chunks evs s r s' :
  (length chunks < limit)%nat -> running chunks evs s -> submit max_bytes cfg keep now s = (r, s') ->
  match r with
  | Ok _ => pending s' = [] /\ exists e, running (chunks ++ [pending s]) (evs ++ [e]) s'
  | Raise _ => failed (chunks ++ [pending s]) evs s'
  end.
Proof using Hnow Hback Hseq0 Hlimit.
  intros Hk [Hh Hc Hlen Hg Ht He Hy] E. unfold submit in E. do 3 (erewrite run_bind in E by done; cbn beta iota in E).
  cbn [events pending set_beyond] in E.
  set (s1 := set_pending [] _) in E.
  destruct (buffered_submit max_bytes cfg keep now (events s ++ pending s) s1) as [r1 s2] eqn:Es.
  assert (Hh1 : held (length chunks) s1) by by destruct Hh.
  destruct (buffered_submit_held _ _ _ _ _ Hk Hh1 Es) as (Hh2 & Hg2 & He2 & Hy2 & Hp2 & Ht2).
  erewrite run_bind in E by exact Es.
  assert (Hlen' : length (chunks ++ [pending s]) = S (length chunks)) by (rewrite length_app; cbn; lia).
  assert (Hgr : given s2 = rode (chunks ++ [pending s]) evs).
  { rewrite Hg2, rode_chunk, <- He by done. by rewrite <- Hg. }
  destruct r1 as [e|e]; cbn in E.
  - injection E as <- <-. split; [exact Hp2|]. exists e. destruct (Ht2 Hc e eq_refl) as [Ht3 Hc3]. split; cbn [buffered given told events beyond set_events].
    + rewrite Hlen'. by destruct Hh2.
    + done.
    + rewrite !length_app. cbn. lia.
    + rewrite rode_events by lia. done.
    + rewrite Ht3, concat_app. cbn. rewrite app_nil_r. by rewrite <- Ht.
    + by rewrite last_snoc.
    + rewrite removelast_last, Hy2. cbn. rewrite Hy, He. unfold _tally. rewrite <- foldl_app. f_equal.
      destruct evs as [|x l _] using rev_ind; [done|]. by rewrite last_snoc, removelast_last, concat_app; cbn; rewrite app_nil_r.
  - injection E as <- <-. split; [by rewrite Hlen'|]. split; [lia | done].
Qed.

(** *** The loop over the records *)

Definition small (c : list record) : Prop := (length c <= _BATCH_RECORDS)%nat.
Definition submits_for (n : nat) : nat := n / _BATCH_RECORDS + S _MAX_EVENT_ROUNDS.
Definition full (c : list record) : Prop := length c = _BATCH_RECORDS.
Definition adding (done : list record) s : Prop := exists chunks evs,
  running chunks evs s /\ done = concat chunks ++ pending s /\ Forall full chunks /\ (length (pending s) < _BATCH_RECORDS)%nat.
Definition stopped (records : list record) s : Prop := exists chunks evs rest,
  failed chunks evs s /\ records = concat chunks ++ rest /\ Forall full chunks.

Lemma full_length chunks : Forall full chunks -> length (concat chunks) = (length chunks * _BATCH_RECORDS)%nat.
Proof using. clear Hnow Hlimit limit. induction 1 as [|c l Hc _ IH]; [done|]. cbn [concat length]. rewrite length_app, IH, Hc. lia. Qed.

Lemma run_database_run {S A} (c : M S A) x r y : c x = (r, y) ->
  exists r', _run_database c x = (r', y) /\ match r with Ok a => r' = Ok a | Raise _ => exists e, r' = Raise e end.
Proof.
  intros E. unfold _run_database. erewrite run_try by exact E. destruct r as [a|e]; [by eexists|].
  destruct (reported_as e); cbn; eauto.
Qed.

Lemma running_pending p chunks evs s : running chunks evs s -> running chunks evs (set_pending p s).
Proof. intros [[] ? ? ? ? ? ?]. by split. Qed.

Lemma add_step records done r s : (length (done ++ r :: records) < limit * _BATCH_RECORDS)%nat -> adding done s ->
  exists out s', _run_database (add max_bytes cfg keep now r) s = (out, s') /\
    match out with Ok _ => adding (done ++ [r]) s' | Raise _ => stopped (done ++ r :: records) s' end.
Proof using Hnow Hback Hseq0 Hlimit.
  intros Hn (chunks & evs & Hr & -> & Hf & Hp). pose proof (full_length chunks Hf) as Hc.
  destruct (add max_bytes cfg keep now r s) as [out s'] eqn:E. destruct (run_database_run _ _ _ _ E) as (out' & E' & Hout).
  exists out', s'. split; [done|]. unfold add in E. erewrite run_bind in E by done. cbn beta iota in E.
  erewrite run_bind in E by done. cbn beta iota in E. cbn [pending set_pending] in E.
  rewrite length_app in Hn, E. rewrite length_app in Hn. cbn [length] in Hn, E.
  destruct (_BATCH_RECORDS <=? _)%nat eqn:Ef; cbn [when] in E.
  - apply Nat.leb_le in Ef. pose proof (running_pending (pending s ++ [r]) _ _ _ Hr) as Hr'.
    assert (Hk : (length chunks < limit)%nat) by (unfold _BATCH_RECORDS in *; lia).
    pose proof (submit_running _ _ _ _ _ Hk Hr' E) as H. cbn [pending set_pending] in H.
    assert (Hf' : Forall full (chunks ++ [pending s ++ [r]])).
    { apply Forall_app. split; [done|]. apply Forall_singleton. unfold full. rewrite length_app. cbn. lia. }
    destruct out as [[]|e].
    + subst out'. destruct H as (Hp' & e & H). exists (chunks ++ [pending s ++ [r]]), (evs ++ [e]).
      split_and!; [done | | done | rewrite Hp'; unfold _BATCH_RECORDS; cbn; lia].
      rewrite Hp', concat_app. cbn. by rewrite !app_nil_r, app_assoc.
    + destruct Hout as [e' ->]. exists (chunks ++ [pending s ++ [r]]), evs, records. split_and!; [done | | done].
      rewrite concat_app. cbn. rewrite app_nil_r. by rewrite <- !app_assoc.
  - injection E as <- <-. subst out'. apply Nat.leb_gt in Ef. exists chunks, evs. split_and!; [by apply running_pending | | done |].
    + cbn. by rewrite app_assoc.
    + cbn [pending set_pending]. rewrite length_app. cbn. lia.
Qed.

Lemma add_all_run records done s : (length (done ++ records) < limit * _BATCH_RECORDS)%nat -> adding done s ->
  exists out s', add_all max_bytes cfg keep now records s = (out, s') /\
    match out with Ok _ => adding (done ++ records) s' | Raise _ => stopped (done ++ records) s' end.
Proof using Hnow Hback Hseq0 Hlimit.
  unfold add_all. revert done s. induction records as [|r records IH]; intros done s Hn Ha; cbn [foldM].
  - eexists _, _. split; [done|]. by rewrite app_nil_r.
  - destruct (add_step records done r s Hn Ha) as (out & s1 & E & H). erewrite run_bind by exact E. destruct out as [[]|e].
    + rewrite (cons_middle r done records), app_assoc in Hn |- *. apply (IH _ _ Hn H).
    + by eexists _, _.
Qed.

(** *** The last rounds *)

Lemma rounds_run n chunks evs s :
  (length chunks + n <= limit)%nat -> running chunks evs s -> pending s = [] ->
  exists out s' k evs', event_rounds max_bytes cfg keep now n s = (out, s') /\ (k <= n)%nat /\
    match out with
    | Ok _ => running (chunks ++ replicate k []) evs' s' /\ pending s' = [] /\ (events s' = [] \/ k = n)
    | Raise _ => failed (chunks ++ replicate k []) evs' s'
    end.
Proof using Hnow Hback Hseq0 Hlimit.
  revert chunks evs s. induction n as [|n IH]; intros chunks evs s Hn Hr Hp; cbn [event_rounds].
  - exists (Ok tt), s, 0%nat, evs. rewrite app_nil_r. eauto 8.
  - erewrite run_bind by done. cbn beta iota. destruct (events s) as [|e l] eqn:Ee.
    + exists (Ok tt), s, 0%nat, evs. rewrite app_nil_r. split_and!; [done | lia | done | done | by left].
    + destruct (submit max_bytes cfg keep now s) as [out s1] eqn:E. assert (Hk : (length chunks < limit)%nat) by lia.
      pose proof (submit_running _ _ _ _ _ Hk Hr E) as H. rewrite Hp in H. erewrite run_bind by exact E. destruct out as [[]|x].
      * destruct H as (Hp1 & e1 & H). destruct (IH (chunks ++ [[]]) (evs ++ [e1]) s1) as (out & s' & k & evs' & E' & Hkn & H'); [rewrite length_app; cbn; lia | done..|].
        exists out, s', (S k), evs'. rewrite <- app_assoc in H'. cbn [replicate]. split; [done|]. split; [lia|].
        destruct out; [|done]. destruct H' as (? & ? & [?| ->]); auto.
      * exists (Raise x), s1, 1%nat, evs. split_and!; [done | lia | done].
Qed.

Lemma adding_chunks records s : adding records s -> exists chunks evs, running chunks evs s /\ records = concat (chunks ++ [pending s]) /\
  Forall small (chunks ++ [pending s]) /\ (length chunks <= length records / _BATCH_RECORDS)%nat.
Proof using.
  clear Hnow Hlimit limit. intros (chunks & evs & Hr & -> & Hf & Hp). exists chunks, evs. split_and!; [done | | |].
  - rewrite concat_app. cbn. by rewrite app_nil_r.
  - apply Forall_app. split; [|apply Forall_singleton; unfold small; lia]. eapply Forall_impl; [exact Hf|]. unfold full, small. lia.
  - apply Nat.div_le_lower_bound; [done|]. rewrite length_app, (full_length chunks Hf). lia.
Qed.

Lemma concat_padded {A} (l : list (list A)) k : concat (l ++ replicate k []) = concat l.
Proof. rewrite concat_app. replace (concat (replicate k [])) with (@nil A) by (induction k; done). apply app_nil_r. Qed.

Lemma small_padded l k : Forall small l -> Forall small (l ++ replicate k []).
Proof. intros H. apply Forall_app. split; [done|]. apply Forall_replicate. unfold small. cbn. lia. Qed.

Lemma finish_run records s : (submits_for (length records) <= limit)%nat -> adding records s ->
  exists out s' chunks evs, _run_database (finish max_bytes cfg keep now) s = (out, s') /\
    records = concat chunks /\ Forall small chunks /\ (length chunks <= submits_for (length records))%nat /\
    match out with
    | Ok _ => running chunks evs s' /\ pending s' = [] /\ (events s' = [] \/ (S _MAX_EVENT_ROUNDS <= length chunks)%nat)
    | Raise _ => failed chunks evs s'
    end.
Proof using Hnow Hback Hseq0 Hlimit.
  intros Hn (chunks & evs & Hr & Hrec & Hs & Hc)%adding_chunks. unfold submits_for in *.
  destruct (finish max_bytes cfg keep now s) as [out s'] eqn:E. destruct (run_database_run _ _ _ _ E) as (out' & E' & Hout).
  exists out', s'. unfold finish in E. destruct (submit max_bytes cfg keep now s) as [r s1] eqn:E1. erewrite run_bind in E by exact E1.
  assert (Hk : (length chunks + 4 <= limit)%nat) by (unfold _MAX_EVENT_ROUNDS in *; lia). assert (Hk1 : (length chunks < limit)%nat) by lia.
  pose proof (submit_running _ _ _ _ _ Hk1 Hr E1) as H.
  assert (Hl : length (chunks ++ [pending s]) = S (length chunks)) by (rewrite length_app; cbn [length]; lia).
  destruct r as [[]|e].
  - destruct H as (Hp & e & H).
    assert (Hk2 : (length (chunks ++ [pending s]) + _MAX_EVENT_ROUNDS <= limit)%nat) by (rewrite Hl; unfold _MAX_EVENT_ROUNDS; lia).
    destruct (rounds_run _MAX_EVENT_ROUNDS _ _ s1 Hk2 H Hp) as (r & s2 & k & evs' & E2 & Hk3 & H2).
    rewrite E2 in E. injection E as -> ->. exists ((chunks ++ [pending s]) ++ replicate k []), evs'.
    rewrite concat_padded. split_and!; [done | done | by apply small_padded | rewrite length_app, length_replicate; lia |].
    rewrite length_app, length_replicate. destruct out as [[]|x].
    + subst out'. destruct H2 as (? & ? & [?| ->]); split_and!; auto. right. lia.
    + by destruct Hout as [x' ->].
  - injection E as <- <-. destruct Hout as [x ->]. exists (chunks ++ [pending s]), evs. split_and!; try done. lia.
Qed.

Lemma running_rests chunks evs s : running chunks evs s ->
  given s = rode chunks evs /\ length (given s) = length chunks /\ Forall (fun g => g <> [] -> rests g (told s) (buffered s)) (given s).
Proof using. clear Hnow Hlimit limit. intros [[] ? ? Hg ? ? ?]. split_and!; [done | | done]. rewrite Hg. apply rode_length. lia. Qed.

Lemma failed_rests chunks evs s : failed chunks evs s ->
  given s = rode chunks evs /\ length (given s) = length chunks /\ Forall (fun g => g <> [] -> rests g (told s) (buffered s)) (given s).
Proof using. clear Hnow Hlimit limit. intros ([] & ? & Hg). split_and!; [done | | done]. rewrite Hg. apply rode_length. lia. Qed.
End Facts.

(** ** Properties *)

Section Properties.
Context {JT : JsonText} (max_bytes : Z) (cfg : settings) (keep : retention) (now : datetime).

End Properties.

(** ** Two events, with the server up *)

#[local] Existing Instance demo_json.
Definition demo_events : list record := [hello; hello].
Definition demo_start : sink := new_sink (demo_world ∅) (Session (Db ∅ []) [] None) (fun _ => 0).


Example backfill_demo :
  let '(out, s) := backfill 100000 demo_settings demo_retention Maintenance.demo_now demo_events demo_start in
  (out, map length (given s), acked (buffered s)) = (Ok tt, [2%nat], [demo_events]).
Proof. vm_compute. reflexivity. Qed.
