(* ===== verification/Queries.v ===== *)
(** * The queries of the live views

    [node_monitor/database/queries.py].  A query is what the code puts together, its conditions,
    order and limit, with the text and the parameters that are sent and, for the tables of Sql.v,
    the rows it selects: SQL's meaning of that text.  [now] is the database's clock.  How the
    database orders text is the class [Collation], and its sums of floats [FloatSum]. *)

From Stdlib Require Import ZArith Lia.
From S2P Require Import Prelude PyFloat PyTime PyVal Text Codec Sql.

#[local] Open Scope string_scope.
#[local] Open Scope list_scope.
#[local] Open Scope Z_scope.
#[local] Open Scope py_scope.

Class Collation := { collate : string -> string -> bool }.
Class CollationLaws `{Collation} := {
  collate_trans : forall a b c, collate a b = true -> collate b c = true -> collate a c = true;
  collate_total : forall a b, collate a b = true \/ collate b a = true;
}.
Class FloatSum := { sum_floats : list value -> value }.

(** ** Columns *)

(** A column as Python gets it; what is [NULL] is [None]. *)
Definition column_of (c : string) (r : row_t) : value := match cell c r with Scalar v | Jsonb v => v end.
Definition is_none (v : value) : bool := match v with VNone => true | _ => false end.
(** [a = b], unknown when one is NULL *)
Definition sql_eq (a b : value) : bool := negb (is_none a) && negb (is_none b) && py_eq a b.
Definition at_least (a b : value) : bool :=
  match num_of a, num_of b with Some m, Some n => num_leb n m | _, _ => false end.
Definition coalesce (l : list value) : value := default VNone (head (filter (fun v => is_none v = false) l)).

Section Tables.
Context (d : database) (now : datetime).

Definition rows_of (table : string) : list row_t := map snd (map_to_list (table_of table d)).
(** [LEFT JOIN t ON t.system = p.system AND t.node = p.node]: the key of [t] *)
Definition joined_to (t : string) (p : row_t) : row_t :=
  default ∅ (table_of t d !! [part_of (cell "system" p); part_of (cell "node" p)]).

Definition label_of (p : row_t) : value :=
  coalesce [column_of "label" (joined_to "live_nodes" p); column_of "label" (joined_to "nodes" p); column_of "node" p].
Definition matched_label (p : row_t) : value :=
  coalesce [column_of "label" (joined_to "live_nodes" p); column_of "label" (joined_to "nodes" p)].

(** [make_interval(secs => n)] *)
Definition interval_us (n : num) : Z :=
  match n with NInt z => z * second_us | NFloat f => round_int (fmul f (float_of_Z second_us)) end.

(** [_FRESH] *)
Definition fresh (max_age : num) (p : row_t) : bool :=
  match table_of "live_snapshots" d !! [part_of (cell "system" p); part_of (cell "node" p)] with
  | Some s => match column_of "ts" s with VTime t => instant now - interval_us max_age <=? instant t | _ => false end
  | None => false
  end.

(** ** Conditions *)

Inductive clause :=
| OfSystem (v : value)
| IsUserProcess
| HasUser
| OfUser (v : value)
| OfNode (v : value)
| OfCategory (v : value)
| OfPresence (v : value)
| IdleAtLeast (v : num)
| Fresh (v : num).

Definition clause_text (c : clause) : string :=
  match c with
  | OfSystem _ => "p.system = %s"
  | IsUserProcess => "p.is_user_process"
  | HasUser => "p.username IS NOT NULL"
  | OfUser _ => "p.username = %s"
  | OfNode _ => "(p.node = %s OR COALESCE(ln.label, n.label) = %s)"
  | OfCategory _ => "p.category = %s"
  | OfPresence _ => "p.owner_presence = %s"
  | IdleAtLeast _ => "p.cpu_state = 'idle' AND p.idle_for_sec >= %s"
  | Fresh _ => "EXISTS (SELECT 1 FROM live_snapshots s WHERE s.system = p.system AND s.node = p.node AND s.ts >= now() - make_interval(secs => %s))"
  end.
Definition clause_params (c : clause) : list value :=
  match c with
  | OfSystem v | OfUser v | OfCategory v | OfPresence v => [v]
  | OfNode v => [v; v]
  | IdleAtLeast n | Fresh n => [val_of n]
  | IsUserProcess | HasUser => []
  end.
Definition truth (v : value) : bool := match v with VBool b => b | _ => false end.
Definition clause_holds (p : row_t) (c : clause) : bool :=
  match c with
  | OfSystem v => sql_eq (column_of "system" p) v
  | IsUserProcess => truth (column_of "is_user_process" p)
  | HasUser => negb (is_none (column_of "username" p))
  | OfUser v => sql_eq (column_of "username" p) v
  | OfNode v => sql_eq (column_of "node" p) v || sql_eq (matched_label p) v
  | OfCategory v => sql_eq (column_of "category" p) v
  | OfPresence v => sql_eq (column_of "owner_presence" p) v
  | IdleAtLeast n => sql_eq (column_of "cpu_state" p) (VStr "idle") && at_least (column_of "idle_for_sec" p) (val_of n)
  | Fresh n => fresh n p
  end.
Definition where_holds (cs : list clause) (p : row_t) : bool := forallb (clause_holds p) cs.
End Tables.

Definition when_some {A} (f : A -> clause) (o : option A) : list clause := match o with Some v => [f v] | None => [] end.

(** ** Order and limit *)

Definition _PROCESS_SORTS : list (string * string) :=
  [("cpu", "cpu_seconds"); ("rss", "rss_kb"); ("idle", "idle_for_sec"); ("threads", "threads"); ("gpu", "gpu_mem_mb")].
Definition _USER_SORTS : list (string * string) :=
  [("rss", "rss_kb"); ("cpu", "cpu_seconds"); ("procs", "processes"); ("gpu", "gpu_mem_mb"); ("idle", "idle_processes")].

Record order := Order { by_column : string; ascending : bool }.
(** [repr] of plain text, and of the sorted keys *)
Definition quoted (s : string) : string := "'" +:+ s +:+ "'".
Definition sort_key_le (a b : string) : Prop := String.le a b.
#[export] Instance sort_key_le_dec : RelDecision sort_key_le.
Proof. intros a b. unfold sort_key_le. apply _. Defined.
Definition sorted_keys (sorts : list (string * string)) : list string := merge_sort sort_key_le (map fst sorts).
Definition unknown_sort (sorts : list (string * string)) (sort : string) : exn :=
  ValueError ("unknown sort " +:+ quoted sort +:+ "; expected one of [" +:+ joined ", " (map quoted (sorted_keys sorts)) +:+ "]").
Definition _order (sorts : list (string * string)) (sort : string) (reverse : bool) : res order :=
  match dget sort sorts with
  | Some c => Ok (Order c reverse)
  | None => Raise (unknown_sort sorts sort)
  end.
Example unknown_sort_ex : _order _USER_SORTS "x" false
  = Raise (ValueError "unknown sort 'x'; expected one of ['cpu', 'gpu', 'idle', 'procs', 'rss']").
Proof. vm_compute. reflexivity. Qed.
Definition double_quote : string := String "034" "".
Definition order_text (o : order) : string :=
  double_quote +:+ by_column o +:+ double_quote +:+ (if ascending o then " ASC" else " DESC") +:+ " NULLS LAST".

Definition _limit (limit : option Z) : string * list value :=
  match limit with None => ("", []) | Some n => (" LIMIT %s", [VInt n]) end.
Definition limited {A} (limit : option Z) (rows : list A) : list A :=
  match limit with None => rows | Some n => firstn (Z.to_nat n) rows end.

(** [NULLS LAST]; two values that are not apart leave the order to the rest. *)
Definition before (asc : bool) (a b : value) : option bool :=
  match num_of a, num_of b with
  | Some m, Some n => if num_ltb m n then Some asc else if num_ltb n m then Some (negb asc) else None
  | Some _, None => Some true
  | None, Some _ => Some false
  | None, None => None
  end.
Definition text_before `{Collation} (a b : value) : option bool :=
  match a, b with
  | VStr s, VStr t => if decide (s = t) then None else Some (collate s t)
  | VStr _, _ => Some true
  | _, VStr _ => Some false
  | _, _ => None
  end.
(** Lexicographic: the first that decides, and what is left is equal. *)
Definition first_of (l : list (option bool)) : bool := default true (foldr (fun o r => match o with Some b => Some b | None => r end) None l).

(** ** The views *)

(** A query as it is sent. *)
Record statement := Statement { st_text : string; st_params : list value }.

Section Views.
Context {CO : Collation} {FS : FloatSum} (d : database) (now : datetime).

(** The rows a sort leaves: by its column, then by [also] *)
Definition row_le (o : order) (also : dict -> dict -> list (option bool)) (a b : dict) : Prop :=
  first_of (before (ascending o) (dget_or_none (by_column o) a) (dget_or_none (by_column o) b) :: also a b) = true.
#[export] Instance row_le_dec o also : RelDecision (row_le o also).
Proof. intros a b. unfold row_le. apply _. Defined.
Definition by_text (c : string) (a b : dict) : option bool := text_before (dget_or_none c a) (dget_or_none c b).
Definition by_number (c : string) (a b : dict) : option bool := before true (dget_or_none c a) (dget_or_none c b).

(** *** [stale_process_nodes] *)
Definition stale_text (node : option value) : string :=
  "SELECT DISTINCT COALESCE(ln.label, n.label, p.node) AS label FROM live_processes p"
  +:+ " LEFT JOIN live_nodes ln ON ln.system = p.system AND ln.node = p.node"
  +:+ " LEFT JOIN nodes n ON n.system = p.system AND n.node = p.node WHERE p.system = %s AND NOT "
  +:+ clause_text (Fresh (NInt 0))
  +:+ match node with Some _ => " AND (p.node = %s OR COALESCE(ln.label, n.label) = %s)" | None => "" end
  +:+ " ORDER BY label".
Definition stale_statement (system : value) (max_age : num) (node : option value) : statement :=
  Statement (stale_text node) ([system; val_of max_age] ++ match node with Some v => [v; v] | None => [] end).

Definition text_of_value (v : value) : string := match v with VStr s => s | _ => "" end.
Definition label_le (a b : string) : Prop := collate a b = true.
#[export] Instance label_le_dec : RelDecision label_le.
Proof. intros a b. unfold label_le. apply _. Defined.

Definition stale_process_nodes (system : value) (max_age : num) (node : option value) : list string :=
  merge_sort label_le (remove_dups (map (fun p => text_of_value (label_of d p))
    (filter (fun p => where_holds d now (OfSystem system :: when_some OfNode node) p && negb (fresh d now max_age p) = true)
       (rows_of d "live_processes")))).

(** *** [processes] *)
Definition process_where (system : value) (user node category : option value) (user_only : bool)
    (idle_min : option num) (presence : option value) (max_age : option num) : list clause :=
  OfSystem system :: (if user_only then [IsUserProcess] else [])
  ++ when_some OfUser user ++ when_some OfNode node ++ when_some OfCategory category ++ when_some OfPresence presence
  ++ when_some IdleAtLeast idle_min ++ when_some Fresh max_age.

Definition process_text (cs : list clause) (o : order) (limit : option Z) : string :=
  "SELECT p.node, COALESCE(ln.label, n.label, p.node) AS label, p.username, p.pid,"
  +:+ " p.category, p.activity, p.cpu_seconds, p.rss_kb, p.gpu_mem_mb, p.threads, p.state,"
  +:+ " p.cpu_state, p.idle_for_sec, p.idle_for_is_lower_bound, p.idle_bucket,"
  +:+ " p.owner_presence, p.cmdline, p.ts FROM live_processes p"
  +:+ " LEFT JOIN live_nodes ln ON ln.system = p.system AND ln.node = p.node"
  +:+ " LEFT JOIN nodes n ON n.system = p.system AND n.node = p.node WHERE "
  +:+ joined " AND " (map clause_text cs) +:+ " ORDER BY " +:+ order_text o +:+ ", p.node, p.pid" +:+ (_limit limit).1.
Definition sent_params (cs : list clause) (limit : option Z) : list value := concat (map clause_params cs) ++ (_limit limit).2.

Definition process_columns : list string :=
  ["username"; "pid"; "category"; "activity"; "cpu_seconds"; "rss_kb"; "gpu_mem_mb"; "threads"; "state"; "cpu_state";
   "idle_for_sec"; "idle_for_is_lower_bound"; "idle_bucket"; "owner_presence"; "cmdline"; "ts"].
Definition process_row (p : row_t) : dict :=
  ("node", column_of "node" p) :: ("label", label_of d p) :: map (fun c => (c, column_of c p)) process_columns.
Definition selected (cs : list clause) : list dict :=
  map process_row (filter (fun p => where_holds d now cs p = true) (rows_of d "live_processes")).

Definition processes_statement (system : value) (user node category : option value) (user_only : bool)
    (idle_min : option num) (presence : option value) (sort : string) (reverse : bool) (limit : option Z)
    (max_age : option num) : res statement :=
  o ← _order _PROCESS_SORTS sort reverse;
  let cs := process_where system user node category user_only idle_min presence max_age in
  Ok (Statement (process_text cs o limit) (sent_params cs limit)).

Definition processes (system : value) (user node category : option value) (user_only : bool)
    (idle_min : option num) (presence : option value) (sort : string) (reverse : bool) (limit : option Z)
    (max_age : option num) : res (list dict) :=
  o ← _order _PROCESS_SORTS sort reverse;
  let cs := process_where system user node category user_only idle_min presence max_age in
  Ok (limited limit (merge_sort (row_le o (fun a b => [by_text "node" a b; by_number "pid" a b])) (selected cs))).

(** *** [users] *)
Definition users_where (system : value) (node category : option value) (max_age : option num) : list clause :=
  [OfSystem system; IsUserProcess; HasUser] ++ when_some OfNode node ++ when_some OfCategory category ++ when_some Fresh max_age.

Definition users_text (cs : list clause) (o : order) (limit : option Z) : string :=
  "WITH p AS (SELECT p.username, p.node, p.category, p.cpu_seconds, p.rss_kb,"
  +:+ "                  p.gpu_mem_mb, p.cpu_state           FROM live_processes p"
  +:+ "           LEFT JOIN live_nodes ln ON ln.system = p.system AND ln.node = p.node"
  +:+ "           LEFT JOIN nodes n ON n.system = p.system AND n.node = p.node           WHERE "
  +:+ joined " AND " (map clause_text cs)
  +:+ "), cat AS (SELECT DISTINCT ON (username) username, category AS top_category"
  +:+ "         FROM (SELECT username, category, sum(COALESCE(rss_kb, 0)) AS rss"
  +:+ "               FROM p GROUP BY username, category) s         ORDER BY username, rss DESC, category NULLS LAST)"
  +:+ " SELECT username, count(*) AS processes, count(DISTINCT node) AS nodes,"
  +:+ " sum(cpu_seconds) AS cpu_seconds, sum(rss_kb)::bigint AS rss_kb, sum(gpu_mem_mb) AS gpu_mem_mb,"
  +:+ " count(*) FILTER (WHERE cpu_state = 'idle') AS idle_processes,"
  +:+ " (SELECT top_category FROM cat WHERE cat.username = p.username) AS top_category"
  +:+ " FROM p GROUP BY username ORDER BY " +:+ order_text o +:+ ", username" +:+ (_limit limit).1.

(** A column of text. *)
Definition text_of (v : value) : option string := match v with VStr s => Some s | _ => None end.
Definition text_in (c : string) (r : dict) : option string := text_of (dget_or_none c r).

(** [sum] of whole numbers: of none that is not NULL it is NULL. *)
Definition ints_of (c : string) (rows : list dict) : list Z :=
  omap (fun r => match dget_or_none c r with VInt z => Some z | _ => None end) rows.
Definition sum_ints (c : string) (rows : list dict) : value :=
  match ints_of c rows with [] => VNone | l => VInt (foldr Z.add 0 l) end.
Definition count_rows (rows : list dict) : value := VInt (Z.of_nat (length rows)).

Definition categories_of (rows : list dict) : list (option string) := remove_dups (map (text_in "category") rows).
Definition rss_in (rows : list dict) (category : option string) : Z :=
  foldr Z.add 0 (ints_of "rss_kb" (filter (fun r => text_in "category" r = category) rows)).
(** The first of [ORDER BY rss DESC, category NULLS LAST] *)
Definition category_le (rows : list dict) (a b : option string) : Prop :=
  first_of [before false (VInt (rss_in rows a)) (VInt (rss_in rows b)); text_before (val_opt VStr a) (val_opt VStr b)] = true.
#[export] Instance category_le_dec rows : RelDecision (category_le rows).
Proof. intros a b. unfold category_le. apply _. Defined.
Definition top_category (rows : list dict) : value :=
  val_opt VStr (mjoin (head (merge_sort (category_le rows) (categories_of rows)))).

Definition of_user (username : string) (rows : list dict) : list dict :=
  filter (fun r => text_in "username" r = Some username) rows.
Definition user_row (rows : list dict) (username : string) : dict :=
  let own := of_user username rows in
  [("username", VStr username); ("processes", count_rows own);
   ("nodes", VInt (Z.of_nat (length (remove_dups (omap (text_in "node") own)))));
   ("cpu_seconds", sum_floats (map (dget_or_none "cpu_seconds") own)); ("rss_kb", sum_ints "rss_kb" own);
   ("gpu_mem_mb", sum_floats (map (dget_or_none "gpu_mem_mb") own));
   ("idle_processes", count_rows (filter (fun r => text_in "cpu_state" r = Some "idle") own));
   ("top_category", top_category own)].

Definition users_statement (system : value) (node category : option value) (sort : string) (reverse : bool)
    (limit : option Z) (max_age : option num) : res statement :=
  o ← _order _USER_SORTS sort reverse;
  let cs := users_where system node category max_age in
  Ok (Statement (users_text cs o limit) (sent_params cs limit)).

Definition users (system : value) (node category : option value) (sort : string) (reverse : bool)
    (limit : option Z) (max_age : option num) : res (list dict) :=
  o ← _order _USER_SORTS sort reverse;
  let rows := selected (users_where system node category max_age) in
  let grouped := map (user_row rows) (remove_dups (omap (text_in "username") rows)) in
  Ok (limited limit (merge_sort (row_le o (fun a b => [by_text "username" a b])) grouped)).

(** *** [heartbeat] and [node_states] *)
Definition heartbeat_columns : list string := ["system"; "collector_host"; "version"; "started_at"; "last_seen"; "status"].
Definition heartbeat (system : string) : option dict :=
  r ← table_of "collector_heartbeat" d !! [KText system];
  Some (map (fun c => (c, column_of c r)) heartbeat_columns).

Definition state_columns : list string :=
  ["session_state"; "updated_at"; "last_census_at"; "load1"; "mem_used_kb"; "mem_total_kb"; "procs_total"; "probe_version"; "boot_id"].
Definition processes_on (ln : row_t) : list row_t :=
  filter (fun p => truth (column_of "is_user_process" p)
     && sql_eq (column_of "system" p) (column_of "system" ln) && sql_eq (column_of "node" p) (column_of "node" ln) = true)
    (rows_of d "live_processes").
Definition node_state_row (ln : row_t) : dict :=
  ("node", column_of "node" ln)
  :: ("label", coalesce [column_of "label" ln; column_of "label" (joined_to d "nodes" ln); column_of "node" ln])
  :: map (fun c => (c, column_of c ln)) state_columns
  ++ [("user_processes", VInt (Z.of_nat (length (processes_on ln)))); ("users", VInt (Z.of_nat (length (remove_dups (omap (fun p => text_of (column_of "username" p)) (processes_on ln))))))].
Definition state_le (a b : dict) : Prop := first_of [by_text "label" a b; by_text "node" a b] = true.
#[export] Instance state_le_dec : RelDecision state_le.
Proof. intros a b. unfold state_le. apply _. Defined.
Definition node_states (system : value) : list dict :=
  merge_sort state_le (map node_state_row (filter (fun ln => sql_eq (column_of "system" ln) system = true) (rows_of d "live_nodes"))).
End Views.

(** ** Placeholders *)

(** The [%s] of a text. *)
Fixpoint marks_in (s : string) : nat :=
  match s with
  | "" => 0
  | String a s1 =>
      match s1 with
      | String b s2 => if bool_decide (a = "%"%char) && bool_decide (b = "s"%char) then S (marks_in s2) else marks_in s1
      | "" => 0
      end
  end.
(** It does not end where a placeholder could begin. *)
Fixpoint closed_text (s : string) : bool :=
  match s with
  | "" => true
  | String a "" => negb (bool_decide (a = "%"%char))
  | String a s => closed_text s
  end.

Lemma marks_cons a b s :
  marks_in (String a (String b s)) = if bool_decide (a = "%"%char) && bool_decide (b = "s"%char) then S (marks_in s) else marks_in (String b s).
Proof. done. Qed.

Lemma marks_app s t : closed_text s = true -> marks_in (s +:+ t) = (marks_in s + marks_in t)%nat.
Proof.
  remember (String.length s) as n eqn:En. revert s En. induction (lt_wf n) as [n _ IH]. intros s -> Hc.
  destruct s as [|a [|b s]]; [done | |].
  - rewrite string_app_cons, string_app_nil_l. cbn in Hc |- *. apply negb_true_iff in Hc. destruct t as [|b t]; [done|]. by rewrite Hc.
  - rewrite !string_app_cons, !marks_cons. destruct (bool_decide (a = _) && bool_decide (b = _)) eqn:E.
    + rewrite (IH (String.length s)); [done | cbn; lia | done |]. destruct s; [done | exact Hc].
    + rewrite <- (string_app_cons b s t). rewrite (IH (String.length (String b s))); [done | cbn; lia | done | exact Hc].
Qed.

Lemma closed_app s t : closed_text s = true -> closed_text t = true -> closed_text (s +:+ t) = true.
Proof.
  intros Hs Ht. induction s as [|a s IH]; [by rewrite string_app_nil_l|]. rewrite string_app_cons.
  destruct s as [|b s]; [rewrite string_app_nil_l; by destruct t|]. rewrite string_app_cons in *. by apply IH.
Qed.

Lemma marks_joined l : Forall (fun s => closed_text s = true) l ->
  marks_in (joined " AND " l) = sum_list_with marks_in l /\ closed_text (joined " AND " l) = true.
Proof.
  intros H. induction H as [|x l Hx Hl IH]; [done|]. destruct Hl as [|y l Hy Hl].
  - change (joined " AND " [x]) with x. cbn. split; [lia | done].
  - rewrite joined_cons. destruct IH as [E C]. split.
    + rewrite marks_app, (marks_app " AND "), E by done. done.
    + apply closed_app; [done|]. by apply closed_app.
Qed.

Lemma clause_closed cs : Forall (fun s => closed_text s = true) (map clause_text cs).
Proof. apply Forall_map, Forall_forall. intros c _. by destruct c. Qed.

Lemma clause_marks cs : sum_list_with marks_in (map clause_text cs) = length (concat (map clause_params cs)).
Proof. induction cs as [|c cs IH]; [done|]. cbn [map sum_list_with concat]. rewrite IH, length_app. by destruct c. Qed.

Lemma order_closed sorts sort reverse o :
  forallb (fun kv => closed_text kv.2 && bool_decide (marks_in kv.2 = 0%nat)) sorts = true ->
  _order sorts sort reverse = Ok o -> marks_in (order_text o) = 0%nat /\ closed_text (order_text o) = true.
Proof.
  intros Hs. unfold _order. destruct (dget sort sorts) as [c|] eqn:E; [|done]. intros [= <-].
  apply dget_elem in E. rewrite forallb_forall in Hs. pose proof (Hs _ (proj1 (list_elem_of_In _ _) E)) as H. cbn in H. apply andb_prop in H as [Hc Hm%bool_decide_eq_true].
  unfold order_text. cbn [by_column ascending]. split.
  - rewrite (marks_app double_quote), (marks_app c), Hm by done. by destruct reverse.
  - do 2 (apply closed_app; [done|]). by destruct reverse.
Qed.

(** ** Facts about conditions *)

Section Facts.
Context {CO : Collation} {FS : FloatSum} (d : database) (now : datetime).
#[local] Abbreviation rows := (rows_of d "live_processes").

Lemma where_app cs cs' p : where_holds d now (cs ++ cs') p = where_holds d now cs p && where_holds d now cs' p.
Proof. apply forallb_app. Qed.

Lemma where_cons c cs p : where_holds d now (c :: cs) p = clause_holds d now p c && where_holds d now cs p.
Proof. done. Qed.

Lemma where_some {A} (f : A -> clause) v p : where_holds d now (when_some f (Some v)) p = clause_holds d now p (f v).
Proof. cbn. apply andb_true_r. Qed.

Lemma process_where_age system user node category user_only idle presence max_age :
  process_where system user node category user_only idle presence max_age
  = process_where system user node category user_only idle presence None ++ when_some Fresh max_age.
Proof. unfold process_where. cbn [when_some]. rewrite app_nil_r, <- app_comm_cons. f_equal. by rewrite <- !app_assoc. Qed.

(** The conditions of [stale_process_nodes] are among them. *)
Lemma process_where_node system user node category user_only idle presence max_age p :
  where_holds d now (process_where system user node category user_only idle presence max_age) p = true ->
  where_holds d now (OfSystem system :: when_some OfNode node) p = true.
Proof.
  unfold process_where. rewrite app_comm_cons, !where_app, !andb_true_iff. intros (H1 & _ & Hn & _).
  cbn in H1. apply andb_prop in H1 as [H1 _]. change (clause_holds d now p (OfSystem system) && where_holds d now (when_some OfNode node) p = true).
  by rewrite Hn, andb_true_r.
Qed.

Lemma elem_limited_all {A} (l : list A) : limited None l = l.
Proof. done. Qed.

Lemma elem_selected cs r : r ∈ selected d now cs <-> exists p, p ∈ rows /\ where_holds d now cs p = true /\ r = process_row d p.
Proof.
  unfold selected. rewrite list_elem_of_fmap. split.
  - intros (p & -> & [Hw Hp]%list_elem_of_filter). by exists p.
  - intros (p & Hp & Hw & ->). exists p. split; [done|]. by apply list_elem_of_filter.
Qed.

Lemma processes_rows system user node category user_only idle presence sort reverse max_age rs :
  processes d now system user node category user_only idle presence sort reverse None max_age = Ok rs ->
  rs ≡ₚ selected d now (process_where system user node category user_only idle presence max_age).
Proof.
  unfold processes. intros H. ok_step H as (o & _ & H). injection H as <-. cbn [limited]. apply merge_sort_Permutation.
Qed.

Definition row_label (r : dict) : string := text_of_value (dget_or_none "label" r).
Lemma row_label_of p : row_label (process_row d p) = text_of_value (label_of d p).
Proof. done. Qed.

Lemma elem_stale system max_age node l : l ∈ stale_process_nodes d now system max_age node <->
  exists p, p ∈ rows /\ where_holds d now (OfSystem system :: when_some OfNode node) p = true /\
    fresh d now max_age p = false /\ text_of_value (label_of d p) = l.
Proof.
  unfold stale_process_nodes. rewrite merge_sort_Permutation, elem_of_remove_dups, list_elem_of_fmap. split.
  - intros (p & -> & [[H1 H2%negb_true_iff]%andb_prop Hp]%list_elem_of_filter). by exists p.
  - intros (p & Hp & H1 & H2 & <-). exists p. split; [done|]. apply list_elem_of_filter. split; [by rewrite H1, H2 | done].
Qed.

(** ** Properties *)


Lemma limit_marks limit : marks_in (_limit limit).1 = length (_limit limit).2.
Proof. by destruct limit. Qed.

Lemma process_marks sort reverse cs o limit : _order _PROCESS_SORTS sort reverse = Ok o ->
  marks_in (process_text cs o limit) = length (sent_params cs limit).
Proof.
  intros Ho. destruct (order_closed _PROCESS_SORTS sort reverse o eq_refl Ho) as [Hm Hc].
  destruct (marks_joined (map clause_text cs) (clause_closed cs)) as [Hj Hjc].
  unfold process_text, sent_params. rewrite length_app, <- clause_marks, <- Hj, <- limit_marks.
  rewrite !marks_app by (exact Hjc || exact Hc || reflexivity).
  repeat match goal with |- context [marks_in (String ?a ?s)] =>
    let n := eval vm_compute in (marks_in (String a s)) in change (marks_in (String a s)) with n end.
  rewrite Hm. lia.
Qed.

(** What distinguishes two choices of a filter for the text: whether there is one. *)
Definition given {A} (o : option A) : bool := bool_decide (is_Some o).

Lemma when_text {A} (f : A -> clause) (o o' : option A) :
  (forall a b, clause_text (f a) = clause_text (f b)) -> given o = given o' ->
  map clause_text (when_some f o) = map clause_text (when_some f o').
Proof. intros Hf. destruct o, o'; cbn; try done. intros _. by rewrite (Hf a a0). Qed.

Lemma where_text system user node category user_only idle presence max_age system' user' node' category' idle' presence' max_age' :
  given user' = given user -> given node' = given node -> given category' = given category -> given idle' = given idle ->
  given presence' = given presence -> given max_age' = given max_age ->
  map clause_text (process_where system' user' node' category' user_only idle' presence' max_age')
  = map clause_text (process_where system user node category user_only idle presence max_age).
Proof.
  intros. unfold process_where. cbn [map]. rewrite !map_app.
  by rewrite (when_text OfUser user' user), (when_text OfNode node' node), (when_text OfCategory category' category),
    (when_text OfPresence presence' presence), (when_text IdleAtLeast idle' idle), (when_text Fresh max_age' max_age).
Qed.


(** ** The totals of a user *)

Lemma user_column p name :
  clause_holds d now p (OfUser (VStr name))
  = clause_holds d now p HasUser && bool_decide (text_of (column_of "username" p) = Some name).
Proof.
  cbn. unfold sql_eq. destruct (column_of "username" p) as [| | | |s| | | |] eqn:E; cbn; try done.
  destruct (decide (s = name)) as [->|Hn]; [by rewrite !bool_decide_true | by rewrite !bool_decide_false by congruence].
Qed.

Lemma where_of_user system node category max_age name p :
  where_holds d now (process_where system (Some (VStr name)) node category true None None max_age) p
  = where_holds d now (users_where system node category max_age) p && bool_decide (text_of (column_of "username" p) = Some name).
Proof.
  unfold process_where, users_where.  cbn [app when_some]. rewrite !where_cons, !where_app, user_column.
  destruct (clause_holds d now p HasUser), (bool_decide _), (where_holds d now (when_some OfNode node) p),
    (where_holds d now (when_some OfCategory category) p), (where_holds d now (when_some Fresh max_age) p);
    by rewrite ?andb_true_r, ?andb_false_r.
Qed.

Lemma of_user_selected system node category max_age name :
  of_user name (selected d now (users_where system node category max_age))
  = selected d now (process_where system (Some (VStr name)) node category true None None max_age).
Proof.
  unfold of_user, selected. induction rows as [|p l IH]; [done|]. rewrite !filter_cons, where_of_user.
  destruct (where_holds d now (users_where system node category max_age) p).
  - rewrite decide_True by done. cbn [map andb]. rewrite filter_cons. unfold text_in at 1.
    change (dget_or_none "username" (process_row d p)) with (column_of "username" p).
    destruct (decide (text_of (column_of "username" p) = Some name)) as [E|E].
    + rewrite bool_decide_true, decide_True by done. cbn [map]. by rewrite IH.
    + rewrite bool_decide_false, decide_False by done. by rewrite IH.
  - cbn [andb]. by rewrite decide_False.
Qed.

Lemma ints_of_perm c l l' : l ≡ₚ l' -> sum_ints c l = sum_ints c l'.
Proof.
  intros H. unfold sum_ints. assert (Hp : ints_of c l ≡ₚ ints_of c l') by (unfold ints_of; by rewrite H).
  assert (Hs : foldr Z.add 0 (ints_of c l) = foldr Z.add 0 (ints_of c l')).
  { induction Hp; cbn; lia. }
  destruct (ints_of c l) as [|x m], (ints_of c l') as [|y m']; try done.
  - by apply Permutation_nil_cons in Hp.
  - symmetry in Hp. by apply Permutation_nil_cons in Hp.
  - by rewrite Hs.
Qed.

(** The totals of the users are those of their processes: under the same filters, a user is
    listed once, and exactly when the view of that user's processes is not empty; the counts of
    processes and of idle ones and the memory are those of that view. *)
Theorem users_agree system node category max_age sort reverse us :
  users d now system node category sort reverse None max_age = Ok us ->
  NoDup (map (dget_or_none "username") us) /\
  forall name ps sort' reverse',
    processes d now system (Some (VStr name)) node category true None None sort' reverse' None max_age = Ok ps ->
    (VStr name ∈ map (dget_or_none "username") us <-> ps <> []) /\
    forall u, u ∈ us -> dget_or_none "username" u = VStr name ->
      dget_or_none "processes" u = count_rows ps /\ dget_or_none "rss_kb" u = sum_ints "rss_kb" ps /\
      dget_or_none "idle_processes" u = count_rows (filter (fun r => text_in "cpu_state" r = Some "idle") ps).
Proof.
  intros H. unfold users in H. ok_step H as (o & _ & H). injection H as <-. cbn [limited].
  set (rs := selected d now (users_where system node category max_age)).
  assert (Hus : map (dget_or_none "username") (map (user_row rs) (remove_dups (omap (text_in "username") rs)))
                = map VStr (remove_dups (omap (text_in "username") rs))) by by rewrite map_map.
  split.
  - rewrite merge_sort_Permutation, Hus. apply NoDup_fmap; [by intros a b [= ->] | apply NoDup_remove_dups].
  - intros name ps sort' reverse' Hps%processes_rows. rewrite <- of_user_selected in Hps. fold rs in Hps. split.
    + rewrite merge_sort_Permutation, Hus. split.
      * intros (x & [= <-] & Hx)%list_elem_of_fmap. apply (proj1 (elem_of_remove_dups _ _)) in Hx. apply list_elem_of_omap in Hx as (r & Hr & Ex).
        intros ->. apply Permutation_nil in Hps. apply (not_elem_of_nil r). rewrite <- Hps. by apply list_elem_of_filter.
      * intros Hne. destruct ps as [|r ps]; [done|]. assert (Hr : r ∈ of_user name rs) by (rewrite <- Hps; set_solver).
        apply list_elem_of_filter in Hr as [Er Hr]. apply list_elem_of_fmap_2, elem_of_remove_dups, list_elem_of_omap. by exists r.
    + intros u Hu Eu. rewrite merge_sort_Permutation in Hu. apply list_elem_of_fmap in Hu as (x & -> & _).
      injection Eu as ->. split_and!.
      * change (count_rows (of_user name rs) = count_rows ps). unfold count_rows. by rewrite Hps.
      * change (sum_ints "rss_kb" (of_user name rs) = sum_ints "rss_kb" ps). symmetry. by apply ints_of_perm.
      * change (count_rows (filter (fun r => text_in "cpu_state" r = Some "idle") (of_user name rs))
          = count_rows (filter (fun r => text_in "cpu_state" r = Some "idle") ps)). unfold count_rows. by rewrite Hps.
Qed.
End Facts.

(** ** Two nodes, one of them silent *)

#[local] Instance bytes_collation : Collation := {| collate a b := bool_decide (String.le a b) |}.
#[local] Instance demo_sum : FloatSum := {| sum_floats _ := VNone |}.

Definition demo_now : datetime := utc 1700000000000000.
Definition demo_process (node username : string) (pid rss : Z) (cpu_state : string) : row_t :=
  list_to_map [("system", Scalar (VStr "s")); ("node", Scalar (VStr node)); ("pid", Scalar (VInt pid));
               ("username", Scalar (VStr username)); ("is_user_process", Scalar (VBool true)); ("rss_kb", Scalar (VInt rss));
               ("category", Scalar (VStr "editor")); ("cpu_state", Scalar (VStr cpu_state))].
Definition demo_snapshot (node : string) (age : Z) : row_t :=
  list_to_map [("system", Scalar (VStr "s")); ("node", Scalar (VStr node)); ("ts", Scalar (VTime (add_us demo_now (- age * second_us))))].
Definition demo_key (node : string) : key := [KText "s"; KText node].
Definition demo_processes : table :=
  list_to_map [(demo_key "a" ++ [KInt 1], demo_process "a" "ann" 1 100 "active"); (demo_key "a" ++ [KInt 2], demo_process "a" "bob" 2 300 "idle");
               (demo_key "b" ++ [KInt 3], demo_process "b" "ann" 3 50 "idle")].
Definition demo_db : database :=
  Db (<["live_processes" := demo_processes]> (<["live_snapshots" := list_to_map [(demo_key "a", demo_snapshot "a" 10); (demo_key "b", demo_snapshot "b" 500)]]>
      (<["live_nodes" := list_to_map [(demo_key "b", list_to_map [("label", Scalar (VStr "login-b"))])]]> ∅))) [].

Definition demo_view (max_age : option num) : list dict :=
  match processes demo_db demo_now (VStr "s") None None None true None None "rss" false None max_age with Ok l => l | Raise _ => [] end.

Example views_demo :
  map (dget_or_none "pid") (demo_view None) = [VInt 2; VInt 1; VInt 3] /\
  map (dget_or_none "pid") (demo_view (Some (NInt 120))) = [VInt 2; VInt 1] /\
  stale_process_nodes demo_db demo_now (VStr "s") (NInt 120) None = ["login-b"].
Proof. split_and!; vm_compute; reflexivity. Qed.


Definition demo_users : list dict :=
  match users demo_db demo_now (VStr "s") None None "rss" false None None with Ok l => l | Raise _ => [] end.
Example users_demo : map (fun u => (dget_or_none "username" u, dget_or_none "rss_kb" u)) demo_users = [(VStr "bob", VInt 300); (VStr "ann", VInt 150)].
Proof. vm_compute. reflexivity. Qed.

Lemma users_agree_witness :
  NoDup (map (dget_or_none "username") demo_users) /\
  forall name ps sort' reverse',
    processes demo_db demo_now (VStr "s") (Some (VStr name)) None None true None None sort' reverse' None None = Ok ps ->
    (VStr name ∈ map (dget_or_none "username") demo_users <-> ps <> []) /\
    forall u, u ∈ demo_users -> dget_or_none "username" u = VStr name ->
      dget_or_none "processes" u = count_rows ps /\ dget_or_none "rss_kb" u = sum_ints "rss_kb" ps /\
      dget_or_none "idle_processes" u = count_rows (filter (fun r => text_in "cpu_state" r = Some "idle") ps).
Proof. apply (users_agree demo_db demo_now (VStr "s") None None None "rss" false). reflexivity. Defined.
