(* ===== verification/Migrate.v ===== *)
(** * Schema migrations

    [node_monitor/database/migrate.py].  A connection is what its session sees of the schema,
    the state to return to when a transaction is open, and a script of the server's replies.
    [pg_advisory_lock] waits, so that the runs of [migrate] come one after the other; what a
    migration's SQL does is that it was run. *)

From Stdlib Require Import ZArith Lia.
From stdpp Require Import pretty.
From S2P Require Import Prelude PyFloat PyTime PyVal Text.

#[local] Open Scope string_scope.
#[local] Open Scope list_scope.
#[local] Open Scope Z_scope.
#[local] Open Scope py_scope.

(** ** Finding the migrations *)

Abbreviation migration := (Z * string)%type.

(** A character of [\w], of ASCII. *)
Definition is_name_char (c : ascii) : bool :=
  let n := N_of_ascii c in
  ((48 <=? n) && (n <=? 57) || (65 <=? n) && (n <=? 90) || (97 <=? n) && (n <=? 122) || (n =? 95))%N.

(** [_FILENAME]: four digits, an underscore, [\w+] and [.sql], at the end or before a newline. *)
Definition stem_of (s : string) : option string :=
  let s := if bool_decide (drop_chars (String.length s - 1) s = String newline "") then prefix_of (String.length s - 1) s else s in
  let n := (String.length s - 4)%nat in
  if bool_decide (drop_chars n s = ".sql") then Some (prefix_of n s) else None.
Definition version_of (name : string) : option Z :=
  '(v, rest) ← unpad 4 0 name; rest ← expect "_"%char rest; stem ← stem_of rest;
  if negb (bool_decide (stem = "")) && forall_chars is_name_char stem then Some v else None.

(** [_discover], of the names in the package in the order they are listed *)
Definition version_le (a b : migration) : Prop := a.1 <= b.1.
#[export] Instance version_le_dec : RelDecision version_le.
Proof. intros a b. unfold version_le. apply _. Defined.

Fixpoint discover_from (names : list string) (found : list migration) : res (list migration) :=
  match names with
  | [] => Ok found
  | name :: names =>
      match version_of name with
      | None => discover_from names found
      | Some v =>
          if v =? 0 then Raise (RuntimeError ("migration " +:+ name +:+ ": versions start at 0001"))
          else match dget v found with
               | Some other => Raise (RuntimeError ("migrations " +:+ other +:+ " and " +:+ name +:+ " share a version"))
               | None => discover_from names (dset v name found)
               end
      end
  end.
Definition _discover (names : list string) : res (list migration) :=
  found ← discover_from names []; Ok (merge_sort version_le found).

(** The files of [database/migrations]. *)
Definition package_files : list string :=
  ["__init__.py"; "0001_initial.sql"; "0002_user_maps_and_event_key.sql"].
Example migrations_of_package :
  _discover package_files = Ok [(1, "0001_initial.sql"); (2, "0002_user_maps_and_event_key.sql")].
Proof. vm_compute. reflexivity. Qed.

(** ** A connection *)

(** The table [schema_migrations], if it exists, and the SQL files run, in order. *)
Record schema := Schema { versions : option (list migration); ran : list string }.

(** The server carries a request out; or fails it, and the connection may be closed; or the
    connection is lost after it was carried out. *)
Inductive reply := Carried | Failed (e : exn) (closes : bool) | Lost.

Record mconn := MConn {
  m_data : schema;
  m_saved : option schema;
  autocommit : bool;
  closed : bool;
  m_locked : bool;
  replies : list reply;
}.
Definition set_m_data d c := MConn d (m_saved c) (autocommit c) (closed c) (m_locked c) (replies c).
Definition set_saved s c := MConn (m_data c) s (autocommit c) (closed c) (m_locked c) (replies c).
Definition set_autocommit b c := MConn (m_data c) (m_saved c) b (closed c) (m_locked c) (replies c).
Definition set_locked b c := MConn (m_data c) (m_saved c) (autocommit c) (closed c) b (replies c).
Definition set_replies l c := MConn (m_data c) (m_saved c) (autocommit c) (closed c) (m_locked c) l.

(** What other sessions see. *)
Definition committed (c : mconn) : schema := default (m_data c) (m_saved c).

(** The connection is gone: an open transaction is undone, a session's lock released. *)
Definition shut (c : mconn) : mconn := MConn (committed c) None (autocommit c) true false (replies c).

Definition lost_error : exn := PgError "OperationalError" true "" "connection lost".
Definition closed_error : exn := PgError "OperationalError" true "" "the connection is closed".
Definition in_transaction_error : exn := PgError "ProgrammingError" false "" "migrate needs a connection with no open transaction".

Abbreviation CM := (M mconn).

(** One request, with what it does when it is carried out. *)
Definition request {A} (f : mconn -> res A * mconn) : CM A := fun c =>
  if closed c then (Raise closed_error, c)
  else
    let c1 := set_replies (tail (replies c)) c in
    match head (replies c) with
    | Some (Failed e closes) => (Raise e, if closes then shut c1 else c1)
    | Some Lost => let '(_, c2) := f c1 in (Raise lost_error, shut c2)
    | _ => f c1
    end.

(** [conn.execute]: without autocommit the first statement opens a transaction. *)
Definition execute {A} (f : schema -> res (A * schema)) : CM A := fun c =>
  let c := if autocommit c || bool_decide (is_Some (m_saved c)) then c else set_saved (Some (m_data c)) c in
  request (fun c => match f (m_data c) with Ok (a, d) => (Ok a, set_m_data d c) | Raise e => (Raise e, c) end) c.

Definition rollback : CM unit := modify (fun c => set_saved None (set_m_data (committed c) c)).

(** [with conn.transaction(): body]: a transaction, or a savepoint inside an open one *)
Definition transaction {A} (body : CM A) : CM A := fun c =>
  match m_saved c with
  | None =>
      bind (request (fun c => (Ok tt, set_saved (Some (m_data c)) c)))
        (fun _ c => match body c with
                    | (Ok a, c) =>
                        let '(r, c) := request (fun c => (Ok a, set_saved None c)) c in
                        match r with Ok a => (Ok a, c) | Raise e => (Raise e, snd (rollback c)) end
                    | (Raise e, c) => (Raise e, snd (rollback c))
                    end) c
  | Some _ =>
      bind (request (fun c => (Ok tt, c)))
        (fun _ c => let before := m_data c in
                    match body c with
                    | (Ok a, c) => request (fun c => (Ok a, c)) c
                    | (Raise e, c) => (Raise e, if closed c then c else set_m_data before c)
                    end) c
  end.

(** [conn.autocommit = b] *)
Definition assign_autocommit (b : bool) : CM unit := fun c =>
  if closed c then (Raise closed_error, c)
  else if bool_decide (is_Some (m_saved c)) then (Raise in_transaction_error, c)
  else (Ok tt, set_autocommit b c).

(** [try: c finally: d]: an exception of [d] is what is raised. *)
Definition try_finally {A} (c : CM A) (d : CM unit) : CM A := fun s =>
  let '(r, s) := c s in
  match d s with
  | (Ok _, s) => (r, s)
  | (Raise e, s) => (Raise e, s)
  end.

(** ** The operations *)

Section Migrations.
Context (MIGRATIONS : list migration).

Definition REQUIRED_VERSION : Z := match last MIGRATIONS with Some m => m.1 | None => 0 end.

(** [coalesce(max(version), 0)] *)
Definition max_version (d : schema) : Z := foldr Z.max 0 (map fst (default [] (versions d))).

Definition current_version : CM Z := fun c =>
  let opened_here := negb (autocommit c) && bool_decide (m_saved c = None) in
  try_finally
    (let* exists_ := execute (fun d => Ok (bool_decide (is_Some (versions d)), d)) in
     if negb exists_ then ret 0
     else execute (fun d => match versions d with
                            | Some _ => Ok (max_version d, d)
                            | None => Raise (PgError "UndefinedTable" false "42P01" "schema_migrations")
                            end))
    (fun c => if opened_here && negb (closed c) then rollback c else (Ok tt, c)) c.

Definition out_of_date (version : Z) : exn :=
  SchemaOutOfDate ("schema version " +:+ pretty version +:+ ", need " +:+ pretty REQUIRED_VERSION
                   +:+ ": run `node-monitor database migrate`").
Definition check_schema : CM unit :=
  let* version := current_version in
  if version <? REQUIRED_VERSION then raise (out_of_date version) else ret tt.

Definition create_version_table (d : schema) : res (unit * schema) :=
  Ok (tt, Schema (Some (default [] (versions d))) (ran d)).
Definition select_versions (d : schema) : res (list Z * schema) := Ok (map fst (default [] (versions d)), d).
Definition run_sql (name : string) (d : schema) : res (unit * schema) := Ok (tt, Schema (versions d) (ran d ++ [name])).
Definition insert_version (m : migration) (d : schema) : res (unit * schema) :=
  match versions d with
  | None => Raise (PgError "UndefinedTable" false "42P01" "schema_migrations")
  | Some vs =>
      if bool_decide (m.1 ∈ map fst vs) then Raise (PgError "UniqueViolation" false "23505" "duplicate key value")
      else Ok (tt, Schema (Some (vs ++ [m])) (ran d))
  end.

Definition apply_one (m : migration) : CM unit :=
  transaction (execute (run_sql m.2) ;;; execute (insert_version m)).
Definition _apply_pending : CM (list Z) :=
  execute create_version_table ;;;
  let* done := execute select_versions in
  foldM (fun applied m =>
           if bool_decide (m.1 ∈ done) then ret applied
           else apply_one m ;;; ret (applied ++ [m.1])) [] MIGRATIONS.

Definition lock : CM unit := request (fun c => (Ok tt, set_locked true c)).
Definition unlock : CM unit := request (fun c => (Ok tt, set_locked false c)).

Definition migrate : CM (list Z) := fun c =>
  if bool_decide (is_Some (m_saved c)) then (Raise in_transaction_error, c)
  else
    let saved_autocommit := autocommit c in
    bind (assign_autocommit true) (fun _ =>
      try_finally
        (lock ;;;
         try_finally _apply_pending (fun c => if closed c then (Ok tt, c) else unlock c))
        (fun c => if closed c then (Ok tt, c) else assign_autocommit saved_autocommit c)) c.
End Migrations.

(** ** What a run of [migrate] does *)

(** The migrations a schema lacks, and a schema with some applied to it. *)
Definition applied_versions (d : schema) : list Z := map fst (default [] (versions d)).
Definition pending (ms : list migration) (d : schema) : list migration :=
  filter (fun m => m.1 ∉ applied_versions d) ms.
Definition extend (d : schema) (l : list migration) : schema :=
  Schema (Some (default [] (versions d) ++ l)) (ran d ++ map snd l).
(** The same, up to the creation of the table. *)
Definition holds_after (d : schema) (l : list migration) (d' : schema) : Prop :=
  default [] (versions d') = default [] (versions d) ++ l /\ ran d' = ran d ++ map snd l.

Lemma holds_after_extend d l : holds_after d l (extend d l).
Proof. done. Qed.
Lemma holds_after_refl d : holds_after d [] d.
Proof. by split; rewrite app_nil_r. Qed.
Lemma holds_after_trans d l d' l' d'' : holds_after d l d' -> holds_after d' l' d'' -> holds_after d (l ++ l') d''.
Proof. intros [H1 H2] [H3 H4]. split; [by rewrite H3, H1, app_assoc | by rewrite H4, H2, map_app, app_assoc]. Qed.

Lemma pending_after ms d l rest d' :
  NoDup (map fst ms) -> pending ms d = l ++ rest -> holds_after d l d' -> pending ms d' = rest.
Proof.
  intros Hn Hp [Hv _].
  assert (E : pending ms d' = filter (fun m => m.1 ∉ map fst l) (pending ms d)).
  { unfold pending. rewrite list_filter_filter. apply list_filter_iff. intros m. unfold applied_versions.
    rewrite Hv, map_app, elem_of_app. tauto. }
  assert (Hs : NoDup (map fst (l ++ rest))).
  { rewrite <- Hp. unfold pending. clear -Hn. induction ms as [|m ms IH]; [done|]. cbn in Hn. apply NoDup_cons in Hn as [Hi Hn].
    rewrite filter_cons. case_decide; [|by apply IH]. cbn. apply NoDup_cons. split; [|by apply IH].
    intros (x & Hx & Hin)%list_elem_of_fmap. apply Hi. rewrite Hx. apply list_elem_of_fmap_2.
    by apply list_elem_of_filter in Hin as [_ Hin]. }
  rewrite E, Hp, filter_app. rewrite map_app in Hs. apply NoDup_app in Hs as (_ & Hd & _).
  rewrite (filter_none _ l), filter_all; [done | |].
  - intros m Hm Hm'. apply (Hd m.1 Hm'). by apply list_elem_of_fmap_2.
  - intros m Hm Hm'. apply Hm'. by apply list_elem_of_fmap_2.
Qed.

(** A connection between two transactions, with autocommit. *)
Record at_rest (c : mconn) : Prop := AtRest { ar_auto : autocommit c = true; ar_saved : m_saved c = None }.

(** How the reply to the next request may go. *)
Ltac next_reply l := destruct l as [|[|? []|] l]; cbn.

Lemma apply_one_spec m c vs :
  at_rest c -> closed c = false -> versions (m_data c) = Some vs -> m.1 ∉ map fst vs ->
  let '(r, c') := apply_one m c in
  at_rest c' /\
  match r with
  | Ok _ => closed c' = false /\ m_locked c' = m_locked c /\ m_data c' = extend (m_data c) [m]
  | Raise _ => m_data c' = m_data c \/ m_data c' = extend (m_data c) [m]
  end.
Proof.
  destruct c as [[w rn] sv au cl lk reps], m as [v name]. intros [Ha Hs] Hc Hv Hm. cbn in *. subst au sv cl w.
  unfold apply_one, transaction, execute, request, run_sql, insert_version, bind, rollback, modify. cbn.
  assert (Hd : bool_decide (v ∈ map fst vs) = false) by by apply bool_decide_eq_false.
  next_reply reps; try (by split; [done|left]); try next_reply reps; try (by split; [done|left]); rewrite ?Hd; cbn;
    try next_reply reps; try (by split; [done|left]); rewrite ?Hd; cbn; try next_reply reps;
    try (by split; [done|left]); try (by split; [done|right]); done.
Qed.

(** The loop over the migrations, on the ones not done. *)
Definition apply_loop (done : list Z) (applied : list Z) (ms : list migration) : CM (list Z) :=
  foldM (fun applied m =>
           if bool_decide (m.1 ∈ done) then ret applied
           else apply_one m ;;; ret (applied ++ [m.1])) applied ms.

(** What is left when it ends: a prefix of what was missing is in, all of it if it returns. *)
Definition applied_some (missing : list migration) (d d' : schema) (whole : Prop) : Prop :=
  exists l rest, missing = l ++ rest /\ holds_after d l d' /\ (whole -> rest = []).

Lemma apply_loop_spec dn ms applied c vs :
  at_rest c -> closed c = false -> versions (m_data c) = Some vs -> NoDup (map fst ms) ->
  (forall m, m ∈ ms -> m.1 ∉ dn -> m.1 ∉ map fst vs) ->
  let missing := filter (fun m => m.1 ∉ dn) ms in
  let '(r, c') := apply_loop dn applied ms c in
  at_rest c' /\ applied_some missing (m_data c) (m_data c') (exists a, r = Ok a) /\
  match r with
  | Ok a => a = applied ++ map fst missing /\ closed c' = false /\ m_locked c' = m_locked c
  | Raise _ => True
  end.
Proof.
  revert applied c vs. induction ms as [|m ms IH]; intros applied c vs Hc Hcl Hv Hn Hm missing.
  - cbn. split; [done|]. split; [|by rewrite app_nil_r]. exists [], []. split_and!; [done | apply holds_after_refl | done].
  - cbn [map] in Hn. apply NoDup_cons in Hn as [Hni Hn]. subst missing. rewrite filter_cons. unfold apply_loop. cbn [foldM].
    destruct (decide (m.1 ∈ dn)) as [Hd|Hd].
    + rewrite decide_False by (intros H; by apply H). rewrite bool_decide_true by done.
      apply (IH applied c vs); [done..|]. intros x Hx. apply Hm. set_solver.
    + rewrite decide_True by done. rewrite bool_decide_false by done. unfold bind at 1 2.
      pose proof (apply_one_spec m c vs Hc Hcl Hv (Hm m (list_elem_of_here _ _) Hd)) as H1.
      destruct (apply_one m c) as [[[]|e] c1]; cbn [ret].
      * destruct H1 as (Hc1 & Hcl1 & Hlk & Hd1).
        assert (Hv1 : versions (m_data c1) = Some (vs ++ [m])) by (rewrite Hd1; cbn; by rewrite Hv).
        specialize (IH (applied ++ [m.1]) c1 (vs ++ [m]) Hc1 Hcl1 Hv1 Hn). unfold apply_loop in IH. cbv zeta in IH.
        destruct (foldM _ _ ms c1) as [r c'].
        destruct IH as (Hr & (l & rest & Hl & Hh & Hw) & Ho).
        { intros x Hx Hxd. rewrite map_app, elem_of_app. intros [Hin|Hin]; [by apply (Hm x); [by apply list_elem_of_further|..]|].
          cbn in Hin. apply list_elem_of_singleton in Hin. apply Hni. rewrite <- Hin. by apply list_elem_of_fmap_2. }
        split; [done|]. split.
        -- exists (m :: l), rest. split_and!; [by rewrite Hl | | done].
           apply (holds_after_trans _ [m] (m_data c1)); [rewrite Hd1; apply holds_after_extend | done].
        -- destruct r as [a|e]; [|done]. destruct Ho as (-> & ? & ?). cbn [map]. rewrite <- app_assoc. by split_and!; [| |congruence].
      * destruct H1 as (Hc1 & Hd1). split; [done|]. split; [|done].
        destruct Hd1 as [-> | ->].
        -- exists [], (m :: filter (fun m => m.1 ∉ dn) ms). split_and!; [done | apply holds_after_refl | by intros [a Ha]].
        -- exists [m], (filter (fun m => m.1 ∉ dn) ms). split_and!; [done | apply holds_after_extend | by intros [a Ha]].
Qed.

Lemma apply_pending_spec ms c :
  at_rest c -> closed c = false -> NoDup (map fst ms) ->
  let '(r, c') := _apply_pending ms c in
  at_rest c' /\ applied_some (pending ms (m_data c)) (m_data c) (m_data c') (exists a, r = Ok a) /\
  match r with
  | Ok a => a = map fst (pending ms (m_data c)) /\ closed c' = false /\ m_locked c' = m_locked c
  | Raise _ => True
  end.
Proof.
  intros [Ha Hs] Hcl Hn. unfold _apply_pending.
  set (d := m_data c). assert (Hnone : forall c', m_data c' = d \/ m_data c' = (Schema (Some (default [] (versions d))) (ran d)) ->
    at_rest c' -> at_rest c' /\ applied_some (pending ms d) d (m_data c') (exists a : list Z, Raise lost_error = Ok a) /\ True).
  { intros c' Hd' Hr. split; [done|]. split; [|done]. exists [], (pending ms d). split_and!; [done | | by intros [a Hx]].
    destruct Hd' as [-> | ->]; [apply holds_after_refl | split; by rewrite app_nil_r]. }
  unfold bind at 1. destruct (execute create_version_table c) as [r1 c1] eqn:E1.
  assert (H1 : at_rest c1 /\ match r1 with
     | Ok _ => closed c1 = false /\ m_locked c1 = m_locked c /\ m_data c1 = Schema (Some (default [] (versions d))) (ran d)
     | Raise _ => m_data c1 = d \/ m_data c1 = Schema (Some (default [] (versions d))) (ran d) end).
  { subst d. destruct c as [w sv au cl lk reps]. cbn in Ha, Hs, Hcl. subst. unfold execute, request in E1. cbn in E1.
    revert E1. next_reply reps; intros [= <- <-]; cbn; (split; [done|]); auto. }
  destruct H1 as [Hr1 H1]. destruct r1 as [[]|e]; [|destruct (Hnone c1 H1 Hr1) as (? & (l & rest & ? & ? & ?) & _);
    split; [done|]; split; [|done]; exists l, rest; split_and!; [done..|by intros [a Hx]]].
  destruct H1 as (Hcl1 & Hlk1 & Hd1). unfold bind at 1. destruct (execute select_versions c1) as [r2 c2] eqn:E2.
  assert (H2 : at_rest c2 /\ m_data c2 = m_data c1 /\ match r2 with
     | Ok vs => closed c2 = false /\ m_locked c2 = m_locked c1 /\ vs = applied_versions d
     | Raise _ => True end).
  { clear -Hr1 Hcl1 Hd1 E2. destruct c1 as [w sv au cl lk reps], Hr1. cbn in *. subst.
    unfold execute, request in E2. cbn in E2. revert E2. next_reply reps; intros [= <- <-]; cbn; (split; [done|]); auto. }
  destruct H2 as (Hr2 & Hd2 & H2). destruct r2 as [vs|e].
  - destruct H2 as (Hcl2 & Hlk2 & ->).
    pose proof (apply_loop_spec (applied_versions d) ms [] c2 (default [] (versions d)) Hr2 Hcl2) as H3.
    rewrite Hd2, Hd1 in H3. specialize (H3 eq_refl Hn (fun m _ H => H)). cbv zeta in H3. unfold apply_loop in H3.
    destruct (foldM _ _ ms c2) as [r c']. destruct H3 as (Hr & (l & rest & Hl & Hh & Hw) & Ho).
    split; [done|]. split.
    + exists l, rest. split_and!; [done | | done]. apply (holds_after_trans d [] (Schema (Some (default [] (versions d))) (ran d)) l); [|exact Hh]. split; by rewrite app_nil_r.
    + destruct r; [|done]. destruct Ho as (-> & ? & ?). split_and!; [done..|congruence].
  - split; [done|]. split; [|done]. exists [], (pending ms d). split_and!; [done | | by intros [a Hx]].
    rewrite Hd2, Hd1. split; by rewrite app_nil_r.
Qed.

(** A connection as it is made. *)
Definition connected (d : schema) (auto : bool) (l : list reply) : mconn := MConn d None auto false false l.

Lemma migrate_spec ms d auto l :
  NoDup (map fst ms) ->
  let '(r, c') := migrate ms (connected d auto l) in
  m_saved c' = None /\ applied_some (pending ms d) d (m_data c') (exists a, r = Ok a) /\
  match r with
  | Ok a => a = map fst (pending ms d) /\ closed c' = false /\ m_locked c' = false /\ autocommit c' = auto
  | Raise _ => True
  end.
Proof.
  intros Hn. unfold migrate, connected. cbn [m_saved]. rewrite bool_decide_false by by intros [? ?].
  unfold bind at 1, assign_autocommit at 1. cbn [closed m_saved autocommit].
  rewrite (bool_decide_false (is_Some None)) by by intros [? ?]. unfold set_autocommit. cbn [m_data m_saved closed m_locked replies].
  unfold try_finally at 1. unfold bind at 1. destruct (lock (MConn d None true false false l)) as [r0 c0] eqn:E0.
  assert (Hnone : forall e : exn, applied_some (pending ms d) d d (exists a : list Z, Raise e = Ok a)).
  { intros e. exists [], (pending ms d). split_and!; [done | apply holds_after_refl | by intros [a Ha]]. }
  assert (H0 : at_rest c0 /\ m_data c0 = d /\ match r0 with Ok _ => closed c0 = false | Raise _ => True end).
  { unfold lock, request in E0. cbn in E0. revert E0. next_reply l; intros [= <- <-]; done. }
  destruct H0 as (Hr0 & Hd0 & H0).
  (* the reset of autocommit never changes the data *)
  assert (Hset : forall c, m_saved c = None ->
    let '(r, c') := (if closed c then (Ok tt, c) else assign_autocommit auto c) in
    m_saved c' = None /\ m_data c' = m_data c /\ (closed c = false -> r = Ok tt /\ closed c' = false /\ m_locked c' = m_locked c /\ autocommit c' = auto)).
  { intros [w sv au cl lk reps]. cbn. intros ->. by destruct cl. }
  destruct r0 as [[]|e].
  - unfold try_finally. pose proof (apply_pending_spec ms c0 Hr0 H0 Hn) as H1. rewrite Hd0 in H1.
    destruct (_apply_pending ms c0) as [r1 c1]. destruct H1 as (Hr1 & Ha1 & Ho1).
    set (u := if closed c1 then _ else _).
    assert (Hu : m_saved u.2 = None /\ m_data u.2 = m_data c1 /\
              (u.1 = Ok tt -> closed c1 = false -> closed u.2 = false /\ m_locked u.2 = false)).
    { subst u. destruct Hr1 as [Hau Hsv]. clear -Hau Hsv. destruct c1 as [w sv au cl lk reps]. cbn in *. subst.
      destruct cl; [done|]. unfold unlock, request. cbn. next_reply reps; done. }
    destruct u as [ru c2]. cbn [fst snd] in Hu. destruct Hu as (Hu1 & Hu2 & Hu3).
    assert (Hfail : forall e : exn, let '(r', c') := (let '(r, s) := (Raise e : res (list Z), c2) in
              match (if closed s then (Ok tt, s) else assign_autocommit auto s) with
              | (Ok _, s) => (r, s) | (Raise e, s) => (Raise e, s) end) in
            m_saved c' = None /\ applied_some (pending ms d) d (m_data c') (exists a, r' = Ok a) /\
            match r' with Ok a => False | Raise _ => True end).
    { intros e. specialize (Hset c2 Hu1). destruct (if closed c2 then _ else _) as [[[]|e'] c3]; destruct Hset as (S1 & S2 & _);
        (split; [done|]); (split; [|done]); rewrite S2, Hu2; destruct Ha1 as (l1 & rest & ? & ? & _);
        exists l1, rest; (split_and!; [done..|by intros [a Ha]]). }
    destruct r1 as [a|e]; [destruct ru as [[]|e]|].
    + specialize (Hset c2 Hu1). destruct Ho1 as (-> & Hcl1 & _). destruct (Hu3 eq_refl Hcl1) as [Hcl2 Hlk2].
      rewrite Hcl2 in Hset |- *. destruct (assign_autocommit auto c2) as [r3 c3]. destruct Hset as (S1 & S2 & S3).
      destruct (S3 eq_refl) as (-> & S4 & S5 & S6). split_and!; [done | by rewrite S2, Hu2 | done | done | congruence | done].
    + specialize (Hfail e). cbv beta iota in Hfail. destruct (if closed c2 then _ else _) as [[[]|e'] c3];
        destruct Hfail as (F1 & F2 & F3); done.
    + destruct ru as [[]|e']; [specialize (Hfail e) | specialize (Hfail e')]; cbv beta iota in Hfail;
        destruct (if closed c2 then _ else _) as [[[]|e''] c3]; destruct Hfail as (F1 & F2 & F3); done.
  - specialize (Hset c0 (ar_saved _ Hr0)). destruct (if closed c0 then _ else _) as [[[]|e'] c3]; destruct Hset as (S1 & S2 & _);
      (split; [done|]); (split; [|done]); rewrite S2, Hd0; apply Hnone.
Qed.

(** ** Properties *)

(** A run of [migrate] on a connection of its own, and what it leaves for others to see. *)
Definition run_of (ms : list migration) (d : schema) (r : bool * list reply) : schema :=
  committed (migrate ms (connected d r.1 r.2)).2.

Lemma runs_apply ms d rs :
  NoDup (map fst ms) -> exists l rest, pending ms d = l ++ rest /\ holds_after d l (foldl (run_of ms) d rs).
Proof.
  intros Hn. revert d. induction rs as [|[auto reps] rs IH]; intros d; cbn [foldl].
  - exists [], (pending ms d). split; [done | apply holds_after_refl].
  - pose proof (migrate_spec ms d auto reps Hn) as H. unfold run_of at 2. cbn [fst snd].
    destruct (migrate ms (connected d auto reps)) as [r c']. destruct H as (Hs & (l1 & rest1 & H1 & H2 & _) & _).
    unfold committed. cbn [snd]. rewrite Hs. cbn [default].
    destruct (IH (m_data c')) as (l2 & rest2 & H3 & H4). rewrite (pending_after ms d l1 rest1) in H3 by done.
    exists (l1 ++ l2), rest2. split; [by rewrite H1, H3, app_assoc | by eapply holds_after_trans].
Qed.

Lemma max_version_ge d v : v ∈ applied_versions d -> v <= max_version d.
Proof.
  unfold max_version, applied_versions. generalize (map fst (default [] (versions d))). intros l Hv.
  induction l as [|x l IH]; [by apply not_elem_of_nil in Hv|]. cbn. apply elem_of_cons in Hv as [->|Hv]; [lia|]. specialize (IH Hv). lia.
Qed.

Lemma max_version_pos d : 0 <= max_version d.
Proof. unfold max_version. induction (map fst _) as [|x l IH]; cbn; lia. Qed.

Lemma check_schema_passes ms d auto :
  (forall m, m ∈ ms -> m.1 ∈ applied_versions d) -> (check_schema ms (connected d auto [])).1 = Ok tt.
Proof.
  intros H. assert (Hr : REQUIRED_VERSION ms <= max_version d).
  { unfold REQUIRED_VERSION. destruct (last ms) as [m|] eqn:E; [|apply max_version_pos].
    apply max_version_ge, H. by apply last_Some_elem_of. }
  assert (Hv : (current_version (connected d auto [])).1 = Ok (max_version d) /\ True).
  { split; [|done]. unfold current_version, connected. unfold try_finally, bind, execute, request, max_version. destruct d as [[vs|] rn], auto; reflexivity. }
  destruct Hv as [Hv _]. unfold check_schema, bind. destruct (current_version (connected d auto [])) as [r c']. cbn in Hv. subst r.
  replace (max_version d <? REQUIRED_VERSION ms) with false by (symmetry; apply Z.ltb_ge; lia). done.
Qed.

#[export] Instance version_le_trans : Transitive version_le.
Proof. intros x y z. unfold version_le. lia. Qed.
#[export] Instance version_le_total : Total version_le.
Proof. intros x y. unfold version_le. lia. Qed.

(** The migrations found have a version each, and are in order. *)
Lemma discover_from_keys names found ms :
  NoDup (map fst found) -> discover_from names found = Ok ms -> NoDup (map fst ms).
Proof.
  revert found. induction names as [|name names IH]; intros found Hn; cbn; [by intros [= <-]|].
  destruct (version_of name) as [v|]; [|by apply IH]. destruct (v =? 0); [done|].
  destruct (dget v found); [done|]. apply IH. by apply NoDup_dkeys_dset.
Qed.

Lemma discover_keys names ms : _discover names = Ok ms -> NoDup (map fst ms) /\ StronglySorted version_le ms.
Proof.
  unfold _discover. intros E. ok_step E as (found & Ef & E). injection E as <-. split.
  - rewrite (fmap_Permutation fst _ _ (merge_sort_Permutation version_le found)). by eapply discover_from_keys; [|exact Ef]; constructor.
  - apply (StronglySorted_merge_sort version_le).
Qed.


(** Two runs fail, the second when its COMMIT was carried out but the reply was lost; the
    third applies what is left. *)
Definition demo_migrations : list migration := [(1, "0001_initial.sql"); (2, "0002_user_maps_and_event_key.sql")].
Definition demo_runs : list (bool * list reply) :=
  [(false, [Carried; Carried; Carried; Carried; Failed (PgError "SyntaxError" false "42601" "") false]);
   (true, [Carried; Carried; Carried; Carried; Carried; Carried; Lost])].

Example migrate_demo :
  let d := foldl (run_of demo_migrations) (Schema None []) demo_runs in
  ran d = ["0001_initial.sql"] /\ (migrate demo_migrations (connected d false [])).1 = Ok [2] /\
  (check_schema demo_migrations (connected d true [])).1 = Raise (out_of_date demo_migrations 1).
Proof. vm_compute. done. Qed.

