(* ===== verification/Output.v ===== *)
(** * What the terminal is shown

    [node_monitor/cli/output.py]: text from the database made visible, rows as CSV, and the
    formatters of the tables; and [_truncate] of [cli/live.py].  Text is its UTF-8 bytes: a
    control character is a byte (C0, DEL) or the two bytes of C1.  [str.isprintable] rests on the
    Unicode tables, the class [Printable]; [str] of a value that is not text is [Shown].  The
    CSV is that of [csv.writer] with its default quoting.  JSON and rich's table are theirs. *)

From Stdlib Require Import ZArith Lia ZifyBool ZifyN.
From stdpp Require Import pretty.
From S2P Require Import Prelude PyFloat PyTime PyVal Text.

#[local] Open Scope string_scope.
#[local] Open Scope list_scope.
#[local] Open Scope Z_scope.

(** ** Control characters *)

Definition is_c0 (a : ascii) : bool := let n := N_of_ascii a in ((n <? 32) || (n =? 127))%N.
Definition is_c1_lead (a : ascii) : bool := (N_of_ascii a =? 194)%N.
Definition is_c1_tail (a : ascii) : bool := let n := N_of_ascii a in ((128 <=? n) && (n <=? 159))%N.
Definition starts_c1 (s : string) : bool := match s with String b _ => is_c1_tail b | "" => false end.

(** Some character of the category Cc *)
Fixpoint has_control (s : string) : bool :=
  match s with
  | "" => false
  | String a s => is_c0 a || (is_c1_lead a && starts_c1 s) || has_control s
  end.

Definition hex_digit (n : N) : ascii := ascii_of_N (if (n <? 10)%N then 48 + n else 87 + n)%N.
Definition backslash : ascii := "\"%char.
(** [_ESCAPES.get(c, f"\\x{ord(c):02x}")] *)
Definition escape_of (a : ascii) : string :=
  let n := N_of_ascii a in
  if (n =? 10)%N then String backslash "n"
  else if (n =? 9)%N then String backslash "t"
  else if (n =? 13)%N then String backslash "r"
  else String backslash (String "x" (String (hex_digit (n / 16)) (String (hex_digit (n mod 16)) ""))).

Fixpoint escaped (s : string) : string :=
  match s with
  | "" => ""
  | String a s1 =>
      if is_c0 a then escape_of a +:+ escaped s1
      else if is_c1_lead a then
        match s1 with
        | String b s2 => if is_c1_tail b then escape_of b +:+ escaped s2 else String a (escaped s1)
        | "" => String a ""
        end
      else String a (escaped s1)
  end.

(** [s.isprintable()] *)
Class Printable := { isprintable : string -> bool }.
(** Printable text has no control character. *)
Class PrintableLaws `{Printable} := { printable_plain : forall s, isprintable s = true -> has_control s = false }.

(** [str(v)] of a value that is not text *)
Class Shown := { py_str : value -> string }.

Section Output.
Context {P : Printable} {Sh : Shown}.

Definition visible (text : string) : string := if isprintable text then text else escaped text.

(** ** CSV *)

Definition _FORMULA_START : list ascii := ["="; "+"; "-"; "@"]%char.
Definition starts_formula (s : string) : bool :=
  match s with String a _ => bool_decide (a ∈ _FORMULA_START) | "" => false end.

Definition _raw (v : value) : value := match v with VTime t => VStr (isoformat t) | _ => v end.

Definition _csv_cell (v : value) : value :=
  match v with
  | VNone => VStr ""
  | _ =>
      match _raw v with
      | VStr s => let s := visible s in VStr (if starts_formula s then "'" +:+ s else s)
      | v => v
      end
  end.
End Output.

Definition quote_char : ascii := "034"%char.
Definition comma : ascii := ",".
Definition needs_quotes (s : string) : bool :=
  negb (forall_chars (fun a => negb (bool_decide (a ∈ [comma; quote_char; newline; "013"%char]))) s).
Fixpoint doubled (s : string) : string :=
  match s with
  | "" => ""
  | String a s => if decide (a = quote_char) then String quote_char (String quote_char (doubled s)) else String a (doubled s)
  end.
Definition quoted (s : string) : string := String quote_char (doubled s +:+ String quote_char "").

(** [writer.writerow]: a lone empty field is quoted, lest its line be blank. *)
Definition csv_field (s : string) : string := if needs_quotes s then quoted s else s.
Definition csv_row (fields : list string) : string :=
  (if bool_decide (fields = [""]) then quoted "" else joined "," (map csv_field fields)) +:+ String newline "".

Section Render.
Context {P : Printable} {Sh : Shown}.

Record column := Column { key : string; header : string; fmt : option (value -> string) }.

Definition csv_text (v : value) : string := match v with VStr s => s | _ => py_str v end.
(** The cells of a row, and [render(rows, columns, "csv")] *)
Definition csv_cells (columns : list column) (row : dict) : list string :=
  map (fun c => csv_text (_csv_cell (dget_or_none (key c) row))) columns.
Definition render_csv (rows : list dict) (columns : list column) : string :=
  foldl (fun out r => out +:+ csv_row (csv_cells columns r)) (csv_row (map key columns)) rows.

(** The text of a cell of the table *)
Definition _cell (column : column) (v : value) : string :=
  match fmt column with
  | Some f => visible (f v)
  | None => match v with VNone => "-" | _ => visible (csv_text v) end
  end.

(** [_truncate] *)
Definition ellipsis : string := String "226" (String "128" (String "166" "")).
Definition _truncate (text : string) (width : nat) : string :=
  let text := visible text in
  if (char_count text <=? width)%nat then text else take_chars (width - 1) text +:+ ellipsis.
End Render.

(** ** The formatters of the tables *)

(** [f"{x:.{d}f}"] of a finite [x] that is not negative *)
Definition fixed (d : nat) (x : float) : string :=
  let '(n, den) := fraction x in
  let z := round_half_even (n * 10 ^ Z.of_nat d) den in
  pretty (z / 10 ^ Z.of_nat d) +:+ match d with O => "" | _ => "." +:+ pad d (z mod 10 ^ Z.of_nat d) end.

(** [fmt_kb] of a count of KiB *)
Definition fmt_kb (kb : option Z) : string :=
  match kb with
  | None => "-"
  | Some kb =>
      if kb <? 1024 then pretty kb +:+ " KiB"
      else
        let v := int_truediv kb 1024 in
        if fltb v (float_of_Z 1024) then fixed 1 v +:+ " MiB" else fixed 1 (fdiv v (float_of_Z 1024)) +:+ " GiB"
  end.

(** [fmt_duration], of whole seconds: [int(sec)] is the caller's *)
Definition at_least_sign : string := String "226" (String "137" (String "165" "")).
Definition duration_text (sec : Z) : string :=
  if sec <? 60 then pretty sec +:+ "s"
  else if sec <? 3600 then pretty (sec / 60) +:+ "m"
  else if sec <? 86400 then pretty (sec / 3600) +:+ "h" +:+ pad 2 (sec mod 3600 / 60) +:+ "m"
  else pretty (sec / 86400) +:+ "d".
Definition fmt_duration (sec : option Z) (lower_bound : bool) : string :=
  match sec with
  | None => "-"
  | Some sec => (if lower_bound then at_least_sign else "") +:+ duration_text (Z.max 0 sec)
  end.

(** [fmt_age]: the seconds of the difference, towards zero *)
Definition fmt_age (ts : option datetime) (now : datetime) : string :=
  match ts with
  | None => "-"
  | Some t => fmt_duration (Some (Z.quot (instant now - instant t) second_us)) false
  end.

Example fmt_ex :
  (map (fun z => fmt_kb (Some z)) [512; 1536; 1572864; 10485760], map (fun z => fmt_duration (Some z) false) [42; 200; 7500; 360000])
  = (["512 KiB"; "1.5 MiB"; "1.5 GiB"; "10.0 GiB"], ["42s"; "3m"; "2h05m"; "4d"]).
Proof. vm_compute. reflexivity. Qed.

(** ** Facts about the escapes *)

Lemma has_control_app s t : has_control s = false -> starts_c1 t = false -> has_control (s +:+ t) = has_control t.
Proof.
  induction s as [|a s IH]; [done|]. intros H Ht. rewrite string_app_cons. cbn [has_control] in *.
  apply orb_false_iff in H as [H1 H2]. apply orb_false_iff in H1 as [H0 H1]. rewrite IH, H0 by done. cbn [orb].
  destruct (is_c1_lead a); [|done]. destruct s as [|b s]; [by rewrite string_app_nil_l, Ht|].
  rewrite string_app_cons. cbn [starts_c1 andb] in H1 |- *. by rewrite H1.
Qed.

Lemma hex_plain n : (n < 16)%N -> is_c0 (hex_digit n) = false /\ is_c1_lead (hex_digit n) = false /\ is_c1_tail (hex_digit n) = false.
Proof.
  intros H. unfold is_c0, is_c1_lead, is_c1_tail, hex_digit. cbv zeta. rewrite N_ascii_embedding by (destruct (n <? 10)%N eqn:E; lia).
  destruct (n <? 10)%N eqn:E; lia.
Qed.

Lemma escape_plain a t : has_control t = false -> has_control (escape_of a +:+ t) = false.
Proof.
  intros Ht. unfold escape_of. cbv zeta.
  destruct (N_of_ascii a =? 10)%N, (N_of_ascii a =? 9)%N, (N_of_ascii a =? 13)%N; try exact Ht.
  assert (Hn : (N_of_ascii a < 256)%N) by apply N_ascii_bounded.
  destruct (hex_plain (N_of_ascii a / 16)) as (A1 & A2 & A3); [by apply N.Div0.div_lt_upper_bound|].
  destruct (hex_plain (N_of_ascii a mod 16)) as (B1 & B2 & B3); [by apply N.mod_lt|].
  rewrite !string_app_cons, string_app_nil_l. cbn [has_control starts_c1]. rewrite A1, A2, B1, B2. cbn. exact Ht.
Qed.

Lemma escape_starts a t : starts_c1 (escape_of a +:+ t) = false.
Proof. unfold escape_of. cbv zeta. by destruct (N_of_ascii a =? 10)%N, (N_of_ascii a =? 9)%N, (N_of_ascii a =? 13)%N. Qed.

Lemma escaped_starts s : starts_c1 s = false -> starts_c1 (escaped s) = false.
Proof.
  destruct s as [|a s]; [done|]. cbn [starts_c1]. intros H. cbn [escaped].
  destruct (is_c0 a); [apply escape_starts|]. destruct (is_c1_lead a); [|done].
  destruct s as [|b s]; [done|]. destruct (is_c1_tail b); [apply escape_starts | done].
Qed.

Lemma escaped_plain s : has_control (escaped s) = false.
Proof.
  remember (String.length s) as n eqn:En. assert (Hn : (String.length s <= n)%nat) by lia. clear En. revert s Hn.
  induction n as [|n IH]; intros [|a s] Hn; try done; cbn [String.length] in Hn; [lia|]. cbn [escaped].
  destruct (is_c0 a) eqn:E0; [apply escape_plain, IH; lia|].
  destruct (is_c1_lead a) eqn:E1.
  - destruct s as [|b s]; [cbn; by rewrite E0, andb_false_r|]. cbn [String.length] in Hn.
    destruct (is_c1_tail b) eqn:E2; [apply escape_plain, IH; lia|].
    cbn [has_control]. rewrite E0. cbn [orb]. rewrite escaped_starts by done. rewrite andb_false_r. apply IH. cbn. lia.
  - cbn [has_control]. rewrite E0, E1. cbn. apply IH. lia.
Qed.

Lemma escaped_same s : has_control s = false -> escaped s = s.
Proof.
  induction s as [|a s IH]; [done|]. cbn [has_control escaped]. intros H.
  apply orb_false_iff in H as [H1 H2]. apply orb_false_iff in H1 as [H0 H1]. rewrite H0.
  destruct (is_c1_lead a); [|by rewrite IH]. destruct s as [|b s]; [done|]. cbn in H1. rewrite H1. by rewrite IH.
Qed.

(** ** Cutting between characters *)

Lemma continues_starts a s : continues a = false -> starts_c1 (String a s) = false.
Proof. unfold continues, starts_c1, is_c1_tail. cbv zeta. lia. Qed.

Lemma take_chars_plain n s : has_control s = false -> has_control (take_chars n s) = false.
Proof.
  revert n. induction s as [|a s IH]; intros n; [done|]. cbn [has_control]. intros H.
  apply orb_false_iff in H as [H1 H2]. apply orb_false_iff in H1 as [H0 H1]. cbn [take_chars].
  assert (Hs : forall m, has_control (String a (take_chars m s)) = false).
  { intros m. cbn [has_control]. rewrite H0, IH by done. cbn [orb]. rewrite orb_false_r.
    destruct (is_c1_lead a); [|done]. cbn in H1 |- *. destruct s as [|b s]; [done|]. cbn [take_chars].
    destruct (continues b); [exact H1|]. destruct m; [done | exact H1]. }
  destruct (continues a); [apply Hs|]. destruct n; [done | apply Hs].
Qed.

Lemma char_count_app s t : char_count (s +:+ t) = (char_count s + char_count t)%nat.
Proof. induction s as [|a s IH]; [done|]. rewrite string_app_cons. cbn. rewrite IH. by destruct (continues a). Qed.

Lemma char_count_take n s : (char_count (take_chars n s) <= n)%nat.
Proof.
  revert n. induction s as [|a s IH]; intros n; cbn; [lia|].
  destruct (continues a) eqn:E; cbn; [rewrite E; apply IH|]. destruct n; cbn; [lia|]. rewrite E. specialize (IH n). lia.
Qed.

(** ** Reading CSV back *)

(** A reader: outside quotes at the start of a field or in it, inside them, or after a quote
    inside them. *)
Inductive scan_state := Start | Bare | Inside | Quoted_.
Fixpoint scan (st : scan_state) (cur : string) (row : list string) (s : string) : list (list string) :=
  match s with
  | "" => match st, row with Start, [] => [] | _, _ => [row ++ [cur]] end
  | String a s =>
      match st with
      | Inside => if decide (a = quote_char) then scan Quoted_ cur row s else scan Inside (cur +:+ String a "") row s
      | Quoted_ =>
          if decide (a = quote_char) then scan Inside (cur +:+ String a "") row s
          else if decide (a = comma) then scan Start "" (row ++ [cur]) s
          else if decide (a = newline) then (row ++ [cur]) :: scan Start "" [] s
          else scan Bare (cur +:+ String a "") row s
      | _ =>
          if decide (a = comma) then scan Start "" (row ++ [cur]) s
          else if decide (a = newline) then
            (match st, row with Start, [] => [] | _, _ => row ++ [cur] end) :: scan Start "" [] s
          else match st with
               | Start => if decide (a = quote_char) then scan Inside "" row s else scan Bare (String a "") row s
               | _ => scan Bare (cur +:+ String a "") row s
               end
      end
  end.
Definition csv_read (s : string) : list (list string) := scan Start "" [] s.

Definition ends_field (a : ascii) : Prop := a = comma \/ a = newline.

Lemma scan_end st cur row a rest : ends_field a -> st <> Inside -> (st = Start -> row = [] -> a = comma) ->
  scan st cur row (String a rest) = if decide (a = comma) then scan Start "" (row ++ [cur]) rest else (row ++ [cur]) :: scan Start "" [] rest.
Proof.
  intros Ha Hst Hb. destruct Ha as [->| ->]; destruct st; try done. cbn.
  destruct row as [|x row]; [by specialize (Hb eq_refl eq_refl)|]. done.
Qed.

Lemma scan_bare s cur row a rest : needs_quotes s = false -> ends_field a ->
  scan Bare cur row (s +:+ String a rest) = scan Bare (cur +:+ s) row (String a rest).
Proof.
  unfold needs_quotes. rewrite negb_false_iff. revert cur. induction s as [|b s IH]; intros cur Hs Ha; [by rewrite string_app_nil_r|].
  cbn [forall_chars] in Hs. apply andb_prop in Hs as [Hb Hs]. apply negb_true_iff, bool_decide_eq_false in Hb.
  rewrite string_app_cons. cbn [scan]. rewrite !decide_False by (intros ->; apply Hb; apply (bool_decide_unpack _); vm_compute; exact I).
  rewrite IH by done. by rewrite string_app_assoc.
Qed.

Lemma scan_inside s cur row rest :
  scan Inside cur row (doubled s +:+ String quote_char rest) = scan Quoted_ (cur +:+ s) row rest.
Proof.
  revert cur. induction s as [|b s IH]; intros cur; [by rewrite string_app_nil_r|]. cbn [doubled].
  case_decide as Hb.
  - subst b. rewrite !string_app_cons. cbn [scan]. rewrite !decide_True by done. rewrite IH. by rewrite string_app_assoc.
  - rewrite string_app_cons. cbn [scan]. rewrite decide_False by done. rewrite IH. by rewrite string_app_assoc.
Qed.

Lemma scan_field s row a rest : ends_field a -> (s = "" -> row = [] -> a = comma) ->
  scan Start "" row (csv_field s +:+ String a rest)
  = if decide (a = comma) then scan Start "" (row ++ [s]) rest else (row ++ [s]) :: scan Start "" [] rest.
Proof.
  intros Ha Hb. unfold csv_field. destruct (needs_quotes s) eqn:E.
  - unfold quoted. rewrite string_app_cons, string_app_assoc, string_app_cons, string_app_nil_l. cbn [scan].
    rewrite !decide_False by done. rewrite decide_True by done. rewrite scan_inside, string_app_nil_l. by apply scan_end.
  - destruct s as [|b s]; [rewrite string_app_nil_l; by apply scan_end; [..|intros _; apply Hb]|].
    pose proof E as E'. unfold needs_quotes in E'. rewrite negb_false_iff in E'. cbn [forall_chars] in E'.
    apply andb_prop in E' as [Hx Hs]. apply negb_true_iff, bool_decide_eq_false in Hx.
    rewrite string_app_cons. cbn [scan]. rewrite !decide_False by (intros ->; apply Hx; apply (bool_decide_unpack _); vm_compute; exact I).
    rewrite scan_bare; [|by unfold needs_quotes; rewrite Hs|done]. rewrite string_app_cons, string_app_nil_l. by apply scan_end.
Qed.

Lemma scan_fields f fs row rest : (row = [] -> f = "" -> fs <> []) ->
  scan Start "" row (joined "," (map csv_field (f :: fs)) +:+ String newline rest) = (row ++ f :: fs) :: scan Start "" [] rest.
Proof.
  revert f row. induction fs as [|g fs IH]; intros f row H.
  - cbn [map joined foldl]. rewrite scan_field; [done | by right |]. intros -> ->. by specialize (H eq_refl eq_refl).
  - cbn [map]. rewrite joined_cons. rewrite !string_app_assoc, string_app_cons, string_app_nil_l.
    rewrite scan_field; [|by left|done]. rewrite decide_True by done. cbn [map] in IH. rewrite IH by (intros E; by destruct row).
    by rewrite <- app_assoc.
Qed.

Lemma csv_row_reads f fs rest : csv_read (csv_row (f :: fs) +:+ rest) = (f :: fs) :: csv_read rest.
Proof.
  unfold csv_read, csv_row. rewrite string_app_assoc, string_app_cons, string_app_nil_l. case_bool_decide as H.
  - injection H as -> ->. reflexivity.
  - apply (scan_fields f fs []). intros _ -> ->. done.
Qed.

(** ** Properties *)

Section Safe.
Context {P : Printable} {PL : PrintableLaws} {Sh : Shown}.

Lemma visible_plain text : has_control (visible text) = false.
Proof. unfold visible. destruct (isprintable text) eqn:E; [by apply printable_plain | apply escaped_plain]. Qed.

Lemma visible_same text : has_control text = false -> visible text = text.
Proof. intros H. unfold visible. destruct (isprintable text); [done | by apply escaped_same]. Qed.


(** The text of a cell: none that a spreadsheet takes for a formula. *)
Lemma csv_cell_text v s : _csv_cell v = VStr s -> has_control s = false /\ starts_formula s = false.
Proof.
  assert (H : forall t, let u := visible t in let s := if starts_formula u then "'" +:+ u else u in
            has_control s = false /\ starts_formula s = false).
  { intros t u s'. subst s'. destruct (starts_formula u) eqn:E; [|split; [apply visible_plain | done]].
    split; [|done]. rewrite has_control_app; [apply visible_plain | done |].
    unfold starts_formula in E. destruct u as [|a u]; [done|]. apply bool_decide_eq_true in E.
    unfold _FORMULA_START in E. rewrite !elem_of_cons, elem_of_nil in E. by destruct E as [->|[->|[->|[->|[]]]]]. }
  destruct v; cbn; intros E; try discriminate; [by injection E as <- | injection E as <-; apply H..].
Qed.

(** A CSV says what the rows say and nothing else: read back, it is the keys and then the
    cells of each row, whatever is in them (commas, quotes, ends of lines), and a cell of text
    has no control character and does not begin as a formula. *)
Theorem csv_reads_back rows columns :
  columns <> [] ->
  csv_read (render_csv rows columns) = map key columns :: map (csv_cells columns) rows /\
  forall row c s, _csv_cell (dget_or_none (key c) row) = VStr s ->
    csv_text (_csv_cell (dget_or_none (key c) row)) = s /\ has_control s = false /\ starts_formula s = false.
Proof.
  intros Hc. split; [|intros row c s E; rewrite E; split; [done | by eapply csv_cell_text]].
  destruct columns as [|c cs]; [done|]. unfold render_csv.
  assert (Hf : forall l s, foldl (fun out r => out +:+ csv_row (csv_cells (c :: cs) r)) s l
            = s +:+ foldl (fun out r => out +:+ csv_row (csv_cells (c :: cs) r)) "" l).
  { induction l as [|r l IH]; intros s; cbn [foldl]; [by rewrite string_app_nil_r|].
    rewrite IH, (IH ("" +:+ _)), string_app_nil_l. apply string_app_assoc. }
  rewrite Hf. cbn [map]. rewrite csv_row_reads. f_equal.
  induction rows as [|r rows IH]; [done|]. cbn [foldl map]. rewrite Hf, string_app_nil_l.
  unfold csv_cells at 1. cbn [map]. rewrite csv_row_reads. by rewrite IH.
Qed.
End Safe.

(** ** A command line that would forge a row and a formula *)

#[local] Instance demo_printable : Printable := {| isprintable s := negb (has_control s) |}.
#[local] Instance demo_printable_laws : PrintableLaws.
Proof. split. intros s. cbn. apply negb_true_iff. Qed.
#[local] Instance demo_shown : Shown := {| py_str _ := "0" |}.

Definition demo_command : string := String "027" "[2J" +:+ String newline "root,0".
Definition demo_columns : list column := [Column "cmdline" "Command" None; Column "username" "User" None].
Definition demo_rows : list dict := [[("cmdline", VStr demo_command); ("username", VStr "=1+1")]].

Example output_demo :
  visible demo_command = String backslash "x1b[2J" +:+ String backslash "nroot,0" /\
  csv_read (render_csv demo_rows demo_columns)
  = [["cmdline"; "username"]; [String backslash "x1b[2J" +:+ String backslash "nroot,0"; "'=1+1"]].
Proof. split; vm_compute; reflexivity. Qed.


Lemma csv_reads_back_witness :
  csv_read (render_csv demo_rows demo_columns) = map key demo_columns :: map (csv_cells demo_columns) demo_rows /\
  forall row c s, _csv_cell (dget_or_none (key c) row) = VStr s ->
    csv_text (_csv_cell (dget_or_none (key c) row)) = s /\ has_control s = false /\ starts_formula s = false.
Proof. apply (csv_reads_back demo_rows demo_columns). discriminate. Defined.
