(* ===== verification/Live.v ===== *)
(** * The live commands

    [status], [nodes], [top], [users], [user] and [idle] of [node_monitor/cli/live.py], on the
    queries of Queries.v: what each reads, what it says on stderr, the lines above its table, the
    rows it hands to [render] (Output.v) and its exit code.  The database answers, on a connection
    that is open; a command's options are its arguments.  [IdleDuration] is given text of ASCII. *)

From Stdlib Require Import ZArith Lia.
From stdpp Require Import pretty.
From S2P Require Import Prelude PyFloat PyTime PyVal Text Codec Sql Queries Output.

#[local] Open Scope string_scope.
#[local] Open Scope list_scope.
#[local] Open Scope Z_scope.
#[local] Open Scope py_scope.

Definition STALE_AFTER_SEC : Z := 120.
Definition HEARTBEAT_STALE_SEC : Z := 180.

(** [(now - t).total_seconds()] *)
Definition age_of (now t : datetime) : float := int_truediv (instant now - instant t) second_us.
Definition older (n : Z) (age : float) : bool := num_ltb (NInt n) (NFloat age).
Definition time_in (c : string) (r : dict) : res datetime :=
  v ← item c r; match v with VTime t => Ok t | _ => Raise TypeError end.

Definition _node_state (row : dict) (now : datetime) : res value :=
  t ← time_in "updated_at" row;
  if older STALE_AFTER_SEC (age_of now t) then Ok (VStr "stale") else item "session_state" row.
Fixpoint _with_state (rows : list dict) (now : datetime) : res (list dict) :=
  match rows with
  | [] => Ok []
  | r :: rows => s ← _node_state r now; l ← _with_state rows now; Ok (dset "state" s r :: l)
  end.

Record collector := Collector {
  co_host : value; co_version : value; co_last_seen : datetime; co_age : float;
  co_stale : bool; co_stopped : bool; co_state : value; co_connected : value;
  co_spooled : value; co_outage : value;
}.
Definition status_of (row : dict) : res dict :=
  let v := dget_or_none "status" row in
  if truthy v then match v with VDict d => Ok d | _ => Raise AttributeError end else Ok [].
Definition is_text (s : string) (v : value) : bool := match v with VStr t => bool_decide (t = s) | _ => false end.

Definition _collector (row : option dict) (now : datetime) : res (option collector) :=
  match row with
  | None => Ok None
  | Some row =>
      seen ← time_in "last_seen" row;
      st ← status_of row;
      host ← item "collector_host" row; version ← item "version" row;
      let age := age_of now seen in
      Ok (Some (Collector host version seen age (older HEARTBEAT_STALE_SEC age) (is_text "stopped" (dget_or_none "state" st))
                  (dget_or_none "state" st) (dget_or_none "connected" st) (dget_or_none "spooled_batches" st)
                  (dget_or_none "outage_since" st)))
  end.

(** What a command leaves: its lines on stderr, the rows for [render], the exit code. *)
Record shown := Shown_ { sh_err : list string; sh_head : list string; sh_rows : list dict; sh_code : Z }.

Definition exit_code (c : option collector) : Z :=
  match c with None => 1 | Some c => if co_stale c || co_stopped c then 1 else 0 end.

Section Live.
Context {CO : Collation} {FS : FloatSum} {P : Printable} {Sh : Shown}.

(** The lines [status] writes above the table. *)
Definition or_dash (v : value) : value := if truthy v then v else VStr "-".
Definition text_value (v : value) : string := match v with VStr s => s | _ => py_str v end.
Definition collector_lines (system : string) (c : option collector) (now : datetime) : list string :=
  match c with
  | None => ["collector: no heartbeat recorded for system " +:+ system]
  | Some c =>
      ["collector: " +:+ visible (text_value (co_host c)) +:+ "  version " +:+ visible (text_value (co_version c))
         +:+ "  state " +:+ visible (text_value (or_dash (co_state c))) +:+ "  last seen " +:+ fmt_age (Some (co_last_seen c)) now
         +:+ " ago" +:+ (if co_stale c then "  STALE" else "") +:+ (if co_stopped c then "  STOPPED" else "");
       "  connected: " +:+ text_value (co_connected c) +:+ "  spooled batches: " +:+ text_value (co_spooled c)
         +:+ "  outage since: " +:+ text_value (or_dash (co_outage c))]
  end.

Section Commands.
Context (d : database) (db_now now : datetime) (system : string).

(** [status], as a table *)
Definition status : res shown :=
  c ← _collector (heartbeat d system) now;
  nodes ← _with_state (node_states d (VStr system)) now;
  Ok (Shown_ [] (collector_lines system c now) nodes (exit_code c)).

(** [nodes] *)
Definition mem_pct (r : dict) : res value :=
  let used := dget_or_none "mem_used_kb" r in
  let total := dget_or_none "mem_total_kb" r in
  if negb (is_none used) && truthy total then
    match num_of used, num_of total with
    | Some u, Some t => p ← num_mul (NInt 100) u; x ← true_div p t; Ok (VFloat x)
    | _, _ => Raise TypeError
    end
  else Ok VNone.
Fixpoint with_mem (rows : list dict) : res (list dict) :=
  match rows with [] => Ok [] | r :: rows => p ← mem_pct r; l ← with_mem rows; Ok (dset "mem_pct" p r :: l) end.
Definition nodes : res shown :=
  rows ← _with_state (node_states d (VStr system)) now; rows ← with_mem rows; Ok (Shown_ [] [] rows 0).

(** [_limit]: 0 shows all. *)
Definition _limit (limit : Z) : option Z := if limit =? 0 then None else Some limit.

Definition stale_names (labels : list string) : list string := map visible labels.
Definition _max_age (include_stale : bool) (node : option value) : option num * list string :=
  if include_stale then (None, [])
  else
    let stale := stale_process_nodes d db_now (VStr system) (NInt STALE_AFTER_SEC) node in
    (Some (NInt STALE_AFTER_SEC),
     match stale with
     | [] => []
     | _ => ["excluded stale nodes: " +:+ joined ", " (stale_names stale) +:+ " (use --include-stale)"]
     end).

(** [_display_rows]; [int(sec)] is towards zero. *)
Definition whole_seconds (v : value) : res (option Z) :=
  n ← as_num_opt v; match n with None => Ok None | Some (NInt z) => Ok (Some z) | Some (NFloat f) => z ← py_trunc f; Ok (Some z) end.
Definition COMMAND_WIDTH : nat := 60.
Definition display_row (r : dict) : res dict :=
  sec ← whole_seconds (dget_or_none "idle_for_sec" r);
  cmd ← as_str_opt (dget_or_none "cmdline" r);
  Ok (dset "command" (val_opt VStr ((fun t => _truncate t COMMAND_WIDTH) <$> cmd))
        (dset "idle" (VStr (fmt_duration sec (truthy (dget_or_none "idle_for_is_lower_bound" r)))) r)).
Fixpoint _display_rows (rows : list dict) : res (list dict) :=
  match rows with [] => Ok [] | r :: rows => x ← display_row r; l ← _display_rows rows; Ok (x :: l) end.

Record options := Options {
  o_node : option value; o_include_stale : bool; o_category : option value;
  o_sort : string; o_reverse : bool; o_limit : Z;
}.

Definition top (o : options) (user : option value) : res shown :=
  let '(age, err) := _max_age (o_include_stale o) (o_node o) in
  rows ← processes d db_now (VStr system) user (o_node o) (o_category o) true None None
           (o_sort o) (o_reverse o) (_limit (o_limit o)) age;
  rows ← _display_rows rows;
  Ok (Shown_ err [] rows 0).

Definition idle (o : options) (min_idle : Z) (any_presence : bool) : res shown :=
  let '(age, err) := _max_age (o_include_stale o) (o_node o) in
  rows ← processes d db_now (VStr system) None (o_node o) (o_category o) true (Some (NInt min_idle))
           (if any_presence then None else Some (VStr "absent")) (o_sort o) (o_reverse o) (_limit (o_limit o)) age;
  rows ← _display_rows rows;
  Ok (Shown_ err [] rows 0).

Definition users (o : options) : res shown :=
  let '(age, err) := _max_age (o_include_stale o) (o_node o) in
  rows ← Queries.users d db_now (VStr system) (o_node o) (o_category o) (o_sort o) (o_reverse o) (_limit (o_limit o)) age;
  Ok (Shown_ err [] rows 0).

(** [sum(r["rss_kb"] or 0 for r in rows)] *)
Definition total_rss (rows : list dict) : Z := foldr Z.add 0 (ints_of "rss_kb" rows).
Definition user_line (username : string) (rows : list dict) : string :=
  username +:+ ": " +:+ pretty (Z.of_nat (length rows)) +:+ " processes on "
  +:+ pretty (Z.of_nat (length (remove_dups (map (text_in "node") rows)))) +:+ " nodes, total RSS " +:+ fmt_kb (Some (total_rss rows)).
Definition user (o : options) (username : string) : res shown :=
  let '(age, err) := _max_age (o_include_stale o) (o_node o) in
  rows ← processes d db_now (VStr system) (Some (VStr username)) (o_node o) (o_category o) false None None
           (o_sort o) (o_reverse o) None age;
  if bool_decide (rows = []) then Raise (ClickException ("no live processes for " +:+ username))
  else shown ← _display_rows (limited (_limit (o_limit o)) rows); Ok (Shown_ err [user_line username rows] shown 0).
End Commands.
End Live.

(** ** [IdleDuration] *)

Definition _UNIT_SECONDS : list (string * Z) := [("s", 1); ("m", 60); ("h", 3600); ("d", 86400)].
(** [text[-1:]] and [text[:-1]] *)
Fixpoint split_last (s : string) : string * string :=
  match s with
  | "" => ("", "")
  | String a "" => ("", String a "")
  | String a s => let '(x, y) := split_last s in (String a x, y)
  end.
Fixpoint digits_value (acc : Z) (s : string) : Z :=
  match s with "" => acc | String c s => digits_value (10 * acc + default 0 (digit_val c)) s end.
Definition convert (value : string) : option Z :=
  let text := lower_ascii (strip value) in
  let '(front, tail) := split_last text in
  let unit := dget tail _UNIT_SECONDS in
  let digits := match unit with Some _ => front | None => text end in
  if negb (bool_decide (digits = "")) && forall_chars is_digit_char digits then Some (digits_value 0 digits * default 1 unit) else None.

Example convert_ex : (map convert ["30m"; " 2H "; "1d"; "90s"; "45"; "1.5h"; "m"; "-3s"])
  = [Some 1800; Some 7200; Some 86400; Some 90; Some 45; None; None; None].
Proof. vm_compute. reflexivity. Qed.

(** ** Properties *)

Section Properties.
Context {CO : Collation} {FS : FloatSum} {P : Printable} {Sh : Shown}.
Context (d : database) (db_now now : datetime) (system : string).

Lemma with_state_rows rows l : _with_state rows now = Ok l ->
  Forall2 (fun r r' => exists t s, time_in "updated_at" r = Ok t /\ r' = dset "state" s r /\
             (if older STALE_AFTER_SEC (age_of now t) then s = VStr "stale" else item "session_state" r = Ok s)) rows l.
Proof.
  revert l. induction rows as [|r rows IH]; intros l H; cbn [_with_state] in H; [injection H as <-; constructor|].
  ok_step H as (s & H1 & H). ok_step H as (l' & H2 & H). injection H as <-. constructor; [|by apply IH].
  unfold _node_state in H1. ok_step H1 as (t & Ht & H1). exists t, s. split_and!; [done | done |].
  destruct (older _ _); [by injection H1 | done].
Qed.

(** [status] exits 0 exactly when the database has a heartbeat of the system that is at most
    180 seconds old and was not written by a clean shutdown; and a node is shown as stale exactly
    when its row is more than 120 seconds old, else in the state of its session. *)
Theorem status_health s :
  status d now system = Ok s ->
  (sh_code s = 0 \/ sh_code s = 1) /\
  (sh_code s = 0 <-> exists row t st, heartbeat d system = Some row /\ time_in "last_seen" row = Ok t /\
     status_of row = Ok st /\ older HEARTBEAT_STALE_SEC (age_of now t) = false /\ dget_or_none "state" st <> VStr "stopped") /\
  Forall2 (fun r r' => exists t x, time_in "updated_at" r = Ok t /\ dget_or_none "state" r' = x /\
             (if older STALE_AFTER_SEC (age_of now t) then x = VStr "stale" else item "session_state" r = Ok x))
    (node_states d (VStr system)) (sh_rows s).
Proof.
  unfold status. intros H. ok_step H as (c & Hc & H). ok_step H as (rows & Hr & H). injection H as <-. cbn [sh_code sh_rows].
  split_and!.
  - unfold exit_code. destruct c as [c|]; [destruct (co_stale c || co_stopped c)|]; auto.
  - unfold _collector in Hc. destruct (heartbeat d system) as [row|]; cbn [exit_code].
    + ok_step Hc as (t & Ht & Hc). ok_step Hc as (st & Hst & Hc). ok_step Hc as (h & _ & Hc). ok_step Hc as (v & _ & Hc).
      injection Hc as <-. cbn [co_stale co_stopped exit_code].
      assert (Hs : is_text "stopped" (dget_or_none "state" st) = true <-> dget_or_none "state" st = VStr "stopped").
      { unfold is_text. destruct (dget_or_none "state" st); try done. rewrite bool_decide_eq_true. split; [by intros -> | by intros [= ->]]. }
      split.
      * intros E. exists row, t, st. destruct (older _ _) eqn:Eo; [done|]. split_and!; try done.
        intros Hx. apply Hs in Hx. rewrite Hx in E. done.
      * intros (row' & t' & st' & [= <-] & Ht' & Hst' & Ho & Hn). rewrite Ht in Ht'. injection Ht' as <-. rewrite Hst in Hst'. injection Hst' as <-.
        rewrite Ho. cbn [orb]. destruct (is_text _ _) eqn:Ei; [by destruct (Hn (proj1 Hs eq_refl)) | done].
    + injection Hc as <-. split; [done|]. by intros (row & t & st & ? & _).
  - eapply Forall2_impl; [by apply with_state_rows|]. intros r r' (t & x & Ht & -> & Hx). exists t, x. split_and!; [done | | done].
    unfold dget_or_none. by rewrite dget_dset_eq.
Qed.
End Properties.

(** ** A login node whose snapshot is old *)

#[local] Instance live_collation : Collation := {| collate a b := bool_decide (String.le a b) |}.
#[local] Instance live_sum : FloatSum := {| sum_floats _ := VNone |}.
#[local] Instance live_printable : Printable := {| isprintable s := negb (has_control s) |}.
#[local] Instance live_shown : Shown := {| py_str _ := "?" |}.

Definition live_row (node state : string) (age : Z) : row_t :=
  list_to_map [("system", Scalar (VStr "s")); ("node", Scalar (VStr node)); ("session_state", Scalar (VStr state));
               ("updated_at", Scalar (VTime (add_us demo_now (- age * second_us))))].
Definition heartbeat_row (state : string) (age : Z) : row_t :=
  list_to_map [("system", Scalar (VStr "s")); ("collector_host", Scalar (VStr "adm")); ("version", Scalar (VStr "1"));
               ("last_seen", Scalar (VTime (add_us demo_now (- age * second_us))));
               ("status", Jsonb (VDict [("state", VStr state)]))].
Definition live_db (state : string) (age : Z) : database :=
  Db (<["collector_heartbeat" := list_to_map [([KText "s"], heartbeat_row state age)]]>
      (<["live_nodes" := list_to_map [(demo_key "a", live_row "a" "connected" 30); (demo_key "b", live_row "b" "connected" 121)]]> ∅)) [].
Definition live_status (state : string) (age : Z) : shown :=
  match status (live_db state age) demo_now "s" with Ok s => s | Raise _ => Shown_ [] [] [] 2 end.

Example status_demo :
  map (fun r => (dget_or_none "node" r, dget_or_none "state" r)) (sh_rows (live_status "running" 180))
    = [(VStr "a", VStr "connected"); (VStr "b", VStr "stale")] /\
  map sh_code [live_status "running" 180; live_status "running" 181; live_status "stopped" 1] = [0; 1; 1].
Proof. split; vm_compute; reflexivity. Qed.

Lemma status_health_witness :
  (sh_code (live_status "running" 180) = 0 \/ sh_code (live_status "running" 180) = 1) /\
  (sh_code (live_status "running" 180) = 0 <-> exists row t st, heartbeat (live_db "running" 180) "s" = Some row /\ time_in "last_seen" row = Ok t /\
     status_of row = Ok st /\ older HEARTBEAT_STALE_SEC (age_of demo_now t) = false /\ dget_or_none "state" st <> VStr "stopped") /\
  Forall2 (fun r r' => exists t x, time_in "updated_at" r = Ok t /\ dget_or_none "state" r' = x /\
             (if older STALE_AFTER_SEC (age_of demo_now t) then x = VStr "stale" else item "session_state" r = Ok x))
    (node_states (live_db "running" 180) (VStr "s")) (sh_rows (live_status "running" 180)).
Proof. apply (status_health (live_db "running" 180) demo_now "s"). reflexivity. Defined.
