(* ===== verification/Launch.v ===== *)
(** * What a session is started with

    [collector/bootstrap.py], [collector/ssh.py] and [build_sessions] of [collector/fleet.py]:
    the command that ssh runs on the node, the payload its standard input carries, the ssh
    configuration, and the arguments of each node's session.  The remote side is here too, as
    far as those texts decide it: the words a POSIX shell makes of the command (quoting only:
    what would expand, glob or separate commands is [None]) and what [BOOTSTRAP_CODE] reads
    before it runs the probe.  Text is its UTF-8 bytes.  The directory of the configuration is
    one whose operations may fail, or a write stop after a part; links are not modelled. *)

From Stdlib Require Import ZArith Lia.
From stdpp Require Import pretty.
From S2P Require Import Prelude PyFloat PyTime PyVal Text Codec Output Recorder Config.

#[local] Open Scope string_scope.
#[local] Open Scope list_scope.
#[local] Open Scope Z_scope.
#[local] Open Scope py_scope.

(** ** Quoting for a shell *)

Definition quote_char : ascii := "'"%char.
Definition double_quote_char : ascii := "034"%char.

(** The characters [shlex] leaves as they are: [[\w@%+=:,./-]] with [re.ASCII] *)
Definition in_codes (lo hi : N) (a : ascii) : bool := let n := N_of_ascii a in ((lo <=? n) && (n <=? hi))%N.
Definition safe_char (a : ascii) : bool :=
  in_codes 48 57 a || in_codes 65 90 a || in_codes 97 122 a
  || bool_decide (a ∈ ["_"; "@"; "%"; "+"; "="; ":"; ","; "."; "/"; "-"]%char).

(** [s.replace]: a quote ends the quoted text, stands in double quotes and begins it again. *)
Definition quote_piece : string := String quote_char (String double_quote_char (String quote_char (String double_quote_char (String quote_char "")))).
Fixpoint quotes_replaced (s : string) : string :=
  match s with
  | "" => ""
  | String a s => (if decide (a = quote_char) then quote_piece else String a "") +:+ quotes_replaced s
  end.
Definition shlex_quote (s : string) : string :=
  if bool_decide (s = "") then String quote_char (String quote_char "")
  else if forall_chars safe_char s then s
  else String quote_char (quotes_replaced s +:+ String quote_char "").
Definition shlex_join (l : list string) : string := joined " " (map shlex_quote l).

(** The words of a simple command: [cur] is the word being read. *)
Inductive quoting := Unquoted | Single | Double.
Definition extended (cur : option string) (a : ascii) : option string := Some (default "" cur +:+ String a "").
Definition expands (a : ascii) : bool := bool_decide (a ∈ ["$"; "`"; "\"]%char).
Fixpoint shell_words (q : quoting) (cur : option string) (s : string) : option (list string) :=
  match s with
  | "" => match q, cur with
          | Unquoted, None => Some []
          | Unquoted, Some w => Some [w]
          | _, _ => None
          end
  | String a s =>
      match q with
      | Unquoted =>
          if decide (a = " "%char) then
            match cur with None => shell_words Unquoted None s | Some w => cons w <$> shell_words Unquoted None s end
          else if decide (a = quote_char) then shell_words Single (Some (default "" cur)) s
          else if decide (a = double_quote_char) then shell_words Double (Some (default "" cur)) s
          else if safe_char a then shell_words Unquoted (extended cur a) s
          else None
      | Single => if decide (a = quote_char) then shell_words Unquoted cur s else shell_words Single (extended cur a) s
      | Double =>
          if decide (a = double_quote_char) then shell_words Unquoted cur s
          else if expands a then None
          else shell_words Double (extended cur a) s
      end
  end.

(** ** The bootstrap *)

Definition dq (s : string) : string := String double_quote_char (s +:+ String double_quote_char "").
Definition BOOTSTRAP_CODE : string :=
  joined (String newline "")
    ["#node-monitor-probe"; "import sys, json";
     "h = json.loads(sys.stdin.buffer.readline().decode(" +:+ dq "utf-8" +:+ "))";
     "src = sys.stdin.buffer.read(h[" +:+ dq "len" +:+ "]).decode(" +:+ dq "utf-8" +:+ ")";
     "g = {" +:+ dq "__name__" +:+ ": " +:+ dq "__node_monitor_probe__" +:+ ", " +:+ dq "PROBE_CONFIG" +:+ ": h[" +:+ dq "config" +:+ "]}";
     "exec(compile(src, " +:+ dq "node_monitor_probe" +:+ ", " +:+ dq "exec" +:+ "), g)"; ""].

(** What the code above reads of a stream: the source it runs, the configuration it gives it,
    and what it leaves to be read. *)
Definition boot `{JsonText} (stream : string) : res (string * value * string) :=
  match partition_at newline stream with
  | (line, Some rest) =>
      match loads (line +:+ String newline "") with
      | Some (VDict h) =>
          n ← item "len" h;
          match n with
          | VInt n =>
              if n <? 0 then Raise Hang
              else config ← item "config" h; Ok (prefix_of (Z.to_nat n) rest, config, drop_chars (Z.to_nat n) rest)
          | _ => Raise TypeError
          end
      | Some _ => Raise TypeError
      | None => Raise (ValueError line)
      end
  | (line, None) => Raise (ValueError line)
  end.

Section Launch.
Context {JT : JsonText} {LT : LineText} {Sh : Shown}.

Definition probe_config (config : Config) : dict :=
  [("counter_interval_sec", field "counter_interval_sec" (collection config));
   ("census_interval_sec", field "census_interval_sec" (collection config));
   ("active_cpu_seconds_per_min", field "active_cpu_seconds_per_min" (classification config));
   ("gpu", VBool true);
   ("probe_rss_limit_mb", field "probe_rss_limit_mb" (collection config))].

Definition header (source : string) (probe_cfg : dict) : value :=
  VDict [("len", VInt (Z.of_nat (String.length source))); ("config", VDict probe_cfg)].
Definition build_payload (source : string) (probe_cfg : dict) : res string :=
  text ← line_dumps (header source probe_cfg); Ok (text +:+ String newline "" +:+ source).

Definition remote_command (probe_python : string) : string :=
  shlex_join ["env"; "-u"; "LD_PRELOAD"; probe_python; "-u"; "-c"; BOOTSTRAP_CODE].

Definition ssh_argv (ssh_binary ssh_config_path target command : string) : list string :=
  [ssh_binary; "-F"; ssh_config_path; "-o"; "BatchMode=yes"; target; command].

(** [str(v)]; a target that is text, as ssh's arguments have to be *)
Definition str_of (v : value) : string := match v with VStr s => s | _ => py_str v end.

Record launch := Launch {
  la_argv : list string;
  la_payload : string;
  la_silence_timeout : value;
  la_max_lifetime : value;
  la_backoff : value;
}.

(** The probe's configuration of a node *)
Definition node_config (config : Config) (overrides : dict) (node : NodeConfig) : dict :=
  let cfg := dmerge (probe_config config) overrides in
  match dget "lock_path" cfg with
  | Some p => dset "lock_path" (VStr (str_of p +:+ "." +:+ str_of (n_label node))) cfg
  | None => cfg
  end.

Definition build_session (config : Config) (source ssh_config : string) (overrides : dict) (ssh_binary : string)
    (node : NodeConfig) : res launch :=
  payload ← build_payload source (node_config config overrides node);
  Ok (Launch (ssh_argv ssh_binary ssh_config (str_of (n_ssh_target node)) (remote_command (str_of (probe_python config)))) payload
        (field "session_silence_timeout_sec" (collection config)) (field "session_max_lifetime_sec" (collection config))
        (field "reconnect_backoff_sec" (collection config))).

(** [build_sessions]; a session is keyed by its node's label, which is text. *)
Fixpoint add_sessions (config : Config) (source ssh_config : string) (overrides : dict) (ssh_binary : string)
    (ns : list NodeConfig) (sessions : list (string * launch)) : res (list (string * launch)) :=
  match ns with
  | [] => Ok sessions
  | node :: ns =>
      s ← build_session config source ssh_config overrides ssh_binary node;
      add_sessions config source ssh_config overrides ssh_binary ns (dset (str_of (n_label node)) s sessions)
  end.
Definition build_sessions (config : Config) (source ssh_config : string) (overrides : dict) (ssh_binary : string)
    : res (list (string * launch)) :=
  add_sessions config source ssh_config overrides ssh_binary (nodes config) [].
End Launch.

(** ** The ssh configuration *)

(** A file's text and mode; the directory and [ssh] in it by their modes; what becomes of each
    operation, with the part of a write that is done. *)
Record state_dir := StateDir {
  files : gmap string (string * Z);
  modes : gmap string Z;
  fails : nat -> option (exn * nat);
  ops : nat;
}.
Definition set_files f w : state_dir := StateDir f (modes w) (fails w) (ops w).
Definition set_modes m w : state_dir := StateDir (files w) m (fails w) (ops w).
Definition set_ops n w : state_dir := StateDir (files w) (modes w) (fails w) n.

Section SshConfig.
(** The directory's path, the text of [connect_timeout_sec] with [:g], the process and its umask *)
Context (path timeout_text pid : string) (identity_file : option string) (umask : Z).

Definition sock_dir : string := path +:+ "/ssh".
Definition ssh_config_text : string :=
  joined (String newline "")
    (["Host *"; "   BatchMode yes"; "   ControlMaster auto"; "   ControlPersist 60s"; "   ControlPath " +:+ sock_dir +:+ "/cm-%C";
      "   ConnectTimeout " +:+ timeout_text; "   ServerAliveInterval 10"; "   ServerAliveCountMax 3"]
     ++ match identity_file with
        | Some f => if bool_decide (f = "") then [] else ["   IdentityFile " +:+ f; "   IdentitiesOnly yes"]
        | None => []
        end) +:+ String newline "".
Definition config_name : string := "ssh_config".
Definition tmp_name : string := ".ssh_config." +:+ pid +:+ ".tmp".
Definition masked (mode : Z) : Z := Z.land mode (Z.lnot umask).

Definition op : M state_dir (option (exn * nat)) := fun w => (Ok (fails w (ops w)), set_ops (S (ops w)) w).
(** An operation that is done or fails *)
Definition attempt (f : state_dir -> state_dir) : M state_dir unit :=
  let* e := op in match e with Some (e, _) => raise e | None => modify f end.
Definition mkdir (d : string) (mode : Z) : M state_dir unit :=
  attempt (fun w => match modes w !! d with Some _ => w | None => set_modes (<[d := masked mode]> (modes w)) w end).
Definition chmod (d : string) (mode : Z) : M state_dir unit := attempt (fun w => set_modes (<[d := mode]> (modes w)) w).
(** [unlink(missing_ok=True)] *)
Definition unlink (n : string) : M state_dir unit := attempt (fun w => set_files (delete n (files w)) w).
Definition open_excl (n : string) : M state_dir unit :=
  let* e := op in
  match e with
  | Some (e, _) => raise e
  | None =>
      let* w := gets id in
      match files w !! n with
      | Some _ => raise (OSSub "FileExistsError" n)
      | None => modify (set_files (<[n := ("", masked 384)]> (files w)))
      end
  end.
Definition fchmod (n : string) (mode : Z) : M state_dir unit :=
  attempt (fun w => set_files (alter (fun f => (f.1, mode)) n (files w)) w).
Definition write_text (n text : string) : M state_dir unit :=
  let* e := op in
  match e with
  | Some (e, part) => modify (fun w => set_files (alter (fun f => (prefix_of part text, f.2)) n (files w)) w) ;;; raise e
  | None => modify (fun w => set_files (alter (fun f => (text, f.2)) n (files w)) w)
  end.
Definition replace (from to : string) : M state_dir unit :=
  attempt (fun w => match files w !! from with Some f => set_files (<[to := f]> (delete from (files w))) w | None => w end).

(** [write_ssh_config]; the process's end runs no handler. *)
Definition write_ssh_config : M state_dir string :=
  mkdir path 448 ;;; chmod path 448 ;;; mkdir sock_dir 511 ;;; chmod sock_dir 448 ;;;
  unlink tmp_name ;;;
  open_excl tmp_name ;;;
  try_except (fchmod tmp_name 384 ;;; write_text tmp_name ssh_config_text ;;; replace tmp_name config_name)
    (fun e => if is_exception e then Some (unlink tmp_name ;;; raise e) else None) ;;;
  ret (path +:+ "/" +:+ config_name).
End SshConfig.

(** ** Facts *)

Lemma safe_not_special a : safe_char a = true -> a <> " "%char /\ a <> quote_char /\ a <> double_quote_char.
Proof. intros H. split_and!; intros ->; by vm_compute in H. Qed.

Lemma words_safe s t cur : forall_chars safe_char s = true -> s <> "" ->
  shell_words Unquoted cur (s +:+ t) = shell_words Unquoted (Some (default "" cur +:+ s)) t.
Proof.
  revert cur. induction s as [|a s IH]; intros cur Hs Hne; [done|]. cbn [forall_chars] in Hs. apply andb_prop in Hs as [Ha Hs].
  rewrite string_app_cons. cbn [shell_words]. destruct (safe_not_special a Ha) as (H1 & H2 & H3).
  rewrite !decide_False, Ha by done. unfold extended. destruct s as [|b s].
  - by rewrite string_app_nil_l.
  - rewrite IH by done. cbn [from_option id]. by rewrite string_app_assoc.
Qed.

Lemma words_piece c t : shell_words Single (Some c) (quote_piece +:+ t) = shell_words Single (Some (c +:+ String quote_char "")) t.
Proof. reflexivity. Qed.

Lemma words_single s t c :
  shell_words Single (Some c) (quotes_replaced s +:+ String quote_char t) = shell_words Unquoted (Some (c +:+ s)) t.
Proof.
  revert c. induction s as [|a s IH]; intros c; cbn [quotes_replaced].
  - rewrite string_app_nil_l, string_app_nil_r. cbn [shell_words]. by rewrite decide_True.
  - destruct (decide (a = quote_char)) as [->|Hn].
    + rewrite string_app_assoc, words_piece, IH. by rewrite string_app_assoc.
    + rewrite !string_app_cons, string_app_nil_l. cbn [shell_words]. rewrite decide_False by done. unfold extended. cbn [from_option id].
      rewrite IH. by rewrite string_app_assoc.
Qed.

Lemma words_quoted s t : shell_words Unquoted None (shlex_quote s +:+ t) = shell_words Unquoted (Some s) t.
Proof.
  unfold shlex_quote. case_bool_decide as He; [by subst s|].
  destruct (forall_chars safe_char s) eqn:Es; [by apply words_safe|].
  rewrite string_app_cons, string_app_assoc. cbn [shell_words]. rewrite decide_False, decide_True by done.
  rewrite string_app_cons, string_app_nil_l. by rewrite words_single.
Qed.

(** A shell gives a command its arguments as they were. *)
Lemma shell_words_joined l : shell_words Unquoted None (shlex_join l) = Some l.
Proof.
  unfold shlex_join. induction l as [|s l IH]; [done|]. destruct l as [|s' l].
  - change (joined " " (map shlex_quote [s])) with (shlex_quote s). rewrite <- (string_app_nil_r (shlex_quote s)).
    by rewrite words_quoted.
  - cbn [map] in *. rewrite joined_cons, words_quoted, string_app_cons, string_app_nil_l. cbn [shell_words]. rewrite decide_True by done. by rewrite IH.
Qed.

Section Facts.
Context {JT : JsonText} {LT : LineText} {Sh : Shown}.

(** JSON's text of a value: one line, which reads back. *)
Definition line_reads (v : value) : Prop := exists text, line_dumps v = Ok text /\
  forall_chars (fun a => negb (bool_decide (a = newline))) text = true /\ loads (text +:+ String newline "") = Some v.

Lemma prefix_exact s t : prefix_of (String.length s) (s +:+ t) = s.
Proof. induction s as [|a s IH]; [by destruct t|]. rewrite string_app_cons. cbn. by rewrite IH. Qed.

Lemma boot_payload source cfg : line_reads (header source cfg) ->
  exists payload, build_payload source cfg = Ok payload /\ forall rest, boot (payload +:+ rest) = Ok (source, VDict cfg, rest).
Proof.
  intros (text & Ht & Hl & Hr). unfold build_payload. rewrite Ht. eexists. split; [done|]. intros rest.
  unfold boot. rewrite !string_app_assoc, string_app_cons, string_app_nil_l, partition_at_app by done.
  rewrite Hr. unfold header.
  change (item "len" _) with (Ok (A:=value) (VInt (Z.of_nat (String.length source)))). cbn [mbind res_bind].
  rewrite (proj2 (Z.ltb_ge _ _)) by lia.
  change (item "config" _) with (Ok (A:=value) (VDict cfg)). cbn [mbind res_bind].
  by rewrite Nat2Z.id, prefix_exact, drop_chars_app.
Qed.

(** The session of a node: its command, and what the command does with the payload. *)
Definition launched (config : Config) (source sc : string) (ov : dict) (ssh_binary : string) (n : NodeConfig) (la : launch) : Prop :=
  (exists command,
     la_argv la = [ssh_binary; "-F"; sc; "-o"; "BatchMode=yes"; str_of (n_ssh_target n); command] /\
     shell_words Unquoted None command = Some ["env"; "-u"; "LD_PRELOAD"; str_of (probe_python config); "-u"; "-c"; BOOTSTRAP_CODE]) /\
  forall rest, boot (la_payload la +:+ rest) = Ok (source, VDict (node_config config ov n), rest).

Lemma build_session_run config source sc ov ssh_binary n : line_reads (header source (node_config config ov n)) ->
  exists la, build_session config source sc ov ssh_binary n = Ok la /\ launched config source sc ov ssh_binary n la.
Proof.
  intros Hn. destruct (boot_payload _ _ Hn) as (payload & Hp & Hb). unfold build_session. rewrite Hp. cbn [mbind res_bind].
  eexists. split; [done|]. split; [|exact Hb]. eexists. split; [done|]. apply shell_words_joined.
Qed.

Lemma add_sessions_run config source sc ov ssh_binary ns acc :
  Forall (fun n => line_reads (header source (node_config config ov n))) ns ->
  NoDup (map fst acc ++ map (fun n => str_of (n_label n)) ns) ->
  exists launches, add_sessions config source sc ov ssh_binary ns acc = Ok (acc ++ zip (map (fun n => str_of (n_label n)) ns) launches) /\
    Forall2 (launched config source sc ov ssh_binary) ns launches.
Proof.
  intros Hr. revert acc. induction Hr as [|n ns Hn Hr IH]; intros acc Hd; cbn [add_sessions map].
  - exists []. by rewrite app_nil_r.
  - destruct (build_session_run config source sc ov ssh_binary n Hn) as (la & E & Hla). rewrite E. cbn [mbind res_bind map] in *.
    assert (Hfresh : str_of (n_label n) ∉ map fst acc).
    { apply NoDup_app in Hd as (_ & Hd & _). intros H. apply (Hd _ H). by left. }
    rewrite dset_fresh by done. destruct (IH (acc ++ [(str_of (n_label n), la)])) as (las & E' & Hf).
    { rewrite map_app. cbn [map fst]. rewrite <- app_assoc. exact Hd. }
    exists (la :: las). rewrite E', <- app_assoc. split; [done|]. by constructor.
Qed.
End Facts.

(** *** The file is replaced or left *)

Section SshFacts.
Context (path timeout_text pid : string) (identity_file : option string) (umask : Z).
#[local] Abbreviation tmp := (tmp_name pid).
#[local] Abbreviation text := (ssh_config_text path timeout_text identity_file).
Context (before : gmap string (string * Z)).

Lemma tmp_is_not_config : tmp <> config_name.
Proof. done. Qed.

(** Nothing but the temporary file was touched; the modes are set up to here. *)
Definition untouched (w : state_dir) : Prop := forall n, n <> tmp -> files w !! n = before !! n.
Record stage (private : list string) (at_tmp : option (string * Z) -> Prop) (w : state_dir) : Prop := Stage {
  sg_files : untouched w;
  sg_modes : Forall (fun d => modes w !! d = Some 448) private;
  sg_tmp : at_tmp (files w !! tmp);
}.

Lemma stage_attempt p p' t t' f :
  (forall w, stage p t w -> stage p' t' (f w)) ->
  hoare (stage p t) (attempt f) (fun r w => match r with Ok _ => stage p' t' w | Raise _ => untouched w end).
Proof.
  intros Hf w Hw. unfold attempt, op, bind. destruct (fails w (ops w)) as [[e k]|]; cbn.
  - apply Hw.
  - apply Hf. destruct Hw. by split.
Qed.

Lemma stage_open p : hoare (stage p (fun f => f = None)) (open_excl umask tmp)
  (fun r w => match r with Ok _ => stage p (fun f => is_Some f) w | Raise _ => untouched w end).
Proof.
  intros w [Hf Hm Ht]. unfold open_excl, op, bind, gets, raise, modify. destruct (fails w (ops w)) as [[e k]|]; cbn; [exact Hf|].
  rewrite Ht. split; cbn; [|done|rewrite lookup_insert_eq; by eexists]. intros n Hn. cbn. rewrite lookup_insert_ne by done. by apply Hf.
Qed.

Lemma alter_untouched g w w' : files w' = alter g tmp (files w) -> untouched w -> untouched w'.
Proof. intros E H n Hn. rewrite E, lookup_alter_ne by done. by apply H. Qed.

Lemma stage_write p : hoare (stage p (fun f => exists t, f = Some (t, 384))) (write_text tmp text)
  (fun r w => match r with Ok _ => stage p (fun f => f = Some (text, 384)) w | Raise _ => untouched w end).
Proof.
  intros w [Hf Hm [t Ht]]. unfold write_text, op, bind, raise, modify. destruct (fails w (ops w)) as [[e k]|]; cbn.
  - by eapply alter_untouched.
  - split; cbn; [by eapply alter_untouched | done |]. by rewrite lookup_alter_eq, Ht.
Qed.

(** The new file in place of the old, and nothing else. *)
Record replaced (w : state_dir) : Prop := Replaced {
  rp_config : files w !! config_name = Some (text, 384);
  rp_tmp : files w !! tmp = None;
  rp_others : forall n, n <> tmp -> n <> config_name -> files w !! n = before !! n;
  rp_modes : modes w !! path = Some 448 /\ modes w !! sock_dir path = Some 448;
}.

Lemma private_insert (m : gmap string Z) d p : Forall (fun d => m !! d = Some 448) p ->
  Forall (fun d' => <[d := 448]> m !! d' = Some 448) (d :: p).
Proof.
  intros H. constructor; [apply lookup_insert_eq|]. eapply Forall_impl; [exact H|]. cbn. intros d' Hd.
  destruct (decide (d = d')) as [->|Hn]; [apply lookup_insert_eq | by rewrite lookup_insert_ne].
Qed.

Lemma stage_mkdir p t d mode : hoare (stage p t) (mkdir umask d mode) (fun r w => match r with Ok _ => stage p t w | Raise _ => untouched w end).
Proof.
  apply stage_attempt. intros w [Hf Hm Ht]. destruct (modes w !! d) eqn:E; [by split|]. split; [exact Hf | | exact Ht].
  eapply Forall_impl; [exact Hm|]. cbn. intros d' Hd. rewrite lookup_insert_ne; [done|]. intros ->. by rewrite E in Hd.
Qed.

Lemma stage_chmod p t d : hoare (stage p t) (chmod d 448) (fun r w => match r with Ok _ => stage (d :: p) t w | Raise _ => untouched w end).
Proof. apply stage_attempt. intros w [Hf Hm Ht]. split; [exact Hf | by apply private_insert | exact Ht]. Qed.

Lemma unlink_untouched : keeps untouched (unlink tmp).
Proof.
  intros w Hw. unfold unlink, attempt, op, bind. destruct (fails w (ops w)) as [[e k]|]; cbn; [exact Hw|].
  intros n Hn. cbn. rewrite lookup_delete_ne by done. by apply Hw.
Qed.

Lemma stage_unlink p t : hoare (stage p t) (unlink tmp) (fun r w => match r with Ok _ => stage p (fun f => f = None) w | Raise _ => untouched w end).
Proof.
  apply stage_attempt. intros w [Hf Hm Ht]. split; cbn; [|done|apply lookup_delete_eq].
  intros n Hn. cbn. rewrite lookup_delete_ne by done. by apply Hf.
Qed.

Lemma stage_fchmod p : hoare (stage p (fun f => is_Some f)) (fchmod tmp 384)
  (fun r w => match r with Ok _ => stage p (fun f => exists t, f = Some (t, 384)) w | Raise _ => untouched w end).
Proof.
  apply stage_attempt. intros w [Hf Hm [[t m] Ht]]. split; cbn; [by eapply alter_untouched | done |].
  rewrite lookup_alter_eq, Ht. by eexists.
Qed.

Lemma stage_replace : hoare (stage [sock_dir path; path] (fun f => f = Some (text, 384))) (replace tmp config_name)
  (fun r w => match r with Ok _ => replaced w | Raise _ => untouched w end).
Proof.
  intros w [Hf Hm Ht]. unfold replace, attempt, op, bind. destruct (fails w (ops w)) as [[e k]|]; cbn; [exact Hf|].
  rewrite Ht. split; cbn.
  - apply lookup_insert_eq.
  - rewrite lookup_insert_ne by apply not_eq_sym, tmp_is_not_config. apply lookup_delete_eq.
  - intros n Hn Hc. rewrite lookup_insert_ne, lookup_delete_ne by done. by apply Hf.
  - apply Forall_cons in Hm as [H1 [H2 _]%Forall_cons]. by split.
Qed.

Lemma write_config_cases : hoare untouched (write_ssh_config path timeout_text pid identity_file umask)
  (fun r w => match r with Ok p => p = path +:+ "/ssh_config" /\ replaced w | Raise _ => untouched w end).
Proof.
  unfold write_ssh_config. eapply hoare_pre with (P' := stage [] (fun _ => True)); [|by intros w Hw].
  eapply hoare_bind; [apply stage_mkdir|]. intros ?. eapply hoare_bind; [apply stage_chmod|]. intros ?.
  eapply hoare_bind; [apply stage_mkdir|]. intros ?. eapply hoare_bind; [apply stage_chmod|]. intros ?.
  eapply hoare_bind; [apply stage_unlink|]. intros ?. eapply hoare_bind; [apply stage_open|]. intros ?.
  eapply hoare_bind with (R := fun _ => replaced); [|intros ?; by apply hoare_ret].
  eapply hoare_try with (R := fun _ => untouched).
  - eapply hoare_bind; [apply stage_fchmod|]. intros ?. eapply hoare_bind; [apply stage_write|]. intros ?. apply stage_replace.
  - intros e k. destruct (is_exception e); [intros [= <-]|done].
    eapply hoare_bind with (R := fun _ => untouched); [|intros ?; by apply hoare_raise].
    eapply hoare_post; [apply unlink_untouched|]. by intros [].
  - by intros e w.
Qed.
End SshFacts.

(** ** Properties *)

Section Properties.
Context {JT : JsonText} {LT : LineText} {Sh : Shown}.

Lemma labels_distinct ns : ForallOrdPairs (fun m n => same_label (n_label n) (n_label m) = false) ns ->
  Forall (fun n => exists s, n_label n = VStr s) ns -> NoDup (map (fun n => str_of (n_label n)) ns).
Proof.
  intros H. induction H as [|m ns Hm _ IH]; intros Ht; [constructor|]. inversion Ht as [|? ? [s Es] Ht']; subst. cbn [map]. constructor; [|by apply IH].
  intros (n & En & Hn)%list_elem_of_fmap. rewrite Forall_forall in Hm, Ht'. destruct (Ht' n Hn) as [t Et]. specialize (Hm n Hn).
  rewrite Es, Et in Hm, En. cbn in Hm, En. subst t. by rewrite bool_decide_true in Hm.
Qed.

Lemma app_string_inj p s t : p +:+ s = p +:+ t -> s = t.
Proof. induction p as [|a p IH]; [done|]. rewrite !string_app_cons. intros [= H]. by apply IH. Qed.

Lemma lock_paths_distinct config ov ns : NoDup (map (fun n => str_of (n_label n)) ns) ->
  NoDup (omap (fun n => dget "lock_path" (node_config config ov n)) ns).
Proof.
  unfold node_config. destruct (dget "lock_path" (dmerge (probe_config config) ov)) as [p|] eqn:E.
  - intros H. induction ns as [|n ns IH]; [constructor|]. cbn [map] in H. apply NoDup_cons in H as [Hn H].
    cbn [omap list_omap]. rewrite dget_dset_eq. constructor; [|by apply IH].
    intros (m & Hm & Em)%list_elem_of_omap. rewrite dget_dset_eq in Em. injection Em as Em%app_string_inj%app_string_inj.
    apply Hn. rewrite <- Em. by apply (list_elem_of_fmap_2 (fun n => str_of (n_label n))).
  - intros _. induction ns as [|n ns IH]; [constructor|]. cbn [omap list_omap]. rewrite E in IH |- *. exact IH.
Qed.

(** C30. Every node is launched as configured: the sessions are those of the nodes, in their
    order, one a label; a shell gives [env] of the node's command exactly the interpreter, its
    options and [BOOTSTRAP_CODE] as they are, whatever the interpreter's path; that code reads
    the probe's source and the node's configuration back from the payload and leaves the rest of
    its input alone; and no two nodes are given the same lock. *)
Theorem launch_faithful config source sc overrides ssh_binary :
  valid_nodes (nodes config) -> Forall (fun n => exists s, n_label n = VStr s) (nodes config) ->
  Forall (fun n => line_reads (header source (node_config config overrides n))) (nodes config) ->
  exists sessions, build_sessions config source sc overrides ssh_binary = Ok sessions /\
    map fst sessions = map (fun n => str_of (n_label n)) (nodes config) /\
    Forall2 (launched config source sc overrides ssh_binary) (nodes config) (map snd sessions) /\
    NoDup (omap (fun n => dget "lock_path" (node_config config overrides n)) (nodes config)).
Proof.
  intros [_ _ Hd] Ht Hr. pose proof (labels_distinct _ Hd Ht) as Hl.
  destruct (add_sessions_run config source sc overrides ssh_binary (nodes config) [] Hr Hl) as (las & E & Hf).
  exists (zip (map (fun n => str_of (n_label n)) (nodes config)) las). split; [exact E|].
  apply Forall2_length in Hf as Hlen. split_and!.
  - apply fst_zip. rewrite length_map. lia.
  - change (map snd (zip ?a ?b)) with (zip a b).*2. rewrite snd_zip by (rewrite length_map; lia). exact Hf.
  - by apply lock_paths_distinct.
Qed.

(** The ssh configuration is replaced as a whole or left as it was, whichever operation
    fails, and whatever stood at the temporary name: no other file is touched; and when it is
    done it is the owner's alone, in a directory that is. *)
Theorem ssh_config_whole path timeout_text pid identity_file umask w :
  let '(r, w') := write_ssh_config path timeout_text pid identity_file umask w in
  match r with
  | Ok p => p = path +:+ "/ssh_config" /\ replaced path timeout_text pid identity_file (files w) w'
  | Raise _ => forall n, n <> tmp_name pid -> files w' !! n = files w !! n
  end.
Proof.
  pose proof (write_config_cases path timeout_text pid identity_file umask (files w) w ltac:(by intros n _)) as H.
  by destruct (write_ssh_config _ _ _ _ _ w) as [[]].
Qed.
End Properties.

(** ** Two nodes, and an interpreter whose path has a quote and a space *)

Definition demo_python : string := "/opt/it's here/python3".
Definition demo_node (n : string) : NodeConfig := NodeConfig_ (VStr n) (VStr n) (VStr ("mon@" +:+ n)).
Definition demo_config : Config :=
  Config_ (VStr "s") [demo_node "login1"; demo_node "login2"] (VStr demo_python) "/w" SshConfig CollectionConfig ClassificationConfig
    "/etc/nm.yaml" [] [] [] [] [].
Definition demo_overrides : dict := [("lock_path", VStr "/run/nm.lock")].
Definition demo_source : string := "import os" +:+ String newline "print(1)".
Definition demo_header (n : string) : value := header demo_source (node_config (Sh := {| py_str _ := "" |}) demo_config demo_overrides (demo_node n)).

(** JSON for the two headers, each standing as its length and lock. *)
#[local] Instance demo_shown : Shown := {| py_str _ := "" |}.
Definition demo_line (v : value) : string :=
  match v with VDict [_; (_, VDict c)] => match dget "lock_path" c with Some (VStr s) => s | _ => "" end | _ => "" end.
#[local] Instance demo_json : JsonText :=
  {| dumps _ := ""; json_safe _ := False;
     loads s := find (fun v => bool_decide (demo_line v +:+ String newline "" = s)) [demo_header "login1"; demo_header "login2"] |}.
#[local] Instance demo_lines : LineText := {| line_dumps v := Ok (demo_line v) |}.

Example quoted_demo : shlex_quote demo_python = "'/opt/it'" +:+ dq "'" +:+ "'s here/python3'".
Proof. reflexivity. Qed.

Lemma launch_faithful_witness :
  exists sessions, build_sessions demo_config demo_source "/w/state/ssh_config" demo_overrides "ssh" = Ok sessions /\
    map fst sessions = ["login1"; "login2"] /\
    Forall2 (launched demo_config demo_source "/w/state/ssh_config" demo_overrides "ssh") (nodes demo_config) (map snd sessions) /\
    NoDup (omap (fun n => dget "lock_path" (node_config demo_config demo_overrides n)) (nodes demo_config)).
Proof.
  apply (launch_faithful demo_config demo_source "/w/state/ssh_config" demo_overrides "ssh").
  - split; [done | repeat constructor | repeat constructor].
  - repeat constructor; by eexists.
  - repeat (apply Forall_cons_2; [eexists; split; [reflexivity | split; vm_compute; reflexivity]|]). apply Forall_nil_2.
Defined.

(** The disk is full while the new configuration is written: the old one stays, without the temporary file. *)
Definition demo_dir (failing : nat) : state_dir :=
  StateDir {[ "ssh_config" := ("old", 420) ]} {[ "/w/state" := 493 ]} (fun n => if Nat.eqb n failing then Some (OSErr "No space left", 3%nat) else None) 0.
Definition demo_written (failing : nat) : list (string * (string * Z)) :=
  map_to_list (files (write_ssh_config "/w/state" "10" "7" (Some "/k") 18 (demo_dir failing)).2).
Example ssh_config_demo :
  demo_written 7 = [("ssh_config", ("old", 420))] /\
  demo_written 99 = [("ssh_config", (ssh_config_text "/w/state" "10" (Some "/k"), 384))].
Proof. split; vm_compute; reflexivity. Qed.
