(* ===== verification/Bootstrap.v ===== *)
(** * Creating the roles, the database and the schema

    [node_monitor/database/bootstrap.py] on a cluster as far as its statements reach: roles,
    databases with their grants and settings, the schema with its own.  A statement is what the
    code composes, with its text and, by PostgreSQL's documentation, its effect; every request,
    connecting included, may fail before or after it was carried out ([faults]).  The names in
    the URL of the second connection ([_with_dbname]) are psycopg's and [urllib]'s. *)

From Stdlib Require Import ZArith Lia.
From S2P Require Import Prelude PyVal Text.

#[local] Open Scope string_scope.
#[local] Open Scope list_scope.
#[local] Open Scope py_scope.

Definition SCHEMA : string := "node_monitor".

(** ** Names *)

Definition in_codes (lo hi : N) (a : ascii) : bool := let n := N_of_ascii a in ((lo <=? n) && (n <=? hi))%N.
Definition name_start (a : ascii) : bool := in_codes 97 122 a || bool_decide (a = "_"%char).
Definition name_char (a : ascii) : bool := name_start a || in_codes 48 57 a.
(** [_NAME.match]: [$] also matches before a newline at the end. *)
Fixpoint name_rest (s : string) : bool :=
  match s with
  | "" => true
  | String a "" => name_char a || bool_decide (a = newline)
  | String a s => name_char a && name_rest s
  end.
Definition name_matches (s : string) : bool := match s with String a s => name_start a && name_rest s | "" => false end.
Definition name_pattern : string := "^[a-z_][a-z0-9_]*$".

(** ** The cluster *)

Record role := Role { rolcanlogin : bool; rolsuper : bool; rolcreatedb : bool; rolcreaterole : bool }.
(** Tables by name with the roles that may read them; [nsp_default] are the roles that may read
    what a role creates later. *)
Record schema := Schema {
  nspowner : string;
  nsp_usage : gset string;
  nsp_default : gset (string * string);
  nsp_tables : gmap string (gset string);
}.
(** Of a privilege on a database, [None] is [PUBLIC]. *)
Record dbase := Dbase {
  datdba : string;
  dat_connect : gset (option string);
  dat_temp : gset (option string);
  dat_settings : gmap string string;
  dat_schemas : gmap string schema;
}.
Record cluster := Cluster { pg_roles : gmap string role; pg_databases : gmap string dbase }.

Definition set_connect x d := Dbase (datdba d) x (dat_temp d) (dat_settings d) (dat_schemas d).
Definition set_temp x d := Dbase (datdba d) (dat_connect d) x (dat_settings d) (dat_schemas d).
Definition set_setting k v d := Dbase (datdba d) (dat_connect d) (dat_temp d) (<[k := v]> (dat_settings d)) (dat_schemas d).
Definition set_schemas x d := Dbase (datdba d) (dat_connect d) (dat_temp d) (dat_settings d) x.
Definition set_usage x s := Schema (nspowner s) x (nsp_default s) (nsp_tables s).
Definition set_default x s := Schema (nspowner s) (nsp_usage s) x (nsp_tables s).
Definition set_tables x s := Schema (nspowner s) (nsp_usage s) (nsp_default s) x.

(** ** Statements *)

Inductive statement :=
| CreateRole (name : string)
| CreateDatabase (db owner : string)
| RevokePublic (db : string)
| GrantConnect (db role : string)
| AlterDatabase (db setting value : string)
| CreateSchema (db owner : string)
| GrantUsage (db role : string)
| DefaultPrivileges (db owner role : string)
| GrantSelect (db role : string).

(** [sql.Identifier] *)
Definition double_quote : ascii := "034"%char.
Fixpoint doubled (s : string) : string :=
  match s with "" => "" | String a s => (if decide (a = double_quote) then String a (String a "") else String a "") +:+ doubled s end.
Definition identifier (s : string) : string := String double_quote (doubled s +:+ String double_quote "").
Definition statement_text (st : statement) : string :=
  let schema := identifier SCHEMA in
  match st with
  | CreateRole r => "CREATE ROLE " +:+ identifier r +:+ " LOGIN NOSUPERUSER NOCREATEDB NOCREATEROLE"
  | CreateDatabase db own => "CREATE DATABASE " +:+ identifier db +:+ " OWNER " +:+ identifier own
      +:+ " TEMPLATE template0 ENCODING 'UTF8' LOCALE_PROVIDER builtin BUILTIN_LOCALE 'C.UTF-8'"
  | RevokePublic db => "REVOKE CONNECT, TEMP ON DATABASE " +:+ identifier db +:+ " FROM PUBLIC"
  | GrantConnect db r => "GRANT CONNECT ON DATABASE " +:+ identifier db +:+ " TO " +:+ identifier r
  | AlterDatabase db k v => "ALTER DATABASE " +:+ identifier db +:+ " SET " +:+ k +:+ " = " +:+ v
  | CreateSchema _ own => "CREATE SCHEMA " +:+ schema +:+ " AUTHORIZATION " +:+ identifier own
  | GrantUsage _ r => "GRANT USAGE ON SCHEMA " +:+ schema +:+ " TO " +:+ identifier r
  | DefaultPrivileges _ own r => "ALTER DEFAULT PRIVILEGES FOR ROLE " +:+ identifier own +:+ " IN SCHEMA " +:+ schema
      +:+ " GRANT SELECT ON TABLES TO " +:+ identifier r
  | GrantSelect _ r => "GRANT SELECT ON ALL TABLES IN SCHEMA " +:+ schema +:+ " TO " +:+ identifier r
  end.

Definition new_role : role := Role true false false false.
(** A new database lets everybody connect and make temporary tables. *)
Definition new_database (owner : string) : dbase := Dbase owner {[None]} {[None]} ∅ ∅.
Definition new_schema (owner : string) : schema := Schema owner ∅ ∅ ∅.
Definition undefined : exn := PgError "UndefinedObject" false "42704" "does not exist".
Definition duplicate : exn := PgError "DuplicateObject" false "42710" "already exists".

(** What a statement needs, and what it does to the database [db] *)
Definition needs (st : statement) : list string :=
  match st with
  | CreateDatabase _ r | GrantConnect _ r | CreateSchema _ r | GrantUsage _ r | GrantSelect _ r => [r]
  | DefaultPrivileges _ own r => [own; r]
  | _ => []
  end.
Definition in_schema (f : schema -> schema) (d : dbase) : dbase := set_schemas (alter f SCHEMA (dat_schemas d)) d.
Definition on_database (st : statement) (d : dbase) : dbase :=
  match st with
  | CreateRole _ | CreateDatabase _ _ => d
  | RevokePublic _ => set_temp (dat_temp d ∖ {[None]}) (set_connect (dat_connect d ∖ {[None]}) d)
  | GrantConnect _ r => set_connect ({[Some r]} ∪ dat_connect d) d
  | AlterDatabase _ k v => set_setting k v d
  | CreateSchema _ own => set_schemas (<[SCHEMA := new_schema own]> (dat_schemas d)) d
  | GrantUsage _ r => in_schema (fun s => set_usage ({[r]} ∪ nsp_usage s) s) d
  | DefaultPrivileges _ own r => in_schema (fun s => set_default ({[(own, r)]} ∪ nsp_default s) s) d
  | GrantSelect _ r => in_schema (fun s => set_tables ((fun g => {[r]} ∪ g) <$> nsp_tables s) s) d
  end.
Definition target (st : statement) : string :=
  match st with
  | CreateRole r => r
  | CreateDatabase db _ | RevokePublic db | GrantConnect db _ | AlterDatabase db _ _ | CreateSchema db _ | GrantUsage db _
  | DefaultPrivileges db _ _ | GrantSelect db _ => db
  end.
Definition has_schema (d : dbase) : bool := bool_decide (is_Some (dat_schemas d !! SCHEMA)).

(** Carrying a statement out: a role it names is there, what it creates is not, and what it
    changes is. *)
Definition carry_out (st : statement) (c : cluster) : res unit * cluster :=
  if forallb (fun r => bool_decide (is_Some (pg_roles c !! r))) (needs st) then
    match st with
    | CreateRole r => match pg_roles c !! r with
                      | Some _ => (Raise duplicate, c)
                      | None => (Ok tt, Cluster (<[r := new_role]> (pg_roles c)) (pg_databases c))
                      end
    | CreateDatabase db own => match pg_databases c !! db with
                      | Some _ => (Raise duplicate, c)
                      | None => (Ok tt, Cluster (pg_roles c) (<[db := new_database own]> (pg_databases c)))
                      end
    | _ => match pg_databases c !! target st with
           | None => (Raise undefined, c)
           | Some d =>
               let ready := match st with
                            | CreateSchema _ _ => negb (has_schema d)
                            | GrantUsage _ _ | DefaultPrivileges _ _ _ | GrantSelect _ _ => has_schema d
                            | _ => true
                            end in
               if ready then (Ok tt, Cluster (pg_roles c) (<[target st := on_database st d]> (pg_databases c)))
               else (Raise (match st with CreateSchema _ _ => duplicate | _ => undefined end), c)
           end
    end
  else (Raise undefined, c).

(** ** The code *)

(** [faults]: the exception a request ends in, and whether it was carried out all the same. *)
Record world := World { server : cluster; faults : nat -> option (bool * exn); requests : nat }.
Definition request {A} (f : cluster -> res A * cluster) : M world A := fun w =>
  let '(r, c) := f (server w) in
  match faults w (requests w) with
  | Some (carried, e) => (Raise e, World (if carried then c else server w) (faults w) (S (requests w)))
  | None => (r, World c (faults w) (S (requests w)))
  end.
Definition execute (st : statement) : M world unit := request (carry_out st).
Definition query {A} (f : cluster -> A) : M world A := request (fun c => (Ok (f c), c)).
(** [psycopg.connect], to the administrator's database or to one by its name *)
Definition connect (db : option string) : M world unit :=
  request (fun c => (match db with
                     | Some d => if bool_decide (is_Some (pg_databases c !! d)) then Ok tt else Raise undefined
                     | None => Ok tt
                     end, c)).

Section Bootstrap.
(** [repr] of text *)
Context (repr : string -> string).

Definition _check_name (kind name : string) : res unit :=
  if name_matches name then Ok tt
  else Raise (ValueError ("invalid " +:+ kind +:+ " name " +:+ repr name +:+ ": must match " +:+ name_pattern)).

Definition _create_role (name : string) : M world bool :=
  let* found := query (fun c => bool_decide (is_Some (pg_roles c !! name))) in
  if found : bool then ret false else execute (CreateRole name) ;;; ret true.

Context (database owner reader : string).

Definition grants : list statement :=
  [RevokePublic database; GrantConnect database owner; GrantConnect database reader;
   AlterDatabase database "search_path" "node_monitor, public"; AlterDatabase database "timezone" "'UTC'"].
Definition schema_grants : list statement :=
  [GrantUsage database reader; DefaultPrivileges database owner reader; GrantSelect database reader].
Definition execute_all (l : list statement) : M world unit := foldM (fun _ st => execute st) tt l.
Definition if_created (created : bool) (action : string) : list string := if created then [action] else [].

Definition bootstrap : M world (list string) :=
  lift (_check_name "database" database) ;;; lift (_check_name "owner" owner) ;;; lift (_check_name "reader" reader) ;;;
  connect None ;;;
  let* own := _create_role owner in
  let* rd := _create_role reader in
  let* found := query (fun c => bool_decide (is_Some (pg_databases c !! database))) in
  when (negb found) (execute (CreateDatabase database owner)) ;;;
  connect (Some database) ;;;
  execute_all grants ;;;
  let* with_schema := query (fun c => match pg_databases c !! database with Some d => has_schema d | None => false end) in
  when (negb with_schema) (execute (CreateSchema database owner)) ;;;
  execute_all schema_grants ;;;
  ret (if_created own ("created role " +:+ owner) ++ if_created rd ("created role " +:+ reader)
       ++ if_created (negb found) ("created database " +:+ database) ++ if_created (negb with_schema) ("created schema " +:+ SCHEMA)).
End Bootstrap.

(** The pattern does not refuse a newline at the end of a name. *)
Example newline_accepted : name_matches ("owner" +:+ String newline "") = true /\ name_matches ("own er") = false.
Proof. by split. Qed.

(** ** What a complete run leaves *)

Section Prepared.
Context (database owner reader : string).

Definition with_role (r : string) (m : gmap string role) : gmap string role :=
  match m !! r with Some _ => m | None => <[r := new_role]> m end.
Definition prepared_schema (s : schema) : schema :=
  Schema (nspowner s) ({[reader]} ∪ nsp_usage s) ({[(owner, reader)]} ∪ nsp_default s) ((fun g => {[reader]} ∪ g) <$> nsp_tables s).
Definition schema_of (m : gmap string schema) : schema := default (new_schema owner) (m !! SCHEMA).
Definition prepared_db (d : dbase) : dbase :=
  Dbase (datdba d) ({[Some owner; Some reader]} ∪ (dat_connect d ∖ {[None]})) (dat_temp d ∖ {[None]})
    (<["timezone" := "'UTC'"]> (<["search_path" := "node_monitor, public"]> (dat_settings d)))
    (<[SCHEMA := prepared_schema (schema_of (dat_schemas d))]> (dat_schemas d)).
Definition database_of (c : cluster) : dbase := default (new_database owner) (pg_databases c !! database).
Definition prepared (c : cluster) : cluster :=
  Cluster (with_role reader (with_role owner (pg_roles c))) (<[database := prepared_db (database_of c)]> (pg_databases c)).

(** What is reported: what was not there *)
Definition absent {V} (k : string) (m : gmap string V) : bool := bool_decide (m !! k = None).
Definition missing (c : cluster) : list string :=
  if_created (absent owner (pg_roles c)) ("created role " +:+ owner)
  ++ if_created (absent reader (with_role owner (pg_roles c))) ("created role " +:+ reader)
  ++ if_created (absent database (pg_databases c)) ("created database " +:+ database)
  ++ if_created (negb (has_schema (database_of c))) ("created schema " +:+ SCHEMA).

(** *** Roles *)

Lemma with_role_has r m : is_Some (with_role r m !! r).
Proof. unfold with_role. destruct (m !! r) eqn:E; [by eexists|]. rewrite lookup_insert_eq. by eexists. Qed.

Lemma with_role_keeps r m n x : m !! n = Some x -> with_role r m !! n = Some x.
Proof. intros H. unfold with_role. destruct (m !! r) eqn:E; [done|]. rewrite lookup_insert_ne; [done|]. intros ->. by rewrite E in H. Qed.

Lemma with_role_same r m : is_Some (m !! r) -> with_role r m = m.
Proof. intros [x E]. unfold with_role. by rewrite E. Qed.

Lemma with_role_other r m n : n <> r -> with_role r m !! n = m !! n.
Proof. intros H. unfold with_role. destruct (m !! r); [done|]. by rewrite lookup_insert_ne. Qed.

Lemma roles_owner m : with_role reader (with_role owner (with_role owner m)) = with_role reader (with_role owner m).
Proof. by rewrite (with_role_same owner (with_role owner m)) by apply with_role_has. Qed.

Lemma roles_all m : with_role reader (with_role owner (with_role reader (with_role owner m))) = with_role reader (with_role owner m).
Proof.
  rewrite (with_role_same owner); [apply with_role_same, with_role_has|]. destruct (with_role_has owner m) as [x Hx]. exists x. by apply with_role_keeps.
Qed.

(** *** The database *)

Lemma insert_alter_same {V} (m : gmap string V) k f x : <[k := x]> (alter f k m) = <[k := x]> m.
Proof.
  apply map_eq. intros i. destruct (decide (k = i)) as [->|Hn]; [by rewrite !lookup_insert_eq|].
  by rewrite !lookup_insert_ne, lookup_alter_ne.
Qed.

Lemma prepared_in_schema f d : (forall s, prepared_schema (f s) = prepared_schema s) -> prepared_db (in_schema f d) = prepared_db d.
Proof.
  intros Hf. unfold prepared_db, in_schema, set_schemas. cbn. f_equal. rewrite insert_alter_same. f_equal.
  unfold schema_of. rewrite lookup_alter_eq. destruct (dat_schemas d !! SCHEMA); [apply Hf | done].
Qed.

Lemma granted_twice (m : gmap string (gset string)) : (fun g => {[reader]} ∪ g) <$> ((fun g => {[reader]} ∪ g) <$> m) = (fun g => {[reader]} ∪ g) <$> m.
Proof. rewrite <- map_fmap_compose. apply map_fmap_ext. intros k g _. unfold compose. set_solver. Qed.

(** The statements on the database lead to the same end. *)
Definition leads (st : statement) : Prop := forall d, prepared_db (on_database st d) = prepared_db d.

Lemma grants_lead : Forall leads (grants database owner reader).
Proof.
  unfold grants. repeat constructor; intros d; unfold prepared_db; cbn; f_equal; try set_solver.
  - by rewrite insert_insert_eq.
  - rewrite (insert_insert_ne _ "search_path" "timezone"), insert_insert_eq by done. done.
Qed.

Lemma schema_grants_lead : Forall leads (schema_grants database owner reader).
Proof.
  unfold schema_grants. repeat constructor; intros d; apply prepared_in_schema; intros s; unfold prepared_schema; cbn; f_equal; try set_solver.
  apply granted_twice.
Qed.

Lemma new_schema_leads d : has_schema d = false -> prepared_db (on_database (CreateSchema database owner) d) = prepared_db d.
Proof.
  unfold has_schema. intros H%bool_decide_eq_false. unfold prepared_db. cbn. f_equal. rewrite insert_insert_eq. f_equal. f_equal.
  unfold schema_of. rewrite lookup_insert_eq. destruct (dat_schemas d !! SCHEMA) eqn:E; [|done]. destruct H. by eexists.
Qed.

(** All of them in their order are the end. *)
Definition all_on (l : list statement) (d : dbase) : dbase := foldl (fun d st => on_database st d) d l.
Definition with_schema (d : dbase) : dbase := if has_schema d then d else on_database (CreateSchema database owner) d.

Lemma all_grants d : all_on (schema_grants database owner reader) (with_schema (all_on (grants database owner reader) d)) = prepared_db d.
Proof.
  unfold with_schema. destruct (has_schema _) eqn:E; unfold has_schema in E; cbn in E; unfold all_on, prepared_db, schema_of, in_schema; cbn; unfold in_schema, set_schemas; cbn; f_equal; try set_solver.
  - apply bool_decide_eq_true in E as [s Es]. apply map_eq. intros i. destruct (decide (i = SCHEMA)) as [->|Hn].
    + rewrite !lookup_alter_eq, lookup_insert_eq, Es. cbn. done.
    + by rewrite !lookup_alter_ne, lookup_insert_ne.
  - apply bool_decide_eq_false in E. apply map_eq. intros i. destruct (decide (i = SCHEMA)) as [->|Hn].
    + rewrite !lookup_alter_eq, !lookup_insert_eq. destruct (dat_schemas d !! SCHEMA) eqn:Es; [destruct E; by eexists|]. done.
    + by rewrite !lookup_alter_ne, !lookup_insert_ne.
Qed.
End Prepared.

(** ** A run on faulty connections *)

Section Run.
Context (repr : string -> string) (database owner reader : string) (c0 : cluster) (F : nat -> option (bool * exn)).
#[local] Abbreviation end_of := (prepared database owner reader).

Definition at_cluster (c : cluster) (w : world) : Prop := server w = c /\ faults w = F.
(** A request failed, and nothing is there that a complete run would not leave. *)
Definition interrupted (w : world) : Prop := end_of (server w) = end_of c0 /\ faults w = F /\ exists n, is_Some (F n).
Definition finishes {A} (c : cluster) (m : M world A) (a : A) (c' : cluster) : Prop :=
  hoare (at_cluster c) m (fun r w => match r with Ok x => x = a /\ at_cluster c' w | Raise _ => interrupted w end).

Lemma fin_ret {A} c (a : A) : finishes c (ret a) a c.
Proof. by apply hoare_ret. Qed.

Lemma fin_bind {A B} (m : M world A) (k : A -> M world B) c c1 c2 a b :
  finishes c m a c1 -> finishes c1 (k a) b c2 -> finishes c (bind m k) b c2.
Proof.
  intros Hm Hk. eapply hoare_bind with (R := fun x w => x = a /\ at_cluster c1 w).
  - eapply hoare_post; [exact Hm|]. by intros [].
  - intros x w [-> Hw]. by apply Hk.
Qed.

Lemma fin_lift {A} c (a : A) : finishes c (lift (Ok a)) a c.
Proof. by apply hoare_lift. Qed.

Lemma fin_request {A} (f : cluster -> res A * cluster) c a c' :
  f c = (Ok a, c') -> end_of c = end_of c0 -> end_of c' = end_of c0 -> finishes c (request f) a c'.
Proof.
  intros E Hc Hc' w [Hs Hf]. unfold request. rewrite Hs, E, Hf. destruct (F (requests w)) as [[carried e]|] eqn:Ef; cbn; [|by split].
  split; [by destruct carried | split; [done|]]. eexists. by rewrite Ef.
Qed.

Lemma fin_query {A} (f : cluster -> A) c : end_of c = end_of c0 -> finishes c (query f) (f c) c.
Proof. intros H. by apply fin_request. Qed.

Lemma fin_connect c db : match db with Some d => is_Some (pg_databases c !! d) | None => True end ->
  end_of c = end_of c0 -> finishes c (connect db) tt c.
Proof. intros Hd H. apply fin_request; [|done..]. destruct db; [by rewrite bool_decide_true | done]. Qed.

Lemma fin_create_role r rs ds : end_of (Cluster rs ds) = end_of c0 -> end_of (Cluster (with_role r rs) ds) = end_of c0 ->
  finishes (Cluster rs ds) (_create_role r) (absent r rs) (Cluster (with_role r rs) ds).
Proof.
  intros H1 H2. unfold _create_role. eapply fin_bind; [by apply fin_query|]. cbn [pg_roles]. unfold absent, with_role in *.
  destruct (rs !! r) as [x|] eqn:E.
  - rewrite bool_decide_true by by eexists. rewrite bool_decide_false by done. apply fin_ret.
  - rewrite bool_decide_false by by intros []. rewrite bool_decide_true by done.
    eapply fin_bind; [|apply fin_ret]. apply fin_request; [|done..]. cbn. by rewrite E.
Qed.

(** *** On the database *)

Section OnDatabase.
Context (rs : gmap string role) (Howner : is_Some (rs !! owner)) (Hreader : is_Some (rs !! reader)).
Context (ds : gmap string dbase).
#[local] Abbreviation with_db d := (Cluster rs (<[database := d]> ds)).
Context (Hend : forall d d', prepared_db owner reader d = prepared_db owner reader d' -> end_of (with_db d) = end_of (with_db d')).

(** A statement that can be carried out on [d] *)
Definition possible (st : statement) (d : dbase) : Prop := carry_out st (with_db d) = (Ok tt, with_db (on_database st d)).

Lemma grant_possible st d : st ∈ grants database owner reader -> possible st d.
Proof using Howner Hreader.
  unfold possible, carry_out, grants. intros H. repeat (apply elem_of_cons in H as [->|H]; [cbn; rewrite ?bool_decide_true by done; cbn;
    rewrite lookup_insert_eq; cbn; by rewrite insert_insert_eq|]). by apply elem_of_nil in H.
Qed.

Lemma schema_grant_possible st d : has_schema d = true -> st ∈ schema_grants database owner reader -> possible st d.
Proof using Howner Hreader.
  intros Hs. unfold possible, carry_out, schema_grants. intros H. repeat (apply elem_of_cons in H as [->|H]; [cbn; rewrite ?bool_decide_true by done; cbn;
    rewrite lookup_insert_eq, Hs; cbn; by rewrite insert_insert_eq|]). by apply elem_of_nil in H.
Qed.

Lemma fin_execute_all l d (I : dbase -> Prop) : I d -> Forall (leads owner reader) l ->
  (forall st d, st ∈ l -> I d -> possible st d /\ I (on_database st d)) -> end_of (with_db d) = end_of c0 ->
  finishes (with_db d) (execute_all l) tt (with_db (all_on l d)).
Proof using Hend.
  intros HI Hl. revert d HI. induction Hl as [|st l Hst Hl IH]; intros d HI Hp Hd; cbn [execute_all foldM all_on foldl]; [apply fin_ret|].
  destruct (Hp st d) as [Hst' HI']; [by left | done |].
  assert (Hd' : end_of (with_db (on_database st d)) = end_of c0) by (rewrite <- Hd; apply Hend, Hst).
  eapply fin_bind; [by apply fin_request|]. apply IH; [done | | done]. intros st' d' Hin. apply Hp. by right.
Qed.

Lemma schema_grants_keep st d : st ∈ schema_grants database owner reader -> has_schema d = true -> has_schema (on_database st d) = true.
Proof.
  unfold has_schema, schema_grants. intros H Hs%bool_decide_eq_true. apply bool_decide_eq_true.
  repeat (apply elem_of_cons in H as [->|H]; [cbn; by rewrite lookup_alter_eq, fmap_is_Some|]). by apply elem_of_nil in H.
Qed.

Lemma fin_schema d : end_of (with_db d) = end_of c0 ->
  finishes (with_db d) (when (negb (has_schema d)) (execute (CreateSchema database owner))) tt (with_db (with_schema database owner d)).
Proof using Howner Hend.
  intros Hd. unfold with_schema. destruct (has_schema d) eqn:E; cbn [negb when]; [apply fin_ret|].
  apply fin_request; [|done|].
  - unfold carry_out. cbn -[has_schema]. rewrite bool_decide_true by done. cbn -[has_schema]. rewrite lookup_insert_eq. cbn -[has_schema].
    rewrite E. cbn. by rewrite insert_insert_eq.
  - rewrite <- Hd. apply Hend, new_schema_leads, E.
Qed.
End OnDatabase.
End Run.

Section Whole.
Context (repr : string -> string) (database owner reader : string).
#[local] Abbreviation end_of := (prepared database owner reader).

Lemma end_with_db rs ds d : end_of (Cluster rs (<[database := d]> ds))
  = Cluster (with_role reader (with_role owner rs)) (<[database := prepared_db owner reader d]> ds).
Proof. unfold prepared, database_of. cbn. by rewrite lookup_insert_eq, insert_insert_eq. Qed.

Lemma all_lead l d : Forall (leads owner reader) l -> prepared_db owner reader (all_on l d) = prepared_db owner reader d.
Proof. intros H. revert d. induction H as [|st l Hst _ IH]; intros d; [done|]. exact (eq_trans (IH _) (Hst d)). Qed.

Lemma with_schema_leads d : prepared_db owner reader (with_schema database owner d) = prepared_db owner reader d.
Proof. unfold with_schema. destruct (has_schema d) eqn:E; [done|]. by apply new_schema_leads. Qed.

Lemma prepared_db_twice d : prepared_db owner reader (prepared_db owner reader d) = prepared_db owner reader d.
Proof.
  rewrite <- (all_grants database owner reader d) at 1.
  by rewrite all_lead, with_schema_leads, all_lead by (apply schema_grants_lead || apply grants_lead).
Qed.

Lemma end_twice c : end_of (end_of c) = end_of c.
Proof. unfold prepared at 2. rewrite end_with_db, roles_all, prepared_db_twice. done. Qed.

Lemma missing_end c : missing database owner reader (end_of c) = [].
Proof.
  unfold missing, absent. destruct c as [rs ds]. cbn -[has_schema].
  assert (Ho : is_Some (with_role reader (with_role owner rs) !! owner)).
  { destruct (with_role_has owner rs) as [x Hx]. exists x. by apply with_role_keeps. }
  rewrite (with_role_same owner (with_role reader _)) by done.
  assert (Hn : forall m : gmap string role, forall r, is_Some (m !! r) -> bool_decide (m !! r = None) = false).
  { intros m r [x Hx]. rewrite Hx. done. }
  rewrite !Hn by (done || apply with_role_has). rewrite lookup_insert_eq. unfold database_of. cbn -[has_schema]. rewrite lookup_insert_eq.
  cbn. unfold has_schema. cbn. rewrite lookup_insert_eq. done.
Qed.

Lemma with_schema_has d : has_schema (with_schema database owner d) = true.
Proof.
  unfold with_schema. destruct (has_schema d) eqn:E; [done|]. unfold has_schema. cbn. rewrite lookup_insert_eq. done.
Qed.

Lemma database_there {V} (m : gmap string V) k x : <[k := default x (m !! k)]> m = match m !! k with Some _ => m | None => <[k := x]> m end.
Proof. destruct (m !! k) eqn:E; cbn; [by apply insert_id | done]. Qed.

Lemma absent_some {V} (m : gmap string V) k : absent k m = negb (bool_decide (is_Some (m !! k))).
Proof. unfold absent. destruct (m !! k); [by rewrite bool_decide_false, bool_decide_true by eauto | by rewrite bool_decide_true, bool_decide_false by (done || by intros [])]. Qed.

(** A whole run *)
Lemma fin_bootstrap c F :
  name_matches database = true -> name_matches owner = true -> name_matches reader = true ->
  finishes database owner reader c F c (bootstrap repr database owner reader) (missing database owner reader c) (end_of c).
Proof.
  intros Hn1 Hn2 Hn3. destruct c as [rs ds]. unfold bootstrap, _check_name. rewrite Hn1, Hn2, Hn3.
  set (c0 := Cluster rs ds). set (r1 := with_role owner rs). set (r2 := with_role reader r1).
  set (d0 := default (new_database owner) (ds !! database)).
  assert (E1 : end_of (Cluster r1 ds) = end_of c0) by (unfold prepared, c0, r1; cbn; by rewrite roles_owner).
  assert (E2 : end_of (Cluster r2 ds) = end_of c0) by (unfold prepared, c0, r2, r1; cbn; by rewrite roles_all).
  assert (Ho : is_Some (r2 !! owner)) by (destruct (with_role_has owner rs) as [x Hx]; exists x; by apply with_role_keeps).
  assert (Hr : is_Some (r2 !! reader)) by apply with_role_has.
  assert (Hdb : forall d, prepared_db owner reader d = prepared_db owner reader d0 -> end_of (Cluster r2 (<[database := d]> ds)) = end_of c0).
  { intros d Hd. rewrite end_with_db, Hd. unfold prepared, c0, r2, r1, d0. cbn. by rewrite roles_all. }
  assert (Hend : forall d d', prepared_db owner reader d = prepared_db owner reader d' ->
    end_of (Cluster r2 (<[database := d]> ds)) = end_of (Cluster r2 (<[database := d']> ds))) by (intros d d' H; by rewrite !end_with_db, H).
  do 3 (eapply fin_bind; [apply fin_lift|]). eapply fin_bind; [by apply fin_connect|].
  eapply fin_bind; [by apply fin_create_role|]. eapply fin_bind; [by apply fin_create_role|].
  eapply fin_bind; [by apply fin_query|]. cbn [pg_databases].
  eapply fin_bind with (c1 := Cluster r2 (<[database := d0]> ds)) (a := tt).
  { unfold d0. rewrite database_there. destruct (ds !! database) as [d|] eqn:Ed.
    - rewrite bool_decide_true by by eexists. apply fin_ret.
    - rewrite bool_decide_false by by intros []. apply fin_request; [|done|].
      + unfold carry_out. cbn. rewrite bool_decide_true by exact Ho. cbn. by rewrite Ed.
      + by apply Hdb. }
  eapply fin_bind; [apply fin_connect; [cbn; rewrite lookup_insert_eq; by eexists | by apply Hdb]|].
  eapply fin_bind.
  { apply (fin_execute_all database owner reader c0 F r2 ds Hend _ d0 (fun _ => True)); [done | apply grants_lead | | by apply Hdb].
    intros st d Hst _. split; [exact (grant_possible database owner reader r2 Ho Hr ds st d Hst) | done]. }
  set (d1 := all_on _ _). assert (Hd1 : prepared_db owner reader d1 = prepared_db owner reader d0) by exact (all_lead _ _ (grants_lead database owner reader)).
  eapply fin_bind; [apply fin_query, Hdb, Hd1|]. cbn [pg_databases]. rewrite lookup_insert_eq.
  eapply fin_bind; [apply (fin_schema database owner reader c0 F r2 Ho ds Hend), Hdb, Hd1|].
  set (d2 := with_schema _ _ _). assert (Hd2 : prepared_db owner reader d2 = prepared_db owner reader d0) by (unfold d2; by rewrite with_schema_leads).
  eapply fin_bind.
  { apply (fin_execute_all database owner reader c0 F r2 ds Hend _ d2 (fun d => has_schema d = true)); [apply with_schema_has | apply schema_grants_lead | | by apply Hdb].
    intros st d Hst Hs. split; [exact (schema_grant_possible database owner reader r2 Ho Hr ds st d Hs Hst) | by eapply schema_grants_keep]. }
  assert (Ef : end_of c0 = Cluster r2 (<[database := all_on (schema_grants database owner reader) d2]> ds)).
  { unfold d2, d1. rewrite all_grants. done. }
  assert (Em : missing database owner reader c0 = if_created (absent owner rs) ("created role " +:+ owner)
    ++ if_created (absent reader r1) ("created role " +:+ reader)
    ++ if_created (negb (bool_decide (is_Some (ds !! database)))) ("created database " +:+ database)
    ++ if_created (negb (has_schema d1)) ("created schema " +:+ SCHEMA)).
  { unfold missing. rewrite (absent_some (pg_databases c0)). done. }
  rewrite Ef, Em. apply fin_ret.
Qed.
End Whole.

(** ** Properties *)

Section Properties.
Context (repr : string -> string) (database owner reader : string).

(** A run from the cluster [c]: what it returns, and the cluster it leaves. *)
Definition run_once (c : cluster) (F : nat -> option (bool * exn)) : res (list string) * cluster :=
  let '(r, w) := bootstrap repr database owner reader (World c F 0) in (r, server w).
Definition runs (c : cluster) (Fs : list (nat -> option (bool * exn))) : cluster := foldl (fun c F => (run_once c F).2) c Fs.

Lemma run_once_cases c F :
  name_matches database = true -> name_matches owner = true -> name_matches reader = true ->
  match run_once c F with
  | (Ok actions, c') => actions = missing database owner reader c /\ c' = prepared database owner reader c
  | (Raise _, c') => prepared database owner reader c' = prepared database owner reader c /\ exists n, is_Some (F n)
  end.
Proof.
  intros H1 H2 H3. pose proof (fin_bootstrap repr database owner reader c F H1 H2 H3 (World c F 0) (conj eq_refl eq_refl)) as H.
  unfold run_once. destruct (bootstrap _ _ _ _ _) as [[actions|e] w]; cbn in H |- *.
  - destruct H as [-> [Hs _]]. by split.
  - destruct H as (Hs & _ & Hn). by split.
Qed.

End Properties.

(** ** A server lost after it created the owner *)

Definition demo_cluster : cluster := Cluster {["postgres" := Role true true true true]} {["postgres" := new_database "postgres"]}.
Definition demo_loss (n : nat) : option (bool * exn) :=
  if Nat.eqb n 2 then Some (true, PgError "OperationalError" true "" "server closed the connection unexpectedly") else None.
Definition demo_run (c : cluster) (F : nat -> option (bool * exn)) := run_once (fun s => s) "node_monitor" "nm_owner" "nm_reader" c F.

Example bootstrap_demo :
  let c := runs (fun s => s) "node_monitor" "nm_owner" "nm_reader" demo_cluster [demo_loss] in
  (demo_run demo_cluster (fun _ => None)).1 = Ok ["created role nm_owner"; "created role nm_reader"; "created database node_monitor"; "created schema node_monitor"] /\
  (demo_run c (fun _ => None)).1 = Ok ["created role nm_reader"; "created database node_monitor"; "created schema node_monitor"].
Proof. split; vm_compute; reflexivity. Qed.

