(* ===== verification/Fleet.v ===== *)
(** * Running and stopping the sessions together

    [run_sessions], [_stop_all] and [install_signal_handlers] of
    [node_monitor/collector/fleet.py].  What happens on the event loop while the coroutine waits
    is a script of happenings: a session's end, a request to stop (of the event or of a handled
    signal), the end of [duration_sec], the cancellation of the coroutine itself.  An [await]
    takes them from the script until what it waits for holds; a script that ends before is a
    coroutine that still waits.  A session is its task: what it does before it ends is Session.v. *)

From Stdlib Require Import ZArith Lia.
From S2P Require Import Prelude.

#[local] Open Scope string_scope.
#[local] Open Scope list_scope.

(** How [session.run()] ends: the last is the [CancelledError] of a cancelled task. *)
Inductive run_end := Returns | Raises (e : exn) | RunCancelled.
(** The task around it *)
Inductive task := Running | Ended | TaskFailed (e : exn) | TaskCancelled.
Inductive happening := Finishes (label : string) (how : run_end) | StopSet | Elapsed | CancelCaller.
Inductive signum := SIGINT | SIGTERM.
Inductive outcome := Returned | Cancelled | Waiting.

Record fleet := Fleet {
  tasks : list (string * task);
  stop_requested : bool;
  elapsed : bool;
  asked : list string;
  cancelled : list string;
  crashes : list (string * exn);
  handlers : list signum;
  logged : list string;
}.
Definition set_tasks t s := Fleet t (stop_requested s) (elapsed s) (asked s) (cancelled s) (crashes s) (handlers s) (logged s).
Definition set_stop s := Fleet (tasks s) true (elapsed s) (asked s) (cancelled s) (crashes s) (handlers s) (logged s).
Definition set_elapsed s := Fleet (tasks s) (stop_requested s) true (asked s) (cancelled s) (crashes s) (handlers s) (logged s).
Definition ask l s := Fleet (tasks s) (stop_requested s) (elapsed s) (asked s ++ [l]) (cancelled s) (crashes s) (handlers s) (logged s).
Definition cancel l s := Fleet (tasks s) (stop_requested s) (elapsed s) (asked s) (cancelled s ++ [l]) (crashes s) (handlers s) (logged s).
Definition crash l e s := Fleet (tasks s) (stop_requested s) (elapsed s) (asked s) (cancelled s) (crashes s ++ [(l, e)]) (handlers s) (logged s).
Definition set_handlers h s := Fleet (tasks s) (stop_requested s) (elapsed s) (asked s) (cancelled s) (crashes s) h (logged s).
Definition log m s := Fleet (tasks s) (stop_requested s) (elapsed s) (asked s) (cancelled s) (crashes s) (handlers s) (logged s ++ [m]).

Definition running (t : task) : bool := match t with Running => true | _ => false end.
Definition all_done (s : fleet) : bool := forallb (fun lt => negb (running lt.2)) (tasks s).

Section Fleet.
(** What [on_crash] raises, whether [session.stop()] raises, whether a handler can be installed *)
Context (on_crash : string -> exn -> option exn) (stop_raises : string -> bool) (installable : signum -> bool).

(** [supervise], when the session's run has ended *)
Definition supervise (label : string) (how : run_end) (s : fleet) : fleet :=
  match how with
  | Returns => set_tasks (dset label Ended (tasks s)) s
  | Raises e =>
      set_tasks (dset label (match on_crash label e with None => Ended | Some e' => TaskFailed e' end) (tasks s)) (crash label e s)
  | RunCancelled => set_tasks (dset label TaskCancelled (tasks s)) s
  end.
Definition is_running (label : string) (s : fleet) : bool := match dget label (tasks s) with Some t => running t | None => false end.
Definition happens (h : happening) (s : fleet) : fleet :=
  match h with
  | Finishes l how => if is_running l s then supervise l how s else s
  | StopSet => set_stop s
  | Elapsed => set_elapsed s
  | CancelCaller => s
  end.

(** [await]; what is left of the script goes on. *)
Fixpoint await (ready : fleet -> bool) (script : list happening) (s : fleet) : outcome * list happening * fleet :=
  if ready s then (Returned, script, s)
  else match script with
       | [] => (Waiting, [], s)
       | CancelCaller :: script => (Cancelled, script, s)
       | h :: script => await ready script (happens h s)
       end.

(** [install_signal_handlers] *)
Definition install_signal_handlers : list signum := filter (fun sig => installable sig = true) [SIGINT; SIGTERM].

(** [_stop_all] *)
Definition stop_one (s : fleet) (label : string) : fleet :=
  if stop_raises label then cancel label (log ("stopping the session for " +:+ label +:+ " failed; cancelling it") s) else ask label s.
Definition log_failed (s : fleet) (lt : string * task) : fleet :=
  match lt.2 with TaskFailed _ => log ("session task for " +:+ lt.1 +:+ " failed") s | _ => s end.
Definition _stop_all (labels : list string) (script : list happening) (s : fleet) : outcome * list happening * fleet :=
  let s := foldl stop_one s labels in
  match tasks s with
  | [] => (Returned, script, s)
  | _ =>
      let '(r, script, s) := await all_done script s in
      match r with
      | Returned => (Returned, script, foldl log_failed s (tasks s))
      | r => (r, script, s)
      end
  end.

(** What the first wait is for: the event, the end of all sessions if there is one, the time *)
Definition over (s : fleet) : bool :=
  stop_requested s || elapsed s || match tasks s with [] => false | _ => all_done s end.

(** [run_sessions] *)
Definition started (labels : list string) (stop_set handle_signals : bool) : fleet :=
  Fleet (map (fun l => (l, Running)) labels) stop_set false [] [] [] (if handle_signals then install_signal_handlers else []) [].
Definition run_sessions (labels : list string) (stop_set handle_signals : bool) (script : list happening)
    : outcome * list happening * fleet :=
  let '(r, script, s) := await over script (started labels stop_set handle_signals) in
  match r with
  | Waiting => (Waiting, script, s)
  | r =>
      let '(r', script, s) := _stop_all labels script s in
      match r' with
      | Waiting => (Waiting, script, s)
      | Cancelled => (Cancelled, script, set_handlers [] s)
      | Returned => (r, script, set_handlers [] s)
      end
  end.
End Fleet.

(** ** What the coroutine leaves *)

(** How the session ended, by what happened: it ends once. *)
Definition end_in (label : string) (h : happening) : option run_end :=
  match h with Finishes l how => if decide (l = label) then Some how else None | _ => None end.
Definition first_end (label : string) (hs : list happening) : option run_end := head (omap (end_in label) hs).

Lemma first_end_app l hs hs' : first_end l (hs ++ hs') = match first_end l hs with Some how => Some how | None => first_end l hs' end.
Proof. unfold first_end. rewrite omap_app. by destruct (omap (end_in l) hs). Qed.

Section Facts.
Context (on_crash : string -> exn -> option exn).
Definition play (s : fleet) (hs : list happening) : fleet := foldl (fun s h => happens on_crash h s) s hs.

(** A task is what its own session made it. *)
Definition task_of (l : string) (how : option run_end) : task :=
  match how with
  | None => Running
  | Some Returns => Ended
  | Some (Raises e) => match on_crash l e with None => Ended | Some e' => TaskFailed e' end
  | Some RunCancelled => TaskCancelled
  end.
Definition task_after (hs : list happening) (l : string) : task := task_of l (first_end l hs).

Lemma task_of_running l how : running (task_of l how) = true -> how = None.
Proof. destruct how as [[| |]|]; cbn; [done | by destruct (on_crash l e) | done | done]. Qed.

Record follows (labels : list string) (hs : list happening) (s : fleet) : Prop := Follows {
  fo_tasks : tasks s = map (fun l => (l, task_after hs l)) labels;
  fo_crashes : forall l e, (l, e) ∈ crashes s <-> l ∈ labels /\ first_end l hs = Some (Raises e);
}.

Lemma dget_map (f : string -> task) labels l : dget l (map (fun l => (l, f l)) labels) = if decide (l ∈ labels) then Some (f l) else None.
Proof.
  induction labels as [|x labels IH]; [done|]. cbn [map dget]. destruct (decide (x = l)) as [->|Hn].
  - destruct (decide (l ∈ l :: labels)) as [|H]; [done|]. by destruct H; left.
  - rewrite IH. destruct (decide (l ∈ labels)) as [H|H], (decide (l ∈ x :: labels)) as [H'|H']; try done.
    + by destruct H'; right.
    + by apply elem_of_cons in H' as [->|H'].
Qed.

Lemma dset_map (f g : string -> task) labels l t : NoDup labels -> l ∈ labels -> g l = t -> (forall x, x <> l -> g x = f x) ->
  dset l t (map (fun l => (l, f l)) labels) = map (fun l => (l, g l)) labels.
Proof.
  intros Hd Hl Hg Hf. induction Hd as [|x labels Hx Hd IH]; [by apply elem_of_nil in Hl|]. cbn [map dset].
  destruct (decide (x = l)) as [->|Hn].
  - rewrite Hg. f_equal. apply map_ext_in. intros y Hy%list_elem_of_In. rewrite Hf; [done|]. by intros ->.
  - rewrite Hf by done. f_equal. apply IH. apply elem_of_cons in Hl as [->|Hl]; done.
Qed.

Lemma follows_happens labels hs h s : NoDup labels -> follows labels hs s -> follows labels (hs ++ [h]) (happens on_crash h s).
Proof.
  intros Hd [Ht Hc].
  assert (Hsame : (forall l, l ∈ labels -> first_end l (hs ++ [h]) = first_end l hs) ->
    forall s', tasks s' = tasks s -> crashes s' = crashes s -> follows labels (hs ++ [h]) s').
  { intros He s' E1 E2. split; [rewrite E1, Ht; apply map_ext_in; intros l Hl%list_elem_of_In; unfold task_after; by rewrite He|].
    intros l e. rewrite E2, Hc. split; intros [Hl H]; (split; [done|]); [by rewrite He | by rewrite <- He]. }
  assert (Hother : (forall l, end_in l h = None) -> forall l, l ∈ labels -> first_end l (hs ++ [h]) = first_end l hs).
  { intros He l _. rewrite first_end_app. unfold first_end at 2. cbn. rewrite He. by destruct (first_end l hs). }
  destruct h as [l how| | |]; cbn [happens]; [|by apply Hsame; [by apply Hother|..]..].
  unfold is_running. rewrite Ht, dget_map. destruct (decide (l ∈ labels)) as [Hl|Hl].
  - destruct (running (task_after hs l)) eqn:Er.
    + apply task_of_running in Er.
      assert (E1 : first_end l (hs ++ [Finishes l how]) = Some how).
      { rewrite first_end_app, Er. unfold first_end. cbn. by rewrite decide_True. }
      assert (E2 : forall x, x <> l -> first_end x (hs ++ [Finishes l how]) = first_end x hs).
      { intros x Hx. rewrite first_end_app. unfold first_end at 2. cbn. rewrite decide_False by done. by destruct (first_end x hs). }
      assert (Hset : forall t, task_of l (Some how) = t ->
        dset l t (tasks s) = map (fun x => (x, task_after (hs ++ [Finishes l how]) x)) labels).
      { intros t Hset. rewrite Ht. apply dset_map; [done | done | unfold task_after; by rewrite E1 |].
        intros x Hx. unfold task_after. by rewrite E2. }
      split.
      * destruct how as [|e|]; cbn [supervise tasks set_tasks crash]; apply Hset; done.
      * intros x e. assert (Hx : (x, e) ∈ crashes (supervise on_crash l how s) <-> (x, e) ∈ crashes s \/ x = l /\ how = Raises e).
        { destruct how as [|e'|]; cbn; [naive_solver | | naive_solver]. rewrite elem_of_app, list_elem_of_singleton. naive_solver. }
        rewrite Hx, Hc. destruct (decide (x = l)) as [->|Hn]; [rewrite E1, Er; naive_solver | rewrite E2 by done; naive_solver].
    + apply Hsame; [|done..]. intros x Hx. rewrite first_end_app. destruct (first_end x hs) eqn:Ef; [done|].
      unfold first_end. cbn. rewrite decide_False; [done|]. intros ->. unfold task_after in Er. by rewrite Ef in Er.
  - apply Hsame; [|done..]. intros x Hx. rewrite first_end_app. unfold first_end at 2. cbn.
    rewrite decide_False by (intros ->; done). by destruct (first_end x hs).
Qed.

Lemma follows_play labels hs hs' s : NoDup labels -> follows labels hs s -> follows labels (hs ++ hs') (play s hs').
Proof.
  intros Hd. revert hs s. induction hs' as [|h hs' IH]; intros hs s H; [by rewrite app_nil_r|].
  rewrite (cons_middle h hs hs'), app_assoc. apply IH. by apply follows_happens.
Qed.

(** What happens does not ask or cancel anybody. *)
Definition quiet (s : fleet) : list string * list string * list signum := (asked s, cancelled s, handlers s).
Lemma happens_quiet h s : quiet (happens on_crash h s) = quiet s.
Proof. destruct h as [l how| | |]; cbn; try done. destruct (is_running l s); [|done]. by destruct how. Qed.
Lemma play_quiet s hs : quiet (play s hs) = quiet s.
Proof. revert s. induction hs as [|h hs IH]; intros s; [done|]. cbn. change (foldl _ ?x hs) with (play x hs). by rewrite IH, happens_quiet. Qed.

(** *** Waiting *)

Lemma await_cases ready script s r rest s' : await on_crash ready script s = (r, rest, s') ->
  exists used, script = used ++ rest /\ s' = play s used /\ (forall p q, used = p ++ q -> q <> [] -> ready (play s p) = false) /\
    match r with
    | Returned => ready s' = true
    | Cancelled => last used = Some CancelCaller
    | Waiting => rest = [] /\ ready s' = false
    end.
Proof.
  revert s. induction script as [|h script IH]; intros s H; cbn [await] in H; destruct (ready s) eqn:Er.
  - injection H as <- <- <-. exists []. split_and!; [done | done | by intros [] [] | done].
  - injection H as <- <- <-. exists []. split_and!; [done | done | by intros [] [] | done | done].
  - injection H as <- <- <-. exists []. split_and!; [done | done | by intros [] [] | done].
  - assert (Hh : h = CancelCaller \/ h <> CancelCaller) by (destruct h; [by right.. | by left]). destruct Hh as [->|Hh].
    + injection H as <- <- <-. exists [CancelCaller]. split_and!; [done | done | | done]. intros [|x p] q E Hq; [done|].
      injection E as <- E. by destruct p, q.
    + assert (E : await on_crash ready script (happens on_crash h s) = (r, rest, s')) by (by destruct h).
      destruct (IH _ E) as (used & -> & -> & Hp & Hr). exists (h :: used). split_and!; [done | done | |].
      * intros [|x p] q Eq Hq; [done|]. injection Eq as -> Eq. by eapply Hp.
      * destruct r; [done | | done]. destruct used; [done|]. exact Hr.
Qed.
End Facts.

(** ** Properties *)

Section Properties.
Context (on_crash : string -> exn -> option exn) (stop_raises : string -> bool) (installable : signum -> bool).

Lemma follows_eq labels hs s s' : tasks s' = tasks s -> crashes s' = crashes s -> follows on_crash labels hs s -> follows on_crash labels hs s'.
Proof. intros E1 E2 [Ht Hc]. split; [by rewrite E1 | intros l e; by rewrite E2]. Qed.

Lemma stops labels s :
  let s' := foldl (stop_one stop_raises) s labels in
  tasks s' = tasks s /\ crashes s' = crashes s /\ handlers s' = handlers s /\
  asked s' = asked s ++ filter (fun l => stop_raises l = false) labels /\
  cancelled s' = cancelled s ++ filter (fun l => stop_raises l = true) labels.
Proof.
  cbn. revert s. induction labels as [|l labels IH]; intros s; cbn [foldl]; [by rewrite !app_nil_r|].
  destruct (IH (stop_one stop_raises s l)) as (-> & -> & -> & -> & ->). unfold stop_one. rewrite !filter_cons.
  destruct (stop_raises l); [rewrite (decide_True (P := true = true)), (decide_False (P := true = false)) by done
    | rewrite (decide_False (P := false = true)), (decide_True (P := false = false)) by done]; cbn; by rewrite <- ?app_assoc.
Qed.

Lemma logs l s : let s' := foldl log_failed s l in
  tasks s' = tasks s /\ crashes s' = crashes s /\ handlers s' = handlers s /\ asked s' = asked s /\ cancelled s' = cancelled s.
Proof.
  cbn. revert s. induction l as [|x l IH]; intros s; cbn [foldl]; [done|]. destruct (IH (log_failed s x)) as (-> & -> & -> & -> & ->).
  unfold log_failed. by destruct x as [? []].
Qed.

Lemma done_when_finished labels hs s : follows on_crash labels hs s -> (forall l, l ∈ labels -> exists how, Finishes l how ∈ hs) -> all_done s = true.
Proof.
  intros [Ht _] Hf. unfold all_done. rewrite Ht. apply forallb_forall. intros [l t] (x & [= <- <-] & Hx)%in_map_iff. cbn.
  destruct (running _) eqn:Er; [|done]. apply task_of_running in Er. destruct (Hf x (proj2 (list_elem_of_In _ _) Hx)) as [how Hh].
  apply list_elem_of_split in Hh as (h1 & h2 & ->). rewrite first_end_app in Er. destruct (first_end x h1); [done|].
  unfold first_end in Er. cbn in Er. by rewrite decide_True in Er.
Qed.

(** [_stop_all]: everybody is asked first, and then waited for. *)
Lemma stop_all_cases labels script s r rest s' hs : NoDup labels -> follows on_crash labels hs s -> asked s = [] -> cancelled s = [] ->
  _stop_all on_crash stop_raises labels script s = (r, rest, s') ->
  exists used, script = used ++ rest /\ follows on_crash labels (hs ++ used) s' /\
    asked s' = filter (fun l => stop_raises l = false) labels /\ cancelled s' = filter (fun l => stop_raises l = true) labels /\
    match r with
    | Returned => all_done s' = true
    | Cancelled => last used = Some CancelCaller
    | Waiting => rest = [] /\ all_done s' = false
    end.
Proof.
  intros Hd Hs Ha Hc E. unfold _stop_all in E. destruct (stops labels s) as (E1 & E2 & _ & E4 & E5).
  set (s1 := foldl _ s labels) in *. rewrite Ha in E4. rewrite Hc in E5. cbn [app] in E4, E5. apply (follows_eq _ _ _ s1 E1 E2) in Hs.
  destruct (tasks s1) as [|x l] eqn:Et.
  - injection E as <- <- <-. exists []. rewrite app_nil_r. split_and!; try done. unfold all_done. by rewrite Et.
  - destruct (await on_crash all_done script s1) as [[r1 rest1] s2] eqn:Ew.
    destruct (await_cases _ _ _ _ _ _ _ Ew) as (used & -> & -> & _ & Hr). exists used.
    pose proof (follows_play on_crash labels hs used s1 Hd Hs) as Hf. pose proof (play_quiet on_crash s1 used) as Hq.
    unfold quiet in Hq. injection Hq as Hq1 Hq2 _. rewrite E4 in Hq1. rewrite E5 in Hq2.
    destruct r1; injection E as <- <- <-; [|split_and!; done || apply Hr..].
    destruct (logs (tasks (play on_crash s1 used)) (play on_crash s1 used)) as (L1 & L2 & _ & L4 & L5).
    split_and!; [done | by eapply follows_eq | by rewrite L4 | by rewrite L5 |]. unfold all_done. by rewrite L1.
Qed.

(** C11. A session stands or falls alone, and they stop together.  A task ends as its own session
    made it end, and exactly the sessions that raised are reported to [on_crash], the others
    carrying on; nobody is asked to stop before a stop was requested, the time was over, every
    session had ended, or the coroutine was cancelled; after that every session is asked or, if
    asking raised, cancelled, and each before anyone is waited for; the signal handlers are
    gone, and every session has ended unless the coroutine was cancelled while it waited for
    just that.  Without a cancellation it returns once every session has ended. *)
Theorem sessions_stopped labels stop_set handle_signals script r rest s :
  NoDup labels -> run_sessions on_crash stop_raises installable labels stop_set handle_signals script = (r, rest, s) ->
  exists u1 u2, script = u1 ++ u2 ++ rest /\
    let start := started installable labels stop_set handle_signals in
    tasks s = map (fun l => (l, task_after on_crash (u1 ++ u2) l)) labels /\
    (forall l e, (l, e) ∈ crashes s <-> l ∈ labels /\ first_end l (u1 ++ u2) = Some (Raises e)) /\
    (forall p q, u1 = p ++ q -> q <> [] -> over (play on_crash start p) = false) /\
    (r <> Waiting ->
       (over (play on_crash start u1) = true \/ last u1 = Some CancelCaller) /\
       asked s = filter (fun l => stop_raises l = false) labels /\ cancelled s = filter (fun l => stop_raises l = true) labels /\
       handlers s = [] /\ (all_done s = true \/ r = Cancelled /\ last u2 = Some CancelCaller)) /\
    (CancelCaller ∉ script -> labels <> [] -> (forall l, l ∈ labels -> exists how, Finishes l how ∈ script) -> r = Returned).
Proof.
  intros Hd E. unfold run_sessions in E. set (start := started installable labels stop_set handle_signals) in *.
  assert (Hs : follows on_crash labels [] start).
  { split; [done|]. intros l e. cbn. split; [by intros ?%elem_of_nil | by intros [_ H]]. }
  destruct (await on_crash over script start) as [[r1 rest1] s1] eqn:Ew.
  destruct (await_cases _ _ _ _ _ _ _ Ew) as (u1 & -> & -> & Hp & Hr1).
  pose proof (follows_play on_crash labels [] u1 start Hd Hs) as Hf1. cbn [app] in Hf1.
  pose proof (play_quiet on_crash start u1) as Hq. unfold quiet in Hq. cbn in Hq. injection Hq as Hq1 Hq2 _.
  assert (Hlast : forall u v : list happening, last u = Some CancelCaller -> CancelCaller ∉ u ++ v -> False).
  { intros u v H Hn. apply Hn. apply elem_of_app. left. by apply last_Some_elem_of. }
  destruct (_stop_all on_crash stop_raises labels rest1 (play on_crash start u1)) as [[r2 rest2] s2] eqn:Ea.
  destruct r1 eqn:Er1; [| |].
  3: { injection E as <- <- <-. destruct Hr1 as [-> Ho]. exists u1, []. rewrite !app_nil_r. split; [done|]. split; [apply Hf1|]. split; [apply Hf1|]. split; [exact Hp|]. split; [done|].
       intros _ Hne Hall. exfalso. pose proof (done_when_finished _ _ _ Hf1 Hall) as Hdone.
       unfold over in Ho. rewrite Hdone, (fo_tasks _ _ _ _ Hf1) in Ho. destruct labels; [done|]. cbn in Ho. by rewrite orb_true_r in Ho. }
  all: destruct (stop_all_cases labels rest1 _ r2 rest2 s2 u1 Hd Hf1 Hq1 Hq2 Ea) as (u2 & -> & Hf2 & Ha & Hc & Hr2);
    exists u1, u2; destruct r2; injection E as <- <- <-;
    (split; [done|]; split; [apply Hf2|]; split; [apply Hf2|]; split; [exact Hp|]; split).
  all: try (intros _; split_and!; [by auto | done | done | done | by auto]).
  all: try done.
  all: intros Hn Hne Hall; exfalso.
  all: try (apply (Hlast _ _ Hr1 Hn)).
  all: try (apply (Hlast u2 rest2 Hr2); intros H; apply Hn; apply elem_of_app; by right).
  destruct Hr2 as [-> Hnd]. rewrite app_nil_r in Hall. by rewrite (done_when_finished _ _ _ Hf2 Hall) in Hnd.
Qed.
End Properties.

(** ** Two sessions, one of which raises and whose stop raises too *)

Definition demo_crash : string -> exn -> option exn := fun _ _ => None.
Definition demo_raises (l : string) : bool := bool_decide (l = "b").
Definition demo_fleet (script : list happening) := run_sessions demo_crash demo_raises (fun _ => true) ["a"; "b"] false true script.

Example crash_alone :
  let '(r, _, s) := demo_fleet [Finishes "b" (Raises (ValueError "x")); StopSet; Finishes "a" Returns] in
  (r, tasks s, crashes s, asked s, cancelled s) = (Returned, [("a", Ended); ("b", Ended)], [("b", ValueError "x")], ["a"], ["b"]).
Proof. reflexivity. Qed.

(** Cancelled while the sessions shut down, the coroutine returns without having awaited them. *)
Example cancelled_unawaited :
  let '(r, _, s) := demo_fleet [StopSet; CancelCaller; Finishes "a" Returns] in
  (r, tasks s, asked s) = (Cancelled, [("a", Running); ("b", Running)], ["a"]).
Proof. reflexivity. Qed.

Lemma sessions_stopped_witness :
  exists u1 u2, [StopSet; Finishes "b" Returns; Finishes "a" Returns; Elapsed] = u1 ++ u2 ++ [Elapsed] /\
    let start := started (fun _ => true) ["a"; "b"] false true in
    let s := (demo_fleet [StopSet; Finishes "b" Returns; Finishes "a" Returns; Elapsed]).2 in
    tasks s = map (fun l => (l, task_after demo_crash (u1 ++ u2) l)) ["a"; "b"] /\
    (forall l e, (l, e) ∈ crashes s <-> l ∈ ["a"; "b"] /\ first_end l (u1 ++ u2) = Some (Raises e)) /\
    (forall p q, u1 = p ++ q -> q <> [] -> over (play demo_crash start p) = false) /\
    (Returned <> Waiting ->
       (over (play demo_crash start u1) = true \/ last u1 = Some CancelCaller) /\
       asked s = filter (fun l => demo_raises l = false) ["a"; "b"] /\ cancelled s = filter (fun l => demo_raises l = true) ["a"; "b"] /\
       handlers s = [] /\ (all_done s = true \/ Returned = Cancelled /\ last u2 = Some CancelCaller)) /\
    (CancelCaller ∉ [StopSet; Finishes "b" Returns; Finishes "a" Returns; Elapsed] -> ["a"; "b"] <> [] ->
       (forall l, l ∈ ["a"; "b"] -> exists how, Finishes l how ∈ [StopSet; Finishes "b" Returns; Finishes "a" Returns; Elapsed]) -> Returned = Returned).
Proof.
  apply (sessions_stopped demo_crash demo_raises (fun _ => true) ["a"; "b"] false true
    [StopSet; Finishes "b" Returns; Finishes "a" Returns; Elapsed] Returned [Elapsed]
    (demo_fleet [StopSet; Finishes "b" Returns; Finishes "a" Returns; Elapsed]).2);
    [apply (bool_decide_unpack _); vm_compute; exact I | reflexivity].
Defined.
