(* ===== verification/Commands.v ===== *)
(** * The database and daemon commands

    Commands of [node_monitor/cli/main.py]: [database migrate], [database status] and
    [database wait], [config --create], [daemon status] after its look at the guard
    (Instance.v), and the table of [soak report].  What a command writes is its lines; a
    [ClickException] is what click prints before it exits with 1.  [time.monotonic] counts
    microseconds; the text of a number with a format, and of a value, are parameters. *)

From Stdlib Require Import ZArith Lia.
From stdpp Require Import pretty.
From S2P Require Import Prelude PyFloat PyTime PyVal Text Connect Summary Enrich Backfill Output Live Migrate.

#[local] Open Scope string_scope.
#[local] Open Scope list_scope.
#[local] Open Scope Z_scope.
#[local] Open Scope py_scope.

(** What a command wrote, and its exit code *)
Record written := Written { lines_of : list string; code : Z }.

(** ** [database migrate] *)

Section Migrating.
Context (migrations : list migration).
(** The owner of the schema, if it exists, and the session's role *)
Context (owner : option string) (user : string).
Definition SCHEMA_NAME : string := "node_monitor".

Definition no_schema : exn :=
  ClickException ("schema " +:+ SCHEMA_NAME +:+ " does not exist; run `node-monitor database bootstrap` first").
Definition not_the_owner (owner : string) : exn :=
  ClickException ("database migrate must run as the owner of schema " +:+ SCHEMA_NAME +:+ " (" +:+ owner +:+ "), not " +:+ user
                  +:+ ": use the owner-role URL in database.url").
(** A query that changes nothing *)
Definition query : M mconn unit := execute (fun d => Ok (tt, d)).
(** [_check_schema_owner] *)
Definition _check_schema_owner : M mconn unit :=
  let* _ := query in
  match owner with
  | None => raise no_schema
  | Some o => if bool_decide (o = user) then ret tt else raise (not_the_owner o)
  end.
Definition applied_text (applied : list Z) : string :=
  match applied with [] => "up to date" | _ => "applied: " +:+ joined ", " (map (pad 4) applied) end.
(** [run], and what [database_migrate] says *)
Definition run_migrate : M mconn (list Z) := _check_schema_owner ;;; migrate migrations.
Definition database_migrate : M mconn string := let* applied := _run_database run_migrate in ret (applied_text applied).

(** ** [database status] *)

(** A row of [_PARTITIONS]: a parent, and a partition with its bound if it has one *)
Definition partition_line (p : string * option (string * string)) : string :=
  match p.2 with
  | None => "partition " +:+ p.1 +:+ ": none"
  | Some (child, bound) => "partition " +:+ p.1 +:+ "." +:+ child +:+ ": " +:+ bound
  end.
Definition pending_at (version : Z) : list string := map snd (filter (fun m => version < m.1) migrations).
Definition database_status (partitions : list (string * option (string * string))) : M mconn written :=
  let* version := _run_database (let* version := current_version in let* _ := query in ret version) in
  let pending := pending_at version in
  ret (Written (["current version: " +:+ pretty version; "required version: " +:+ pretty (REQUIRED_VERSION migrations);
                 "pending: " +:+ match pending with [] => "none" | _ => joined ", " pending end]
                ++ map partition_line partitions)
         (match pending with [] => 0 | _ => 1 end)).
End Migrating.

(** ** [database wait] *)

(** One connection attempt: how long it took, how it ended, and how much longer the sleep after
    it was than asked for *)
Record attempt := Attempt { took : Z; ended : res unit; overslept : Z }.
Definition reason_of (e : exn) : string :=
  let text := strip (exn_text e) in if bool_decide (text = "") then exn_class e else first_line_of text.
Definition retried (e : exn) : bool := match e with PgError _ _ _ _ | DatabaseUnavailable _ => true | _ => false end.
Definition not_reachable (timeout_text : string) (e : exn) : exn :=
  ClickException ("database not reachable after " +:+ timeout_text +:+ "s: " +:+ reason_of e).

(** The loop from the time [clock]: its result, if the attempts are enough for one, when, and
    how many were made *)
Fixpoint wait_loop (timeout_text : string) (deadline clock : Z) (made : nat) (attempts : list attempt) : option (res unit * Z * nat) :=
  match attempts with
  | [] => None
  | a :: attempts =>
      let clock := clock + took a in
      match ended a with
      | Ok _ => Some (Ok tt, clock, S made)
      | Raise e =>
          if retried e then
            let remaining := deadline - clock in
            if remaining <=? 0 then Some (Raise (not_reachable timeout_text e), clock, S made)
            else wait_loop timeout_text deadline (clock + Z.min (2 * second_us) remaining + overslept a) (S made) attempts
          else Some (Raise e, clock, S made)
      end
  end.
Definition database_wait (timeout : Z) (timeout_text : string) (now : Z) (attempts : list attempt) : option (res unit * Z * nat) :=
  wait_loop timeout_text (now + timeout) now 0 attempts.

(** ** [config --create] *)

(** The file at the target, if there is one; whether creating it fails otherwise *)
Definition config_command (template target : string) (file : option string) (fault : option exn) : res unit * option string :=
  match file, fault with
  | Some _, _ => (Raise (ClickException (target +:+ " already exists; not overwriting")), file)
  | None, Some e => (Raise (ClickException ("cannot write " +:+ target +:+ ": " +:+ exn_text e)), None)
  | None, None => (Ok tt, Some template)
  end.

(** ** [daemon status] *)

Definition _HEARTBEAT_FRESH_SEC : Z := 180.
(** [_age] *)
Definition _age (seconds : float) : res string :=
  s ← py_trunc seconds;
  let s := Z.max 0 s in
  Ok (if s <? 120 then pretty s +:+ "s" else if s <? 7200 then pretty (s / 60) +:+ "m"
      else if s <? 172800 then pretty (s / 3600) +:+ "h" else pretty (s / 86400) +:+ "d").

Section Status.
Context {Sh : Shown}.

Definition text_or_dash (k : string) (status : dict) : string := text_value (default (VStr "-") (dget k status)).
Definition session_lines (status : dict) : res (list string) :=
  let v := dget_or_none "sessions" status in
  if truthy v then
    match v with
    | VDict d => Ok (map (fun kv => "  " +:+ kv.1 +:+ ": " +:+ text_value kv.2) (sorted_items d))
    | _ => Raise AttributeError
    end
  else Ok [].
(** [_print_heartbeat]: its lines and the age *)
Definition _print_heartbeat (row : dict) (now : datetime) : res (list string * float) :=
  seen ← time_in "last_seen" row;
  let age := age_of now seen in
  status ← status_of row;
  host ← item "collector_host" row; version ← item "version" row;
  age_text ← _age age;
  sessions ← session_lines status;
  let outage := dget_or_none "outage_since" status in
  Ok (["heartbeat: last seen " +:+ age_text +:+ " ago on " +:+ text_value host;
       "  version: " +:+ text_value version +:+ "  state: " +:+ text_or_dash "state" status;
       "  connected: " +:+ text_or_dash "connected" status; "  spooled batches: " +:+ text_or_dash "spooled_batches" status]
      ++ (if truthy outage then ["  database outage since: " +:+ text_value outage] else []) ++ sessions, age).

(** The heartbeat as it is fetched: no URL, a failure with its reason, or the row *)
Inductive fetched := NoUrl | Unreachable (reason : string) | Row (row : option dict).

(** The part about the local process: [info] is the running daemon's, [stale] what was removed *)
Definition here (host : string) (info : option dict) : bool :=
  match info with Some i => match dget_or_none "host" i with VStr h => bool_decide (h = host) | _ => false end && negb (bool_decide (i = [])) | None => false end.
Definition local_lines (host : string) (info stale : option dict) (now : datetime) : res (list string) :=
  match info with
  | Some ((_ :: _) as i) =>
      if here host info then
        started ← item "started_at" i; pid ← item "pid" i;
        match started with
        | VStr s => match fromisoformat s with
                    | Some t => up ← _age (age_of now t);
                                Ok ["local process: running (pid " +:+ text_value pid +:+ " on " +:+ host +:+ ", up " +:+ up +:+ ")"]
                    | None => Raise (ValueError s)
                    end
        | _ => Raise TypeError
        end
      else Ok ["local process: not running"]
  | _ =>
      Ok ["local process: not running" +:+ match stale with
            | Some ((_ :: _) as d) => " (stale daemon.json from pid " +:+ text_value (dget_or_none "pid" d) +:+ " removed)"
            | _ => ""
            end]
  end.
(** Whether the heartbeat is healthy, with its lines *)
Definition heartbeat_part (system : string) (f : fetched) (now : datetime) : res (list string * bool) :=
  match f with
  | NoUrl => Ok (["heartbeat: unavailable (web.database_url is not configured)"], false)
  | Unreachable reason => Ok (["heartbeat: database unreachable (" +:+ reason +:+ ")"], false)
  | Row None => Ok (["heartbeat: none recorded for system " +:+ system], false)
  | Row (Some row) =>
      '(ls, age) ← _print_heartbeat row now;
      status ← status_of row;
      if is_text "stopped" (dget_or_none "state" status)
      then Ok (ls ++ ["  collector stopped: the last heartbeat was written at shutdown"], false)
      else Ok (ls, num_ltb (NFloat age) (NInt _HEARTBEAT_FRESH_SEC))
  end.
Definition daemon_status (host system : string) (info stale : option dict) (f : fetched) (now : datetime) : res written :=
  ls ← local_lines host info stale now;
  '(hs, healthy) ← heartbeat_part system f now;
  Ok (Written (ls ++ hs) (if here host info || healthy then 0 else 1)).
End Status.

(** ** [soak report] *)

Section Report.
(** [format(value, spec)] *)
Context (format : value -> string -> res string).

Definition COLUMNS : list string :=
  ["node"; "hours"; "coverage%"; "census%"; "errors"; "max_gap_s"; "sessions"; "losses"; "rotations"; "reboots"; "cpu_s/h"; "rss_MB"; "maxrss_MB";
   "scan_p95_s"; "procs"].
Definition _fmt (v : value) (spec : string) : res string := match v with VNone => Ok "-" | v => format v spec end.
Definition opt_float (x : option float) : value := from_option VFloat VNone x.
(** [v / 1024] *)
Definition in_mb (v : value) : res value := n ← as_num v; x ← true_div n (NInt 1024); Ok (VFloat x).
Definition total_of (d : tally) : Z := foldr (fun kn acc => kn.2 + acc) 0 d.
Definition _row (label : string) (s : report) : res (list string) :=
  c1 ← _fmt (VFloat (hours s)) ".2f"; c2 ← _fmt (opt_float (coverage_pct s)) ".1f"; c3 ← _fmt (opt_float (census_coverage_pct s)) ".1f";
  c5 ← _fmt (opt_float (max_gap_sec s)) ".0f"; c10 ← _fmt (opt_float (probe_cpu_sec_per_hour s)) ".1f";
  rss ← match probe_rss_kb_max s with VNone => Ok VNone | v => in_mb v end; c11 ← _fmt rss ".1f";
  most ← in_mb (probe_maxrss_kb s); c12 ← _fmt most ".1f";
  c13 ← _fmt (census_scan_p95 s) ".2f"; c14 ← _fmt (opt_float (process_count_avg s)) ".0f";
  Ok [label; c1; c2; c3; pretty (total_of (r_errors_by_where s)); c5; pretty (sessions_started s); pretty (total_of (losses_by_reason s));
      pretty (rotations s); pretty (reboots s); c10; c11; c12; c13; c14].

Definition widest (cells : list string) : nat := foldr (fun c n => Nat.max (char_count c) n) 0%nat cells.
Fixpoint spaces (n : nat) : string := match n with O => "" | S n => String " " (spaces n) end.
Definition ljust (w : nat) (s : string) : string := s +:+ spaces (w - char_count s).
Definition rjust (w : nat) (s : string) : string := spaces (w - char_count s) +:+ s.
Definition column_at (rows : list (list string)) (i : nat) : list string := omap (fun r => r !! i) rows.
Definition widths_of (rows : list (list string)) : list nat := map (fun i => widest (column_at rows i)) (seq 0 (length COLUMNS)).
Definition report_line (widths : list nat) (cells : list string) : string :=
  joined "  " (match zip cells widths with
               | [] => []
               | (c, w) :: cws => ljust w c :: map (fun cw => rjust cw.2 cw.1) cws
               end).
Definition report_table (rows : list (list string)) : list string :=
  let rows := COLUMNS :: rows in map (report_line (widths_of rows)) rows.

(** The errors of [summarize] that are reported *)
Definition summarize_error (directory : string) (e : exn) : exn :=
  match e with
  | ValueError _ | KeyError _ | FileNotFound | OSErr _ | OSSub _ _ => ClickException ("cannot summarize " +:+ directory +:+ ": " +:+ exn_text e)
  | e => e
  end.
(** [soak report] as a table, of what [summarize] returned *)
Definition soak_report (directory : string) (summarized : res (list (string * report))) : res (list string) :=
  result ← match summarized with Ok r => Ok r | Raise e => Raise (summarize_error directory e) end;
  rows ← mapM_res (fun ls => _row ls.1 ls.2) result;
  Ok (report_table rows).
End Report.

(** ** Properties *)

(** The attempts that [rem] microseconds are enough for *)
Definition attempts_for (rem : Z) : Z := if rem <=? 0 then 1 else rem / (2 * second_us) + 2.

Lemma attempts_for_step rem slept : 0 < slept -> (rem < 2 * second_us -> rem <= slept) -> (2 * second_us <= rem -> 2 * second_us <= slept) ->
  1 + attempts_for (rem - slept) <= attempts_for rem \/ rem <= 0.
Proof.
  intros H1 H2 H3. unfold attempts_for. destruct (Z.leb_spec rem 0); [by right|]. left.
  assert (0 <= rem / (2 * second_us)) by (apply Z.div_pos; unfold second_us; lia).
  destruct (Z.leb_spec (rem - slept) 0); [lia|].
  assert (2 * second_us <= slept) by lia.
  assert (Hd : (rem - slept) / (2 * second_us) <= (rem - 2 * second_us) / (2 * second_us)) by (apply Z.div_le_mono; unfold second_us in *; lia).
  replace (rem - 2 * second_us) with (rem + (-1) * (2 * second_us)) in Hd by lia. rewrite Z.div_add in Hd by done. lia.
Qed.

Lemma attempts_for_mono a b : a <= b -> attempts_for a <= attempts_for b.
Proof.
  intros H. unfold attempts_for. destruct (Z.leb_spec a 0), (Z.leb_spec b 0); try lia.
  - assert (0 <= b / (2 * second_us)) by (apply Z.div_pos; unfold second_us; lia). lia.
  - assert (a / (2 * second_us) <= b / (2 * second_us)) by (apply Z.div_le_mono; unfold second_us; lia). lia.
Qed.

Definition sane_attempt (a : attempt) : Prop := 0 <= took a /\ 0 <= overslept a.

(** How the loop ends at the attempt [a] *)
Definition ends_with (timeout_text : string) (deadline : Z) (a : attempt) (r : res unit) (t : Z) : Prop :=
  match ended a with
  | Ok _ => r = Ok tt
  | Raise e => if retried e then r = Raise (not_reachable timeout_text e) /\ deadline <= t else r = Raise e
  end.
Definition failed_retried (a : attempt) : Prop := exists e, ended a = Raise e /\ retried e = true.

Lemma wait_loop_ends timeout_text deadline clock made attempts :
  Forall sane_attempt attempts -> attempts_for (deadline - clock) <= Z.of_nat (length attempts) ->
  exists before a after r t, attempts = before ++ a :: after /\ Forall failed_retried before /\
    wait_loop timeout_text deadline clock made attempts = Some (r, t, (made + S (length before))%nat) /\
    Z.of_nat (S (length before)) <= attempts_for (deadline - clock) /\ clock <= t /\ ends_with timeout_text deadline a r t.
Proof.
  intros Hs. revert clock made. induction Hs as [|a attempts [H1 H2] Hs IH]; intros clock made Hn.
  { exfalso. pose proof (attempts_for_mono (Z.min 0 (deadline - clock)) (deadline - clock) ltac:(lia)) as H. unfold attempts_for in H at 1.
    rewrite (proj2 (Z.leb_le _ _)) in H by lia. cbn in Hn. lia. }
  assert (Hpos : 1 <= attempts_for (deadline - clock)).
  { pose proof (attempts_for_mono (Z.min 0 (deadline - clock)) (deadline - clock) ltac:(lia)) as H. unfold attempts_for in H at 1.
    by rewrite (proj2 (Z.leb_le _ _)) in H by lia. }
  assert (Hstop : forall r t, wait_loop timeout_text deadline clock made (a :: attempts) = Some (r, t, S made) -> clock <= t ->
    ends_with timeout_text deadline a r t -> exists before a' after r t, a :: attempts = before ++ a' :: after /\ Forall failed_retried before /\
    wait_loop timeout_text deadline clock made (a :: attempts) = Some (r, t, (made + S (length before))%nat) /\
    Z.of_nat (S (length before)) <= attempts_for (deadline - clock) /\ clock <= t /\ ends_with timeout_text deadline a' r t).
  { intros r t E Ht He. exists [], a, attempts, r, t. cbn [length]. rewrite Nat.add_1_r. split_and!; try done. }
  destruct (ended a) as [[]|e] eqn:Ee.
  { apply (Hstop (Ok tt) (clock + took a)); [cbn; by rewrite Ee | lia | unfold ends_with; by rewrite Ee]. }
  destruct (retried e) eqn:Er.
  2: { apply (Hstop (Raise e) (clock + took a)); [cbn; by rewrite Ee, Er | lia | unfold ends_with; by rewrite Ee, Er]. }
  destruct (Z.leb_spec (deadline - (clock + took a)) 0) as [Hle|Hgt].
  { apply (Hstop (Raise (not_reachable timeout_text e)) (clock + took a)); [|lia|].
    - cbn. rewrite Ee, Er. by rewrite (proj2 (Z.leb_le _ _)).
    - unfold ends_with. rewrite Ee, Er. split; [done | lia]. }
  set (rem := deadline - (clock + took a)) in *. set (slept := Z.min (2 * second_us) rem).
  destruct (attempts_for_step rem slept) as [Hstep|]; [unfold slept, second_us in *; lia.. | | lia].
  assert (Hm1 : attempts_for (deadline - (clock + took a + slept + overslept a)) <= attempts_for (rem - slept)) by (apply attempts_for_mono; unfold rem; lia).
  assert (Hm2 : attempts_for rem <= attempts_for (deadline - clock)) by (apply attempts_for_mono; unfold rem; lia).
  destruct (IH (clock + took a + slept + overslept a) (S made)) as (before & a' & after & r & t & -> & Hb & E & Hc & Ht & He).
  { rewrite length_cons in Hn. lia. }
  exists (a :: before), a', after, r, t. split; [done|]. split; [constructor; [by exists e | done]|].
  split; [|split; [cbn [length]; lia | split; [|done]]].
  - cbn [wait_loop]. rewrite Ee, Er. fold rem. rewrite (proj2 (Z.leb_gt _ _)) by lia. fold slept. rewrite E. do 2 f_equal. cbn. lia.
  - unfold slept in Ht. unfold second_us in Ht. lia.
Qed.

(** C39. [database wait] ends, within one attempt for every two seconds of its timeout and two
    more, however long an attempt takes and a sleep overshoots: with success exactly when the
    last attempt connected; giving up only once the timeout has passed, with that attempt's own
    reason; at any other error at once.  Every attempt before had failed in a way that is
    retried. *)
Theorem database_wait_ends timeout timeout_text now attempts :
  Forall sane_attempt attempts -> attempts_for timeout <= Z.of_nat (length attempts) ->
  exists before a after r t, attempts = before ++ a :: after /\ Forall failed_retried before /\
    database_wait timeout timeout_text now attempts = Some (r, t, S (length before)) /\
    Z.of_nat (S (length before)) <= attempts_for timeout /\ now <= t /\ ends_with timeout_text (now + timeout) a r t.
Proof.
  intros Hs Hn. pose proof (wait_loop_ends timeout_text (now + timeout) now 0 attempts Hs) as H.
  replace (now + timeout - now) with timeout in H by lia. exact (H Hn).
Qed.

Lemma query_committed c : committed (query c).2 = committed c.
Proof.
  unfold query, execute. lazymatch goal with |- context [request _ ?x] => set (c1 := x) end.
  assert (E1 : committed c1 = committed c).
  { unfold c1. destruct (autocommit c || _) eqn:E; [done|]. apply orb_false_elim in E as [_ E%bool_decide_eq_false].
    unfold committed. cbn. destruct (m_saved c) eqn:Es; [destruct E; by eexists | done]. }
  rewrite <- E1. unfold request. destruct (closed c1); [done|]. by destruct (head (replies c1)) as [[|e []|]|].
Qed.

(** Migrations run as the owner of the schema or not at all: what other sessions see is as it
    was. *)
Theorem migrate_needs_owner migrations owner user c :
  owner <> Some user -> exists e c', database_migrate migrations owner user c = (Raise e, c') /\ committed c' = committed c.
Proof.
  intros Ho. pose proof (query_committed c) as He.
  assert (Hr : exists e c1, run_migrate migrations owner user c = (Raise e, c1) /\ committed c1 = committed c).
  { unfold run_migrate, _check_schema_owner, bind. destruct (query c) as [[[]|e] c1]; cbn in He; [|by exists e, c1].
    destruct owner as [o|]; [|by exists no_schema, c1].
    rewrite bool_decide_false by congruence. by exists (not_the_owner user o), c1. }
  destruct Hr as (e & c1 & Hr & Hc). destruct (run_database_run _ _ _ _ Hr) as (r & Hd & e' & ->).
  exists e', c1. split; [|done]. unfold database_migrate, bind. by rewrite Hd.
Qed.

Lemma is_text_true s v : is_text s v = true <-> v = VStr s.
Proof. destruct v; cbn; try (by split; intros H; inversion H). rewrite bool_decide_eq_true. split; [by intros -> | by intros [= ->]]. Qed.

(** [daemon status] exits 0 exactly when this host's daemon runs, or the heartbeat is less than
    180 seconds old and not a clean shutdown's. *)
Theorem daemon_status_code {Sh : Shown} host system info stale f now w : daemon_status host system info stale f now = Ok w ->
  code w = 0 <-> here host info = true \/
    exists row t st, f = Row (Some row) /\ time_in "last_seen" row = Ok t /\ status_of row = Ok st /\
      dget_or_none "state" st <> VStr "stopped" /\ num_ltb (NFloat (age_of now t)) (NInt _HEARTBEAT_FRESH_SEC) = true.
Proof.
  unfold daemon_status. intros H. ok_step H as (ls & _ & H). ok_step H as ([hs healthy] & Hh & H). injection H as <-. cbn [code].
  assert (Hhealthy : healthy = true <-> exists row t st, f = Row (Some row) /\ time_in "last_seen" row = Ok t /\ status_of row = Ok st /\
      dget_or_none "state" st <> VStr "stopped" /\ num_ltb (NFloat (age_of now t)) (NInt _HEARTBEAT_FRESH_SEC) = true).
  { unfold heartbeat_part in Hh. destruct f as [| |[row|]]; try (injection Hh as <- <-; split; [done|]; by intros (? & ? & ? & ? & _)).
    ok_step Hh as ([l age] & Hp & Hh). ok_step Hh as (st & Hst & Hh).
    unfold _print_heartbeat in Hp. ok_step Hp as (t & Ht & Hp). ok_step Hp as (st' & _ & Hp). ok_step Hp as (x & _ & Hp). ok_step Hp as (y & _ & Hp).
    ok_step Hp as (z & _ & Hp). ok_step Hp as (u & _ & Hp). injection Hp as _ <-.
    destruct (is_text "stopped" (dget_or_none "state" st)) eqn:Es; injection Hh as <- <-.
    - apply is_text_true in Es. split; [done|]. intros (row' & t' & st'' & [= <-] & _ & Hst' & Hn & _). rewrite Hst in Hst'. injection Hst' as <-. done.
    - assert (Hn : dget_or_none "state" st <> VStr "stopped") by (intros Hx; apply is_text_true in Hx; by rewrite Hx in Es).
      split; [intros Hf; by exists row, t, st|]. intros (row' & t' & st'' & [= <-] & Ht' & _ & _ & Hf). rewrite Ht in Ht'. by injection Ht' as <-. }
  rewrite <- Hhealthy. destruct (here host info), healthy; cbn; intuition discriminate.
Qed.

(** *** The lines of the report are all as long *)

Lemma char_count_spaces n : char_count (spaces n) = n.
Proof. induction n as [|n IH]; [done|]. cbn. by rewrite IH. Qed.

Lemma widest_bound c cells : c ∈ cells -> (char_count c <= widest cells)%nat.
Proof. unfold widest. induction 1 as [x l|x y l _ IH]; cbn [foldr]; lia. Qed.

Lemma joined_length cells : cells <> [] ->
  char_count (joined "  " cells) = (sum_list_with char_count cells + 2 * (length cells - 1))%nat.
Proof.
  induction cells as [|x l IH]; [done|]. intros _. destruct l as [|y l].
  - change (joined "  " [x]) with x. cbn. lia.
  - rewrite joined_cons, !char_count_app, IH by done. change (char_count "  ") with 2%nat. cbn [sum_list_with length]. lia.
Qed.

Lemma report_cells_length cells widths : Forall2 (fun c w => (char_count c <= w)%nat) cells widths ->
  sum_list_with char_count (map (fun cw => rjust cw.2 cw.1) (zip cells widths)) = sum_list widths.
Proof.
  induction 1 as [|c w cells widths H _ IH]; [done|].
  change (char_count (rjust w c) + sum_list_with char_count (map (fun cw => rjust cw.2 cw.1) (zip cells widths)) = w + sum_list widths)%nat. rewrite IH.
  unfold rjust. rewrite char_count_app, char_count_spaces. cbn. lia.
Qed.
Lemma report_line_length widths cells : Forall2 (fun c w => (char_count c <= w)%nat) cells widths -> widths <> [] ->
  char_count (report_line widths cells) = (sum_list widths + 2 * (length widths - 1))%nat.
Proof.
  intros H Hn. unfold report_line. destruct H as [|c w cells widths H Hs]; [done|].
  change (zip (c :: cells) (w :: widths)) with ((c, w) :: zip cells widths). cbv iota beta. rewrite joined_length by done.
  cbn [sum_list_with length]. rewrite length_map, report_cells_length by done.
  rewrite length_zip_with_l by (by rewrite (Forall2_length _ _ _ Hs)). rewrite (Forall2_length _ _ _ Hs).
  unfold ljust. rewrite char_count_app, char_count_spaces. cbn. lia.
Qed.

Lemma row_fits rows row : row ∈ rows -> length row = length COLUMNS -> Forall2 (fun c w => (char_count c <= w)%nat) row (widths_of rows).
Proof.
  intros Hr Hl. apply Forall2_lookup. intros i. unfold widths_of. rewrite list_lookup_fmap.
  destruct (row !! i) as [c|] eqn:Ec.
  - pose proof (lookup_lt_Some _ _ _ Ec) as Hi. rewrite lookup_seq_lt by lia. cbn. constructor. apply widest_bound.
    unfold column_at. apply list_elem_of_omap. by exists row.
  - apply lookup_ge_None in Ec. rewrite lookup_seq_ge by lia. constructor.
Qed.

Lemma row_length format label s row : _row format label s = Ok row -> length row = length COLUMNS /\ row !! 0%nat = Some label.
Proof. unfold _row. intros H. do 11 (ok_step H as (? & _ & H)). by injection H as <-. Qed.

Lemma table_aligned rows : Forall (fun row => length row = length COLUMNS) rows ->
  exists n, Forall (fun line => char_count line = n) (report_table rows).
Proof.
  intros H. unfold report_table.
  exists (sum_list (widths_of (COLUMNS :: rows)) + 2 * (length (widths_of (COLUMNS :: rows)) - 1))%nat.
  apply Forall_map, Forall_forall. intros row Hr. apply report_line_length; [|by unfold widths_of].
  apply row_fits; [done|]. apply elem_of_cons in Hr as [->|Hr]; [done|]. by apply (proj1 (Forall_forall _ _) H).
Qed.

(** The table of [soak report] is aligned: its lines are all as many characters, and there is
    one for the names and one for each node. *)
Theorem report_aligned format directory reports lines : soak_report format directory (Ok reports) = Ok lines ->
  length lines = S (length reports) /\ exists n, Forall (fun line => char_count line = n) lines.
Proof.
  unfold soak_report. intros H. cbn [mbind res_bind] in H. ok_step H as (rows & Hr & H). apply res_Ok_inj in H as <-. apply mapM_res_Forall2 in Hr.
  split; [unfold report_table; rewrite length_map; cbn; f_equal; by rewrite (Forall2_length _ _ _ Hr)|].
  apply table_aligned. clear -Hr. induction Hr as [|? ? ? ? E]; constructor; [by eapply row_length | done].
Qed.

(** ** Concrete runs *)

Definition refused : exn := PgError "OperationalError" true "" "connection refused".
(** Three failures and a connection: the sleeps are of 2 s, 2 s and what is left of the 5 s. *)
Lemma database_wait_ends_witness : exists before a after r t,
  [Attempt 0 (Raise refused) 0; Attempt 0 (Raise refused) 10; Attempt 100 (Raise refused) 0; Attempt 0 (Ok tt) 0; Attempt 0 (Ok tt) 0] = before ++ a :: after /\
  Forall failed_retried before /\
  database_wait 5000000 "5" 7 [Attempt 0 (Raise refused) 0; Attempt 0 (Raise refused) 10; Attempt 100 (Raise refused) 0; Attempt 0 (Ok tt) 0; Attempt 0 (Ok tt) 0]
    = Some (r, t, S (length before)) /\
  Z.of_nat (S (length before)) <= attempts_for 5000000 /\ 7 <= t /\ ends_with "5" (7 + 5000000) a r t.
Proof.
  apply (database_wait_ends 5000000 "5" 7); [|by vm_compute].
  repeat (apply Forall_cons; split; [unfold sane_attempt; cbn; lia|]). apply Forall_nil_2.
Defined.
Example wait_gives_up : database_wait 3000000 "3" 0 (replicate 5 (Attempt 0 (Raise refused) 0))
  = Some (Raise (not_reachable "3" refused), 3000000, 3%nat).
Proof. vm_compute. reflexivity. Qed.
Example age_texts : map (fun n => _age (float_of_Z n)) [(-5); 119; 120; 7199; 7200; 172799; 172800] = map Ok ["0s"; "119s"; "2m"; "119m"; "2h"; "47h"; "2d"].
Proof. vm_compute. reflexivity. Qed.
Example migrates_not_as_other : (database_migrate [(1, "0001_initial.sql")] (Some "owner") "postgres" (MConn (Schema None []) None true false false [])).1
  = Raise (not_the_owner "postgres" "owner").
Proof. reflexivity. Qed.
Example config_kept : config_command "template" "/c.yaml" (Some "mine") None = (Raise (ClickException "/c.yaml already exists; not overwriting"), Some "mine").
Proof. reflexivity. Qed.
