(* ===== verification/PrivateFiles.v ===== *)
(** * The private files of a recording, and the version that made it

    [make_private_dir], [_open_private], [_write_manifest] and the start of [run_soak], of
    [node_monitor/collector/soak.py], and [node_monitor/version.py].  The file system is a tree
    of directories and files with their modes; any call to it may fail, a write after a part.
    What git prints, [json.dumps] with an indent and the digest of the probe are parameters;
    links, and other processes in the directory, are not modelled. *)

From Stdlib Require Import ZArith Lia.
From S2P Require Import Prelude PyTime PyVal Text Config Replay.

#[local] Open Scope string_scope.
#[local] Open Scope list_scope.
#[local] Open Scope Z_scope.
#[local] Open Scope py_scope.

(** ** [version.py] *)

(** [subprocess.run] of git: what it raises, or its exit code and its output *)
Inductive git_run := GitRaised | GitRan (code : Z) (out : string).
Definition _git (g : git_run) : option string :=
  match g with
  | GitRan code out => if (code =? 0) && negb (bool_decide (strip out = "")) then Some (strip out) else None
  | GitRaised => None
  end.
Definition describe (version : string) (g : git_run) : string :=
  match _git g with Some revision => version +:+ "+" +:+ revision | None => version end.

(** ** The tree *)

(** A path, its last component first; [[]] is the root *)
Abbreviation path := (list string).
Inductive node := Dir (mode : Z) | File (mode : Z) (text : string).
Definition mode_of (n : node) : Z := match n with Dir m | File m _ => m end.
Definition with_mode (m : Z) (n : node) : node := match n with Dir _ => Dir m | File _ t => File m t end.

Record tree := Tree {
  at_path : gmap path node;
  fds : nat;
  fate : nat -> option (string * nat);
  calls : nat;
}.
Definition set_nodes n w : tree := Tree n (fds w) (fate w) (calls w).
Definition set_fds n w : tree := Tree (at_path w) n (fate w) (calls w).
Definition tick w : tree := Tree (at_path w) (fds w) (fate w) (S (calls w)).

Abbreviation TM := (M tree).

(** A system call: it fails with an [OSError], so much of a write done, or is carried out. *)
Definition sys {A} (failed : nat -> tree -> tree) (f : TM A) : TM A := fun w =>
  match fate w (calls w) with
  | Some (msg, part) => (Raise (OSErr msg), failed part (tick w))
  | None => f (tick w)
  end.
Definition untouched (_ : nat) (w : tree) : tree := w.

Definition PRIVATE_DIR_MODE : Z := 448.
Definition PRIVATE_FILE_MODE : Z := 384.

Section Private.
Context (umask : Z).
Definition masked (mode : Z) : Z := Z.land mode (Z.lnot umask).

Definition exists_ (p : path) : TM bool := sys untouched (gets (fun w => bool_decide (is_Some (at_path w !! p)))).
(** Whether a name can be looked up in a directory *)
Definition in_directory (w : tree) (p : path) : res unit :=
  match p with
  | [] => Ok tt
  | _ :: parent => match at_path w !! parent with
                   | Some (Dir _) => Ok tt
                   | Some (File _ _) => Raise (OSSub "NotADirectoryError" "Not a directory")
                   | None => Raise FileNotFound
                   end
  end.
(** [mkdir(mode, exist_ok=True)] *)
Definition mkdir (mode : Z) (p : path) : TM unit :=
  sys untouched (fun w =>
    match in_directory w p, at_path w !! p with
    | Raise e, _ => (Raise e, w)
    | _, Some (Dir _) => (Ok tt, w)
    | _, Some (File _ _) => (Raise (OSSub "FileExistsError" "File exists"), w)
    | _, None => (Ok tt, set_nodes (<[p := Dir (masked mode)]> (at_path w)) w)
    end).
(** [os.chmod] and [os.fchmod] *)
Definition chmod (mode : Z) (p : path) : TM unit :=
  sys untouched (fun w =>
    match at_path w !! p with
    | Some n => (Ok tt, set_nodes (<[p := with_mode mode n]> (at_path w)) w)
    | None => (Raise FileNotFound, w)
    end).

(** ** [make_private_dir] *)

(** The missing ancestors, the path first; a root that is missing is its own parent. *)
Fixpoint missing_from (p : path) : TM (list path) :=
  let* there := exists_ p in
  if there then ret []
  else match p with
       | [] => raise Hang
       | _ :: parent => let* l := missing_from parent in ret (p :: l)
       end.
Definition each (f : path -> TM unit) (l : list path) : TM unit := foldM (fun _ p => f p) tt l.
Definition make_private_dir (p : path) : TM unit :=
  let* missing := missing_from p in
  each (mkdir PRIVATE_DIR_MODE) (rev missing) ;;;
  each (chmod PRIVATE_DIR_MODE) (missing ++ [p]).

(** ** [_open_private] *)

Inductive open_mode := ToAppend | ToWrite.
(** [os.open] with [O_CREAT] and [O_APPEND] or [O_TRUNC] *)
Definition open_file (p : path) (m : open_mode) : TM unit :=
  sys untouched (fun w =>
    match in_directory w p, at_path w !! p with
    | Raise e, _ => (Raise e, w)
    | _, Some (Dir _) => (Raise (OSSub "IsADirectoryError" "Is a directory"), w)
    | _, Some (File mode text) =>
        (Ok tt, set_fds (S (fds w)) (set_nodes (<[p := File mode (match m with ToAppend => text | ToWrite => "" end)]> (at_path w)) w))
    | _, None => (Ok tt, set_fds (S (fds w)) (set_nodes (<[p := File (masked PRIVATE_FILE_MODE) ""]> (at_path w)) w))
    end).
(** [os.close] and [handle.close()]: the descriptor is gone even where it raises *)
Definition drop_fd (w : tree) : tree := set_fds (pred (fds w)) w.
Definition close_fd : TM unit := sys (fun _ => drop_fd) (modify drop_fd).
Definition fdopen : TM unit := sys untouched (ret tt).
Definition _open_private (p : path) (m : open_mode) : TM unit :=
  open_file p m ;;;
  try_except (chmod PRIVATE_FILE_MODE p ;;; fdopen)
    (fun e => if is_exception e then Some (close_fd ;;; raise e) else None).

(** ** [_write_manifest] *)

Definition add_text (p : path) (text : string) (w : tree) : tree :=
  set_nodes (alter (fun n => match n with File m t => File m (t +:+ text) | d => d end) p (at_path w)) w.
(** [handle.write(text)] with the [close] that flushes it, at the end of the [with] *)
Definition write_and_close (p : path) (text : string) : TM unit :=
  sys (fun part w => drop_fd (add_text p (prefix_of part text) w)) (modify (fun w => drop_fd (add_text p text w))).

Section Manifest.
Context (dumps_indented : value -> res string).
Context (started : datetime) (probe_version : Z) (git_commit git_described : git_run) (probe_sha256 : string).

Definition opt_text (s : option string) : value := from_option VStr VNone s.
Definition node_entry (n : NodeConfig) : value := VDict [("label", n_label n); ("ssh_target", n_ssh_target n)].
Definition manifest (config : Config) : dict :=
  [("started", VStr (isoformat started)); ("system", system config); ("nodes", VList (map node_entry (nodes config)));
   ("counter_interval_sec", field "counter_interval_sec" (collection config));
   ("census_interval_sec", field "census_interval_sec" (collection config));
   ("probe_version", VInt probe_version); ("git_commit", opt_text (_git git_commit)); ("git_describe", opt_text (_git git_described));
   ("probe_sha256", VStr probe_sha256)].
Definition manifest_path (out_dir : path) : path := "manifest.json" :: out_dir.
Definition _write_manifest (config : Config) (out_dir : path) : TM unit :=
  _open_private (manifest_path out_dir) ToWrite ;;;
  match dumps_indented (VDict (manifest config)) with
  | Ok text => write_and_close (manifest_path out_dir) (text +:+ String newline "")
  | Raise e => close_fd ;;; raise e
  end.

(** [run_soak], up to the recorder *)
Definition start_recording (config : Config) (out_dir : path) : TM unit :=
  make_private_dir out_dir ;;; _write_manifest config out_dir.
End Manifest.
End Private.

(** ** The manifest is read back *)

(** What [replay] and [summarize] read of a manifest is the configuration the recording had. *)
Lemma manifest_nodes_read started version commit described sha config :
  manifest_nodes (manifest started version commit described sha config) = Ok (map node_entry (nodes config)) /\
  Forall (fun n => entry_label (node_entry n) = Ok (n_label n)) (nodes config) /\
  item "counter_interval_sec" (manifest started version commit described sha config) = Ok (field "counter_interval_sec" (collection config)).
Proof. split_and!; [done | by apply Forall_true | done]. Qed.

Lemma describe_names version g revision : _git g = Some revision -> describe version g = version +:+ "+" +:+ revision /\ revision <> "".
Proof.
  unfold describe. intros E. rewrite E. split; [done|]. destruct g as [|code out]; [done|]. cbn in E.
  destruct (code =? 0); [|done]. destruct (bool_decide _) eqn:Eb; [done|]. injection E as <-. by apply bool_decide_eq_false in Eb.
Qed.

(** ** Hoare rules of the calls *)

Lemma hoare_sys {A} failed (f : TM A) (P : tree -> Prop) (Q : res A -> tree -> Prop) :
  (forall w msg part, P w -> Q (Raise (OSErr msg)) (failed part w)) -> (forall w, P w -> Q (f w).1 (f w).2) ->
  (forall w, P w -> P (tick w)) -> hoare P (sys failed f) Q.
Proof. intros Hf Hd Ht w Hw. unfold sys. destruct (fate w (calls w)) as [[msg part]|]; cbn; [by apply Hf, Ht | by apply Hd, Ht]. Qed.

Definition private (mode : Z) : Prop := Z.land mode 63 = 0.
Lemma masked_private umask mode : private mode -> private (masked umask mode).
Proof. unfold private, masked. intros H. by rewrite <- Z.land_assoc, (Z.land_comm _ 63), Z.land_assoc, H. Qed.

Section Prepared.
Context (umask : Z) (out : path) (before : tree).

(** Up to here only missing directories were made, and [out] and they were tightened; those of
    [tight] have their mode. *)
Record made (missing tight : list path) (w : tree) : Prop := Made {
  md_fds : fds w = fds before;
  md_kept : forall q n, q <> out -> at_path before !! q = Some n -> at_path w !! q = Some n;
  md_out : forall n, at_path before !! out = Some n -> at_path w !! out = Some n \/ at_path w !! out = Some (with_mode PRIVATE_DIR_MODE n);
  md_new : forall q n, at_path before !! q = None -> at_path w !! q = Some n -> q ∈ missing /\ exists m, n = Dir m /\ private m;
  md_tight : forall q, q ∈ tight -> exists n, at_path w !! q = Some n /\ mode_of n = PRIVATE_DIR_MODE;
}.
(** They are missing ancestors of [out]. *)
Definition lacking (l : list path) : Prop := Forall (fun q => q `suffix_of` out /\ at_path before !! q = None) l.

Lemma made_tick l t w : made l t w -> made l t (tick w).
Proof. intros []. by split. Qed.

(** Nothing was done yet. *)
Definition as_before (w : tree) : Prop := at_path w = at_path before /\ fds w = fds before.

Lemma hoare_missing_from p : p `suffix_of` out -> hoare as_before (missing_from p)
  (fun r w => as_before w /\ match r with Ok l => lacking l | Raise _ => True end).
Proof.
  induction p as [|x p IH]; intros Hp; cbn [missing_from];
    (eapply hoare_bind with (R := fun b w => as_before w /\ b = bool_decide (is_Some (at_path before !! _)));
      [apply hoare_sys; [intros; split; done | | done]; intros w [E1 E2]; cbn; split; [done|]; by rewrite E1|]).
  - intros b. apply hoare_if; intros ->; [apply hoare_ret | apply hoare_raise]; intros w [H _]; split; done || constructor.
  - intros b. apply hoare_pure. intros Hb. apply hoare_if; intros ->; [apply hoare_ret; intros w H; split; [done | constructor]|].
    eapply hoare_bind with (R := fun l w => as_before w /\ lacking l).
    + eapply hoare_post; [apply IH; etrans; [by apply suffix_cons_r | done]|]. intros [l|e] w H; done.
    + intros l. apply hoare_ret. intros w [H Hl]. split; [done|]. constructor; [|done]. split; [done|].
      symmetry in Hb. apply bool_decide_eq_false in Hb. by apply eq_None_not_Some.
Qed.

Lemma made_start missing w : as_before w -> made missing [] w.
Proof. intros [E1 E2]. split; rewrite ?E1; try done; [by left | intros q n H; by rewrite H |]. intros q H. by apply elem_of_nil in H. Qed.

Lemma mkdir_step missing q : lacking missing -> q ∈ missing ->
  hoare (made missing []) (mkdir umask PRIVATE_DIR_MODE q) (fun _ => made missing []).
Proof.
  intros Hl Hq. destruct (proj1 (Forall_forall _ _) Hl q Hq) as [_ Hn].
  apply hoare_sys; [done | | intros w; apply made_tick]. intros w Hw. cbv beta.
  destruct (in_directory w q) as [[]|]; [|done]. destruct (at_path w !! q) as [[]|] eqn:E; [done..|]. cbn [fst snd].
  destruct Hw as [H1 H2 H3 H4 H5]. split; [done|..]; cbn [at_path set_nodes].
  - intros p n Hp H. rewrite lookup_insert_ne by congruence. by apply H2.
  - intros n H. rewrite lookup_insert_ne by congruence. by apply H3.
  - intros p n Hp. rewrite lookup_insert_Some. intros [[<- <-]|[_ H]]; [|by apply H4].
    split; [done|]. eexists. split; [done|]. by apply masked_private.
  - intros p H. by apply elem_of_nil in H.
Qed.

Lemma chmod_step missing tight q : lacking missing -> q ∈ missing ++ [out] ->
  hoare (made missing tight) (chmod PRIVATE_DIR_MODE q) (fun r => made missing (match r with Ok _ => q :: tight | Raise _ => tight end)).
Proof.
  intros Hl Hq. apply hoare_sys; [done | | intros w; apply made_tick]. intros w Hw. cbv beta.
  destruct (at_path w !! q) as [n|] eqn:E; [|done]. cbn [fst snd].
  assert (Hor : q = out \/ at_path before !! q = None).
  { apply elem_of_app in Hq as [Hq | Hq%list_elem_of_singleton]; [right | by left]. by destruct (proj1 (Forall_forall _ _) Hl q Hq). }
  destruct Hw as [H1 H2 H3 H4 H5]. split; [done|..]; cbn [at_path set_nodes].
  - intros p m Hp H. destruct (decide (q = p)) as [->|Hne]; [destruct Hor; congruence|]. rewrite lookup_insert_ne by done. by apply H2.
  - intros m H. destruct (decide (q = out)) as [->|Hne]; [|rewrite lookup_insert_ne by done; by apply H3].
    right. rewrite lookup_insert_eq. destruct (H3 m H) as [H'|H']; rewrite E in H'; injection H' as ->; [done | by destruct m].
  - intros p m Hp. rewrite lookup_insert_Some. intros [[-> <-]|[_ H]]; [|by apply H4].
    destruct (H4 p n Hp E) as (Hm & ? & -> & _). split; [done|]. by eexists.
  - intros p Hp. destruct (decide (q = p)) as [->|Hne].
    + rewrite lookup_insert_eq. eexists. split; [done|]. by destruct n.
    + rewrite lookup_insert_ne by done. apply elem_of_cons in Hp as [->|Hp]; [done | by apply H5].
Qed.

Lemma make_private_dir_makes : hoare as_before (make_private_dir umask out)
  (fun r w => exists missing tight, lacking missing /\ made missing tight w /\ (r = Ok tt -> forall q, q ∈ missing ++ [out] -> q ∈ tight)).
Proof.
  unfold make_private_dir. eapply hoare_bind with (R := fun l w => as_before w /\ lacking l).
  { eapply hoare_post; [by apply hoare_missing_from|]. intros [l|e] w [H Hl]; [done|].
    exists [], []. split; [constructor|]. split; [by apply made_start | done]. }
  intros missing. apply hoare_pure. intros Hl. eapply hoare_bind with (R := fun _ => made missing []).
  - eapply hoare_conseq with (P' := fun w => made missing [] w /\ forall q, q ∈ rev missing -> q ∈ missing).
    + apply (hoare_foldM _ (fun l _ w => made missing [] w /\ forall q, q ∈ l -> q ∈ missing) (fun _ => made missing [])).
      intros q l _. apply hoare_pure. intros Hin. eapply hoare_post; [apply mkdir_step; [done | apply Hin; by left]|].
      intros [[]|e] w H; [|done]. split; [done|]. intros p Hp. apply Hin. by right.
    + intros w H. split; [by apply made_start|]. intros q. by rewrite list_elem_of_In, <- in_rev, <- list_elem_of_In.
    + intros [[]|e] w H; [by destruct H|]. exists missing, []. done.
  - intros _. eapply hoare_conseq with (P' := fun w => exists tight, made missing tight w /\
        (forall q, q ∈ missing ++ [out] -> q ∈ missing ++ [out] \/ q ∈ tight) /\ forall q, q ∈ missing ++ [out] -> q ∈ missing ++ [out]).
    + apply (hoare_foldM _ (fun l _ w => exists tight, made missing tight w /\
          (forall q, q ∈ missing ++ [out] -> q ∈ l \/ q ∈ tight) /\ forall q, q ∈ l -> q ∈ missing ++ [out])
        (fun _ w => exists tight, made missing tight w)).
      intros q l _ w (tight & Hw & Hd & Hin). pose proof (chmod_step missing tight q Hl (Hin q ltac:(by left)) w Hw) as H.
      destruct (chmod _ q w) as [[[]|e] w']; cbn in *; [|by exists tight]. exists (q :: tight). split; [done|]. split.
      * intros p Hp. destruct (Hd p Hp) as [Hq|Hq]; [apply elem_of_cons in Hq as [->|Hq]; [right; by left | by left] | right; by right].
      * intros p Hp. apply Hin. by right.
    + intros w Hw. exists []. split; [done|]. split; [by left | done].
    + intros [[]|e] w H; cbn in H.
      * destruct H as (tight & Hw & Hd & _). exists missing, tight. split; [done|]. split; [done|]. intros _ q Hq. destruct (Hd q Hq) as [Hx|]; [by apply elem_of_nil in Hx | done].
      * destruct H as (tight & Hw). exists missing, tight. done.
Qed.
End Prepared.

Section Opened.
Context (umask : Z) (p : path) (start : tree).

(** Only the file at [p] may differ, which has the text and a mode that holds of. *)
Definition only_file (text : string) (mode_ok : Z -> Prop) (w : tree) : Prop :=
  (forall q, q <> p -> at_path w !! q = at_path start !! q) /\ exists m, at_path w !! p = Some (File m text) /\ mode_ok m.
Definition same_nodes (w : tree) : Prop := at_path w = at_path start.
(** The mode it is opened with, and the text *)
Definition opened_mode (m : Z) : Prop :=
  match at_path start !! p with Some n => m = mode_of n | None => private m end.
Definition opened_text (o : open_mode) : string :=
  match o, at_path start !! p with ToAppend, Some (File _ t) => t | _, _ => "" end.
Definition fds_are (n : nat) (w : tree) : Prop := fds w = n.

Lemma open_file_opens o : hoare (fun w => same_nodes w /\ fds_are (fds start) w) (open_file umask p o)
  (fun r w => match r with
    | Ok _ => (only_file (opened_text o) opened_mode w /\ in_directory start p = Ok tt) /\ fds_are (S (fds start)) w
    | Raise _ => same_nodes w /\ fds_are (fds start) w
    end).
Proof.
  apply hoare_sys; [done | | done]. intros w [Hs Hf]. unfold same_nodes, fds_are in *.
  assert (Hd : in_directory w p = in_directory start p) by (unfold in_directory; by rewrite Hs). rewrite Hd.
  destruct (in_directory start p) as [[]|]; [|done]. unfold only_file, opened_text, opened_mode. rewrite Hs.
  assert (Ho : forall n q, q <> p -> <[p := n]> (at_path start) !! q = at_path start !! q) by (intros; by rewrite lookup_insert_ne).
  destruct (at_path start !! p) as [[mode|mode text]|]; [done| |]; cbn; rewrite Hf; (split; [|done]); (split; [|done]).
  - split; [by apply Ho|]. exists mode. rewrite lookup_insert_eq. by destruct o.
  - split; [by apply Ho|]. eexists. rewrite lookup_insert_eq. split; [by destruct o | by apply masked_private].
Qed.

Lemma chmod_file text (ok : Z -> Prop) n : hoare (fun w => only_file text ok w /\ fds_are n w) (chmod PRIVATE_FILE_MODE p)
  (fun r w => only_file text (match r with Ok _ => eq PRIVATE_FILE_MODE | Raise _ => ok end) w /\ fds_are n w).
Proof.
  apply hoare_sys; [done | | done]. intros w [[Ho (m & E & Hm)] Hf]. cbv beta. rewrite E. cbn [fst snd]. split; [|done].
  split; [intros q Hq; cbn; by rewrite lookup_insert_ne, Ho|]. exists PRIVATE_FILE_MODE. cbn. by rewrite lookup_insert_eq.
Qed.

(** Closing changes no node, and the descriptor is gone whatever it does. *)
Lemma close_drops (P : tree -> Prop) n : (forall w w', at_path w' = at_path w -> P w -> P w') ->
  hoare (fun w => P w /\ fds_are (S n) w) close_fd (fun _ w => P w /\ fds_are n w).
Proof.
  intros HP. unfold fds_are. apply hoare_sys; [| | intros w [H Hf]; split; [by apply (HP w) | done]].
  - intros w _ _ [H Hf]. split; [by apply (HP w) | cbn; by rewrite Hf].
  - intros w [H Hf]. split; [by apply (HP w) | cbn; by rewrite Hf].
Qed.

Lemma only_file_nodes text ok w w' : at_path w' = at_path w -> only_file text ok w -> only_file text ok w'.
Proof. unfold only_file. by intros ->. Qed.

Definition settled (m : Z) : Prop := opened_mode m \/ m = PRIVATE_FILE_MODE.

(** [_open_private] returns an open file of mode 0600, or raises with nothing left open: the
    file is then as it was, or as it was opened. *)
Lemma open_private_opens o : hoare (fun w => same_nodes w /\ fds_are (fds start) w) (_open_private umask p o)
  (fun r w => match r with
    | Ok _ => (only_file (opened_text o) (eq PRIVATE_FILE_MODE) w /\ in_directory start p = Ok tt) /\ fds_are (S (fds start)) w
    | Raise _ => (same_nodes w \/ only_file (opened_text o) settled w) /\ fds_are (fds start) w
    end).
Proof.
  unfold _open_private. eapply hoare_bind with
    (R := fun _ w => (only_file (opened_text o) opened_mode w /\ fds_are (S (fds start)) w) /\ in_directory start p = Ok tt).
  { eapply hoare_post; [apply open_file_opens|]. intros [[]|e] w H; [by destruct H as [[] ?] | destruct H; by split; [left|]]. }
  intros _. apply hoare_pure. intros Hd.
  eapply hoare_try with (R := fun e w => (only_file (opened_text o) settled w /\ fds_are (S (fds start)) w) /\ is_exception e = true).
  - eapply hoare_bind with (R := fun _ w => only_file (opened_text o) (eq PRIVATE_FILE_MODE) w /\ fds_are (S (fds start)) w).
    + eapply hoare_post with (Q' := fun r w => (only_file (opened_text o) (match r with Ok _ => eq PRIVATE_FILE_MODE | Raise _ => opened_mode end) w
          /\ fds_are (S (fds start)) w) /\ match r with Ok _ => True | Raise e => is_exception e = true end).
      * intros w Hw. pose proof (chmod_file (opened_text o) opened_mode (S (fds start)) w Hw) as H. split; [exact H|].
        unfold chmod, sys. destruct (fate w (calls w)) as [[]|]; [done|]. by destruct (at_path (tick w) !! p).
      * intros [[]|e] w [[H Hf] He]; [done|]. destruct H as (Ho & m & E & Hm). split; [|done]. split; [|done]. split; [done|]. exists m. split; [done|]. by left.
    + intros _. apply hoare_sys.
      * intros w msg part [H Hf]. destruct H as (Ho & m & E & Hm). split; [|done]. split; [|done]. split; [done|]. exists m. split; [done|]. by right.
      * intros w [Hw Hf]. split; [by split | exact Hf].
      * intros w [Hw Hf]. by split.
  - intros e k Hk. apply hoare_pure. intros He. rewrite He in Hk. injection Hk as <-.
    eapply hoare_bind with (R := fun _ w => only_file (opened_text o) settled w /\ fds_are (fds start) w).
    + eapply hoare_post; [apply close_drops; apply only_file_nodes|]. intros [[]|e'] w [H Hf]; [by split | by split; [right|]].
    + intros _. apply hoare_raise. intros w [H Hf]. by split; [right|].
  - intros e w He [_ He']. by rewrite He' in He.
Qed.

(** The text goes into a file that is private already. *)
Lemma write_and_close_writes text n : hoare (fun w => only_file "" (eq PRIVATE_FILE_MODE) w /\ fds_are (S n) w) (write_and_close p text)
  (fun r w => (exists part, only_file part (eq PRIVATE_FILE_MODE) w /\ (r = Ok tt -> part = text)) /\ fds_are n w).
Proof.
  assert (Ha : forall t w, only_file "" (eq PRIVATE_FILE_MODE) w -> only_file t (eq PRIVATE_FILE_MODE) (drop_fd (add_text p t w))).
  { intros t w [Ho (m & E & Hm)]. split; [intros q Hq; cbn; by rewrite lookup_alter_ne, Ho|]. exists m. cbn. by rewrite lookup_alter_eq, E. }
  apply hoare_sys; [| | done].
  - intros w msg part [H Hf]. split; [|unfold fds_are in *; cbn; by rewrite Hf]. eexists. split; [by apply Ha | done].
  - intros w [H Hf]. split; [|unfold fds_are in *; cbn; by rewrite Hf]. eexists. split; [by apply Ha | done].
Qed.
End Opened.

(** What is no ancestor of the directory is as it was. *)
Lemma made_elsewhere out before missing tight w q :
  made out before missing tight w -> lacking out before missing -> ~ q `suffix_of` out -> at_path w !! q = at_path before !! q.
Proof.
  intros [H1 H2 H3 H4 H5] Hl Hq. assert (Hne : q <> out) by (intros ->; by apply Hq).
  destruct (at_path before !! q) as [n|] eqn:E; [by apply H2|]. destruct (at_path w !! q) as [n|] eqn:E'; [|done].
  destruct (H4 q n E E') as [Hm _]. by destruct (proj1 (Forall_forall _ _) Hl q Hm).
Qed.

Section Recording.
Context (umask : Z) (dumps_indented : value -> res string) (started : datetime) (probe_version : Z).
Context (git_commit git_described : git_run) (probe_sha256 : string) (config : Config) (out : path).
#[local] Abbreviation mp := (manifest_path out).
#[local] Abbreviation text_of_manifest := (dumps_indented (VDict (manifest started probe_version git_commit git_described probe_sha256 config))).

Lemma write_manifest_writes start : hoare (fun w => same_nodes start w /\ fds_are (fds start) w)
  (_write_manifest umask dumps_indented started probe_version git_commit git_described probe_sha256 config out)
  (fun r w => ((same_nodes start w \/ only_file mp start "" (settled mp start) w \/
                (exists part, only_file mp start part (eq PRIVATE_FILE_MODE) w) /\ in_directory start mp = Ok tt) /\
               (r = Ok tt -> exists text, text_of_manifest = Ok text /\
                  only_file mp start (text +:+ String newline "") (eq PRIVATE_FILE_MODE) w /\ in_directory start mp = Ok tt)) /\ fds_are (fds start) w).
Proof.
  unfold _write_manifest. eapply hoare_bind with
    (R := fun _ w => (only_file mp start "" (eq PRIVATE_FILE_MODE) w /\ fds_are (S (fds start)) w) /\ in_directory start mp = Ok tt).
  { eapply hoare_post; [apply (open_private_opens umask mp start ToWrite)|].
    intros [[]|e] w; [by intros [[]]|]. intros [[H|H] Hf]; (split; [|done]); (split; [|done]); [by left | right; by left]. }
  intros _. apply hoare_pure. intros Hd. destruct text_of_manifest as [text|e].
  - eapply hoare_post; [apply write_and_close_writes|]. intros r w [(part & H & Hr) Hf]. split; [|done]. split.
    + right. right. split; [by exists part | done].
    + intros Hok. exists text. rewrite <- (Hr Hok). done.
  - eapply hoare_bind with (R := fun _ w => only_file mp start "" (eq PRIVATE_FILE_MODE) w /\ fds_are (fds start) w).
    + eapply hoare_post; [apply close_drops; apply only_file_nodes|]. intros [[]|e'] w [H Hf]; [done|].
      split; [|done]. split; [|done]. right. right. split; [by exists "" | done].
    + intros _. apply hoare_raise. intros w [H Hf]. split; [|done]. split; [|done]. right. right. split; [by exists "" | done].
Qed.

(** Where the directory ends up when the manifest could be opened in it. *)
Lemma tightened before missing tight w : made out before missing tight w -> out ∈ tight -> in_directory w mp = Ok tt ->
  at_path w !! out = Some (Dir PRIVATE_DIR_MODE).
Proof.
  intros Hm Ht Hd. destruct (md_tight _ _ _ _ _ Hm out Ht) as (n & E & Hn). unfold in_directory, manifest_path in Hd. rewrite E in Hd |- *.
  destruct n; cbn in *; [by subst | done].
Qed.

(** What the preparation leaves, after [r], of the tree as it was [before] *)
Record kept_private (before : tree) (r : res unit) (w : tree) : Prop := KeptPrivate {
  kp_fds : fds w = fds before;
  kp_kept : forall q n, q <> out -> q <> mp -> at_path before !! q = Some n -> at_path w !! q = Some n;
  kp_made : forall q n, q <> mp -> at_path before !! q = None -> at_path w !! q = Some n -> q `suffix_of` out /\ exists m, n = Dir m /\ private m;
  kp_manifest : forall n, at_path w !! mp = Some n -> at_path before !! mp = Some n \/ exists m t, n = File m t /\
     (t <> "" -> m = PRIVATE_FILE_MODE /\ at_path w !! out = Some (Dir PRIVATE_DIR_MODE)) /\ (at_path before !! mp = None -> private m);
  kp_done : r = Ok tt -> at_path w !! out = Some (Dir PRIVATE_DIR_MODE) /\
     (exists text, text_of_manifest = Ok text /\ at_path w !! mp = Some (File PRIVATE_FILE_MODE (text +:+ String newline ""))) /\
     forall q n, q <> mp -> at_path before !! q = None -> at_path w !! q = Some n -> n = Dir PRIVATE_DIR_MODE;
}.

Lemma made_private before missing tight e w : made out before missing tight w -> lacking out before missing -> kept_private before (Raise e) w.
Proof.
  intros Hm Hl. pose proof (made_elsewhere _ _ _ _ _ mp Hm Hl (suffix_cons_not _ _)) as Hmp. destruct Hm as [H1 H2 H3 H4 H5]. split; try done.
  - intros q n Hq _. by apply H2.
  - intros q n _ Hb Hw. destruct (H4 q n Hb Hw) as [Hin Hp]. split; [|done]. by destruct (proj1 (Forall_forall _ _) Hl q Hin).
  - intros n Hn. left. by rewrite <- Hmp.
Qed.

(** Writing the manifest changes nothing else, and what it changes is private. *)
Lemma written_private before missing tight w1 r w : made out before missing tight w1 -> lacking out before missing ->
  (forall q, q ∈ missing ++ [out] -> q ∈ tight) ->
  ((same_nodes w1 w \/ only_file mp w1 "" (settled mp w1) w \/ (exists part, only_file mp w1 part (eq PRIVATE_FILE_MODE) w) /\ in_directory w1 mp = Ok tt) /\
   (r = Ok tt -> exists text, text_of_manifest = Ok text /\
      only_file mp w1 (text +:+ String newline "") (eq PRIVATE_FILE_MODE) w /\ in_directory w1 mp = Ok tt)) /\ fds_are (fds w1) w ->
  kept_private before r w.
Proof.
  intros Hm Hl Ht [[Hw Hok] Hf]. assert (Hne : out <> mp) by (intros E; apply (suffix_cons_not "manifest.json" out); by rewrite E at 2).
  assert (Hother : forall q, q <> mp -> at_path w !! q = at_path w1 !! q).
  { destruct Hw as [H|[[H _]|[(part & H & _) _]]]; [intros q _; by rewrite H | done | done]. }
  assert (Hout : in_directory w1 mp = Ok tt -> at_path w !! out = Some (Dir PRIVATE_DIR_MODE)).
  { intros Hd. rewrite Hother by done. apply (tightened before missing tight); [done | | done]. apply Ht, elem_of_app. right. by left. }
  pose proof (made_elsewhere _ _ _ _ _ mp Hm Hl (suffix_cons_not _ _)) as Hmp.
  destruct (made_private before missing tight (OSErr "") w1 Hm Hl) as [K1 K2 K3 _ _]. split.
  - unfold fds_are in Hf. by rewrite Hf.
  - intros q n Ho Hq Hb. rewrite Hother by done. by apply K2.
  - intros q n Hq Hb. rewrite Hother by done. by apply K3.
  - intros n Hn. destruct Hw as [H|[[_ (m & E & Hs)]|[(part & _ & m & E & <-) Hd]]].
    + left. by rewrite <- Hmp, <- H.
    + right. rewrite E in Hn. injection Hn as <-. exists m, "". split; [done|]. split; [done|]. intros Hb.
      destruct Hs as [Hs| ->]; [|done]. unfold opened_mode in Hs. by rewrite Hmp, Hb in Hs.
    + right. rewrite E in Hn. injection Hn as <-. exists PRIVATE_FILE_MODE, part. split; [done|]. split; [|done]. intros _. split; [done | by apply Hout].
  - intros Hr. destruct (Hok Hr) as (text & Et & (_ & m & E & <-) & Hd). split; [by apply Hout|]. split; [by exists text|].
    intros q n Hq Hb Hn. rewrite Hother in Hn by done. destruct (md_new _ _ _ _ _ Hm q n Hb Hn) as (Hin & m & -> & _).
    destruct (md_tight _ _ _ _ _ Hm q) as (n & E' & Hmode); [apply Ht, elem_of_app; by left|]. rewrite E' in Hn. injection Hn as ->. cbn in Hmode. by subst.
Qed.

(** C40. Nothing of a recording is readable by others, however far its preparation gets.  Whatever
    call fails, [run_soak] reaches its recorder or raises such that no descriptor is left open,
    what was there keeps its mode and text, the directories it made are ancestors of its
    directory and the owner's alone, and a manifest that has any text is in a file of mode 0600
    in a directory of mode 0700; and when nothing failed, it is the whole manifest, and every
    directory made has mode 0700. *)
Theorem recording_private before :
  let '(r, w) := start_recording umask dumps_indented started probe_version git_commit git_described probe_sha256 config out before in
  kept_private before r w.
Proof.
  pose proof (make_private_dir_makes umask out before before ltac:(done)) as H. unfold start_recording, bind.
  destruct (make_private_dir umask out before) as [[[]|e] w1]; cbn [fst snd] in H; destruct H as (missing & tight & Hl & Hm & Ht);
    [|by eapply made_private].
  pose proof (write_manifest_writes w1 w1 ltac:(done)) as H.
  destruct (_write_manifest _ _ _ _ _ _ _ _ _ w1) as [r w]. by eapply written_private; [.. | exact H]; [| | apply Ht].
Qed.
End Recording.

(** ** When nothing fails *)

Definition quiet (w : tree) : Prop := forall n, fate w n = None.
Definition is_dir (w : tree) (p : path) : Prop := exists m, at_path w !! p = Some (Dir m).
Lemma run_sys {A} failed (f : TM A) w : quiet w -> sys failed f w = f (tick w).
Proof. intros H. unfold sys. by rewrite H. Qed.

Section Quiet.
Context (umask : Z).

Lemma mkdir_runs p w : quiet w -> match p with [] => True | _ :: parent => is_dir w parent end -> at_path w !! p = None ->
  exists w', mkdir umask PRIVATE_DIR_MODE p w = (Ok tt, w') /\ quiet w' /\ is_dir w' p /\ forall q, q <> p -> at_path w' !! q = at_path w !! q.
Proof.
  intros Hq Hp Hn. unfold mkdir. rewrite run_sys by done. assert (Hd : in_directory (tick w) p = Ok tt).
  { destruct p as [|x p]; [done|]. destruct Hp as [m E]. cbn. by rewrite E. }
  rewrite Hd. cbn [at_path tick]. rewrite Hn. eexists. split; [reflexivity|]. split; [done|]. split.
  - exists (masked umask PRIVATE_DIR_MODE). cbn. by rewrite lookup_insert_eq.
  - intros q Hne. cbn. by rewrite lookup_insert_ne.
Qed.

(** Every directory that is missing is made, the outermost first. *)
Lemma missing_made p w : quiet w -> (exists m, at_path w !! [] = Some (Dir m)) ->
  (forall q n, q `suffix_of` p -> at_path w !! q = Some n -> exists m, n = Dir m) ->
  exists l w1, missing_from p w = (Ok l, w1) /\ at_path w1 = at_path w /\ fate w1 = fate w /\ (forall q, q ∈ l -> q `suffix_of` p) /\
    forall w2, at_path w2 = at_path w -> quiet w2 ->
      exists w3, each (mkdir umask PRIVATE_DIR_MODE) (rev l) w2 = (Ok tt, w3) /\ quiet w3 /\ is_dir w3 p /\ (forall q, q ∈ l -> is_dir w3 q) /\
        forall q, q ∉ l -> at_path w3 !! q = at_path w !! q.
Proof.
  revert w. induction p as [|x p IH]; intros w Hq [m0 H0] Hdirs.
  - exists [], (tick w). cbn [missing_from]. unfold exists_, bind. rewrite run_sys by done. cbn. rewrite H0. cbn. split; [done|]. split; [done|]. split; [done|].
    split; [intros q Hin; by apply elem_of_nil in Hin|]. intros w2 E2 Hq2. exists w2. split; [done|]. split; [done|].
    split; [exists m0; by rewrite E2|]. split; [intros q Hin; by apply elem_of_nil in Hin | intros; by rewrite E2].
  - cbn [missing_from]. unfold exists_, bind. rewrite run_sys by done. cbn [gets at_path tick].
    destruct (at_path w !! (x :: p)) as [n|] eqn:E; cbn [bool_decide].
    + rewrite bool_decide_true by done. exists [], (tick w). split; [done|]. split; [done|]. split; [done|]. split; [intros q Hin; by apply elem_of_nil in Hin|].
      intros w2 E2 Hq2. exists w2. split; [done|]. split; [done|]. destruct (Hdirs (x :: p) n ltac:(done) E) as [m ->].
      split; [exists m; by rewrite E2|]. split; [intros q Hin; by apply elem_of_nil in Hin | intros; by rewrite E2].
    + rewrite bool_decide_false by (intros [? ?]; done).
      destruct (IH (tick w)) as (l & w1 & -> & E1 & Ef & Hl & Hmk); [done | by exists m0 | intros q n Hs; apply Hdirs; by apply suffix_cons_r |].
      exists ((x :: p) :: l), w1. split; [done|]. split; [done|]. split; [done|].
      split; [intros q [->|Hin]%elem_of_cons; [done | apply suffix_cons_r; by apply Hl]|].
      intros w2 E2 Hq2. destruct (Hmk w2 E2 Hq2) as (w3 & Er & Hq3 & Hd & Hall & Hrest).
      assert (Hnew : (x :: p) ∉ l) by (intros Hin; apply (suffix_cons_not x p), Hl, Hin).
      destruct (mkdir_runs (x :: p) w3 Hq3 Hd) as (w4 & Em & Hq4 & Hd4 & Ho4); [rewrite Hrest by done; exact E|].
      exists w4. unfold each in *. cbn [rev]. rewrite foldM_app. rewrite (run_bind_ok _ _ _ _ _ _ Er eq_refl). cbn [foldM]. rewrite (run_bind_ok _ _ _ _ _ _ Em eq_refl).
      split; [done|]. split; [done|]. split; [done|]. split.
      * intros q Hin. destruct (decide (q = x :: p)) as [->|Hne]; [done|]. apply elem_of_cons in Hin as [->|Hin]; [done|].
        destruct (Hall q Hin) as [m Hm]. exists m. by rewrite Ho4.
      * intros q Hnin. apply not_elem_of_cons in Hnin as [Hne Hnin]. rewrite Ho4 by done. by apply Hrest.
Qed.

Lemma chmod_all l w : quiet w -> (forall q, q ∈ l -> is_Some (at_path w !! q)) ->
  exists w', each (chmod PRIVATE_DIR_MODE) l w = (Ok tt, w') /\ quiet w'.
Proof.
  revert w. induction l as [|q l IH]; intros w Hq Hl; [by exists w|].
  destruct (Hl q ltac:(by left)) as [n E].
  assert (Er : chmod PRIVATE_DIR_MODE q w = (Ok tt, set_nodes (<[q := with_mode PRIVATE_DIR_MODE n]> (at_path w)) (tick w))).
  { unfold chmod. rewrite run_sys by done. cbn [at_path tick]. by rewrite E. }
  destruct (IH (set_nodes (<[q := with_mode PRIVATE_DIR_MODE n]> (at_path w)) (tick w))) as (w' & E' & Hq'); [done | |].
  { intros p Hp. cbn. destruct (decide (q = p)) as [->|Hne]; [rewrite lookup_insert_eq; by eexists | rewrite lookup_insert_ne by done; apply Hl; by right]. }
  exists w'. split; [|done]. unfold each in *. cbn [foldM]. by rewrite (run_bind_ok _ _ _ _ _ _ Er eq_refl).
Qed.

(** The directory is made wherever one can be: below a directory, with only directories on the
    way, when no call fails. *)
Theorem make_private_dir_succeeds p w : quiet w -> (exists m, at_path w !! [] = Some (Dir m)) ->
  (forall q n, q `suffix_of` p -> at_path w !! q = Some n -> exists m, n = Dir m) ->
  exists w', make_private_dir umask p w = (Ok tt, w') /\ quiet w' /\ at_path w' !! p = Some (Dir PRIVATE_DIR_MODE).
Proof.
  intros Hq H0 Hd. destruct (missing_made p w Hq H0 Hd) as (l & w1 & E1 & Es & Ef & _ & Hmk).
  destruct (Hmk w1 Es) as (w3 & E3 & Hq3 & Hp & Hall & _); [intros n; by rewrite Ef|].
  destruct (chmod_all (l ++ [p]) w3 Hq3) as (w4 & E4 & Hq4).
  { intros q [Hin | ->%list_elem_of_singleton]%elem_of_app; [destruct (Hall q Hin) as [m Hm] | destruct Hp as [m Hm]]; by eexists. }
  assert (E : make_private_dir umask p w = (Ok tt, w4)).
  { unfold make_private_dir. rewrite (run_bind_ok _ _ _ _ _ _ E1 eq_refl). by rewrite (run_bind_ok _ _ _ _ _ _ E3 eq_refl). }
  exists w4. split; [done|]. split; [done|].
  pose proof (make_private_dir_makes umask p w w ltac:(done)) as H. rewrite E in H. destruct H as (missing & tight & Hl & Hm & Ht).
  destruct (md_tight _ _ _ _ _ Hm p) as (n & En & Hmode); [apply Ht; [done|]; apply elem_of_app; right; by left|].
  assert (Hn : exists m, n = Dir m).
  { destruct (at_path w !! p) as [n0|] eqn:E0; [|destruct (md_new _ _ _ _ _ Hm p n E0 En) as (_ & m & -> & _); by exists m].
    destruct (Hd p n0 ltac:(done) E0) as [m ->]. destruct (md_out _ _ _ _ _ Hm _ E0) as [E'|E']; rewrite En in E'; injection E' as ->; by eexists. }
  destruct Hn as [m ->]. cbn in *. by subst m.
Qed.
End Quiet.

(** ** Concrete runs *)

Definition no_failure : nat -> option (string * nat) := fun _ => None.
(** A home directory of mode 0755 in which a group-readable [logs] was made before *)
Definition home (fate : nat -> option (string * nat)) : tree :=
  Tree (list_to_map [([], Dir 493); (["home"], Dir 493); (["logs"; "home"], Dir 509)]) 0 fate 0.
Definition soak_dir : path := ["20260101T000000Z"; "soak"; "logs"; "home"].
Definition modes_after (w : tree) : list (option Z) :=
  map (fun q => option_map mode_of (at_path w !! q)) [["logs"; "home"]; ["soak"; "logs"; "home"]; soak_dir].
Example soak_dir_made :
  let '(r, w) := make_private_dir 18 soak_dir (home no_failure) in r = Ok tt /\ modes_after w = [Some 509; Some 448; Some 448].
Proof. vm_compute. done. Qed.
(** The umask takes a bit of the owner's away, which [chmod] gives back. *)
Example umask_undone :
  let '(r, w) := make_private_dir 119 soak_dir (home no_failure) in r = Ok tt /\ modes_after w = [Some 509; Some 448; Some 448].
Proof. vm_compute. done. Qed.
Example existing_tightened :
  let '(r, w) := make_private_dir 18 ["logs"; "home"] (home no_failure) in
  r = Ok tt /\ modes_after w = [Some 448; None; None].
Proof. vm_compute. done. Qed.
(** A file that is there keeps its text, and is closed again if it cannot be made private. *)
Definition with_log (fate : nat -> option (string * nat)) : tree :=
  set_nodes (<[["day"; "logs"; "home"] := File 420 "old"]> (at_path (home fate))) (home fate).
Example log_appended :
  let '(r, w) := _open_private 18 ["day"; "logs"; "home"] ToAppend (with_log no_failure) in
  r = Ok tt /\ at_path w !! ["day"; "logs"; "home"] = Some (File 384 "old") /\ fds w = 1%nat.
Proof. vm_compute. done. Qed.
Example log_closed :
  let '(r, w) := _open_private 18 ["day"; "logs"; "home"] ToAppend (with_log (fun n => if (n =? 1)%nat then Some ("EPERM", 0%nat) else None)) in
  r = Raise (OSErr "EPERM") /\ at_path w !! ["day"; "logs"; "home"] = Some (File 420 "old") /\ fds w = 0%nat.
Proof. vm_compute. done. Qed.
Example versions : (describe "1.2" (GitRan 0 ("abc-dirty" +:+ String newline "")), describe "1.2" (GitRan 128 ""), describe "1.2" GitRaised)
  = ("1.2+abc-dirty", "1.2", "1.2").
Proof. vm_compute. done. Qed.
